(* ===== verification/_CoqProject ===== *)
-Q . S2P
Prelude.v
Kservice.v
Ram.v
Strings.v
RtList.v
Rings.v
KMonad.v
Printf.v
KState.v
KPrim.v
KInv.v
Scheduler.v
Object.v
TimerBase.v
Thread.v
Timer.v
Ipc.v
IpcMsg.v
Mem.v
MemHeap.v
Completion.v
DataQueue.v
MemPool.v
Dynamic.v
Idle.v
Device.v
RingBuffer.v
KernelInv.v
ThreadProof.v
ObjectProof.v
WaitProof.v
TimerProof.v
TimerCheckProof.v
BlockProof.v
WakeAll.v
Board.v
SchedTheorems.v
ThreadTheorems.v
TimerTheorems.v
SemProof.v
SemTheorems.v
MemProof.v
BlockMap.v
Allocator.v
MemHeapProof.v
MemHeapSpec.v
MemSpec.v
MemHeapOps.v
MemHeapMap.v
MemTheorems.v
HeapMap.v
MemHeapTheorems.v
AllocTheorems.v
ObjectTheorems.v
DynamicProof.v
DynamicTheorems.v
IdleTheorems.v
PrintfTheorems.v
DeviceTheorems.v
CompletionTheorems.v
DataQueueTheorems.v
MemPoolTheorems.v
RingBufferTheorems.v
MutexProof.v
MutexTheorems.v
MailboxProof.v
MailboxTheorems.v
MsgQueueProof.v
MsgQueueTheorems.v
EventProof.v
EventTheorems.v
