(* ===== verification/Prelude.v ===== *)
(** * RT-Thread kernel: verification library (root file)

    A model of the core of the RT-Thread operating system as it is configured
    for the TM4C129x board ([bsp/tm4c129x/rtconfig.h]: 256 priorities, one-level
    timer lists, software timers, all communication objects, debug checks on,
    no signals, no modules), and the theorems that make it correct.  Source
    paths below are relative to the repository: [src/] is the kernel,
    [include/] its headers, [libcpu/arm/cortex-m4/] the processor port.

    ** The program and its model

    The kernel is a set of structures linked by intrusive doubly linked lists
    and a few global variables; its functions run in threads or in interrupt
    handlers and exclude each other by masking interrupts.
    - [RtList.v]: the lists of [include/rtservice.h].  The pointer code works on
      a heap of nodes ([ptr_store]); [view_store] is the contract, a map from
      every node to the other nodes of its ring.  Both implement the class
      [ListStore], over which all kernel functions are written.
    - [KState.v]: the structures of [include/rtdef.h] as records, list nodes as
      locations [loc], and the state [kst]: the links, the objects by number,
      and the globals of [scheduler.c], [timer.c], [clock.c] and [irq.c].
    - [KMonad.v]: the effect of a call.  A call returns ([Ok]), leaves the
      processor ([Switch], with its continuation for the state in which it is
      resumed), or stops in a failed [RT_ASSERT], a bad access or an endless
      loop ([Err]).  [wp] is total correctness over all resumptions.
    - [KPrim.v]: masking, the pending context switch of the Cortex-M4 port
      ([context_gcc.S]), dereferencing, [include/rtdebug.h] and [src/irq.c].
    - [Kservice.v]: [__rt_ffs] and the name functions of [src/kservice.c].
    - [Ram.v]: memory as a map from addresses to bytes ([ram]) and [rt_memset],
      [rt_memcpy], [rt_memmove], [rt_memcmp] of [src/kservice.c] on it.
      [Strings.v]: its functions on strings in memory.  [Printf.v]:
      [rt_vsnprintf] and the functions around it.
    - [Scheduler.v] ([src/scheduler.c]), [Object.v] ([src/object.c]),
      [TimerBase.v], [Timer.v] ([src/timer.c], [src/clock.c]), [Thread.v]
      ([src/thread.c]), [Ipc.v] and [IpcMsg.v] ([src/ipc.c]: waiting lists,
      semaphores, mutexes; events, mailboxes, message queues).  A definition has
      the name of the C function; a loop is a fixpoint of its own, named in the
      function's comment.  [_rt_thread_init] and [_rt_timer_init] are
      [rt_thread_init_fields] and [rt_timer_init_fields]; [_rt_timer_remove] is
      [rt_timer_remove].
    - [Mem.v] ([src/mem.c]): the small-memory heap.  Its blocks are bytes of a
      [ram]; the file's static variables are the record [heap]; a call runs on
      the kernel state and the heap together, blocks on [heap_sem] through the
      kernel model, and uses the heap alone in between ([malloc_locked],
      [free_locked], [realloc_split]).
    - [MemPool.v] ([src/mempool.c]): memory pools; the pool object is in the
      kernel state, its blocks are bytes of the heap's memory.
    - [MemHeap.v] ([src/memheap.c]): memory heaps.  The headers of blocks are
      records by address, the data behind them bytes; a call runs on the kernel
      state and the store of all heaps together ([mstore]), under the heap's own
      semaphore, and uses the store alone in between ([mh_alloc_locked],
      [mh_free_locked], [realloc_expand], [realloc_shrink]).
    - [Allocator.v]: the contract of a heap towards its users (class
      [Allocator]), and [rt_malloc_align] and [rt_free_align] of
      [src/kservice.c] over any heap that keeps it.
    - [Dynamic.v]: objects on the heap, [rt_object_allocate] to
      [rt_object_delete] and the [create] and [delete] functions of all objects.
      The number of such an object is its address.  [Idle.v] ([src/idle.c]): the
      idle thread's reclamation of defunct threads.
    - [Device.v] ([src/device.c]): the device registry, and the console of
      [src/kservice.c] ([rt_kputs], [rt_kprintf]).  A driver is a record of
      functions ([driver]), a parameter of the model.
    - The structures drivers communicate with
      ([components/drivers/src/]): [RingBuffer.v] ([ringbuffer.c]),
      [Completion.v] ([completion.c]), [DataQueue.v] ([dataqueue.c]).  A call
      runs on the structure beside the kernel, or beside the memory
      ([KMonad.kernel], [KMonad.beside]); their waiting lists are lists of the
      kernel ([LDriver]).

    ** The theorems

    [KInv.v] and [KernelInv.v] state the kernel invariant [kinv idle s Q]: the
    links are coherent; [Q p] is the ready queue of priority [p] and both levels
    of the priority bitmap say which queues are non-empty; a thread is queued
    where its status says; waiting lists hold suspended threads; timer lists
    hold active timers, and a thread's timer only while it is suspended; the
    thread [idle] is always ready.  [ThreadProof], [WaitProof], [TimerProof],
    [TimerCheckProof], [BlockProof], [ObjectProof], [SemProof], [MutexProof], [MailboxProof],
    [MsgQueueProof] and [EventProof] show how the operations transform such states;
    [BlockProof.block_eq] and [wake_eq] are the blocking and waking sequences
    every communication object uses, [append_park_eq] and [driver_wake_eq] those
    of the drivers' structures.  The [*Theorems] files hold the
    properties:
    - lists ([RtList.v]) and find-first-set ([Kservice.v]): refinement of
      pointer code and equivalence with a reference;
    - scheduling ([SchedTheorems.v]): the highest priority runs, the ready
      queues refine lists, critical sections nest;
    - threads ([ThreadTheorems.v]): round robin, suspend and resume, priority
      changes, sleeping, the order in which threads wait and are woken;
    - timers ([TimerTheorems.v]): the list is kept in order of expiry;
      [rt_timer_check] fires the expired timers, calling their functions, and
      terminates, when these start no hard timer and no period is 0; stopping,
      the conversion of milliseconds;
    - semaphores and mutexes ([SemTheorems.v], [MutexTheorems.v]): safety in a
      running system as rely-guarantee total correctness (every state a call is
      left and resumed in satisfies the invariant), every branch of the
      operations, priority inheritance, hand-over;
    - mailboxes and message queues ([MailboxTheorems.v], [MsgQueueTheorems.v]):
      they implement bounded queues, with wake-ups and refusals;
    - events ([EventTheorems.v]): exactly the satisfied threads are woken, every
      branch of receiving;
    - memory functions ([Ram.v]): the loops by words do what the byte loops do;
    - strings ([Strings.v]): searching and comparing;
    - formatted output ([PrintfTheorems.v]): what is written is the text of the
      arguments, as far as it fits ([meant] is the text a format stands for,
      [printed] the one the code writes, different for [%o] and [%.0s]);
    - devices ([DeviceTheorems.v]): opening and closing count users and call the
      driver as an abstract device does, the console gets the formatted text;
    - the heap: [MemProof.v] states that the bytes of a heap represent a list of
      blocks ([heap_rep]) and proves the parts that run under the semaphore,
      [MemSpec.v] the whole calls; [MemTheorems.v] has first fit, coalescing,
      reallocation, zeroed allocation, the round trip of allocating and freeing,
      initialisation, and safety in a running system; [HeapMap.v] shows that a
      heap implements a finite map from addresses to contents;
    - memory heaps: [Rings.v] has rings of records that are linked by two fields,
      [MemHeapProof.v] and [MemHeapSpec.v] show what the code under the lock does
      to the ring of blocks and the ring of free blocks ([pool_rep]),
      [MemHeapOps.v] the whole calls, [MemHeapMap.v] the map of blocks and
      reallocation; [MemHeapTheorems.v] has initialisation, first fit,
      coalescing and the map.  [BlockMap.v] is what both heaps share, and
      [AllocTheorems.v] proves aligned allocation for the system heap;
    - objects ([ObjectTheorems.v]): registering, finding by name, removing; on
      the heap ([DynamicProof.v], [DynamicTheorems.v]): creating a semaphore,
      deleting one with waiting threads ([WakeAll.v] wakes them all); the idle
      thread's reclamation ([IdleTheorems.v]);
    - memory pools ([MemPoolTheorems.v]): initialisation links all blocks, every
      branch of allocation and release;
    - the drivers' structures ([RingBufferTheorems.v], [CompletionTheorems.v],
      [DataQueueTheorems.v]): bounded queues of bytes and of items, every branch
      of waiting and waking; a data queue through any number of wraps of its
      16-bit indices, when its size divides 65536, with what goes wrong while
      only one of them has wrapped.
    Some theorems state what goes wrong: the count of waiting threads of a pool
    after a timeout, a pool without room, the forced write of a ring buffer, the
    completion lost after a timeout, the wrapped counter of a data queue, the signed nesting counter, a soft timer
    that stops its neighbour, a periodic timer of period 0, nested mutexes, the
    overflow of semaphore values and of the millisecond conversion, the limit
    of timeouts, the limits of [rt_malloc] and the free block [rt_realloc] hides,
    the sizes [rt_memheap_realloc] does not notice,
    the device a refused close locks.
    [Board.v] boots a board of six threads with the modelled code
    and decides the invariant on concrete states; every theorem with hypotheses
    is applied to a state reached on it.

    ** Bounds and fuel

    A walk along a list has the number of nodes as fuel ([list_fuel]), which the
    length of a ring never exceeds.  [rt_timer_check] has an explicit fuel, since
    a timeout function may start timers; when it starts none, [TimerTheorems.timer_check_expires]
    gives the number of rounds that is enough.  The loops of mailboxes, message
    queues and [rt_mutex_take] repeat when a woken thread finds nothing; their
    fuel counts these rounds.  The walks along the blocks of the heap have one
    more than its size in bytes as fuel ([heap_fuel]); the theorems on
    [rt_malloc] show that they end; the search of a memory heap has the number
    of headers as fuel, which the free list never exceeds.  Integers are kept in [Z] and truncated at every
    store ([u8] to [i32] below).

    ** What is not modelled

    Objects are numbers: [RT_ASSERT(object != RT_NULL)] always holds, and a use
    of an object that does not exist is [Err Bad_pointer].  Interrupts occur
    between kernel calls and at context switches, not inside a region with
    interrupts enabled within one call.  Hooks are null and log switches off, as
    in the configuration.  Time slices ([rt_tick_increase]) are modelled but not
    proved correct yet.  An object on the heap is a record of the kernel state;
    its bytes in the heap's memory are not.  The messages of failed assertions,
    the listing commands of the shell, signals, modules, hardware drivers, file
    systems and the network stack are outside; the manifest lists them. *)
From stdpp Require Export base numbers list gmap fin_maps sorting.
From Stdlib Require Export ZArith Lia.

#[global] Set Default Proof Using "Type".

(** ** Machine integers

    [rtdef.h] fixes the widths: [rt_uint8_t], [rt_uint16_t] and [rt_uint32_t]
    wrap modulo their width; [rt_int16_t] and [rt_int32_t] are two's
    complement.  Values are kept in [Z] and every store goes through one of
    these truncations. *)
Declare Scope kern_scope.
Delimit Scope kern_scope with kern.

Definition u8 (x : Z) : Z := (x mod 2 ^ 8)%Z.
Definition u16 (x : Z) : Z := (x mod 2 ^ 16)%Z.
Definition u32 (x : Z) : Z := (x mod 2 ^ 32)%Z.
Definition i8 (x : Z) : Z := ((x + 2 ^ 7) mod 2 ^ 8 - 2 ^ 7)%Z.
Definition i16 (x : Z) : Z := ((x + 2 ^ 15) mod 2 ^ 16 - 2 ^ 15)%Z.
Definition i32 (x : Z) : Z := ((x + 2 ^ 31) mod 2 ^ 32 - 2 ^ 31)%Z.

(** [RT_ALIGN] and [RT_ALIGN_DOWN] on 32-bit unsigned operands. *)
Definition RT_ALIGN (size align : Z) : Z :=
  Z.land (u32 (size + align - 1)) (Z.lnot (align - 1)).
Definition RT_ALIGN_DOWN (size align : Z) : Z :=
  Z.land size (Z.lnot (align - 1)).

(** ** Return codes ([rtdef.h]); functions return the negated codes. *)
Definition RT_EOK : Z := 0.
Definition RT_ERROR : Z := 1.
Definition RT_ETIMEOUT : Z := 2.
Definition RT_EFULL : Z := 3.
Definition RT_EEMPTY : Z := 4.
Definition RT_ENOMEM : Z := 5.
Definition RT_EINTR : Z := 9.

Lemma u8_range x : (0 <= u8 x < 256)%Z.
Proof. unfold u8. apply Z.mod_pos_bound. lia. Qed.

Lemma u16_range x : (0 <= u16 x < 65536)%Z.
Proof. unfold u16. apply Z.mod_pos_bound. lia. Qed.

Lemma u32_range x : (0 <= u32 x < 4294967296)%Z.
Proof. unfold u32. apply Z.mod_pos_bound. lia. Qed.

Lemma u8_small x : (0 <= x < 256)%Z -> u8 x = x.
Proof. intros. unfold u8. apply Z.mod_small. lia. Qed.

Lemma u16_small x : (0 <= x < 65536)%Z -> u16 x = x.
Proof. intros. unfold u16. apply Z.mod_small. lia. Qed.

Lemma u32_small x : (0 <= x < 4294967296)%Z -> u32 x = x.
Proof. intros. unfold u32. apply Z.mod_small. lia. Qed.

Lemma i8_small x : (-128 <= x < 128)%Z -> i8 x = x.
Proof. intros. unfold i8. rewrite Z.mod_small; lia. Qed.

Lemma i16_small x : (-32768 <= x < 32768)%Z -> i16 x = x.
Proof. intros. unfold i16. rewrite Z.mod_small; lia. Qed.

Lemma i32_small x : (-2147483648 <= x < 2147483648)%Z -> i32 x = x.
Proof. intros. unfold i32. rewrite Z.mod_small; lia. Qed.

(** Wrap-around is absorbed by a later one. *)
Local Open Scope Z_scope.
Lemma i16_mod a k : i16 (a + 65536 * k) = i16 a.
Proof.
  unfold i16. replace (a + 65536 * k + 2 ^ 15) with (a + 2 ^ 15 + k * 2 ^ 16) by lia.
  by rewrite Z.mod_add.
Qed.

Lemma i16_add a b : i16 (i16 a + b) = i16 (a + b).
Proof.
  unfold i16. f_equal. replace ((a + 2 ^ 15) mod 2 ^ 16 - 2 ^ 15 + b + 2 ^ 15) with ((a + 2 ^ 15) mod 2 ^ 16 + b) by lia.
  rewrite Zplus_mod_idemp_l. f_equal. lia.
Qed.

Lemma i32_add a b : i32 (i32 a + b) = i32 (a + b).
Proof.
  unfold i32. f_equal.
  replace ((a + 2 ^ 31) mod 2 ^ 32 - 2 ^ 31 + b + 2 ^ 31) with ((a + 2 ^ 31) mod 2 ^ 32 + b) by lia.
  rewrite Zplus_mod_idemp_l. f_equal. lia.
Qed.
Local Close Scope Z_scope.

(** ** Bit-level facts used by the ready bitmap and the flag words *)
Lemma testbit_pow2 m n :
  (0 <= m)%Z -> Z.testbit (Z.shiftl 1 m) n = bool_decide (n = m).
Proof.
  intros Hm. rewrite Z.shiftl_1_l.
  destruct (decide (n = m)) as [->|Hn].
  - rewrite Z.pow2_bits_true by done. by rewrite bool_decide_true.
  - rewrite Z.pow2_bits_false by done. by rewrite bool_decide_false.
Qed.

(** A word below [2^w] has no bit at or above [w]. *)
Lemma testbit_ge_width x w n :
  (0 <= x < 2 ^ w)%Z -> (0 <= w <= n)%Z -> Z.testbit x n = false.
Proof.
  intros Hx Hn.
  rewrite <-(Z.mod_small x (2 ^ w)) by done.
  apply Z.mod_pow2_bits_high. lia.
Qed.

(** Two words are equal as soon as their low bits agree and both fit. *)
Lemma word_eq_bits x y w :
  (0 <= w)%Z -> (0 <= x < 2 ^ w)%Z -> (0 <= y < 2 ^ w)%Z ->
  (forall n, (0 <= n < w)%Z -> Z.testbit x n = Z.testbit y n) -> x = y.
Proof.
  intros Hw Hx Hy Hb. apply Z.bits_inj'. intros n Hn.
  destruct (decide (n < w)%Z).
  - apply Hb. lia.
  - rewrite !(testbit_ge_width _ w); [done|lia..].
Qed.

Lemma word_zero_bits x w :
  (0 <= w)%Z -> (0 <= x < 2 ^ w)%Z ->
  (x = 0%Z <-> forall n, (0 <= n < w)%Z -> Z.testbit x n = false).
Proof.
  intros Hw Hx. split.
  - intros -> n _. apply Z.testbit_0_l.
  - intros Hb. apply (word_eq_bits _ _ w); [done|done|lia|].
    intros n Hn. rewrite Z.testbit_0_l. auto.
Qed.

(** A non-zero word below [2^w] has a least set bit, below [w]. *)
Lemma word_least_bit x w :
  (0 <= w)%Z -> (0 <= x < 2 ^ w)%Z -> x <> 0%Z ->
  exists b, (0 <= b < w)%Z /\ Z.testbit x b = true /\
            (forall n, (0 <= n < b)%Z -> Z.testbit x n = false).
Proof.
  intros Hw Hx Hnz.
  assert (forall k : nat, (Z.of_nat k <= w)%Z ->
    (forall n, (0 <= n < Z.of_nat k)%Z -> Z.testbit x n = false) \/
    exists b, (0 <= b < Z.of_nat k)%Z /\ Z.testbit x b = true /\
            (forall n, (0 <= n < b)%Z -> Z.testbit x n = false)) as Hk.
  { induction k as [|k IH]; intros Hk; [left; lia|].
    destruct IH as [IH|(b & Hb & Hbt & Hbl)]; [lia| |right; exists b; eauto with lia].
    destruct (Z.testbit x (Z.of_nat k)) eqn:E.
    - right. exists (Z.of_nat k). split; [lia|]. auto.
    - left. intros n Hn. destruct (decide (n = Z.of_nat k)) as [->|]; [done|].
      apply IH. lia. }
  destruct (Hk (Z.to_nat w)) as [H0|(b & Hb & ?)]; [lia| |exists b; split; [lia|done]].
  destruct Hnz. apply (word_zero_bits x w); [done..|].
  intros n Hn. apply H0. lia.
Qed.

Lemma land_lnot_range x y w :
  (0 <= w)%Z -> (0 <= x < 2 ^ w)%Z -> (0 <= Z.land x (Z.lnot y) < 2 ^ w)%Z.
Proof.
  intros Hw Hx.
  assert (Z.land x (Z.lnot y) = Z.land x (Z.lnot y) mod 2 ^ w)%Z as ->.
  { apply Z.bits_inj'. intros n Hn. destruct (decide (n < w)%Z).
    - by rewrite Z.mod_pow2_bits_low by lia.
    - rewrite Z.mod_pow2_bits_high by lia.
      rewrite Z.land_spec, (testbit_ge_width x w); [done|done|lia]. }
  apply Z.mod_pos_bound. lia.
Qed.

(** Rounding down to a multiple of a power of two. *)
Local Open Scope Z_scope.
Lemma land_lnot_pow2 (x j : Z) : 0 <= j -> Z.land x (Z.lnot (2 ^ j - 1)) = x / 2 ^ j * 2 ^ j.
Proof.
  intros Hj. replace (2 ^ j - 1) with (Z.ones j) by (rewrite Z.ones_equiv; lia).
  by rewrite <-Z.ldiff_land, Z.ldiff_ones_r, Z.shiftr_div_pow2, Z.shiftl_mul_pow2 by lia.
Qed.

Lemma align4 x : 0 <= x -> x + 3 < 2 ^ 32 -> RT_ALIGN x 4 = (x + 3) / 4 * 4.
Proof.
  intros H0 H. unfold RT_ALIGN. rewrite u32_small by lia. change (4 - 1) with (2 ^ 2 - 1).
  rewrite land_lnot_pow2 by lia. change (2 ^ 2) with 4. f_equal. f_equal. lia.
Qed.

Lemma align4_mod x : RT_ALIGN x 4 mod 4 = 0.
Proof. unfold RT_ALIGN. change (4 - 1) with (2 ^ 2 - 1). rewrite land_lnot_pow2 by lia. by apply Z.mod_mul. Qed.

Lemma align4_range x : 0 <= RT_ALIGN x 4 < 2 ^ 32.
Proof. unfold RT_ALIGN. apply land_lnot_range; [lia|]. pose proof (u32_range (x + 4 - 1)). lia. Qed.
Local Close Scope Z_scope.

Lemma lor_range x y w :
  (0 <= w)%Z -> (0 <= x < 2 ^ w)%Z -> (0 <= y < 2 ^ w)%Z ->
  (0 <= Z.lor x y < 2 ^ w)%Z.
Proof.
  intros Hw Hx Hy.
  assert (Z.lor x y = Z.lor x y mod 2 ^ w)%Z as ->.
  { apply Z.bits_inj'. intros n Hn. destruct (decide (n < w)%Z).
    - by rewrite Z.mod_pow2_bits_low by lia.
    - rewrite Z.mod_pow2_bits_high by lia.
      rewrite Z.lor_spec, !(testbit_ge_width _ w); [done|done|lia|done|lia]. }
  apply Z.mod_pos_bound. lia.
Qed.

(** ** Sorted lists *)
Lemma sorted_sublist {A} (R : A -> A -> Prop) l l' :
  l' `sublist_of` l -> StronglySorted R l -> StronglySorted R l'.
Proof.
  induction 1 as [|x l' l Hs IH|x l' l Hs IH]; intros Hl; [constructor|..];
    apply StronglySorted_inv in Hl as [Hl Hf]; [|auto].
  constructor; [auto|]. apply Forall_forall. intros y Hy.
  eapply Forall_forall in Hf; [exact Hf|]. by eapply elem_of_sublist.
Qed.

(** ** Automation shared by the component files *)
Create HintDb kern.
#[export] Hint Resolve u8_range u16_range u32_range : kern.
#[export] Hint Rewrite u8_small u16_small u32_small using lia : kern.

(** Split the boolean tests of the code into their arithmetic meaning. *)
Ltac bool_cases :=
  repeat match goal with
  | |- context [if ?b then _ else _] =>
      match b with
      | (_ =? _)%Z => destruct (Z.eqb_spec _ _)
      | (_ <? _)%Z => destruct (Z.ltb_spec _ _)
      | (_ <=? _)%Z => destruct (Z.leb_spec _ _)
      end
  end.
