(* ===== verification/Kservice.v ===== *)
(** * [kservice.c]: find-first-set and the name functions

    [__rt_ffs] and its byte table, used by the scheduler to find the highest
    ready priority; [rt_strncpy] and [rt_strncmp], used on object names.  A C
    string is the list of its bytes (0..255, [char] is unsigned on this
    target), terminator included; reading past the end of the list is an
    access outside the buffer. *)
From S2P Require Import Prelude.
Local Open Scope Z_scope.

Module Kservice.

(** [__lowest_bit_bitmap]: index of the lowest set bit of a byte. *)
Definition lowest_bit_bitmap : list Z :=
  [0; 0; 1; 0; 2; 0; 1; 0; 3; 0; 1; 0; 2; 0; 1; 0;
   4; 0; 1; 0; 2; 0; 1; 0; 3; 0; 1; 0; 2; 0; 1; 0;
   5; 0; 1; 0; 2; 0; 1; 0; 3; 0; 1; 0; 2; 0; 1; 0;
   4; 0; 1; 0; 2; 0; 1; 0; 3; 0; 1; 0; 2; 0; 1; 0;
   6; 0; 1; 0; 2; 0; 1; 0; 3; 0; 1; 0; 2; 0; 1; 0;
   4; 0; 1; 0; 2; 0; 1; 0; 3; 0; 1; 0; 2; 0; 1; 0;
   5; 0; 1; 0; 2; 0; 1; 0; 3; 0; 1; 0; 2; 0; 1; 0;
   4; 0; 1; 0; 2; 0; 1; 0; 3; 0; 1; 0; 2; 0; 1; 0;
   7; 0; 1; 0; 2; 0; 1; 0; 3; 0; 1; 0; 2; 0; 1; 0;
   4; 0; 1; 0; 2; 0; 1; 0; 3; 0; 1; 0; 2; 0; 1; 0;
   5; 0; 1; 0; 2; 0; 1; 0; 3; 0; 1; 0; 2; 0; 1; 0;
   4; 0; 1; 0; 2; 0; 1; 0; 3; 0; 1; 0; 2; 0; 1; 0;
   6; 0; 1; 0; 2; 0; 1; 0; 3; 0; 1; 0; 2; 0; 1; 0;
   4; 0; 1; 0; 2; 0; 1; 0; 3; 0; 1; 0; 2; 0; 1; 0;
   5; 0; 1; 0; 2; 0; 1; 0; 3; 0; 1; 0; 2; 0; 1; 0;
   4; 0; 1; 0; 2; 0; 1; 0; 3; 0; 1; 0; 2; 0; 1; 0].

Definition bitmap_at (i : Z) : Z := nth (Z.to_nat i) lowest_bit_bitmap 0.

(** [int __rt_ffs(int value)]: the argument is a two's-complement word, so
    [Z.land] reads its bits also when the C value is negative. *)
Definition rt_ffs (value : Z) : Z :=
  if value =? 0 then 0
  else if negb (Z.land value 0xff =? 0) then bitmap_at (Z.land value 0xff) + 1
  else if negb (Z.land value 0xff00 =? 0)
    then bitmap_at (Z.shiftr (Z.land value 0xff00) 8) + 9
  else if negb (Z.land value 0xff0000 =? 0)
    then bitmap_at (Z.shiftr (Z.land value 0xff0000) 16) + 17
  else bitmap_at (Z.shiftr (Z.land value 0xff000000) 24) + 25.

(** The table is checked against its meaning for each of its entries. *)
Definition bitmap_entry_ok (b : Z) : bool :=
  Z.testbit b (bitmap_at b) && (0 <=? bitmap_at b) && (bitmap_at b <? 8) &&
  forallb (fun n => negb (Z.testbit b (Z.of_nat n))) (seq 0 (Z.to_nat (bitmap_at b))).

Lemma bitmap_table_ok :
  forallb (fun n => bitmap_entry_ok (Z.of_nat n)) (seq 1 255) = true.
Proof. vm_compute. reflexivity. Qed.

Lemma bitmap_at_spec b :
  0 < b < 256 ->
  0 <= bitmap_at b < 8 /\ Z.testbit b (bitmap_at b) = true /\
  forall n, 0 <= n < bitmap_at b -> Z.testbit b n = false.
Proof.
  intros Hb. pose proof bitmap_table_ok as Ht.
  rewrite forallb_forall in Ht. specialize (Ht (Z.to_nat b)).
  rewrite in_seq, Z2Nat.id in Ht by lia. specialize (Ht ltac:(lia)).
  unfold bitmap_entry_ok in Ht.
  rewrite !andb_true_iff, forallb_forall, Z.leb_le, Z.ltb_lt in Ht.
  destruct Ht as [[[Ht H0] H8] Hl]. split; [lia|split; [done|]].
  intros n Hn. specialize (Hl (Z.to_nat n)). rewrite in_seq, Z2Nat.id in Hl by lia.
  specialize (Hl ltac:(lia)). by apply negb_true_iff in Hl.
Qed.

(** Bits of the [k]-th byte of a word, extracted as the code does. *)
Lemma byte_extract v k :
  0 <= k -> Z.shiftr (Z.land v (Z.shiftl 0xff k)) k = Z.land (Z.shiftr v k) 0xff.
Proof.
  intros Hk. apply Z.bits_inj'. intros n Hn.
  rewrite Z.shiftr_spec, !Z.land_spec, Z.shiftr_spec, Z.shiftl_spec by lia.
  by replace (n + k - k) with n by lia.
Qed.

Lemma byte_range v : 0 <= Z.land v 0xff < 256.
Proof.
  change 0xff with (Z.ones 8). rewrite Z.land_ones by lia.
  apply Z.mod_pos_bound. lia.
Qed.

Lemma byte_bits v n : 0 <= n -> Z.testbit (Z.land v 0xff) n = Z.testbit v n && (n <? 8).
Proof.
  intros Hn. change 0xff with (Z.ones 8). rewrite Z.land_spec.
  destruct (Z.ltb_spec n 8).
  - rewrite Z.ones_spec_low by lia. done.
  - rewrite Z.ones_spec_high by lia. done.
Qed.

Definition is_lowest_bit (v b : Z) : Prop :=
  0 <= b /\ Z.testbit v b = true /\ forall n, 0 <= n < b -> Z.testbit v n = false.

Lemma lowest_bit_unique v a b : is_lowest_bit v a -> is_lowest_bit v b -> a = b.
Proof.
  intros (Ha & Hta & Hla) (Hb & Htb & Hlb).
  destruct (Z.lt_trichotomy a b) as [H|[H|H]]; [|done|].
  - rewrite Hlb in Hta by lia. done.
  - rewrite Hla in Htb by lia. done.
Qed.

(** The step [__rt_ffs] takes per byte: the bits below [k] are clear, the byte
    at [k] is not. *)
Lemma ffs_byte v k :
  0 <= k ->
  (forall n, 0 <= n < k -> Z.testbit v n = false) ->
  Z.land (Z.shiftr v k) 0xff <> 0 ->
  is_lowest_bit v (bitmap_at (Z.land (Z.shiftr v k) 0xff) + k) /\
  bitmap_at (Z.land (Z.shiftr v k) 0xff) < 8.
Proof.
  intros Hk Hlow Hnz.
  pose proof (byte_range (Z.shiftr v k)) as Hr.
  destruct (bitmap_at_spec (Z.land (Z.shiftr v k) 0xff)) as (Hrg & Ht & Hl); [lia|].
  set (i := bitmap_at _) in *.
  rewrite byte_bits, Z.shiftr_spec in Ht by lia.
  apply andb_true_iff in Ht as [Ht _].
  split; [|lia]. split; [lia|split; [done|]].
  intros n Hn. destruct (decide (n < k)); [apply Hlow; lia|].
  specialize (Hl (n - k) ltac:(lia)).
  rewrite byte_bits, Z.shiftr_spec in Hl by lia.
  replace (n - k + k) with n in Hl by lia.
  destruct (Z.ltb_spec (n - k) 8); [|lia]. by rewrite andb_true_r in Hl.
Qed.

Lemma byte_clear v k :
  0 <= k -> Z.land v (Z.shiftl 0xff k) = 0 ->
  forall n, k <= n < k + 8 -> Z.testbit v n = false.
Proof.
  intros Hk H n Hn.
  assert (Z.testbit (Z.land (Z.shiftr v k) 0xff) (n - k) = false) as Hb.
  { rewrite <-byte_extract, H, Z.shiftr_0_l by lia. apply Z.testbit_0_l. }
  rewrite byte_bits, Z.shiftr_spec in Hb by lia.
  replace (n - k + k) with n in Hb by lia.
  destruct (Z.ltb_spec (n - k) 8); [|lia]. by rewrite andb_true_r in Hb.
Qed.

Lemma byte_nonzero v k :
  0 <= k -> Z.land v (Z.shiftl 0xff k) <> 0 -> Z.land (Z.shiftr v k) 0xff <> 0.
Proof.
  intros Hk Hnz Hz. apply Hnz. apply Z.bits_inj'. intros n Hn.
  rewrite Z.testbit_0_l, Z.land_spec, Z.shiftl_spec by lia.
  destruct (decide (n < k)).
  { rewrite (Z.testbit_neg_r _ (n - k)) by lia. apply andb_false_r. }
  assert (Z.testbit (Z.land (Z.shiftr v k) 0xff) (n - k) = false) as Hb
    by (rewrite Hz; apply Z.testbit_0_l).
  rewrite Z.land_spec, Z.shiftr_spec in Hb by lia.
  by replace (n - k + k) with n in Hb by lia.
Qed.

(** Every 32-bit word with a bit set: [__rt_ffs] returns one more than the
    index of its lowest set bit. *)
Lemma rt_ffs_lowest v :
  (exists n, 0 <= n < 32 /\ Z.testbit v n = true) ->
  is_lowest_bit v (rt_ffs v - 1) /\ 1 <= rt_ffs v <= 32.
Proof.
  intros (m & Hm & Htm).
  assert (v <> 0) as Hv by (intros ->; by rewrite Z.testbit_0_l in Htm).
  unfold rt_ffs. rewrite (proj2 (Z.eqb_neq v 0)) by done.
  change 0xff00 with (Z.shiftl 0xff 8).
  change 0xff0000 with (Z.shiftl 0xff 16).
  change 0xff000000 with (Z.shiftl 0xff 24).
  rewrite !byte_extract by lia.
  destruct (Z.eqb_spec (Z.land v 255) 0) as [H0|H0]; simpl negb; cbn iota.
  2:{ destruct (ffs_byte v 0) as [Hl Hr]; [lia|lia|by rewrite Z.shiftr_0_r|].
      rewrite Z.shiftr_0_r in Hl, Hr. pose proof (proj1 Hl).
      split; [|lia]. by replace (bitmap_at (Z.land v 255) + 1 - 1)
        with (bitmap_at (Z.land v 255) + 0) by lia. }
  pose proof (byte_clear v 0 ltac:(lia) H0) as C0.
  destruct (Z.eqb_spec (Z.land v (Z.shiftl 255 8)) 0) as [H1|H1]; simpl negb; cbn iota.
  2:{ apply byte_nonzero in H1; [|lia].
      destruct (ffs_byte v 8) as [Hl Hr]; [lia|intros; apply C0; lia|done|].
      pose proof (proj1 Hl). split; [|lia].
      by replace (bitmap_at _ + 9 - 1)
        with (bitmap_at (Z.land (Z.shiftr v 8) 255) + 8) by lia. }
  pose proof (byte_clear v 8 ltac:(lia) H1) as C1.
  destruct (Z.eqb_spec (Z.land v (Z.shiftl 255 16)) 0) as [H2|H2]; simpl negb; cbn iota.
  2:{ apply byte_nonzero in H2; [|lia].
      destruct (ffs_byte v 16) as [Hl Hr];
        [lia|intros n ?; destruct (decide (n < 8)); [apply C0|apply C1]; lia|done|].
      pose proof (proj1 Hl). split; [|lia].
      by replace (bitmap_at _ + 17 - 1)
        with (bitmap_at (Z.land (Z.shiftr v 16) 255) + 16) by lia. }
  pose proof (byte_clear v 16 ltac:(lia) H2) as C2.
  assert (forall n, 0 <= n < 24 -> Z.testbit v n = false) as C.
  { intros n ?. destruct (decide (n < 8)); [apply C0; lia|].
    destruct (decide (n < 16)); [apply C1; lia|apply C2; lia]. }
  destruct (ffs_byte v 24) as [Hl Hr]; [lia|done| |].
  { intros Hz. destruct (decide (m < 24)); [by rewrite C in Htm by lia|].
    assert (Z.testbit (Z.land (Z.shiftr v 24) 255) (m - 24) = false) as Hb
      by (rewrite Hz; apply Z.testbit_0_l).
    rewrite byte_bits, Z.shiftr_spec in Hb by lia.
    replace (m - 24 + 24) with m in Hb by lia. rewrite Htm in Hb.
    by destruct (Z.ltb_spec (m - 24) 8); [|lia]. }
  pose proof (proj1 Hl). split; [|lia].
  by replace (bitmap_at _ + 25 - 1)
    with (bitmap_at (Z.land (Z.shiftr v 24) 255) + 24) by lia.
Qed.

Lemma rt_ffs_zero : rt_ffs 0 = 0.
Proof. reflexivity. Qed.


(** ** Names *)

(** [rt_strncpy(dst, src, n)]: the bytes of [dst] afterwards; [None] when the
    copy runs out of either buffer. *)
Fixpoint rt_strncpy (dst src : list Z) (n : nat) {struct n} : option (list Z) :=
  match n with
  | O => Some dst
  | S n' =>
      match dst, src with
      | _ :: d, c :: s =>
          if c =? 0
          then if (n' <=? length d)%nat then Some (0 :: replicate n' 0 ++ drop n' d) else None
          else r ← rt_strncpy d s n'; Some (c :: r)
      | _, _ => None
      end
  end.

(** [rt_strncmp(cs, ct, count)]: the difference of the first bytes that differ,
    truncated to [signed char]. *)
Fixpoint rt_strncmp (cs ct : list Z) (count : nat) {struct count} : option Z :=
  match count with
  | O => Some 0
  | S count' =>
      match cs, ct with
      | c :: cs', d :: ct' =>
          let res := i8 (c - d) in
          if negb (res =? 0) || (c =? 0) then Some res else rt_strncmp cs' ct' count'
      | _, _ => None
      end
  end.

(** [rt_strcmp(cs, ct)]. *)
Fixpoint rt_strcmp (cs ct : list Z) : option Z :=
  match cs, ct with
  | c :: cs', d :: ct' =>
      if negb (c =? 0) && (c =? d) then rt_strcmp cs' ct' else Some (c - d)
  | _, _ => None
  end.

(** What a comparison of at most [n] bytes of two C strings decides. *)
Fixpoint same_name (cs ct : list Z) (n : nat) {struct n} : bool :=
  match n, cs, ct with
  | S n, c :: cs, d :: ct => (c =? d) && ((c =? 0) || same_name cs ct n)
  | _, _, _ => true
  end.

Definition is_byte (c : Z) : Prop := 0 <= c < 256.

Lemma i8_zero c d : is_byte c -> is_byte d -> (i8 (c - d) =? 0) = (c =? d).
Proof.
  unfold is_byte, i8. intros Hc Hd.
  destruct (Z.eqb_spec c d) as [->|Hne];
    [by rewrite Z.sub_diag|].
  apply Z.eqb_neq. intros E. destruct Hne.
  assert ((c - d + 2 ^ 7) mod 2 ^ 8 = 2 ^ 7) as E' by lia.
  pose proof (Z.div_mod (c - d + 2 ^ 7) (2 ^ 8)). lia.
Qed.

(** On two buffers of at least [n] bytes [rt_strncmp] returns, and 0 exactly
    when the names agree; the truncation to [signed char] cannot make two
    different bytes look equal. *)
Lemma rt_strncmp_zero cs ct n :
  Forall is_byte cs -> Forall is_byte ct -> (n <= length cs)%nat -> (n <= length ct)%nat ->
  exists r, rt_strncmp cs ct n = Some r /\ (r =? 0) = same_name cs ct n.
Proof.
  revert cs ct. induction n as [|n IH]; intros cs ct Hcs Hct H1 H2;
    [exists 0; by destruct cs, ct|].
  simpl. destruct cs as [|c cs]; [simpl in *; lia|]. destruct ct as [|d ct]; [simpl in *; lia|].
  apply Forall_cons in Hcs as [Hc Hcs]. apply Forall_cons in Hct as [Hd Hct]. simpl in *.
  rewrite (i8_zero c d) by done.
  destruct (Z.eqb_spec c d) as [->|Hne]; simpl.
  - destruct (Z.eqb_spec d 0) as [->|Hz]; simpl; [eauto|]. apply IH; [done..|lia|lia].
  - eexists. split; [done|]. rewrite i8_zero by done. by apply Z.eqb_neq.
Qed.

(** A name copied with [rt_strncpy] compares equal to its source. *)
Lemma strncpy_same_name dst src n r :
  rt_strncpy dst src n = Some r -> same_name r src n = true.
Proof.
  revert dst src r. induction n as [|n IH]; intros dst src r; [by destruct r, src|].
  destruct dst as [|x dst]; [done|]. destruct src as [|c src]; [done|]. simpl.
  destruct (Z.eqb_spec c 0) as [->|Hc].
  - destruct (n <=? length dst)%nat; [|done]. by intros [= <-].
  - destruct (rt_strncpy dst src n) as [r'|] eqn:E; simpl; [|done].
    intros [= <-]. simpl. rewrite Z.eqb_refl, (IH _ _ _ E). by rewrite orb_true_r.
Qed.

Lemma rt_strncpy_length dst src n r :
  rt_strncpy dst src n = Some r -> length r = length dst.
Proof.
  revert dst src r. induction n as [|n IH]; intros dst src r; [destruct dst, src; by intros [= <-]|].
  destruct dst as [|x dst]; [done|]. destruct src as [|c src]; [done|]. simpl.
  destruct (c =? 0).
  - destruct (n <=? length dst)%nat eqn:E; [|done]. apply Nat.leb_le in E. intros [= <-]. simpl.
    rewrite length_app, length_replicate, length_drop. lia.
  - destruct (rt_strncpy dst src n) as [r'|] eqn:E; simpl; [|done].
    intros [= <-]. simpl. f_equal. eauto.
Qed.


(** [__rt_ffs] finds the lowest set bit.  On every 32-bit word (also one
    read as a negative [int]) it returns one more than the index of the lowest
    bit that is set, and 0 exactly on 0. *)
Theorem rt_ffs_spec (v : Z) : -2 ^ 31 <= v < 2 ^ 31 ->
  (v = 0 /\ rt_ffs v = 0) \/
  (v <> 0 /\ 1 <= rt_ffs v <= 32 /\ Z.testbit v (rt_ffs v - 1) = true /\
   forall n, 0 <= n < rt_ffs v - 1 -> Z.testbit v n = false).
Proof.
  intros Hv. destruct (decide (v = 0)) as [->|Hnz]; [left; by rewrite rt_ffs_zero|right].
  split; [done|].
  assert (exists n, 0 <= n < 32 /\ Z.testbit v n = true) as Hbit.
  { assert (v mod 2 ^ 32 <> 0) as Hm.
    { intros E. pose proof (Z.div_mod v (2 ^ 32)). lia. }
    destruct (word_least_bit (v mod 2 ^ 32) 32) as (b & Hb & Ht & _);
      [lia|apply Z.mod_pos_bound; lia|done|].
    exists b. split; [done|]. by rewrite Z.mod_pow2_bits_low in Ht by lia. }
  destruct (rt_ffs_lowest v Hbit) as [(H1 & H2 & H3) H4]. done.
Qed.

Example rt_ffs_spec_witness :
  (- 2 ^ 31 = 0 /\ rt_ffs (- 2 ^ 31) = 0) \/
  (- 2 ^ 31 <> 0 /\ 1 <= rt_ffs (- 2 ^ 31) <= 32 /\ Z.testbit (- 2 ^ 31) (rt_ffs (- 2 ^ 31) - 1) = true /\
   forall n, 0 <= n < rt_ffs (- 2 ^ 31) - 1 -> Z.testbit (- 2 ^ 31) n = false).
Proof. apply (rt_ffs_spec (- 2 ^ 31)). lia. Defined.

(** Names are compared correctly.  On two names of at least [n] bytes
    [rt_strncmp] returns, and its result is 0 exactly when the names agree up
    to their terminator or up to [n] bytes; a name stored with [rt_strncpy] is
    found again by the name it was copied from. *)
Theorem rt_strncmp_decides_equality (cs ct : list Z) (n : nat) :
  Forall is_byte cs -> Forall is_byte ct -> (n <= length cs)%nat -> (n <= length ct)%nat ->
  (exists r, rt_strncmp cs ct n = Some r /\ (r = 0 <-> same_name cs ct n = true)) /\
  forall dst, rt_strncpy dst ct n = Some cs -> rt_strncmp cs ct n = Some 0.
Proof.
  intros Hcs Hct H1 H2. destruct (rt_strncmp_zero cs ct n) as (r & E & Hr); [done..|]. split.
  - exists r. split; [done|]. rewrite <-Hr. symmetry. apply Z.eqb_eq.
  - intros dst Hc. apply strncpy_same_name in Hc. rewrite Hc in Hr. apply Z.eqb_eq in Hr. by subst.
Qed.

Example rt_strncmp_decides_equality_witness :
  (exists r, rt_strncmp [97; 98; 0; 7] [97; 98; 0; 9] 4 = Some r /\
    (r = 0 <-> same_name [97; 98; 0; 7] [97; 98; 0; 9] 4 = true)) /\
  forall dst, rt_strncpy dst [97; 98; 0; 9] 4 = Some [97; 98; 0; 7] ->
    rt_strncmp [97; 98; 0; 7] [97; 98; 0; 9] 4 = Some 0.
Proof.
  apply (rt_strncmp_decides_equality [97; 98; 0; 7] [97; 98; 0; 9] 4);
    [repeat constructor; lia|repeat constructor; lia|simpl; lia|simpl; lia].
Defined.

End Kservice.
