(* ===== verification/Ram.v ===== *)
(** * Byte-addressed memory and the block functions of [kservice.c]

    The memory of the board is a map from addresses to bytes; an address that
    is not in the map cannot be accessed.  Words are little endian.  [rt_memset]
    and [rt_memcpy] are the versions of [kservice.c] that work by words when
    they can (RT_USING_TINY_SIZE is not defined). *)
From S2P Require Import Prelude.
Local Open Scope Z_scope.

Abbreviation ram := (gmap Z Z).

Module Ram.

(** ** Access *)
Fixpoint read_bytes (m : ram) (a : Z) (n : nat) : option (list Z) :=
  match n with
  | O => Some []
  | S n => b ← m !! a; l ← read_bytes m (a + 1) n; Some (b :: l)
  end.

Fixpoint write_bytes (m : ram) (a : Z) (l : list Z) : option ram :=
  match l with
  | [] => Some m
  | b :: l => _ ← m !! a; write_bytes (<[a := b]> m) (a + 1) l
  end.

Fixpoint le_combine (l : list Z) : Z :=
  match l with [] => 0 | b :: l => b + 256 * le_combine l end.
Fixpoint le_split (n : nat) (v : Z) : list Z :=
  match n with O => [] | S n => v mod 256 :: le_split n (v / 256) end.

(** Load and store of an [n]-byte unsigned integer. *)
Definition load (n : nat) (m : ram) (a : Z) : option Z := le_combine <$> read_bytes m a n.
Definition store (n : nat) (m : ram) (a v : Z) : option ram := write_bytes m a (le_split n v).

(** ** [rt_memset] *)
Definition LBLOCKSIZE : Z := 4.

(** [while (count >= LBLOCKSIZE * 4)]. *)
Fixpoint memset_blocks (fuel : nat) (m : ram) (aligned_addr buffer count : Z)
    : option (ram * Z * Z) :=
  if count <? LBLOCKSIZE * 4 then Some (m, aligned_addr, count)
  else match fuel with
  | O => None
  | S fuel =>
      m ← store 4 m aligned_addr buffer;
      m ← store 4 m (aligned_addr + 4) buffer;
      m ← store 4 m (aligned_addr + 8) buffer;
      m ← store 4 m (aligned_addr + 12) buffer;
      memset_blocks fuel m (aligned_addr + 16) buffer (count - 4 * LBLOCKSIZE)
  end.

(** [while (count >= LBLOCKSIZE)]. *)
Fixpoint memset_words (fuel : nat) (m : ram) (aligned_addr buffer count : Z)
    : option (ram * Z * Z) :=
  if count <? LBLOCKSIZE then Some (m, aligned_addr, count)
  else match fuel with
  | O => None
  | S fuel =>
      m ← store 4 m aligned_addr buffer;
      memset_words fuel m (aligned_addr + 4) buffer (count - LBLOCKSIZE)
  end.

(** [while (count--) *m++ = (char)d]. *)
Fixpoint memset_bytes (count : nat) (m : ram) (p d : Z) : option ram :=
  match count with
  | O => Some m
  | S count => m ← store 1 m p d; memset_bytes count m (p + 1) d
  end.

Definition rt_memset (m : ram) (s c count : Z) : option ram :=
  let d := Z.land c 0xff in
  r ← (if negb (count <? LBLOCKSIZE) && (Z.land s (LBLOCKSIZE - 1) =? 0) then
         let buffer := Z.lor (Z.shiftl d 8) d in
         let buffer := Z.lor buffer (u32 (Z.shiftl buffer 16)) in
         r ← memset_blocks (Z.to_nat count) m s buffer count;
         memset_words (Z.to_nat count) r.1.1 r.1.2 buffer r.2
       else Some (m, s, count));
  memset_bytes (Z.to_nat r.2) r.1.1 r.1.2 d.

(** ** [rt_memcpy] *)
Definition copy_word (m : ram) (dst src : Z) : option ram :=
  w ← load 4 m src; store 4 m dst w.

(** [while (len >= BIGBLOCKSIZE)]; the [int len] is compared as unsigned. *)
Fixpoint memcpy_blocks (fuel : nat) (m : ram) (aligned_dst aligned_src len : Z)
    : option (ram * Z * Z * Z) :=
  if u32 len <? 16 then Some (m, aligned_dst, aligned_src, len)
  else match fuel with
  | O => None
  | S fuel =>
      m ← copy_word m aligned_dst aligned_src;
      m ← copy_word m (aligned_dst + 4) (aligned_src + 4);
      m ← copy_word m (aligned_dst + 8) (aligned_src + 8);
      m ← copy_word m (aligned_dst + 12) (aligned_src + 12);
      memcpy_blocks fuel m (aligned_dst + 16) (aligned_src + 16) (i32 (len - 16))
  end.

(** [while (len >= LITTLEBLOCKSIZE)]. *)
Fixpoint memcpy_words (fuel : nat) (m : ram) (aligned_dst aligned_src len : Z)
    : option (ram * Z * Z * Z) :=
  if u32 len <? 4 then Some (m, aligned_dst, aligned_src, len)
  else match fuel with
  | O => None
  | S fuel =>
      m ← copy_word m aligned_dst aligned_src;
      memcpy_words fuel m (aligned_dst + 4) (aligned_src + 4) (i32 (len - 4))
  end.

(** [while (len--) *dst_ptr++ = *src_ptr++]: [n] rounds. *)
Fixpoint copy_bytes (n : nat) (m : ram) (dst src : Z) : option ram :=
  match n with
  | O => Some m
  | S n => b ← load 1 m src; m ← store 1 m dst b; copy_bytes n m (dst + 1) (src + 1)
  end.

Definition rt_memcpy (m : ram) (dst src count : Z) : option ram :=
  let len := i32 count in
  r ← (if negb (u32 len <? 16) && (Z.lor (Z.land src 3) (Z.land dst 3) =? 0) then
         r ← memcpy_blocks (Z.to_nat count) m dst src len;
         memcpy_words (Z.to_nat count) r.1.1.1 r.1.1.2 r.1.2 r.2
       else Some (m, dst, src, len));
  copy_bytes (Z.to_nat (u32 r.2)) r.1.1.1 r.1.1.2 r.1.2.

(** ** [rt_memmove] *)
(** [while (n--) *(--tmp) = *(--s)]. *)
Fixpoint copy_bytes_down (n : nat) (m : ram) (tmp s : Z) : option ram :=
  match n with
  | O => Some m
  | S n => b ← load 1 m (s - 1); m ← store 1 m (tmp - 1) b; copy_bytes_down n m (tmp - 1) (s - 1)
  end.

Definition rt_memmove (m : ram) (dest src n : Z) : option ram :=
  if (src <? dest) && (dest <? src + n)
  then copy_bytes_down (Z.to_nat n) m (dest + n) (src + n)
  else copy_bytes (Z.to_nat n) m dest src.

(** ** [rt_memcmp]: the difference of the first bytes that differ *)
Fixpoint memcmp_loop (n : nat) (m : ram) (su1 su2 : Z) : option Z :=
  match n with
  | O => Some 0
  | S n =>
      b1 ← load 1 m su1; b2 ← load 1 m su2;
      let res := b1 - b2 in
      if negb (res =? 0) then Some res else memcmp_loop n m (su1 + 1) (su2 + 1)
  end.

Definition rt_memcmp (m : ram) (cs ct count : Z) : option Z :=
  memcmp_loop (Z.to_nat count) m cs ct.

(** ** Lemmas on access *)
(** Equality of results component by component. *)
Ltac tuple_eq :=
  repeat match goal with
  | |- Some _ = Some _ => f_equal
  | |- (_, _) = (_, _) => f_equal
  end.

Lemma length_le_split n v : length (le_split n v) = n.
Proof. revert v. induction n as [|n IH]; intros v; simpl; [done|]. by rewrite IH. Qed.

Lemma le_combine_split n v : le_combine (le_split n v) = v mod 256 ^ Z.of_nat n.
Proof.
  revert v. induction n as [|n IH]; intros v; simpl; [by rewrite Z.mod_1_r|].
  rewrite IH, <-Z.rem_mul_r by lia. f_equal. rewrite Nat2Z.inj_succ, Z.pow_succ_r by lia. done.
Qed.

Definition byte_ok (b : Z) : Prop := 0 <= b < 256.

Lemma le_split_combine l : Forall byte_ok l -> le_split (length l) (le_combine l) = l.
Proof.
  induction 1 as [|b l Hb Hl IH]; simpl; [done|]. unfold byte_ok in Hb.
  rewrite (Z.mul_comm 256), Z_mod_plus_full, Z.div_add, Z.mod_small, (Z.div_small b) by lia.
  by rewrite Z.add_0_l, IH.
Qed.

Lemma le_split_bytes n v : Forall byte_ok (le_split n v).
Proof.
  revert v. induction n as [|n IH]; intros v; simpl; constructor; [|done].
  unfold byte_ok. apply Z.mod_pos_bound. lia.
Qed.

Lemma read_bytes_lookup m a n l :
  read_bytes m a n = Some l <->
  length l = n /\ forall i b, l !! i = Some b -> m !! (a + Z.of_nat i) = Some b.
Proof.
  revert a l. induction n as [|n IH]; intros a l; simpl.
  - split; [intros [= <-]; done|]. intros [H _]. by apply length_zero_iff_nil in H as ->.
  - destruct (m !! a) as [b|] eqn:Eb; simpl.
    2:{ split; [done|]. intros [Hl H]. destruct l as [|b l]; [done|].
        specialize (H O b eq_refl). by rewrite Z.add_0_r, Eb in H. }
    destruct (read_bytes m (a + 1) n) as [l'|] eqn:E; simpl.
    + apply IH in E as [Hl' H']. split.
      * intros [= <-]. simpl. split; [by rewrite Hl'|]. intros [|i] b' Hi; simpl in Hi.
        -- injection Hi as <-. by rewrite Z.add_0_r.
        -- rewrite <-(H' i) by done. f_equal. lia.
      * intros [Hl H]. destruct l as [|b' l]; [done|]. f_equal. f_equal.
        -- specialize (H O b' eq_refl). rewrite Z.add_0_r, Eb in H. by injection H.
        -- apply list_eq_same_length with n; [by injection Hl|done|].
           intros i x y _ Hx Hy. specialize (H (S i) y Hy). specialize (H' i x Hx).
           replace (a + Z.of_nat (S i)) with (a + 1 + Z.of_nat i) in H by lia. congruence.
    + split; [done|]. intros [Hl H]. destruct l as [|b' l]; [done|].
      assert (read_bytes m (a + 1) n = Some l) as E'; [|by rewrite E in E'].
      apply IH. split; [by injection Hl|]. intros i x Hi.
      rewrite <-(H (S i) x Hi). f_equal. lia.
Qed.

(** The addresses of [a, a + n) can be accessed. *)
Definition mapped (m : ram) (a n : Z) : Prop := forall x, a <= x < a + n -> is_Some (m !! x).

Lemma write_bytes_Some m a l m' :
  write_bytes m a l = Some m' ->
  mapped m a (Z.of_nat (length l)) /\
  forall x, m' !! x = if decide (a <= x < a + Z.of_nat (length l))
                     then l !! Z.to_nat (x - a) else m !! x.
Proof.
  revert m a. induction l as [|b l IH]; intros m a; simpl.
  - intros [= <-]. split; [intros x ?; lia|]. intros x. by rewrite decide_False by lia.
  - destruct (m !! a) as [b0|] eqn:Eb; simpl; [|done]. intros E.
    apply IH in E as [HM H]. split.
    + intros x Hx. destruct (decide (x = a)) as [->|]; [by exists b0|].
      rewrite <-(lookup_insert_ne m a x b) by done. apply HM. lia.
    + intros x. rewrite H. destruct (decide (x = a)) as [->|Hne].
      * rewrite decide_False, decide_True by lia. by rewrite lookup_insert_eq, Z.sub_diag.
      * destruct (decide (a + 1 <= x < a + 1 + Z.of_nat (length l))).
        -- rewrite decide_True by lia. by replace (Z.to_nat (x - a)) with (S (Z.to_nat (x - (a + 1)))) by lia.
        -- rewrite decide_False by lia. by rewrite lookup_insert_ne.
Qed.

Lemma write_bytes_ok m a l :
  mapped m a (Z.of_nat (length l)) -> exists m', write_bytes m a l = Some m'.
Proof.
  revert m a. induction l as [|b l IH]; intros m a HM; simpl; [eauto|].
  destruct (HM a) as [b0 ->]; [simpl; lia|]. simpl. apply IH.
  intros x Hx. destruct (decide (x = a)) as [->|]; [rewrite lookup_insert_eq; eauto|].
  rewrite lookup_insert_ne by done. apply HM. simpl. lia.
Qed.

Lemma read_bytes_ok m a n :
  mapped m a (Z.of_nat n) -> exists l, read_bytes m a n = Some l /\ length l = n.
Proof.
  revert a. induction n as [|n IH]; intros a HM; simpl; [eauto|].
  destruct (HM a) as [b ->]; [lia|]. simpl.
  destruct (IH (a + 1)) as (l & -> & Hl); [intros x ?; apply HM; lia|]. simpl. exists (b :: l). by rewrite <-Hl.
Qed.

Lemma write_bytes_app m a l1 l2 :
  write_bytes m a (l1 ++ l2) =
  m' ← write_bytes m a l1; write_bytes m' (a + Z.of_nat (length l1)) l2.
Proof.
  revert m a. induction l1 as [|b l1 IH]; intros m a; simpl; [by rewrite Z.add_0_r|].
  destruct (m !! a); simpl; [|done]. rewrite IH.
  destruct (write_bytes _ _ l1); simpl; [|done]. f_equal. lia.
Qed.

(** Two writes of the same bytes to the same place. *)
Lemma mapped_write m a l m' b n :
  write_bytes m a l = Some m' -> mapped m b n -> mapped m' b n.
Proof.
  intros E HM x Hx. apply write_bytes_Some in E as [_ H]. rewrite H.
  destruct (decide _); [|by apply HM]. apply lookup_lt_is_Some. lia.
Qed.

Lemma read_write_same m a l m' : write_bytes m a l = Some m' -> read_bytes m' a (length l) = Some l.
Proof.
  intros E. apply read_bytes_lookup. split; [done|]. intros i b Hi.
  apply write_bytes_Some in E as [_ H]. pose proof (lookup_lt_Some _ _ _ Hi).
  rewrite H, decide_True by lia. rewrite <-Hi. f_equal. lia.
Qed.

Lemma read_write_other m a l m' b n :
  write_bytes m a l = Some m' -> b + Z.of_nat n <= a \/ a + Z.of_nat (length l) <= b ->
  read_bytes m' b n = read_bytes m b n.
Proof.
  intros E. apply write_bytes_Some in E as [_ H]. revert b.
  induction n as [|n IH]; intros b Hd; simpl; [done|].
  rewrite H, decide_False by lia. rewrite IH by lia. done.
Qed.

Lemma load_store_same n m a v m' :
  store n m a v = Some m' -> load n m' a = Some (v mod 256 ^ Z.of_nat n).
Proof.
  unfold load, store. intros E. apply read_write_same in E. rewrite length_le_split in E.
  rewrite E. simpl. by rewrite le_combine_split.
Qed.

Lemma load_store_other n m a v m' k b :
  store n m a v = Some m' -> b + Z.of_nat k <= a \/ a + Z.of_nat n <= b ->
  load k m' b = load k m b.
Proof.
  unfold load, store. intros E Hd. by rewrite (read_write_other m a _ m' b k E) by (by rewrite length_le_split).
Qed.

(** ** [rt_memset] by words is [rt_memset] by bytes *)
Definition memset_word (d : Z) : Z :=
  Z.lor (Z.lor (Z.shiftl d 8) d) (u32 (Z.shiftl (Z.lor (Z.shiftl d 8) d) 16)).

Lemma memset_word_table :
  forallb (fun n => bool_decide (le_split 4 (memset_word (Z.of_nat n)) = replicate 4 (Z.of_nat n)))
    (seq 0 256) = true.
Proof. vm_compute. reflexivity. Qed.

Lemma memset_word_split d : byte_ok d -> le_split 4 (memset_word d) = replicate 4 d.
Proof.
  intros Hd. unfold byte_ok in Hd. pose proof memset_word_table as H. rewrite forallb_forall in H.
  specialize (H (Z.to_nat d)). rewrite in_seq, Z2Nat.id in H by lia.
  apply bool_decide_eq_true in H; [done|lia].
Qed.

Lemma store_word_memset m a d :
  byte_ok d -> store 4 m a (memset_word d) = write_bytes m a (replicate 4 d).
Proof. intros Hd. unfold store. by rewrite memset_word_split. Qed.

Lemma write_replicate_add m a d n1 n2 :
  write_bytes m a (replicate (n1 + n2) d) =
  m' ← write_bytes m a (replicate n1 d); write_bytes m' (a + Z.of_nat n1) (replicate n2 d).
Proof. by rewrite replicate_add, write_bytes_app, length_replicate. Qed.

Lemma write_replicate_split m a d k n :
  (k <= n)%nat ->
  write_bytes m a (replicate n d) =
  m' ← write_bytes m a (replicate k d); write_bytes m' (a + Z.of_nat k) (replicate (n - k) d).
Proof. intros Hk. rewrite <-write_replicate_add. do 2 f_equal. lia. Qed.

Lemma memset_bytes_eq n m p d :
  byte_ok d -> memset_bytes n m p d = write_bytes m p (replicate n d).
Proof.
  intros Hd. revert m p. induction n as [|n IH]; intros m p; [done|].
  simpl. unfold store. simpl. rewrite Z.mod_small by (unfold byte_ok in Hd; lia).
  destruct (m !! p); simpl; [|done]. apply IH.
Qed.

Lemma memset_words_eq fuel m a d count :
  byte_ok d -> 0 <= count <= Z.of_nat fuel ->
  exists k : nat, Z.of_nat k <= count /\
    memset_words fuel m a (memset_word d) count =
      m' ← write_bytes m a (replicate k d); Some (m', a + Z.of_nat k, count - Z.of_nat k).
Proof.
  intros Hd. revert m a count. induction fuel as [|fuel IH]; intros m a count Hc;
    simpl; (destruct (Z.ltb_spec count LBLOCKSIZE) as [Hs|Hs];
      [exists O; split; [lia|]; simpl; by rewrite Z.add_0_r, Z.sub_0_r|]); unfold LBLOCKSIZE in *; [lia|].
  rewrite store_word_memset by done.
  destruct (write_bytes m a (replicate 4 d)) as [m1|] eqn:E; simpl.
  - destruct (IH m1 (a + 4) (count - 4)) as (k & Hk & Ek); [lia|]. exists (4 + k)%nat. split; [lia|].
    rewrite Ek, write_replicate_add, E. simpl. destruct (write_bytes m1 _ _); simpl; [|done].
    tuple_eq; lia.
  - exists 4%nat. split; [lia|]. by rewrite E.
Qed.

(** A block of the loop is four stores of a word. *)
Lemma memset_block_eq m a d :
  byte_ok d ->
  (m ← store 4 m a (memset_word d);
   m ← store 4 m (a + 4) (memset_word d);
   m ← store 4 m (a + 8) (memset_word d);
   store 4 m (a + 12) (memset_word d)) = write_bytes m a (replicate 16 d).
Proof.
  intros Hd. rewrite (write_replicate_add m a d 4 12 : write_bytes m a (replicate 16 d) = _).
  rewrite store_word_memset by done. destruct (write_bytes m a _) as [m1|]; cbn [mbind option_bind]; [|done].
  rewrite (write_replicate_add m1 _ d 4 8 : write_bytes m1 _ (replicate 12 d) = _).
  rewrite store_word_memset by done. destruct (write_bytes m1 _ _) as [m2|]; cbn [mbind option_bind]; [|done].
  rewrite (write_replicate_add m2 _ d 4 4 : write_bytes m2 _ (replicate 8 d) = _).
  replace (a + Z.of_nat 4 + Z.of_nat 4) with (a + 8) by lia.
  rewrite store_word_memset by done. destruct (write_bytes m2 _ _) as [m3|]; cbn [mbind option_bind]; [|done].
  rewrite store_word_memset by done. f_equal. lia.
Qed.

Lemma memset_blocks_eq fuel m a d count :
  byte_ok d -> 0 <= count <= Z.of_nat fuel ->
  exists k : nat, Z.of_nat k <= count /\
    memset_blocks fuel m a (memset_word d) count =
      m' ← write_bytes m a (replicate k d); Some (m', a + Z.of_nat k, count - Z.of_nat k).
Proof.
  intros Hd. revert m a count. induction fuel as [|fuel IH]; intros m a count Hc;
    simpl; (destruct (Z.ltb_spec count (LBLOCKSIZE * 4)) as [Hs|Hs];
      [exists O; split; [lia|]; simpl; by rewrite Z.add_0_r, Z.sub_0_r|]); unfold LBLOCKSIZE in *; [lia|].
  pose proof (memset_block_eq m a d Hd) as HB.
  destruct (write_bytes m a (replicate 16 d)) as [m1|] eqn:E.
  - destruct (IH m1 (a + 16) (count - 4 * 4)) as (k & Hk & Ek); [lia|]. exists (16 + k)%nat. split; [lia|].
    rewrite write_replicate_add, E. cbn [mbind option_bind]. change (Z.of_nat 16) with 16.
    repeat (destruct (store 4 _ _ _); cbn [mbind option_bind] in *; [|done]). injection HB as ->.
    rewrite Ek. destruct (write_bytes m1 _ _); simpl; [|done]. tuple_eq; lia.
  - exists 16%nat. split; [lia|]. rewrite E. cbn [mbind option_bind].
    repeat (destruct (store 4 _ _ _); cbn [mbind option_bind] in *; [|done]). done.
Qed.

(** [rt_memset] writes the low byte of [c] to every address of the block, and
    to no other, whichever way it goes. *)
Lemma rt_memset_eq m s c count :
  0 <= count < 2 ^ 32 ->
  rt_memset m s c count = write_bytes m s (replicate (Z.to_nat count) (Z.land c 0xff)).
Proof.
  intros Hc. unfold rt_memset. set (d := Z.land c 255).
  assert (byte_ok d) as Hd.
  { unfold byte_ok, d. change 255 with (Z.ones 8). rewrite Z.land_ones by lia. apply Z.mod_pos_bound. lia. }
  destruct (_ && _); [|cbn [mbind option_bind]; by apply memset_bytes_eq].
  fold (memset_word d).
  destruct (memset_blocks_eq (Z.to_nat count) m s d count) as (k1 & Hk1 & E1); [done|lia|].
  rewrite E1, (write_replicate_split m s d k1 (Z.to_nat count)) by lia.
  destruct (write_bytes m s (replicate k1 d)) as [m1|]; cbn [mbind option_bind]; [|done]. cbn [fst snd].
  destruct (memset_words_eq (Z.to_nat count) m1 (s + Z.of_nat k1) d (count - Z.of_nat k1))
    as (k2 & Hk2 & E2); [done|lia|].
  rewrite E2, (write_replicate_split m1 _ d k2 (Z.to_nat count - k1)) by lia.
  destruct (write_bytes m1 _ _) as [m2|]; cbn [mbind option_bind]; [|done]. cbn [fst snd].
  rewrite memset_bytes_eq by done. do 2 f_equal. lia.
Qed.

(** ** [rt_memcpy] by words is [rt_memcpy] by bytes *)
Definition ram_ok (m : ram) : Prop := map_Forall (fun _ b => byte_ok b) m.

Lemma ram_ok_insert m a b : ram_ok m -> byte_ok b -> ram_ok (<[a := b]> m).
Proof. intros Hm Hb. by apply map_Forall_insert_2. Qed.

Lemma ram_ok_write m a l m' : ram_ok m -> Forall byte_ok l -> write_bytes m a l = Some m' -> ram_ok m'.
Proof.
  intros Hm Hl E x b Hx. apply write_bytes_Some in E as [_ H]. rewrite H in Hx.
  destruct (decide _); [|by apply (Hm x)].
  by eapply (Forall_lookup_1 byte_ok l); [exact Hl|exact Hx].
Qed.

Lemma ram_ok_read m a n l : ram_ok m -> read_bytes m a n = Some l -> Forall byte_ok l.
Proof.
  intros Hm E. apply read_bytes_lookup in E as [_ H]. apply Forall_lookup. intros i b Hi.
  by apply (Hm (a + Z.of_nat i)), H.
Qed.

Lemma load_byte m a : load 1 m a = m !! a.
Proof. unfold load. simpl. destruct (m !! a); simpl; [|done]. by rewrite Z.add_0_r. Qed.

Lemma store_byte m a b : byte_ok b -> store 1 m a b = _ ← m !! a; Some (<[a := b]> m).
Proof. intros Hb. unfold store. simpl. unfold byte_ok in Hb. by rewrite Z.mod_small by lia. Qed.

(** One round of the byte loop. *)
Lemma copy_byte_eq m d s :
  ram_ok m -> (b ← load 1 m s; store 1 m d b) = b ← m !! s; _ ← m !! d; Some (<[d := b]> m).
Proof.
  intros Hm. rewrite load_byte. destruct (m !! s) as [b|] eqn:Eb; cbn [mbind option_bind]; [|done].
  by rewrite store_byte by apply (Hm _ _ Eb).
Qed.

Lemma copy_bytes_S n m d s :
  ram_ok m -> copy_bytes (S n) m d s =
    b ← m !! s; _ ← m !! d; copy_bytes n (<[d := b]> m) (d + 1) (s + 1).
Proof.
  intros Hm. pose proof (copy_byte_eq m d s Hm) as E. simpl.
  destruct (load 1 m s) as [b|]; simpl in *.
  - rewrite E. destruct (m !! s); simpl; [|done]. by destruct (m !! d).
  - destruct (m !! s); simpl in *; [|done]. by destruct (m !! d).
Qed.

Lemma copy_bytes_ram_ok n m d s m' : ram_ok m -> copy_bytes n m d s = Some m' -> ram_ok m'.
Proof.
  revert m d s. induction n as [|n IH]; intros m d s Hm; [by intros [= <-]|].
  rewrite copy_bytes_S by done. destruct (m !! s) as [b|] eqn:Eb; simpl; [|done].
  destruct (m !! d); simpl; [|done]. apply IH, ram_ok_insert; [done|]. by apply (Hm _ _ Eb).
Qed.

Lemma copy_bytes_add n1 n2 m d s :
  copy_bytes (n1 + n2) m d s =
  m' ← copy_bytes n1 m d s; copy_bytes n2 m' (d + Z.of_nat n1) (s + Z.of_nat n1).
Proof.
  revert m d s. induction n1 as [|n1 IH]; intros m d s; [simpl; by rewrite !Z.add_0_r|].
  cbn [copy_bytes Nat.add]. destruct (load 1 m s); simpl; [|done]. destruct (store 1 m d _); simpl; [|done].
  rewrite IH. destruct (copy_bytes n1 _ _ _); simpl; [|done]. f_equal; lia.
Qed.

(** Copying upwards reads every byte before it is overwritten, unless the
    destination begins inside the source. *)
Lemma copy_bytes_up n m d s :
  ram_ok m -> d <= s \/ s + Z.of_nat n <= d ->
  copy_bytes n m d s = l ← read_bytes m s n; write_bytes m d l.
Proof.
  revert m d s. induction n as [|n IH]; intros m d s Hm Hd; [done|].
  rewrite copy_bytes_S by done. simpl. destruct (m !! s) as [b|] eqn:Eb; simpl; [|done].
  destruct (m !! d) as [b'|] eqn:Ed; simpl.
  2:{ destruct (read_bytes m (s + 1) n); simpl; [|done]. by rewrite Ed. }
  rewrite IH by (lia || (apply ram_ok_insert; [done|by apply (Hm _ _ Eb)])).
  assert (write_bytes m d [b] = Some (<[d := b]> m)) as EW by (simpl; by rewrite Ed).
  rewrite (read_write_other m d [b] _ (s + 1) n EW) by (simpl; lia).
  destruct (read_bytes m (s + 1) n); simpl; [|done]. by rewrite Ed.
Qed.

Lemma read_bytes_app m a n1 n2 :
  read_bytes m a (n1 + n2) =
  l1 ← read_bytes m a n1; l2 ← read_bytes m (a + Z.of_nat n1) n2; Some (l1 ++ l2).
Proof.
  revert a. induction n1 as [|n1 IH]; intros a; simpl.
  - rewrite Z.add_0_r. by destruct (read_bytes m a n2).
  - destruct (m !! a); simpl; [|done]. rewrite IH. destruct (read_bytes m (a + 1) n1); simpl; [|done].
    replace (a + Z.of_nat (S n1)) with (a + 1 + Z.of_nat n1) by lia.
    by destruct (read_bytes _ _ n2).
Qed.

(** A byte outside the written range may be set before or after. *)
Lemma write_insert_comm m a l x b :
  x < a \/ a + Z.of_nat (length l) <= x ->
  write_bytes (<[x := b]> m) a l = m' ← write_bytes m a l; Some (<[x := b]> m').
Proof.
  revert m a. induction l as [|c l IH]; intros m a Hx; simpl in *; [done|].
  rewrite lookup_insert_ne by lia. destruct (m !! a); simpl; [|done].
  rewrite insert_insert_ne by lia. apply IH. lia.
Qed.

Lemma copy_bytes_down_eq n m d s :
  ram_ok m -> s <= d ->
  copy_bytes_down n m (d + Z.of_nat n) (s + Z.of_nat n) = l ← read_bytes m s n; write_bytes m d l.
Proof.
  intros Hm Hd. revert m Hm. induction n as [|n IH]; intros m Hm; [done|]. cbn [copy_bytes_down].
  replace (s + Z.of_nat (S n) - 1) with (s + Z.of_nat n) by lia.
  replace (d + Z.of_nat (S n) - 1) with (d + Z.of_nat n) by lia.
  replace (S n) with (n + 1)%nat by lia. rewrite read_bytes_app.
  rewrite load_byte. simpl (read_bytes _ _ 1).
  destruct (m !! (s + Z.of_nat n)) as [b|] eqn:Eb; cbn [mbind option_bind].
  2:{ by destruct (read_bytes m s n). }
  assert (byte_ok b) as Hb by apply (Hm _ _ Eb). rewrite store_byte by done.
  assert (ram_ok (<[d + Z.of_nat n := b]> m)) as Hm' by by apply ram_ok_insert.
  assert (read_bytes (<[d + Z.of_nat n := b]> m) s n = read_bytes m s n) as ER.
  { destruct (m !! (d + Z.of_nat n)) eqn:Ed.
    - apply (read_write_other m (d + Z.of_nat n) [b]); [simpl; by rewrite Ed|simpl; lia].
    - clear -Hd. set (z := d + Z.of_nat n). assert (s + Z.of_nat n <= z) as Hz by lia. clearbody z.
      clear Hd. revert s Hz. induction n as [|n IH]; intros s Hz; [done|]. simpl.
      rewrite lookup_insert_ne by lia. by rewrite IH by lia. }
  destruct (read_bytes m s n) as [l|] eqn:El; cbn [mbind option_bind].
  2:{ destruct (m !! (d + _)); cbn [mbind option_bind]; [|done]. by rewrite IH, ER. }
  apply read_bytes_lookup in El as El'. destruct El' as [Hl _].
  rewrite write_bytes_app, Hl. destruct (m !! (d + Z.of_nat n)) as [b'|] eqn:Ed; cbn [mbind option_bind].
  - rewrite IH, ER by done. cbn [mbind option_bind]. rewrite write_insert_comm by lia.
    destruct (write_bytes m d l) as [m'|] eqn:EW; [|done]. cbn [mbind option_bind write_bytes].
    apply write_bytes_Some in EW as [_ H]. by rewrite H, decide_False, Ed by lia.
  - destruct (write_bytes m d l) as [m'|] eqn:EW; [|done]. cbn [mbind option_bind write_bytes].
    apply write_bytes_Some in EW as [_ H]. by rewrite H, decide_False, Ed by lia.
Qed.

Lemma copy_word_eq m d s :
  ram_ok m -> (d - s) mod 4 = 0 -> copy_word m d s = copy_bytes 4 m d s.
Proof.
  intros Hm Ha. unfold copy_word, load, store.
  destruct (decide (d <= s \/ s + 4 <= d)) as [Hd|Hd].
  - rewrite copy_bytes_up by done. destruct (read_bytes m s 4) as [l|] eqn:E; [|done].
    cbn [mbind option_bind fmap option_map option_fmap].
    apply read_bytes_lookup in E as E'. destruct E' as [<- _].
    by rewrite le_split_combine by by eapply ram_ok_read.
  - assert (0 < d - s < 4) by lia. rewrite Z.mod_small in Ha by lia. lia.
Qed.

Lemma u32_i32 x : u32 (i32 x) = u32 x.
Proof.
  unfold u32, i32. rewrite Zminus_mod, Zmod_mod, <-Zminus_mod. f_equal. lia.
Qed.

Lemma u32_sub x k : 0 <= k <= u32 x -> u32 (x - k) = u32 x - k.
Proof.
  intros Hk. pose proof (u32_range x). unfold u32 in *. symmetry.
  apply (Z.mod_unique _ _ (x / 2 ^ 32)); [lia|]. pose proof (Z.div_mod x (2 ^ 32)). lia.
Qed.

Lemma memcpy_words_eq fuel m d s len :
  ram_ok m -> (d - s) mod 4 = 0 -> u32 len <= Z.of_nat fuel ->
  exists (k : nat) len', Z.of_nat k <= u32 len /\ u32 len' = u32 len - Z.of_nat k /\
    memcpy_words fuel m d s len =
      m' ← copy_bytes k m d s; Some (m', d + Z.of_nat k, s + Z.of_nat k, len').
Proof.
  revert m d s len. induction fuel as [|fuel IH]; intros m d s len Hm Ha Hf; pose proof (u32_range len);
    simpl; (destruct (Z.ltb_spec (u32 len) 4) as [Hs|Hs];
      [exists O, len; split; [lia|split; [lia|simpl; by rewrite !Z.add_0_r]]|]); [lia|].
  rewrite copy_word_eq by done.
  destruct (copy_bytes 4 m d s) as [m1|] eqn:E; cbn [mbind option_bind].
  - destruct (IH m1 (d + 4) (s + 4) (i32 (len - 4))) as (k & len' & Hk & Hl & Ek);
      [by eapply copy_bytes_ram_ok|by replace (d + 4 - (s + 4)) with (d - s) by lia|
       rewrite u32_i32, u32_sub by lia; lia|].
    rewrite u32_i32, u32_sub in Hk, Hl by lia.
    exists (4 + k)%nat, len'. split; [lia|]. split; [lia|].
    rewrite Ek, copy_bytes_add, E. cbn [mbind option_bind]. change (Z.of_nat 4) with 4.
    destruct (copy_bytes k m1 _ _); cbn [mbind option_bind]; [|done]. tuple_eq; lia.
  - exists 4%nat, (len - 4). split; [lia|]. split; [rewrite u32_sub by lia; done|]. by rewrite E.
Qed.

(** A block of the loop is four words. *)
Lemma memcpy_block_eq m d s :
  ram_ok m -> (d - s) mod 4 = 0 ->
  (m ← copy_word m d s; m ← copy_word m (d + 4) (s + 4);
   m ← copy_word m (d + 8) (s + 8); copy_word m (d + 12) (s + 12)) = copy_bytes 16 m d s.
Proof.
  intros Hm Ha. rewrite (copy_bytes_add 4 12 m d s : copy_bytes 16 m d s = _).
  rewrite copy_word_eq by done. destruct (copy_bytes 4 m d s) as [m1|] eqn:E1; cbn [mbind option_bind]; [|done].
  rewrite (copy_bytes_add 4 8 m1 _ _ : copy_bytes 12 m1 _ _ = _).
  assert (ram_ok m1) by by eapply copy_bytes_ram_ok.
  rewrite copy_word_eq by (done || by replace (d + 4 - (s + 4)) with (d - s) by lia).
  change (Z.of_nat 4) with 4.
  destruct (copy_bytes 4 m1 _ _) as [m2|] eqn:E2; cbn [mbind option_bind]; [|done].
  rewrite (copy_bytes_add 4 4 m2 _ _ : copy_bytes 8 m2 _ _ = _).
  assert (ram_ok m2) by by eapply copy_bytes_ram_ok.
  rewrite copy_word_eq by (done || by replace (d + 8 - (s + 8)) with (d - s) by lia).
  replace (d + 4 + 4) with (d + 8) by lia. replace (s + 4 + 4) with (s + 8) by lia. change (Z.of_nat 4) with 4.
  destruct (copy_bytes 4 m2 _ _) as [m3|] eqn:E3; cbn [mbind option_bind]; [|done].
  assert (ram_ok m3) by by eapply copy_bytes_ram_ok.
  rewrite copy_word_eq by (done || by replace (d + 12 - (s + 12)) with (d - s) by lia).
  f_equal; lia.
Qed.

Lemma memcpy_blocks_eq fuel m d s len :
  ram_ok m -> (d - s) mod 4 = 0 -> u32 len <= Z.of_nat fuel ->
  exists (k : nat) len', Z.of_nat k <= u32 len /\ u32 len' = u32 len - Z.of_nat k /\
    memcpy_blocks fuel m d s len =
      m' ← copy_bytes k m d s; Some (m', d + Z.of_nat k, s + Z.of_nat k, len').
Proof.
  revert m d s len. induction fuel as [|fuel IH]; intros m d s len Hm Ha Hf; pose proof (u32_range len);
    simpl; (destruct (Z.ltb_spec (u32 len) 16) as [Hs|Hs];
      [exists O, len; split; [lia|split; [lia|simpl; by rewrite !Z.add_0_r]]|]); [lia|].
  pose proof (memcpy_block_eq m d s Hm Ha) as HB.
  destruct (copy_bytes 16 m d s) as [m1|] eqn:E.
  - destruct (IH m1 (d + 16) (s + 16) (i32 (len - 16))) as (k & len' & Hk & Hl & Ek);
      [by eapply copy_bytes_ram_ok|by replace (d + 16 - (s + 16)) with (d - s) by lia|
       rewrite u32_i32, u32_sub by lia; lia|].
    rewrite u32_i32, u32_sub in Hk, Hl by lia.
    exists (16 + k)%nat, len'. split; [lia|]. split; [lia|].
    rewrite copy_bytes_add, E. cbn [mbind option_bind]. change (Z.of_nat 16) with 16.
    repeat (destruct (copy_word _ _ _); cbn [mbind option_bind] in *; [|done]). injection HB as ->.
    rewrite Ek. destruct (copy_bytes k m1 _ _); cbn [mbind option_bind]; [|done]. tuple_eq; lia.
  - exists 16%nat, (len - 16). split; [lia|]. split; [rewrite u32_sub by lia; done|]. rewrite E.
    cbn [mbind option_bind]. repeat (destruct (copy_word _ _ _); cbn [mbind option_bind] in *; [|done]). done.
Qed.

Lemma copy_bytes_split k n m d s :
  (k <= n)%nat ->
  copy_bytes n m d s =
  m' ← copy_bytes k m d s; copy_bytes (n - k) m' (d + Z.of_nat k) (s + Z.of_nat k).
Proof. intros Hk. rewrite <-copy_bytes_add. f_equal. lia. Qed.

Lemma aligned_difference d s : Z.lor (Z.land s 3) (Z.land d 3) = 0 -> (d - s) mod 4 = 0.
Proof.
  intros H. apply Z.lor_eq_0_iff in H as [Hs Hd]. change 3 with (Z.ones 2) in *.
  rewrite Z.land_ones in Hs, Hd by lia. change (2 ^ 2) with 4 in *. rewrite Zminus_mod, Hs, Hd. done.
Qed.

(** The word loops of [rt_memcpy] copy what its byte loop alone would. *)
Lemma rt_memcpy_eq m d s count :
  ram_ok m -> 0 <= count < 2 ^ 32 ->
  rt_memcpy m d s count = copy_bytes (Z.to_nat count) m d s.
Proof.
  intros Hm Hc. unfold rt_memcpy. rewrite u32_i32, (u32_small count) by lia.
  destruct (negb (count <? 16)); cbn [andb]; [|cbn [mbind option_bind fst snd]; by rewrite u32_i32, u32_small by lia].
  destruct (Z.eqb_spec (Z.lor (Z.land s 3) (Z.land d 3)) 0) as [Ha|_];
    [|cbn [mbind option_bind fst snd]; by rewrite u32_i32, u32_small by lia].
  apply aligned_difference in Ha.
  destruct (memcpy_blocks_eq (Z.to_nat count) m d s (i32 count)) as (k1 & l1 & Hk1 & Hl1 & E1);
    [done|done|rewrite u32_i32, u32_small by lia; lia|].
  rewrite u32_i32, (u32_small count) in Hk1, Hl1 by lia.
  rewrite E1, (copy_bytes_split k1 (Z.to_nat count)) by lia.
  destruct (copy_bytes k1 m d s) as [m1|] eqn:Em1; cbn [mbind option_bind fst snd]; [|done].
  destruct (memcpy_words_eq (Z.to_nat count) m1 (d + Z.of_nat k1) (s + Z.of_nat k1) l1)
    as (k2 & l2 & Hk2 & Hl2 & E2);
    [by eapply copy_bytes_ram_ok|by replace (d + Z.of_nat k1 - (s + Z.of_nat k1)) with (d - s) by lia|lia|].
  rewrite E2, (copy_bytes_split k2 (Z.to_nat count - k1)) by lia.
  destruct (copy_bytes k2 m1 _ _) as [m2|]; cbn [mbind option_bind fst snd]; [|done].
  f_equal; lia.
Qed.

(** [rt_memmove] copies the source as it was before the call, overlap or not. *)
Lemma rt_memmove_eq m d s n :
  ram_ok m -> 0 <= n ->
  rt_memmove m d s n = l ← read_bytes m s (Z.to_nat n); write_bytes m d l.
Proof.
  intros Hm Hn. unfold rt_memmove.
  destruct (Z.ltb_spec s d); cbn [andb]; [|apply copy_bytes_up; [done|lia]].
  destruct (Z.ltb_spec d (s + n)); [|apply copy_bytes_up; [done|lia]].
  rewrite <-(copy_bytes_down_eq (Z.to_nat n) m d s) by (done || lia). f_equal; lia.
Qed.

(** [rt_memcmp] decides equality of two blocks. *)
Lemma rt_memcmp_eq m a b n l1 l2 :
  read_bytes m a (Z.to_nat n) = Some l1 -> read_bytes m b (Z.to_nat n) = Some l2 ->
  exists r, rt_memcmp m a b n = Some r /\ (r = 0 <-> l1 = l2).
Proof.
  unfold rt_memcmp. generalize (Z.to_nat n). clear n. intros n. revert a b l1 l2.
  induction n as [|n IH]; intros a b l1 l2; simpl; [intros [= <-] [= <-]; by exists 0|].
  rewrite !load_byte.
  destruct (m !! a) as [x|]; simpl; [|done]. destruct (read_bytes m (a + 1) n) as [l1'|] eqn:E1; simpl; [|done].
  destruct (m !! b) as [y|]; simpl; [|done]. destruct (read_bytes m (b + 1) n) as [l2'|] eqn:E2; simpl; [|done].
  intros [= <-] [= <-]. destruct (Z.eqb_spec (x - y) 0) as [Hz|Hz]; simpl.
  - destruct (IH _ _ _ _ E1 E2) as (r & -> & Hr). exists r. split; [done|]. rewrite Hr.
    replace y with x by lia. naive_solver.
  - exists (x - y). split; [done|]. split; [done|]. intros [= ?]. lia.
Qed.

(** ** The properties *)
(** [rt_memset] fills.  For every count of 32 bits, aligned or not, the block
    and word stores leave the memory that storing the low byte of [c] at
    [count] addresses in a row leaves, and fail when one of them is missing. *)
Theorem memset_fills m s c count :
  0 <= count < 2 ^ 32 ->
  rt_memset m s c count = write_bytes m s (replicate (Z.to_nat count) (Z.land c 0xff)).
Proof. apply rt_memset_eq. Qed.

(** [rt_memcpy] copies.  For every count of 32 bits, the copy by blocks and
    words of four bytes ends and leaves the memory that the byte loop alone
    leaves, also when source and destination overlap; so when the destination
    does not start inside the source, the bytes read there first are the bytes
    written. *)
Theorem memcpy_copies m dst src count :
  ram_ok m -> 0 <= count < 2 ^ 32 ->
  rt_memcpy m dst src count = copy_bytes (Z.to_nat count) m dst src /\
  (dst <= src \/ src + count <= dst ->
   rt_memcpy m dst src count = l ← read_bytes m src (Z.to_nat count); write_bytes m dst l).
Proof.
  intros Hm Hc. split; [by apply rt_memcpy_eq|]. intros Hd.
  rewrite rt_memcpy_eq by done. apply copy_bytes_up; [done|]. lia.
Qed.

(** [rt_memmove] copies in every overlap.  The bytes written at the
    destination are those the source held before, and it fails only when an
    address is missing. *)
Theorem memmove_copies m dest src n :
  ram_ok m -> 0 <= n ->
  rt_memmove m dest src n = l ← read_bytes m src (Z.to_nat n); write_bytes m dest l.
Proof. apply rt_memmove_eq. Qed.

(** Forty bytes from address 16 on. *)
Definition ram40 : ram := list_to_map (imap (fun i b => (16 + Z.of_nat i, b)) (Z.of_nat <$> seq 1 40)).

Definition ram_ok_b (m : ram) : bool := forallb (fun p => (0 <=? p.2) && (p.2 <? 256)) (map_to_list m).

Lemma ram_ok_b_sound m : ram_ok_b m = true -> ram_ok m.
Proof.
  intros E a b Hab. apply elem_of_map_to_list in Hab. unfold ram_ok_b in E.
  apply Is_true_eq_left in E. rewrite forallb_True, Forall_forall in E.
  specialize (E _ Hab). simpl in E. unfold byte_ok.
  apply Is_true_eq_true, andb_true_iff in E as [E1 E2]. apply Z.leb_le in E1. apply Z.ltb_lt in E2. done.
Qed.

Definition mapped_b (m : ram) (a n : Z) : bool := forallb (fun x => bool_decide (is_Some (m !! x))) (seqZ a n).

Lemma mapped_b_sound m a n : mapped_b m a n = true -> mapped m a n.
Proof.
  intros H x Hx. unfold mapped_b in H. rewrite forallb_forall in H.
  eapply bool_decide_eq_true, H, list_elem_of_In, elem_of_seqZ. lia.
Qed.

Example memset_fills_witness :
  rt_memset ram40 16 0x1ff 23 = write_bytes ram40 16 (replicate 23 0xff).
Proof. apply (memset_fills ram40 16 0x1ff 23). lia. Defined.

(** Twenty-two bytes down by four: source and destination overlap. *)
Example memcpy_copies_witness :
  rt_memcpy ram40 16 20 22 = l ← read_bytes ram40 20 22; write_bytes ram40 16 l.
Proof.
  apply (memcpy_copies ram40 16 20 22); [apply ram_ok_b_sound; vm_compute; reflexivity|lia|lia].
Defined.

(** Twenty-two bytes up by three. *)
Example memmove_copies_witness :
  rt_memmove ram40 19 16 22 = l ← read_bytes ram40 16 22; write_bytes ram40 19 l.
Proof. apply (memmove_copies ram40 19 16 22); [apply ram_ok_b_sound; vm_compute; reflexivity|lia]. Defined.
End Ram.
