(* ===== verification/Strings.v ===== *)
(** * [kservice.c]: functions on strings in memory

    [rt_strlen], [rt_strnlen], [rt_strstr] and [rt_strcasecmp] on the memory of
    [Ram.v], and what they compute of the strings at their arguments.  A walk
    along a string visits each address once, so the number of bytes of the
    memory is enough fuel. *)
From S2P Require Import Prelude Ram.
Local Open Scope Z_scope.

Module Strings.
Import Ram.

(** [for (sc = s; *sc != '\0'; ++sc)]. *)
Fixpoint strlen_loop (fuel : nat) (m : ram) (s sc : Z) : option Z :=
  match fuel with
  | O => None
  | S fuel => c ← m !! sc; if c =? 0 then Some (sc - s) else strlen_loop fuel m s (sc + 1)
  end.
Definition rt_strlen (m : ram) (s : Z) : option Z := strlen_loop (S (size m)) m s s.

(** [for (sc = s; *sc != '\0' && sc - s < maxlen; ++sc)]. *)
Fixpoint strnlen_loop (fuel : nat) (m : ram) (s sc maxlen : Z) : option Z :=
  match fuel with
  | O => None
  | S fuel =>
      c ← m !! sc;
      if negb (c =? 0) && (sc - s <? maxlen) then strnlen_loop fuel m s (sc + 1) maxlen else Some (sc - s)
  end.
Definition rt_strnlen (m : ram) (s maxlen : Z) : option Z := strnlen_loop (S (size m)) m s s maxlen.

(** [while (l1 >= l2)]; 0 is RT_NULL. *)
Fixpoint strstr_loop (fuel : nat) (m : ram) (s1 s2 l1 l2 : Z) : option Z :=
  match fuel with
  | O => None
  | S fuel =>
      if l2 <=? l1 then
        r ← rt_memcmp m s1 s2 l2;
        if r =? 0 then Some s1 else strstr_loop fuel m (s1 + 1) s2 (l1 - 1) l2
      else Some 0
  end.

(** [rt_strstr]. *)
Definition rt_strstr (m : ram) (s1 s2 : Z) : option Z :=
  l2 ← rt_strlen m s2;
  if l2 =? 0 then Some s1
  else l1 ← rt_strlen m s1; strstr_loop (S (S (Z.to_nat l1))) m s1 s2 l1 l2.

(** [if (c >= 'A' && c <= 'Z') c += 'a' - 'A']. *)
Definition lower (c : Z) : Z := if (65 <=? c) && (c <=? 90) then c + 32 else c.

(** [rt_strcasecmp]. *)
Fixpoint strcasecmp_loop (fuel : nat) (m : ram) (a b : Z) : option Z :=
  match fuel with
  | O => None
  | S fuel =>
      ca ← m !! a; cb ← m !! b;
      let ca := lower (Z.land ca 0xff) in
      let cb := lower (Z.land cb 0xff) in
      if (ca =? cb) && negb (ca =? 0) then strcasecmp_loop fuel m (a + 1) (b + 1) else Some (u32 (ca - cb))
  end.
Definition rt_strcasecmp (m : ram) (a b : Z) : option Z := strcasecmp_loop (S (size m)) m a b.

(** ** Strings *)
(** The characters [l] and a terminator are at [s]. *)
Definition cstring (m : ram) (s : Z) (l : list Z) : Prop :=
  read_bytes m s (S (length l)) = Some (l ++ [0]) /\ Forall (fun c => 0 < c < 256) l.

Lemma cstring_lookup m s l i c : cstring m s l -> (l ++ [0]) !! i = Some c -> m !! (s + Z.of_nat i) = Some c.
Proof. intros [E _] Hi. apply read_bytes_lookup in E as [_ E]. by apply E. Qed.

(** A string is no longer than the memory. *)
Lemma cstring_size m s l : cstring m s l -> (length l < size m)%nat.
Proof.
  intros [E _]. apply read_bytes_lookup in E as [_ E]. rewrite <-(size_dom m).
  set (A := list_to_set ((fun i => s + Z.of_nat i) <$> seq 0 (S (length l))) : gset Z).
  assert (size A = S (length l)) as HA.
  { unfold A. rewrite size_list_to_set; [by rewrite length_fmap, length_seq|].
    apply NoDup_fmap_2; [intros x y H; lia|apply NoDup_seq]. }
  assert (A ⊆ dom m) as HS.
  { intros x Hx. unfold A in Hx. apply elem_of_list_to_set, list_elem_of_fmap in Hx as (i & -> & Hi).
    apply elem_of_seq in Hi. destruct (lookup_lt_is_Some_2 (l ++ [0]) i) as [c Hc]; [rewrite length_app; simpl; lia|].
    apply elem_of_dom. rewrite (E _ _ Hc). eauto. }
  apply subseteq_size in HS. lia.
Qed.

Lemma app_nul_lookup l i c :
  Forall (fun c => 0 < c < 256) l -> (l ++ [0]) !! i = Some c ->
  (c = 0 /\ i = length l) \/ (0 < c < 256 /\ (i < length l)%nat /\ l !! i = Some c).
Proof.
  intros Hl [Hi|[Hi Hc]]%lookup_app_Some.
  - right. split; [by eapply Forall_lookup_1 in Hl|]. split; [by eapply lookup_lt_Some|done].
  - left. destruct (i - length l)%nat eqn:E; [|done]. injection Hc as <-. split; [done|lia].
Qed.

Lemma strlen_loop_eq m s l : cstring m s l -> forall fuel i,
  (i <= length l)%nat -> (length l - i < fuel)%nat ->
  strlen_loop fuel m s (s + Z.of_nat i) = Some (Z.of_nat (length l)).
Proof.
  intros Hs. induction fuel as [|fuel IH]; intros i Hi Hf; [lia|]. simpl.
  destruct (lookup_lt_is_Some_2 (l ++ [0]) i) as [c Hc]; [rewrite length_app; simpl; lia|].
  rewrite (cstring_lookup _ _ _ _ _ Hs Hc). simpl. destruct (app_nul_lookup _ _ _ (proj2 Hs) Hc) as [[-> ->]|(Hr & Hi' & _)].
  - simpl. f_equal. lia.
  - rewrite (proj2 (Z.eqb_neq _ _)) by lia. replace (s + Z.of_nat i + 1) with (s + Z.of_nat (S i)) by lia.
    apply IH; lia.
Qed.

Lemma strlen_eq m s l : cstring m s l -> rt_strlen m s = Some (Z.of_nat (length l)).
Proof.
  intros Hs. unfold rt_strlen. rewrite <-(Z.add_0_r s) at 2.
  apply (strlen_loop_eq m s l Hs (S (size m)) 0); [lia|]. pose proof (cstring_size _ _ _ Hs). lia.
Qed.

(** ** [rt_strstr] *)
Lemma read_bytes_sub m s l i k :
  cstring m s l -> (i + k <= length l)%nat -> read_bytes m (s + Z.of_nat i) k = Some (take k (drop i l)).
Proof.
  intros Hs Hk. apply read_bytes_lookup. split; [rewrite length_take, length_drop; lia|].
  intros j c Hj. apply lookup_take_Some in Hj as [Hj Hlt]. rewrite lookup_drop in Hj.
  rewrite <-Z.add_assoc, <-Nat2Z.inj_add. apply (cstring_lookup _ _ _ _ _ Hs).
  apply lookup_app_Some. auto.
Qed.

(** [l2] occurs in [l1] at position [k]. *)
Definition occurs_at (l2 l1 : list Z) (k : nat) : Prop := take (length l2) (drop k l1) = l2.

Lemma occurs_fits l2 l1 k : occurs_at l2 l1 k -> (k <= length l1)%nat -> (k + length l2 <= length l1)%nat.
Proof.
  unfold occurs_at. intros H Hk. apply (f_equal length) in H. rewrite length_take, length_drop in H. lia.
Qed.

Lemma strstr_loop_eq m s1 s2 l1 l2 : cstring m s1 l1 -> cstring m s2 l2 -> l2 <> [] -> forall fuel i,
  (i <= length l1)%nat -> (length l1 - i < fuel)%nat -> (forall j, (j < i)%nat -> ~ occurs_at l2 l1 j) ->
  exists r, strstr_loop fuel m (s1 + Z.of_nat i) s2 (Z.of_nat (length l1 - i)) (Z.of_nat (length l2)) = Some r /\
    ((r = 0 /\ forall k, (k <= length l1)%nat -> ~ occurs_at l2 l1 k) \/
     exists k, r = s1 + Z.of_nat k /\ occurs_at l2 l1 k /\ forall j, (j < k)%nat -> ~ occurs_at l2 l1 j).
Proof.
  intros H1 H2 Hne. induction fuel as [|fuel IH]; intros i Hi Hf Hno; [lia|]. simpl.
  destruct (Z.leb_spec (Z.of_nat (length l2)) (Z.of_nat (length l1 - i))) as [Hle|Hgt].
  - destruct (rt_memcmp_eq m (s1 + Z.of_nat i) s2 (Z.of_nat (length l2)) (take (length l2) (drop i l1)) l2) as (r & -> & Hr).
    + rewrite Nat2Z.id. apply read_bytes_sub; [done|lia].
    + rewrite Nat2Z.id. pose proof (read_bytes_sub m s2 l2 0 (length l2) H2 ltac:(lia)) as E.
      by rewrite Z.add_0_r, drop_0, take_ge in E by lia.
    + simpl. destruct (Z.eqb_spec r 0) as [E|E].
      * exists (s1 + Z.of_nat i). split; [done|]. right. exists i. split; [done|]. split; [by apply Hr|done].
      * assert (i < length l1)%nat by (destruct l2; [done|simpl in *; lia]).
        replace (s1 + Z.of_nat i + 1) with (s1 + Z.of_nat (S i)) by lia.
        replace (Z.of_nat (length l1 - i) - 1) with (Z.of_nat (length l1 - S i)) by lia.
        apply IH; [lia|lia|]. intros j Hj. destruct (decide (j = i)) as [->|]; [by rewrite <-Hr|apply Hno; lia].
  - exists 0. split; [done|]. left. split; [done|]. intros k Hk Hoc. pose proof (occurs_fits _ _ _ Hoc Hk).
    apply (Hno k); [lia|done].
Qed.

(** [rt_strstr] returns the address of the first occurrence of the second
    string in the first one, RT_NULL if there is none, and the first string
    itself for an empty second one; it always returns. *)
Theorem strstr_first_occurrence m s1 s2 l1 l2 :
  cstring m s1 l1 -> cstring m s2 l2 ->
  exists r, rt_strstr m s1 s2 = Some r /\
    ((r = 0 /\ forall k, (k <= length l1)%nat -> ~ occurs_at l2 l1 k) \/
     exists k, r = s1 + Z.of_nat k /\ occurs_at l2 l1 k /\ forall j, (j < k)%nat -> ~ occurs_at l2 l1 j).
Proof.
  intros H1 H2. unfold rt_strstr. rewrite (strlen_eq _ _ _ H2). simpl.
  destruct l2 as [|c l2]; simpl length.
  { exists s1. split; [done|]. right. exists 0%nat. split; [lia|]. split; [done|lia]. }
  rewrite (proj2 (Z.eqb_neq _ _)) by lia. rewrite (strlen_eq _ _ _ H1). simpl. rewrite Nat2Z.id.
  destruct (strstr_loop_eq m s1 s2 l1 (c :: l2) H1 H2 ltac:(done) (S (S (length l1))) 0) as (r & E & Hr); [lia..|].
  rewrite Z.add_0_r, Nat.sub_0_r in E. eauto.
Qed.

(** ** [rt_strcasecmp] *)
Lemma lower_byte c : 0 <= c < 256 -> Z.land c 0xff = c /\ 0 <= lower c < 256 /\ (lower c = 0 <-> c = 0).
Proof.
  intros Hc. split; [change 0xff with (Z.ones 8); rewrite Z.land_ones, Z.mod_small by lia; done|].
  unfold lower. destruct (Z.leb_spec 65 c), (Z.leb_spec c 90); simpl; lia.
Qed.

Lemma u32_zero x : -256 < x < 256 -> (u32 x = 0 <-> x = 0).
Proof.
  intros Hx. unfold u32. destruct (Z.ltb_spec x 0).
  - rewrite <-(Z.mod_add x 1) by lia. rewrite Z.mod_small by lia. lia.
  - rewrite Z.mod_small; lia.
Qed.

Lemma strcasecmp_loop_eq m a b l1 l2 : cstring m a l1 -> cstring m b l2 -> forall fuel i,
  (i <= length l1)%nat -> (i <= length l2)%nat -> (length l1 - i < fuel)%nat ->
  exists r, strcasecmp_loop fuel m (a + Z.of_nat i) (b + Z.of_nat i) = Some r /\
    (r = 0 <-> lower <$> drop i l1 = lower <$> drop i l2).
Proof.
  intros H1 H2. induction fuel as [|fuel IH]; intros i Hi1 Hi2 Hf; [lia|]. simpl.
  destruct (lookup_lt_is_Some_2 (l1 ++ [0]) i) as [x Hx]; [rewrite length_app; simpl; lia|].
  destruct (lookup_lt_is_Some_2 (l2 ++ [0]) i) as [y Hy]; [rewrite length_app; simpl; lia|].
  rewrite (cstring_lookup _ _ _ _ _ H1 Hx), (cstring_lookup _ _ _ _ _ H2 Hy). simpl.
  pose proof (app_nul_lookup _ _ _ (proj2 H1) Hx) as Cx. pose proof (app_nul_lookup _ _ _ (proj2 H2) Hy) as Cy.
  destruct (lower_byte x) as (Lx & Rx & Zx); [lia|]. destruct (lower_byte y) as (Ly & Ry & Zy); [lia|].
  rewrite Lx, Ly. destruct Cx as [[-> ->]|(Hx0 & Hix & Ex)].
  - rewrite drop_ge by lia. destruct Cy as [[-> ->]|(Hy0 & Hiy & Ey)].
    + exists 0. rewrite drop_ge by lia. done.
    + rewrite (proj2 (Z.eqb_neq _ _)) by lia. eexists. split; [done|]. rewrite u32_zero by lia.
      rewrite (drop_S _ _ _ Ey). split; [lia|done].
  - rewrite (drop_S _ _ _ Ex). destruct (Z.eqb_spec (lower x) (lower y)) as [E|E]; simpl.
    + rewrite (proj2 (Z.eqb_neq (lower x) 0)) by lia. simpl.
      destruct Cy as [[-> ->]|(Hy0 & Hiy & Ey)]; [lia|]. rewrite (drop_S _ _ _ Ey).
      destruct (IH (S i)) as (r & Er & Hr); [lia..|]. exists r.
      rewrite !Nat2Z.inj_succ in Er. rewrite <-!Z.add_assoc. split; [exact Er|]. rewrite Hr, !fmap_cons.
      split; [intros H'; by f_equal|by intros [= _ ?]].
    + eexists. split; [done|]. rewrite u32_zero by lia. split; [lia|]. intros H. exfalso. apply E.
      destruct Cy as [[-> ->]|(Hy0 & Hiy & Ey)]; [by rewrite (drop_ge l2) in H by lia|].
      rewrite (drop_S _ _ _ Ey), !fmap_cons in H. by injection H.
Qed.

(** [rt_strcasecmp] is 0 exactly for strings that differ only in the case of
    letters. *)
Theorem strcasecmp_zero m a b l1 l2 :
  cstring m a l1 -> cstring m b l2 ->
  exists r, rt_strcasecmp m a b = Some r /\ (r = 0 <-> lower <$> l1 = lower <$> l2).
Proof.
  intros H1 H2. pose proof (cstring_size _ _ _ H1).
  destruct (strcasecmp_loop_eq m a b l1 l2 H1 H2 (S (size m)) 0) as (r & E & Hr); [lia..|].
  rewrite !Z.add_0_r in E. rewrite !drop_0 in Hr. eauto.
Qed.

(** [rt_strnlen] is the smaller of the length and the limit. *)
Theorem strnlen_min m s l maxlen :
  cstring m s l -> 0 <= maxlen -> rt_strnlen m s maxlen = Some (Z.min (Z.of_nat (length l)) maxlen).
Proof.
  intros Hs Hm. pose proof (cstring_size _ _ _ Hs) as Hsz. unfold rt_strnlen.
  assert (forall fuel i, (i <= length l)%nat -> Z.of_nat i <= maxlen -> (length l - i < fuel)%nat ->
    strnlen_loop fuel m s (s + Z.of_nat i) maxlen = Some (Z.min (Z.of_nat (length l)) maxlen)) as H.
  { induction fuel as [|fuel IH]; intros i Hi Him Hf; [lia|]. simpl.
    destruct (lookup_lt_is_Some_2 (l ++ [0]) i) as [c Hc]; [rewrite length_app; simpl; lia|].
    rewrite (cstring_lookup _ _ _ _ _ Hs Hc). simpl.
    destruct (app_nul_lookup _ _ _ (proj2 Hs) Hc) as [[-> ->]|(Hr & Hi' & _)]; [simpl; f_equal; lia|].
    rewrite (proj2 (Z.eqb_neq _ _)) by lia. simpl.
    destruct (Z.ltb_spec (s + Z.of_nat i - s) maxlen); [|f_equal; lia].
    replace (s + Z.of_nat i + 1) with (s + Z.of_nat (S i)) by lia. apply IH; lia. }
  rewrite <-(Z.add_0_r s) at 2. apply (H _ 0%nat); lia.
Qed.

(** "abcab" at 32 and "cab" at 48. *)
Definition ram_str : ram :=
  list_to_map (imap (fun i b => (32 + Z.of_nat i, b)) [97; 98; 99; 97; 98; 0; 7; 7; 7; 7; 7; 7; 7; 7; 7; 7; 99; 97; 98; 0]).

Definition cstring_b (m : ram) (s : Z) (l : list Z) : bool :=
  bool_decide (read_bytes m s (S (length l)) = Some (l ++ [0])) && forallb (fun c => (0 <? c) && (c <? 256)) l.

Lemma cstring_b_sound m s l : cstring_b m s l = true -> cstring m s l.
Proof.
  unfold cstring_b. intros [H1%bool_decide_eq_true H2]%andb_true_iff. split; [done|].
  apply Is_true_eq_left in H2. rewrite forallb_True in H2. eapply Forall_impl; [exact H2|].
  intros c [Hc1%Z.ltb_lt Hc2%Z.ltb_lt]%Is_true_eq_true%andb_true_iff. done.
Qed.

Example strstr_first_occurrence_witness :
  exists r, rt_strstr ram_str 32 48 = Some r /\
    ((r = 0 /\ forall k, (k <= 5)%nat -> ~ occurs_at [99; 97; 98] [97; 98; 99; 97; 98] k) \/
     exists k, r = 32 + Z.of_nat k /\ occurs_at [99; 97; 98] [97; 98; 99; 97; 98] k /\
       forall j, (j < k)%nat -> ~ occurs_at [99; 97; 98] [97; 98; 99; 97; 98] j).
Proof.
  exact (strstr_first_occurrence ram_str 32 48 [97; 98; 99; 97; 98] [99; 97; 98]
    (cstring_b_sound ram_str 32 [97; 98; 99; 97; 98] ltac:(vm_compute; reflexivity))
    (cstring_b_sound ram_str 48 [99; 97; 98] ltac:(vm_compute; reflexivity))).
Defined.
End Strings.
