(* ===== verification/RtList.v ===== *)
(** * [rtservice.h]: intrusive circular doubly linked lists

    The kernel's queues are rings of [rt_list_t] nodes embedded in objects.
    [ListStore] is the interface the kernel code is written against.  It has
    two instances:
    - [ptr_store], the pointer code of [rtservice.h] over a heap of
      (next, prev) cells;
    - [view_store], the contract: every node sees the sequence of the other
      nodes of its ring, in [next] order.  An operation whose precondition
      fails (inserting a node that is still linked, removing an uninitialised
      one) is an error of the contract.
    [store_refines] proves that the pointer code implements the contract. *)
From S2P Require Import Prelude.

(** ** The interface *)
Class ListStore (N L : Type) := {
  ls_next : L -> N -> option N;
  ls_prev : L -> N -> option N;
  ls_init : N -> L -> option L;
  ls_insert_after : N -> N -> L -> option L;
  ls_insert_before : N -> N -> L -> option L;
  ls_remove : N -> L -> option L;
  ls_size : L -> nat;
}.

(** What one store promises to another: [R] is a simulation of [S2] by [S1],
    and [S1] never fails where [S2] succeeds. *)
Class StoreRefines {N L1 L2 : Type} (S1 : ListStore N L1) (S2 : ListStore N L2)
    (R : L1 -> L2 -> Prop) := {
  sr_next a b l : R a b -> ls_next a l = ls_next b l;
  sr_prev a b l : R a b -> ls_prev a l = ls_prev b l;
  sr_size a b : R a b -> @ls_size N L1 S1 a = @ls_size N L2 S2 b;
  sr_init a b l b' : R a b -> ls_init l b = Some b' ->
    exists a', ls_init l a = Some a' /\ R a' b';
  sr_insert_after a b l n b' : R a b -> ls_insert_after l n b = Some b' ->
    exists a', ls_insert_after l n a = Some a' /\ R a' b';
  sr_insert_before a b l n b' : R a b -> ls_insert_before l n b = Some b' ->
    exists a', ls_insert_before l n a = Some a' /\ R a' b';
  sr_remove a b n b' : R a b -> ls_remove n b = Some b' ->
    exists a', ls_remove n a = Some a' /\ R a' b';
}.

(** ** Operations of [rtservice.h] that only use the primitives *)
Section derived.
Context {N L : Type} {ED : EqDecision N} {St : ListStore N L}.

(** [rt_list_isempty]: [l->next == l]. *)
Definition rt_list_isempty (h : L) (l : N) : option bool :=
  x ← ls_next h l; Some (bool_decide (x = l)).

(** [rt_list_len]: [while (p->next != l) { p = p->next; len ++; }]; one round
    per node of the store is enough. *)
Fixpoint list_len_loop (fuel : nat) (h : L) (l p : N) (len : Z) : option Z :=
  match fuel with
  | O => None
  | S fuel =>
      x ← ls_next h p;
      if bool_decide (x = l) then Some len
      else list_len_loop fuel h l x (u32 (len + 1))
  end.

Definition rt_list_len (h : L) (l : N) : option Z :=
  list_len_loop (S (ls_size h)) h l l 0.
End derived.

Module RtList.

Section store.
Context {N : Type} {ED : EqDecision N} {CN : Countable N}.
Implicit Types (l n m : N) (xs ys : list N).

(** ** Pointer instance: [struct rt_list_node { next; prev; }] *)
Record rt_list_node := Node { node_next : N; node_prev : N }.
Abbreviation heap := (gmap N rt_list_node).

Definition p_next (h : heap) l : option N := node_next <$> h !! l.
Definition p_prev (h : heap) l : option N := node_prev <$> h !! l.

(** A store through a node pointer; the other field of a cell that was never
    initialised holds whatever was there (here: the node itself), and every
    operation that links a node writes both fields. *)
Definition write_next l (v : N) (h : heap) : heap :=
  <[l := Node v (default l (p_prev h l))]> h.
Definition write_prev l (v : N) (h : heap) : heap :=
  <[l := Node (default l (p_next h l)) v]> h.

Definition rt_list_init l (h : heap) : option heap :=
  Some (write_next l l (write_prev l l h)).

Definition rt_list_insert_after l n (h : heap) : option heap :=
  lnext ← p_next h l;
  let h := write_prev lnext n h in
  lnext ← p_next h l;
  let h := write_next n lnext h in
  let h := write_next l n h in
  Some (write_prev n l h).

Definition rt_list_insert_before l n (h : heap) : option heap :=
  lprev ← p_prev h l;
  let h := write_next lprev n h in
  lprev ← p_prev h l;
  let h := write_prev n lprev h in
  let h := write_prev l n h in
  Some (write_next n l h).

Definition rt_list_remove n (h : heap) : option heap :=
  nnext ← p_next h n;
  nprev ← p_prev h n;
  let h := write_prev nnext nprev h in
  nnext ← p_next h n;
  nprev ← p_prev h n;
  let h := write_next nprev nnext h in
  Some (write_next n n (write_prev n n h)).

#[export] Instance ptr_store : ListStore N heap := {|
  ls_next := p_next;
  ls_prev := p_prev;
  ls_init := rt_list_init;
  ls_insert_after := rt_list_insert_after;
  ls_insert_before := rt_list_insert_before;
  ls_remove := rt_list_remove;
  ls_size := size;
|}.

(** ** Contract instance: views *)
Abbreviation views := (gmap N (list N)).

Fixpoint ins_before l n ys : list N :=
  match ys with
  | [] => []
  | y :: ys' => if decide (y = l) then n :: y :: ys' else y :: ins_before l n ys'
  end.

Fixpoint ins_after l n ys : list N :=
  match ys with
  | [] => []
  | y :: ys' => if decide (y = l) then y :: n :: ys' else y :: ins_after l n ys'
  end.

Definition v_next (V : views) l : option N := (fun xs => default l (head xs)) <$> V !! l.
Definition v_prev (V : views) l : option N := (fun xs => default l (last xs)) <$> V !! l.

(** Not linked to any other node, or never initialised. *)
Definition v_loose (V : views) n : bool :=
  match V !! n with None => true | Some [] => true | Some _ => false end.

Definition v_init l (V : views) : option views :=
  if v_loose V l then Some (<[l := []]> V) else None.

Definition v_insert_after l n (V : views) : option views :=
  xs ← V !! l;
  if v_loose V n && bool_decide (n <> l)
  then Some (<[n := xs ++ [l]]> (<[l := n :: xs]> (ins_after l n <$> V)))
  else None.

Definition v_insert_before l n (V : views) : option views :=
  xs ← V !! l;
  if v_loose V n && bool_decide (n <> l)
  then Some (<[n := l :: xs]> (<[l := xs ++ [n]]> (ins_before l n <$> V)))
  else None.

Definition drop_node n ys : list N := filter (fun y => y <> n) ys.

Definition v_remove n (V : views) : option views :=
  xs ← V !! n;
  Some (<[n := []]> (drop_node n <$> V)).

#[export] Instance view_store : ListStore N views := {|
  ls_next := v_next;
  ls_prev := v_prev;
  ls_init := v_init;
  ls_insert_after := v_insert_after;
  ls_insert_before := v_insert_before;
  ls_remove := v_remove;
  ls_size := size;
|}.

(** ** Coherence of views

    [c] is a ring of the store: read from any of its nodes, the view is the
    rotation of [c] that starts there. *)
Definition ring (V : views) (c : list N) : Prop :=
  NoDup c /\ forall A x B, c = A ++ x :: B -> V !! x = Some (B ++ A).

Definition coherent (V : views) : Prop :=
  forall x xs, V !! x = Some xs -> ring V (x :: xs).

(** The abstraction relation: the cell of each node holds the first and the
    last node of its view. *)
Definition represents (h : heap) (V : views) : Prop :=
  coherent V /\
  forall l, h !! l = (fun xs => Node (default l (head xs)) (default l (last xs))) <$> V !! l.

(** *** List facts *)
Lemma ins_before_notin l n ys : l ∉ ys -> ins_before l n ys = ys.
Proof.
  induction ys as [|y ys IH]; intros Hl; simpl; [done|].
  rewrite not_elem_of_cons in Hl. rewrite decide_False by naive_solver.
  f_equal. naive_solver.
Qed.

Lemma ins_after_notin l n ys : l ∉ ys -> ins_after l n ys = ys.
Proof.
  induction ys as [|y ys IH]; intros Hl; simpl; [done|].
  rewrite not_elem_of_cons in Hl. rewrite decide_False by naive_solver.
  f_equal. naive_solver.
Qed.

Lemma ins_before_split l n A B :
  l ∉ A -> ins_before l n (A ++ l :: B) = A ++ n :: l :: B.
Proof.
  induction A as [|a A IH]; intros Hl; simpl; [by rewrite decide_True|].
  rewrite not_elem_of_cons in Hl. rewrite decide_False by naive_solver.
  f_equal. naive_solver.
Qed.

Lemma ins_after_split l n A B :
  l ∉ A -> ins_after l n (A ++ l :: B) = A ++ l :: n :: B.
Proof.
  induction A as [|a A IH]; intros Hl; simpl; [by rewrite decide_True|].
  rewrite not_elem_of_cons in Hl. rewrite decide_False by naive_solver.
  f_equal. naive_solver.
Qed.

Lemma drop_node_notin n ys : n ∉ ys -> drop_node n ys = ys.
Proof.
  intros Hn. unfold drop_node. induction ys as [|y ys IH]; [done|].
  rewrite not_elem_of_cons in Hn. rewrite filter_cons_True by naive_solver.
  f_equal. naive_solver.
Qed.

Lemma drop_node_split n A B :
  n ∉ A -> n ∉ B -> drop_node n (A ++ n :: B) = A ++ B.
Proof.
  intros HA HB. unfold drop_node.
  rewrite filter_app, filter_cons_False by naive_solver.
  f_equal; by apply drop_node_notin.
Qed.

Lemma elem_of_drop_node n y ys : y ∈ drop_node n ys <-> y ∈ ys /\ y <> n.
Proof. unfold drop_node. rewrite list_elem_of_filter. naive_solver. Qed.

(** *** Rings *)
Lemma ring_rotate V A x B : ring V (A ++ x :: B) -> ring V (x :: B ++ A).
Proof.
  intros [Hnd Hr]. split.
  { apply (NoDup_Permutation_proper (x :: B ++ A) (A ++ x :: B)); [|done].
    change (x :: B ++ A) with ((x :: B) ++ A). apply Permutation_app_comm. }
  intros A' y B' E. destruct A' as [|a A']; simpl in E; injection E as <- E.
  { subst B'. rewrite app_nil_r. by apply Hr. }
  apply app_eq_inv in E as [(k & -> & E)|(k & E & ->)].
  - destruct k as [|y' k]; simpl in E.
    + subst. rewrite app_nil_r in Hr. rewrite (Hr [] y (B' ++ x :: A')) by done.
      by rewrite app_nil_r.
    + injection E as <- ->. rewrite (Hr (A ++ x :: A') y k).
      * by rewrite <-!app_assoc.
      * by rewrite <-app_assoc.
  - subst. rewrite (Hr k y (B' ++ x :: B)); [|by rewrite <-app_assoc].
    by rewrite <-!app_assoc.
Qed.

Lemma coherent_mem V x xs y :
  coherent V -> V !! x = Some xs -> y ∈ xs -> is_Some (V !! y).
Proof.
  intros HV Hx Hy. destruct (HV _ _ Hx) as [_ Hr].
  apply list_elem_of_split in Hy as (A & B & ->).
  rewrite (Hr (x :: A) y B) by done. eauto.
Qed.

Lemma coherent_notin V x xs : coherent V -> V !! x = Some xs -> x ∉ xs.
Proof. intros HV Hx. destruct (HV _ _ Hx) as [Hnd _]. by apply NoDup_cons in Hnd as [? _]. Qed.

Lemma coherent_nodup V x xs : coherent V -> V !! x = Some xs -> NoDup xs.
Proof. intros HV Hx. destruct (HV _ _ Hx) as [Hnd _]. by apply NoDup_cons in Hnd as [_ ?]. Qed.

(** The view from a node further along the ring. *)
Lemma coherent_split V x A y B :
  coherent V -> V !! x = Some (A ++ y :: B) -> V !! y = Some (B ++ x :: A).
Proof.
  intros HV Hx. destruct (HV _ _ Hx) as [_ Hr].
  by rewrite (Hr (x :: A) y B).
Qed.

(** Membership is symmetric. *)
Lemma coherent_sym V x xs y ys :
  coherent V -> V !! x = Some xs -> V !! y = Some ys -> y ∈ xs -> x ∈ ys.
Proof.
  intros HV Hx Hy Hin. apply list_elem_of_split in Hin as (A & B & ->).
  rewrite (coherent_split _ _ _ _ _ HV Hx) in Hy. injection Hy as <-. set_solver.
Qed.

(** Being in the same ring. *)
Lemma coherent_same V x xs y ys :
  coherent V -> V !! x = Some xs -> V !! y = Some ys -> y ∈ xs ->
  forall z, z ∈ y :: ys <-> z ∈ x :: xs.
Proof.
  intros HV Hx Hy Hin z. apply list_elem_of_split in Hin as (A & B & ->).
  rewrite (coherent_split _ _ _ _ _ HV Hx) in Hy. injection Hy as <-. set_solver.
Qed.

Lemma loose_spec V n : coherent V -> v_loose V n = true ->
  forall x xs, V !! x = Some xs -> n ∉ xs.
Proof.
  unfold v_loose. intros HV Hl x xs Hx Hin.
  destruct (coherent_mem _ _ _ _ HV Hx Hin) as [ys Hy]. rewrite Hy in Hl.
  destruct ys; [|done].
  pose proof (coherent_sym _ _ _ _ _ HV Hx Hy Hin). set_solver.
Qed.

(** A ring all of whose views survive an update is still a ring. *)
Lemma ring_frame V V' c :
  ring V c -> (forall x, x ∈ c -> V' !! x = V !! x) -> ring V' c.
Proof.
  intros [Hnd Hr] HV. split; [done|]. intros A x B ->.
  rewrite HV by set_solver. by apply Hr.
Qed.

(** To show an update coherent, exhibit the rings it touches. *)
Lemma coherent_update V V' (cs : list (list N)) :
  coherent V ->
  Forall (ring V') cs ->
  (forall x, (exists c, c ∈ cs /\ x ∈ c) \/
     (V' !! x = V !! x /\ forall xs, V !! x = Some xs ->
        forall y, y ∈ xs -> V' !! y = V !! y)) ->
  coherent V'.
Proof.
  intros HV Hcs Hx x xs Hxx. destruct (Hx x) as [(c & Hc & Hin)|[E Hfr]].
  - rewrite Forall_forall in Hcs. specialize (Hcs c Hc).
    apply list_elem_of_split in Hin as (A & B & ->).
    pose proof (proj2 Hcs A x B eq_refl) as E. rewrite E in Hxx. injection Hxx as <-.
    by apply ring_rotate.
  - rewrite E in Hxx. apply (ring_frame V).
    + by apply HV.
    + intros y [->|Hy]%elem_of_cons; [done|]. by eapply Hfr.
Qed.

(** *** The effect of each contract operation on every view *)
Lemma v_insert_before_lookup l n V V' xs :
  coherent V -> V !! l = Some xs -> v_insert_before l n V = Some V' ->
  n <> l /\ n ∉ xs /\
  V' !! n = Some (l :: xs) /\
  V' !! l = Some (xs ++ [n]) /\
  (forall A y B, xs = A ++ y :: B -> V' !! y = Some (B ++ n :: l :: A)) /\
  (forall y, y ∉ n :: l :: xs -> V' !! y = V !! y).
Proof.
  unfold v_insert_before. intros HV Hl E. rewrite Hl in E. simpl in E.
  destruct (v_loose V n) eqn:Hn; [|done]. simpl in E.
  case_bool_decide as Hnl; [|done]. injection E as <-.
  pose proof (loose_spec _ _ HV Hn _ _ Hl) as Hnx.
  split; [done|split; [done|]]. split; [by rewrite lookup_insert_eq|].
  split; [by rewrite lookup_insert_ne, lookup_insert_eq|]. split.
  - intros A y B ->. pose proof (coherent_nodup _ _ _ HV Hl) as Hnd.
    pose proof (coherent_notin _ _ _ HV Hl) as Hlx.
    rewrite !lookup_insert_ne by set_solver.
    rewrite lookup_fmap, (coherent_split _ _ _ _ _ HV Hl). simpl.
    rewrite ins_before_split by set_solver. done.
  - intros y Hy. rewrite !lookup_insert_ne by set_solver. rewrite lookup_fmap.
    destruct (V !! y) as [ys|] eqn:Ey; [|done]. simpl. f_equal.
    apply ins_before_notin. intros Hin.
    pose proof (coherent_sym _ _ _ _ _ HV Ey Hl Hin). set_solver.
Qed.

Lemma v_insert_after_lookup l n V V' xs :
  coherent V -> V !! l = Some xs -> v_insert_after l n V = Some V' ->
  n <> l /\ n ∉ xs /\
  V' !! n = Some (xs ++ [l]) /\
  V' !! l = Some (n :: xs) /\
  (forall A y B, xs = A ++ y :: B -> V' !! y = Some (B ++ l :: n :: A)) /\
  (forall y, y ∉ n :: l :: xs -> V' !! y = V !! y).
Proof.
  unfold v_insert_after. intros HV Hl E. rewrite Hl in E. simpl in E.
  destruct (v_loose V n) eqn:Hn; [|done]. simpl in E.
  case_bool_decide as Hnl; [|done]. injection E as <-.
  pose proof (loose_spec _ _ HV Hn _ _ Hl) as Hnx.
  split; [done|split; [done|]]. split; [by rewrite lookup_insert_eq|].
  split; [by rewrite lookup_insert_ne, lookup_insert_eq|]. split.
  - intros A y B ->. pose proof (coherent_nodup _ _ _ HV Hl) as Hnd.
    pose proof (coherent_notin _ _ _ HV Hl) as Hlx.
    rewrite !lookup_insert_ne by set_solver.
    rewrite lookup_fmap, (coherent_split _ _ _ _ _ HV Hl). simpl.
    rewrite ins_after_split by set_solver. done.
  - intros y Hy. rewrite !lookup_insert_ne by set_solver. rewrite lookup_fmap.
    destruct (V !! y) as [ys|] eqn:Ey; [|done]. simpl. f_equal.
    apply ins_after_notin. intros Hin.
    pose proof (coherent_sym _ _ _ _ _ HV Ey Hl Hin). set_solver.
Qed.

Lemma v_remove_lookup n V V' xs :
  coherent V -> V !! n = Some xs -> v_remove n V = Some V' ->
  V' !! n = Some [] /\
  (forall A y B, xs = A ++ y :: B -> V' !! y = Some (B ++ A)) /\
  (forall y, y ∉ n :: xs -> V' !! y = V !! y).
Proof.
  unfold v_remove. intros HV Hn E. rewrite Hn in E. simpl in E. injection E as <-.
  split; [by rewrite lookup_insert_eq|]. split.
  - intros A y B ->. pose proof (coherent_notin _ _ _ HV Hn) as Hnx.
    rewrite lookup_insert_ne by set_solver.
    rewrite lookup_fmap, (coherent_split _ _ _ _ _ HV Hn). simpl.
    rewrite drop_node_split by set_solver. done.
  - intros y Hy. rewrite lookup_insert_ne by set_solver. rewrite lookup_fmap.
    destruct (V !! y) as [ys|] eqn:Ey; [|done]. simpl. f_equal.
    apply drop_node_notin. intros Hin.
    pose proof (coherent_sym _ _ _ _ _ HV Ey Hn Hin). set_solver.
Qed.

(** *** Coherence is preserved *)
(** The nodes outside the touched ring keep their rings. *)
Lemma coherent_touch V V' l xs (extra : list N) (cs : list (list N)) :
  coherent V -> V !! l = Some xs ->
  (forall y ys, y ∈ extra -> V !! y = Some ys -> ys = []) ->
  (forall x, x ∈ extra ++ l :: xs -> exists c, c ∈ cs /\ x ∈ c) ->
  (forall y, y ∉ extra ++ l :: xs -> V' !! y = V !! y) ->
  Forall (ring V') cs ->
  coherent V'.
Proof.
  intros HV Hl Hex Hin Hfr Hcs. apply (coherent_update V V' cs); [done..|].
  intros x. destruct (decide (x ∈ extra ++ l :: xs)) as [Hx|Hx]; [left; auto|right].
  split; [by apply Hfr|]. intros ys Hxs y Hy. apply Hfr. intros Hy'.
  apply elem_of_app in Hy' as [Hy'|[->|Hy']%elem_of_cons].
  - destruct (coherent_mem _ _ _ _ HV Hxs Hy) as [zs Hz].
    pose proof (coherent_sym _ _ _ _ _ HV Hxs Hz Hy) as Hs.
    rewrite (Hex _ _ Hy' Hz) in Hs. set_solver.
  - pose proof (coherent_sym _ _ _ _ _ HV Hxs Hl Hy). set_solver.
  - destruct (coherent_mem _ _ _ _ HV Hl Hy') as [zs Hz].
    pose proof (coherent_sym _ _ _ _ _ HV Hxs Hz Hy) as Hs.
    pose proof (coherent_same _ _ _ _ _ HV Hl Hz Hy' x). set_solver.
Qed.

Lemma loose_view V n ys : v_loose V n = true -> V !! n = Some ys -> ys = [].
Proof. unfold v_loose. intros Hl E. rewrite E in Hl. by destruct ys. Qed.

Lemma v_insert_before_coherent l n V V' :
  coherent V -> v_insert_before l n V = Some V' -> coherent V'.
Proof.
  intros HV E. destruct (V !! l) as [xs|] eqn:Hl;
    [|unfold v_insert_before in E; by rewrite Hl in E].
  assert (v_loose V n = true) as Hn.
  { unfold v_insert_before in E. rewrite Hl in E. simpl in E.
    by destruct (v_loose V n). }
  destruct (v_insert_before_lookup _ _ _ _ _ HV Hl E) as (Hnl & Hnx & H1 & H2 & H3 & H4).
  apply (coherent_touch V V' l xs [n] [l :: xs ++ [n]]); [done..| | |done|].
  - intros y ys ->%list_elem_of_singleton. by apply loose_view.
  - intros x Hx. exists (l :: xs ++ [n]). set_solver.
  - rewrite Forall_singleton. split.
    + pose proof (HV _ _ Hl) as [Hnd _]. change (l :: xs ++ [n]) with ((l :: xs) ++ [n]).
      apply NoDup_app. split; [done|]. split; [set_solver|apply NoDup_singleton].
    + intros [|a A] x B Ex; simpl in Ex; injection Ex as <- Ex.
      { subst B. by rewrite app_nil_r. }
      symmetry in Ex. apply app_eq_inv in Ex as [(k & -> & Ek)|(k & -> & Ek)].
      * destruct k as [|k0 k]; simpl in Ek.
        -- injection Ek as <- <-. rewrite app_nil_r. done.
        -- destruct k; discriminate Ek.
      * destruct k as [|k0 k]; simpl in Ek; injection Ek as -> Ek.
        -- rewrite app_nil_r in H1. by subst B.
        -- subst B. rewrite (H3 A k0 k) by done. by rewrite <-app_assoc.
Qed.

Lemma v_insert_after_coherent l n V V' :
  coherent V -> v_insert_after l n V = Some V' -> coherent V'.
Proof.
  intros HV E. destruct (V !! l) as [xs|] eqn:Hl;
    [|unfold v_insert_after in E; by rewrite Hl in E].
  assert (v_loose V n = true) as Hn.
  { unfold v_insert_after in E. rewrite Hl in E. simpl in E.
    by destruct (v_loose V n). }
  destruct (v_insert_after_lookup _ _ _ _ _ HV Hl E) as (Hnl & Hnx & H1 & H2 & H3 & H4).
  apply (coherent_touch V V' l xs [n] [l :: n :: xs]); [done..| | |done|].
  - intros y ys ->%list_elem_of_singleton. by apply loose_view.
  - intros x Hx. exists (l :: n :: xs). set_solver.
  - rewrite Forall_singleton. split.
    + pose proof (HV _ _ Hl) as [[Hlx Hnd]%NoDup_cons _].
      rewrite !NoDup_cons. set_solver.
    + intros [|a A] x B Ex; simpl in Ex; injection Ex as <- Ex.
      { subst B. by rewrite app_nil_r. }
      destruct A as [|a A]; simpl in Ex; injection Ex as <- Ex.
      { by subst B. }
      subst xs. by rewrite (H3 A x B).
Qed.

Lemma v_remove_coherent n V V' :
  coherent V -> v_remove n V = Some V' -> coherent V'.
Proof.
  intros HV E. destruct (V !! n) as [xs|] eqn:Hn;
    [|unfold v_remove in E; by rewrite Hn in E].
  destruct (v_remove_lookup _ _ _ _ HV Hn E) as (H1 & H2 & H3).
  apply (coherent_touch V V' n xs [] [[n]; xs]); [done|done|set_solver| |done|].
  - intros x Hx. apply elem_of_cons in Hx as [->|Hx]; [exists [n]|exists xs]; set_solver.
  - rewrite !Forall_cons. split; [|split; [|apply Forall_nil_2]].
    + split; [apply NoDup_singleton|]. intros [|a A] x B Ex; simpl in Ex.
      * injection Ex as <- <-. done.
      * injection Ex as <- Ex. destruct A; discriminate Ex.
    + split; [by apply (coherent_nodup V n)|]. done.
Qed.

Lemma v_init_coherent l V V' : coherent V -> v_init l V = Some V' -> coherent V'.
Proof.
  unfold v_init. intros HV E. destruct (v_loose V l) eqn:Hl; [|done]. injection E as <-.
  apply (coherent_update V _ [[l]]); [done| |].
  - rewrite Forall_singleton. split; [apply NoDup_singleton|].
    intros [|a A] x B Ex; simpl in Ex.
    + injection Ex as <- <-. by rewrite lookup_insert_eq.
    + injection Ex as <- Ex. destruct A; discriminate Ex.
  - intros x. destruct (decide (x = l)) as [->|Hx]; [left; exists [l]; set_solver|right].
    split; [by rewrite lookup_insert_ne|]. intros xs Hxs y Hy.
    pose proof (loose_spec _ _ HV Hl _ _ Hxs). rewrite lookup_insert_ne; set_solver.
Qed.

(** *** The pointer code implements the contract *)
Definition cell l xs : rt_list_node := Node (default l (head xs)) (default l (last xs)).

Lemma represents_cell h V l xs : represents h V -> V !! l = Some xs -> h !! l = Some (cell l xs).
Proof. intros [_ Hr] Hl. by rewrite Hr, Hl. Qed.

Lemma represents_next h V l : represents h V -> p_next h l = v_next V l.
Proof. intros [_ Hr]. unfold p_next, v_next. rewrite Hr. by destruct (V !! l). Qed.

Lemma represents_prev h V l : represents h V -> p_prev h l = v_prev V l.
Proof. intros [_ Hr]. unfold p_prev, v_prev. rewrite Hr. by destruct (V !! l). Qed.

Lemma represents_size h V : represents h V -> size h = size V.
Proof.
  intros [_ Hr]. rewrite <-!size_dom. f_equal. apply set_eq. intros l.
  rewrite !elem_of_dom, Hr. by rewrite fmap_is_Some.
Qed.

Lemma lookup_write_next l v (h : heap) m :
  write_next l v h !! m =
  if decide (l = m) then Some (Node v (default l (p_prev h l))) else h !! m.
Proof. apply lookup_insert. Qed.

Lemma lookup_write_prev l v (h : heap) m :
  write_prev l v h !! m =
  if decide (l = m) then Some (Node (default l (p_next h l)) v) else h !! m.
Proof. apply lookup_insert. Qed.

Lemma p_prev_write_next a v (h : heap) l : is_Some (h !! l) ->
  p_prev (write_next a v h) l = p_prev h l.
Proof.
  intros [c Hc]. unfold p_prev at 1. rewrite lookup_write_next.
  case_decide; simplify_eq; unfold p_prev; by rewrite Hc.
Qed.

Lemma p_next_write_prev a v (h : heap) l : is_Some (h !! l) ->
  p_next (write_prev a v h) l = p_next h l.
Proof.
  intros [c Hc]. unfold p_next at 1. rewrite lookup_write_prev.
  case_decide; simplify_eq; unfold p_next; by rewrite Hc.
Qed.

(** Evaluate chains of pointer writes at a node. *)
Ltac eval_writes :=
  repeat (progress (unfold p_next, p_prev;
    rewrite ?lookup_write_next, ?lookup_write_prev;
    repeat case_decide; simplify_eq/=)).

Lemma last_cons_default d l xs : default d (last (l :: xs)) = default l (last xs).
Proof.
  revert d l. induction xs as [|x xs IH]; intros d l; [done|].
  by rewrite last_cons_cons, !IH.
Qed.

Lemma last_default_elem l xs : default l (last xs) = l \/ default l (last xs) ∈ xs.
Proof. destruct (last xs) eqn:E; simpl; [right; by apply last_Some_elem_of|by left]. Qed.

Lemma last_app_ne ys (zs : list N) : zs <> [] -> last (ys ++ zs) = last zs.
Proof. intros Hz. rewrite last_app. destruct (last zs) eqn:E; [done|]. by apply last_None in E. Qed.

Lemma last_cons_app b B z (zs : list N) : last (b :: B ++ z :: zs) = last (z :: zs).
Proof. apply (last_app_ne (b :: B)). done. Qed.

Lemma represents_insert_before l n h V V' :
  represents h V -> v_insert_before l n V = Some V' ->
  exists h', rt_list_insert_before l n h = Some h' /\ represents h' V'.
Proof.
  intros HR E. pose proof (proj1 HR) as HV.
  destruct (V !! l) as [xs|] eqn:Hl;
    [|unfold v_insert_before in E; by rewrite Hl in E].
  destruct (v_insert_before_lookup _ _ _ _ _ HV Hl E) as (Hnl & Hnx & H1 & H2 & H3 & H4).
  pose proof (represents_cell _ _ _ _ HR Hl) as Cl.
  set (p := default l (last xs)).
  exists (write_next n l (write_prev l n (write_prev n p (write_next p n h)))).
  assert (n <> p) as Hnp.
  { pose proof (last_default_elem l xs) as Hp. fold p in Hp.
    intros <-. naive_solver. }
  split.
  { assert (p_prev h l = Some p) as Ep by (unfold p_prev; by rewrite Cl).
    unfold rt_list_insert_before. rewrite Ep. simpl.
    rewrite p_prev_write_next by eauto. by rewrite Ep. }
  split; [by eapply v_insert_before_coherent|]. intros m.
  destruct (decide (m = n)) as [->|Hmn].
  { rewrite H1. eval_writes. by rewrite last_cons_default. }
  destruct (decide (m = l)) as [->|Hml].
  { rewrite H2. simpl. rewrite last_snoc. destruct xs as [|x xs].
    - eval_writes. done.
    - assert (p <> l) as Hpl.
      { pose proof (coherent_notin _ _ _ HV Hl). unfold p.
        rewrite last_cons_default. pose proof (last_default_elem x xs). set_solver. }
      eval_writes. by rewrite Cl. }
  destruct (decide (m ∈ xs)) as [(A & B & Ex)%list_elem_of_split|Hmx].
  - rewrite (H3 _ _ _ Ex). subst xs. simpl.
    pose proof (represents_cell _ _ _ _ HR (coherent_split _ _ _ _ _ HV Hl)) as Cm.
    assert (p = default m (last B)) as Ep
      by (unfold p; rewrite last_app_ne by done; apply last_cons_default).
    rewrite last_app_ne by done. change (n :: l :: A) with ([n] ++ l :: A).
    rewrite last_app_ne by done. destruct B as [|b B].
    + simpl in Ep. clearbody p. subst p. eval_writes. by rewrite Cm.
    + assert (p <> m) as Hpm.
      { pose proof (coherent_nodup _ _ _ HV Hl) as Hnd. rewrite Ep, last_cons_default.
        apply NoDup_app in Hnd as (_ & _ & [? _]%NoDup_cons).
        pose proof (last_default_elem b B). set_solver. }
      eval_writes. rewrite Cm. unfold cell. by rewrite last_cons_app.
  - rewrite H4 by set_solver. pose proof (last_default_elem l xs) as Hp. fold p in Hp.
    assert (p <> m) by naive_solver. eval_writes. apply (proj2 HR).
Qed.

Lemma head_default_elem l xs : default l (head xs) = l \/ default l (head xs) ∈ xs.
Proof. destruct xs; simpl; [by left|right; set_solver]. Qed.

Lemma represents_insert_after l n h V V' :
  represents h V -> v_insert_after l n V = Some V' ->
  exists h', rt_list_insert_after l n h = Some h' /\ represents h' V'.
Proof.
  intros HR E. pose proof (proj1 HR) as HV.
  destruct (V !! l) as [xs|] eqn:Hl;
    [|unfold v_insert_after in E; by rewrite Hl in E].
  destruct (v_insert_after_lookup _ _ _ _ _ HV Hl E) as (Hnl & Hnx & H1 & H2 & H3 & H4).
  pose proof (represents_cell _ _ _ _ HR Hl) as Cl.
  set (p := default l (head xs)).
  exists (write_prev n l (write_next l n (write_next n p (write_prev p n h)))).
  pose proof (head_default_elem l xs) as Hp. fold p in Hp.
  assert (n <> p) as Hnp by (intros <-; naive_solver).
  split.
  { assert (p_next h l = Some p) as Ep by (unfold p_next; by rewrite Cl).
    unfold rt_list_insert_after. rewrite Ep. simpl.
    rewrite p_next_write_prev by eauto. by rewrite Ep. }
  split; [by eapply v_insert_after_coherent|]. intros m.
  destruct (decide (m = n)) as [->|Hmn].
  { rewrite H1. simpl. rewrite last_snoc. eval_writes. by destruct xs. }
  destruct (decide (m = l)) as [->|Hml].
  { rewrite H2. simpl. rewrite last_cons_default. destruct xs as [|x xs].
    - eval_writes. done.
    - pose proof (coherent_notin _ _ _ HV Hl).
      assert (p <> l) as Hpl by (unfold p; simpl; set_solver).
      eval_writes. rewrite Cl. simpl. by rewrite !last_cons_default. }
  destruct (decide (m ∈ xs)) as [(A & B & Ex)%list_elem_of_split|Hmx].
  - rewrite (H3 _ _ _ Ex). subst xs. simpl.
    pose proof (represents_cell _ _ _ _ HR (coherent_split _ _ _ _ _ HV Hl)) as Cm.
    rewrite last_app_ne, last_cons_cons by done. destruct A as [|a A].
    + assert (p = m) as Epm by done. clearbody p. subst p.
      eval_writes. rewrite Cm. by destruct B.
    + assert (p <> m) as Hpm.
      { pose proof (coherent_nodup _ _ _ HV Hl) as Hnd. unfold p. simpl in *.
        apply NoDup_cons in Hnd as [? _]. set_solver. }
      eval_writes. rewrite Cm. unfold cell. rewrite last_app_ne, last_cons_cons by done.
      rewrite last_cons_default. by destruct B.
  - rewrite H4 by set_solver. assert (p <> m) by naive_solver.
    eval_writes. apply (proj2 HR).
Qed.

Lemma represents_remove n h V V' :
  represents h V -> v_remove n V = Some V' ->
  exists h', rt_list_remove n h = Some h' /\ represents h' V'.
Proof.
  intros HR E. pose proof (proj1 HR) as HV.
  destruct (V !! n) as [xs|] eqn:Hn; [|unfold v_remove in E; by rewrite Hn in E].
  destruct (v_remove_lookup _ _ _ _ HV Hn E) as (H1 & H2 & H3).
  pose proof (represents_cell _ _ _ _ HR Hn) as Cn.
  pose proof (coherent_notin _ _ _ HV Hn) as Hnx.
  pose proof (coherent_nodup _ _ _ HV Hn) as Hnd.
  set (p := default n (last xs)). set (q := default n (head xs)).
  exists (write_next n n (write_prev n n (write_next p q (write_prev q p h)))).
  pose proof (last_default_elem n xs) as Hp. fold p in Hp.
  pose proof (head_default_elem n xs) as Hq. fold q in Hq.
  split.
  { assert (p_next h n = Some q /\ p_prev h n = Some p) as [Eq Ep]
      by (unfold p_next, p_prev; by rewrite Cn).
    unfold rt_list_remove. rewrite Eq, Ep. simpl.
    rewrite p_next_write_prev by eauto. rewrite Eq. simpl.
    unfold p_prev at 1. rewrite lookup_write_prev. case_decide as Hqn; simpl; [done|].
    by rewrite Cn. }
  split; [by eapply v_remove_coherent|]. intros m.
  destruct (decide (m = n)) as [->|Hmn]; [by rewrite H1; eval_writes|].
  destruct (decide (m ∈ xs)) as [(A & B & Ex)%list_elem_of_split|Hmx].
  2:{ rewrite H3 by set_solver. assert (p <> m /\ q <> m) as [] by naive_solver.
      eval_writes. apply (proj2 HR). }
  rewrite (H2 _ _ _ Ex). subst xs. simpl.
  pose proof (represents_cell _ _ _ _ HR (coherent_split _ _ _ _ _ HV Hn)) as Cm.
  assert (p = default m (last B)) as Ep
    by (unfold p; rewrite last_app_ne by done; apply last_cons_default).
  assert (q = default m (head A)) as Eq by (unfold q; by destruct A).
  clearbody p q. apply NoDup_app in Hnd as (_ & HAB & [HmB HndB]%NoDup_cons).
  assert (m ∉ A) as HmA by set_solver.
  pose proof (last_default_elem m B) as Hp'. rewrite <-Ep in Hp'.
  pose proof (head_default_elem m A) as Hq'. rewrite <-Eq in Hq'.
  destruct A as [|a A], B as [|b B]; simpl in Ep, Eq.
  - subst p q. eval_writes. done.
  - assert (p <> m) by (rewrite Ep, last_cons_default; pose proof (last_default_elem b B); set_solver).
    subst q. eval_writes. rewrite Cm. simpl. by rewrite app_nil_r.
  - assert (q <> m) by (subst q; set_solver). subst p.
    eval_writes. rewrite Cm. simpl. by rewrite !last_cons_default.
  - assert (p <> m) by (rewrite Ep, last_cons_default; pose proof (last_default_elem b B); set_solver).
    assert (q <> m) by (subst q; set_solver).
    eval_writes. rewrite Cm. unfold cell. simpl. f_equal. f_equal.
    by rewrite !last_cons_app, last_cons_cons.
Qed.

Lemma represents_init l h V V' :
  represents h V -> v_init l V = Some V' ->
  exists h', rt_list_init l h = Some h' /\ represents h' V'.
Proof.
  intros HR E. eexists. split; [reflexivity|].
  split; [eapply v_init_coherent; [apply HR|done]|].
  unfold v_init in E. destruct (v_loose V l); [|done]. injection E as <-.
  intros m. rewrite lookup_insert. eval_writes; [done|]. apply (proj2 HR).
Qed.

#[export] Instance store_refines : StoreRefines ptr_store view_store represents.
Proof.
  split; simpl.
  - intros. by apply represents_next.
  - intros. by apply represents_prev.
  - intros. by apply represents_size.
  - intros a b l b'. apply represents_init.
  - intros a b l n b'. apply represents_insert_after.
  - intros a b l n b'. apply represents_insert_before.
  - intros a b n b'. apply represents_remove.
Qed.

Lemma represents_empty : represents ∅ ∅.
Proof. split; [by intros x xs; rewrite lookup_empty|]. intros l. by rewrite !lookup_empty. Qed.

(** ** Sequences of list operations *)
Inductive list_op :=
  | OpInit (l : N)
  | OpAfter (l n : N)
  | OpBefore (l n : N)
  | OpRemove (n : N).

Definition run_op {L} `{ListStore N L} (o : list_op) (h : L) : option L :=
  match o with
  | OpInit l => ls_init l h
  | OpAfter l n => ls_insert_after l n h
  | OpBefore l n => ls_insert_before l n h
  | OpRemove n => ls_remove n h
  end.

Fixpoint run_ops {L} `{ListStore N L} (os : list list_op) (h : L) : option L :=
  match os with
  | [] => Some h
  | o :: os => h ← run_op o h; run_ops os h
  end.

Lemma run_ops_simulates os h (V V' : views) :
  represents h V -> run_ops os V = Some V' ->
  exists h', run_ops os h = Some h' /\ represents h' V'.
Proof.
  revert h V. induction os as [|o os IH]; intros h V HR; simpl.
  { intros [= <-]. eauto. }
  destruct (run_op o V) as [V1|] eqn:E; simpl; [|done]. intros E'.
  assert (exists h1, run_op o h = Some h1 /\ represents h1 V1) as (h1 & -> & HR1).
  { destruct o; simpl in *;
      [eapply represents_init|eapply represents_insert_after
      |eapply represents_insert_before|eapply represents_remove]; eauto. }
  simpl. eauto.
Qed.

(** The length loop on a coherent store. *)
Lemma list_len_loop_view (V : views) l A B fuel len :
  coherent V -> V !! l = Some (A ++ B) -> (length B < fuel)%nat ->
  (0 <= len)%Z -> (len + Z.of_nat (length B) < 2 ^ 32)%Z ->
  list_len_loop fuel V l (default l (last A)) len = Some (len + Z.of_nat (length B))%Z.
Proof.
  intros HV. revert A fuel len.
  induction B as [|b B IH]; intros A fuel len Hl Hf Hlen Hw.
  - destruct fuel as [|fuel]; [lia|]. rewrite app_nil_r in Hl. simpl.
    assert (v_next V (default l (last A)) = Some l) as ->.
    { destruct A as [|a A' _] using rev_ind; simpl.
      - unfold v_next. by rewrite Hl.
      - rewrite last_snoc. simpl. unfold v_next.
        rewrite (coherent_split _ _ _ _ _ HV Hl). done. }
    simpl. rewrite bool_decide_true by done. f_equal. lia.
  - destruct fuel as [|fuel]; simpl in *; [lia|].
    assert (v_next V (default l (last A)) = Some b) as ->.
    { destruct A as [|a A' _] using rev_ind; simpl.
      - unfold v_next. by rewrite Hl.
      - rewrite last_snoc. simpl. unfold v_next. rewrite <-app_assoc in Hl. simpl in Hl.
        rewrite (coherent_split _ _ _ _ _ HV Hl). done. }
    simpl. pose proof (coherent_notin _ _ _ HV Hl).
    rewrite bool_decide_false by set_solver.
    rewrite u32_small by lia. specialize (IH (A ++ [b]) fuel (len + 1)%Z).
    rewrite last_snoc in IH. simpl in IH. rewrite IH; [f_equal; lia| |lia..].
    by rewrite <-app_assoc.
Qed.

Lemma coherent_size (V : views) l xs : coherent V -> V !! l = Some xs -> (length xs < size V)%nat.
Proof.
  intros HV Hl. destruct (HV _ _ Hl) as [Hnd _].
  assert (list_to_set (l :: xs) ⊆ dom V) as Hsub.
  { intros x. rewrite elem_of_list_to_set, elem_of_cons, elem_of_dom.
    intros [->|Hx]; [eauto|]. by eapply coherent_mem. }
  apply subseteq_size in Hsub. rewrite size_list_to_set, size_dom in Hsub by done. simpl in Hsub. lia.
Qed.

Lemma rt_list_len_view (V : views) l xs :
  coherent V -> V !! l = Some xs -> (Z.of_nat (length xs) < 2 ^ 32)%Z ->
  rt_list_len V l = Some (Z.of_nat (length xs)).
Proof.
  intros HV Hl Hw. unfold rt_list_len. simpl ls_size.
  apply (list_len_loop_view V l [] xs); [done..| |lia|lia].
  pose proof (coherent_size _ _ _ HV Hl). lia.
Qed.

End store.

(** Removing a node that is in no list changes nothing. *)
Lemma remove_alone {N} {ED : EqDecision N} {CN : Countable N} (V : gmap N (list N)) n :
  coherent V -> V !! n = Some [] -> v_remove n V = Some V.
Proof.
  intros HV Hn. unfold v_remove. rewrite Hn. simpl. f_equal. apply map_eq. intros x.
  destruct (decide (x = n)) as [->|Hne]; [by rewrite lookup_insert_eq, Hn|].
  rewrite lookup_insert_ne, lookup_fmap by done. destruct (V !! x) as [xs|] eqn:Ex; [|done].
  simpl. f_equal. apply drop_node_notin. intros (A & B & ->)%list_elem_of_split.
  rewrite (coherent_split _ _ _ _ _ HV Ex) in Hn. by destruct B.
Qed.

(** C2: the pointer code of [rtservice.h] implements the list contract.  Every
    sequence of list operations (initialise, insert after, insert before,
    remove) whose preconditions hold runs on the pointer heap without a bad
    access; in the heap it produces every node's [next] and [prev] are the
    neighbours the contract gives, [rt_list_isempty] tells whether the node is
    alone, and [rt_list_len] returns the number of the other nodes of the ring. *)
Theorem pointer_lists_implement_contract {N} {ED : EqDecision N} {CN : Countable N}
    (os : list (list_op (N:=N))) (V : gmap N (list N)) :
  run_ops os (∅ : gmap N (list N)) = Some V ->
  exists h : gmap N rt_list_node, run_ops os (∅ : gmap N rt_list_node) = Some h /\
    represents h V /\
    forall l xs, V !! l = Some xs ->
      p_next h l = Some (default l (head xs)) /\
      p_prev h l = Some (default l (last xs)) /\
      rt_list_isempty h l = Some (bool_decide (xs = [])) /\
      (Z.of_nat (length xs) < 2 ^ 32 -> rt_list_len h l = Some (Z.of_nat (length xs)))%Z.
Proof.
  intros E. destruct (run_ops_simulates os ∅ ∅ V represents_empty E) as (h & Eh & HR).
  exists h. split; [done|]. split; [done|]. intros l xs Hl.
  assert (forall m, p_next h m = v_next V m) as Hnext by (intros m; by apply represents_next).
  split; [rewrite Hnext; unfold v_next; by rewrite Hl|].
  split; [rewrite (represents_prev _ _ _ HR); unfold v_prev; by rewrite Hl|]. split.
  - unfold rt_list_isempty. simpl. rewrite Hnext. unfold v_next. rewrite Hl. simpl. f_equal.
    pose proof (coherent_notin _ _ _ (proj1 HR) Hl) as Hn. destruct xs as [|x xs]; simpl.
    + by rewrite !bool_decide_true.
    + rewrite bool_decide_false; [done|]. intros ->. set_solver.
  - intros Hw. rewrite <-(rt_list_len_view V l xs (proj1 HR) Hl Hw). unfold rt_list_len. simpl.
    rewrite (represents_size _ _ HR).
    assert (forall fuel p len, list_len_loop fuel h l p len = list_len_loop fuel V l p len) as Hloop; [|exact (Hloop (S (size V)) l 0%Z)].
    induction fuel as [|fuel IH]; intros p len; [done|]. simpl. rewrite Hnext.
    destruct (v_next V p); simpl; [|done]. case_bool_decide; [done|]. apply IH.
Qed.

(** The list of the header of [rtservice.h] with three nodes, one removed again. *)
Example pointer_lists_implement_contract_witness :
  let os := [OpInit 0%nat; OpInit 1%nat; OpInit 2%nat; OpBefore 0%nat 1%nat;
             OpAfter 0%nat 2%nat; OpRemove 1%nat] in
  exists V : gmap nat (list nat), run_ops os (∅ : gmap nat (list nat)) = Some V /\
  exists h : gmap nat rt_list_node, run_ops os (∅ : gmap nat rt_list_node) = Some h /\
    represents h V.
Proof.
  eexists. split; [vm_compute; reflexivity|].
  match goal with |- context [represents _ ?V] =>
    destruct (pointer_lists_implement_contract
      [OpInit 0%nat; OpInit 1%nat; OpInit 2%nat; OpBefore 0%nat 1%nat;
       OpAfter 0%nat 2%nat; OpRemove 1%nat] V) as (h & Eh & HR & _); [vm_compute; reflexivity|] end.
  exists h. split; [exact Eh|exact HR].
Defined.

#[global] Arguments list_op : clear implicits.
#[global] Arguments rt_list_node : clear implicits.
End RtList.
