(* ===== verification/Rings.v ===== *)
(** * Rings of records

    A ring is a cycle of records in a store, through a field [f] that points to
    the next record and a field [g] that points back.  A record may be in several
    rings, through different fields.  The lemmas say what assignments do to a
    ring: they speak of the values of [f] and [g] only. *)
From S2P Require Import Prelude.
Local Open Scope Z_scope.

Module Rings.

Section rings.
Context {A : Type} (f g : A -> Z).
Implicit Types (I : gmap Z A) (l c : list Z).

Definition link I (x y : Z) : Prop := f <$> I !! x = Some y /\ g <$> I !! y = Some x.

(** The path from [x] through [l] to [y]. *)
Fixpoint seg I (x : Z) l (y : Z) : Prop :=
  match l with [] => link I x y | z :: l => link I x z /\ seg I z l y end.

Definition ring I c : Prop := match c with [] => False | x :: l => seg I x l x end.

Lemma seg_app I x l1 z l2 y : seg I x (l1 ++ z :: l2) y <-> seg I x l1 z /\ seg I z l2 y.
Proof. revert x. induction l1 as [|w l1 IH]; intros x; simpl; [done|]. rewrite IH. naive_solver. Qed.

Lemma rotate_ring I c1 c2 : ring I (c1 ++ c2) -> ring I (c2 ++ c1).
Proof.
  destruct c1 as [|x l1], c2 as [|y l2]; rewrite ?app_nil_r; try done. simpl. rewrite !seg_app. naive_solver.
Qed.

(** Only [f] of the nodes but the last and [g] of the nodes but the first matter. *)
Lemma seg_ext I I' x l y :
  (forall a, a ∈ x :: l -> f <$> I' !! a = f <$> I !! a) -> (forall a, a ∈ l ++ [y] -> g <$> I' !! a = g <$> I !! a) ->
  seg I x l y -> seg I' x l y.
Proof.
  revert x. induction l as [|z l IH]; intros x Hf Hg; simpl.
  - intros [H1 H2]. split; [rewrite Hf; [done|set_solver]|rewrite Hg; [done|set_solver]].
  - intros [[H1 H2] H]. split; [split; [rewrite Hf; [done|set_solver]|rewrite Hg; [done|set_solver]]|].
    apply IH; [set_solver|set_solver|done].
Qed.

Lemma ring_ext I I' c :
  (forall a, a ∈ c -> f <$> I' !! a = f <$> I !! a) -> (forall a, a ∈ c -> g <$> I' !! a = g <$> I !! a) ->
  ring I c -> ring I' c.
Proof. destruct c as [|x l]; [done|]. intros Hf Hg. apply seg_ext; [done|]. intros a Ha. apply Hg. set_solver. Qed.

Definition succ_of (x : Z) l : Z := default x (head l).

Lemma seg_head I x l y : seg I x l y -> link I x (default y (head l)).
Proof. destruct l; [done|]. by intros [? _]. Qed.

Lemma ring_link I x l : ring I (x :: l) -> link I x (succ_of x l).
Proof. apply seg_head. Qed.

(** ... so the record of every node is there. *)
Lemma seg_dom I x l y a : seg I x l y -> a ∈ x :: l ++ [y] -> is_Some (I !! a).
Proof.
  assert (forall a b, f <$> I !! a = Some b -> is_Some (I !! a)) as Hf by (intros ? ? ?%fmap_Some; naive_solver).
  assert (forall a b, g <$> I !! a = Some b -> is_Some (I !! a)) as Hg by (intros ? ? ?%fmap_Some; naive_solver).
  revert x. induction l as [|z l IH]; intros x; simpl.
  - intros [H1 H2] [->|[->|[]%not_elem_of_nil]%elem_of_cons]%elem_of_cons; eauto.
  - intros [[H1 H2] H] [->|Ha]%elem_of_cons; [eauto|]. by apply (IH z).
Qed.

Lemma ring_dom I c a : ring I c -> a ∈ c -> is_Some (I !! a).
Proof.
  destruct c as [|x l]; [done|]. intros H Ha. eapply seg_dom; [exact H|]. set_solver.
Qed.

(** A node is inserted behind the first one. *)
Record inserted I I' (x n y : Z) : Prop := {
  in_next : f <$> I' !! x = Some n;
  in_new_next : f <$> I' !! n = Some y;
  in_new_prev : g <$> I' !! n = Some x;
  in_prev : g <$> I' !! y = Some n;
  in_other_next a : a <> x -> a <> n -> f <$> I' !! a = f <$> I !! a;
  in_other_prev a : a <> n -> a <> y -> g <$> I' !! a = g <$> I !! a;
}.

Lemma ring_insert I I' x n l :
  ring I (x :: l) -> NoDup (x :: l) -> n ∉ x :: l -> inserted I I' x n (succ_of x l) -> ring I' (x :: n :: l).
Proof.
  intros Hr Hnd Hn [H1 H2 H3 H4 H5 H6]. apply not_elem_of_cons in Hn as [Hnx Hnl]. simpl in *.
  apply NoDup_cons in Hnd as [Hx Hnd]. split; [done|]. destruct l as [|y l]; simpl in *; [done|].
  destruct Hr as [_ Hr]. apply NoDup_cons in Hnd as [Hy Hnd]. split; [done|].
  eapply seg_ext; [..|exact Hr].
  - intros a Ha. apply H5; intros ->; [done|]. set_solver.
  - intros a Ha. apply H6; intros ->; set_solver.
Qed.

(** The node behind the first one is removed. *)
Record removed I I' (x y : Z) : Prop := {
  re_next : f <$> I' !! x = Some y;
  re_prev : g <$> I' !! y = Some x;
  re_other_next a : a <> x -> f <$> I' !! a = f <$> I !! a;
  re_other_prev a : a <> y -> g <$> I' !! a = g <$> I !! a;
}.

Lemma ring_remove I I' x n l :
  ring I (x :: n :: l) -> NoDup (x :: n :: l) -> removed I I' x (succ_of x l) -> ring I' (x :: l).
Proof.
  intros [_ Hr] Hnd [H1 H2 H3 H4]. simpl in *.
  apply NoDup_cons in Hnd as [Hx Hnd]. apply NoDup_cons in Hnd as [Hn Hnd].
  destruct l as [|y l]; simpl in *; [done|]. apply NoDup_cons in Hnd as [Hy Hnd].
  split; [done|]. destruct Hr as [_ Hr]. eapply seg_ext; [..|exact Hr].
  - intros a Ha. apply H3. intros ->. set_solver.
  - intros a Ha. apply H4. intros ->. set_solver.
Qed.

(** The neighbours of a node of a ring. *)
Lemma ring_neighbours I x n l :
  ring I (x :: n :: l) -> g <$> I !! n = Some x /\ f <$> I !! n = Some (succ_of x l).
Proof. intros [[_ H] Hr]. split; [done|]. apply seg_head in Hr as [Hr _]. done. Qed.

(** The general positions: behind any node, and any node but the first. *)
Lemma ring_insert_at I I' c1 x n c2 :
  ring I (c1 ++ x :: c2) -> NoDup (c1 ++ x :: c2) -> n ∉ c1 ++ x :: c2 ->
  inserted I I' x n (succ_of x (c2 ++ c1)) -> ring I' (c1 ++ x :: n :: c2).
Proof.
  intros Hr Hnd Hn Hi. apply (rotate_ring _ (x :: n :: c2) c1). apply (rotate_ring _ c1 (x :: c2)) in Hr.
  simpl in *. eapply ring_insert; [exact Hr| |set_solver|exact Hi].
  rewrite (Permutation_app_comm c1) in Hnd. exact Hnd.
Qed.

Lemma ring_remove_at I I' c1 x n c2 :
  ring I (c1 ++ x :: n :: c2) -> NoDup (c1 ++ x :: n :: c2) ->
  removed I I' x (succ_of x (c2 ++ c1)) -> ring I' (c1 ++ x :: c2).
Proof.
  intros Hr Hnd Hi. apply (rotate_ring _ (x :: c2) c1). apply (rotate_ring _ c1 (x :: n :: c2)) in Hr.
  simpl in *. eapply ring_remove; [exact Hr| |exact Hi].
  rewrite (Permutation_app_comm c1) in Hnd. exact Hnd.
Qed.

Lemma ring_link_at I c1 x c2 :
  ring I (c1 ++ x :: c2) -> link I x (succ_of x (c2 ++ c1)).
Proof. intros Hr. apply (rotate_ring _ c1 (x :: c2)) in Hr. by apply ring_link. Qed.

Lemma ring_neighbours_at I c1 x n c2 :
  ring I (c1 ++ x :: n :: c2) -> g <$> I !! n = Some x /\ f <$> I !! n = Some (succ_of x (c2 ++ c1)).
Proof. intros Hr. apply (rotate_ring _ c1 (x :: n :: c2)) in Hr. by eapply ring_neighbours. Qed.

(** A node behind the head is removed, wherever it is. *)
Lemma ring_mid I h P x Q :
  ring I (h :: P ++ x :: Q) -> NoDup (h :: P ++ x :: Q) ->
  exists p n, g <$> I !! x = Some p /\ f <$> I !! x = Some n /\ p ∈ h :: P ++ Q /\ n ∈ h :: P ++ Q /\
    forall I', removed I I' p n -> ring I' (h :: P ++ Q).
Proof.
  intros Hr Hnd. destruct (exists_last (l := h :: P)) as (c1 & p & E); [done|].
  assert (h :: P ++ x :: Q = c1 ++ p :: x :: Q) as E1 by (change (h :: P ++ x :: Q) with ((h :: P) ++ x :: Q); rewrite E; by rewrite <-app_assoc).
  assert (h :: P ++ Q = c1 ++ p :: Q) as E2 by (change (h :: P ++ Q) with ((h :: P) ++ Q); rewrite E; by rewrite <-app_assoc).
  rewrite E1 in Hr, Hnd. destruct (ring_neighbours_at _ _ _ _ _ Hr) as [H1 H2].
  exists p, (succ_of p (Q ++ c1)). rewrite E2. split; [done|]. split; [done|]. split; [set_solver|]. split.
  - unfold succ_of. destruct (Q ++ c1) as [|y l] eqn:El; simpl; [set_solver|].
    assert (y ∈ Q ++ c1) as Hy by (rewrite El; set_solver). set_solver.
  - intros I' Hre. by eapply ring_remove_at.
Qed.
End rings.
End Rings.
