(* ===== verification/KMonad.v ===== *)
(** * The effect of a kernel function: state, faults and context switches

    A kernel function is a function from states to results.  A result is
    - [Ok a s]: the function returned [a] in state [s];
    - [Switch from to s k]: the processor left thread [from] for thread [to] in
      state [s]; when [from] is scheduled again, in whatever state [s'] the
      other threads and interrupts left, the call continues as [k s'];
    - [Err f]: the function did not return: a failed [RT_ASSERT] (its handler
      loops forever), an access through a bad pointer, or an endless loop.
    Every result is a finite tree of switches. *)
From S2P Require Import Prelude.

Inductive fault :=
  | Assert_failed
  | Bad_pointer
  | Hang
  | Out_of_fuel.

#[export] Instance fault_eq_dec : EqDecision fault.
Proof. solve_decision. Defined.

Inductive res (S A : Type) : Type :=
  | Ok (a : A) (s : S)
  | Switch (from to : nat) (s : S) (k : S -> res S A)
  | Err (f : fault).
#[global] Arguments Ok {S A} _ _.
#[global] Arguments Switch {S A} _ _ _ _.
#[global] Arguments Err {S A} _.

Definition M (S A : Type) : Type := S -> res S A.

Fixpoint res_bind {S A B} (r : res S A) (f : A -> M S B) : res S B :=
  match r with
  | Ok a s => f a s
  | Switch from to s k => Switch from to s (fun s' => res_bind (k s') f)
  | Err e => Err e
  end.

Definition bind {S A B} (m : M S A) (f : A -> M S B) : M S B :=
  fun s => res_bind (m s) f.
Definition ret {S A} (a : A) : M S A := fun s => Ok a s.
Definition fail {S A} (e : fault) : M S A := fun _ => Err e.
Definition gets {S A} (f : S -> A) : M S A := fun s => Ok (f s) s.
Definition modify {S} (f : S -> S) : M S unit := fun s => Ok tt (f s).
Definition lift_opt {S A} (e : fault) (o : option A) : M S A :=
  match o with Some a => ret a | None => fail e end.

Declare Scope kmonad_scope.
Delimit Scope kmonad_scope with M.
Notation "'let!' x := m 'in' k" := (bind m (fun x => k))
  (at level 200, x name, m at level 100, k at level 200) : kmonad_scope.
Notation "m ;! k" := (bind m (fun _ => k))
  (at level 100, k at level 200, right associativity) : kmonad_scope.

(** [RT_ASSERT(EX)]. *)
Definition rt_assert {S} (b : bool) : M S unit :=
  if b then ret tt else fail Assert_failed.

(** ** Two parts of a state

    Run a function on its part of the state; a thread that is switched away
    from finds both parts as the others left them. *)
Fixpoint res_kernel {S X A} (x : X) (r : res S A) : res (S * X) A :=
  match r with
  | Ok a s => Ok a (s, x)
  | Switch from to s k => Switch from to (s, x) (fun s' => res_kernel s'.2 (k s'.1))
  | Err e => Err e
  end.
Fixpoint res_beside {S X A} (s0 : S) (r : res X A) : res (S * X) A :=
  match r with
  | Ok a x => Ok a (s0, x)
  | Switch from to x k => Switch from to (s0, x) (fun s' => res_beside s'.1 (k s'.2))
  | Err e => Err e
  end.
(** A kernel function beside another store, and a function of that store. *)
Definition kernel {S X A} (m : M S A) : M (S * X) A := fun s => res_kernel s.2 (m s.1).
Definition beside {S X A} (m : M X A) : M (S * X) A := fun s => res_beside s.1 (m s.2).

(** ** Execution lemmas: a call whose result is known is stepped over *)
Section exec.
Context {S A B C : Type}.
Implicit Types (s : S).

Lemma bind_ok (m : M S A) (f : A -> M S B) s a s' :
  m s = Ok a s' -> bind m f s = f a s'.
Proof. unfold bind. by intros ->. Qed.

Lemma bind_err (m : M S A) (f : A -> M S B) s e :
  m s = Err e -> bind m f s = Err e.
Proof. unfold bind. by intros ->. Qed.

Lemma bind_switch (m : M S A) (f : A -> M S B) s from to s' k :
  m s = Switch from to s' k ->
  bind m f s = Switch from to s' (fun s'' => res_bind (k s'') f).
Proof. unfold bind. by intros ->. Qed.

Lemma bind_ret (a : A) (f : A -> M S B) s : bind (ret a) f s = f a s.
Proof. done. Qed.

Lemma bind_gets (g : S -> A) (f : A -> M S B) s : bind (gets g) f s = f (g s) s.
Proof. done. Qed.

Lemma bind_modify (g : S -> S) (f : unit -> M S B) s : bind (modify g) f s = f tt (g s).
Proof. done. Qed.

Lemma bind_assert (b : bool) (f : unit -> M S B) s :
  b = true -> bind (rt_assert b) f s = f tt s.
Proof. by intros ->. Qed.

Lemma bind_assert_false (b : bool) (f : unit -> M S B) s :
  b = false -> bind (rt_assert b) f s = Err Assert_failed.
Proof. by intros ->. Qed.

Lemma bind_lift_opt e (o : option A) a (f : A -> M S B) s :
  o = Some a -> bind (lift_opt e o) f s = f a s.
Proof. by intros ->. Qed.

Lemma bind_assoc (m : M S A) (f : A -> M S B) (g : B -> M S C) s :
  bind (bind m f) g s = bind m (fun x => bind (f x) g) s
  \/ exists from to s' k, m s = Switch from to s' k.
Proof.
  unfold bind. destruct (m s) as [a s'|from to s' k|e]; simpl; [by left|right|by left]. eauto.
Qed.

Lemma kernel_ok {X} (m : M S A) s (x : X) a s' : m s = Ok a s' -> kernel m (s, x) = Ok a (s', x).
Proof. unfold kernel. simpl. by intros ->. Qed.

Lemma beside_ok {X} (m : M S A) (x : X) s a s' : m s = Ok a s' -> beside m (x, s) = Ok a (x, s').
Proof. unfold beside. simpl. by intros ->. Qed.

Lemma bind_bind_ok (m : M S A) (f : A -> M S B) (g : B -> M S C) s a s' :
  m s = Ok a s' -> bind (bind m f) g s = bind (f a) g s'.
Proof. unfold bind. by intros ->. Qed.
End exec.

(** ** Total correctness over resumptions

    [wp G R m Q s]: run from [s], the call [m] never faults; whenever it leaves
    the processor, the state satisfies the guarantee [G]; and if every state it
    is resumed in is one the rely [R] allows, it returns a result satisfying
    [Q].  [R from s s'] relates the state the thread left to the one it finds. *)
Fixpoint wp_res {S A} (G : nat -> nat -> S -> Prop) (R : nat -> S -> S -> Prop)
    (r : res S A) (Q : A -> S -> Prop) : Prop :=
  match r with
  | Ok a s => Q a s
  | Switch from to s k => G from to s /\ forall s', R from s s' -> wp_res G R (k s') Q
  | Err _ => False
  end.

Definition wp {S A} G R (m : M S A) (Q : A -> S -> Prop) (s : S) : Prop := wp_res G R (m s) Q.

Section wp_rules.
Context {S A B : Type} (G : nat -> nat -> S -> Prop) (R : nat -> S -> S -> Prop).

Lemma wp_res_mono (r : res S A) (P Q : A -> S -> Prop) :
  wp_res G R r P -> (forall a s, P a s -> Q a s) -> wp_res G R r Q.
Proof.
  induction r as [a s|from to s k IH|e]; simpl; intros Hr HPQ; [auto| |done].
  destruct Hr as [HG Hk]. split; [done|]. intros s' Hs'. apply IH; auto.
Qed.

Lemma wp_res_bind (r : res S A) (f : A -> M S B) Q :
  wp_res G R r (fun a s => wp G R (f a) Q s) -> wp_res G R (res_bind r f) Q.
Proof.
  induction r as [a s|from to s k IH|e]; simpl; [done| |done].
  intros [HG Hk]. split; [done|]. intros s' Hs'. apply IH; auto.
Qed.

Lemma wp_bind (m : M S A) (f : A -> M S B) Q s :
  wp G R m (fun a s' => wp G R (f a) Q s') s -> wp G R (bind m f) Q s.
Proof. apply wp_res_bind. Qed.

Lemma wp_mono (m : M S A) (P Q : A -> S -> Prop) s :
  wp G R m P s -> (forall a s', P a s' -> Q a s') -> wp G R m Q s.
Proof. apply wp_res_mono. Qed.

(** A call that returns without leaving the processor. *)
Lemma wp_ok (m : M S A) (Q : A -> S -> Prop) s a s' :
  m s = Ok a s' -> Q a s' -> wp G R m Q s.
Proof. unfold wp. by intros ->. Qed.

Lemma wp_bind_ok (m : M S A) (f : A -> M S B) Q s a s' :
  m s = Ok a s' -> wp G R (f a) Q s' -> wp G R (bind m f) Q s.
Proof. intros Hm Hf. apply wp_bind. by eapply wp_ok. Qed.
End wp_rules.

(** The state the call leaves behind at its first switch or at its return. *)
Definition first_state {S A} (r : res S A) : option S :=
  match r with Ok _ s => Some s | Switch _ _ s _ => Some s | Err _ => None end.
