(* ===== verification/Printf.v ===== *)
(** * [kservice.c]: formatted output

    [rt_vsnprintf] as configured: [RT_PRINTF_PRECISION] is defined,
    [RT_PRINTF_LONGLONG] and [RT_PRINTF_SPECIAL] are not.  The state is the
    memory of [Ram.v] and the pointer [str]; a format is the list of its
    characters before the terminator; [va_list] is a list of arguments.  The
    string arguments are lists of characters too. *)
From Stdlib Require Import Ascii.
From S2P Require Import Prelude Ram KMonad.
Local Open Scope Z_scope.
Local Open Scope kmonad_scope.

Module Printf.
Import Ram.

(** A character constant. *)
Definition ch (a : ascii) : Z := Z.of_N (N_of_ascii a).
Local Arguments ch a%_char_scope.

(** What [va_arg] finds: a word, or a pointer to a string (RT_NULL is [None]). *)
Inductive va := VInt (v : Z) | VStr (s : option (list Z)).

Definition va_int (args : list va) : option (Z * list va) :=
  match args with VInt v :: args => Some (v, args) | _ => None end.
Definition va_str (args : list va) : option (option (list Z) * list va) :=
  match args with VStr s :: args => Some (s, args) | _ => None end.

Definition isdigit (c : Z) : bool := u32 (c - ch "0") <? 10.

(** [divide]: the digit and the rest of the number; any base but 10 is 16. *)
Definition divide (n base : Z) : Z * Z :=
  if base =? 10 then (u32 n mod 10, i32 (u32 n / 10)) else (u32 n mod 16, i32 (u32 n / 16)).

(** [*s] of a string, and [++s]. *)
Definition cur (s : list Z) : Z := match s with [] => 0 | c :: _ => c end.

Fixpoint atoi_loop (i : Z) (s : list Z) : Z * list Z :=
  match s with
  | [] => (i, [])
  | c :: s' => if isdigit c then atoi_loop (i32 (i * 10 + c - ch "0")) s' else (i, s)
  end.
Definition skip_atoi (s : list Z) : Z * list Z := atoi_loop 0 s.

Definition ZEROPAD : Z := 1.
Definition SIGN : Z := 2.
Definition PLUS : Z := 4.
Definition SPACE : Z := 8.
Definition LEFT : Z := 16.
Definition SPECIAL : Z := 32.
Definition LARGE : Z := 64.
Definition has (m type : Z) : bool := negb (Z.land type m =? 0).

Definition small_digits : list Z := ch <$> ["0"; "1"; "2"; "3"; "4"; "5"; "6"; "7"; "8"; "9"; "a"; "b"; "c"; "d"; "e"; "f"]%char.
Definition large_digits : list Z := ch <$> ["0"; "1"; "2"; "3"; "4"; "5"; "6"; "7"; "8"; "9"; "A"; "B"; "C"; "D"; "E"; "F"]%char.

(** [while (num != 0) tmp[i++] = digits[divide(&num, base)]]: the characters of
    [tmp]; more than its sixteen do not fit. *)
Fixpoint number_loop (room : nat) (digits : list Z) (num base : Z) : option (list Z) :=
  if num =? 0 then Some []
  else match room with
  | O => None
  | S room =>
      let '(d, num) := divide num base in
      c ← digits !! Z.to_nat d; tmp ← number_loop room digits num base; Some (c :: tmp)
  end.

Definition number_chars (digits : list Z) (num base : Z) : option (list Z) :=
  if num =? 0 then Some [ch "0"] else number_loop 16 digits num base.

(** The sign to print and the number without it. *)
Definition number_sign (num type : Z) : Z * Z :=
  if has SIGN type then
    if num <? 0 then (ch "-", i32 (- num))
    else if has PLUS type then (ch "+", num)
    else if has SPACE type then (ch " ", num)
    else (0, num)
  else (0, num).

(** ** Writing *)
Abbreviation P := (M (ram * Z)).

Section out.
Context (limit : Z).   (** [end] *)

(** [if (str <= end) *str = c; ++ str]. *)
Definition emit (c : Z) : P unit := fun s =>
  if s.2 <=? limit then
    match store 1 s.1 s.2 c with
    | Some m => Ok tt (m, u32 (s.2 + 1))
    | None => Err Bad_pointer
    end
  else Ok tt (s.1, u32 (s.2 + 1)).

Fixpoint emit_list (cs : list Z) : P unit :=
  match cs with [] => ret tt | c :: cs => emit c ;! emit_list cs end.

(** [while (bound < n--) emit(c)]; returns [n]. *)
Fixpoint pad_loop (fuel : nat) (bound n c : Z) : P Z :=
  match fuel with
  | O => fail Out_of_fuel
  | S fuel => if bound <? n then emit c ;! pad_loop fuel bound (n - 1) c else ret (n - 1)
  end.
Definition pad (bound n c : Z) : P Z := pad_loop (S (Z.to_nat (n - bound))) bound n c.

(** [while (--n > 0) emit(' ')]; returns [n]. *)
Fixpoint pad_pre_loop (fuel : nat) (n : Z) : P Z :=
  match fuel with
  | O => fail Out_of_fuel
  | S fuel => if 0 <? n - 1 then emit (ch " ") ;! pad_pre_loop fuel (n - 1) else ret (n - 1)
  end.
Definition pad_pre (n : Z) : P Z := pad_pre_loop (S (Z.to_nat n)) n.

(** [print_number]. *)
Definition print_number (num base s precision type : Z) : P unit :=
  let size := s in
  let digits := if has LARGE type then large_digits else small_digits in
  let type := if has LEFT type then Z.land type (Z.lnot ZEROPAD) else type in
  let c := if has ZEROPAD type then ch "0" else ch " " in
  let '(sign, num) := number_sign num type in
  let! tmp := lift_opt Bad_pointer (number_chars digits num base) in
  let i := Z.of_nat (length tmp) in
  let precision := if precision <? i then i else precision in
  let size := size - precision in
  let! size :=
    (if negb (has (Z.lor ZEROPAD LEFT) type) then
       let size := if negb (sign =? 0) && (0 <? size) then size - 1 else size in
       pad 0 size (ch " ")
     else ret size) in
  let! size :=
    (if negb (sign =? 0) then
       let! buf := gets snd in
       emit sign ;!
       ret (if buf <=? limit then size - 1 else size)
     else ret size) in
  let! size := (if negb (has LEFT type) then pad 0 size c else ret size) in
  pad i precision (ch "0") ;!
  emit_list (reverse tmp) ;!
  pad 0 size (ch " ") ;!
  ret tt.

(** ** The parts of a conversion *)
(** The flags behind a ['%']. *)
Fixpoint flags_loop (fmt : list Z) (flags : Z) : Z * list Z :=
  match fmt with
  | [] => (flags, [])
  | c :: fmt' =>
      if c =? ch "-" then flags_loop fmt' (Z.lor flags LEFT)
      else if c =? ch "+" then flags_loop fmt' (Z.lor flags PLUS)
      else if c =? ch " " then flags_loop fmt' (Z.lor flags SPACE)
      else if c =? ch "#" then flags_loop fmt' (Z.lor flags SPECIAL)
      else if c =? ch "0" then flags_loop fmt' (Z.lor flags ZEROPAD)
      else (flags, fmt)
  end.

(** The field width: width, flags, rest of the format, rest of the arguments. *)
Definition get_width (flags : Z) (fmt : list Z) (args : list va) : option (Z * Z * list Z * list va) :=
  if isdigit (cur fmt) then
    let '(w, fmt) := skip_atoi fmt in Some (w, flags, fmt, args)
  else if cur fmt =? ch "*" then
    '(w, args) ← va_int args;
    let w := i32 w in
    Some (if w <? 0 then (i32 (- w), Z.lor flags LEFT, tail fmt, args) else (w, flags, tail fmt, args))
  else Some (-1, flags, fmt, args).

(** The precision. *)
Definition get_precision (fmt : list Z) (args : list va) : option (Z * list Z * list va) :=
  if cur fmt =? ch "." then
    let fmt := tail fmt in
    '(p, fmt, args) ←
      (if isdigit (cur fmt) then let '(p, fmt) := skip_atoi fmt in Some (p, fmt, args)
       else if cur fmt =? ch "*" then '(p, args) ← va_int args; Some (i32 p, tail fmt, args)
       else Some (-1, fmt, args));
    Some (if p <? 0 then 0 else p, fmt, args)
  else Some (-1, fmt, args).

(** The qualifier ['h'] or ['l'], 0 if there is none. *)
Definition get_qualifier (fmt : list Z) : Z * list Z :=
  if (cur fmt =? ch "h") || (cur fmt =? ch "l") then (cur fmt, tail fmt) else (0, fmt).

(** The base of an integer conversion and the flags it adds. *)
Definition int_conversion (c flags : Z) : option (Z * Z) :=
  if c =? ch "o" then Some (8, flags)
  else if c =? ch "X" then Some (16, Z.lor flags LARGE)
  else if c =? ch "x" then Some (16, flags)
  else if (c =? ch "d") || (c =? ch "i") then Some (10, Z.lor flags SIGN)
  else if c =? ch "u" then Some (10, flags)
  else None.

(** The argument of an integer conversion. *)
Definition int_argument (qualifier flags v : Z) : Z :=
  if qualifier =? ch "h" then if has SIGN flags then u32 (i16 (u16 v)) else u16 v
  else u32 v.

(** The [switch] on the conversion character [*fmt] and the code behind it; the
    rest of the format and of the arguments. *)
Definition convert (flags width precision qualifier : Z) (fmt : list Z) (args : list va) : P (list Z * list va) :=
  let c := cur fmt in
  if c =? ch "c" then
    let! width := (if negb (has LEFT flags) then pad_pre width else ret width) in
    let! v := lift_opt Bad_pointer (va_int args) in
    emit (u8 v.1) ;!
    pad_pre width ;!
    ret (tail fmt, v.2)
  else if c =? ch "s" then
    let! v := lift_opt Bad_pointer (va_str args) in
    let s := default (ch <$> ["("; "N"; "U"; "L"; "L"; ")"]%char) v.1 in
    let len := Z.of_nat (length s) in
    let len := if (0 <? precision) && (precision <? len) then precision else len in
    let! width := (if negb (has LEFT flags) then pad len width (ch " ") else ret width) in
    emit_list (take (Z.to_nat len) s) ;!
    pad len width (ch " ") ;!
    ret (tail fmt, v.2)
  else if c =? ch "p" then
    let! v := lift_opt Bad_pointer (va_int args) in
    (if width =? -1 then print_number (i32 v.1) 16 8 precision (Z.lor flags ZEROPAD)
     else print_number (i32 v.1) 16 width precision flags) ;!
    ret (tail fmt, v.2)
  else if c =? ch "%" then
    emit (ch "%") ;! ret (tail fmt, args)
  else match int_conversion c flags with
  | Some (base, flags) =>
      let! v := lift_opt Bad_pointer (va_int args) in
      print_number (i32 (int_argument qualifier flags v.1)) base width precision flags ;!
      ret (tail fmt, v.2)
  | None =>
      emit (ch "%") ;!
      (if negb (c =? 0) then emit c else ret tt) ;!
      ret (tail fmt, args)
  end.

(** The loop over the format. *)
Fixpoint vsn_loop (fuel : nat) (fmt : list Z) (args : list va) : P unit :=
  match fuel with
  | O => fail Out_of_fuel
  | S fuel =>
      match fmt with
      | [] => ret tt
      | c :: fmt =>
          if negb (c =? ch "%") then emit c ;! vsn_loop fuel fmt args
          else
            let '(flags, fmt) := flags_loop fmt 0 in
            let! w := lift_opt Bad_pointer (get_width flags fmt args) in
            let '(width, flags, fmt, args) := w in
            let! p := lift_opt Bad_pointer (get_precision fmt args) in
            let '(precision, fmt, args) := p in
            let '(qualifier, fmt) := get_qualifier fmt in
            let! r := convert flags width precision qualifier fmt args in
            vsn_loop fuel r.1 r.2
      end
  end.
End out.

(** [rt_vsnprintf]. *)
Definition rt_vsnprintf (buf size : Z) (fmt : list Z) (args : list va) : M ram Z := fun m =>
  let limit := u32 (buf + size - 1) in
  let limit := if limit <? buf then 2 ^ 32 - 1 else limit in
  match vsn_loop limit (S (length fmt)) fmt args (m, buf) with
  | Ok _ (m, str) =>
      match store 1 m (if str <=? limit then str else limit) 0 with
      | Some m => Ok (i32 (str - buf)) m
      | None => Err Bad_pointer
      end
  | Switch _ _ _ _ => Err Hang
  | Err e => Err e
  end.

(** [rt_snprintf], [rt_vsprintf] and [rt_sprintf]. *)
Definition rt_snprintf (buf size : Z) (fmt : list Z) (args : list va) : M ram Z := rt_vsnprintf buf size fmt args.
Definition rt_vsprintf (buf : Z) (fmt : list Z) (args : list va) : M ram Z := rt_vsnprintf buf (2 ^ 32 - 1) fmt args.
Definition rt_sprintf (buf : Z) (fmt : list Z) (args : list va) : M ram Z := rt_vsprintf buf fmt args.
End Printf.
