(* ===== verification/KState.v ===== *)
(** * Kernel state: objects, list nodes, global variables ([rtdef.h])

    The structures of [rtdef.h] as records, the list nodes they embed as
    locations, and the kernel's global variables as one record, for the board
    configuration [bsp/tm4c129x/rtconfig.h] (256 priorities, software timers,
    debug checks on, no signals, no modules, one-level timer lists).  Hook
    pointers keep their initial value [RT_NULL], so [RT_OBJECT_HOOK_CALL] does
    nothing, and the [RT_DEBUG_*] log switches are 0. *)
From S2P Require Import Prelude RtList KMonad.
Local Open Scope Z_scope.

(** ** Configuration constants *)
Definition RT_THREAD_PRIORITY_MAX : Z := 256.
Definition RT_TICK_PER_SECOND : Z := 100.
Definition RT_TICK_MAX : Z := 0xffffffff.
Definition RT_TIMER_SKIP_LIST_LEVEL : nat := 1.
Definition RT_TIMER_SKIP_LIST_MASK : Z := 3.
Definition RT_WAITING_FOREVER : Z := -1.

Definition RT_THREAD_INIT : Z := 0.
Definition RT_THREAD_READY : Z := 1.
Definition RT_THREAD_SUSPEND : Z := 2.
Definition RT_THREAD_CLOSE : Z := 4.
Definition RT_THREAD_STAT_MASK : Z := 0x0f.

Definition RT_TIMER_FLAG_ACTIVATED : Z := 1.
Definition RT_TIMER_FLAG_PERIODIC : Z := 2.
Definition RT_TIMER_FLAG_SOFT_TIMER : Z := 4.

Definition RT_IPC_FLAG_FIFO : Z := 0.
Definition RT_IPC_FLAG_PRIO : Z := 1.

Definition RT_Object_Class_Static : Z := 0x80.

(** ** Objects and the list nodes they embed *)
Inductive timer_id :=
  | TThread (t : nat)   (** [thread->thread_timer] *)
  | TUser (i : nat).    (** a timer object of its own *)

Inductive ipc_id :=
  | ISem (i : nat) | IMutex (i : nat) | IEvent (i : nat) | IMb (i : nat) | IMq (i : nat)
  | IMp (i : nat).

(** The waiting lists of the drivers' communication structures. *)
Inductive driver_list :=
  | DCompletion (i : nat)   (** [completion->suspended_list] *)
  | DPush (i : nat)         (** [queue->suspended_push_list] *)
  | DPop (i : nat).         (** [queue->suspended_pop_list] *)

Inductive obj_id :=
  | OThread (t : nat) | OTimer (tm : timer_id) | OIpc (o : ipc_id) | ODevice (i : nat) | OMemHeap (i : nat).

Inductive loc :=
  | LReady (p : Z)                       (** [rt_thread_priority_table[p]] *)
  | LDefunct                             (** [rt_thread_defunct] *)
  | LTlist (t : nat)                     (** [thread->tlist] *)
  | LTimerHead (soft : bool) (lvl : nat) (** [rt_timer_list], [rt_soft_timer_list] *)
  | LRow (tm : timer_id) (lvl : nat)     (** [timer->row[lvl]] *)
  | LSuspend (o : ipc_id)                (** [ipc->suspend_thread], [mp->suspend_thread] *)
  | LSender (mb : nat)                   (** [mb->suspend_sender_thread] *)
  | LDriver (d : driver_list)            (** a waiting list of a driver *)
  | LObjHead (cls : Z)                   (** [rt_object_container[..].object_list] *)
  | LObj (o : obj_id).                   (** [object->list] *)

#[export] Instance timer_id_eq_dec : EqDecision timer_id.
Proof. solve_decision. Defined.
#[export] Instance ipc_id_eq_dec : EqDecision ipc_id.
Proof. solve_decision. Defined.
#[export] Instance driver_list_eq_dec : EqDecision driver_list.
Proof. solve_decision. Defined.
#[export] Instance obj_id_eq_dec : EqDecision obj_id.
Proof. solve_decision. Defined.
#[export] Instance loc_eq_dec : EqDecision loc.
Proof. solve_decision. Defined.

#[export] Instance timer_id_countable : Countable timer_id.
Proof.
  refine (inj_countable' (fun x => match x with TThread t => inl t | TUser i => inr i end)
    (fun y => match y with inl t => TThread t | inr i => TUser i end) _).
  by intros [].
Defined.

#[export] Instance ipc_id_countable : Countable ipc_id.
Proof.
  refine (inj_countable'
    (fun x => match x with
      | ISem i => (0%nat, i) | IMutex i => (1%nat, i) | IEvent i => (2%nat, i)
      | IMb i => (3%nat, i) | IMq i => (4%nat, i) | IMp i => (5%nat, i) end)
    (fun y => match y with
      | (0%nat, i) => ISem i | (1%nat, i) => IMutex i | (2%nat, i) => IEvent i
      | (3%nat, i) => IMb i | (4%nat, i) => IMq i | (_, i) => IMp i end) _).
  by intros [].
Defined.

#[export] Instance driver_list_countable : Countable driver_list.
Proof.
  refine (inj_countable'
    (fun x => match x with DCompletion i => (0%nat, i) | DPush i => (1%nat, i) | DPop i => (2%nat, i) end)
    (fun y => match y with (0%nat, i) => DCompletion i | (1%nat, i) => DPush i | (_, i) => DPop i end) _).
  by intros [].
Defined.

#[export] Instance obj_id_countable : Countable obj_id.
Proof.
  refine (inj_countable'
    (fun x => match x with
      | OThread t => inl (inl t) | OTimer tm => inr (inl tm) | OIpc o => inr (inr o) | ODevice i => inl (inr (inl i)) | OMemHeap i => inl (inr (inr i)) end)
    (fun y => match y with
      | inl (inl t) => OThread t | inr (inl tm) => OTimer tm | inr (inr o) => OIpc o | inl (inr (inl i)) => ODevice i | inl (inr (inr i)) => OMemHeap i end) _).
  by intros [].
Defined.

#[export] Instance loc_countable : Countable loc.
Proof.
  refine (inj_countable'
    (fun x => match x with
      | LReady p => inl (inl (inl p))
      | LDefunct => inl (inl (inr tt))
      | LTlist t => inl (inr (inl t))
      | LTimerHead s l => inl (inr (inr (s, l)))
      | LRow tm l => inr (inl (inl (tm, l)))
      | LSuspend o => inr (inl (inr o))
      | LSender m => inr (inr (inl (inl m)))
      | LDriver d => inr (inr (inl (inr d)))
      | LObjHead c => inr (inr (inr (inl c)))
      | LObj o => inr (inr (inr (inr o))) end)
    (fun y => match y with
      | inl (inl (inl p)) => LReady p
      | inl (inl (inr _)) => LDefunct
      | inl (inr (inl t)) => LTlist t
      | inl (inr (inr (s, l))) => LTimerHead s l
      | inr (inl (inl (tm, l))) => LRow tm l
      | inr (inl (inr o)) => LSuspend o
      | inr (inr (inl (inl m))) => LSender m
      | inr (inr (inl (inr d))) => LDriver d
      | inr (inr (inr (inl c))) => LObjHead c
      | inr (inr (inr (inr o))) => LObj o end) _).
  by intros [].
Defined.

(** ** Structures *)
(** [struct rt_object] without its list node. *)
Record rt_object := Object { o_name : list Z; o_type : Z; o_flag : Z }.

(** What [timer->timeout_func] points to: the kernel's own
    [rt_thread_timeout], or a function of the application. *)
Inductive timeout_fn := Rt_thread_timeout | User_timeout (f : nat).

Record rt_timer := Timer {
  tm_parent : rt_object;
  tm_timeout_func : timeout_fn;
  tm_parameter : nat;
  tm_init_tick : Z;
  tm_timeout_tick : Z;
}.

Record rt_thread := Thread {
  t_parent : rt_object;
  t_sp : Z;
  t_entry : nat;
  t_parameter : nat;
  t_stack_addr : Z;
  t_stack_size : Z;
  t_stack_mark : Z;          (** the byte at [stack_addr] *)
  t_error : Z;
  t_stat : Z;
  t_current_priority : Z;
  t_init_priority : Z;
  t_number : Z;
  t_high_mask : Z;
  t_number_mask : Z;
  t_event_set : Z;
  t_event_info : Z;
  t_init_tick : Z;
  t_remaining_tick : Z;
  t_cleanup : option nat;
  t_user_data : Z;
}.

Record rt_semaphore := Semaphore { sem_parent : rt_object; sem_value : Z }.

Record rt_mutex := Mutex {
  mx_parent : rt_object;
  mx_value : Z;
  mx_original_priority : Z;
  mx_hold : Z;
  mx_owner : option nat;
}.

Record rt_event := Event { ev_parent : rt_object; ev_set : Z }.

(** Mailbox.  [mb_pool_addr] is the pointer [msg_pool], [mb_msg_pool] the words
    it points to. *)
Record rt_mailbox := Mailbox {
  mb_parent : rt_object;
  mb_pool_addr : Z;
  mb_msg_pool : list Z;
  mb_size : Z;
  mb_entry : Z;
  mb_in_offset : Z;
  mb_out_offset : Z;
}.

(** Message queue.  A message cell of the pool is its index; its [next] field
    and its payload bytes are looked up by that index. *)
Record rt_messagequeue := MessageQueue {
  mq_parent : rt_object;
  mq_pool_addr : Z;                     (** the pointer [msg_pool] *)
  mq_next : gmap nat (option nat);      (** [((struct rt_mq_message * )cell)->next] *)
  mq_data : gmap nat (list Z);          (** the [msg_size] bytes behind it *)
  mq_msg_size : Z;
  mq_max_msgs : Z;
  mq_entry : Z;
  mq_queue_head : option nat;
  mq_queue_tail : option nat;
  mq_queue_free : option nat;
}.

(** Memory pool.  Its blocks are in memory; [mp_block_list] is the address of the
    first free one, 0 for [RT_NULL]. *)
Record rt_mempool := Mempool {
  mp_parent : rt_object;
  mp_start_address : Z;
  mp_size : Z;
  mp_block_size : Z;
  mp_block_list : Z;
  mp_block_total_count : Z;
  mp_block_free_count : Z;
  mp_suspend_thread_count : Z;
}.

(** Device.  A function pointer is the number of the function, [None] for RT_NULL. *)
Record rt_device := Device {
  dev_parent : rt_object;
  dev_type : Z;
  dev_flag : Z;
  dev_open_flag : Z;
  dev_ref_count : Z;
  dev_rx_indicate : option nat;
  dev_tx_complete : option nat;
  dev_init : option nat;
  dev_open : option nat;
  dev_close : option nat;
  dev_read : option nat;
  dev_write : option nat;
  dev_control : option nat;
}.

(** ** Global variables *)
Record kst (L : Type) := Kst {
  k_links : L;
  k_threads : gmap nat rt_thread;
  k_timers : gmap timer_id rt_timer;
  k_sems : gmap nat rt_semaphore;
  k_mutexes : gmap nat rt_mutex;
  k_events : gmap nat rt_event;
  k_mbs : gmap nat rt_mailbox;
  k_mqs : gmap nat rt_messagequeue;
  k_mps : gmap nat rt_mempool;
  k_devices : gmap nat rt_device;
  k_memheaps : gmap nat rt_object;  (** the [parent] headers of the memory heaps *)
  k_console : option nat;          (** [_console_device] of [kservice.c] *)
  k_lock_nest : Z;                 (** [rt_scheduler_lock_nest], [rt_int16_t] *)
  k_current : option nat;          (** [rt_current_thread] *)
  k_current_priority : Z;          (** [rt_current_priority] *)
  k_ready_group : Z;               (** [rt_thread_ready_priority_group] *)
  k_ready_table : list Z;          (** [rt_thread_ready_table[32]] *)
  k_irq_nest : Z;                  (** [rt_interrupt_nest], [rt_uint8_t] *)
  k_primask : Z;                   (** PRIMASK: 1 when interrupts are masked *)
  k_pendsv : option (nat * nat);   (** [rt_interrupt_from_thread], [.._to_thread] when the flag is set *)
  k_tick : Z;                      (** [rt_tick] *)
  k_random_nr : Z;                 (** [random_nr] of [rt_timer_start] *)
  k_timer_thread : nat;            (** the thread object [timer_thread] *)
  k_errno : Z;                     (** [__rt_errno] of [kservice.c] *)
}.
#[global] Arguments Kst {L}.
#[global] Arguments k_links {L}. #[global] Arguments k_threads {L}.
#[global] Arguments k_timers {L}. #[global] Arguments k_sems {L}.
#[global] Arguments k_mutexes {L}. #[global] Arguments k_events {L}.
#[global] Arguments k_mbs {L}. #[global] Arguments k_mqs {L}. #[global] Arguments k_mps {L}. #[global] Arguments k_devices {L}. #[global] Arguments k_memheaps {L}. #[global] Arguments k_console {L}.
#[global] Arguments k_lock_nest {L}. #[global] Arguments k_current {L}.
#[global] Arguments k_current_priority {L}. #[global] Arguments k_ready_group {L}.
#[global] Arguments k_ready_table {L}. #[global] Arguments k_irq_nest {L}.
#[global] Arguments k_primask {L}. #[global] Arguments k_pendsv {L}.
#[global] Arguments k_tick {L}. #[global] Arguments k_random_nr {L}.
#[global] Arguments k_timer_thread {L}. #[global] Arguments k_errno {L}.

(** ** Field updates *)
Section setters.
Context {L : Type}.
Implicit Type s : kst L.
Definition set_links v s : kst L :=
  Kst
    v s.(k_threads) s.(k_timers) s.(k_sems) s.(k_mutexes) s.(k_events) s.(k_mbs) s.(k_mqs) s.(k_mps) s.(k_devices) s.(k_memheaps) s.(k_console)
    s.(k_lock_nest) s.(k_current) s.(k_current_priority) s.(k_ready_group) s.(k_ready_table)
    s.(k_irq_nest) s.(k_primask) s.(k_pendsv) s.(k_tick) s.(k_random_nr) s.(k_timer_thread) s.(k_errno).
Definition set_threads v s : kst L :=
  Kst
    s.(k_links) v s.(k_timers) s.(k_sems) s.(k_mutexes) s.(k_events) s.(k_mbs) s.(k_mqs) s.(k_mps) s.(k_devices) s.(k_memheaps) s.(k_console)
    s.(k_lock_nest) s.(k_current) s.(k_current_priority) s.(k_ready_group) s.(k_ready_table)
    s.(k_irq_nest) s.(k_primask) s.(k_pendsv) s.(k_tick) s.(k_random_nr) s.(k_timer_thread) s.(k_errno).
Definition set_timers v s : kst L :=
  Kst
    s.(k_links) s.(k_threads) v s.(k_sems) s.(k_mutexes) s.(k_events) s.(k_mbs) s.(k_mqs) s.(k_mps) s.(k_devices) s.(k_memheaps) s.(k_console)
    s.(k_lock_nest) s.(k_current) s.(k_current_priority) s.(k_ready_group) s.(k_ready_table)
    s.(k_irq_nest) s.(k_primask) s.(k_pendsv) s.(k_tick) s.(k_random_nr) s.(k_timer_thread) s.(k_errno).
Definition set_sems v s : kst L :=
  Kst
    s.(k_links) s.(k_threads) s.(k_timers) v s.(k_mutexes) s.(k_events) s.(k_mbs) s.(k_mqs) s.(k_mps) s.(k_devices) s.(k_memheaps) s.(k_console)
    s.(k_lock_nest) s.(k_current) s.(k_current_priority) s.(k_ready_group) s.(k_ready_table)
    s.(k_irq_nest) s.(k_primask) s.(k_pendsv) s.(k_tick) s.(k_random_nr) s.(k_timer_thread) s.(k_errno).
Definition set_mutexes v s : kst L :=
  Kst
    s.(k_links) s.(k_threads) s.(k_timers) s.(k_sems) v s.(k_events) s.(k_mbs) s.(k_mqs) s.(k_mps) s.(k_devices) s.(k_memheaps) s.(k_console)
    s.(k_lock_nest) s.(k_current) s.(k_current_priority) s.(k_ready_group) s.(k_ready_table)
    s.(k_irq_nest) s.(k_primask) s.(k_pendsv) s.(k_tick) s.(k_random_nr) s.(k_timer_thread) s.(k_errno).
Definition set_events v s : kst L :=
  Kst
    s.(k_links) s.(k_threads) s.(k_timers) s.(k_sems) s.(k_mutexes) v s.(k_mbs) s.(k_mqs) s.(k_mps) s.(k_devices) s.(k_memheaps) s.(k_console)
    s.(k_lock_nest) s.(k_current) s.(k_current_priority) s.(k_ready_group) s.(k_ready_table)
    s.(k_irq_nest) s.(k_primask) s.(k_pendsv) s.(k_tick) s.(k_random_nr) s.(k_timer_thread) s.(k_errno).
Definition set_mbs v s : kst L :=
  Kst
    s.(k_links) s.(k_threads) s.(k_timers) s.(k_sems) s.(k_mutexes) s.(k_events) v s.(k_mqs) s.(k_mps) s.(k_devices) s.(k_memheaps) s.(k_console)
    s.(k_lock_nest) s.(k_current) s.(k_current_priority) s.(k_ready_group) s.(k_ready_table)
    s.(k_irq_nest) s.(k_primask) s.(k_pendsv) s.(k_tick) s.(k_random_nr) s.(k_timer_thread) s.(k_errno).
Definition set_mqs v s : kst L :=
  Kst
    s.(k_links) s.(k_threads) s.(k_timers) s.(k_sems) s.(k_mutexes) s.(k_events) s.(k_mbs) v s.(k_mps) s.(k_devices) s.(k_memheaps) s.(k_console)
    s.(k_lock_nest) s.(k_current) s.(k_current_priority) s.(k_ready_group) s.(k_ready_table)
    s.(k_irq_nest) s.(k_primask) s.(k_pendsv) s.(k_tick) s.(k_random_nr) s.(k_timer_thread) s.(k_errno).
Definition set_mps v s : kst L :=
  Kst
    s.(k_links) s.(k_threads) s.(k_timers) s.(k_sems) s.(k_mutexes) s.(k_events) s.(k_mbs) s.(k_mqs) v s.(k_devices) s.(k_memheaps) s.(k_console)
    s.(k_lock_nest) s.(k_current) s.(k_current_priority) s.(k_ready_group) s.(k_ready_table)
    s.(k_irq_nest) s.(k_primask) s.(k_pendsv) s.(k_tick) s.(k_random_nr) s.(k_timer_thread) s.(k_errno).
Definition set_devices v s : kst L :=
  Kst
    s.(k_links) s.(k_threads) s.(k_timers) s.(k_sems) s.(k_mutexes) s.(k_events) s.(k_mbs) s.(k_mqs) s.(k_mps) v s.(k_memheaps) s.(k_console)
    s.(k_lock_nest) s.(k_current) s.(k_current_priority) s.(k_ready_group) s.(k_ready_table)
    s.(k_irq_nest) s.(k_primask) s.(k_pendsv) s.(k_tick) s.(k_random_nr) s.(k_timer_thread) s.(k_errno).
Definition set_memheaps v s : kst L :=
  Kst
    s.(k_links) s.(k_threads) s.(k_timers) s.(k_sems) s.(k_mutexes) s.(k_events) s.(k_mbs) s.(k_mqs) s.(k_mps) s.(k_devices) v s.(k_console)
    s.(k_lock_nest) s.(k_current) s.(k_current_priority) s.(k_ready_group) s.(k_ready_table)
    s.(k_irq_nest) s.(k_primask) s.(k_pendsv) s.(k_tick) s.(k_random_nr) s.(k_timer_thread) s.(k_errno).
Definition set_console v s : kst L :=
  Kst
    s.(k_links) s.(k_threads) s.(k_timers) s.(k_sems) s.(k_mutexes) s.(k_events) s.(k_mbs) s.(k_mqs) s.(k_mps) s.(k_devices) s.(k_memheaps) v
    s.(k_lock_nest) s.(k_current) s.(k_current_priority) s.(k_ready_group) s.(k_ready_table)
    s.(k_irq_nest) s.(k_primask) s.(k_pendsv) s.(k_tick) s.(k_random_nr) s.(k_timer_thread) s.(k_errno).
Definition set_lock_nest v s : kst L :=
  Kst
    s.(k_links) s.(k_threads) s.(k_timers) s.(k_sems) s.(k_mutexes) s.(k_events) s.(k_mbs)
    s.(k_mqs) s.(k_mps) s.(k_devices) s.(k_memheaps) s.(k_console) v s.(k_current) s.(k_current_priority) s.(k_ready_group) s.(k_ready_table)
    s.(k_irq_nest) s.(k_primask) s.(k_pendsv) s.(k_tick) s.(k_random_nr) s.(k_timer_thread) s.(k_errno).
Definition set_current v s : kst L :=
  Kst
    s.(k_links) s.(k_threads) s.(k_timers) s.(k_sems) s.(k_mutexes) s.(k_events) s.(k_mbs)
    s.(k_mqs) s.(k_mps) s.(k_devices) s.(k_memheaps) s.(k_console) s.(k_lock_nest) v s.(k_current_priority) s.(k_ready_group) s.(k_ready_table)
    s.(k_irq_nest) s.(k_primask) s.(k_pendsv) s.(k_tick) s.(k_random_nr) s.(k_timer_thread) s.(k_errno).
Definition set_current_priority v s : kst L :=
  Kst
    s.(k_links) s.(k_threads) s.(k_timers) s.(k_sems) s.(k_mutexes) s.(k_events) s.(k_mbs)
    s.(k_mqs) s.(k_mps) s.(k_devices) s.(k_memheaps) s.(k_console) s.(k_lock_nest) s.(k_current) v s.(k_ready_group) s.(k_ready_table)
    s.(k_irq_nest) s.(k_primask) s.(k_pendsv) s.(k_tick) s.(k_random_nr) s.(k_timer_thread) s.(k_errno).
Definition set_ready_group v s : kst L :=
  Kst
    s.(k_links) s.(k_threads) s.(k_timers) s.(k_sems) s.(k_mutexes) s.(k_events) s.(k_mbs)
    s.(k_mqs) s.(k_mps) s.(k_devices) s.(k_memheaps) s.(k_console) s.(k_lock_nest) s.(k_current) s.(k_current_priority) v s.(k_ready_table)
    s.(k_irq_nest) s.(k_primask) s.(k_pendsv) s.(k_tick) s.(k_random_nr) s.(k_timer_thread) s.(k_errno).
Definition set_ready_table v s : kst L :=
  Kst
    s.(k_links) s.(k_threads) s.(k_timers) s.(k_sems) s.(k_mutexes) s.(k_events) s.(k_mbs)
    s.(k_mqs) s.(k_mps) s.(k_devices) s.(k_memheaps) s.(k_console) s.(k_lock_nest) s.(k_current) s.(k_current_priority) s.(k_ready_group) v
    s.(k_irq_nest) s.(k_primask) s.(k_pendsv) s.(k_tick) s.(k_random_nr) s.(k_timer_thread) s.(k_errno).
Definition set_irq_nest v s : kst L :=
  Kst
    s.(k_links) s.(k_threads) s.(k_timers) s.(k_sems) s.(k_mutexes) s.(k_events) s.(k_mbs)
    s.(k_mqs) s.(k_mps) s.(k_devices) s.(k_memheaps) s.(k_console) s.(k_lock_nest) s.(k_current) s.(k_current_priority) s.(k_ready_group)
    s.(k_ready_table) v s.(k_primask) s.(k_pendsv) s.(k_tick) s.(k_random_nr)
    s.(k_timer_thread) s.(k_errno).
Definition set_primask v s : kst L :=
  Kst
    s.(k_links) s.(k_threads) s.(k_timers) s.(k_sems) s.(k_mutexes) s.(k_events) s.(k_mbs)
    s.(k_mqs) s.(k_mps) s.(k_devices) s.(k_memheaps) s.(k_console) s.(k_lock_nest) s.(k_current) s.(k_current_priority) s.(k_ready_group)
    s.(k_ready_table) s.(k_irq_nest) v s.(k_pendsv) s.(k_tick) s.(k_random_nr)
    s.(k_timer_thread) s.(k_errno).
Definition set_pendsv v s : kst L :=
  Kst
    s.(k_links) s.(k_threads) s.(k_timers) s.(k_sems) s.(k_mutexes) s.(k_events) s.(k_mbs)
    s.(k_mqs) s.(k_mps) s.(k_devices) s.(k_memheaps) s.(k_console) s.(k_lock_nest) s.(k_current) s.(k_current_priority) s.(k_ready_group)
    s.(k_ready_table) s.(k_irq_nest) s.(k_primask) v s.(k_tick) s.(k_random_nr)
    s.(k_timer_thread) s.(k_errno).
Definition set_tick v s : kst L :=
  Kst
    s.(k_links) s.(k_threads) s.(k_timers) s.(k_sems) s.(k_mutexes) s.(k_events) s.(k_mbs)
    s.(k_mqs) s.(k_mps) s.(k_devices) s.(k_memheaps) s.(k_console) s.(k_lock_nest) s.(k_current) s.(k_current_priority) s.(k_ready_group)
    s.(k_ready_table) s.(k_irq_nest) s.(k_primask) s.(k_pendsv) v s.(k_random_nr)
    s.(k_timer_thread) s.(k_errno).
Definition set_random_nr v s : kst L :=
  Kst
    s.(k_links) s.(k_threads) s.(k_timers) s.(k_sems) s.(k_mutexes) s.(k_events) s.(k_mbs)
    s.(k_mqs) s.(k_mps) s.(k_devices) s.(k_memheaps) s.(k_console) s.(k_lock_nest) s.(k_current) s.(k_current_priority) s.(k_ready_group)
    s.(k_ready_table) s.(k_irq_nest) s.(k_primask) s.(k_pendsv) s.(k_tick) v
    s.(k_timer_thread) s.(k_errno).
Definition set_errno v s : kst L :=
  Kst
    s.(k_links) s.(k_threads) s.(k_timers) s.(k_sems) s.(k_mutexes) s.(k_events) s.(k_mbs)
    s.(k_mqs) s.(k_mps) s.(k_devices) s.(k_memheaps) s.(k_console) s.(k_lock_nest) s.(k_current) s.(k_current_priority) s.(k_ready_group)
    s.(k_ready_table) s.(k_irq_nest) s.(k_primask) s.(k_pendsv) s.(k_tick) s.(k_random_nr)
    s.(k_timer_thread) v.
End setters.
Definition set_t_parent v (r : rt_thread) : rt_thread :=
  Thread
    v r.(t_sp) r.(t_entry) r.(t_parameter) r.(t_stack_addr) r.(t_stack_size) r.(t_stack_mark)
    r.(t_error) r.(t_stat) r.(t_current_priority) r.(t_init_priority) r.(t_number)
    r.(t_high_mask) r.(t_number_mask) r.(t_event_set) r.(t_event_info) r.(t_init_tick)
    r.(t_remaining_tick) r.(t_cleanup) r.(t_user_data).
Definition set_t_error v (r : rt_thread) : rt_thread :=
  Thread
    r.(t_parent) r.(t_sp) r.(t_entry) r.(t_parameter) r.(t_stack_addr) r.(t_stack_size)
    r.(t_stack_mark) v r.(t_stat) r.(t_current_priority) r.(t_init_priority) r.(t_number)
    r.(t_high_mask) r.(t_number_mask) r.(t_event_set) r.(t_event_info) r.(t_init_tick)
    r.(t_remaining_tick) r.(t_cleanup) r.(t_user_data).
Definition set_t_stat v (r : rt_thread) : rt_thread :=
  Thread
    r.(t_parent) r.(t_sp) r.(t_entry) r.(t_parameter) r.(t_stack_addr) r.(t_stack_size)
    r.(t_stack_mark) r.(t_error) v r.(t_current_priority) r.(t_init_priority) r.(t_number)
    r.(t_high_mask) r.(t_number_mask) r.(t_event_set) r.(t_event_info) r.(t_init_tick)
    r.(t_remaining_tick) r.(t_cleanup) r.(t_user_data).
Definition set_t_current_priority v (r : rt_thread) : rt_thread :=
  Thread
    r.(t_parent) r.(t_sp) r.(t_entry) r.(t_parameter) r.(t_stack_addr) r.(t_stack_size)
    r.(t_stack_mark) r.(t_error) r.(t_stat) v r.(t_init_priority) r.(t_number)
    r.(t_high_mask) r.(t_number_mask) r.(t_event_set) r.(t_event_info) r.(t_init_tick)
    r.(t_remaining_tick) r.(t_cleanup) r.(t_user_data).
Definition set_t_number v (r : rt_thread) : rt_thread :=
  Thread
    r.(t_parent) r.(t_sp) r.(t_entry) r.(t_parameter) r.(t_stack_addr) r.(t_stack_size)
    r.(t_stack_mark) r.(t_error) r.(t_stat) r.(t_current_priority) r.(t_init_priority) v
    r.(t_high_mask) r.(t_number_mask) r.(t_event_set) r.(t_event_info) r.(t_init_tick)
    r.(t_remaining_tick) r.(t_cleanup) r.(t_user_data).
Definition set_t_high_mask v (r : rt_thread) : rt_thread :=
  Thread
    r.(t_parent) r.(t_sp) r.(t_entry) r.(t_parameter) r.(t_stack_addr) r.(t_stack_size)
    r.(t_stack_mark) r.(t_error) r.(t_stat) r.(t_current_priority) r.(t_init_priority)
    r.(t_number) v r.(t_number_mask) r.(t_event_set) r.(t_event_info) r.(t_init_tick)
    r.(t_remaining_tick) r.(t_cleanup) r.(t_user_data).
Definition set_t_number_mask v (r : rt_thread) : rt_thread :=
  Thread
    r.(t_parent) r.(t_sp) r.(t_entry) r.(t_parameter) r.(t_stack_addr) r.(t_stack_size)
    r.(t_stack_mark) r.(t_error) r.(t_stat) r.(t_current_priority) r.(t_init_priority)
    r.(t_number) r.(t_high_mask) v r.(t_event_set) r.(t_event_info) r.(t_init_tick)
    r.(t_remaining_tick) r.(t_cleanup) r.(t_user_data).
Definition set_t_event_set v (r : rt_thread) : rt_thread :=
  Thread
    r.(t_parent) r.(t_sp) r.(t_entry) r.(t_parameter) r.(t_stack_addr) r.(t_stack_size)
    r.(t_stack_mark) r.(t_error) r.(t_stat) r.(t_current_priority) r.(t_init_priority)
    r.(t_number) r.(t_high_mask) r.(t_number_mask) v r.(t_event_info) r.(t_init_tick)
    r.(t_remaining_tick) r.(t_cleanup) r.(t_user_data).
Definition set_t_event_info v (r : rt_thread) : rt_thread :=
  Thread
    r.(t_parent) r.(t_sp) r.(t_entry) r.(t_parameter) r.(t_stack_addr) r.(t_stack_size)
    r.(t_stack_mark) r.(t_error) r.(t_stat) r.(t_current_priority) r.(t_init_priority)
    r.(t_number) r.(t_high_mask) r.(t_number_mask) r.(t_event_set) v r.(t_init_tick)
    r.(t_remaining_tick) r.(t_cleanup) r.(t_user_data).
Definition set_t_remaining_tick v (r : rt_thread) : rt_thread :=
  Thread
    r.(t_parent) r.(t_sp) r.(t_entry) r.(t_parameter) r.(t_stack_addr) r.(t_stack_size)
    r.(t_stack_mark) r.(t_error) r.(t_stat) r.(t_current_priority) r.(t_init_priority)
    r.(t_number) r.(t_high_mask) r.(t_number_mask) r.(t_event_set) r.(t_event_info)
    r.(t_init_tick) v r.(t_cleanup) r.(t_user_data).
Definition set_o_name v (r : rt_object) : rt_object :=
  Object
    v r.(o_type) r.(o_flag).
Definition set_o_type v (r : rt_object) : rt_object :=
  Object
    r.(o_name) v r.(o_flag).
Definition set_o_flag v (r : rt_object) : rt_object :=
  Object
    r.(o_name) r.(o_type) v.
Definition set_tm_parent v (r : rt_timer) : rt_timer :=
  Timer
    v r.(tm_timeout_func) r.(tm_parameter) r.(tm_init_tick) r.(tm_timeout_tick).
Definition set_tm_init_tick v (r : rt_timer) : rt_timer :=
  Timer
    r.(tm_parent) r.(tm_timeout_func) r.(tm_parameter) v r.(tm_timeout_tick).
Definition set_tm_timeout_tick v (r : rt_timer) : rt_timer :=
  Timer
    r.(tm_parent) r.(tm_timeout_func) r.(tm_parameter) r.(tm_init_tick) v.
Definition set_sem_parent v (r : rt_semaphore) : rt_semaphore :=
  Semaphore
    v r.(sem_value).
Definition set_sem_value v (r : rt_semaphore) : rt_semaphore :=
  Semaphore
    r.(sem_parent) v.
Definition set_mx_parent v (r : rt_mutex) : rt_mutex :=
  Mutex
    v r.(mx_value) r.(mx_original_priority) r.(mx_hold) r.(mx_owner).
Definition set_mx_value v (r : rt_mutex) : rt_mutex :=
  Mutex
    r.(mx_parent) v r.(mx_original_priority) r.(mx_hold) r.(mx_owner).
Definition set_mx_original_priority v (r : rt_mutex) : rt_mutex :=
  Mutex
    r.(mx_parent) r.(mx_value) v r.(mx_hold) r.(mx_owner).
Definition set_mx_hold v (r : rt_mutex) : rt_mutex :=
  Mutex
    r.(mx_parent) r.(mx_value) r.(mx_original_priority) v r.(mx_owner).
Definition set_mx_owner v (r : rt_mutex) : rt_mutex :=
  Mutex
    r.(mx_parent) r.(mx_value) r.(mx_original_priority) r.(mx_hold) v.
Definition set_ev_parent v (r : rt_event) : rt_event :=
  Event
    v r.(ev_set).
Definition set_ev_set v (r : rt_event) : rt_event :=
  Event
    r.(ev_parent) v.
Definition set_mb_parent v (r : rt_mailbox) : rt_mailbox :=
  Mailbox
    v r.(mb_pool_addr) r.(mb_msg_pool) r.(mb_size) r.(mb_entry) r.(mb_in_offset) r.(mb_out_offset).
Definition set_mb_msg_pool v (r : rt_mailbox) : rt_mailbox :=
  Mailbox
    r.(mb_parent) r.(mb_pool_addr) v r.(mb_size) r.(mb_entry) r.(mb_in_offset) r.(mb_out_offset).
Definition set_mb_entry v (r : rt_mailbox) : rt_mailbox :=
  Mailbox
    r.(mb_parent) r.(mb_pool_addr) r.(mb_msg_pool) r.(mb_size) v r.(mb_in_offset) r.(mb_out_offset).
Definition set_mb_in_offset v (r : rt_mailbox) : rt_mailbox :=
  Mailbox
    r.(mb_parent) r.(mb_pool_addr) r.(mb_msg_pool) r.(mb_size) r.(mb_entry) v r.(mb_out_offset).
Definition set_mb_out_offset v (r : rt_mailbox) : rt_mailbox :=
  Mailbox
    r.(mb_parent) r.(mb_pool_addr) r.(mb_msg_pool) r.(mb_size) r.(mb_entry) r.(mb_in_offset) v.
Definition set_mq_parent v (r : rt_messagequeue) : rt_messagequeue :=
  MessageQueue
    v r.(mq_pool_addr) r.(mq_next) r.(mq_data) r.(mq_msg_size) r.(mq_max_msgs) r.(mq_entry) r.(mq_queue_head)
    r.(mq_queue_tail) r.(mq_queue_free).
Definition set_mq_next v (r : rt_messagequeue) : rt_messagequeue :=
  MessageQueue
    r.(mq_parent) r.(mq_pool_addr) v r.(mq_data) r.(mq_msg_size) r.(mq_max_msgs) r.(mq_entry)
    r.(mq_queue_head) r.(mq_queue_tail) r.(mq_queue_free).
Definition set_mq_data v (r : rt_messagequeue) : rt_messagequeue :=
  MessageQueue
    r.(mq_parent) r.(mq_pool_addr) r.(mq_next) v r.(mq_msg_size) r.(mq_max_msgs) r.(mq_entry)
    r.(mq_queue_head) r.(mq_queue_tail) r.(mq_queue_free).
Definition set_mq_entry v (r : rt_messagequeue) : rt_messagequeue :=
  MessageQueue
    r.(mq_parent) r.(mq_pool_addr) r.(mq_next) r.(mq_data) r.(mq_msg_size) r.(mq_max_msgs) v r.(mq_queue_head)
    r.(mq_queue_tail) r.(mq_queue_free).
Definition set_mq_queue_head v (r : rt_messagequeue) : rt_messagequeue :=
  MessageQueue
    r.(mq_parent) r.(mq_pool_addr) r.(mq_next) r.(mq_data) r.(mq_msg_size) r.(mq_max_msgs) r.(mq_entry) v
    r.(mq_queue_tail) r.(mq_queue_free).
Definition set_mq_queue_tail v (r : rt_messagequeue) : rt_messagequeue :=
  MessageQueue
    r.(mq_parent) r.(mq_pool_addr) r.(mq_next) r.(mq_data) r.(mq_msg_size) r.(mq_max_msgs) r.(mq_entry)
    r.(mq_queue_head) v r.(mq_queue_free).
Definition set_mq_queue_free v (r : rt_messagequeue) : rt_messagequeue :=
  MessageQueue
    r.(mq_parent) r.(mq_pool_addr) r.(mq_next) r.(mq_data) r.(mq_msg_size) r.(mq_max_msgs) r.(mq_entry)
    r.(mq_queue_head) r.(mq_queue_tail) v.
Definition set_mp_parent v (r : rt_mempool) : rt_mempool :=
  Mempool
    v r.(mp_start_address) r.(mp_size) r.(mp_block_size) r.(mp_block_list)
    r.(mp_block_total_count) r.(mp_block_free_count) r.(mp_suspend_thread_count).
Definition set_mp_block_list v (r : rt_mempool) : rt_mempool :=
  Mempool
    r.(mp_parent) r.(mp_start_address) r.(mp_size) r.(mp_block_size) v
    r.(mp_block_total_count) r.(mp_block_free_count) r.(mp_suspend_thread_count).
Definition set_mp_block_free_count v (r : rt_mempool) : rt_mempool :=
  Mempool
    r.(mp_parent) r.(mp_start_address) r.(mp_size) r.(mp_block_size) r.(mp_block_list)
    r.(mp_block_total_count) v r.(mp_suspend_thread_count).
Definition set_mp_suspend_thread_count v (r : rt_mempool) : rt_mempool :=
  Mempool
    r.(mp_parent) r.(mp_start_address) r.(mp_size) r.(mp_block_size) r.(mp_block_list)
    r.(mp_block_total_count) r.(mp_block_free_count) v.
Definition set_dev_parent v (r : rt_device) : rt_device :=
  Device
    v r.(dev_type) r.(dev_flag) r.(dev_open_flag) r.(dev_ref_count) r.(dev_rx_indicate)
    r.(dev_tx_complete) r.(dev_init) r.(dev_open) r.(dev_close) r.(dev_read) r.(dev_write)
    r.(dev_control).
Definition set_dev_flag v (r : rt_device) : rt_device :=
  Device
    r.(dev_parent) r.(dev_type) v r.(dev_open_flag) r.(dev_ref_count) r.(dev_rx_indicate)
    r.(dev_tx_complete) r.(dev_init) r.(dev_open) r.(dev_close) r.(dev_read) r.(dev_write)
    r.(dev_control).
Definition set_dev_open_flag v (r : rt_device) : rt_device :=
  Device
    r.(dev_parent) r.(dev_type) r.(dev_flag) v r.(dev_ref_count) r.(dev_rx_indicate)
    r.(dev_tx_complete) r.(dev_init) r.(dev_open) r.(dev_close) r.(dev_read) r.(dev_write)
    r.(dev_control).
Definition set_dev_ref_count v (r : rt_device) : rt_device :=
  Device
    r.(dev_parent) r.(dev_type) r.(dev_flag) r.(dev_open_flag) v r.(dev_rx_indicate)
    r.(dev_tx_complete) r.(dev_init) r.(dev_open) r.(dev_close) r.(dev_read) r.(dev_write)
    r.(dev_control).
Definition set_dev_rx_indicate v (r : rt_device) : rt_device :=
  Device
    r.(dev_parent) r.(dev_type) r.(dev_flag) r.(dev_open_flag) r.(dev_ref_count) v
    r.(dev_tx_complete) r.(dev_init) r.(dev_open) r.(dev_close) r.(dev_read) r.(dev_write)
    r.(dev_control).
Definition set_dev_tx_complete v (r : rt_device) : rt_device :=
  Device
    r.(dev_parent) r.(dev_type) r.(dev_flag) r.(dev_open_flag) r.(dev_ref_count)
    r.(dev_rx_indicate) v r.(dev_init) r.(dev_open) r.(dev_close) r.(dev_read) r.(dev_write)
    r.(dev_control).
