(* ===== verification/KPrim.v ===== *)
(** * Primitive steps of kernel code

    Interrupt masking and context switching as the Cortex-M4 port does them
    ([libcpu/arm/cortex-m4/context_gcc.S]), dereferencing, the list primitives
    of [rtservice.h] on the kernel's nodes, and the context checks of
    [rtdebug.h].  Everything is written over a [ListStore]. *)
From S2P Require Import Prelude RtList KMonad KState.
Local Open Scope Z_scope.
Local Open Scope kmonad_scope.

Section prim.
Context {L : Type} {St : ListStore loc L}.
Abbreviation K := (M (kst L)).

(** ** Interrupts

    [rt_hw_interrupt_disable]: [MRS r0, PRIMASK; CPSID I]. *)
Definition rt_hw_interrupt_disable : K Z :=
  let! level := gets k_primask in
  modify (set_primask 1) ;!
  ret level.

(** [MSR PRIMASK, r0].  A pending PendSV exception is taken here when
    interrupts become enabled outside interrupt handlers: it saves the context
    of the [from] thread and continues in the [to] thread.  The rest of the
    call runs when [from] is scheduled again. *)
Definition rt_hw_interrupt_enable (level : Z) : K unit := fun s =>
  let s := set_primask level s in
  match s.(k_pendsv) with
  | Some (from, to) =>
      if (level =? 0) && (s.(k_irq_nest) =? 0)
      then Switch from to (set_pendsv None s) (fun s' => Ok tt s')
      else Ok tt s
  | None => Ok tt s
  end.

(** [rt_hw_context_switch] and [rt_hw_context_switch_interrupt] are one routine
    on this port: record the threads and set PendSV pending; if a switch was
    already pending its [from] thread is kept. *)
Definition rt_hw_context_switch (from to : nat) : K unit :=
  modify (fun s => set_pendsv
    (Some (match s.(k_pendsv) with Some (f, _) => f | None => from end, to)) s).

(** ** Dereferencing *)
Definition get_thread (t : nat) : K rt_thread :=
  let! m := gets k_threads in lift_opt Bad_pointer (m !! t).
Definition put_thread (t : nat) (th : rt_thread) : K unit :=
  modify (fun s => set_threads (<[t := th]> s.(k_threads)) s).
Definition upd_thread (t : nat) (f : rt_thread -> rt_thread) : K unit :=
  let! th := get_thread t in put_thread t (f th).

Definition get_timer (tm : timer_id) : K rt_timer :=
  let! m := gets k_timers in lift_opt Bad_pointer (m !! tm).
Definition put_timer (tm : timer_id) (r : rt_timer) : K unit :=
  modify (fun s => set_timers (<[tm := r]> s.(k_timers)) s).
Definition upd_timer (tm : timer_id) (f : rt_timer -> rt_timer) : K unit :=
  let! r := get_timer tm in put_timer tm (f r).

(** [rt_current_thread], where the code dereferences it. *)
Definition rt_thread_self : K (option nat) := gets k_current.
Definition current_deref : K nat :=
  let! c := rt_thread_self in lift_opt Bad_pointer c.

(** ** List primitives on kernel nodes *)
Definition list_op1 (f : L -> option L) : K unit := fun s =>
  match f s.(k_links) with
  | Some l => Ok tt (set_links l s)
  | None => Err Bad_pointer
  end.
Definition list_init (l : loc) : K unit := list_op1 (ls_init l).
Definition list_insert_after (l n : loc) : K unit := list_op1 (ls_insert_after l n).
Definition list_insert_before (l n : loc) : K unit := list_op1 (ls_insert_before l n).
Definition list_remove (n : loc) : K unit := list_op1 (ls_remove n).
Definition list_next (l : loc) : K loc := fun s =>
  lift_opt Bad_pointer (ls_next s.(k_links) l) s.
Definition list_prev (l : loc) : K loc := fun s =>
  lift_opt Bad_pointer (ls_prev s.(k_links) l) s.
Definition list_isempty (l : loc) : K bool := fun s =>
  lift_opt Bad_pointer (rt_list_isempty s.(k_links) l) s.
(** A bound on the rounds of a walk along a list. *)
Definition list_fuel : K nat := gets (fun s => S (ls_size s.(k_links))).

(** [rt_list_entry(node, struct rt_thread, tlist)]: only a [tlist] node is
    embedded in a thread at that offset. *)
Definition thread_entry (n : loc) : K nat :=
  match n with LTlist t => ret t | _ => fail Bad_pointer end.
(** [rt_list_entry(node, struct rt_timer, row[lvl])]. *)
Definition timer_entry (lvl : nat) (n : loc) : K timer_id :=
  match n with
  | LRow tm l => if Nat.eqb l lvl then ret tm else fail Bad_pointer
  | _ => fail Bad_pointer
  end.

(** ** Context checks ([rtdebug.h]) *)
Definition rt_interrupt_get_nest : K Z := gets k_irq_nest.

Definition RT_DEBUG_NOT_IN_INTERRUPT : K unit :=
  let! level := rt_hw_interrupt_disable in
  let! nest := rt_interrupt_get_nest in
  rt_assert (nest =? 0) ;!
  rt_hw_interrupt_enable level.

Definition RT_DEBUG_IN_THREAD_CONTEXT : K unit :=
  let! level := rt_hw_interrupt_disable in
  let! self := rt_thread_self in
  rt_assert (bool_decide (self <> None)) ;!
  RT_DEBUG_NOT_IN_INTERRUPT ;!
  rt_hw_interrupt_enable level.

(** [irq.c] *)
Definition rt_interrupt_enter : K unit :=
  let! level := rt_hw_interrupt_disable in
  modify (fun s => set_irq_nest (u8 (s.(k_irq_nest) + 1)) s) ;!
  rt_hw_interrupt_enable level.

Definition rt_interrupt_leave : K unit :=
  let! level := rt_hw_interrupt_disable in
  modify (fun s => set_irq_nest (u8 (s.(k_irq_nest) - 1)) s) ;!
  rt_hw_interrupt_enable level.

(** [kservice.c]: the error number of the running thread, or [__rt_errno] in an
    interrupt handler and before the first thread runs. *)
Definition rt_get_errno : K Z :=
  let! nest := rt_interrupt_get_nest in
  if negb (nest =? 0) then gets k_errno
  else
    let! tid := rt_thread_self in
    match tid with
    | None => gets k_errno
    | Some tid => let! th := get_thread tid in ret th.(t_error)
    end.

Definition rt_set_errno (error : Z) : K unit :=
  let! nest := rt_interrupt_get_nest in
  if negb (nest =? 0) then modify (set_errno error)
  else
    let! tid := rt_thread_self in
    match tid with
    | None => modify (set_errno error)
    | Some tid => upd_thread tid (set_t_error error)
    end.

(** [_rt_errno] returns the address of the same variable: a thread's error
    number ([Some]) or [__rt_errno] ([None]). *)
Definition _rt_errno : K (option nat) :=
  let! nest := rt_interrupt_get_nest in
  if negb (nest =? 0) then ret None
  else rt_thread_self.

End prim.
