(* ===== verification/KInv.v ===== *)
(** * Kernel states over the list contract

    The component theorems are about states whose lists are kept by the
    contract store of [RtList]: [queue s h xs] says that list head [h] holds
    the nodes [xs].  This file has the typing of the rings (which nodes may be
    linked under which head), how the list operations change queues, and the
    interrupt discipline. *)
From S2P Require Import Prelude RtList KMonad KState KPrim.
Export RtList.
Local Open Scope Z_scope.

Abbreviation vlinks := (gmap loc (list loc)).
Abbreviation kview := (kst vlinks).

(** ** Interrupt discipline

    A switch that is pending while interrupts are enabled outside handlers is
    taken at once, so none is pending in such a state. *)
Definition quiet {L} (s : kst L) : Prop :=
  s.(k_primask) = 0 -> s.(k_irq_nest) = 0 -> s.(k_pendsv) = None.

Lemma interrupt_enable_quiet {L} level (s : kst L) :
  quiet (set_primask level s) -> rt_hw_interrupt_enable level s = Ok tt (set_primask level s).
Proof.
  unfold quiet, rt_hw_interrupt_enable. simpl. intros Hq.
  destruct (k_pendsv s) as [[f t]|]; [|done].
  destruct (Z.eqb_spec level 0) as [->|]; simpl; [|done].
  destruct (Z.eqb_spec (k_irq_nest s) 0); [|done]. by discriminate Hq.
Qed.

Lemma quiet_masked {L} (s : kst L) : k_primask s = 1 -> quiet s.
Proof. unfold quiet. intros -> ?. done. Qed.

Lemma set_primask_id {L} (s : kst L) : set_primask (k_primask s) s = s.
Proof. by destruct s. Qed.

(** ** Heads and members *)
Definition is_head (l : loc) : bool :=
  match l with
  | LReady _ | LDefunct | LTimerHead _ _ | LSuspend _ | LSender _ | LDriver _ | LObjHead _ => true
  | LTlist _ | LRow _ _ | LObj _ => false
  end.

(** Which nodes may be linked under a head. *)
Definition kind_ok (h x : loc) : bool :=
  match h, x with
  | (LReady _ | LDefunct | LSuspend _ | LSender _ | LDriver _), LTlist _ => true
  | LTimerHead _ lvl, LRow _ lvl' => (lvl =? lvl')%nat
  | LObjHead _, LObj _ => true
  | _, _ => false
  end.

Definition typed (V : vlinks) : Prop :=
  forall h xs x, is_head h = true -> V !! h = Some xs -> x ∈ xs -> kind_ok h x = true.

Record links_ok (V : vlinks) : Prop := {
  lo_coherent : coherent V;
  lo_typed : typed V;
}.

Lemma kind_ok_member h x : kind_ok h x = true -> is_head x = false.
Proof. by destruct h, x. Qed.

Lemma head_not_member V h h' xs :
  links_ok V -> is_head h = true -> is_head h' = true -> V !! h = Some xs -> h' ∉ xs.
Proof.
  intros HV Hh Hh' Hxs Hin. pose proof (lo_typed _ HV _ _ _ Hh Hxs Hin) as Hk.
  apply kind_ok_member in Hk. congruence.
Qed.

(** A node is linked under at most one head. *)
Lemma member_unique V h h' xs xs' x :
  links_ok V -> is_head h = true -> is_head h' = true ->
  V !! h = Some xs -> V !! h' = Some xs' -> x ∈ xs -> x ∈ xs' -> h = h'.
Proof.
  intros HV Hh Hh' Hxs Hxs' Hx Hx'.
  destruct (decide (h = h')) as [|Hne]; [done|exfalso].
  destruct (coherent_mem _ _ _ _ (lo_coherent _ HV) Hxs Hx) as [ys Hys].
  pose proof (coherent_sym _ _ _ _ _ (lo_coherent _ HV) Hxs' Hys Hx') as Hin.
  assert (h' ∈ h :: xs) as Hin'.
  { eapply (coherent_same V h xs x ys); [apply HV|done..|]. set_solver. }
  apply elem_of_cons in Hin' as [->|Hin']; [done|].
  by apply (head_not_member _ _ _ _ HV Hh Hh' Hxs Hin').
Qed.

Lemma member_not_loose V h xs x :
  links_ok V -> V !! h = Some xs -> x ∈ xs -> V !! x <> Some [].
Proof.
  intros HV Hh Hx E. pose proof (coherent_sym _ _ _ _ _ (lo_coherent _ HV) Hh E Hx). set_solver.
Qed.

Lemma loose_not_member V h xs x :
  links_ok V -> V !! h = Some xs -> V !! x = Some [] -> x ∉ xs.
Proof. intros HV Hh Hx Hin. by apply (member_not_loose _ _ _ _ HV Hh Hin Hx). Qed.

(** ** List operations on queues *)
Lemma elem_of_ins_before (l n x : loc) ys : x ∈ ins_before l n ys -> x ∈ ys \/ (x = n /\ l ∈ ys).
Proof.
  induction ys as [|y ys IH]; simpl; [set_solver|].
  case_decide; subst; set_solver.
Qed.

Lemma elem_of_ins_after (l n x : loc) ys : x ∈ ins_after l n ys -> x ∈ ys \/ (x = n /\ l ∈ ys).
Proof.
  induction ys as [|y ys IH]; simpl; [set_solver|].
  case_decide; subst; set_solver.
Qed.

(** [changed hs ns V V']: only the queues of the heads [hs] differ, and only the
    nodes [ns] may have stopped being loose. *)
Record changed (hs ns : list loc) (V V' : vlinks) : Prop := {
  ch_heads h : is_head h = true -> h ∉ hs -> V' !! h = V !! h;
  ch_dom x : is_Some (V !! x) -> is_Some (V' !! x);
  ch_loose x : is_head x = false -> x ∉ ns -> V !! x = Some [] -> V' !! x = Some [];
}.

Lemma changed_refl hs ns V : changed hs ns V V.
Proof. by split. Qed.

Lemma changed_trans hs ns hs' ns' V V1 V2 :
  changed hs ns V V1 -> changed hs' ns' V1 V2 -> changed (hs ++ hs') (ns ++ ns') V V2.
Proof.
  intros [A1 A2 A3] [B1 B2 B3]. split.
  - intros h Hh Hn. rewrite B1, A1 by set_solver. done.
  - auto.
  - intros x Hx Hn E. apply B3; [done|set_solver|]. apply A3; [done|set_solver|done].
Qed.

Lemma changed_weaken hs ns hs' ns' V V' :
  changed hs ns V V' -> hs ⊆ hs' -> ns ⊆ ns' -> changed hs' ns' V V'.
Proof. intros [A1 A2 A3] Hh Hn. split; [|done|]; set_solver. Qed.

(** Removing a member: it becomes loose and every other view loses it. *)
Lemma links_remove V n ns :
  links_ok V -> is_head n = false -> V !! n = Some ns ->
  exists V', v_remove n V = Some V' /\ links_ok V' /\ V' !! n = Some [] /\
    forall x, x <> n -> V' !! x = drop_node n <$> V !! x.
Proof.
  intros HV Hn Hns. eexists. split; [unfold v_remove; rewrite Hns; reflexivity|].
  assert (forall x, x <> n -> (<[n:=[]]> (drop_node n <$> V)) !! x = drop_node n <$> V !! x) as HL.
  { intros x Hx. by rewrite lookup_insert_ne, lookup_fmap by done. }
  split; [split|split; [apply lookup_insert_eq|done]].
  - eapply v_remove_coherent; [apply HV|]. unfold v_remove. by rewrite Hns.
  - intros h xs x Hh Hxs Hx. assert (h <> n) by congruence.
    rewrite HL in Hxs by done. destruct (V !! h) as [ys|] eqn:E; [|done].
    injection Hxs as <-. apply elem_of_drop_node in Hx as [Hx _]. by eapply (lo_typed _ HV).
Qed.

(** The queues after a removal: only the queue that held the node changes. *)
Lemma links_remove_queue V n ns :
  links_ok V -> is_head n = false -> V !! n = Some ns ->
  exists V', v_remove n V = Some V' /\ links_ok V' /\ V' !! n = Some [] /\
    (forall h xs, is_head h = true -> V !! h = Some xs -> n ∉ xs -> V' !! h = Some xs) /\
    (forall h A B, is_head h = true -> V !! h = Some (A ++ n :: B) -> V' !! h = Some (A ++ B)) /\
    (forall hs, (forall h xs, is_head h = true -> V !! h = Some xs -> n ∈ xs -> h ∈ hs) ->
      changed hs [] V V').
Proof.
  intros HV Hn Hns. destruct (links_remove V n ns HV Hn Hns) as (V' & E & HV' & H1 & H2).
  assert (forall h xs, is_head h = true -> V !! h = Some xs -> n ∉ xs -> V' !! h = Some xs) as H3.
  { intros h xs Hh Hxs Hnx. rewrite H2, Hxs by congruence. simpl. by rewrite drop_node_notin. }
  exists V'. split; [done|]. split; [done|]. split; [done|]. split; [done|]. split.
  - intros h A B Hh Hxs. rewrite H2, Hxs by congruence. simpl.
    pose proof (coherent_nodup _ _ _ (lo_coherent _ HV) Hxs) as Hnd.
    apply NoDup_app in Hnd as (_ & HA & [HB _]%NoDup_cons).
    rewrite drop_node_split; [done| |done]. intros HnA. apply (HA n HnA). set_solver.
  - intros hs Hhs. split.
    + intros h Hh Hn'. destruct (V !! h) as [xs|] eqn:E'; [|rewrite H2, E' by congruence; done].
      apply H3; [done..|]. intros Hin. by eapply Hn', Hhs.
    + intros x [xs Hx]. destruct (decide (x = n)) as [->|Hxn]; [by rewrite H1|]. by rewrite H2, Hx.
    + intros x _ _ Hx. destruct (decide (x = n)) as [->|Hxn]; [done|]. by rewrite H2, Hx.
Qed.

(** Inserting a loose member at the end of a queue. *)
Lemma links_append V h n xs :
  links_ok V -> is_head h = true -> V !! h = Some xs -> V !! n = Some [] -> kind_ok h n = true ->
  exists V', v_insert_before h n V = Some V' /\ links_ok V' /\ V' !! h = Some (xs ++ [n]) /\
    changed [h] [n] V V'.
Proof.
  intros HV Hh Hxs Hn Hk.
  assert (n <> h) as Hnh by (intros ->; apply kind_ok_member in Hk; congruence).
  assert (v_insert_before h n V =
    Some (<[n := h :: xs]> (<[h := xs ++ [n]]> (ins_before h n <$> V)))) as E.
  { unfold v_insert_before, v_loose. rewrite Hxs, Hn. simpl. by rewrite bool_decide_true. }
  eexists. split; [exact E|].
  assert (forall x, x <> n -> x <> h ->
    (<[n:=h :: xs]> (<[h:=xs ++ [n]]> (ins_before h n <$> V))) !! x = ins_before h n <$> V !! x) as HL.
  { intros x Hx Hx'. by rewrite !lookup_insert_ne, lookup_fmap by done. }
  assert (forall h', is_head h' = true -> h' <> h ->
    (<[n:=h :: xs]> (<[h:=xs ++ [n]]> (ins_before h n <$> V))) !! h' = V !! h') as HH.
  { intros h' Hh' Hne. assert (h' <> n) by (apply kind_ok_member in Hk; congruence).
    rewrite HL by done. destruct (V !! h') as [ys|] eqn:E'; [|done]. simpl.
    rewrite ins_before_notin; [done|]. by apply (head_not_member V h'). }
  split; [split|].
  - eapply v_insert_before_coherent; [apply HV|exact E].
  - intros h' ys x Hh' Hys Hx. destruct (decide (h' = h)) as [->|Hne].
    + rewrite lookup_insert_ne, lookup_insert_eq in Hys by done. injection Hys as <-.
      apply elem_of_app in Hx as [Hx|Hx]; [by eapply (lo_typed _ HV)|].
      apply list_elem_of_singleton in Hx as ->. done.
    + rewrite HH in Hys by done. by eapply (lo_typed _ HV).
  - split; [by rewrite lookup_insert_ne, lookup_insert_eq by done|]. split.
    + intros h' Hh' Hne. apply HH; set_solver.
    + intros x Hx. destruct (decide (x = n)) as [->|]; [by rewrite lookup_insert_eq|].
      destruct (decide (x = h)) as [->|]; [by rewrite lookup_insert_ne, lookup_insert_eq by done|].
      rewrite HL by done. by rewrite fmap_is_Some.
    + intros x Hx Hx' E'. rewrite HL, E'; [done|set_solver|congruence].
Qed.

(** Inserting a loose member at the front of a queue. *)
Lemma links_push V h n xs :
  links_ok V -> is_head h = true -> V !! h = Some xs -> v_loose V n = true -> kind_ok h n = true ->
  exists V', v_insert_after h n V = Some V' /\ links_ok V' /\ V' !! h = Some (n :: xs) /\
    changed [h] [n] V V'.
Proof.
  intros HV Hh Hxs Hn Hk.
  assert (n <> h) as Hnh by (intros ->; apply kind_ok_member in Hk; congruence).
  assert (v_insert_after h n V =
    Some (<[n := xs ++ [h]]> (<[h := n :: xs]> (ins_after h n <$> V)))) as E.
  { unfold v_insert_after. rewrite Hxs, Hn. simpl. by rewrite bool_decide_true. }
  eexists. split; [exact E|].
  assert (forall x, x <> n -> x <> h ->
    (<[n:=xs ++ [h]]> (<[h:=n :: xs]> (ins_after h n <$> V))) !! x = ins_after h n <$> V !! x) as HL.
  { intros x Hx Hx'. by rewrite !lookup_insert_ne, lookup_fmap by done. }
  assert (forall h', is_head h' = true -> h' <> h ->
    (<[n:=xs ++ [h]]> (<[h:=n :: xs]> (ins_after h n <$> V))) !! h' = V !! h') as HH.
  { intros h' Hh' Hne. assert (h' <> n) by (apply kind_ok_member in Hk; congruence).
    rewrite HL by done. destruct (V !! h') as [ys|] eqn:E'; [|done]. simpl.
    rewrite ins_after_notin; [done|]. by apply (head_not_member V h'). }
  split; [split|].
  - eapply v_insert_after_coherent; [apply HV|exact E].
  - intros h' ys x Hh' Hys Hx. destruct (decide (h' = h)) as [->|Hne].
    + rewrite lookup_insert_ne, lookup_insert_eq in Hys by done. injection Hys as <-.
      apply elem_of_cons in Hx as [->|Hx]; [done|]. by eapply (lo_typed _ HV).
    + rewrite HH in Hys by done. by eapply (lo_typed _ HV).
  - split; [by rewrite lookup_insert_ne, lookup_insert_eq by done|]. split.
    + intros h' Hh' Hne. apply HH; set_solver.
    + intros x Hx. destruct (decide (x = n)) as [->|]; [by rewrite lookup_insert_eq|].
      destruct (decide (x = h)) as [->|]; [by rewrite lookup_insert_ne, lookup_insert_eq by done|].
      rewrite HL by done. by rewrite fmap_is_Some.
    + intros x Hx Hx' E'. rewrite HL, E'; [done|set_solver|congruence].
Qed.

(** Inserting a loose member beside a member of a queue. *)
Section beside.
Context (V : vlinks) (h l n : loc) (A B : list loc).
Hypothesis HV : links_ok V.
Hypothesis Hh : is_head h = true.
Hypothesis Hxs : V !! h = Some (A ++ l :: B).
Hypothesis Hn : V !! n = Some [].
Hypothesis Hk : kind_ok h n = true.

Let Hl_member : is_head l = false.
Proof.
  eapply kind_ok_member, (lo_typed _ HV); [exact Hh|exact Hxs|set_solver].
Qed.

Let Hnl : n <> l.
Proof. intros <-. eapply (loose_not_member V h); [done..|]. set_solver. Qed.

Let Hl_A : l ∉ A.
Proof.
  pose proof (coherent_nodup _ _ _ (lo_coherent _ HV) Hxs) as Hnd.
  apply NoDup_app in Hnd as (_ & HA & _). intros Hin. apply (HA l Hin). set_solver.
Qed.

Let Hn_head : is_head n = false.
Proof. by eapply kind_ok_member. Qed.

Let other_head h' ys : is_head h' = true -> h' <> h -> V !! h' = Some ys -> l ∉ ys.
Proof.
  intros Hh' Hne Hys Hin. apply Hne.
  eapply (member_unique V h' h ys (A ++ l :: B) l); try done. set_solver.
Qed.

Lemma links_insert_before_member :
  exists V', v_insert_before l n V = Some V' /\ links_ok V' /\ V' !! h = Some (A ++ n :: l :: B) /\
    changed [h] [n] V V'.
Proof using All.
  pose proof (coherent_split _ _ _ _ _ (lo_coherent _ HV) Hxs) as Hl.
  assert (v_insert_before l n V =
    Some (<[n := l :: B ++ h :: A]> (<[l := (B ++ h :: A) ++ [n]]> (ins_before l n <$> V)))) as E.
  { unfold v_insert_before, v_loose. rewrite Hl, Hn. simpl. by rewrite bool_decide_true. }
  eexists. split; [exact E|]. set (V' := <[n := _]> _).
  assert (forall x, x <> n -> x <> l -> V' !! x = ins_before l n <$> V !! x) as HL.
  { intros x Hx Hx'. unfold V'. by rewrite !lookup_insert_ne, lookup_fmap by done. }
  assert (V' !! h = Some (A ++ n :: l :: B)) as Hq.
  { rewrite HL by congruence. rewrite Hxs. simpl. by rewrite ins_before_split. }
  assert (forall h', is_head h' = true -> h' <> h -> V' !! h' = V !! h') as HH.
  { intros h' Hh' Hne. rewrite HL by congruence. destruct (V !! h') as [ys|] eqn:E'; [|done].
    simpl. rewrite ins_before_notin; [done|]. by apply (other_head h'). }
  split; [split|split; [done|split]].
  - eapply v_insert_before_coherent; [apply HV|exact E].
  - intros h' ys x Hh' Hys Hx. destruct (decide (h' = h)) as [->|Hne].
    + rewrite Hq in Hys. injection Hys as <-. destruct (decide (x = n)) as [->|]; [done|].
      eapply (lo_typed _ HV); [done|exact Hxs|]. set_solver.
    + rewrite HH in Hys by done. by eapply (lo_typed _ HV).
  - intros h' Hh' Hne. apply HH; set_solver.
  - intros x Hx. unfold V'. destruct (decide (x = n)) as [->|]; [by rewrite lookup_insert_eq|].
    destruct (decide (x = l)) as [->|]; [by rewrite lookup_insert_ne, lookup_insert_eq by done|].
    fold V'. rewrite HL by done. by rewrite fmap_is_Some.
  - intros x _ Hx E'. destruct (decide (x = l)) as [->|]; [|by rewrite HL, E' by set_solver].
    rewrite Hl in E'. by destruct B.
Qed.

Lemma links_insert_after_member :
  exists V', v_insert_after l n V = Some V' /\ links_ok V' /\ V' !! h = Some (A ++ l :: n :: B) /\
    changed [h] [n] V V'.
Proof using All.
  pose proof (coherent_split _ _ _ _ _ (lo_coherent _ HV) Hxs) as Hl.
  assert (v_insert_after l n V =
    Some (<[n := (B ++ h :: A) ++ [l]]> (<[l := n :: B ++ h :: A]> (ins_after l n <$> V)))) as E.
  { unfold v_insert_after, v_loose. rewrite Hl, Hn. simpl. by rewrite bool_decide_true. }
  eexists. split; [exact E|]. set (V' := <[n := _]> _).
  assert (forall x, x <> n -> x <> l -> V' !! x = ins_after l n <$> V !! x) as HL.
  { intros x Hx Hx'. unfold V'. by rewrite !lookup_insert_ne, lookup_fmap by done. }
  assert (V' !! h = Some (A ++ l :: n :: B)) as Hq.
  { rewrite HL by congruence. rewrite Hxs. simpl. by rewrite ins_after_split. }
  assert (forall h', is_head h' = true -> h' <> h -> V' !! h' = V !! h') as HH.
  { intros h' Hh' Hne. rewrite HL by congruence. destruct (V !! h') as [ys|] eqn:E'; [|done].
    simpl. rewrite ins_after_notin; [done|]. by apply (other_head h'). }
  split; [split|split; [done|split]].
  - eapply v_insert_after_coherent; [apply HV|exact E].
  - intros h' ys x Hh' Hys Hx. destruct (decide (h' = h)) as [->|Hne].
    + rewrite Hq in Hys. injection Hys as <-. destruct (decide (x = n)) as [->|]; [done|].
      eapply (lo_typed _ HV); [done|exact Hxs|]. set_solver.
    + rewrite HH in Hys by done. by eapply (lo_typed _ HV).
  - intros h' Hh' Hne. apply HH; set_solver.
  - intros x Hx. unfold V'. destruct (decide (x = n)) as [->|]; [by rewrite lookup_insert_eq|].
    destruct (decide (x = l)) as [->|]; [by rewrite lookup_insert_ne, lookup_insert_eq by done|].
    fold V'. rewrite HL by done. by rewrite fmap_is_Some.
  - intros x _ Hx E'. destruct (decide (x = l)) as [->|]; [|by rewrite HL, E' by set_solver].
    rewrite Hl in E'. by destruct B.
Qed.
End beside.

(** Walking a queue: the successor of a node in the [next] and [prev] order. *)
Lemma queue_next_head (V : vlinks) h xs : V !! h = Some xs -> v_next V h = Some (default h (head xs)).
Proof. intros Hx. unfold v_next. by rewrite Hx. Qed.

Lemma queue_next_member (V : vlinks) h A x B :
  coherent V -> V !! h = Some (A ++ x :: B) -> v_next V x = Some (default h (head B)).
Proof.
  intros HV Hx. unfold v_next. rewrite (coherent_split _ _ _ _ _ HV Hx). by destruct B.
Qed.

Lemma queue_prev_head (V : vlinks) h xs : V !! h = Some xs -> v_prev V h = Some (default h (last xs)).
Proof. intros Hx. unfold v_prev. by rewrite Hx. Qed.

Lemma queue_isempty (V : vlinks) h xs :
  coherent V -> V !! h = Some xs -> rt_list_isempty V h = Some (bool_decide (xs = [])).
Proof.
  intros HV Hx. unfold rt_list_isempty. simpl. rewrite (queue_next_head _ _ _ Hx). simpl. f_equal.
  pose proof (coherent_notin _ _ _ HV Hx) as Hn. destruct xs as [|x xs]; simpl.
  - by rewrite !bool_decide_true.
  - rewrite (bool_decide_false (x = h)) by set_solver. done.
Qed.
