(* ===== verification/Scheduler.v ===== *)
(** * [scheduler.c]: ready queues, priority bitmap, rescheduling

    The operations, then their theorems.  The abstract state of the scheduler is
    a function [Q] from priorities to the sequence of ready threads
    ([sched_inv]); the operations refine the obvious functions on it. *)
From S2P Require Import Prelude Kservice RtList KMonad KState KPrim KInv.
Local Open Scope Z_scope.
Local Open Scope kmonad_scope.

Module Scheduler.
Import Kservice.

Section ops.
Context {L : Type} {St : ListStore loc L}.
Abbreviation K := (M (kst L)).

(** [_rt_scheduler_stack_check]: on overflow the message is printed and the
    processor spins while the interrupt level it found is not 0. *)
Definition rt_scheduler_stack_check (thread : nat) : K unit :=
  let! th := get_thread thread in
  if negb (th.(t_stack_mark) =? 35 (* '#' *)) ||
     (u32 th.(t_sp) <=? u32 th.(t_stack_addr)) ||
     (u32 (th.(t_stack_addr) + th.(t_stack_size)) <? u32 th.(t_sp))
  then
    let! level := rt_hw_interrupt_disable in
    if level =? 0 then ret tt else fail Hang
  else ret tt.

(** [rt_system_scheduler_init]. *)
Definition rt_system_scheduler_init : K unit :=
  modify (set_lock_nest 0) ;!
  (fix go (ps : list nat) : K unit :=
     match ps with
     | [] => ret tt
     | p :: ps => list_init (LReady (Z.of_nat p)) ;! go ps
     end) (seq 0 (Z.to_nat RT_THREAD_PRIORITY_MAX)) ;!
  modify (set_current_priority (u8 (RT_THREAD_PRIORITY_MAX - 1))) ;!
  modify (set_current None) ;!
  modify (set_ready_group 0) ;!
  modify (set_ready_table (replicate 32 0)) ;!
  list_init LDefunct.

(** [__rt_ffs] on the ready group, then on the byte it selects. *)
Definition highest_ready_priority : K Z :=
  let! group := gets k_ready_group in
  let number := u32 (rt_ffs (i32 group) - 1) in
  let! table := gets k_ready_table in
  let! byte := lift_opt Bad_pointer (table !! Z.to_nat number) in
  ret (u32 (Z.shiftl number 3 + rt_ffs byte - 1)).

(** The thread at the head of the highest non-empty ready queue. *)
Definition highest_ready_thread (prio : Z) : K nat :=
  let! n := list_next (LReady prio) in
  thread_entry n.

(** [rt_system_scheduler_start]: [rt_hw_context_switch_to] never returns; the
    state is the one in which the first thread starts. *)
Definition rt_system_scheduler_start : K nat :=
  let! prio := highest_ready_priority in
  let! to_thread := highest_ready_thread prio in
  modify (set_current (Some to_thread)) ;!
  modify (set_pendsv None) ;!
  modify (set_primask 0) ;!
  ret to_thread.

(** [rt_schedule]. *)
Definition rt_schedule : K unit :=
  let! level := rt_hw_interrupt_disable in
  let! lock_nest := gets k_lock_nest in
  if lock_nest =? 0 then
    let! prio := highest_ready_priority in
    let! to_thread := highest_ready_thread prio in
    let! current := rt_thread_self in
    if bool_decide (Some to_thread <> current) then
      modify (set_current_priority (u8 prio)) ;!
      let! from_thread := rt_thread_self in
      modify (set_current (Some to_thread)) ;!
      rt_scheduler_stack_check to_thread ;!
      let! from := lift_opt Bad_pointer from_thread in
      (* both arms of [if (rt_interrupt_nest == 0)] reach the same routine *)
      rt_hw_context_switch from to_thread ;!
      rt_hw_interrupt_enable level
    else rt_hw_interrupt_enable level
  else rt_hw_interrupt_enable level.

(** [rt_schedule_insert_thread]. *)
Definition rt_schedule_insert_thread (thread : nat) : K unit :=
  let! temp := rt_hw_interrupt_disable in
  upd_thread thread (fun th => set_t_stat
    (Z.lor RT_THREAD_READY (Z.land th.(t_stat) (Z.lnot RT_THREAD_STAT_MASK))) th) ;!
  let! th := get_thread thread in
  list_insert_before (LReady th.(t_current_priority)) (LTlist thread) ;!
  let! table := gets k_ready_table in
  let! byte := lift_opt Bad_pointer (table !! Z.to_nat th.(t_number)) in
  modify (set_ready_table (<[Z.to_nat th.(t_number) := Z.lor byte th.(t_high_mask)]> table)) ;!
  modify (fun s => set_ready_group (Z.lor s.(k_ready_group) th.(t_number_mask)) s) ;!
  rt_hw_interrupt_enable temp.

(** [rt_schedule_remove_thread]. *)
Definition rt_schedule_remove_thread (thread : nat) : K unit :=
  let! temp := rt_hw_interrupt_disable in
  let! th := get_thread thread in
  list_remove (LTlist thread) ;!
  let! empty := list_isempty (LReady th.(t_current_priority)) in
  (if empty : bool then
     let! table := gets k_ready_table in
     let! byte := lift_opt Bad_pointer (table !! Z.to_nat th.(t_number)) in
     let byte := Z.land byte (Z.lnot th.(t_high_mask)) in
     modify (set_ready_table (<[Z.to_nat th.(t_number) := byte]> table)) ;!
     if byte =? 0
     then modify (fun s => set_ready_group
            (Z.land s.(k_ready_group) (Z.lnot th.(t_number_mask))) s)
     else ret tt
   else ret tt) ;!
  rt_hw_interrupt_enable temp.

(** [rt_enter_critical], [rt_exit_critical], [rt_critical_level]. *)
Definition rt_enter_critical : K unit :=
  let! level := rt_hw_interrupt_disable in
  modify (fun s => set_lock_nest (i16 (s.(k_lock_nest) + 1)) s) ;!
  rt_hw_interrupt_enable level.

Definition rt_exit_critical : K unit :=
  let! level := rt_hw_interrupt_disable in
  modify (fun s => set_lock_nest (i16 (s.(k_lock_nest) - 1)) s) ;!
  let! nest := gets k_lock_nest in
  if nest <=? 0 then
    modify (set_lock_nest 0) ;!
    rt_hw_interrupt_enable level ;!
    rt_schedule
  else rt_hw_interrupt_enable level.

Definition rt_critical_level : K Z := let! n := gets k_lock_nest in ret (u16 n).

End ops.

(** ** The bitmap against the ready queues *)
Definition q_set (Q : Z -> list nat) (p : Z) (q : list nat) : Z -> list nat :=
  fun p' => if decide (p' = p) then q else Q p'.

(** Bit [k] of byte [n] says whether queue [8 n + k] has a thread, bit [n] of
    the group whether byte [n] is non-zero. *)
Record bitmap_ok (table : list Z) (group : Z) (Q : Z -> list nat) : Prop := {
  bm_len : length table = 32%nat;
  bm_group_range : 0 <= group < 2 ^ 32;
  bm_range n b : table !! n = Some b -> 0 <= b < 2 ^ 8;
  bm_byte n b k : table !! n = Some b -> 0 <= k < 8 ->
    Z.testbit b k = bool_decide (Q (8 * Z.of_nat n + k) <> []);
  bm_group n b : table !! n = Some b ->
    Z.testbit group (Z.of_nat n) = bool_decide (b <> 0);
}.

(** The fields the scheduler reads from a thread agree with its priority. *)
Record attr_ok (th : rt_thread) : Prop := {
  at_range : 0 <= th.(t_current_priority) < 256;
  at_number : th.(t_number) = Z.shiftr th.(t_current_priority) 3;
  at_number_mask : th.(t_number_mask) = Z.shiftl 1 th.(t_number);
  at_high_mask : th.(t_high_mask) = Z.shiftl 1 (Z.land th.(t_current_priority) 7);
}.

Lemma prio_split p : 0 <= p < 256 ->
  0 <= Z.shiftr p 3 < 32 /\ 0 <= Z.land p 7 < 8 /\ p = 8 * Z.shiftr p 3 + Z.land p 7.
Proof.
  intros Hp. rewrite Z.shiftr_div_pow2 by lia. change 7 with (Z.ones 3).
  rewrite Z.land_ones by lia. pose proof (Z.div_mod p (2 ^ 3)).
  pose proof (Z.mod_pos_bound p (2 ^ 3)). change (2 ^ 3) with 8 in *.
  pose proof (Z.div_lt_upper_bound p 8 32). pose proof (Z.div_pos p 8). lia.
Qed.

Lemma prio_index n k n' k' :
  0 <= k < 8 -> 0 <= k' < 8 -> 8 * n + k = 8 * n' + k' -> n = n' /\ k = k'.
Proof. lia. Qed.

Lemma bitmap_byte table group Q n :
  bitmap_ok table group Q -> 0 <= n < 32 -> exists b, table !! Z.to_nat n = Some b.
Proof.
  intros HB Hn. destruct (table !! Z.to_nat n) as [b|] eqn:E; [eauto|].
  apply lookup_ge_None in E. rewrite (bm_len _ _ _ HB) in E. lia.
Qed.

Section bitmap_update.
Context (table : list Z) (group : Z) (Q : Z -> list nat) (n k b : Z).
Hypothesis HB : bitmap_ok table group Q.
Hypothesis Hn : 0 <= n < 32.
Hypothesis Hk : 0 <= k < 8.
Hypothesis Hb : table !! Z.to_nat n = Some b.

(** A queue that gets a thread: set both bits. *)
Lemma bitmap_set q : q <> [] ->
  bitmap_ok (<[Z.to_nat n := Z.lor b (Z.shiftl 1 k)]> table) (Z.lor group (Z.shiftl 1 n))
    (q_set Q (8 * n + k) q).
Proof using All.
  intros Hq. pose proof (bm_range _ _ _ HB _ _ Hb) as Hbr.
  assert (0 <= Z.shiftl 1 k < 2 ^ 8).
  { rewrite Z.shiftl_1_l. split; [lia|]. apply Z.pow_lt_mono_r; lia. }
  assert (0 <= Z.shiftl 1 n < 2 ^ 32).
  { rewrite Z.shiftl_1_l. split; [lia|]. apply Z.pow_lt_mono_r; lia. }
  split.
  - rewrite length_insert. apply HB.
  - apply lor_range; [lia|apply HB|done].
  - intros m c Hm. apply list_lookup_insert_Some in Hm as [(<- & <- & _)|[_ Hm]];
      [apply lor_range; [lia|done|done]|by eapply HB].
  - intros m c j Hm Hj. apply list_lookup_insert_Some in Hm as [(<- & <- & _)|[Hne Hm]].
    + rewrite Z.lor_spec, testbit_pow2 by lia. rewrite (bm_byte _ _ _ HB _ _ j Hb Hj).
      unfold q_set. rewrite Z2Nat.id by lia. destruct (decide (j = k)) as [->|Hjk].
      * rewrite decide_True by done. rewrite (bool_decide_true (k = k)) by done.
        rewrite orb_true_r. by rewrite bool_decide_true.
      * rewrite decide_False by lia. rewrite (bool_decide_false (j = k)) by done.
        by rewrite orb_false_r.
    + rewrite (bm_byte _ _ _ HB _ _ j Hm Hj). unfold q_set. rewrite decide_False; [done|]. lia.
  - intros m c Hm. rewrite Z.lor_spec, testbit_pow2 by lia.
    apply list_lookup_insert_Some in Hm as [(<- & <- & _)|[Hne Hm]].
    + rewrite Z2Nat.id, (bool_decide_true (n = n)), orb_true_r by lia.
      rewrite bool_decide_true; [done|]. intros E.
      assert (Z.testbit (Z.lor b (Z.shiftl 1 k)) k = false) as E' by (rewrite E; apply Z.testbit_0_l).
      rewrite Z.lor_spec, testbit_pow2, bool_decide_true, orb_true_r in E' by lia. done.
    + rewrite (bm_group _ _ _ HB _ _ Hm), (bool_decide_false (_ = n)) by lia.
      by rewrite orb_false_r.
Qed.

(** A queue that changes without becoming empty or non-empty. *)
Lemma bitmap_same q : (q = [] <-> Q (8 * n + k) = []) ->
  bitmap_ok table group (q_set Q (8 * n + k) q).
Proof using All.
  intros Hq. split; try apply HB.
  intros m c j Hm Hj. rewrite (bm_byte _ _ _ HB _ _ j Hm Hj). unfold q_set.
  destruct (decide (8 * Z.of_nat m + j = 8 * n + k)) as [->|]; [|done].
  apply bool_decide_ext. tauto.
Qed.

(** A queue that runs empty: clear its bit, and the group bit with the last. *)
Lemma bitmap_clear :
  let b' := Z.land b (Z.lnot (Z.shiftl 1 k)) in
  bitmap_ok (<[Z.to_nat n := b']> table)
    (if b' =? 0 then Z.land group (Z.lnot (Z.shiftl 1 n)) else group)
    (q_set Q (8 * n + k) []).
Proof using All.
  intros b'. pose proof (bm_range _ _ _ HB _ _ Hb) as Hbr.
  assert (0 <= b' < 2 ^ 8) as Hb' by (apply land_lnot_range; lia).
  assert (forall j, 0 <= j < 8 -> Z.testbit b' j = Z.testbit b j && bool_decide (j <> k)) as Hbit.
  { intros j Hj. unfold b'. rewrite Z.land_spec, Z.lnot_spec, testbit_pow2 by lia.
    f_equal. destruct (decide (j = k)); [by rewrite bool_decide_true, bool_decide_false by naive_solver|].
    by rewrite bool_decide_false, bool_decide_true by done. }
  split.
  - rewrite length_insert. apply HB.
  - destruct (b' =? 0); [apply land_lnot_range; [lia|]|]; apply HB.
  - intros m c Hm. apply list_lookup_insert_Some in Hm as [(<- & <- & _)|[_ Hm]];
      [done|by eapply HB].
  - intros m c j Hm Hj. unfold q_set.
    apply list_lookup_insert_Some in Hm as [(<- & <- & _)|[Hne Hm]].
    + rewrite Z2Nat.id, Hbit, (bm_byte _ _ _ HB _ _ j Hb Hj), Z2Nat.id by lia.
      destruct (decide (j = k)) as [->|Hjk].
      * rewrite decide_True by done. rewrite (bool_decide_false (k <> k)), andb_false_r by naive_solver.
        by rewrite bool_decide_false by naive_solver.
      * rewrite decide_False by lia. by rewrite (bool_decide_true (j <> k)), andb_true_r.
    + rewrite decide_False by lia. by apply (bm_byte _ _ _ HB).
  - intros m c Hm. apply list_lookup_insert_Some in Hm as [(<- & <- & _)|[Hne Hm]].
    + destruct (Z.eqb_spec b' 0) as [Hz|Hz].
      * rewrite (bool_decide_false (b' <> 0)) by naive_solver.
        rewrite Z.land_spec, Z.lnot_spec, testbit_pow2, Z2Nat.id, bool_decide_true by lia.
        apply andb_false_r.
      * rewrite (bm_group _ _ _ HB _ _ Hb). rewrite !bool_decide_true; [done|done|].
        intros E. apply Hz. unfold b'. by rewrite E, Z.land_0_l.
    + rewrite <-(bm_group _ _ _ HB _ _ Hm). destruct (b' =? 0); [|done].
      rewrite Z.land_spec, Z.lnot_spec, testbit_pow2, bool_decide_false by lia.
      apply andb_true_r.
Qed.
End bitmap_update.


(** ** Finding the highest priority *)
Lemma testbit_i32 x n : 0 <= n < 32 -> Z.testbit (i32 x) n = Z.testbit x n.
Proof.
  intros Hn. rewrite <-(Z.mod_pow2_bits_low (i32 x) 32), <-(Z.mod_pow2_bits_low x 32) by lia.
  f_equal. unfold i32. rewrite Zminus_mod_idemp_l. f_equal. lia.
Qed.

(** [p] is the highest priority (the lowest number) with a ready thread. *)
Definition is_highest (Q : Z -> list nat) (p : Z) : Prop :=
  0 <= p < 256 /\ Q p <> [] /\ forall p', 0 <= p' < p -> Q p' = [].

Lemma bitmap_highest table group Q p :
  bitmap_ok table group Q -> is_highest Q p ->
  exists b, u32 (rt_ffs (i32 group) - 1) = Z.shiftr p 3 /\
    table !! Z.to_nat (Z.shiftr p 3) = Some b /\
    u32 (Z.shiftl (Z.shiftr p 3) 3 + rt_ffs b - 1) = p.
Proof.
  intros HB (Hp & HQ & Hmin). destruct (prio_split p Hp) as (Hn & Hk & Ep).
  set (n := Z.shiftr p 3) in *. set (k := Z.land p 7) in *.
  destruct (bitmap_byte _ _ _ n HB Hn) as [b Hb]. exists b.
  assert (forall j, 0 <= j < 8 -> Z.testbit b j = bool_decide (Q (8 * n + j) <> [])) as Hbit.
  { intros j Hj. rewrite (bm_byte _ _ _ HB _ _ j Hb Hj). by rewrite Z2Nat.id by lia. }
  assert (Z.testbit b k = true) as Hbk by (rewrite Hbit, <-Ep by lia; by apply bool_decide_true).
  assert (b <> 0) as Hb0 by (intros ->; by rewrite Z.testbit_0_l in Hbk).
  destruct (rt_ffs_lowest b) as [Hlb Hrb]; [exists k; split; [lia|done]|].
  assert (rt_ffs b - 1 = k) as Ek.
  { apply (lowest_bit_unique b); [done|]. split; [lia|]. split; [done|]. intros j Hj.
    rewrite Hbit by lia. apply bool_decide_false. intros Hne. apply Hne, Hmin. lia. }
  assert (Z.testbit (i32 group) n = true) as Hgn.
  { rewrite testbit_i32 by lia. rewrite <-(Z2Nat.id n) by lia.
    rewrite (bm_group _ _ _ HB _ _ Hb). by apply bool_decide_true. }
  destruct (rt_ffs_lowest (i32 group)) as [Hlg Hrg]; [exists n; done|].
  assert (rt_ffs (i32 group) - 1 = n) as En.
  { apply (lowest_bit_unique (i32 group)); [done|]. split; [lia|]. split; [done|]. intros m Hm.
    rewrite testbit_i32 by lia. destruct (bitmap_byte _ _ _ m HB ltac:(lia)) as [c Hc].
    rewrite <-(Z2Nat.id m) by lia. rewrite (bm_group _ _ _ HB _ _ Hc).
    apply bool_decide_false. intros Hne. apply Hne. apply (word_zero_bits c 8); [lia|by eapply HB|].
    intros j Hj. rewrite (bm_byte _ _ _ HB _ _ j Hc Hj), Z2Nat.id by lia.
    apply bool_decide_false. intros Hne'. apply Hne', Hmin. lia. }
  rewrite En, u32_small by lia. split; [done|]. split; [done|].
  rewrite Z.shiftl_mul_pow2 by lia. rewrite u32_small; lia.
Qed.

(** ** The scheduler invariant *)
Record sched_inv (s : kview) (Q : Z -> list nat) : Prop := {
  si_links : links_ok s.(k_links);
  si_queue p : 0 <= p < 256 -> s.(k_links) !! LReady p = Some (LTlist <$> Q p);
  si_bitmap : bitmap_ok s.(k_ready_table) s.(k_ready_group) Q;
}.

(** The three fields the queue operations write. *)
Definition sched_upd (V : vlinks) (table : list Z) (group : Z) (s : kview) : kview :=
  set_ready_group group (set_ready_table table (set_links V s)).

Definition make_ready (th : rt_thread) : rt_thread :=
  set_t_stat (Z.lor RT_THREAD_READY (Z.land th.(t_stat) (Z.lnot RT_THREAD_STAT_MASK))) th.

Lemma insert_thread_ok s Q t th :
  sched_inv s Q -> quiet s -> k_threads s !! t = Some th -> attr_ok th ->
  k_links s !! LTlist t = Some [] ->
  exists V T G,
    let p := t_current_priority th in
    let s' := sched_upd V T G (set_threads (<[t := make_ready th]> (k_threads s)) s) in
    rt_schedule_insert_thread t s = Ok tt s' /\
    sched_inv s' (q_set Q p (Q p ++ [t])) /\
    changed [LReady p] [LTlist t] (k_links s) V.
Proof.
  intros HI Hq Ht Ha Hl. set (p := t_current_priority th).
  destruct (prio_split p (at_range _ Ha)) as (Hn & Hk & Ep).
  destruct (links_append (k_links s) (LReady p) (LTlist t) (LTlist <$> Q p))
    as (V & E & HV & Hh & Hch); [apply HI|done|by apply HI, Ha|done|done|].
  destruct (bitmap_byte _ _ _ _ (si_bitmap _ _ HI) Hn) as [b Hb].
  exists V, (<[Z.to_nat (t_number th) := Z.lor b (t_high_mask th)]> (k_ready_table s)),
    (Z.lor (k_ready_group s) (t_number_mask th)).
  intros p' s'. change p' with p. clear p'. split; [|split; [split|done]].
  - unfold rt_schedule_insert_thread, upd_thread, get_thread, put_thread, list_insert_before,
      list_op1, rt_hw_interrupt_disable, bind, gets, modify, ret. simpl.
    rewrite Ht. simpl. rewrite lookup_insert_eq. simpl. fold p. rewrite E. simpl.
    rewrite (at_number _ Ha). fold p. rewrite Hb. simpl.
    rewrite interrupt_enable_quiet by (unfold quiet; done). f_equal.
    unfold s', sched_upd. rewrite (at_number _ Ha). by destruct s.
  - done.
  - intros p' Hp'. simpl. unfold q_set. destruct (decide (p' = p)) as [->|Hne].
    + rewrite Hh. by rewrite fmap_app.
    + rewrite (ch_heads _ _ _ _ Hch); [by apply HI|done|]. set_solver.
  - simpl. rewrite (at_number_mask _ Ha), (at_high_mask _ Ha), (at_number _ Ha). fold p.
    replace (q_set Q p) with (q_set Q (8 * Z.shiftr p 3 + Z.land p 7)) by (by rewrite <-Ep).
    apply bitmap_set; [apply HI|done..|]. intros Hnil. by apply app_nil in Hnil as [_ ?].
Qed.


Lemma fmap_drop_node t (q : list nat) : drop_node (LTlist t) (LTlist <$> q) = LTlist <$> drop_node t q.
Proof.
  unfold drop_node. induction q as [|x q IH]; [done|]. rewrite fmap_cons, !filter_cons.
  destruct (decide (x = t)) as [->|Hx].
  - rewrite !decide_False by naive_solver. done.
  - rewrite !decide_True by congruence. by rewrite IH.
Qed.

Lemma bitmap_ext table group Q Q' :
  (forall p, Q p = Q' p) -> bitmap_ok table group Q -> bitmap_ok table group Q'.
Proof.
  intros HQ HB. split; try apply HB. intros n b k Hn Hk.
  rewrite (bm_byte _ _ _ HB _ _ k Hn Hk). by rewrite HQ.
Qed.

(** Also when the thread is in no ready queue: then the bits that are cleared
    were clear. *)
Lemma remove_thread_ok s Q t th ns :
  sched_inv s Q -> quiet s -> k_threads s !! t = Some th -> attr_ok th ->
  k_links s !! LTlist t = Some ns ->
  (forall p, 0 <= p < 256 -> p <> t_current_priority th -> t ∉ Q p) ->
  exists V T G,
    let p := t_current_priority th in
    let s' := sched_upd V T G s in
    rt_schedule_remove_thread t s = Ok tt s' /\
    v_remove (LTlist t) (k_links s) = Some V /\
    sched_inv s' (q_set Q p (drop_node t (Q p))).
Proof.
  intros HI Hq Ht Ha Hl Hother. set (p := t_current_priority th) in *.
  destruct (prio_split p (at_range _ Ha)) as (Hn & Hk & Ep).
  destruct (links_remove (k_links s) (LTlist t) ns) as (V & E & HV & H1 & H2);
    [apply HI|done|done|].
  destruct (bitmap_byte _ _ _ _ (si_bitmap _ _ HI) Hn) as [b Hb].
  assert (V !! LReady p = Some (LTlist <$> drop_node t (Q p))) as Hh.
  { rewrite H2, (si_queue _ _ HI) by (done || apply Ha). simpl. by rewrite fmap_drop_node. }
  pose proof (queue_isempty V _ _ (lo_coherent _ HV) Hh) as He.
  set (b' := Z.land b (Z.lnot (Z.shiftl 1 (Z.land p 7)))).
  set (T := if bool_decide (drop_node t (Q p) = [])
    then <[Z.to_nat (Z.shiftr p 3) := b']> (k_ready_table s) else k_ready_table s).
  set (G := if bool_decide (drop_node t (Q p) = []) && (b' =? 0)
    then Z.land (k_ready_group s) (Z.lnot (Z.shiftl 1 (Z.shiftr p 3))) else k_ready_group s).
  exists V, T, G. intros p0 s'. change p0 with p. clear p0.
  assert (bool_decide (LTlist <$> drop_node t (Q p) = []) =
          bool_decide (drop_node t (Q p) = [])) as Hbd.
  { apply bool_decide_ext. by destruct (drop_node t (Q p)). }
  split; [|split; [done|split]].
  - unfold rt_schedule_remove_thread, get_thread, list_remove, list_isempty,
      list_op1, rt_hw_interrupt_disable, bind, gets, modify, ret. simpl.
    rewrite Ht. simpl. rewrite E. simpl. fold p. rewrite He, Hbd. simpl.
    unfold s', T, G. rewrite (at_high_mask _ Ha), (at_number_mask _ Ha), (at_number _ Ha). fold p.
    destruct (bool_decide (drop_node t (Q p) = [])); simpl.
    + rewrite Hb. simpl. fold b'. destruct (b' =? 0); simpl;
        rewrite interrupt_enable_quiet by (unfold quiet; done); f_equal; by destruct s.
    + rewrite interrupt_enable_quiet by (unfold quiet; done); f_equal; by destruct s.
  - done.
  - intros p' Hp'. simpl. unfold q_set. destruct (decide (p' = p)) as [->|Hne]; [done|].
    rewrite H2, (si_queue _ _ HI) by done. simpl. rewrite fmap_drop_node, drop_node_notin; [done|].
    by apply Hother.
  - simpl. replace (q_set Q p) with (q_set Q (8 * Z.shiftr p 3 + Z.land p 7)) by (by rewrite <-Ep).
    unfold T, G. destruct (decide (drop_node t (Q p) = [])) as [Hnil|Hnil].
    + rewrite bool_decide_true by done. rewrite Hnil. simpl.
      apply bitmap_clear; [apply HI|done..].
    + rewrite bool_decide_false by done. simpl. apply (bitmap_same _ _ _ _ _ b); [apply HI|done..|].
      rewrite <-Ep. split; [done|]. intros E'. by rewrite E' in Hnil.
Qed.

(** ** Rescheduling *)
Definition stack_ok (th : rt_thread) : Prop :=
  th.(t_stack_mark) = 35 /\ u32 th.(t_stack_addr) < u32 th.(t_sp) /\
  u32 th.(t_sp) <= u32 (th.(t_stack_addr) + th.(t_stack_size)).

Lemma stack_check_ok (s : kview) t th :
  k_threads s !! t = Some th -> stack_ok th -> rt_scheduler_stack_check t s = Ok tt s.
Proof.
  intros Ht (Hm & Hlo & Hhi).
  unfold rt_scheduler_stack_check, get_thread, bind, gets. simpl. rewrite Ht. simpl.
  rewrite Hm. simpl. destruct (Z.leb_spec (u32 (t_sp th)) (u32 (t_stack_addr th))); [lia|].
  destruct (Z.ltb_spec (u32 (t_stack_addr th + t_stack_size th)) (u32 (t_sp th))); [lia|]. done.
Qed.

Lemma highest_ready_ok s Q p t q :
  sched_inv s Q -> is_highest Q p -> Q p = t :: q ->
  highest_ready_priority s = Ok p s /\ highest_ready_thread p s = Ok t s.
Proof.
  intros HI Hp HQ. destruct (bitmap_highest _ _ _ _ (si_bitmap _ _ HI) Hp) as (b & E1 & E2 & E3).
  split.
  - unfold highest_ready_priority, bind, gets. simpl. rewrite E1, E2. simpl. unfold ret. by rewrite E3.
  - unfold highest_ready_thread, list_next, bind. simpl.
    rewrite (queue_next_head _ _ _ (si_queue _ _ HI p ltac:(apply Hp))). by rewrite HQ.
Qed.

(** The state in which the chosen thread runs. *)
Definition switched (p : Z) (t : nat) (s : kview) : kview :=
  set_current (Some t) (set_current_priority p s).

(** What [rt_schedule] does with the highest ready thread [to]. *)
Definition reschedule (p : Z) (to from : nat) (s : kview) : res kview unit :=
  if decide (to = from) then Ok tt s
  else if (k_primask s =? 0) && (k_irq_nest s =? 0)
  then Switch from to (switched p to s) (fun s' => Ok tt s')
  else Ok tt (set_pendsv
    (Some (match k_pendsv s with Some (f, _) => f | None => from end, to)) (switched p to s)).

Lemma rt_schedule_ok s Q p to q th from :
  sched_inv s Q -> quiet s -> k_lock_nest s = 0 ->
  is_highest Q p -> Q p = to :: q -> k_threads s !! to = Some th -> stack_ok th ->
  k_current s = Some from ->
  rt_schedule s = reschedule p to from s.
Proof.
  intros HI Hqt Hln Hp HQ Hth Hst Hc. unfold rt_schedule, rt_hw_interrupt_disable.
  assert (sched_inv (set_primask 1 s) Q) as HI1 by (destruct HI; by split).
  destruct (highest_ready_ok _ _ _ _ _ HI1 Hp HQ) as [E1 E2].
  unfold reschedule, rt_thread_self, bind, gets, modify, ret. simpl. rewrite Hln. simpl.
  rewrite E1. simpl. rewrite E2. simpl. rewrite Hc. rewrite u8_small by (destruct Hp; lia).
  destruct (decide (to = from)) as [->|Hne].
  - rewrite bool_decide_false by naive_solver.
    rewrite interrupt_enable_quiet by (unfold quiet; done). f_equal. by destruct s.
  - rewrite bool_decide_true by congruence. simpl.
    rewrite (stack_check_ok _ to th) by done. simpl.
    unfold rt_hw_interrupt_enable, rt_hw_context_switch, modify. simpl. rewrite Hc. simpl.
    destruct (Z.eqb_spec (k_primask s) 0) as [Hpm|Hpm]; simpl.
    + destruct (Z.eqb_spec (k_irq_nest s) 0) as [Hin|Hin]; simpl; [|f_equal; by destruct s].
      rewrite (Hqt Hpm Hin). f_equal. pose proof (Hqt Hpm Hin). destruct s; simpl in *; by subst.
    + by destruct s.
Qed.

(** With the scheduler locked [rt_schedule] does nothing. *)
Lemma rt_schedule_locked (s : kview) :
  quiet s -> k_lock_nest s <> 0 -> rt_schedule s = Ok tt s.
Proof.
  intros Hq Hl. unfold rt_schedule, rt_hw_interrupt_disable, bind, gets, modify, ret. simpl.
  rewrite (proj2 (Z.eqb_neq _ _) Hl).
  rewrite interrupt_enable_quiet by (unfold quiet; done). f_equal. by destruct s.
Qed.

End Scheduler.
