(* ===== verification/Object.v ===== *)
(** * [object.c]: the object containers

    Every kernel object carries a [struct rt_object] header; the container of
    its class links the headers.  The containers exist for the classes of the
    board configuration. *)
From S2P Require Import Prelude Kservice RtList KMonad KState KPrim Scheduler.
Local Open Scope Z_scope.
Local Open Scope kmonad_scope.

Module Object.
Import Kservice Scheduler.

Definition RT_NAME_MAX : nat := 16.

(** [enum rt_object_class_type]. *)
Definition RT_Object_Class_Thread : Z := 0.
Definition RT_Object_Class_Semaphore : Z := 1.
Definition RT_Object_Class_Mutex : Z := 2.
Definition RT_Object_Class_Event : Z := 3.
Definition RT_Object_Class_MailBox : Z := 4.
Definition RT_Object_Class_MessageQueue : Z := 5.
Definition RT_Object_Class_MemHeap : Z := 6.
Definition RT_Object_Class_MemPool : Z := 7.
Definition RT_Object_Class_Device : Z := 8.
Definition RT_Object_Class_Timer : Z := 9.
Definition RT_Object_Class_Module : Z := 10.
Definition RT_Object_Class_Unknown : Z := 11.

(** The [type] fields of [rt_object_container], in order. *)
Definition rt_object_container : list Z :=
  [RT_Object_Class_Thread; RT_Object_Class_Semaphore; RT_Object_Class_Mutex;
   RT_Object_Class_Event; RT_Object_Class_MailBox; RT_Object_Class_MessageQueue;
   RT_Object_Class_MemHeap; RT_Object_Class_MemPool; RT_Object_Class_Device;
   RT_Object_Class_Timer].

(** [rt_object_get_information]: the list head of the container of a class. *)
Fixpoint get_information_loop (container : list Z) (type : Z) : option loc :=
  match container with
  | [] => None
  | c :: container =>
      if c =? type then Some (LObjHead c) else get_information_loop container type
  end.
Definition rt_object_get_information (type : Z) : option loc :=
  get_information_loop rt_object_container type.

Section ops.
Context {L : Type} {St : ListStore loc L}.
Abbreviation K := (M (kst L)).

(** The header of an object, wherever the object lives. *)
Definition object_of (o : obj_id) (s : kst L) : option rt_object :=
  match o with
  | OThread t => t_parent <$> s.(k_threads) !! t
  | OTimer tm => tm_parent <$> s.(k_timers) !! tm
  | OIpc (ISem i) => sem_parent <$> s.(k_sems) !! i
  | OIpc (IMutex i) => mx_parent <$> s.(k_mutexes) !! i
  | OIpc (IEvent i) => ev_parent <$> s.(k_events) !! i
  | OIpc (IMb i) => mb_parent <$> s.(k_mbs) !! i
  | OIpc (IMq i) => mq_parent <$> s.(k_mqs) !! i
  | OIpc (IMp i) => mp_parent <$> s.(k_mps) !! i
  | ODevice i => dev_parent <$> s.(k_devices) !! i
  | OMemHeap i => s.(k_memheaps) !! i
  end.

Definition with_object (o : obj_id) (ob : rt_object) (s : kst L) : kst L :=
  match o with
  | OThread t => set_threads (alter (set_t_parent ob) t s.(k_threads)) s
  | OTimer tm => set_timers (alter (set_tm_parent ob) tm s.(k_timers)) s
  | OIpc (ISem i) => set_sems (alter (set_sem_parent ob) i s.(k_sems)) s
  | OIpc (IMutex i) => set_mutexes (alter (set_mx_parent ob) i s.(k_mutexes)) s
  | OIpc (IEvent i) => set_events (alter (set_ev_parent ob) i s.(k_events)) s
  | OIpc (IMb i) => set_mbs (alter (set_mb_parent ob) i s.(k_mbs)) s
  | OIpc (IMq i) => set_mqs (alter (set_mq_parent ob) i s.(k_mqs)) s
  | OIpc (IMp i) => set_mps (alter (set_mp_parent ob) i s.(k_mps)) s
  | ODevice i => set_devices (alter (set_dev_parent ob) i s.(k_devices)) s
  | OMemHeap i => set_memheaps (alter (fun _ => ob) i s.(k_memheaps)) s
  end.

Definition get_object (o : obj_id) : K rt_object := fun s =>
  lift_opt Bad_pointer (object_of o s) s.
Definition put_object (o : obj_id) (ob : rt_object) : K unit := modify (with_object o ob).

(** [rt_list_entry(node, struct rt_object, list)]. *)
Definition object_entry (n : loc) : K obj_id :=
  match n with LObj o => ret o | _ => fail Bad_pointer end.

(** [rt_object_init]. *)
Definition rt_object_init (object : obj_id) (type : Z) (name : list Z) : K unit :=
  let information := rt_object_get_information type in
  rt_assert (bool_decide (information <> None)) ;!
  let! information := lift_opt Bad_pointer information in
  let! ob := get_object object in
  put_object object (set_o_type (u8 (Z.lor type RT_Object_Class_Static)) ob) ;!
  let! ob := get_object object in
  let! name := lift_opt Bad_pointer (rt_strncpy ob.(o_name) name RT_NAME_MAX) in
  put_object object (set_o_name name ob) ;!
  let! temp := rt_hw_interrupt_disable in
  list_insert_after information (LObj object) ;!
  rt_hw_interrupt_enable temp.

(** [rt_object_detach]. *)
Definition rt_object_detach (object : obj_id) : K unit :=
  let! temp := rt_hw_interrupt_disable in
  list_remove (LObj object) ;!
  rt_hw_interrupt_enable temp.

(** [rt_object_is_systemobject]. *)
Definition rt_object_is_systemobject (object : obj_id) : K bool :=
  let! ob := get_object object in
  ret (negb (Z.land ob.(o_type) RT_Object_Class_Static =? 0)).

(** The search loop of [rt_object_find] and [rt_thread_find]. *)
Fixpoint object_find_loop (fuel : nat) (information node : loc) (name : list Z) : K (option obj_id) :=
  match fuel with
  | O => fail Out_of_fuel
  | S fuel =>
      if bool_decide (node = information) then ret None
      else
        let! object := object_entry node in
        let! ob := get_object object in
        let! r := lift_opt Bad_pointer (rt_strncmp ob.(o_name) name RT_NAME_MAX) in
        if r =? 0 then ret (Some object)
        else
          let! node := list_next node in
          object_find_loop fuel information node name
  end.

(** [rt_object_find]; a [RT_NULL] name is [None]. *)
Definition rt_object_find (name : option (list Z)) (type : Z) : K (option obj_id) :=
  match name with
  | None => ret None
  | Some name =>
      if RT_Object_Class_Unknown <? type then ret None
      else
        RT_DEBUG_NOT_IN_INTERRUPT ;!
        rt_enter_critical ;!
        let information := rt_object_get_information type in
        rt_assert (bool_decide (information <> None)) ;!
        let! information := lift_opt Bad_pointer information in
        let! node := list_next information in
        let! fuel := list_fuel in
        let! r := object_find_loop fuel information node name in
        rt_exit_critical ;!
        ret r
  end.

End ops.
End Object.
