(* ===== verification/TimerBase.v ===== *)
(** * [timer.c], first part: timer objects and their removal

    The operations of [timer.c] that threads use before the timer lists are
    driven: initialisation, removal, stopping and control.  With
    [RT_TIMER_SKIP_LIST_LEVEL = 1] the loops over the rows have one round; they
    are kept as loops over the levels. *)
From S2P Require Import Prelude Kservice RtList KMonad KState KPrim Scheduler Object.
Local Open Scope Z_scope.
Local Open Scope kmonad_scope.

Module TimerBase.
Import Object.

Definition RT_TIMER_CTRL_SET_TIME : Z := 0.
Definition RT_TIMER_CTRL_GET_TIME : Z := 1.
Definition RT_TIMER_CTRL_SET_ONESHOT : Z := 2.
Definition RT_TIMER_CTRL_SET_PERIODIC : Z := 3.

Definition rows : list nat := seq 0 RT_TIMER_SKIP_LIST_LEVEL.

Section ops.
Context {L : Type} {St : ListStore loc L}.
Abbreviation K := (M (kst L)).

Fixpoint for_each {A} (f : A -> K unit) (l : list A) : K unit :=
  match l with
  | [] => ret tt
  | x :: l => f x ;! for_each f l
  end.

(** [timer->parent.flag &= ~mask] and [|= mask]. *)
Definition timer_flag_clear (mask : Z) (r : rt_timer) : rt_timer :=
  set_tm_parent (set_o_flag (Z.land r.(tm_parent).(o_flag) (Z.lnot mask)) r.(tm_parent)) r.
Definition timer_flag_set (mask : Z) (r : rt_timer) : rt_timer :=
  set_tm_parent (set_o_flag (Z.lor r.(tm_parent).(o_flag) mask) r.(tm_parent)) r.
Definition timer_flag_test (mask : Z) (r : rt_timer) : bool :=
  negb (Z.land r.(tm_parent).(o_flag) mask =? 0).

(** [_rt_timer_init]. *)
Definition rt_timer_init_fields (timer : timer_id) (timeout : timeout_fn) (parameter : nat)
    (time flag : Z) : K unit :=
  upd_timer timer (fun r =>
    timer_flag_clear RT_TIMER_FLAG_ACTIVATED
      (Timer (set_o_flag flag r.(tm_parent)) timeout parameter time 0)) ;!
  for_each (fun i => list_init (LRow timer i)) rows.

(** [_rt_timer_remove]. *)
Definition rt_timer_remove (timer : timer_id) : K unit :=
  for_each (fun i => list_remove (LRow timer i)) rows.

(** [rt_timer_init]. *)
Definition rt_timer_init (timer : timer_id) (name : list Z) (timeout : timeout_fn)
    (parameter : nat) (time flag : Z) : K unit :=
  rt_object_init (OTimer timer) RT_Object_Class_Timer name ;!
  rt_timer_init_fields timer timeout parameter time flag.

(** [rt_timer_detach]. *)
Definition rt_timer_detach (timer : timer_id) : K Z :=
  let! level := rt_hw_interrupt_disable in
  rt_timer_remove timer ;!
  rt_hw_interrupt_enable level ;!
  rt_object_detach (OTimer timer) ;!
  ret (- RT_EOK).

(** [rt_timer_stop]. *)
Definition rt_timer_stop (timer : timer_id) : K Z :=
  let! r := get_timer timer in
  if negb (timer_flag_test RT_TIMER_FLAG_ACTIVATED r) then ret (- RT_ERROR)
  else
    let! level := rt_hw_interrupt_disable in
    rt_timer_remove timer ;!
    rt_hw_interrupt_enable level ;!
    upd_timer timer (timer_flag_clear RT_TIMER_FLAG_ACTIVATED) ;!
    ret RT_EOK.

(** [rt_timer_control]; [arg] is the tick [*(rt_tick_t * )arg] points to, and the
    result pairs the return code with its value afterwards. *)
Definition rt_timer_control (timer : timer_id) (cmd : Z) (arg : Z) : K (Z * Z) :=
  let! r := get_timer timer in
  if cmd =? RT_TIMER_CTRL_GET_TIME then ret (RT_EOK, r.(tm_init_tick))
  else if cmd =? RT_TIMER_CTRL_SET_TIME then
    put_timer timer (set_tm_init_tick (u32 arg) r) ;! ret (RT_EOK, arg)
  else if cmd =? RT_TIMER_CTRL_SET_ONESHOT then
    put_timer timer (timer_flag_clear RT_TIMER_FLAG_PERIODIC r) ;! ret (RT_EOK, arg)
  else if cmd =? RT_TIMER_CTRL_SET_PERIODIC then
    put_timer timer (timer_flag_set RT_TIMER_FLAG_PERIODIC r) ;! ret (RT_EOK, arg)
  else ret (RT_EOK, arg).

(** [rt_timer_list_next_timeout] and [rt_timer_next_timeout_tick]. *)
Definition rt_timer_list_next_timeout (soft : bool) : K Z :=
  let lvl := (RT_TIMER_SKIP_LIST_LEVEL - 1)%nat in
  let! empty := list_isempty (LTimerHead soft lvl) in
  if empty : bool then ret RT_TICK_MAX
  else
    let! n := list_next (LTimerHead soft lvl) in
    let! timer := timer_entry lvl n in
    let! r := get_timer timer in
    ret r.(tm_timeout_tick).
Definition rt_timer_next_timeout_tick : K Z := rt_timer_list_next_timeout false.

(** [rt_tick_get], [rt_tick_set] ([clock.c]). *)
Definition rt_tick_get : K Z := gets k_tick.
Definition rt_tick_set (tick : Z) : K unit :=
  let! level := rt_hw_interrupt_disable in
  modify (set_tick tick) ;!
  rt_hw_interrupt_enable level.

End ops.
End TimerBase.
