(* ===== verification/Thread.v ===== *)
(** * [thread.c]: thread objects and their states

    Everything of [thread.c] but sleeping, which needs [rt_timer_start] and is
    in [Timer.v].  [rt_hw_stack_init] ([libcpu/arm/cortex-m4/cpuport.c]) gives
    the initial stack pointer and the byte it leaves at the stack's end. *)
From S2P Require Import Prelude Kservice RtList KMonad KState KPrim Scheduler Object TimerBase.
Local Open Scope Z_scope.
Local Open Scope kmonad_scope.

Module Thread.
Import Kservice Scheduler Object TimerBase.

Definition RT_THREAD_CTRL_STARTUP : Z := 0.
Definition RT_THREAD_CTRL_CLOSE : Z := 1.
Definition RT_THREAD_CTRL_CHANGE_PRIORITY : Z := 2.

(** [thread->stat & RT_THREAD_STAT_MASK]. *)
Definition thread_stat (th : rt_thread) : Z := Z.land th.(t_stat) RT_THREAD_STAT_MASK.

(** The priority attributes are recomputed together. *)
Definition set_priority_attribute (th : rt_thread) : rt_thread :=
  let number := Z.shiftr th.(t_current_priority) 3 in
  set_t_high_mask (u8 (Z.shiftl 1 (Z.land th.(t_current_priority) 7)))
    (set_t_number_mask (u32 (Z.shiftl 1 number)) (set_t_number number th)).

(** ** The initial stack

    [struct stack_frame] with the FPU flag word the board's build has:
    17 words, written at the top of the stack. *)
Definition stack_frame (tentry parameter texit : nat) : list Z :=
  [0] ++ replicate 8 0xdeadbeef ++
  [Z.of_nat parameter; 0; 0; 0; 0; Z.of_nat texit; Z.of_nat tentry; 0x01000000].

Definition rt_hw_stack_init (stack_addr : Z) : Z :=
  u32 (RT_ALIGN_DOWN (u32 (stack_addr + 4)) 8 - 68).

(** The byte at [addr] once the stack is filled with ['#'] and the frame is
    written at [sp] (little endian). *)
Definition initial_stack_byte (frame : list Z) (sp addr : Z) : Z :=
  if (sp <=? addr) && (addr <? sp + 68) then
    let word := nth (Z.to_nat ((addr - sp) / 4)) frame 0 in
    Z.land (Z.shiftr word (8 * ((addr - sp) mod 4))) 0xff
  else 35.

Section ops.
Context {L : Type} {St : ListStore loc L}.
Abbreviation K := (M (kst L)).

(** The code address of [rt_thread_exit], a link-time constant. *)
Context (rt_thread_exit_addr : nat).

(** [_rt_thread_init]. *)
Definition rt_thread_init_fields (thread : nat) (name : list Z) (entry parameter : nat)
    (stack_start stack_size priority tick : Z) : K Z :=
  list_init (LTlist thread) ;!
  let sp := rt_hw_stack_init (u32 (stack_start + stack_size - 4)) in
  let mark := initial_stack_byte (stack_frame entry parameter rt_thread_exit_addr) sp stack_start in
  rt_assert (priority <? RT_THREAD_PRIORITY_MAX) ;!
  upd_thread thread (fun th => Thread th.(t_parent) sp entry parameter stack_start stack_size mark
    RT_EOK RT_THREAD_INIT priority priority 0 0 0 th.(t_event_set) th.(t_event_info)
    tick tick None 0) ;!
  let! th := get_thread thread in
  rt_timer_init (TThread thread) th.(t_parent).(o_name) Rt_thread_timeout thread 0 0 ;!
  ret RT_EOK.

(** [rt_thread_init]; [stack_start] is a valid address, 0 is [RT_NULL]. *)
Definition rt_thread_init (thread : nat) (name : list Z) (entry parameter : nat)
    (stack_start stack_size priority tick : Z) : K Z :=
  rt_assert (negb (stack_start =? 0)) ;!
  rt_object_init (OThread thread) RT_Object_Class_Thread name ;!
  rt_thread_init_fields thread name entry parameter stack_start stack_size priority tick.

(** [rt_thread_suspend]. *)
Definition rt_thread_suspend (thread : nat) : K Z :=
  let! th := get_thread thread in
  if negb (thread_stat th =? RT_THREAD_READY) then ret (- RT_ERROR)
  else
    let! temp := rt_hw_interrupt_disable in
    upd_thread thread (fun th => set_t_stat
      (Z.lor RT_THREAD_SUSPEND (Z.land th.(t_stat) (Z.lnot RT_THREAD_STAT_MASK))) th) ;!
    rt_schedule_remove_thread thread ;!
    rt_timer_stop (TThread thread) ;!
    rt_hw_interrupt_enable temp ;!
    ret RT_EOK.

(** [rt_thread_resume]. *)
Definition rt_thread_resume (thread : nat) : K Z :=
  let! th := get_thread thread in
  if negb (thread_stat th =? RT_THREAD_SUSPEND) then ret (- RT_ERROR)
  else
    let! temp := rt_hw_interrupt_disable in
    list_remove (LTlist thread) ;!
    rt_timer_stop (TThread thread) ;!
    rt_hw_interrupt_enable temp ;!
    rt_schedule_insert_thread thread ;!
    ret RT_EOK.

(** [rt_thread_timeout]. *)
Definition rt_thread_timeout (thread : nat) : K unit :=
  let! th := get_thread thread in
  rt_assert (thread_stat th =? RT_THREAD_SUSPEND) ;!
  upd_thread thread (set_t_error (- RT_ETIMEOUT)) ;!
  list_remove (LTlist thread) ;!
  rt_schedule_insert_thread thread ;!
  rt_schedule.

(** [rt_thread_startup]. *)
Definition rt_thread_startup (thread : nat) : K Z :=
  let! th := get_thread thread in
  rt_assert (thread_stat th =? RT_THREAD_INIT) ;!
  upd_thread thread (fun th =>
    set_priority_attribute (set_t_current_priority th.(t_init_priority) th)) ;!
  upd_thread thread (set_t_stat RT_THREAD_SUSPEND) ;!
  rt_thread_resume thread ;!
  let! self := rt_thread_self in
  (if bool_decide (self <> None) then rt_schedule else ret tt) ;!
  ret RT_EOK.

(** [rt_thread_exit]. *)
Definition rt_thread_exit : K unit :=
  let! thread := current_deref in
  let! level := rt_hw_interrupt_disable in
  rt_schedule_remove_thread thread ;!
  upd_thread thread (set_t_stat RT_THREAD_CLOSE) ;!
  rt_timer_detach (TThread thread) ;!
  let! sys := rt_object_is_systemobject (OThread thread) in
  let! th := get_thread thread in
  (if sys && bool_decide (th.(t_cleanup) = None)
   then rt_object_detach (OThread thread)
   else list_insert_after LDefunct (LTlist thread)) ;!
  rt_hw_interrupt_enable level ;!
  rt_schedule.

(** [rt_thread_detach]. *)
Definition rt_thread_detach (thread : nat) : K Z :=
  let! th := get_thread thread in
  (if negb (thread_stat th =? RT_THREAD_INIT) then rt_schedule_remove_thread thread else ret tt) ;!
  rt_timer_detach (TThread thread) ;!
  upd_thread thread (set_t_stat RT_THREAD_CLOSE) ;!
  rt_object_detach (OThread thread) ;!
  let! th := get_thread thread in
  (if bool_decide (th.(t_cleanup) <> None) then
     let! lock := rt_hw_interrupt_disable in
     list_insert_after LDefunct (LTlist thread) ;!
     rt_hw_interrupt_enable lock
   else ret tt) ;!
  ret RT_EOK.

(** [rt_thread_delete]. *)
Definition rt_thread_delete (thread : nat) : K Z :=
  let! th := get_thread thread in
  (if negb (thread_stat th =? RT_THREAD_INIT) then rt_schedule_remove_thread thread else ret tt) ;!
  rt_timer_detach (TThread thread) ;!
  upd_thread thread (set_t_stat RT_THREAD_CLOSE) ;!
  let! lock := rt_hw_interrupt_disable in
  list_insert_after LDefunct (LTlist thread) ;!
  rt_hw_interrupt_enable lock ;!
  ret RT_EOK.

(** [rt_thread_yield]. *)
Definition rt_thread_yield : K Z :=
  let! level := rt_hw_interrupt_disable in
  let! thread := current_deref in
  let! th := get_thread thread in
  let! next := list_next (LTlist thread) in
  let! prev := list_prev (LTlist thread) in
  if (thread_stat th =? RT_THREAD_READY) && bool_decide (next <> prev) then
    list_remove (LTlist thread) ;!
    list_insert_before (LReady th.(t_current_priority)) (LTlist thread) ;!
    rt_hw_interrupt_enable level ;!
    rt_schedule ;!
    ret RT_EOK
  else
    rt_hw_interrupt_enable level ;!
    ret RT_EOK.

(** [rt_thread_control]; [arg] is the byte [*(rt_uint8_t * )arg] points to. *)
Definition rt_thread_control (thread : nat) (cmd : Z) (arg : Z) : K Z :=
  if cmd =? RT_THREAD_CTRL_CHANGE_PRIORITY then
    let! temp := rt_hw_interrupt_disable in
    let! th := get_thread thread in
    (if thread_stat th =? RT_THREAD_READY then
       rt_schedule_remove_thread thread ;!
       upd_thread thread (fun th => set_priority_attribute (set_t_current_priority (u8 arg) th)) ;!
       rt_schedule_insert_thread thread
     else
       upd_thread thread (fun th => set_priority_attribute (set_t_current_priority (u8 arg) th))) ;!
    rt_hw_interrupt_enable temp ;!
    ret RT_EOK
  else if cmd =? RT_THREAD_CTRL_STARTUP then rt_thread_startup thread
  else if cmd =? RT_THREAD_CTRL_CLOSE then rt_thread_delete thread
  else ret RT_EOK.

(** [rt_thread_find]. *)
Definition rt_thread_find (name : list Z) : K (option obj_id) :=
  let! self := rt_thread_self in
  (if bool_decide (self <> None) then rt_enter_critical else ret tt) ;!
  let information := rt_object_get_information RT_Object_Class_Thread in
  rt_assert (bool_decide (information <> None)) ;!
  let! information := lift_opt Bad_pointer information in
  let! node := list_next information in
  let! fuel := list_fuel in
  let! r := object_find_loop fuel information node name in
  let! self := rt_thread_self in
  (if bool_decide (self <> None) then rt_exit_critical else ret tt) ;!
  ret r.

End ops.
End Thread.
