(* ===== verification/Timer.v ===== *)
(** * [timer.c], second part, [clock.c] and sleeping

    Starting timers, the tick handler's timer check, the software timer
    thread, and [rt_thread_sleep].  The functions an application installs as
    timeouts are a parameter [user_timeout]; [rt_thread_timeout] is the
    kernel's own. *)
From S2P Require Import Prelude Kservice RtList KMonad KState KPrim Scheduler Object TimerBase Thread.
Local Open Scope Z_scope.
Local Open Scope kmonad_scope.

Module Timer.
Import Scheduler Object TimerBase Thread.

Definition RT_TIMER_THREAD_PRIO : Z := 4.
Definition RT_TIMER_THREAD_STACK_SIZE : Z := 512.

(** [RT_TICK_MAX / 2]. *)
Definition half_tick : Z := RT_TICK_MAX / 2.

Section ops.
Context {L : Type} {St : ListStore loc L}.
Abbreviation K := (M (kst L)).

(** What [timeout_func] number [f] of the application does. *)
Context (user_timeout : nat -> nat -> K unit).

(** The inner search loop of [rt_timer_start] on row [row_lvl]: stop at the
    last timer of the row or in front of the first one that is due later. *)
Fixpoint timer_row_search (fuel : nat) (soft : bool) (row_lvl : nat) (timeout_tick : Z)
    (row_head : loc) : K loc :=
  match fuel with
  | O => fail Out_of_fuel
  | S fuel =>
      let! last := list_prev (LTimerHead soft row_lvl) in
      if bool_decide (row_head = last) then ret row_head
      else
        let! p := list_next row_head in
        let! t := timer_entry row_lvl p in
        let! r := get_timer t in
        let diff := u32 (r.(tm_timeout_tick) - timeout_tick) in
        if diff =? 0 then
          let! next := list_next row_head in
          timer_row_search fuel soft row_lvl timeout_tick next
        else if diff <? half_tick then ret row_head
        else
          let! next := list_next row_head in
          timer_row_search fuel soft row_lvl timeout_tick next
  end.

(** [row_head[row_lvl] + 1]: the node of the next row beside this one. *)
Definition next_row (n : loc) : K loc :=
  match n with
  | LTimerHead soft lvl => ret (LTimerHead soft (S lvl))
  | LRow tm lvl => ret (LRow tm (S lvl))
  | _ => fail Bad_pointer
  end.

(** The loop over the rows; the list of [row_head] pointers, last row first. *)
Fixpoint timer_rows_search (soft : bool) (timeout_tick : Z) (lvls : list nat)
    (row_head : loc) (acc : list loc) : K (list loc) :=
  match lvls with
  | [] => ret acc
  | row_lvl :: lvls =>
      let! fuel := list_fuel in
      let! found := timer_row_search fuel soft row_lvl timeout_tick row_head in
      if negb (row_lvl =? RT_TIMER_SKIP_LIST_LEVEL - 1)%nat then
        let! down := next_row found in
        timer_rows_search soft timeout_tick lvls down (found :: acc)
      else timer_rows_search soft timeout_tick lvls row_head (found :: acc)
  end.

(** The loop that also links the timer into the sparser rows, as long as the
    tested bits of the counter are 0. *)
Fixpoint timer_link_rows (timer : timer_id) (tst_nr : Z) (heads : list loc) : K unit :=
  match heads with
  | [] => ret tt
  | h :: heads =>
      if Z.land tst_nr RT_TIMER_SKIP_LIST_MASK =? 0 then
        list_insert_after h (LRow timer (length heads)) ;!
        timer_link_rows timer
          (Z.shiftr tst_nr (Z.shiftr (RT_TIMER_SKIP_LIST_MASK + 1) 1)) heads
      else ret tt
  end.

(** [rt_timer_start]. *)
Definition rt_timer_start (timer : timer_id) : K Z :=
  let! level := rt_hw_interrupt_disable in
  rt_timer_remove timer ;!
  upd_timer timer (timer_flag_clear RT_TIMER_FLAG_ACTIVATED) ;!
  rt_hw_interrupt_enable level ;!
  let! r := get_timer timer in
  rt_assert (r.(tm_init_tick) <? half_tick) ;!
  let! now := rt_tick_get in
  let timeout_tick := u32 (now + r.(tm_init_tick)) in
  put_timer timer (set_tm_timeout_tick timeout_tick r) ;!
  let! level := rt_hw_interrupt_disable in
  let! r := get_timer timer in
  let soft := timer_flag_test RT_TIMER_FLAG_SOFT_TIMER r in
  let! row_heads := timer_rows_search soft r.(tm_timeout_tick) rows (LTimerHead soft 0) [] in
  modify (fun s => set_random_nr (u32 (s.(k_random_nr) + 1)) s) ;!
  let! tst_nr := gets k_random_nr in
  (match row_heads with
   | h :: heads =>
       list_insert_after h (LRow timer (length heads)) ;!
       timer_link_rows timer tst_nr heads
   | [] => ret tt
   end) ;!
  upd_timer timer (timer_flag_set RT_TIMER_FLAG_ACTIVATED) ;!
  rt_hw_interrupt_enable level ;!
  let! r := get_timer timer in
  (if timer_flag_test RT_TIMER_FLAG_SOFT_TIMER r then
     let! timer_thread := gets k_timer_thread in
     let! th := get_thread timer_thread in
     if negb (thread_stat th =? RT_THREAD_READY) then
       rt_thread_resume timer_thread ;!
       rt_schedule
     else ret tt
   else ret tt) ;!
  ret (- RT_EOK).

(** [t->timeout_func(t->parameter)]. *)
Definition call_timeout (fn : timeout_fn) (parameter : nat) : K unit :=
  match fn with
  | Rt_thread_timeout => rt_thread_timeout parameter
  | User_timeout f => user_timeout f parameter
  end.

(** After the timeout function: restart a periodic timer that is still active,
    deactivate any other. *)
Definition timer_after_timeout (t : timer_id) : K unit :=
  let! r := get_timer t in
  if timer_flag_test RT_TIMER_FLAG_PERIODIC r && timer_flag_test RT_TIMER_FLAG_ACTIVATED r
  then
    put_timer t (timer_flag_clear RT_TIMER_FLAG_ACTIVATED r) ;!
    rt_timer_start t ;!
    ret tt
  else put_timer t (timer_flag_clear RT_TIMER_FLAG_ACTIVATED r).

(** The loop of [rt_timer_check]: the list is re-read in every round.  The
    number of rounds is not bounded by the state the loop starts in (a timeout
    function may start timers), so it is an explicit fuel. *)
Fixpoint timer_check_loop (fuel : nat) (current_tick : Z) : K unit :=
  match fuel with
  | O => fail Out_of_fuel
  | S fuel =>
      let lvl := (RT_TIMER_SKIP_LIST_LEVEL - 1)%nat in
      let! empty := list_isempty (LTimerHead false lvl) in
      if empty : bool then ret tt
      else
        let! n := list_next (LTimerHead false lvl) in
        let! t := timer_entry lvl n in
        let! r := get_timer t in
        if u32 (current_tick - r.(tm_timeout_tick)) <? half_tick then
          rt_timer_remove t ;!
          call_timeout r.(tm_timeout_func) r.(tm_parameter) ;!
          let! current_tick := rt_tick_get in
          timer_after_timeout t ;!
          timer_check_loop fuel current_tick
        else ret tt
  end.

(** [rt_timer_check]. *)
Definition rt_timer_check (fuel : nat) : K unit :=
  let! current_tick := rt_tick_get in
  let! level := rt_hw_interrupt_disable in
  timer_check_loop fuel current_tick ;!
  rt_hw_interrupt_enable level.

(** The loop of [rt_soft_timer_check]: [n] is a node pointer kept across the
    timeout function. *)
Fixpoint soft_timer_check_loop (fuel : nat) (current_tick : Z) (n : loc) : K unit :=
  match fuel with
  | O => fail Out_of_fuel
  | S fuel =>
      let lvl := (RT_TIMER_SKIP_LIST_LEVEL - 1)%nat in
      if bool_decide (n = LTimerHead true lvl) then ret tt
      else
        let! t := timer_entry lvl n in
        let! r := get_timer t in
        if u32 (current_tick - r.(tm_timeout_tick)) <? half_tick then
          let! n := list_next n in
          rt_timer_remove t ;!
          rt_exit_critical ;!
          call_timeout r.(tm_timeout_func) r.(tm_parameter) ;!
          let! current_tick := rt_tick_get in
          rt_enter_critical ;!
          timer_after_timeout t ;!
          soft_timer_check_loop fuel current_tick n
        else ret tt
  end.

(** [rt_soft_timer_check]. *)
Definition rt_soft_timer_check (fuel : nat) : K unit :=
  let! current_tick := rt_tick_get in
  rt_enter_critical ;!
  let! n := list_next (LTimerHead true (RT_TIMER_SKIP_LIST_LEVEL - 1)) in
  soft_timer_check_loop fuel current_tick n ;!
  rt_exit_critical.

(** [rt_thread_sleep], [rt_thread_delay] ([thread.c]). *)
Definition rt_thread_sleep (tick : Z) : K Z :=
  let! temp := rt_hw_interrupt_disable in
  let! self := rt_thread_self in
  rt_assert (bool_decide (self <> None)) ;!
  let! thread := lift_opt Bad_pointer self in
  rt_thread_suspend thread ;!
  rt_timer_control (TThread thread) RT_TIMER_CTRL_SET_TIME tick ;!
  rt_timer_start (TThread thread) ;!
  rt_hw_interrupt_enable temp ;!
  rt_schedule ;!
  let! th := get_thread thread in
  (if th.(t_error) =? - RT_ETIMEOUT
   then put_thread thread (set_t_error RT_EOK th) else ret tt) ;!
  ret RT_EOK.
Definition rt_thread_delay (tick : Z) : K Z := rt_thread_sleep tick.

(** [rt_tick_from_millisecond]: [int] arithmetic; the product is truncated to
    32 bits as the target's multiply instruction does. *)
Definition rt_tick_from_millisecond (ms : Z) : Z :=
  if ms <? 0 then RT_WAITING_FOREVER
  else Z.quot (i32 (i32 (RT_TICK_PER_SECOND * ms) + 999)) 1000.

(** [rt_thread_mdelay]. *)
Definition rt_thread_mdelay (ms : Z) : K Z :=
  rt_thread_sleep (u32 (rt_tick_from_millisecond ms)).

(** [rt_tick_increase]. *)
Definition rt_tick_increase (fuel : nat) : K unit :=
  modify (fun s => set_tick (u32 (s.(k_tick) + 1)) s) ;!
  let! thread := current_deref in
  upd_thread thread (fun th => set_t_remaining_tick (u32 (th.(t_remaining_tick) - 1)) th) ;!
  let! th := get_thread thread in
  (if th.(t_remaining_tick) =? 0 then
     put_thread thread (set_t_remaining_tick th.(t_init_tick) th) ;!
     rt_thread_yield ;!
     ret tt
   else ret tt) ;!
  rt_timer_check fuel.

(** One round of the endless loop of [rt_thread_timer_entry]. *)
Definition rt_thread_timer_round (fuel : nat) : K unit :=
  let! next_timeout := rt_timer_list_next_timeout true in
  (if next_timeout =? RT_TICK_MAX then
     let! self := current_deref in
     rt_thread_suspend self ;!
     rt_schedule
   else
     let! current_tick := rt_tick_get in
     if u32 (next_timeout - current_tick) <? half_tick then
       rt_thread_delay (u32 (next_timeout - current_tick)) ;!
       ret tt
     else ret tt) ;!
  rt_soft_timer_check fuel.

(** [rt_system_timer_init]. *)
Definition rt_system_timer_init : K unit :=
  for_each (fun i => list_init (LTimerHead false i)) rows.

(** [rt_system_timer_thread_init]; [entry], [stack_start] are the addresses of
    [rt_thread_timer_entry] and [timer_thread_stack]. *)
Definition rt_system_timer_thread_init (rt_thread_exit_addr entry : nat) (stack_start : Z) : K unit :=
  for_each (fun i => list_init (LTimerHead true i)) rows ;!
  let! timer_thread := gets k_timer_thread in
  rt_thread_init rt_thread_exit_addr timer_thread [116; 105; 109; 101; 114; 0] (* "timer" *)
    entry 0 stack_start RT_TIMER_THREAD_STACK_SIZE RT_TIMER_THREAD_PRIO 10 ;!
  rt_thread_startup timer_thread ;!
  ret tt.

End ops.
End Timer.
