(* ===== verification/Ipc.v ===== *)
(** * [ipc.c]: suspend lists, semaphores and mutexes *)
From S2P Require Import Prelude Kservice RtList KMonad KState KPrim Scheduler Object TimerBase Thread Timer.
Local Open Scope Z_scope.
Local Open Scope kmonad_scope.

(** ** Suspend lists *)
Module IpcCore.
Import Scheduler Object TimerBase Thread Timer.

Definition RT_IPC_CMD_RESET : Z := 1.

Section ops.
Context {L : Type} {St : ListStore loc L}.
Abbreviation K := (M (kst L)).

(** [rt_ipc_object_init]. *)
Definition rt_ipc_object_init (o : ipc_id) : K Z :=
  list_init (LSuspend o) ;! ret RT_EOK.

(** The [RT_IPC_FLAG_PRIO] search loop: insert before the first thread of lower
    priority, or report that there is none. *)
Fixpoint prio_insert_loop (fuel : nat) (list n : loc) (thread : nat) : K bool :=
  match fuel with
  | O => fail Out_of_fuel
  | S fuel =>
      if bool_decide (n = list) then ret false
      else
        let! sthread := thread_entry n in
        let! th := get_thread thread in
        let! sth := get_thread sthread in
        if th.(t_current_priority) <? sth.(t_current_priority) then
          list_insert_before (LTlist sthread) (LTlist thread) ;!
          ret true
        else
          let! n := list_next n in
          prio_insert_loop fuel list n thread
  end.

(** [rt_ipc_list_suspend]. *)
Definition rt_ipc_list_suspend (list : loc) (thread : nat) (flag : Z) : K Z :=
  rt_thread_suspend thread ;!
  (if flag =? RT_IPC_FLAG_FIFO then list_insert_before list (LTlist thread)
   else if flag =? RT_IPC_FLAG_PRIO then
     let! n := list_next list in
     let! fuel := list_fuel in
     let! found := prio_insert_loop fuel list n thread in
     if found : bool then ret tt else list_insert_before list (LTlist thread)
   else ret tt) ;!
  ret RT_EOK.

(** [rt_ipc_list_resume]. *)
Definition rt_ipc_list_resume (list : loc) : K Z :=
  let! n := list_next list in
  let! thread := thread_entry n in
  rt_thread_resume thread ;!
  ret RT_EOK.

(** The loop of [rt_ipc_list_resume_all]; each round resumes the first waiter. *)
Fixpoint resume_all_loop (fuel : nat) (list : loc) : K unit :=
  match fuel with
  | O => fail Out_of_fuel
  | S fuel =>
      let! empty := list_isempty list in
      if empty : bool then ret tt
      else
        let! temp := rt_hw_interrupt_disable in
        let! n := list_next list in
        let! thread := thread_entry n in
        upd_thread thread (set_t_error (- RT_ERROR)) ;!
        rt_thread_resume thread ;!
        rt_hw_interrupt_enable temp ;!
        resume_all_loop fuel list
  end.

(** [rt_ipc_list_resume_all]. *)
Definition rt_ipc_list_resume_all (list : loc) : K Z :=
  let! fuel := list_fuel in
  resume_all_loop fuel list ;!
  ret RT_EOK.

(** Arm the thread's timer for a wait of [time] > 0 ticks. *)
Definition start_wait_timer (thread : nat) (time : Z) : K unit :=
  rt_timer_control (TThread thread) RT_TIMER_CTRL_SET_TIME time ;!
  rt_timer_start (TThread thread) ;!
  ret tt.

(** [obj->parent.parent.flag = flag]. *)
Definition set_object_flag (o : ipc_id) (flag : Z) : K unit :=
  let! ob := get_object (OIpc o) in
  put_object (OIpc o) (set_o_flag flag ob).

End ops.
End IpcCore.

(** ** Semaphores *)
Module Sem.
Import Scheduler Object TimerBase Thread Timer IpcCore.

Section ops.
Context {L : Type} {St : ListStore loc L}.
Abbreviation K := (M (kst L)).

Definition get_sem (i : nat) : K rt_semaphore :=
  let! m := gets k_sems in lift_opt Bad_pointer (m !! i).
Definition put_sem (i : nat) (r : rt_semaphore) : K unit :=
  modify (fun s => set_sems (<[i := r]> s.(k_sems)) s).
Definition upd_sem (i : nat) (f : rt_semaphore -> rt_semaphore) : K unit :=
  let! r := get_sem i in put_sem i (f r).

(** [rt_sem_init]. *)
Definition rt_sem_init (sem : nat) (name : list Z) (value flag : Z) : K Z :=
  rt_object_init (OIpc (ISem sem)) RT_Object_Class_Semaphore name ;!
  rt_ipc_object_init (ISem sem) ;!
  upd_sem sem (set_sem_value (u16 value)) ;!
  set_object_flag (ISem sem) flag ;!
  ret RT_EOK.

(** [rt_sem_detach]. *)
Definition rt_sem_detach (sem : nat) : K Z :=
  rt_ipc_list_resume_all (LSuspend (ISem sem)) ;!
  rt_object_detach (OIpc (ISem sem)) ;!
  ret RT_EOK.

(** [rt_sem_take]. *)
Definition rt_sem_take (sem : nat) (time : Z) : K Z :=
  let! temp := rt_hw_interrupt_disable in
  let! sm := get_sem sem in
  if 0 <? sm.(sem_value) then
    put_sem sem (set_sem_value (u16 (sm.(sem_value) - 1)) sm) ;!
    rt_hw_interrupt_enable temp ;!
    ret RT_EOK
  else if time =? 0 then
    rt_hw_interrupt_enable temp ;!
    ret (- RT_ETIMEOUT)
  else
    RT_DEBUG_IN_THREAD_CONTEXT ;!
    let! thread := current_deref in
    upd_thread thread (set_t_error RT_EOK) ;!
    let! sm := get_sem sem in
    rt_ipc_list_suspend (LSuspend (ISem sem)) thread sm.(sem_parent).(o_flag) ;!
    (if 0 <? time then start_wait_timer thread time else ret tt) ;!
    rt_hw_interrupt_enable temp ;!
    rt_schedule ;!
    let! th := get_thread thread in
    if negb (th.(t_error) =? RT_EOK) then ret th.(t_error) else ret RT_EOK.

(** [rt_sem_trytake]. *)
Definition rt_sem_trytake (sem : nat) : K Z := rt_sem_take sem 0.

(** [rt_sem_release]. *)
Definition rt_sem_release (sem : nat) : K Z :=
  let! temp := rt_hw_interrupt_disable in
  let! empty := list_isempty (LSuspend (ISem sem)) in
  (if negb empty then rt_ipc_list_resume (LSuspend (ISem sem)) ;! ret tt
   else upd_sem sem (fun sm => set_sem_value (u16 (sm.(sem_value) + 1)) sm)) ;!
  rt_hw_interrupt_enable temp ;!
  (if negb empty then rt_schedule else ret tt) ;!
  ret RT_EOK.

(** [rt_sem_control]; [arg] is the new value, passed as a pointer. *)
Definition rt_sem_control (sem : nat) (cmd arg : Z) : K Z :=
  if cmd =? RT_IPC_CMD_RESET then
    let! level := rt_hw_interrupt_disable in
    rt_ipc_list_resume_all (LSuspend (ISem sem)) ;!
    upd_sem sem (set_sem_value (u16 arg)) ;!
    rt_hw_interrupt_enable level ;!
    rt_schedule ;!
    ret RT_EOK
  else ret (- RT_ERROR).

End ops.
End Sem.

(** ** Mutexes *)
Module Mutex.
Import Scheduler Object TimerBase Thread Timer IpcCore.

Section ops.
Context {L : Type} {St : ListStore loc L}.
Abbreviation K := (M (kst L)).

Definition get_mutex (i : nat) : K rt_mutex :=
  let! m := gets k_mutexes in lift_opt Bad_pointer (m !! i).
Definition put_mutex (i : nat) (r : rt_mutex) : K unit :=
  modify (fun s => set_mutexes (<[i := r]> s.(k_mutexes)) s).
Definition upd_mutex (i : nat) (f : rt_mutex -> rt_mutex) : K unit :=
  let! r := get_mutex i in put_mutex i (f r).

(** [rt_mutex_init]. *)
Definition rt_mutex_init (mutex : nat) (name : list Z) (flag : Z) : K Z :=
  rt_object_init (OIpc (IMutex mutex)) RT_Object_Class_Mutex name ;!
  rt_ipc_object_init (IMutex mutex) ;!
  upd_mutex mutex (fun m => Mutex m.(mx_parent) 1 0xff 0 None) ;!
  set_object_flag (IMutex mutex) flag ;!
  ret RT_EOK.

(** [rt_mutex_detach]. *)
Definition rt_mutex_detach (mutex : nat) : K Z :=
  rt_ipc_list_resume_all (LSuspend (IMutex mutex)) ;!
  rt_object_detach (OIpc (IMutex mutex)) ;!
  ret RT_EOK.

(** The part of [rt_mutex_take] from the label [__again]; [temp] is the
    interrupt level to restore.  A thread woken with [-RT_EINTR] jumps back to
    the label (with interrupts enabled); the number of such rounds is up to
    the other threads, hence the fuel. *)
Fixpoint mutex_take_again (fuel : nat) (mutex thread : nat) (time temp : Z) : K Z :=
  let! mx := get_mutex mutex in
  if 0 <? mx.(mx_value) then
    let! th := get_thread thread in
    put_mutex mutex (Mutex mx.(mx_parent) (u16 (mx.(mx_value) - 1)) th.(t_current_priority)
      (u8 (mx.(mx_hold) + 1)) (Some thread)) ;!
    rt_hw_interrupt_enable temp ;!
    ret RT_EOK
  else if time =? 0 then
    upd_thread thread (set_t_error (- RT_ETIMEOUT)) ;!
    rt_hw_interrupt_enable temp ;!
    ret (- RT_ETIMEOUT)
  else
    let! th := get_thread thread in
    let! owner := lift_opt Bad_pointer mx.(mx_owner) in
    let! oth := get_thread owner in
    (if th.(t_current_priority) <? oth.(t_current_priority)
     then rt_thread_control owner RT_THREAD_CTRL_CHANGE_PRIORITY th.(t_current_priority)
     else ret RT_EOK) ;!
    rt_ipc_list_suspend (LSuspend (IMutex mutex)) thread mx.(mx_parent).(o_flag) ;!
    (if 0 <? time then start_wait_timer thread time else ret tt) ;!
    rt_hw_interrupt_enable temp ;!
    rt_schedule ;!
    let! th := get_thread thread in
    if negb (th.(t_error) =? RT_EOK) then
      if th.(t_error) =? - RT_EINTR then
        match fuel with
        | O => fail Out_of_fuel
        | S fuel => mutex_take_again fuel mutex thread time temp
        end
      else ret th.(t_error)
    else
      let! temp := rt_hw_interrupt_disable in
      rt_hw_interrupt_enable temp ;!
      ret RT_EOK.

(** [rt_mutex_take]. *)
Definition rt_mutex_take (fuel : nat) (mutex : nat) (time : Z) : K Z :=
  RT_DEBUG_IN_THREAD_CONTEXT ;!
  let! thread := current_deref in
  let! temp := rt_hw_interrupt_disable in
  upd_thread thread (set_t_error RT_EOK) ;!
  let! mx := get_mutex mutex in
  if bool_decide (mx.(mx_owner) = Some thread) then
    put_mutex mutex (set_mx_hold (u8 (mx.(mx_hold) + 1)) mx) ;!
    rt_hw_interrupt_enable temp ;!
    ret RT_EOK
  else mutex_take_again fuel mutex thread time temp.

(** [rt_mutex_release]. *)
Definition rt_mutex_release (mutex : nat) : K Z :=
  RT_DEBUG_IN_THREAD_CONTEXT ;!
  let! thread := current_deref in
  let! temp := rt_hw_interrupt_disable in
  let! mx := get_mutex mutex in
  if negb (bool_decide (Some thread = mx.(mx_owner))) then
    upd_thread thread (set_t_error (- RT_ERROR)) ;!
    rt_hw_interrupt_enable temp ;!
    ret (- RT_ERROR)
  else
    put_mutex mutex (set_mx_hold (u8 (mx.(mx_hold) - 1)) mx) ;!
    let! mx := get_mutex mutex in
    let! need_schedule :=
      (if mx.(mx_hold) =? 0 then
         let! oth := get_thread thread in
         (if negb (mx.(mx_original_priority) =? oth.(t_current_priority))
          then rt_thread_control thread RT_THREAD_CTRL_CHANGE_PRIORITY mx.(mx_original_priority)
          else ret RT_EOK) ;!
         let! empty := list_isempty (LSuspend (IMutex mutex)) in
         if negb empty then
           let! n := list_next (LSuspend (IMutex mutex)) in
           let! waiter := thread_entry n in
           let! wth := get_thread waiter in
           upd_mutex mutex (fun mx => Mutex mx.(mx_parent) mx.(mx_value) wth.(t_current_priority)
             (u8 (mx.(mx_hold) + 1)) (Some waiter)) ;!
           rt_ipc_list_resume (LSuspend (IMutex mutex)) ;!
           ret true
         else
           upd_mutex mutex (fun mx => Mutex mx.(mx_parent) (u16 (mx.(mx_value) + 1)) 0xff
             mx.(mx_hold) None) ;!
           ret false
       else ret false) in
    rt_hw_interrupt_enable temp ;!
    (if need_schedule : bool then rt_schedule else ret tt) ;!
    ret RT_EOK.

(** [rt_mutex_control]. *)
Definition rt_mutex_control (mutex : nat) (cmd arg : Z) : K Z := ret (- RT_ERROR).

End ops.
End Mutex.
