(* ===== verification/IpcMsg.v ===== *)
(** * [ipc.c]: events, mailboxes and message queues *)
From S2P Require Import Prelude Kservice RtList KMonad KState KPrim Scheduler Object TimerBase Thread Timer Ipc.
Local Open Scope Z_scope.
Local Open Scope kmonad_scope.

(** ** Event sets *)
Module Event.
Import Scheduler Object TimerBase Thread Timer IpcCore.

Definition RT_EVENT_FLAG_AND : Z := 1.
Definition RT_EVENT_FLAG_OR : Z := 2.
Definition RT_EVENT_FLAG_CLEAR : Z := 4.

Definition flag_on (x mask : Z) : bool := negb (Z.land x mask =? 0).

Section ops.
Context {L : Type} {St : ListStore loc L}.
Abbreviation K := (M (kst L)).

Definition get_event (i : nat) : K rt_event :=
  let! m := gets k_events in lift_opt Bad_pointer (m !! i).
Definition put_event (i : nat) (r : rt_event) : K unit :=
  modify (fun s => set_events (<[i := r]> s.(k_events)) s).
Definition upd_event (i : nat) (f : rt_event -> rt_event) : K unit :=
  let! r := get_event i in put_event i (f r).

(** [rt_event_init]. *)
Definition rt_event_init (event : nat) (name : list Z) (flag : Z) : K Z :=
  rt_object_init (OIpc (IEvent event)) RT_Object_Class_Event name ;!
  set_object_flag (IEvent event) flag ;!
  rt_ipc_object_init (IEvent event) ;!
  upd_event event (set_ev_set 0) ;!
  ret RT_EOK.

(** [rt_event_detach]. *)
Definition rt_event_detach (event : nat) : K Z :=
  rt_ipc_list_resume_all (LSuspend (IEvent event)) ;!
  rt_object_detach (OIpc (IEvent event)) ;!
  ret RT_EOK.

(** The loop of [rt_event_send] over the waiting threads. *)
Fixpoint event_send_loop (fuel : nat) (event : nat) (n : loc) (need_schedule : bool) : K bool :=
  match fuel with
  | O => fail Out_of_fuel
  | S fuel =>
      if bool_decide (n = LSuspend (IEvent event)) then ret need_schedule
      else
        let! thread := thread_entry n in
        let! th := get_thread thread in
        let! ev := get_event event in
        let! status :=
          (if flag_on th.(t_event_info) RT_EVENT_FLAG_AND then
             ret (Z.land th.(t_event_set) ev.(ev_set) =? th.(t_event_set))
           else if flag_on th.(t_event_info) RT_EVENT_FLAG_OR then
             if flag_on th.(t_event_set) ev.(ev_set) then
               put_thread thread (set_t_event_set (Z.land th.(t_event_set) ev.(ev_set)) th) ;!
               ret true
             else ret false
           else ret false) in
        let! n := list_next n in
        if status : bool then
          let! th := get_thread thread in
          (if flag_on th.(t_event_info) RT_EVENT_FLAG_CLEAR
           then put_event event (set_ev_set (Z.land ev.(ev_set) (Z.lnot th.(t_event_set))) ev)
           else ret tt) ;!
          rt_thread_resume thread ;!
          event_send_loop fuel event n true
        else event_send_loop fuel event n need_schedule
  end.

(** [rt_event_send]. *)
Definition rt_event_send (event : nat) (set : Z) : K Z :=
  if set =? 0 then ret (- RT_ERROR)
  else
    let! level := rt_hw_interrupt_disable in
    upd_event event (fun ev => set_ev_set (Z.lor ev.(ev_set) set) ev) ;!
    let! empty := list_isempty (LSuspend (IEvent event)) in
    let! need_schedule :=
      (if negb empty then
         let! n := list_next (LSuspend (IEvent event)) in
         let! fuel := list_fuel in
         event_send_loop fuel event n false
       else ret false) in
    rt_hw_interrupt_enable level ;!
    (if need_schedule : bool then rt_schedule else ret tt) ;!
    ret RT_EOK.

(** [rt_event_recv]; the result pairs the return code with what is written to
    [*recved], if anything. *)
Definition rt_event_recv (event : nat) (set opt timeout : Z) : K (Z * option Z) :=
  RT_DEBUG_IN_THREAD_CONTEXT ;!
  if set =? 0 then ret (- RT_ERROR, None)
  else
    let! thread := current_deref in
    upd_thread thread (set_t_error RT_EOK) ;!
    let! level := rt_hw_interrupt_disable in
    let! ev := get_event event in
    let! status :=
      (if flag_on opt RT_EVENT_FLAG_AND then ret (Z.land ev.(ev_set) set =? set)
       else if flag_on opt RT_EVENT_FLAG_OR then ret (flag_on ev.(ev_set) set)
       else fail Assert_failed) in
    if status : bool then
      (if flag_on opt RT_EVENT_FLAG_CLEAR
       then put_event event (set_ev_set (Z.land ev.(ev_set) (Z.lnot set)) ev) else ret tt) ;!
      rt_hw_interrupt_enable level ;!
      let! th := get_thread thread in
      ret (th.(t_error), Some (Z.land ev.(ev_set) set))
    else if timeout =? 0 then
      upd_thread thread (set_t_error (- RT_ETIMEOUT)) ;!
      rt_hw_interrupt_enable level ;!
      let! th := get_thread thread in
      ret (th.(t_error), None)
    else
      upd_thread thread (fun th => set_t_event_info opt (set_t_event_set set th)) ;!
      rt_ipc_list_suspend (LSuspend (IEvent event)) thread ev.(ev_parent).(o_flag) ;!
      (if 0 <? timeout then start_wait_timer thread timeout else ret tt) ;!
      rt_hw_interrupt_enable level ;!
      rt_schedule ;!
      let! th := get_thread thread in
      if negb (th.(t_error) =? RT_EOK) then ret (th.(t_error), None)
      else
        let! level := rt_hw_interrupt_disable in
        let! th := get_thread thread in
        let recved := th.(t_event_set) in
        rt_hw_interrupt_enable level ;!
        let! th := get_thread thread in
        ret (th.(t_error), Some recved).

(** [rt_event_control]. *)
Definition rt_event_control (event : nat) (cmd : Z) : K Z :=
  if cmd =? RT_IPC_CMD_RESET then
    let! level := rt_hw_interrupt_disable in
    rt_ipc_list_resume_all (LSuspend (IEvent event)) ;!
    upd_event event (set_ev_set 0) ;!
    rt_hw_interrupt_enable level ;!
    rt_schedule ;!
    ret RT_EOK
  else ret (- RT_ERROR).

End ops.
End Event.

(** ** Mailboxes *)
Module Mailbox.
Import Scheduler Object TimerBase Thread Timer IpcCore.

Section ops.
Context {L : Type} {St : ListStore loc L}.
Abbreviation K := (M (kst L)).

Definition get_mb (i : nat) : K rt_mailbox :=
  let! m := gets k_mbs in lift_opt Bad_pointer (m !! i).
Definition put_mb (i : nat) (r : rt_mailbox) : K unit :=
  modify (fun s => set_mbs (<[i := r]> s.(k_mbs)) s).
Definition upd_mb (i : nat) (f : rt_mailbox -> rt_mailbox) : K unit :=
  let! r := get_mb i in put_mb i (f r).

(** [rt_mb_init]; [msgpool] are the words at [addr], the pool the caller provides. *)
Definition rt_mb_init (mb : nat) (name : list Z) (addr : Z) (msgpool : list Z) (size flag : Z) : K Z :=
  rt_object_init (OIpc (IMb mb)) RT_Object_Class_MailBox name ;!
  set_object_flag (IMb mb) flag ;!
  rt_ipc_object_init (IMb mb) ;!
  upd_mb mb (fun m => Mailbox m.(mb_parent) addr msgpool (u16 size) 0 0 0) ;!
  list_init (LSender mb) ;!
  ret RT_EOK.

(** [rt_mb_detach]. *)
Definition rt_mb_detach (mb : nat) : K Z :=
  rt_ipc_list_resume_all (LSuspend (IMb mb)) ;!
  rt_ipc_list_resume_all (LSender mb) ;!
  rt_object_detach (OIpc (IMb mb)) ;!
  ret RT_EOK.

(** The rest of the waiting time after a wait that started at [start]:
    [tick_delta = rt_tick_get() - tick_delta; timeout -= tick_delta]. *)
Definition remaining_timeout (timeout start : Z) : K Z :=
  if 0 <? timeout then
    let! now := rt_tick_get in
    let timeout := i32 (timeout - u32 (now - start)) in
    ret (if timeout <? 0 then 0 else timeout)
  else ret timeout.

(** One wait of the blocking loops of mailboxes and message queues: suspend on
    [list], arm the timer, reschedule.  The result is the error the thread was
    woken with, or the new interrupt level and the rest of the timeout. *)
Definition wait_round (list : loc) (thread : nat) (flag timeout temp : Z) : K (Z + Z * Z) :=
  rt_ipc_list_suspend list thread flag ;!
  let! start :=
    (if 0 <? timeout then
       let! tick_delta := rt_tick_get in
       start_wait_timer thread timeout ;!
       ret tick_delta
     else ret 0) in
  rt_hw_interrupt_enable temp ;!
  rt_schedule ;!
  let! th := get_thread thread in
  if negb (th.(t_error) =? RT_EOK) then ret (inl th.(t_error))
  else
    let! temp := rt_hw_interrupt_disable in
    let! timeout := remaining_timeout timeout start in
    ret (inr (temp, timeout)).

(** [++ offset; if (offset >= size) offset = 0]. *)
Definition bump (offset size : Z) : Z :=
  let offset := u16 (offset + 1) in if size <=? offset then 0 else offset.

(** The code of [rt_mb_send_wait] after the waiting loop. *)
Definition mb_put (mb : nat) (value temp : Z) : K Z :=
  let! m := get_mb mb in
  let! slot := lift_opt Bad_pointer (m.(mb_msg_pool) !! Z.to_nat m.(mb_in_offset)) in
  put_mb mb (Mailbox m.(mb_parent) m.(mb_pool_addr) (<[Z.to_nat m.(mb_in_offset) := value]> m.(mb_msg_pool))
    m.(mb_size) (u16 (m.(mb_entry) + 1)) (bump m.(mb_in_offset) m.(mb_size)) m.(mb_out_offset)) ;!
  let! empty := list_isempty (LSuspend (IMb mb)) in
  if negb empty then
    rt_ipc_list_resume (LSuspend (IMb mb)) ;!
    rt_hw_interrupt_enable temp ;!
    rt_schedule ;!
    ret RT_EOK
  else
    rt_hw_interrupt_enable temp ;!
    ret RT_EOK.

(** The loop [while (mb->entry == mb->size)].  How often a sender is woken and
    finds the mailbox full again is up to the other threads, hence the fuel. *)
Fixpoint mb_send_loop (fuel : nat) (mb : nat) (thread : option nat) (value timeout temp : Z) : K Z :=
  let! m := get_mb mb in
  if negb (m.(mb_entry) =? m.(mb_size)) then mb_put mb value temp
  else
    let! thread' := lift_opt Bad_pointer thread in
    upd_thread thread' (set_t_error RT_EOK) ;!
    if timeout =? 0 then
      rt_hw_interrupt_enable temp ;!
      ret (- RT_EFULL)
    else
      RT_DEBUG_IN_THREAD_CONTEXT ;!
      let! w := wait_round (LSender mb) thread' m.(mb_parent).(o_flag) timeout temp in
      match w, fuel with
      | inl error, _ => ret error
      | inr _, O => fail Out_of_fuel
      | inr (temp, timeout), S fuel => mb_send_loop fuel mb thread value timeout temp
      end.

(** [rt_mb_send_wait]. *)
Definition rt_mb_send_wait (fuel : nat) (mb : nat) (value timeout : Z) : K Z :=
  let! thread := rt_thread_self in
  let! temp := rt_hw_interrupt_disable in
  let! m := get_mb mb in
  if (m.(mb_entry) =? m.(mb_size)) && (timeout =? 0) then
    rt_hw_interrupt_enable temp ;!
    ret (- RT_EFULL)
  else mb_send_loop fuel mb thread value timeout temp.

(** [rt_mb_send]. *)
Definition rt_mb_send (mb : nat) (value : Z) : K Z := rt_mb_send_wait 0 mb value 0.

(** The code of [rt_mb_recv] after the waiting loop. *)
Definition mb_get (mb : nat) (temp : Z) : K (Z * option Z) :=
  let! m := get_mb mb in
  let! value := lift_opt Bad_pointer (m.(mb_msg_pool) !! Z.to_nat m.(mb_out_offset)) in
  put_mb mb (Mailbox m.(mb_parent) m.(mb_pool_addr) m.(mb_msg_pool) m.(mb_size) (u16 (m.(mb_entry) - 1))
    m.(mb_in_offset) (bump m.(mb_out_offset) m.(mb_size))) ;!
  let! empty := list_isempty (LSender mb) in
  if negb empty then
    rt_ipc_list_resume (LSender mb) ;!
    rt_hw_interrupt_enable temp ;!
    rt_schedule ;!
    ret (RT_EOK, Some value)
  else
    rt_hw_interrupt_enable temp ;!
    ret (RT_EOK, Some value).

(** The loop [while (mb->entry == 0)]. *)
Fixpoint mb_recv_loop (fuel : nat) (mb : nat) (thread : option nat) (timeout temp : Z)
    : K (Z * option Z) :=
  let! m := get_mb mb in
  if negb (m.(mb_entry) =? 0) then mb_get mb temp
  else
    let! thread' := lift_opt Bad_pointer thread in
    upd_thread thread' (set_t_error RT_EOK) ;!
    if timeout =? 0 then
      rt_hw_interrupt_enable temp ;!
      upd_thread thread' (set_t_error (- RT_ETIMEOUT)) ;!
      ret (- RT_ETIMEOUT, None)
    else
      RT_DEBUG_IN_THREAD_CONTEXT ;!
      let! w := wait_round (LSuspend (IMb mb)) thread' m.(mb_parent).(o_flag) timeout temp in
      match w, fuel with
      | inl error, _ => ret (error, None)
      | inr _, O => fail Out_of_fuel
      | inr (temp, timeout), S fuel => mb_recv_loop fuel mb thread timeout temp
      end.

(** [rt_mb_recv]; the result pairs the return code with what is written to
    [*value]. *)
Definition rt_mb_recv (fuel : nat) (mb : nat) (timeout : Z) : K (Z * option Z) :=
  let! thread := rt_thread_self in
  let! temp := rt_hw_interrupt_disable in
  let! m := get_mb mb in
  if (m.(mb_entry) =? 0) && (timeout =? 0) then
    rt_hw_interrupt_enable temp ;!
    ret (- RT_ETIMEOUT, None)
  else mb_recv_loop fuel mb thread timeout temp.

(** [rt_mb_control]. *)
Definition rt_mb_control (mb : nat) (cmd : Z) : K Z :=
  if cmd =? RT_IPC_CMD_RESET then
    let! level := rt_hw_interrupt_disable in
    rt_ipc_list_resume_all (LSuspend (IMb mb)) ;!
    rt_ipc_list_resume_all (LSender mb) ;!
    upd_mb mb (fun m => Mailbox m.(mb_parent) m.(mb_pool_addr) m.(mb_msg_pool) m.(mb_size) 0 0 0) ;!
    rt_hw_interrupt_enable level ;!
    rt_schedule ;!
    ret RT_EOK
  else ret (- RT_ERROR).

End ops.
End Mailbox.

(** ** Message queues *)
Module MsgQueue.
Import Scheduler Object TimerBase Thread Timer IpcCore Mailbox.

Definition RT_ALIGN_SIZE : Z := 4.
Definition sizeof_rt_mq_message : Z := 4.

Section ops.
Context {L : Type} {St : ListStore loc L}.
Abbreviation K := (M (kst L)).

Definition get_mq (i : nat) : K rt_messagequeue :=
  let! m := gets k_mqs in lift_opt Bad_pointer (m !! i).
Definition put_mq (i : nat) (r : rt_messagequeue) : K unit :=
  modify (fun s => set_mqs (<[i := r]> s.(k_mqs)) s).
Definition upd_mq (i : nat) (f : rt_messagequeue -> rt_messagequeue) : K unit :=
  let! r := get_mq i in put_mq i (f r).

(** [msg->next]. *)
Definition msg_next (q : rt_messagequeue) (msg : nat) : K (option nat) :=
  lift_opt Bad_pointer (q.(mq_next) !! msg).
Definition set_msg_next (msg : nat) (v : option nat) (q : rt_messagequeue) : rt_messagequeue :=
  set_mq_next (<[msg := v]> q.(mq_next)) q.

(** [rt_memcpy(msg + 1, buffer, size)]: the first bytes of the cell. *)
Definition msg_write (mq msg : nat) (buffer : list Z) : K unit :=
  let! q := get_mq mq in
  let! old := lift_opt Bad_pointer (q.(mq_data) !! msg) in
  put_mq mq (set_mq_data (<[msg := buffer ++ drop (length buffer) old]> q.(mq_data)) q).

(** The free list built by [rt_mq_init] and [rt_mq_create]. *)
Fixpoint mq_free_list (cells : list nat) (free : option nat) (next : gmap nat (option nat))
    : option nat * gmap nat (option nat) :=
  match cells with
  | [] => (free, next)
  | c :: cells => mq_free_list cells (Some c) (<[c := free]> next)
  end.

(** [rt_mq_init]; [msgpool] gives the bytes that are in the cells of the pool at
    [addr]. *)
Definition rt_mq_init (mq : nat) (name : list Z) (addr : Z) (msgpool : gmap nat (list Z))
    (msg_size pool_size flag : Z) : K Z :=
  rt_object_init (OIpc (IMq mq)) RT_Object_Class_MessageQueue name ;!
  set_object_flag (IMq mq) flag ;!
  rt_ipc_object_init (IMq mq) ;!
  let msg_size := u16 (RT_ALIGN msg_size RT_ALIGN_SIZE) in
  let max_msgs := u16 (pool_size / (msg_size + sizeof_rt_mq_message)) in
  let '(free, next) := mq_free_list (seq 0 (Z.to_nat max_msgs)) None ∅ in
  upd_mq mq (fun q => MessageQueue q.(mq_parent) addr next msgpool msg_size max_msgs 0 None None free) ;!
  ret RT_EOK.

(** [rt_mq_detach]. *)
Definition rt_mq_detach (mq : nat) : K Z :=
  rt_ipc_list_resume_all (LSuspend (IMq mq)) ;!
  rt_object_detach (OIpc (IMq mq)) ;!
  ret RT_EOK.

(** Take the first free cell, interrupts being disabled; [None] when the queue
    is full. *)
Definition mq_alloc (mq : nat) : K (option nat) :=
  let! q := get_mq mq in
  match q.(mq_queue_free) with
  | None => ret None
  | Some msg =>
      let! next := msg_next q msg in
      put_mq mq (set_mq_queue_free next q) ;!
      ret (Some msg)
  end.

(** Wake a waiting receiver, if any, and leave. *)
Definition mq_notify (mq : nat) (temp : Z) : K Z :=
  let! empty := list_isempty (LSuspend (IMq mq)) in
  if negb empty then
    rt_ipc_list_resume (LSuspend (IMq mq)) ;!
    rt_hw_interrupt_enable temp ;!
    rt_schedule ;!
    ret RT_EOK
  else
    rt_hw_interrupt_enable temp ;!
    ret RT_EOK.

(** Append cell [msg] to the queue ([rt_mq_send]). *)
Definition mq_link_tail (msg : nat) (q : rt_messagequeue) : rt_messagequeue :=
  let q := match q.(mq_queue_tail) with Some t => set_msg_next t (Some msg) q | None => q end in
  let q := set_mq_queue_tail (Some msg) q in
  let q := match q.(mq_queue_head) with None => set_mq_queue_head (Some msg) q | Some _ => q end in
  set_mq_entry (u16 (q.(mq_entry) + 1)) q.

(** Put cell [msg] in front of the queue ([rt_mq_urgent]). *)
Definition mq_link_head (msg : nat) (q : rt_messagequeue) : rt_messagequeue :=
  let q := set_msg_next msg q.(mq_queue_head) q in
  let q := set_mq_queue_head (Some msg) q in
  let q := match q.(mq_queue_tail) with None => set_mq_queue_tail (Some msg) q | Some _ => q end in
  set_mq_entry (u16 (q.(mq_entry) + 1)) q.

(** [rt_mq_send]; [buffer] holds the [size] bytes to send. *)
Definition rt_mq_send (mq : nat) (buffer : list Z) : K Z :=
  let size := Z.of_nat (length buffer) in
  rt_assert (negb (size =? 0)) ;!
  let! q := get_mq mq in
  if q.(mq_msg_size) <? size then ret (- RT_ERROR)
  else
    let! temp := rt_hw_interrupt_disable in
    let! msg := mq_alloc mq in
    match msg with
    | None => rt_hw_interrupt_enable temp ;! ret (- RT_EFULL)
    | Some msg =>
        rt_hw_interrupt_enable temp ;!
        upd_mq mq (set_msg_next msg None) ;!
        msg_write mq msg buffer ;!
        let! temp := rt_hw_interrupt_disable in
        upd_mq mq (mq_link_tail msg) ;!
        mq_notify mq temp
    end.

(** [rt_mq_urgent]. *)
Definition rt_mq_urgent (mq : nat) (buffer : list Z) : K Z :=
  let size := Z.of_nat (length buffer) in
  rt_assert (negb (size =? 0)) ;!
  let! q := get_mq mq in
  if q.(mq_msg_size) <? size then ret (- RT_ERROR)
  else
    let! temp := rt_hw_interrupt_disable in
    let! msg := mq_alloc mq in
    match msg with
    | None => rt_hw_interrupt_enable temp ;! ret (- RT_EFULL)
    | Some msg =>
        rt_hw_interrupt_enable temp ;!
        msg_write mq msg buffer ;!
        let! temp := rt_hw_interrupt_disable in
        upd_mq mq (mq_link_head msg) ;!
        mq_notify mq temp
    end.

(** Unlink the first message; a queue with [entry > 0] and no head is a bad
    pointer. *)
Definition mq_unlink (mq : nat) : K nat :=
  let! q := get_mq mq in
  let! msg := lift_opt Bad_pointer q.(mq_queue_head) in
  let! next := msg_next q msg in
  put_mq mq (let q := set_mq_queue_head next q in
    if bool_decide (q.(mq_queue_tail) = Some msg) then set_mq_queue_tail None q else q) ;!
  ret msg.

(** Give cell [msg] back to the free list. *)
Definition mq_free (msg : nat) (q : rt_messagequeue) : rt_messagequeue :=
  set_mq_queue_free (Some msg) (set_msg_next msg q.(mq_queue_free) q).

(** The code of [rt_mq_recv] after the waiting loop; the bytes copied out. *)
Definition mq_take (mq : nat) (size temp : Z) : K (Z * option (list Z)) :=
  let! msg := mq_unlink mq in
  upd_mq mq (fun q => set_mq_entry (u16 (q.(mq_entry) - 1)) q) ;!
  rt_hw_interrupt_enable temp ;!
  let! q := get_mq mq in
  let n := if q.(mq_msg_size) <? size then q.(mq_msg_size) else size in
  let! cell := lift_opt Bad_pointer (q.(mq_data) !! msg) in
  let data := take (Z.to_nat n) cell in
  let! temp := rt_hw_interrupt_disable in
  upd_mq mq (mq_free msg) ;!
  rt_hw_interrupt_enable temp ;!
  ret (RT_EOK, Some data).

(** The loop [while (mq->entry == 0)]. *)
Fixpoint mq_recv_loop (fuel : nat) (mq : nat) (thread : option nat) (size timeout temp : Z)
    : K (Z * option (list Z)) :=
  let! q := get_mq mq in
  if negb (q.(mq_entry) =? 0) then mq_take mq size temp
  else
    RT_DEBUG_IN_THREAD_CONTEXT ;!
    let! thread' := lift_opt Bad_pointer thread in
    upd_thread thread' (set_t_error RT_EOK) ;!
    if timeout =? 0 then
      rt_hw_interrupt_enable temp ;!
      upd_thread thread' (set_t_error (- RT_ETIMEOUT)) ;!
      ret (- RT_ETIMEOUT, None)
    else
      let! w := wait_round (LSuspend (IMq mq)) thread' q.(mq_parent).(o_flag) timeout temp in
      match w, fuel with
      | inl error, _ => ret (error, None)
      | inr _, O => fail Out_of_fuel
      | inr (temp, timeout), S fuel => mq_recv_loop fuel mq thread size timeout temp
      end.

(** [rt_mq_recv]. *)
Definition rt_mq_recv (fuel : nat) (mq : nat) (size timeout : Z) : K (Z * option (list Z)) :=
  rt_assert (negb (size =? 0)) ;!
  let! thread := rt_thread_self in
  let! temp := rt_hw_interrupt_disable in
  let! q := get_mq mq in
  if (q.(mq_entry) =? 0) && (timeout =? 0) then
    rt_hw_interrupt_enable temp ;!
    ret (- RT_ETIMEOUT, None)
  else mq_recv_loop fuel mq thread size timeout temp.

(** The loop of [rt_mq_control] that releases all messages. *)
Fixpoint mq_flush_loop (fuel : nat) (mq : nat) : K unit :=
  match fuel with
  | O => fail Out_of_fuel
  | S fuel =>
      let! q := get_mq mq in
      match q.(mq_queue_head) with
      | None => ret tt
      | Some _ =>
          let! msg := mq_unlink mq in
          upd_mq mq (mq_free msg) ;!
          mq_flush_loop fuel mq
      end
  end.

(** [rt_mq_control]; the queue holds at most one message per cell, which bounds
    the loop. *)
Definition rt_mq_control (mq : nat) (cmd : Z) : K Z :=
  if cmd =? RT_IPC_CMD_RESET then
    let! level := rt_hw_interrupt_disable in
    rt_ipc_list_resume_all (LSuspend (IMq mq)) ;!
    let! q := get_mq mq in
    mq_flush_loop (S (size q.(mq_next))) mq ;!
    upd_mq mq (set_mq_entry 0) ;!
    rt_hw_interrupt_enable level ;!
    rt_schedule ;!
    ret RT_EOK
  else ret (- RT_ERROR).

End ops.
End MsgQueue.
