(* ===== verification/Mem.v ===== *)
(** * [mem.c]: the small-memory heap

    The heap lives in the byte-addressed memory of [Ram.v]: a [struct heap_mem]
    is the twelve bytes at its address (two 16-bit and two 32-bit fields), and
    user data lies between the headers.  The static variables of the file form
    the record [heap]; a call runs on the kernel state and the heap together.
    Between taking and releasing [heap_sem] the code uses the heap only, and
    those parts are written over [heap] alone.  [RT_USING_MEMTRACE] is not
    defined; a null pointer is 0. *)
From S2P Require Import Prelude Ram RtList KMonad KState KPrim Scheduler Object TimerBase Thread Timer Ipc.
Local Open Scope Z_scope.
Local Open Scope kmonad_scope.

Module Mem.
Import Ram.

Definition HEAP_MAGIC : Z := 0x1ea0.
Definition RT_ALIGN_SIZE : Z := 4.
Definition MIN_SIZE : Z := 12.
Definition MIN_SIZE_ALIGNED : Z := RT_ALIGN MIN_SIZE RT_ALIGN_SIZE.
(** [sizeof(struct heap_mem)] is 12. *)
Definition SIZEOF_STRUCT_MEM : Z := RT_ALIGN 12 RT_ALIGN_SIZE.

Record heap := Heap {
  hp_ram : ram;
  hp_sem : nat;          (** the semaphore object [heap_sem] *)
  hp_ptr : Z;            (** [heap_ptr] *)
  hp_end : Z;            (** [heap_end] *)
  hp_lfree : Z;          (** [lfree] *)
  hp_size : Z;           (** [mem_size_aligned] *)
  hp_used : Z;           (** [used_mem] *)
  hp_max : Z;            (** [max_mem] *)
}.

Definition set_hp_ram v h := Heap v h.(hp_sem) h.(hp_ptr) h.(hp_end) h.(hp_lfree) h.(hp_size) h.(hp_used) h.(hp_max).
Definition set_hp_ptr v h := Heap h.(hp_ram) h.(hp_sem) v h.(hp_end) h.(hp_lfree) h.(hp_size) h.(hp_used) h.(hp_max).
Definition set_hp_end v h := Heap h.(hp_ram) h.(hp_sem) h.(hp_ptr) v h.(hp_lfree) h.(hp_size) h.(hp_used) h.(hp_max).
Definition set_hp_lfree v h := Heap h.(hp_ram) h.(hp_sem) h.(hp_ptr) h.(hp_end) v h.(hp_size) h.(hp_used) h.(hp_max).
Definition set_hp_size v h := Heap h.(hp_ram) h.(hp_sem) h.(hp_ptr) h.(hp_end) h.(hp_lfree) v h.(hp_used) h.(hp_max).
Definition set_hp_used v h := Heap h.(hp_ram) h.(hp_sem) h.(hp_ptr) h.(hp_end) h.(hp_lfree) h.(hp_size) v h.(hp_max).
Definition set_hp_max v h := Heap h.(hp_ram) h.(hp_sem) h.(hp_ptr) h.(hp_end) h.(hp_lfree) h.(hp_size) h.(hp_used) v.

(** ** Access to memory and to the fields of a [struct heap_mem] *)
Abbreviation HM := (M heap).

Definition ld (n : nat) (a : Z) : HM Z := fun h => lift_opt Bad_pointer (load n h.(hp_ram) a) h.
Definition ram_op (f : ram -> option ram) : HM unit := fun h =>
  match f h.(hp_ram) with Some m => Ok tt (set_hp_ram m h) | None => Err Bad_pointer end.
Definition st (n : nat) (a v : Z) : HM unit := ram_op (fun m => store n m a v).

Definition get_magic (mem : Z) : HM Z := ld 2 mem.
Definition get_used (mem : Z) : HM Z := ld 2 (mem + 2).
Definition get_next (mem : Z) : HM Z := ld 4 (mem + 4).
Definition get_prev (mem : Z) : HM Z := ld 4 (mem + 8).
Definition set_magic (mem v : Z) : HM unit := st 2 mem v.
Definition set_used (mem v : Z) : HM unit := st 2 (mem + 2) v.
Definition set_next (mem v : Z) : HM unit := st 4 (mem + 4) v.
Definition set_prev (mem v : Z) : HM unit := st 4 (mem + 8) v.

(** [(struct heap_mem * )&heap_ptr[off]] and [(rt_uint8_t * )mem - heap_ptr]. *)
Definition heap_at (off : Z) : HM Z := gets (fun h => u32 (h.(hp_ptr) + off)).
Definition heap_off (mem : Z) : HM Z := gets (fun h => u32 (mem - h.(hp_ptr))).

Definition set_lfree (mem : Z) : HM unit := modify (set_hp_lfree mem).
(** [used_mem += n; if (max_mem < used_mem) max_mem = used_mem]. *)
Definition count_used (n : Z) : HM unit :=
  modify (fun h => set_hp_used (u32 (h.(hp_used) + n)) h) ;!
  modify (fun h => if h.(hp_max) <? h.(hp_used) then set_hp_max h.(hp_used) h else h).

(** ** [plug_holes] *)
(** [a->next = b->next; heap_ptr[b->next]->prev = (rt_uint8_t * )a - heap_ptr]. *)
Definition absorb (a b : Z) : HM unit :=
  let! next := get_next b in
  set_next a next ;!
  let! next := get_next b in
  let! nn := heap_at next in
  let! off := heap_off a in
  set_prev nn off.

(** Plug hole forward: join [mem] and the block behind it. *)
Definition plug_forward (mem : Z) : HM unit :=
  let! next := get_next mem in
  let! nmem := heap_at next in
  if mem =? nmem then ret tt
  else
    let! nused := get_used nmem in
    let! hend := gets hp_end in
    if (nused =? 0) && negb (nmem =? hend) then
      let! lfree := gets hp_lfree in
      (if lfree =? nmem then set_lfree mem else ret tt) ;!
      absorb mem nmem
    else ret tt.

(** Plug hole backward: join [mem] and the block before it. *)
Definition plug_backward (mem : Z) : HM unit :=
  let! prev := get_prev mem in
  let! pmem := heap_at prev in
  if pmem =? mem then ret tt
  else
    let! pused := get_used pmem in
    if pused =? 0 then
      let! lfree := gets hp_lfree in
      (if lfree =? mem then set_lfree pmem else ret tt) ;!
      absorb pmem mem
    else ret tt.

Definition plug_holes (mem : Z) : HM unit :=
  let! h := gets (fun h => h) in
  rt_assert (h.(hp_ptr) <=? mem) ;!
  rt_assert (mem <? h.(hp_end)) ;!
  let! used := get_used mem in
  rt_assert (used =? 0) ;!
  plug_forward mem ;!
  plug_backward mem.

(** ** [rt_malloc] under the semaphore *)

(** [while (lfree->used && lfree != heap_end) lfree = &heap_ptr[lfree->next]]. *)
Fixpoint lfree_loop (fuel : nat) : HM unit :=
  match fuel with
  | O => fail Out_of_fuel
  | S fuel =>
      let! h := gets (fun h => h) in
      let! used := get_used h.(hp_lfree) in
      if negb (used =? 0) && negb (h.(hp_lfree) =? h.(hp_end)) then
        let! next := get_next h.(hp_lfree) in
        let! lf := heap_at next in
        set_lfree lf ;!
        lfree_loop fuel
      else ret tt
  end.

(** The blocks of a heap are at least four bytes apart. *)
Definition heap_fuel : HM nat := gets (fun h => S (Z.to_nat h.(hp_size))).

(** Create the block [mem2] at [ptr2] behind [mem] (at [ptr]) and insert it
    between [mem] and [mem->next]: [rt_malloc] and [rt_realloc] do the same. *)
Definition create_mem2 (mem ptr ptr2 : Z) : HM Z :=
  let! mem2 := heap_at ptr2 in
  set_magic mem2 HEAP_MAGIC ;!
  set_used mem2 0 ;!
  let! next := get_next mem in
  set_next mem2 next ;!
  set_prev mem2 ptr ;!
  set_next mem ptr2 ;!
  ret mem2.

(** [if (mem2->next != mem_size_aligned + SIZEOF_STRUCT_MEM) heap_ptr[mem2->next]->prev = ptr2]. *)
Definition relink_next (mem2 ptr2 : Z) : HM unit :=
  let! msa := gets hp_size in
  let! next2 := get_next mem2 in
  if negb (next2 =? u32 (msa + SIZEOF_STRUCT_MEM)) then
    let! nmem := heap_at next2 in
    set_prev nmem ptr2
  else ret tt.

(** The body of the branch that allocates [mem] at offset [ptr]: split the
    block or take it whole, ... *)
Definition malloc_mark (mem ptr size : Z) : HM unit :=
  let! next := get_next mem in
  if u32 (size + SIZEOF_STRUCT_MEM + MIN_SIZE_ALIGNED) <=? u32 (next - u32 (ptr + SIZEOF_STRUCT_MEM)) then
    let ptr2 := u32 (ptr + SIZEOF_STRUCT_MEM + size) in
    let! mem2 := create_mem2 mem ptr ptr2 in
    set_used mem 1 ;!
    relink_next mem2 ptr2 ;!
    count_used (size + SIZEOF_STRUCT_MEM)
  else
    set_used mem 1 ;!
    let! next := get_next mem in
    let! off := heap_off mem in
    count_used (u32 (next - off)).

(** ... then look for the next lowest free block. *)
Definition malloc_take (mem ptr size : Z) : HM unit :=
  malloc_mark mem ptr size ;!
  set_magic mem HEAP_MAGIC ;!
  let! h := gets (fun h => h) in
  if mem =? h.(hp_lfree) then
    let! fuel := heap_fuel in
    lfree_loop fuel ;!
    let! h := gets (fun h => h) in
    let! used := get_used h.(hp_lfree) in
    rt_assert ((h.(hp_lfree) =? h.(hp_end)) || (used =? 0))
  else ret tt.

(** The [for] loop: the allocated [struct heap_mem], if any. *)
Fixpoint malloc_loop (fuel : nat) (size ptr : Z) : HM (option Z) :=
  match fuel with
  | O => fail Out_of_fuel
  | S fuel =>
      let! msa := gets hp_size in
      if ptr <? u32 (msa - size) then
        let! mem := heap_at ptr in
        let! used := get_used mem in
        let! next := get_next mem in
        if (used =? 0) && (size <=? u32 (next - u32 (ptr + SIZEOF_STRUCT_MEM))) then
          malloc_take mem ptr size ;!
          ret (Some mem)
        else
          let! mem := heap_at ptr in
          let! ptr := get_next mem in
          malloc_loop fuel size ptr
      else ret None
  end.

(** What [rt_malloc] does between taking and releasing the semaphore. *)
Definition malloc_locked (size : Z) : HM (option Z) :=
  let! fuel := heap_fuel in
  let! lfree := gets hp_lfree in
  let! ptr := heap_off lfree in
  malloc_loop fuel size ptr.

(** What [rt_free] does between taking and releasing the semaphore. *)
Definition free_locked (mem : Z) : HM unit :=
  let! used := get_used mem in
  let! magic := get_magic mem in
  rt_assert (negb (used =? 0)) ;!
  rt_assert (magic =? HEAP_MAGIC) ;!
  set_used mem 0 ;!
  set_magic mem HEAP_MAGIC ;!
  let! lfree := gets hp_lfree in
  (if mem <? lfree then set_lfree mem else ret tt) ;!
  let! next := get_next mem in
  let! off := heap_off mem in
  modify (fun h => set_hp_used (u32 (h.(hp_used) - u32 (next - off))) h) ;!
  plug_holes mem.

(** The branch of [rt_realloc] that splits a block, up to the release. *)
Definition realloc_split (mem ptr size newsize : Z) : HM unit :=
  modify (fun h => set_hp_used (u32 (h.(hp_used) - u32 (size - newsize))) h) ;!
  let ptr2 := u32 (ptr + SIZEOF_STRUCT_MEM + newsize) in
  let! mem2 := create_mem2 mem ptr ptr2 in
  relink_next mem2 ptr2 ;!
  plug_holes mem2.

(** ** The operations, on the kernel and the heap *)
Section ops.
Context {L : Type} {St : ListStore loc L}.
Abbreviation H := (M (kst L * heap)).

Definition on_heap {A} (m : HM A) : H A := fun s => res_beside s.1 (m s.2).

Definition take_heap_sem : H unit :=
  let! h := gets snd in
  kernel (Sem.rt_sem_take h.(hp_sem) RT_WAITING_FOREVER) ;! ret tt.
Definition release_heap_sem : H unit :=
  let! h := gets snd in
  kernel (Sem.rt_sem_release h.(hp_sem)) ;! ret tt.

(** [rt_system_heap_init]. *)
Definition rt_system_heap_init (begin_addr end_addr : Z) : H unit :=
  let begin_align := RT_ALIGN begin_addr RT_ALIGN_SIZE in
  let end_align := RT_ALIGN_DOWN end_addr RT_ALIGN_SIZE in
  kernel RT_DEBUG_NOT_IN_INTERRUPT ;!
  if (2 * SIZEOF_STRUCT_MEM <? end_align) && (begin_align <=? end_align - 2 * SIZEOF_STRUCT_MEM) then
    let msa := end_align - begin_align - 2 * SIZEOF_STRUCT_MEM in
    on_heap (
      modify (set_hp_size msa) ;!
      modify (set_hp_ptr begin_align) ;!
      let mem := begin_align in
      set_magic mem HEAP_MAGIC ;!
      set_next mem (u32 (msa + SIZEOF_STRUCT_MEM)) ;!
      set_prev mem 0 ;!
      set_used mem 0 ;!
      let! next := get_next mem in
      let! hend := heap_at next in
      modify (set_hp_end hend) ;!
      set_magic hend HEAP_MAGIC ;!
      set_used hend 1 ;!
      set_next hend (u32 (msa + SIZEOF_STRUCT_MEM)) ;!
      set_prev hend (u32 (msa + SIZEOF_STRUCT_MEM))) ;!
    let! h := gets snd in
    kernel (Sem.rt_sem_init h.(hp_sem) [104; 101; 97; 112; 0] 1 RT_IPC_FLAG_FIFO) ;!
    on_heap (set_lfree begin_align)
  else ret tt.

(** [rt_malloc]: 0 is RT_NULL. *)
Definition rt_malloc (size : Z) : H Z :=
  kernel RT_DEBUG_NOT_IN_INTERRUPT ;!
  if size =? 0 then ret 0
  else
    let size := RT_ALIGN size RT_ALIGN_SIZE in
    let! h := gets snd in
    if h.(hp_size) <? size then ret 0
    else
      let size := if size <? MIN_SIZE_ALIGNED then MIN_SIZE_ALIGNED else size in
      take_heap_sem ;!
      let! r := on_heap (malloc_locked size) in
      match r with
      | Some mem =>
          release_heap_sem ;!
          let! h := gets snd in
          rt_assert (u32 (mem + SIZEOF_STRUCT_MEM + size) <=? h.(hp_end)) ;!
          rt_assert (u32 (mem + SIZEOF_STRUCT_MEM) mod RT_ALIGN_SIZE =? 0) ;!
          rt_assert (Z.land mem (RT_ALIGN_SIZE - 1) =? 0) ;!
          ret (u32 (mem + SIZEOF_STRUCT_MEM))
      | None =>
          release_heap_sem ;!
          ret 0
      end.

(** [rt_free]. *)
Definition rt_free (rmem : Z) : H unit :=
  kernel RT_DEBUG_NOT_IN_INTERRUPT ;!
  if rmem =? 0 then ret tt
  else
    rt_assert (Z.land rmem (RT_ALIGN_SIZE - 1) =? 0) ;!
    let! h := gets snd in
    rt_assert ((h.(hp_ptr) <=? rmem) && (rmem <? h.(hp_end))) ;!
    if (rmem <? h.(hp_ptr)) || (h.(hp_end) <=? rmem) then ret tt
    else
      let mem := u32 (rmem - SIZEOF_STRUCT_MEM) in
      take_heap_sem ;!
      on_heap (free_locked mem) ;!
      release_heap_sem.

(** [rt_realloc]. *)
Definition rt_realloc (rmem newsize : Z) : H Z :=
  kernel RT_DEBUG_NOT_IN_INTERRUPT ;!
  let newsize := RT_ALIGN newsize RT_ALIGN_SIZE in
  let! h := gets snd in
  if h.(hp_size) <? newsize then ret 0
  else if newsize =? 0 then rt_free rmem ;! ret 0
  else if rmem =? 0 then rt_malloc newsize
  else
    take_heap_sem ;!
    let! h := gets snd in
    if (rmem <? h.(hp_ptr)) || (h.(hp_end) <=? rmem) then
      release_heap_sem ;! ret rmem
    else
      let mem := u32 (rmem - SIZEOF_STRUCT_MEM) in
      let! ptr := on_heap (heap_off mem) in
      let! next := on_heap (get_next mem) in
      let size := u32 (next - ptr - SIZEOF_STRUCT_MEM) in
      if size =? newsize then release_heap_sem ;! ret rmem
      else if u32 (newsize + SIZEOF_STRUCT_MEM + MIN_SIZE) <? size then
        on_heap (realloc_split mem ptr size newsize) ;!
        release_heap_sem ;!
        ret rmem
      else
        release_heap_sem ;!
        let! nmem := rt_malloc newsize in
        (if negb (nmem =? 0) then
           on_heap (ram_op (fun m => rt_memcpy m nmem rmem (if size <? newsize then size else newsize))) ;!
           rt_free rmem
         else ret tt) ;!
        ret nmem.

(** [rt_calloc]. *)
Definition rt_calloc (count size : Z) : H Z :=
  kernel RT_DEBUG_NOT_IN_INTERRUPT ;!
  let! p := rt_malloc (u32 (count * size)) in
  (if negb (p =? 0) then on_heap (ram_op (fun m => rt_memset m p 0 (u32 (count * size)))) else ret tt) ;!
  ret p.

(** [rt_memory_info]: the three numbers stored through its pointers. *)
Definition rt_memory_info : H (Z * Z * Z) :=
  let! h := gets snd in
  ret (h.(hp_size), h.(hp_used), h.(hp_max)).

End ops.
End Mem.
