(* ===== verification/MemHeap.v ===== *)
(** * [memheap.c]: memory heaps

    A memory heap manages a pool of its own.  Its blocks, free and used, form a
    ring in the order of their addresses, closed by an empty used block at the
    end of the pool; the free ones form a second ring through the [free_header]
    of the heap.  The headers of blocks are records by their address
    ([ms_items]); the data behind them are bytes of [ms_ram].  What a header
    holds before its fields are written is a parameter, [raw_item]. *)
From S2P Require Import Prelude Kservice Ram RtList KMonad KState KPrim Scheduler Object TimerBase Thread Timer Ipc Mem.
Local Open Scope Z_scope.
Local Open Scope kmonad_scope.

Module MemHeap.
Import Kservice Scheduler Object Thread IpcCore Sem Ram.

Definition RT_MEMHEAP_MAGIC : Z := 0x1ea01ea0.
Definition RT_MEMHEAP_MASK : Z := 0xfffffffe.
Definition RT_MEMHEAP_USED : Z := 0x01.
Definition RT_MEMHEAP_MINIALLOC : Z := 12.
(** [RT_ALIGN(sizeof(struct rt_memheap_item), RT_ALIGN_SIZE)]: six words. *)
Definition RT_MEMHEAP_SIZE : Z := 24.

(** [struct rt_memheap_item]; [it_pool_ptr] is the number of the heap. *)
Record rt_memheap_item := Item {
  it_magic : Z;
  it_pool_ptr : nat;
  it_next : Z;
  it_prev : Z;
  it_next_free : Z;
  it_prev_free : Z;
}.
Definition set_it_magic v i := Item v i.(it_pool_ptr) i.(it_next) i.(it_prev) i.(it_next_free) i.(it_prev_free).
Definition set_it_pool_ptr v i := Item i.(it_magic) v i.(it_next) i.(it_prev) i.(it_next_free) i.(it_prev_free).
Definition set_it_next v i := Item i.(it_magic) i.(it_pool_ptr) v i.(it_prev) i.(it_next_free) i.(it_prev_free).
Definition set_it_prev v i := Item i.(it_magic) i.(it_pool_ptr) i.(it_next) v i.(it_next_free) i.(it_prev_free).
Definition set_it_next_free v i := Item i.(it_magic) i.(it_pool_ptr) i.(it_next) i.(it_prev) v i.(it_prev_free).
Definition set_it_prev_free v i := Item i.(it_magic) i.(it_pool_ptr) i.(it_next) i.(it_prev) i.(it_next_free) v.

(** [struct rt_memheap] but for [parent], which is in the kernel state.
    [mh_free_header] is the address of [free_header], [mh_lock] the number of the
    semaphore [lock]. *)
Record rt_memheap := Memheap {
  mh_start_addr : Z;
  mh_pool_size : Z;
  mh_available_size : Z;
  mh_max_used_size : Z;
  mh_block_list : Z;
  mh_free_list : Z;
  mh_free_header : Z;
  mh_lock : nat;
}.
Definition set_mh_available_size v h := Memheap h.(mh_start_addr) h.(mh_pool_size) v h.(mh_max_used_size) h.(mh_block_list) h.(mh_free_list) h.(mh_free_header) h.(mh_lock).
Definition set_mh_max_used_size v h := Memheap h.(mh_start_addr) h.(mh_pool_size) h.(mh_available_size) v h.(mh_block_list) h.(mh_free_list) h.(mh_free_header) h.(mh_lock).
Definition set_mh_block_list v h := Memheap h.(mh_start_addr) h.(mh_pool_size) h.(mh_available_size) h.(mh_max_used_size) v h.(mh_free_list) h.(mh_free_header) h.(mh_lock).
Definition set_mh_free_list v h := Memheap h.(mh_start_addr) h.(mh_pool_size) h.(mh_available_size) h.(mh_max_used_size) h.(mh_block_list) v h.(mh_free_header) h.(mh_lock).

Record mstore := Mstore {
  ms_heaps : gmap nat rt_memheap;
  ms_items : gmap Z rt_memheap_item;
  ms_ram : ram;
}.
Definition set_ms_heaps v s := Mstore v s.(ms_items) s.(ms_ram).
Definition set_ms_items v s := Mstore s.(ms_heaps) v s.(ms_ram).
Definition set_ms_ram v s := Mstore s.(ms_heaps) s.(ms_items) v.

(** ** Under the lock *)
Abbreviation MM := (M mstore).

Definition get_memheap (i : nat) : MM rt_memheap :=
  let! m := gets ms_heaps in lift_opt Bad_pointer (m !! i).
Definition upd_memheap (i : nat) (f : rt_memheap -> rt_memheap) : MM unit :=
  let! h := get_memheap i in
  modify (fun s => set_ms_heaps (<[i := f h]> s.(ms_heaps)) s).
Definition get_item (a : Z) : MM rt_memheap_item :=
  let! m := gets ms_items in lift_opt Bad_pointer (m !! a).
Definition upd_item (a : Z) (f : rt_memheap_item -> rt_memheap_item) : MM unit :=
  let! x := get_item a in
  modify (fun s => set_ms_items (<[a := f x]> s.(ms_items)) s).

(** [MEMITEM_SIZE(item)]. *)
Definition MEMITEM_SIZE (item : Z) : MM Z :=
  let! x := get_item item in ret (u32 (x.(it_next) - item - RT_MEMHEAP_SIZE)).

(** [RT_MEMHEAP_IS_USED(i)]. *)
Definition RT_MEMHEAP_IS_USED (item : Z) : MM bool :=
  let! x := get_item item in ret (negb (Z.land x.(it_magic) RT_MEMHEAP_USED =? 0)).

Section locked.
Context (raw_item : rt_memheap_item).

(** The memory at [a] becomes a header. *)
Definition place_item (a : Z) : MM unit :=
  modify (fun s => set_ms_items (<[a := raw_item]> s.(ms_items)) s).

(** Take [item] out of the free list: the two assignments before its pointers
    are reset. *)
Definition remove_free (item : Z) : MM unit :=
  let! x := get_item item in
  upd_item x.(it_next_free) (set_it_prev_free x.(it_prev_free)) ;!
  let! x := get_item item in
  upd_item x.(it_prev_free) (set_it_next_free x.(it_next_free)).

(** Insert [item] behind the head of the free list. *)
Definition insert_free (heap : nat) (item : Z) : MM unit :=
  let! h := get_memheap heap in
  let! fl := get_item h.(mh_free_list) in
  upd_item item (set_it_next_free fl.(it_next_free)) ;!
  upd_item item (set_it_prev_free h.(mh_free_list)) ;!
  let! fl := get_item h.(mh_free_list) in
  upd_item fl.(it_next_free) (set_it_prev_free item) ;!
  upd_item h.(mh_free_list) (set_it_next_free item).

(** A free block [item] is made behind [header] in the ring of blocks. *)
Definition split_after (heap : nat) (header item : Z) : MM unit :=
  place_item item ;!
  upd_item item (set_it_magic RT_MEMHEAP_MAGIC) ;!
  upd_item item (set_it_pool_ptr heap) ;!
  upd_item item (set_it_prev header) ;!
  let! hd := get_item header in
  upd_item item (set_it_next hd.(it_next)) ;!
  let! hd := get_item header in
  upd_item hd.(it_next) (set_it_prev item) ;!
  upd_item header (set_it_next item).

(** [available_size] gets less, [max_used_size] follows. *)
Definition take_bytes (heap : nat) (n : Z) : MM unit :=
  upd_memheap heap (fun h => set_mh_available_size (u32 (h.(mh_available_size) - n)) h) ;!
  upd_memheap heap (fun h =>
    if h.(mh_max_used_size) <? u32 (h.(mh_pool_size) - h.(mh_available_size))
    then set_mh_max_used_size (u32 (h.(mh_pool_size) - h.(mh_available_size))) h else h).
Definition give_bytes (heap : nat) (n : Z) : MM unit :=
  upd_memheap heap (fun h => set_mh_available_size (u32 (h.(mh_available_size) + n)) h).

(** [while (header_ptr != heap->free_list && free_size < size)]. *)
Fixpoint search_loop (fuel : nat) (heap : nat) (size header_ptr free_size : Z) : MM (Z * Z) :=
  match fuel with
  | O => fail Out_of_fuel
  | S fuel =>
      let! h := get_memheap heap in
      if negb (header_ptr =? h.(mh_free_list)) && (free_size <? size) then
        let! free_size := MEMITEM_SIZE header_ptr in
        if free_size <? size then
          let! x := get_item header_ptr in
          search_loop fuel heap size x.(it_next_free) free_size
        else search_loop fuel heap size header_ptr free_size
      else ret (header_ptr, free_size)
  end.
Definition items_fuel : MM nat := gets (fun s => S (S (size s.(ms_items)))).

(** [rt_memheap_alloc] from taking the lock to releasing it. *)
Definition mh_alloc_locked (heap : nat) (size : Z) : MM (option Z) :=
  let! h := get_memheap heap in
  let! fl := get_item h.(mh_free_list) in
  let! fuel := items_fuel in
  let! found := search_loop fuel heap size fl.(it_next_free) 0 in
  let '(header_ptr, free_size) := found in
  if size <=? free_size then
    (if u32 (size + RT_MEMHEAP_SIZE + RT_MEMHEAP_MINIALLOC) <=? free_size then
       let new_ptr := u32 (header_ptr + size + RT_MEMHEAP_SIZE) in
       split_after heap header_ptr new_ptr ;!
       remove_free header_ptr ;!
       upd_item header_ptr (set_it_next_free 0) ;!
       upd_item header_ptr (set_it_prev_free 0) ;!
       insert_free heap new_ptr ;!
       take_bytes heap (size + RT_MEMHEAP_SIZE)
     else
       take_bytes heap free_size ;!
       remove_free header_ptr ;!
       upd_item header_ptr (set_it_next_free 0) ;!
       upd_item header_ptr (set_it_prev_free 0)) ;!
    upd_item header_ptr (fun x => set_it_magic (Z.lor x.(it_magic) RT_MEMHEAP_USED) x) ;!
    ret (Some (u32 (header_ptr + RT_MEMHEAP_SIZE)))
  else ret None.

(** [rt_memheap_free] from taking the lock to releasing it. *)
Definition mh_free_locked (heap : nat) (header_ptr : Z) : MM unit :=
  upd_item header_ptr (fun x => set_it_magic (Z.land x.(it_magic) (Z.lnot RT_MEMHEAP_USED)) x) ;!
  let! size := MEMITEM_SIZE header_ptr in
  give_bytes heap size ;!
  let! hd := get_item header_ptr in
  let! used := RT_MEMHEAP_IS_USED hd.(it_prev) in
  let! header_ptr' := (if negb used then
      give_bytes heap RT_MEMHEAP_SIZE ;!
      let! hd := get_item header_ptr in
      upd_item hd.(it_prev) (set_it_next hd.(it_next)) ;!
      let! hd := get_item header_ptr in
      upd_item hd.(it_next) (set_it_prev hd.(it_prev)) ;!
      let! hd := get_item header_ptr in
      ret hd.(it_prev)
    else ret header_ptr) in
  let insert_header := used in
  let header_ptr := header_ptr' in
  let! hd := get_item header_ptr in
  let! used := RT_MEMHEAP_IS_USED hd.(it_next) in
  (if negb used then
     give_bytes heap RT_MEMHEAP_SIZE ;!
     let! hd := get_item header_ptr in
     let new_ptr := hd.(it_next) in
     let! nw := get_item new_ptr in
     upd_item nw.(it_next) (set_it_prev header_ptr) ;!
     let! nw := get_item new_ptr in
     upd_item header_ptr (set_it_next nw.(it_next)) ;!
     remove_free new_ptr
   else ret tt) ;!
  (if insert_header : bool then insert_free heap header_ptr else ret tt).

(** The growing branch of [rt_memheap_realloc] under the lock: whether the block
    was extended in place. *)
Definition realloc_expand (heap : nat) (ptr header_ptr oldsize newsize : Z) : MM bool :=
  let! hd := get_item header_ptr in
  let next_ptr := hd.(it_next) in
  rt_assert (header_ptr <? next_ptr) ;!
  let! used := RT_MEMHEAP_IS_USED next_ptr in
  if negb used then
    let! nextsize := MEMITEM_SIZE next_ptr in
    rt_assert (0 <? next_ptr) ;!
    if u32 (newsize + RT_MEMHEAP_MINIALLOC) <? u32 (nextsize + oldsize) then
      take_bytes heap (u32 (newsize - oldsize)) ;!
      remove_free next_ptr ;!
      let! nx := get_item next_ptr in
      upd_item nx.(it_next) (set_it_prev nx.(it_prev)) ;!
      let! nx := get_item next_ptr in
      upd_item nx.(it_prev) (set_it_next nx.(it_next)) ;!
      let next_ptr := u32 (ptr + newsize) in
      split_after heap header_ptr next_ptr ;!
      insert_free heap next_ptr ;!
      ret true
    else ret false
  else ret false.

(** The shrinking branch of [rt_memheap_realloc] under the lock. *)
Definition realloc_shrink (heap : nat) (header_ptr newsize : Z) : MM unit :=
  let new_ptr := u32 (header_ptr + newsize + RT_MEMHEAP_SIZE) in
  split_after heap header_ptr new_ptr ;!
  let! nw := get_item new_ptr in
  let! used := RT_MEMHEAP_IS_USED nw.(it_next) in
  (if negb used then
     let free_ptr := nw.(it_next) in
     let! size := MEMITEM_SIZE free_ptr in
     upd_memheap heap (fun h => set_mh_available_size (u32 (h.(mh_available_size) - size)) h) ;!
     let! fr := get_item free_ptr in
     upd_item fr.(it_next) (set_it_prev new_ptr) ;!
     let! fr := get_item free_ptr in
     upd_item new_ptr (set_it_next fr.(it_next)) ;!
     remove_free free_ptr
   else ret tt) ;!
  insert_free heap new_ptr ;!
  let! size := MEMITEM_SIZE new_ptr in
  give_bytes heap size.

(** [rt_memheap_init] on the memory of the pool, [free_header] at [fh]. *)
Definition init_items (heap : nat) (fh start_addr : Z) : MM unit :=
  let! h := get_memheap heap in
  place_item fh ;!
  upd_item fh (fun _ => Item RT_MEMHEAP_MAGIC heap 0 0 fh fh) ;!
  upd_memheap heap (set_mh_free_list fh) ;!
  let item := start_addr in
  place_item item ;!
  upd_item item (fun _ => Item RT_MEMHEAP_MAGIC heap 0 0 item item) ;!
  let last := u32 (item + h.(mh_available_size) + RT_MEMHEAP_SIZE) in
  upd_item item (set_it_next last) ;!
  upd_item item (set_it_prev last) ;!
  upd_memheap heap (set_mh_block_list item) ;!
  insert_free heap item ;!
  let! it := get_item item in
  let item := it.(it_next) in
  place_item item ;!
  upd_item item (fun _ => Item (Z.lor RT_MEMHEAP_MAGIC RT_MEMHEAP_USED) heap start_addr start_addr 0 0).
End locked.

(** ** The operations *)
Section ops.
Context {L : Type} {St : ListStore loc L}.
Abbreviation K := (M (kst L)).
Abbreviation H := (M (kst L * mstore)).
Context (raw_item : rt_memheap_item).

Definition on_pool {A} (m : MM A) : H A := fun s => res_beside s.1 (m s.2).

(** [rt_memheap_init]; [free_header] and [lock] are parts of the structure. *)
Definition rt_memheap_init (heap : nat) (free_header : Z) (lock : nat) (name : list Z) (start_addr size : Z) : H Z :=
  kernel (rt_object_init (OMemHeap heap) RT_Object_Class_MemHeap name) ;!
  let pool_size := RT_ALIGN_DOWN size Mem.RT_ALIGN_SIZE in
  let available_size := u32 (pool_size - 2 * RT_MEMHEAP_SIZE) in
  on_pool (modify (fun s => set_ms_heaps (<[heap := Memheap start_addr pool_size available_size
    (u32 (pool_size - available_size)) 0 0 free_header lock]> s.(ms_heaps)) s)) ;!
  on_pool (init_items raw_item heap free_header start_addr) ;!
  kernel (rt_sem_init lock name 1 RT_IPC_FLAG_FIFO) ;!
  ret RT_EOK.

(** [rt_memheap_detach]. *)
Definition rt_memheap_detach (heap : nat) : H Z :=
  let! h := on_pool (get_memheap heap) in
  kernel (rt_object_detach (OIpc (ISem h.(mh_lock)))) ;!
  kernel (rt_object_detach (OMemHeap heap)) ;!
  ret RT_EOK.

(** Take the lock; [None] if the wait failed. *)
Definition with_lock {A} (heap : nat) (failed : A) (body : H A) : H A :=
  let! h := on_pool (get_memheap heap) in
  let! result := kernel (rt_sem_take h.(mh_lock) RT_WAITING_FOREVER) in
  if negb (result =? RT_EOK) then kernel (rt_set_errno result) ;! ret failed else body.
Definition unlock (heap : nat) : H unit :=
  let! h := on_pool (get_memheap heap) in
  kernel (rt_sem_release h.(mh_lock)) ;! ret tt.

(** [RT_ALIGN], and the smallest size. *)
Definition request_size (size : Z) : Z :=
  let size := RT_ALIGN size Mem.RT_ALIGN_SIZE in
  if size <? RT_MEMHEAP_MINIALLOC then RT_MEMHEAP_MINIALLOC else size.

(** [rt_memheap_alloc]; 0 is RT_NULL. *)
Definition rt_memheap_alloc (heap : nat) (size : Z) : H Z :=
  let size := request_size size in
  let! h := on_pool (get_memheap heap) in
  if size <? h.(mh_available_size) then
    with_lock heap 0 (
      let! r := on_pool (mh_alloc_locked raw_item heap size) in
      unlock heap ;!
      ret (default 0 r))
  else ret 0.

(** [rt_memheap_free]. *)
Definition rt_memheap_free (ptr : Z) : H unit :=
  if ptr =? 0 then ret tt
  else
    let header_ptr := u32 (ptr - RT_MEMHEAP_SIZE) in
    let! hd := on_pool (get_item header_ptr) in
    rt_assert (Z.land hd.(it_magic) RT_MEMHEAP_MASK =? RT_MEMHEAP_MAGIC) ;!
    rt_assert (negb (Z.land hd.(it_magic) RT_MEMHEAP_USED =? 0)) ;!
    let! nx := on_pool (get_item hd.(it_next)) in
    rt_assert (Z.land nx.(it_magic) RT_MEMHEAP_MASK =? RT_MEMHEAP_MAGIC) ;!
    let heap := hd.(it_pool_ptr) in
    with_lock heap tt (
      on_pool (mh_free_locked heap header_ptr) ;!
      unlock heap).

(** [rt_memheap_realloc]. *)
Definition rt_memheap_realloc (heap : nat) (ptr newsize : Z) : H Z :=
  if newsize =? 0 then rt_memheap_free ptr ;! ret 0
  else
    let newsize := request_size newsize in
    if ptr =? 0 then rt_memheap_alloc heap newsize
    else
      let header_ptr := u32 (ptr - RT_MEMHEAP_SIZE) in
      let! oldsize := on_pool (MEMITEM_SIZE header_ptr) in
      if oldsize <? newsize then
        let! expanded := with_lock heap None (
          let! e := on_pool (realloc_expand raw_item heap ptr header_ptr oldsize newsize) in
          unlock heap ;! ret (Some e)) in
        match expanded with
        | None => ret 0
        | Some true => ret ptr
        | Some false =>
            let! new_ptr := rt_memheap_alloc heap newsize in
            (if negb (new_ptr =? 0) then
               on_pool (fun s => match rt_memcpy s.(ms_ram) new_ptr ptr (if oldsize <? newsize then oldsize else newsize) with
                 | Some r => Ok tt (set_ms_ram r s) | None => Err Bad_pointer end) ;!
               rt_memheap_free ptr
             else ret tt) ;!
            ret new_ptr
        end
      else if oldsize <=? u32 (newsize + RT_MEMHEAP_SIZE + RT_MEMHEAP_MINIALLOC) then ret ptr
      else
        with_lock heap 0 (
          on_pool (realloc_shrink raw_item heap header_ptr newsize) ;!
          unlock heap ;!
          ret ptr).
End ops.
End MemHeap.
