(* ===== verification/Completion.v ===== *)
(** * [components/drivers/src/completion.c]: waiting for an event of a driver

    The flag of the structure is a number beside the kernel state, its waiting
    list a list of the kernel ([LDriver (DCompletion i)]); [i] is the
    structure's number. *)
From S2P Require Import Prelude RtList KMonad KState KPrim Scheduler Object TimerBase Thread Timer Ipc.
Local Open Scope Z_scope.
Local Open Scope kmonad_scope.

Module Completion.
Import Scheduler Object TimerBase Thread Timer IpcCore.

Definition RT_COMPLETED : Z := 1.
Definition RT_UNCOMPLETED : Z := 0.

Section ops.
Context {L : Type} {St : ListStore loc L}.
(** The kernel and [completion->flag]. *)
Abbreviation C := (M (kst L * Z)).

Definition set_flag (v : Z) : C unit := modify (fun s => (s.1, v)).

(** [rt_completion_init]. *)
Definition rt_completion_init (i : nat) : C unit :=
  let! level := kernel rt_hw_interrupt_disable in
  set_flag RT_UNCOMPLETED ;!
  kernel (list_init (LDriver (DCompletion i))) ;!
  kernel (rt_hw_interrupt_enable level).

(** The waiting sequence of [rt_completion_wait]: the error number the thread is
    woken with. *)
Definition completion_block (i thread : nat) (timeout level : Z) : M (kst L) Z :=
  upd_thread thread (set_t_error RT_EOK) ;!
  rt_thread_suspend thread ;!
  list_insert_before (LDriver (DCompletion i)) (LTlist thread) ;!
  RT_DEBUG_NOT_IN_INTERRUPT ;!
  (if 0 <? timeout then start_wait_timer thread timeout else ret tt) ;!
  rt_hw_interrupt_enable level ;!
  rt_schedule ;!
  let! th := get_thread thread in
  ret th.(t_error).

(** [rt_completion_wait]. *)
Definition rt_completion_wait (i : nat) (timeout : Z) : C Z :=
  let! thread := kernel rt_thread_self in
  let! level := kernel rt_hw_interrupt_disable in
  let! flag := gets snd in
  if negb (flag =? RT_COMPLETED) then
    let! empty := kernel (list_isempty (LDriver (DCompletion i))) in
    rt_assert empty ;!
    if timeout =? 0 then
      kernel (rt_hw_interrupt_enable level) ;!
      ret (- RT_ETIMEOUT)
    else
      let! thread := lift_opt Bad_pointer thread in
      let! result := kernel (completion_block i thread timeout level) in
      let! level := kernel rt_hw_interrupt_disable in
      set_flag RT_UNCOMPLETED ;!
      kernel (rt_hw_interrupt_enable level) ;!
      ret result
  else
    set_flag RT_UNCOMPLETED ;!
    kernel (rt_hw_interrupt_enable level) ;!
    ret RT_EOK.

(** [rt_completion_done]. *)
Definition rt_completion_done (i : nat) : C unit :=
  let! flag := gets snd in
  if flag =? RT_COMPLETED then ret tt
  else
    let! level := kernel rt_hw_interrupt_disable in
    set_flag RT_COMPLETED ;!
    let! empty := kernel (list_isempty (LDriver (DCompletion i))) in
    if negb empty then
      kernel (
        let! n := list_next (LDriver (DCompletion i)) in
        let! thread := thread_entry n in
        rt_thread_resume thread ;!
        rt_hw_interrupt_enable level ;!
        rt_schedule)
    else kernel (rt_hw_interrupt_enable level).

End ops.
End Completion.
