(* ===== verification/DataQueue.v ===== *)
(** * [components/drivers/src/dataqueue.c]: queues of data items between drivers

    A call runs on the kernel, the heap and the structure of queue [i]; the
    items are pairs of words in the heap, the two waiting lists are lists of
    the kernel.  The indices are 16-bit counters that are reduced modulo the
    size when an item is accessed; differences of indices are computed in
    [int].  [evt_notify] is a function of the application. *)
From S2P Require Import Prelude RtList KMonad KState KPrim Scheduler Object TimerBase Thread Timer Ipc Mem.
Local Open Scope Z_scope.
Local Open Scope kmonad_scope.

Module DataQueue.
Import Scheduler Object TimerBase Thread Timer IpcCore Mem.

Definition RT_DATAQUEUE_EVENT_POP : Z := 1.
Definition RT_DATAQUEUE_EVENT_PUSH : Z := 2.
Definition RT_DATAQUEUE_EVENT_LWM : Z := 3.

Record rt_data_queue := Data_queue {
  dq_size : Z;                 (** [rt_uint16_t] *)
  dq_lwm : Z;                  (** [rt_uint16_t] *)
  dq_get_index : Z;            (** [rt_uint16_t] *)
  dq_put_index : Z;            (** [rt_uint16_t] *)
  dq_queue : Z;                (** [queue->queue] *)
  dq_evt_notify : option nat;  (** a function of the application, or RT_NULL *)
}.

Definition set_get_index (v : Z) (q : rt_data_queue) : rt_data_queue :=
  Data_queue q.(dq_size) q.(dq_lwm) v q.(dq_put_index) q.(dq_queue) q.(dq_evt_notify).
Definition set_put_index (v : Z) (q : rt_data_queue) : rt_data_queue :=
  Data_queue q.(dq_size) q.(dq_lwm) q.(dq_get_index) v q.(dq_queue) q.(dq_evt_notify).
Definition set_queue (v : Z) (q : rt_data_queue) : rt_data_queue :=
  Data_queue q.(dq_size) q.(dq_lwm) q.(dq_get_index) q.(dq_put_index) v q.(dq_evt_notify).

(** [sizeof(struct rt_data_item)]. *)
Definition sizeof_item : Z := 8.

Section ops.
Context {L : Type} {St : ListStore loc L}.
Abbreviation Dq := (M (kst L * heap * rt_data_queue)).
(** The functions [evt_notify] can point to. *)
Context (notify : nat -> Z -> Dq unit).

(** A call of the kernel proper. *)
Definition krn {A} (m : M (kst L) A) : Dq A := kernel (kernel m).
Definition mem {A} (m : HM A) : Dq A := kernel (on_heap m).
Definition get_q : Dq rt_data_queue := gets snd.
Definition upd_q (f : rt_data_queue -> rt_data_queue) : Dq unit := modify (fun s => (s.1, f s.2)).

(** [if (queue->evt_notify != RT_NULL) queue->evt_notify(queue, event)]. *)
Definition notify_event (event : Z) : Dq unit :=
  let! q := get_q in
  match q.(dq_evt_notify) with None => ret tt | Some f => notify f event end.

(** [rt_data_queue_init]. *)
Definition rt_data_queue_init (i : nat) (size lwm : Z) (evt_notify : option nat) : Dq Z :=
  upd_q (fun q => Data_queue size lwm 0 0 q.(dq_queue) evt_notify) ;!
  krn (list_init (LDriver (DPush i))) ;!
  krn (list_init (LDriver (DPop i))) ;!
  let! p := kernel (rt_malloc (u32 (sizeof_item * size))) in
  upd_q (set_queue p) ;!
  if p =? 0 then ret (- RT_ENOMEM) else ret RT_EOK.

(** One wait of [rt_data_queue_push] or [rt_data_queue_pop] on the list [h]: the
    error number the thread is woken with. *)
Definition dq_wait_round (h : loc) (thread : option nat) (timeout level : Z) : M (kst L) Z :=
  RT_DEBUG_NOT_IN_INTERRUPT ;!
  let! thread := lift_opt Bad_pointer thread in
  upd_thread thread (set_t_error RT_EOK) ;!
  rt_thread_suspend thread ;!
  list_insert_before h (LTlist thread) ;!
  (if 0 <? timeout then start_wait_timer thread timeout else ret tt) ;!
  rt_hw_interrupt_enable level ;!
  rt_schedule ;!
  let! th := get_thread thread in
  ret th.(t_error).

(** [&queue->queue[index % queue->size]]. *)
Definition item_at (q : rt_data_queue) (index : Z) : Z := u32 (q.(dq_queue) + sizeof_item * (index mod q.(dq_size))).

(** Resume the first thread of a waiting list and reschedule. *)
Definition dq_wake (h : loc) (level : Z) : M (kst L) unit :=
  let! n := list_next h in
  let! thread := thread_entry n in
  rt_thread_resume thread ;!
  rt_hw_interrupt_enable level ;!
  rt_schedule.

(** The code of [rt_data_queue_push] after the loop, and from [__exit] on. *)
Definition dq_put (i : nat) (data_ptr data_size level : Z) : Dq Z :=
  let! q := get_q in
  mem (st 4 (item_at q q.(dq_put_index)) data_ptr) ;!
  mem (st 4 (item_at q q.(dq_put_index) + 4) data_size) ;!
  upd_q (fun q => set_put_index (u16 (q.(dq_put_index) + 1)) q) ;!
  let! empty := krn (list_isempty (LDriver (DPop i))) in
  if negb empty then krn (dq_wake (LDriver (DPop i)) level) ;! ret RT_EOK
  else
    krn (rt_hw_interrupt_enable level) ;!
    notify_event RT_DATAQUEUE_EVENT_PUSH ;!
    ret RT_EOK.

(** The loop [while (queue->put_index - queue->get_index == queue->size)]; the
    fuel counts the rounds in which the thread is woken and finds no room. *)
Fixpoint dq_push_loop (fuel : nat) (i : nat) (thread : option nat) (data_ptr data_size timeout level : Z) : Dq Z :=
  let! q := get_q in
  if negb (q.(dq_put_index) - q.(dq_get_index) =? q.(dq_size)) then dq_put i data_ptr data_size level
  else if timeout =? 0 then krn (rt_hw_interrupt_enable level) ;! ret (- RT_ETIMEOUT)
  else
    let! result := krn (dq_wait_round (LDriver (DPush i)) thread timeout level) in
    let! level := krn rt_hw_interrupt_disable in
    if negb (result =? RT_EOK) then krn (rt_hw_interrupt_enable level) ;! ret result
    else match fuel with
    | O => fail Out_of_fuel
    | S fuel => dq_push_loop fuel i thread data_ptr data_size timeout level
    end.

(** [rt_data_queue_push]. *)
Definition rt_data_queue_push (fuel : nat) (i : nat) (data_ptr data_size timeout : Z) : Dq Z :=
  let! thread := krn rt_thread_self in
  let! level := krn rt_hw_interrupt_disable in
  dq_push_loop fuel i thread data_ptr data_size timeout level.

(** The code of [rt_data_queue_pop] after the loop; the item is returned with
    the result. *)
Definition dq_get (i : nat) (level : Z) : Dq (Z * option (Z * Z)) :=
  let! q := get_q in
  let! data_ptr := mem (ld 4 (item_at q q.(dq_get_index))) in
  let! size := mem (ld 4 (item_at q q.(dq_get_index) + 4)) in
  upd_q (fun q => set_get_index (u16 (q.(dq_get_index) + 1)) q) ;!
  let! q := get_q in
  if q.(dq_put_index) - q.(dq_get_index) <=? q.(dq_lwm) then
    let! empty := krn (list_isempty (LDriver (DPush i))) in
    (if negb empty then krn (dq_wake (LDriver (DPush i)) level) else krn (rt_hw_interrupt_enable level)) ;!
    notify_event RT_DATAQUEUE_EVENT_LWM ;!
    ret (RT_EOK, Some (data_ptr, size))
  else
    krn (rt_hw_interrupt_enable level) ;!
    notify_event RT_DATAQUEUE_EVENT_POP ;!
    ret (RT_EOK, Some (data_ptr, size)).

(** The loop [while (queue->get_index == queue->put_index)]. *)
Fixpoint dq_pop_loop (fuel : nat) (i : nat) (thread : option nat) (timeout level : Z) : Dq (Z * option (Z * Z)) :=
  let! q := get_q in
  if negb (q.(dq_get_index) =? q.(dq_put_index)) then dq_get i level
  else if timeout =? 0 then krn (rt_hw_interrupt_enable level) ;! ret (- RT_ETIMEOUT, None)
  else
    let! result := krn (dq_wait_round (LDriver (DPop i)) thread timeout level) in
    let! level := krn rt_hw_interrupt_disable in
    if negb (result =? RT_EOK) then krn (rt_hw_interrupt_enable level) ;! ret (result, None)
    else match fuel with
    | O => fail Out_of_fuel
    | S fuel => dq_pop_loop fuel i thread timeout level
    end.

(** [rt_data_queue_pop]. *)
Definition rt_data_queue_pop (fuel : nat) (i : nat) (timeout : Z) : Dq (Z * option (Z * Z)) :=
  let! thread := krn rt_thread_self in
  let! level := krn rt_hw_interrupt_disable in
  dq_pop_loop fuel i thread timeout level.

(** [rt_data_queue_peak]. *)
Definition rt_data_queue_peak : Dq (Z * option (Z * Z)) :=
  let! level := krn rt_hw_interrupt_disable in
  let! q := get_q in
  if q.(dq_get_index) =? q.(dq_put_index) then
    krn (rt_hw_interrupt_enable level) ;!
    ret (- RT_EEMPTY, None)
  else
    let! data_ptr := mem (ld 4 (item_at q q.(dq_get_index))) in
    let! size := mem (ld 4 (item_at q q.(dq_get_index) + 4)) in
    krn (rt_hw_interrupt_enable level) ;!
    ret (RT_EOK, Some (data_ptr, size)).

(** A loop of [rt_data_queue_reset]: wake all threads of a list with an error. *)
Fixpoint dq_reset_loop (fuel : nat) (h : loc) : M (kst L) unit :=
  match fuel with
  | O => fail Out_of_fuel
  | S fuel =>
      let! empty := list_isempty h in
      if empty : bool then ret tt
      else
        let! temp := rt_hw_interrupt_disable in
        let! n := list_next h in
        let! thread := thread_entry n in
        upd_thread thread (set_t_error (- RT_ERROR)) ;!
        rt_thread_resume thread ;!
        rt_hw_interrupt_enable temp ;!
        dq_reset_loop fuel h
  end.

(** [rt_data_queue_reset]; it does not touch the structure. *)
Definition rt_data_queue_reset (i : nat) : M (kst L) unit :=
  rt_enter_critical ;!
  let! fuel := list_fuel in
  dq_reset_loop fuel (LDriver (DPop i)) ;!
  dq_reset_loop fuel (LDriver (DPush i)) ;!
  rt_exit_critical ;!
  rt_schedule.

End ops.
End DataQueue.
