(* ===== verification/MemPool.v ===== *)
(** * [mempool.c]: memory pools

    The pool object is a record of the kernel; its blocks are bytes of the
    memory of [Mem.v], a free block holding the address of the next one in the
    four bytes before its data, a used block the pool it belongs to.  A pointer
    to a pool is stored as the pool's number.  A call runs on the kernel and the
    memory together.  Waiting threads are queued at the front of the pool's
    list. *)
From S2P Require Import Prelude RtList KMonad KState KPrim Scheduler Object TimerBase Thread Timer Ipc IpcMsg Mem.
Local Open Scope Z_scope.
Local Open Scope kmonad_scope.

Module MemPool.
Import Scheduler Object TimerBase Thread Timer IpcCore Mailbox Mem.

(** [sizeof(rt_uint8_t * )]. *)
Definition sizeof_ptr : Z := 4.

Section ops.
Context {L : Type} {St : ListStore loc L}.
Abbreviation K := (M (kst L)).
Abbreviation H := (M (kst L * heap)).

Definition get_mp (i : nat) : K rt_mempool :=
  let! m := gets k_mps in lift_opt Bad_pointer (m !! i).
Definition put_mp (i : nat) (r : rt_mempool) : K unit :=
  modify (fun s => set_mps (<[i := r]> s.(k_mps)) s).
Definition upd_mp (i : nat) (f : rt_mempool -> rt_mempool) : K unit :=
  let! r := get_mp i in put_mp i (f r).

(** The loop that links the blocks: [n] rounds from [offset] on. *)
Fixpoint mp_link_loop (n : nat) (block_ptr block_size offset : Z) : HM unit :=
  match n with
  | O => ret tt
  | S n =>
      st 4 (u32 (block_ptr + offset * (block_size + sizeof_ptr)))
        (u32 (block_ptr + (offset + 1) * (block_size + sizeof_ptr))) ;!
      mp_link_loop n block_ptr block_size (offset + 1)
  end.

(** Initialise the list of free blocks; [rt_mp_init] and [rt_mp_create] do the
    same.  With no block at all the terminator is stored in front of the pool. *)
Definition mp_link_blocks (block_ptr block_size total : Z) : HM unit :=
  mp_link_loop (Z.to_nat total) block_ptr block_size 0 ;!
  st 4 (u32 (block_ptr + u32 (total - 1) * (block_size + sizeof_ptr))) 0.

(** [rt_mp_init]. *)
Definition rt_mp_init (mp : nat) (name : list Z) (start size block_size : Z) : H Z :=
  kernel (rt_object_init (OIpc (IMp mp)) RT_Object_Class_MemPool name) ;!
  let size := RT_ALIGN_DOWN size RT_ALIGN_SIZE in
  let block_size := RT_ALIGN block_size RT_ALIGN_SIZE in
  let total := size / u32 (block_size + sizeof_ptr) in
  kernel (upd_mp mp (fun m => Mempool m.(mp_parent) start size block_size m.(mp_block_list) total total
    m.(mp_suspend_thread_count))) ;!
  kernel (list_init (LSuspend (IMp mp))) ;!
  kernel (upd_mp mp (set_mp_suspend_thread_count 0)) ;!
  on_heap (mp_link_blocks start block_size total) ;!
  kernel (upd_mp mp (set_mp_block_list start)) ;!
  ret RT_EOK.

(** Resume the first waiting thread with the error number [error]: a round of the
    loops of [rt_mp_detach] and [rt_mp_delete], and of [rt_mp_free]. *)
Definition mp_wake_first (mp : nat) (error : Z) : K unit :=
  let! n := list_next (LSuspend (IMp mp)) in
  let! thread := thread_entry n in
  upd_thread thread (set_t_error error) ;!
  rt_thread_resume thread ;!
  upd_mp mp (fun m => set_mp_suspend_thread_count (u32 (m.(mp_suspend_thread_count) - 1)) m).

(** The loop that wakes all waiting threads, in [rt_mp_detach] and
    [rt_mp_delete]. *)
Fixpoint mp_wake_loop (fuel : nat) (mp : nat) : K unit :=
  match fuel with
  | O => fail Out_of_fuel
  | S fuel =>
      let! empty := list_isempty (LSuspend (IMp mp)) in
      if empty : bool then ret tt
      else
        let! temp := rt_hw_interrupt_disable in
        mp_wake_first mp (- RT_ERROR) ;!
        rt_hw_interrupt_enable temp ;!
        mp_wake_loop fuel mp
  end.

(** [rt_mp_detach]. *)
Definition rt_mp_detach (mp : nat) : K Z :=
  let! fuel := list_fuel in
  mp_wake_loop fuel mp ;!
  rt_object_detach (OIpc (IMp mp)) ;!
  ret RT_EOK.

(** One wait of [rt_mp_alloc]: the error the thread was woken with, or the new
    interrupt level and the rest of the time. *)
Definition mp_wait_round (mp thread : nat) (time level : Z) : K (Z + Z * Z) :=
  rt_thread_suspend thread ;!
  list_insert_after (LSuspend (IMp mp)) (LTlist thread) ;!
  upd_mp mp (fun m => set_mp_suspend_thread_count (u32 (m.(mp_suspend_thread_count) + 1)) m) ;!
  let! before_sleep := (if 0 <? time then rt_tick_get else ret 0) in
  (if 0 <? time then start_wait_timer thread time else ret tt) ;!
  rt_hw_interrupt_enable level ;!
  rt_schedule ;!
  let! th := get_thread thread in
  if negb (th.(t_error) =? RT_EOK) then ret (inl th.(t_error))
  else
    let! time := remaining_timeout time before_sleep in
    let! level := rt_hw_interrupt_disable in
    ret (inr (level, time)).

(** The code of [rt_mp_alloc] after the loop. *)
Definition mp_take (mp : nat) (level : Z) : H Z :=
  kernel (upd_mp mp (fun m => set_mp_block_free_count (u32 (m.(mp_block_free_count) - 1)) m)) ;!
  let! m := kernel (get_mp mp) in
  let block_ptr := m.(mp_block_list) in
  rt_assert (negb (block_ptr =? 0)) ;!
  let! next := on_heap (ld 4 block_ptr) in
  kernel (upd_mp mp (set_mp_block_list next)) ;!
  on_heap (st 4 block_ptr (Z.of_nat mp)) ;!
  kernel (rt_hw_interrupt_enable level) ;!
  ret (u32 (block_ptr + sizeof_ptr)).

(** The loop [while (mp->block_free_count == 0)]; the fuel counts the rounds in
    which the thread is woken and finds no block. *)
Fixpoint mp_alloc_loop (fuel : nat) (mp : nat) (thread : option nat) (time level : Z) : H Z :=
  let! m := kernel (get_mp mp) in
  if negb (m.(mp_block_free_count) =? 0) then mp_take mp level
  else if time =? 0 then
    kernel (rt_hw_interrupt_enable level) ;!
    kernel (rt_set_errno (- RT_ETIMEOUT)) ;!
    ret 0
  else
    kernel RT_DEBUG_NOT_IN_INTERRUPT ;!
    let! thread' := lift_opt Bad_pointer thread in
    kernel (upd_thread thread' (set_t_error RT_EOK)) ;!
    let! w := kernel (mp_wait_round mp thread' time level) in
    match w, fuel with
    | inl _, _ => ret 0
    | inr _, O => fail Out_of_fuel
    | inr (level, time), S fuel => mp_alloc_loop fuel mp thread time level
    end.

(** [rt_mp_alloc]: 0 is RT_NULL. *)
Definition rt_mp_alloc (fuel : nat) (mp : nat) (time : Z) : H Z :=
  let! thread := kernel rt_thread_self in
  let! level := kernel rt_hw_interrupt_disable in
  mp_alloc_loop fuel mp thread time level.

(** [rt_mp_free]. *)
Definition rt_mp_free (block : Z) : H unit :=
  let block_ptr := u32 (block - sizeof_ptr) in
  let! p := on_heap (ld 4 block_ptr) in
  let mp := Z.to_nat p in
  let! level := kernel rt_hw_interrupt_disable in
  kernel (upd_mp mp (fun m => set_mp_block_free_count (u32 (m.(mp_block_free_count) + 1)) m)) ;!
  let! m := kernel (get_mp mp) in
  on_heap (st 4 block_ptr m.(mp_block_list)) ;!
  kernel (upd_mp mp (set_mp_block_list block_ptr)) ;!
  let! m := kernel (get_mp mp) in
  if 0 <? m.(mp_suspend_thread_count) then
    kernel (
      mp_wake_first mp RT_EOK ;!
      rt_hw_interrupt_enable level ;!
      rt_schedule)
  else kernel (rt_hw_interrupt_enable level).

End ops.
End MemPool.
