(* ===== verification/Dynamic.v ===== *)
(** * Objects on the heap: creating and deleting

    [rt_object_allocate] and [rt_object_delete] ([object.c]) and the [create]
    and [delete] functions of [ipc.c], [timer.c], [thread.c] and [mempool.c].
    A pointer to such an object is its number, so the number of an allocated
    object is its address.  The memory [rt_malloc] returns is not cleared: the
    fields an object has before it is initialised are a parameter, [raw].  The
    object's own bytes are kept as the record of the kernel state, not as bytes
    of the heap's memory. *)
From S2P Require Import Prelude Kservice Ram Strings RtList KMonad KState KPrim Scheduler Object TimerBase Thread Timer Ipc IpcMsg Mem MemPool.
Local Open Scope Z_scope.
Local Open Scope kmonad_scope.

Module Dynamic.
Import Kservice Scheduler Object TimerBase Thread Timer IpcCore Sem Mutex Event Mailbox MsgQueue Ram Strings Mem MemPool.

(** The fields of [object_size] in [rt_object_container]: the sizes of the
    structures of [rtdef.h] on this 32-bit target. *)
Definition object_size (type : Z) : option Z :=
  if type =? RT_Object_Class_Thread then Some 148
  else if type =? RT_Object_Class_Semaphore then Some 40
  else if type =? RT_Object_Class_Mutex then Some 44
  else if type =? RT_Object_Class_Event then Some 40
  else if type =? RT_Object_Class_MailBox then Some 56
  else if type =? RT_Object_Class_MessageQueue then Some 60
  else if type =? RT_Object_Class_MemHeap then Some 116
  else if type =? RT_Object_Class_MemPool then Some 64
  else if type =? RT_Object_Class_Device then Some 72
  else if type =? RT_Object_Class_Timer then Some 52
  else None.

(** An object of a class at a number. *)
Definition object_at (type : Z) (n : nat) : option obj_id :=
  if type =? RT_Object_Class_Thread then Some (OThread n)
  else if type =? RT_Object_Class_Semaphore then Some (OIpc (ISem n))
  else if type =? RT_Object_Class_Mutex then Some (OIpc (IMutex n))
  else if type =? RT_Object_Class_Event then Some (OIpc (IEvent n))
  else if type =? RT_Object_Class_MailBox then Some (OIpc (IMb n))
  else if type =? RT_Object_Class_MessageQueue then Some (OIpc (IMq n))
  else if type =? RT_Object_Class_MemPool then Some (OIpc (IMp n))
  else if type =? RT_Object_Class_Timer then Some (OTimer (TUser n))
  else None.

(** Uninitialised objects and the content of uninitialised pools. *)
Record raw_objects := Raw {
  raw_thread : rt_thread;
  raw_timer : rt_timer;
  raw_sem : rt_semaphore;
  raw_mutex : rt_mutex;
  raw_event : rt_event;
  raw_mb : rt_mailbox;
  raw_mq : rt_messagequeue;
  raw_mp : rt_mempool;
  raw_words : list Z;
  raw_cells : gmap nat (list Z);
}.

Section ops.
Context {L : Type} {St : ListStore loc L}.
Abbreviation K := (M (kst L)).
Abbreviation H := (M (kst L * heap)).

Context (raw : raw_objects).

(** The memory of an object becomes the object, with the fields it holds; a
    thread has its timer inside. *)
Definition place_object (o : obj_id) (s : kst L) : kst L :=
  match o with
  | OThread t => set_timers (<[TThread t := raw.(raw_timer)]> s.(k_timers)) (set_threads (<[t := raw.(raw_thread)]> s.(k_threads)) s)
  | OTimer tm => set_timers (<[tm := raw.(raw_timer)]> s.(k_timers)) s
  | OIpc (ISem i) => set_sems (<[i := raw.(raw_sem)]> s.(k_sems)) s
  | OIpc (IMutex i) => set_mutexes (<[i := raw.(raw_mutex)]> s.(k_mutexes)) s
  | OIpc (IEvent i) => set_events (<[i := raw.(raw_event)]> s.(k_events)) s
  | OIpc (IMb i) => set_mbs (<[i := raw.(raw_mb)]> s.(k_mbs)) s
  | OIpc (IMq i) => set_mqs (<[i := raw.(raw_mq)]> s.(k_mqs)) s
  | OIpc (IMp i) => set_mps (<[i := raw.(raw_mp)]> s.(k_mps)) s
  | ODevice _ | OMemHeap _ => s
  end.

(** The memory of an object is given back: a later use is a bad access. *)
Definition forget_object (o : obj_id) (s : kst L) : kst L :=
  match o with
  | OThread t => set_timers (delete (TThread t) s.(k_timers)) (set_threads (delete t s.(k_threads)) s)
  | OTimer tm => set_timers (delete tm s.(k_timers)) s
  | OIpc (ISem i) => set_sems (delete i s.(k_sems)) s
  | OIpc (IMutex i) => set_mutexes (delete i s.(k_mutexes)) s
  | OIpc (IEvent i) => set_events (delete i s.(k_events)) s
  | OIpc (IMb i) => set_mbs (delete i s.(k_mbs)) s
  | OIpc (IMq i) => set_mqs (delete i s.(k_mqs)) s
  | OIpc (IMp i) => set_mps (delete i s.(k_mps)) s
  | ODevice i => set_devices (delete i s.(k_devices)) s
  | OMemHeap i => set_memheaps (delete i s.(k_memheaps)) s
  end.

(** The pointer to an object on the heap. *)
Definition object_address (o : obj_id) : Z :=
  match o with
  | OThread t => Z.of_nat t
  | OTimer (TThread t) => Z.of_nat t
  | OTimer (TUser i) => Z.of_nat i
  | OIpc (ISem i | IMutex i | IEvent i | IMb i | IMq i | IMp i) | ODevice i | OMemHeap i => Z.of_nat i
  end.

(** [rt_object_allocate] from [object->type = type] on. *)
Definition register_object (object : obj_id) (type : Z) (name : list Z) (information : loc) : K unit :=
  let! ob := get_object object in
  let! name := lift_opt Bad_pointer (rt_strncpy ob.(o_name) name RT_NAME_MAX) in
  put_object object (Object name (u8 type) 0) ;!
  let! temp := rt_hw_interrupt_disable in
  list_insert_after information (LObj object) ;!
  rt_hw_interrupt_enable temp.

(** [rt_object_allocate]: the number of the object, [None] for RT_NULL. *)
Definition rt_object_allocate (type : Z) (name : list Z) : H (option nat) :=
  kernel RT_DEBUG_NOT_IN_INTERRUPT ;!
  let information := rt_object_get_information type in
  rt_assert (bool_decide (information <> None)) ;!
  let! information := lift_opt Bad_pointer information in
  let! size := lift_opt Bad_pointer (object_size type) in
  let! object := rt_malloc size in
  if object =? 0 then ret None
  else
    let n := Z.to_nat object in
    let! o := lift_opt Bad_pointer (object_at type n) in
    kernel (modify (place_object o)) ;!
    kernel (register_object o type name information) ;!
    ret (Some n).

(** [rt_object_delete]. *)
Definition rt_object_delete (object : obj_id) : H unit :=
  let! ob := kernel (get_object object) in
  rt_assert (Z.land ob.(o_type) RT_Object_Class_Static =? 0) ;!
  kernel (let! temp := rt_hw_interrupt_disable in
          list_remove (LObj object) ;!
          rt_hw_interrupt_enable temp) ;!
  kernel (modify (forget_object object)) ;!
  rt_free (object_address object).

(** ** [ipc.c] *)
(** [rt_sem_create]. *)
Definition rt_sem_create (name : list Z) (value flag : Z) : H (option nat) :=
  kernel RT_DEBUG_NOT_IN_INTERRUPT ;!
  let! sem := rt_object_allocate RT_Object_Class_Semaphore name in
  match sem with
  | None => ret None
  | Some sem =>
      kernel (rt_ipc_object_init (ISem sem)) ;!
      kernel (upd_sem sem (set_sem_value (u16 value))) ;!
      kernel (set_object_flag (ISem sem) flag) ;!
      ret (Some sem)
  end.

(** [rt_sem_delete]. *)
Definition rt_sem_delete (sem : nat) : H Z :=
  kernel RT_DEBUG_NOT_IN_INTERRUPT ;!
  kernel (rt_ipc_list_resume_all (LSuspend (ISem sem))) ;!
  rt_object_delete (OIpc (ISem sem)) ;!
  ret RT_EOK.

(** [rt_mutex_create]. *)
Definition rt_mutex_create (name : list Z) (flag : Z) : H (option nat) :=
  kernel RT_DEBUG_NOT_IN_INTERRUPT ;!
  let! mutex := rt_object_allocate RT_Object_Class_Mutex name in
  match mutex with
  | None => ret None
  | Some mutex =>
      kernel (rt_ipc_object_init (IMutex mutex)) ;!
      kernel (upd_mutex mutex (fun m => Mutex m.(mx_parent) 1 0xff 0 None)) ;!
      kernel (set_object_flag (IMutex mutex) flag) ;!
      ret (Some mutex)
  end.

(** [rt_mutex_delete]. *)
Definition rt_mutex_delete (mutex : nat) : H Z :=
  kernel RT_DEBUG_NOT_IN_INTERRUPT ;!
  kernel (rt_ipc_list_resume_all (LSuspend (IMutex mutex))) ;!
  rt_object_delete (OIpc (IMutex mutex)) ;!
  ret RT_EOK.

(** [rt_event_create]. *)
Definition rt_event_create (name : list Z) (flag : Z) : H (option nat) :=
  kernel RT_DEBUG_NOT_IN_INTERRUPT ;!
  let! event := rt_object_allocate RT_Object_Class_Event name in
  match event with
  | None => ret None
  | Some event =>
      kernel (set_object_flag (IEvent event) flag) ;!
      kernel (rt_ipc_object_init (IEvent event)) ;!
      kernel (upd_event event (set_ev_set 0)) ;!
      ret (Some event)
  end.

(** [rt_event_delete]. *)
Definition rt_event_delete (event : nat) : H Z :=
  kernel RT_DEBUG_NOT_IN_INTERRUPT ;!
  kernel (rt_ipc_list_resume_all (LSuspend (IEvent event))) ;!
  rt_object_delete (OIpc (IEvent event)) ;!
  ret RT_EOK.

(** [rt_mb_create]. *)
Definition rt_mb_create (name : list Z) (size flag : Z) : H (option nat) :=
  kernel RT_DEBUG_NOT_IN_INTERRUPT ;!
  let! mb := rt_object_allocate RT_Object_Class_MailBox name in
  match mb with
  | None => ret None
  | Some mb =>
      kernel (set_object_flag (IMb mb) flag) ;!
      kernel (rt_ipc_object_init (IMb mb)) ;!
      let size := u16 size in
      let! msg_pool := rt_malloc (u32 (size * 4)) in
      kernel (upd_mb mb (fun m => Mailbox m.(mb_parent) msg_pool (take (Z.to_nat size) raw.(raw_words)) size
        m.(mb_entry) m.(mb_in_offset) m.(mb_out_offset))) ;!
      if msg_pool =? 0 then
        rt_object_delete (OIpc (IMb mb)) ;! ret None
      else
        kernel (upd_mb mb (fun m => Mailbox m.(mb_parent) m.(mb_pool_addr) m.(mb_msg_pool) m.(mb_size) 0 0 0)) ;!
        kernel (list_init (LSender mb)) ;!
        ret (Some mb)
  end.

(** [rt_mb_delete]. *)
Definition rt_mb_delete (mb : nat) : H Z :=
  kernel RT_DEBUG_NOT_IN_INTERRUPT ;!
  kernel (rt_ipc_list_resume_all (LSuspend (IMb mb))) ;!
  kernel (rt_ipc_list_resume_all (LSender mb)) ;!
  let! m := kernel (get_mb mb) in
  rt_free m.(mb_pool_addr) ;!
  rt_object_delete (OIpc (IMb mb)) ;!
  ret RT_EOK.

(** [rt_mq_delete]. *)
Definition rt_mq_delete (mq : nat) : H Z :=
  kernel RT_DEBUG_NOT_IN_INTERRUPT ;!
  kernel (rt_ipc_list_resume_all (LSuspend (IMq mq))) ;!
  let! q := kernel (get_mq mq) in
  rt_free q.(mq_pool_addr) ;!
  rt_object_delete (OIpc (IMq mq)) ;!
  ret RT_EOK.

(** [rt_mq_create]. *)
Definition rt_mq_create (name : list Z) (msg_size max_msgs flag : Z) : H (option nat) :=
  kernel RT_DEBUG_NOT_IN_INTERRUPT ;!
  let! mq := rt_object_allocate RT_Object_Class_MessageQueue name in
  match mq with
  | None => ret None
  | Some mq =>
      kernel (set_object_flag (IMq mq) flag) ;!
      kernel (rt_ipc_object_init (IMq mq)) ;!
      let msg_size := u16 (RT_ALIGN msg_size RT_ALIGN_SIZE) in
      let max_msgs := u16 max_msgs in
      let! msg_pool := rt_malloc (u32 ((msg_size + sizeof_rt_mq_message) * max_msgs)) in
      kernel (upd_mq mq (fun q => MessageQueue q.(mq_parent) msg_pool q.(mq_next) raw.(raw_cells) msg_size max_msgs
        q.(mq_entry) q.(mq_queue_head) q.(mq_queue_tail) q.(mq_queue_free))) ;!
      if msg_pool =? 0 then
        rt_mq_delete mq ;! ret None
      else
        let '(free, next) := mq_free_list (seq 0 (Z.to_nat max_msgs)) None ∅ in
        kernel (upd_mq mq (fun q => MessageQueue q.(mq_parent) q.(mq_pool_addr) next q.(mq_data) q.(mq_msg_size)
          q.(mq_max_msgs) 0 None None free)) ;!
        ret (Some mq)
  end.

(** ** [timer.c] *)
(** [rt_timer_create]. *)
Definition rt_timer_create (name : list Z) (timeout : timeout_fn) (parameter : nat) (time flag : Z) : H (option nat) :=
  let! timer := rt_object_allocate RT_Object_Class_Timer name in
  match timer with
  | None => ret None
  | Some timer =>
      kernel (rt_timer_init_fields (TUser timer) timeout parameter time flag) ;!
      ret (Some timer)
  end.

(** [rt_timer_delete]. *)
Definition rt_timer_delete (timer : nat) : H Z :=
  kernel (let! level := rt_hw_interrupt_disable in
          rt_timer_remove (TUser timer) ;!
          rt_hw_interrupt_enable level) ;!
  rt_object_delete (OTimer (TUser timer)) ;!
  ret (- RT_EOK).

(** ** [thread.c] *)
(** [rt_thread_create]. *)
Definition rt_thread_create (rt_thread_exit_addr : nat) (name : list Z) (entry parameter : nat)
    (stack_size priority tick : Z) : H (option nat) :=
  let! thread := rt_object_allocate RT_Object_Class_Thread name in
  match thread with
  | None => ret None
  | Some thread =>
      let! stack_start := rt_malloc stack_size in
      if stack_start =? 0 then
        rt_object_delete (OThread thread) ;! ret None
      else
        kernel (rt_thread_init_fields rt_thread_exit_addr thread name entry parameter stack_start stack_size
          priority tick) ;!
        ret (Some thread)
  end.

(** ** [mempool.c] *)
(** [rt_mp_create]. *)
Definition rt_mp_create (name : list Z) (block_count block_size : Z) : H (option nat) :=
  kernel RT_DEBUG_NOT_IN_INTERRUPT ;!
  let! mp := rt_object_allocate RT_Object_Class_MemPool name in
  match mp with
  | None => ret None
  | Some mp =>
      let block_size := RT_ALIGN block_size RT_ALIGN_SIZE in
      let size := u32 (u32 (block_size + sizeof_ptr) * block_count) in
      let! start := rt_malloc size in
      kernel (upd_mp mp (fun m => Mempool m.(mp_parent) start size block_size m.(mp_block_list)
        m.(mp_block_total_count) m.(mp_block_free_count) m.(mp_suspend_thread_count))) ;!
      if start =? 0 then
        rt_object_delete (OIpc (IMp mp)) ;! ret None
      else
        kernel (upd_mp mp (fun m => Mempool m.(mp_parent) m.(mp_start_address) m.(mp_size) m.(mp_block_size)
          m.(mp_block_list) block_count block_count m.(mp_suspend_thread_count))) ;!
        kernel (list_init (LSuspend (IMp mp))) ;!
        kernel (upd_mp mp (set_mp_suspend_thread_count 0)) ;!
        on_heap (mp_link_blocks start block_size block_count) ;!
        kernel (upd_mp mp (set_mp_block_list start)) ;!
        ret (Some mp)
  end.

(** [rt_mp_delete]. *)
Definition rt_mp_delete (mp : nat) : H Z :=
  kernel RT_DEBUG_NOT_IN_INTERRUPT ;!
  kernel (let! fuel := list_fuel in mp_wake_loop fuel mp) ;!
  let! m := kernel (get_mp mp) in
  rt_free m.(mp_start_address) ;!
  rt_object_delete (OIpc (IMp mp)) ;!
  ret RT_EOK.

(** ** [kservice.c] *)
(** [rt_strdup]. *)
Definition rt_strdup (s : Z) : H Z :=
  let! h := gets snd in
  let! len := lift_opt Bad_pointer (rt_strlen h.(hp_ram) s) in
  let len := u32 (len + 1) in
  let! tmp := rt_malloc len in
  if tmp =? 0 then ret 0
  else
    on_heap (ram_op (fun m => rt_memcpy m tmp s len)) ;!
    ret tmp.

End ops.
End Dynamic.
