(* ===== verification/Idle.v ===== *)
(** * [idle.c]: the idle thread

    The loop that reclaims the threads on [rt_thread_defunct].  The idle hook is
    null, as all hooks; the cleanup functions of threads are a parameter. *)
From S2P Require Import Prelude RtList KMonad KState KPrim Scheduler Object TimerBase Thread Timer Ipc Mem Dynamic.
Local Open Scope Z_scope.
Local Open Scope kmonad_scope.

Module Idle.
Import Scheduler Object TimerBase Thread Mem Dynamic.

Definition IDLE_THREAD_STACK_SIZE : Z := 256.

Section ops.
Context {L : Type} {St : ListStore loc L}.
Abbreviation K := (M (kst L)).
Abbreviation H := (M (kst L * heap)).

(** What [thread->cleanup], function number [f] of the application, does. *)
Context (cleanup : nat -> nat -> H unit).

(** [_has_defunct_thread]. *)
Definition has_defunct_thread : K bool :=
  let! next := list_next LDefunct in
  ret (bool_decide (next <> LDefunct)).

(** The part of a round with interrupts masked: [Some thread] if the thread is to
    be freed, [None] if the function returns. *)
Definition take_defunct (lock : Z) : H (option nat) :=
  let! has := kernel has_defunct_thread in
  if has : bool then
    let! next := kernel (list_next LDefunct) in
    let! thread := kernel (thread_entry next) in
    kernel (list_remove (LTlist thread)) ;!
    kernel rt_enter_critical ;!
    let! th := kernel (get_thread thread) in
    (match th.(t_cleanup) with Some f => cleanup f thread | None => ret tt end) ;!
    let! sys := kernel (rt_object_is_systemobject (OThread thread)) in
    kernel rt_exit_critical ;!
    kernel (rt_hw_interrupt_enable lock) ;!
    ret (if sys : bool then None else Some thread)
  else
    kernel (rt_hw_interrupt_enable lock) ;!
    ret None.

(** [rt_thread_idle_excute]; the fuel counts the threads. *)
Fixpoint idle_loop (fuel : nat) : H unit :=
  match fuel with
  | O => fail Out_of_fuel
  | S fuel =>
      let! has := kernel has_defunct_thread in
      if negb has then ret tt
      else
        kernel RT_DEBUG_NOT_IN_INTERRUPT ;!
        let! lock := kernel rt_hw_interrupt_disable in
        let! thread := take_defunct lock in
        match thread with
        | None => ret tt
        | Some thread =>
            let! th := kernel (get_thread thread) in
            rt_free th.(t_stack_addr) ;!
            rt_object_delete (OThread thread) ;!
            idle_loop fuel
        end
  end.
Definition rt_thread_idle_excute (fuel : nat) : H unit := idle_loop fuel.

(** [rt_thread_idle_init] for the objects [idle] and [rt_thread_stack]; [entry]
    is [rt_thread_idle_entry]. *)
Definition rt_thread_idle_init (rt_thread_exit_addr idle entry : nat) (rt_thread_stack : Z) : K Z :=
  rt_thread_init rt_thread_exit_addr idle [116; 105; 100; 108; 101; 0] entry 0 rt_thread_stack
    IDLE_THREAD_STACK_SIZE (RT_THREAD_PRIORITY_MAX - 1) 32 ;!
  rt_thread_startup idle.
End ops.
End Idle.
