(* ===== verification/Device.v ===== *)
(** * [device.c]: devices, and the console of [kservice.c]

    A device is a record of the kernel state; the functions of its driver are
    numbers whose meaning is the parameter [drv].  A call runs on the kernel
    state and the memory together, as drivers read and write buffers.
    [rt_kprintf] formats into [rt_log_buf] and writes to the console device. *)
From Stdlib Require Import Ascii.
From S2P Require Import Prelude Kservice Ram Strings RtList KMonad Printf KState KPrim Scheduler Object TimerBase Thread Timer Ipc Mem.
Local Open Scope Z_scope.
Local Open Scope kmonad_scope.

(** ** What the functions of the drivers do, by number *)
Record driver (D : Type -> Type) := Driver {
  drv_init : nat -> nat -> D Z;                    (** [dev->init(dev)] *)
  drv_open : nat -> nat -> Z -> D Z;               (** [dev->open(dev, oflag)] *)
  drv_close : nat -> nat -> D Z;                   (** [dev->close(dev)] *)
  drv_read : nat -> nat -> Z -> Z -> Z -> D Z;     (** [dev->read(dev, pos, buffer, size)] *)
  drv_write : nat -> nat -> Z -> Z -> Z -> D Z;    (** [dev->write(dev, pos, buffer, size)] *)
  drv_control : nat -> nat -> Z -> Z -> D Z;       (** [dev->control(dev, cmd, arg)] *)
}.
#[global] Arguments drv_init {D}. #[global] Arguments drv_open {D}. #[global] Arguments drv_close {D}.
#[global] Arguments drv_read {D}. #[global] Arguments drv_write {D}. #[global] Arguments drv_control {D}.

Module Device.
Import Kservice Scheduler Object Thread Ram Strings Printf Mem.
Local Arguments ch a%_char_scope.

Definition RT_ENOSYS : Z := 6.
Definition RT_EBUSY : Z := 7.

Definition RT_DEVICE_FLAG_STANDALONE : Z := 0x008.
Definition RT_DEVICE_FLAG_ACTIVATED : Z := 0x010.
Definition RT_DEVICE_FLAG_STREAM : Z := 0x040.
Definition RT_DEVICE_OFLAG_CLOSE : Z := 0x000.
Definition RT_DEVICE_OFLAG_RDWR : Z := 0x003.
Definition RT_DEVICE_OFLAG_OPEN : Z := 0x008.
Definition RT_DEVICE_OFLAG_MASK : Z := 0xf0f.
Definition RT_CONSOLEBUF_SIZE : Z := 1024.

(** [sizeof(struct rt_device)] on this target (an [enum] has one byte). *)
Definition sizeof_rt_device : Z := 72.

(** The device [rt_memset] leaves. *)
Definition zero_device (type : Z) : rt_device :=
  Device (Object (replicate RT_NAME_MAX 0) 0 0) type 0 0 0 None None None None None None None None.

Section ops.
Context {L : Type} {St : ListStore loc L}.
Abbreviation K := (M (kst L)).
Abbreviation H := (M (kst L * heap)).

Context (drv : driver (fun A => H A)).

Definition get_device (i : nat) : K rt_device :=
  let! m := gets k_devices in lift_opt Bad_pointer (m !! i).
Definition put_device (i : nat) (d : rt_device) : K unit :=
  modify (fun s => set_devices (<[i := d]> s.(k_devices)) s).
Definition upd_device (i : nat) (f : rt_device -> rt_device) : K unit :=
  let! d := get_device i in put_device i (f d).

(** ** The registry *)
(** [rt_device_find]. *)
Definition rt_device_find (name : list Z) : K (option nat) :=
  let! self := rt_thread_self in
  (if bool_decide (self <> None) then rt_enter_critical else ret tt) ;!
  let information := rt_object_get_information RT_Object_Class_Device in
  rt_assert (bool_decide (information <> None)) ;!
  let! information := lift_opt Bad_pointer information in
  let! node := list_next information in
  let! fuel := list_fuel in
  let! object := object_find_loop fuel information node name in
  let! self := rt_thread_self in
  (if bool_decide (self <> None) then rt_exit_critical else ret tt) ;!
  match object with
  | Some (ODevice i) => ret (Some i)
  | Some _ => fail Bad_pointer
  | None => ret None
  end.

(** [rt_device_register]. *)
Definition rt_device_register (dev : option nat) (name : list Z) (flags : Z) : K Z :=
  match dev with
  | None => ret (- RT_ERROR)
  | Some dev =>
      let! found := rt_device_find name in
      if bool_decide (found <> None) then ret (- RT_ERROR)
      else
        rt_object_init (ODevice dev) RT_Object_Class_Device name ;!
        upd_device dev (set_dev_flag flags) ;!
        upd_device dev (set_dev_ref_count 0) ;!
        upd_device dev (set_dev_open_flag 0) ;!
        ret RT_EOK
  end.

(** [rt_device_unregister]. *)
Definition rt_device_unregister (dev : nat) : K Z :=
  rt_object_detach (ODevice dev) ;!
  ret RT_EOK.

(** [rt_device_init_all]. *)
Definition rt_device_init_all : K Z := ret RT_EOK.

(** [rt_device_create]: the number of a device on the heap is its address. *)
Definition rt_device_create (type attach_size : Z) : H (option nat) :=
  let size := RT_ALIGN sizeof_rt_device RT_ALIGN_SIZE + attach_size in
  let! device := rt_malloc (u32 size) in
  if device =? 0 then ret None
  else
    on_heap (ram_op (fun m => rt_memset m device 0 sizeof_rt_device)) ;!
    kernel (put_device (Z.to_nat device) (zero_device type)) ;!
    ret (Some (Z.to_nat device)).

(** [rt_device_destroy]. *)
Definition rt_device_destroy (device : nat) : H unit :=
  kernel (rt_device_unregister device) ;!
  kernel (modify (fun s => set_devices (delete device s.(k_devices)) s)) ;!
  rt_free (Z.of_nat device).

(** ** Reading, writing, control *)
(** [rt_device_read]. *)
Definition rt_device_read (dev : nat) (pos buffer size : Z) : H Z :=
  let! d := kernel (get_device dev) in
  if d.(dev_ref_count) =? 0 then
    kernel (rt_set_errno (- RT_ERROR)) ;! ret 0
  else
    match d.(dev_read) with
    | Some f => drv.(drv_read) f dev pos buffer size
    | None => kernel (rt_set_errno (- RT_ENOSYS)) ;! ret 0
    end.

(** [rt_device_write]. *)
Definition rt_device_write (dev : nat) (pos buffer size : Z) : H Z :=
  let! d := kernel (get_device dev) in
  if d.(dev_ref_count) =? 0 then
    kernel (rt_set_errno (- RT_ERROR)) ;! ret 0
  else
    match d.(dev_write) with
    | Some f => drv.(drv_write) f dev pos buffer size
    | None => kernel (rt_set_errno (- RT_ENOSYS)) ;! ret 0
    end.

(** [rt_device_control]. *)
Definition rt_device_control (dev : nat) (cmd arg : Z) : H Z :=
  let! d := kernel (get_device dev) in
  match d.(dev_control) with
  | Some f => drv.(drv_control) f dev cmd arg
  | None => ret (- RT_ENOSYS)
  end.

(** [rt_device_set_rx_indicate], [rt_device_set_tx_complete]. *)
Definition rt_device_set_rx_indicate (dev : nat) (rx_ind : option nat) : K Z :=
  upd_device dev (set_dev_rx_indicate rx_ind) ;! ret RT_EOK.
Definition rt_device_set_tx_complete (dev : nat) (tx_done : option nat) : K Z :=
  upd_device dev (set_dev_tx_complete tx_done) ;! ret RT_EOK.

(** ** The console *)
(** A computation on the memory. *)
Definition on_ram {A} (m : M ram A) : H A := fun s =>
  match m s.2.(hp_ram) with
  | Ok a r => Ok a (s.1, set_hp_ram r s.2)
  | Switch _ _ _ _ => Err Hang
  | Err e => Err e
  end.

(** The buffer [rt_log_buf]. *)
Context (rt_log_buf : Z).

(** [rt_hw_console_output]: empty, and not overridden by the board. *)
Definition rt_hw_console_output (str : Z) : K unit := ret tt.

(** Write to the console device in stream mode. *)
Definition console_write (dev : nat) (str len : Z) : H unit :=
  let! d := kernel (get_device dev) in
  let old_flag := d.(dev_open_flag) in
  kernel (upd_device dev (fun d => set_dev_open_flag (Z.lor d.(dev_open_flag) RT_DEVICE_FLAG_STREAM) d)) ;!
  rt_device_write dev 0 str len ;!
  kernel (upd_device dev (set_dev_open_flag old_flag)).

(** [rt_kputs]; 0 is RT_NULL. *)
Definition rt_kputs (str : Z) : H unit :=
  if str =? 0 then ret tt
  else
    let! console := kernel (gets k_console) in
    match console with
    | None => kernel (rt_hw_console_output str)
    | Some dev =>
        let! h := gets snd in
        let! len := lift_opt Bad_pointer (rt_strlen h.(hp_ram) str) in
        console_write dev str len
    end.

(** [rt_kprintf]. *)
Definition rt_kprintf (fmt : list Z) (args : list va) : H unit :=
  let! length := on_ram (rt_vsnprintf rt_log_buf (RT_CONSOLEBUF_SIZE - 1) fmt args) in
  let length := u32 length in
  let length := if RT_CONSOLEBUF_SIZE - 1 <? length then RT_CONSOLEBUF_SIZE - 1 else length in
  let! console := kernel (gets k_console) in
  match console with
  | None => kernel (rt_hw_console_output rt_log_buf)
  | Some dev => console_write dev rt_log_buf length
  end.

(** The message of a failed initialisation. *)
Definition init_failed_fmt : list Z :=
  (ch <$> ["T"; "o"; " "; "i"; "n"; "i"; "t"; "i"; "a"; "l"; "i"; "z"; "e"; " "; "d"; "e"; "v"; "i"; "c"; "e"; ":";
    "%"; "s"; " "; "f"; "a"; "i"; "l"; "e"; "d"; "."; " "; "T"; "h"; "e"; " "; "e"; "r"; "r"; "o"; "r"; " ";
    "c"; "o"; "d"; "e"; " "; "i"; "s"; " "; "%"; "d"]%char) ++ [10].

(** The characters of a name before its terminator. *)
Fixpoint name_text (name : list Z) : list Z :=
  match name with [] => [] | c :: name => if c =? 0 then [] else c :: name_text name end.

(** ** Initialising, opening, closing *)
(** Call the driver's [init], if any; the result. *)
Definition call_init (dev : nat) (d : rt_device) : H Z :=
  match d.(dev_init) with
  | None => ret RT_EOK
  | Some f =>
      let! result := drv.(drv_init) f dev in
      (if negb (result =? RT_EOK) then
         let! d := kernel (get_device dev) in
         rt_kprintf init_failed_fmt [VStr (Some (name_text d.(dev_parent).(o_name))); VInt result]
       else ret tt) ;!
      ret result
  end.

Definition activate (dev : nat) : K unit :=
  upd_device dev (fun d => set_dev_flag (Z.lor d.(dev_flag) RT_DEVICE_FLAG_ACTIVATED) d).

(** [rt_device_init]. *)
Definition rt_device_init (dev : nat) : H Z :=
  let! d := kernel (get_device dev) in
  if bool_decide (d.(dev_init) <> None) && (Z.land d.(dev_flag) RT_DEVICE_FLAG_ACTIVATED =? 0) then
    let! result := call_init dev d in
    (if result =? RT_EOK then kernel (activate dev) else ret tt) ;!
    ret result
  else ret RT_EOK.

(** [rt_device_open] from the test of the stand-alone flag on. *)
Definition device_open (dev : nat) (oflag : Z) : H Z :=
  let! d := kernel (get_device dev) in
  if negb (Z.land d.(dev_flag) RT_DEVICE_FLAG_STANDALONE =? 0) && negb (Z.land d.(dev_open_flag) RT_DEVICE_OFLAG_OPEN =? 0)
  then ret (- RT_EBUSY)
  else
    let! result :=
      match d.(dev_open) with
      | Some f => drv.(drv_open) f dev oflag
      | None => kernel (upd_device dev (set_dev_open_flag (Z.land oflag RT_DEVICE_OFLAG_MASK))) ;! ret RT_EOK
      end in
    (if (result =? RT_EOK) || (result =? - RT_ENOSYS) then
       kernel (upd_device dev (fun d => set_dev_open_flag (Z.lor d.(dev_open_flag) RT_DEVICE_OFLAG_OPEN) d)) ;!
       kernel (upd_device dev (fun d => set_dev_ref_count (u8 (d.(dev_ref_count) + 1)) d)) ;!
       let! d := kernel (get_device dev) in
       rt_assert (negb (d.(dev_ref_count) =? 0))
     else ret tt) ;!
    ret result.

(** [rt_device_open]. *)
Definition rt_device_open (dev : nat) (oflag : Z) : H Z :=
  let! d := kernel (get_device dev) in
  if Z.land d.(dev_flag) RT_DEVICE_FLAG_ACTIVATED =? 0 then
    let! result := call_init dev d in
    if negb (result =? RT_EOK) then ret result
    else kernel (activate dev) ;! device_open dev oflag
  else device_open dev oflag.

(** [rt_device_close]. *)
Definition rt_device_close (dev : nat) : H Z :=
  let! d := kernel (get_device dev) in
  if d.(dev_ref_count) =? 0 then ret (- RT_ERROR)
  else
    kernel (put_device dev (set_dev_ref_count (u8 (d.(dev_ref_count) - 1)) d)) ;!
    let! d := kernel (get_device dev) in
    if negb (d.(dev_ref_count) =? 0) then ret RT_EOK
    else
      let! result :=
        match d.(dev_close) with Some f => drv.(drv_close) f dev | None => ret RT_EOK end in
      (if (result =? RT_EOK) || (result =? - RT_ENOSYS)
       then kernel (upd_device dev (set_dev_open_flag RT_DEVICE_OFLAG_CLOSE)) else ret tt) ;!
      ret result.

(** ** Choosing the console *)
Definition rt_console_get_device : K (option nat) := gets k_console.

(** [rt_console_set_device]. *)
Definition rt_console_set_device (name : list Z) : H (option nat) :=
  let! old := kernel (gets k_console) in
  let! new := kernel (rt_device_find name) in
  match new with
  | None => ret old
  | Some new =>
      let! console := kernel (gets k_console) in
      (match console with Some dev => rt_device_close dev ;! ret tt | None => ret tt end) ;!
      rt_device_open new (Z.lor RT_DEVICE_OFLAG_RDWR RT_DEVICE_FLAG_STREAM) ;!
      kernel (modify (set_console (Some new))) ;!
      ret old
  end.
End ops.
End Device.
