(* ===== verification/RingBuffer.v ===== *)
(** * [components/drivers/src/ringbuffer.c]: the ring buffer of the drivers

    The structure is a record and its pool, the source and the destination of a
    transfer are bytes of a [ram]; a call runs on the two together.  Both
    indices have fifteen bits and a mirror bit, as in the structure; the C
    library's [memcpy] reads all bytes and then writes them, which is its
    behaviour on regions that do not overlap.  Creating and destroying a buffer
    runs on the kernel and the heap ([Mem.v]). *)
From S2P Require Import Prelude Ram RtList KMonad KState Mem.
Local Open Scope Z_scope.
Local Open Scope kmonad_scope.

Module RingBuffer.
Import Ram.

Record rt_ringbuffer := Ringbuffer {
  rb_ptr : Z;            (** [buffer_ptr] *)
  rb_read_mirror : Z;    (** one bit *)
  rb_read_index : Z;     (** fifteen bits *)
  rb_write_mirror : Z;
  rb_write_index : Z;
  rb_size : Z;           (** [buffer_size], [rt_int16_t] *)
}.

Definition set_read (mirror index : Z) (rb : rt_ringbuffer) : rt_ringbuffer :=
  Ringbuffer rb.(rb_ptr) mirror index rb.(rb_write_mirror) rb.(rb_write_index) rb.(rb_size).
Definition set_write (mirror index : Z) (rb : rt_ringbuffer) : rt_ringbuffer :=
  Ringbuffer rb.(rb_ptr) rb.(rb_read_mirror) rb.(rb_read_index) mirror index rb.(rb_size).

(** Stores to the bit fields. *)
Definition u1 (x : Z) : Z := x mod 2.
Definition u15 (x : Z) : Z := x mod 2 ^ 15.

Inductive rt_ringbuffer_state :=
  | RT_RINGBUFFER_EMPTY
  | RT_RINGBUFFER_FULL
  | RT_RINGBUFFER_HALFFULL.

Definition rt_ringbuffer_status (rb : rt_ringbuffer) : rt_ringbuffer_state :=
  if rb.(rb_read_index) =? rb.(rb_write_index) then
    if rb.(rb_read_mirror) =? rb.(rb_write_mirror) then RT_RINGBUFFER_EMPTY
    else RT_RINGBUFFER_FULL
  else RT_RINGBUFFER_HALFFULL.

Definition rt_ringbuffer_data_len (rb : rt_ringbuffer) : Z :=
  match rt_ringbuffer_status rb with
  | RT_RINGBUFFER_EMPTY => 0
  | RT_RINGBUFFER_FULL => u32 rb.(rb_size)
  | RT_RINGBUFFER_HALFFULL =>
      if rb.(rb_read_index) <? rb.(rb_write_index)
      then u32 (rb.(rb_write_index) - rb.(rb_read_index))
      else u32 (rb.(rb_size) - (rb.(rb_read_index) - rb.(rb_write_index)))
  end.

Definition rt_ringbuffer_get_size (rb : rt_ringbuffer) : Z := u16 rb.(rb_size).
Definition rt_ringbuffer_space_len (rb : rt_ringbuffer) : Z :=
  u32 (rb.(rb_size) - rt_ringbuffer_data_len rb).

(** ** The operations *)
Abbreviation RB := (M (rt_ringbuffer * ram)).

Definition rb_get : RB rt_ringbuffer := gets fst.
Definition rb_upd (f : rt_ringbuffer -> rt_ringbuffer) : RB unit := modify (fun s => (f s.1, s.2)).
Definition memcpy (dst src n : Z) : RB unit := fun s =>
  match l ← read_bytes s.2 src (Z.to_nat n); write_bytes s.2 dst l with
  | Some m => Ok tt (s.1, m)
  | None => Err Bad_pointer
  end.
Definition put_byte (a b : Z) : RB unit := fun s =>
  match store 1 s.2 a b with Some m => Ok tt (s.1, m) | None => Err Bad_pointer end.
Definition get_byte (a : Z) : RB Z := fun s => lift_opt Bad_pointer (load 1 s.2 a) s.

(** [rt_ringbuffer_init]: the structure had arbitrary contents. *)
Definition rt_ringbuffer_init (pool size : Z) : RB unit :=
  rt_assert (0 <? size) ;!
  rb_upd (fun rb => Ringbuffer pool 0 0 0 0 (i16 (RT_ALIGN_DOWN size 4))).

Definition rt_ringbuffer_reset : RB unit :=
  rb_upd (fun rb => Ringbuffer rb.(rb_ptr) 0 0 0 0 rb.(rb_size)).

(** Copy [length] bytes in at the write index: [false] without, [true] with
    going into the other side of the mirror; [rt_ringbuffer_put] and
    [rt_ringbuffer_put_force] do the same. *)
Definition rb_write (ptr length : Z) : RB bool :=
  let! rb := rb_get in
  let rest := rb.(rb_size) - rb.(rb_write_index) in
  if length <? rest then
    memcpy (rb.(rb_ptr) + rb.(rb_write_index)) ptr length ;!
    rb_upd (fun rb => set_write rb.(rb_write_mirror) (u15 (rb.(rb_write_index) + length)) rb) ;!
    ret false
  else
    memcpy (rb.(rb_ptr) + rb.(rb_write_index)) ptr rest ;!
    memcpy rb.(rb_ptr) (ptr + rest) (length - rest) ;!
    rb_upd (fun rb => set_write (u1 (Z.lnot rb.(rb_write_mirror))) (u15 (length - rest)) rb) ;!
    ret true.

Definition rt_ringbuffer_put (ptr length : Z) : RB Z :=
  let! rb := rb_get in
  let size := u16 (rt_ringbuffer_space_len rb) in
  if size =? 0 then ret 0
  else
    let length := if size <? length then size else length in
    rb_write ptr length ;!
    ret length.

Definition rt_ringbuffer_put_force (ptr length : Z) : RB Z :=
  let! rb := rb_get in
  let space_length := u16 (rt_ringbuffer_space_len rb) in
  let p := if rb.(rb_size) <? length then ptr + (length - rb.(rb_size)) else ptr in
  let length := if rb.(rb_size) <? length then u16 rb.(rb_size) else length in
  let! wrapped := rb_write p length in
  (if space_length <? length then
     rb_upd (fun rb => set_read (if wrapped then u1 (Z.lnot rb.(rb_read_mirror)) else rb.(rb_read_mirror))
       rb.(rb_write_index) rb)
   else ret tt) ;!
  ret length.

Definition rt_ringbuffer_get (ptr length : Z) : RB Z :=
  let! rb := rb_get in
  let size := rt_ringbuffer_data_len rb in
  if size =? 0 then ret 0
  else
    let length := if size <? length then u16 size else length in
    let rest := rb.(rb_size) - rb.(rb_read_index) in
    if length <? rest then
      memcpy ptr (rb.(rb_ptr) + rb.(rb_read_index)) length ;!
      rb_upd (fun rb => set_read rb.(rb_read_mirror) (u15 (rb.(rb_read_index) + length)) rb) ;!
      ret length
    else
      memcpy ptr (rb.(rb_ptr) + rb.(rb_read_index)) rest ;!
      memcpy (ptr + rest) rb.(rb_ptr) (length - rest) ;!
      rb_upd (fun rb => set_read (u1 (Z.lnot rb.(rb_read_mirror))) (u15 (length - rest)) rb) ;!
      ret length.

Definition rt_ringbuffer_putchar (ch : Z) : RB Z :=
  let! rb := rb_get in
  if rt_ringbuffer_space_len rb =? 0 then ret 0
  else
    put_byte (rb.(rb_ptr) + rb.(rb_write_index)) ch ;!
    (if rb.(rb_write_index) =? rb.(rb_size) - 1 then
       rb_upd (fun rb => set_write (u1 (Z.lnot rb.(rb_write_mirror))) 0 rb)
     else rb_upd (fun rb => set_write rb.(rb_write_mirror) (u15 (rb.(rb_write_index) + 1)) rb)) ;!
    ret 1.

Definition is_full (st : rt_ringbuffer_state) : bool :=
  match st with RT_RINGBUFFER_FULL => true | _ => false end.

Definition rt_ringbuffer_putchar_force (ch : Z) : RB Z :=
  let! rb := rb_get in
  let old_state := rt_ringbuffer_status rb in
  put_byte (rb.(rb_ptr) + rb.(rb_write_index)) ch ;!
  (if rb.(rb_write_index) =? rb.(rb_size) - 1 then
     rb_upd (fun rb => set_write (u1 (Z.lnot rb.(rb_write_mirror))) 0 rb) ;!
     (if is_full old_state then
        rb_upd (fun rb => set_read (u1 (Z.lnot rb.(rb_read_mirror))) rb.(rb_write_index) rb)
      else ret tt)
   else
     rb_upd (fun rb => set_write rb.(rb_write_mirror) (u15 (rb.(rb_write_index) + 1)) rb) ;!
     (if is_full old_state then rb_upd (fun rb => set_read rb.(rb_read_mirror) rb.(rb_write_index) rb)
      else ret tt)) ;!
  ret 1.

(** [rt_ringbuffer_getchar]: the byte stored through its pointer, if any. *)
Definition rt_ringbuffer_getchar : RB (option Z) :=
  let! rb := rb_get in
  if rt_ringbuffer_data_len rb =? 0 then ret None
  else
    let! ch := get_byte (rb.(rb_ptr) + rb.(rb_read_index)) in
    (if rb.(rb_read_index) =? rb.(rb_size) - 1 then
       rb_upd (fun rb => set_read (u1 (Z.lnot rb.(rb_read_mirror))) 0 rb)
     else rb_upd (fun rb => set_read rb.(rb_read_mirror) (u15 (rb.(rb_read_index) + 1)) rb)) ;!
    ret (Some ch).

(** ** Buffers on the heap *)
Section heap_ops.
Context {L : Type} {St : ListStore loc L}.

(** A ring buffer operation on the structure [rb] and the memory of the heap. *)
Definition with_rb {A} (rb : rt_ringbuffer) (f : RB A) : M (kst L * Mem.heap) (A * rt_ringbuffer) := fun s =>
  match f (rb, Mem.hp_ram s.2) with
  | Ok a (rb', m) => Ok (a, rb') (s.1, Mem.set_hp_ram m s.2)
  | Switch _ _ _ _ => Err Hang
  | Err e => Err e
  end.

(** [rt_ringbuffer_create]: the address it returns and the structure stored
    there, if it was initialised.  [sizeof(struct rt_ringbuffer)] is 12;
    [garbage] is what the allocated memory holds. *)
Definition rt_ringbuffer_create (garbage : rt_ringbuffer) (size : Z)
    : M (kst L * Mem.heap) (Z * option rt_ringbuffer) :=
  rt_assert (0 <? size) ;!
  let size := u16 (RT_ALIGN_DOWN size 4) in
  let! rb := Mem.rt_malloc 12 in
  if rb =? 0 then ret (rb, None)
  else
    let! pool := Mem.rt_malloc size in
    if pool =? 0 then Mem.rt_free rb ;! ret (rb, None)
    else
      let! r := with_rb garbage (rt_ringbuffer_init pool (i16 size)) in
      ret (rb, Some r.2).

(** [rt_ringbuffer_destroy] of the structure [r] at address [rb]. *)
Definition rt_ringbuffer_destroy (rb : Z) (r : rt_ringbuffer) : M (kst L * Mem.heap) unit :=
  Mem.rt_free r.(rb_ptr) ;!
  Mem.rt_free rb.
End heap_ops.
End RingBuffer.
