(* ===== verification/KernelInv.v ===== *)
(** * The kernel invariant

    [kinv idle s Q]: the state of the ready queues is [Q]; threads are queued
    where their [stat] says; waiting lists hold suspended threads; timer lists
    hold active timers, and the timer of a thread only while the thread is
    suspended.  [idle] is the thread that is always ready.  The rest of the
    file shows how the operations of [thread.c] and [timer.c] transform such
    states. *)
From S2P Require Import Prelude Kservice RtList KMonad KState KPrim KInv Scheduler Object TimerBase Thread Timer.
Import Scheduler Object TimerBase Thread Timer.
Local Open Scope Z_scope.

(** Lists on which threads wait. *)
Definition wait_head (h : loc) : bool :=
  match h with LSuspend _ | LSender _ | LDriver _ => true | _ => false end.

Definition stat_is (TH : gmap nat rt_thread) (t : nat) (st : Z) : Prop :=
  exists th, TH !! t = Some th /\ thread_stat th = st.

(** The timer embedded in thread [t]. *)
Definition thread_timer_ok (t : nat) (r : rt_timer) : Prop :=
  r.(tm_timeout_func) = Rt_thread_timeout /\ r.(tm_parameter) = t /\
  timer_flag_test RT_TIMER_FLAG_SOFT_TIMER r = false /\
  timer_flag_test RT_TIMER_FLAG_PERIODIC r = false.

(** What holds of every thread that was started. *)
Record thread_ok (V : vlinks) (TM : gmap timer_id rt_timer) (Q : Z -> list nat)
    (t : nat) (th : rt_thread) : Prop := {
  to_attr : attr_ok th;
  to_ready : thread_stat th = RT_THREAD_READY -> t ∈ Q th.(t_current_priority);
  to_tlist : is_Some (V !! LTlist t);
  to_stack : stack_ok th;
  to_timer : exists r, TM !! TThread t = Some r /\ thread_timer_ok t r;
}.

(** What holds of a timer that is linked in list [soft]. *)
Definition active_timer (TH : gmap nat rt_thread) (TM : gmap timer_id rt_timer)
    (soft : bool) (tm : timer_id) : Prop :=
  exists r, TM !! tm = Some r /\
    timer_flag_test RT_TIMER_FLAG_ACTIVATED r = true /\
    timer_flag_test RT_TIMER_FLAG_SOFT_TIMER r = soft /\
    forall t, tm = TThread t -> stat_is TH t RT_THREAD_SUSPEND.

Record kparts (idle : nat) (V : vlinks) (TH : gmap nat rt_thread) (TM : gmap timer_id rt_timer)
    (Q : Z -> list nat) : Prop := {
  kp_ready t p : 0 <= p < 256 -> t ∈ Q p ->
    exists th, TH !! t = Some th /\ thread_stat th = RT_THREAD_READY /\ t_current_priority th = p;
  kp_thread t th : TH !! t = Some th -> thread_stat th <> RT_THREAD_INIT ->
    thread_ok V TM Q t th;
  kp_idle : stat_is TH idle RT_THREAD_READY;
  kp_wait h xs t : wait_head h = true -> V !! h = Some xs -> LTlist t ∈ xs ->
    stat_is TH t RT_THREAD_SUSPEND;
  kp_thead soft : is_Some (V !! LTimerHead soft 0);
  kp_row tm r : TM !! tm = Some r -> is_Some (V !! LRow tm 0);
  kp_timers soft xs tm : V !! LTimerHead soft 0 = Some xs -> LRow tm 0 ∈ xs ->
    active_timer TH TM soft tm;
}.

Record kinv (idle : nat) (s : kview) (Q : Z -> list nat) : Prop := {
  ki_sched : sched_inv s Q;
  ki_parts : kparts idle s.(k_links) s.(k_threads) s.(k_timers) Q;
}.

(** The fields that thread and timer operations write. *)
Definition core (V : vlinks) (T : list Z) (G : Z) (TH : gmap nat rt_thread)
    (TM : gmap timer_id rt_timer) (s : kview) : kview :=
  set_ready_group G (set_ready_table T (set_links V (set_threads TH (set_timers TM s)))).

Lemma core_core V T G TH TM V' T' G' TH' TM' s :
  core V' T' G' TH' TM' (core V T G TH TM s) = core V' T' G' TH' TM' s.
Proof. by destruct s. Qed.

Lemma core_restore V T G TH TM s :
  set_primask (k_primask s) (core V T G TH TM (set_primask 1 s)) = core V T G TH TM s.
Proof. by destruct s. Qed.

Lemma core_id s :
  core (k_links s) (k_ready_table s) (k_ready_group s) (k_threads s) (k_timers s) s = s.
Proof. by destruct s. Qed.

Lemma sched_upd_core V T G s :
  sched_upd V T G s = core V T G (k_threads s) (k_timers s) s.
Proof. by destruct s. Qed.

Lemma quiet_core V T G TH TM s : quiet s -> quiet (core V T G TH TM s).
Proof. done. Qed.

(** The scheduler invariant does not depend on the other fields. *)
Lemma sched_inv_frame s s' Q :
  k_links s' = k_links s -> k_ready_table s' = k_ready_table s ->
  k_ready_group s' = k_ready_group s -> sched_inv s Q -> sched_inv s' Q.
Proof. intros E1 E2 E3 [H1 H2 H3]. split; by rewrite ?E1, ?E2, ?E3. Qed.

Lemma kinv_frame idle s s' Q :
  k_links s' = k_links s -> k_ready_table s' = k_ready_table s ->
  k_ready_group s' = k_ready_group s -> k_threads s' = k_threads s -> k_timers s' = k_timers s ->
  kinv idle s Q -> kinv idle s' Q.
Proof.
  intros E1 E2 E3 E4 E5 [H1 H2]. split; [by eapply sched_inv_frame|]. by rewrite E1, E4, E5.
Qed.

(** ** Status words *)
Lemma thread_stat_set v th : 0 <= v < 16 ->
  thread_stat (set_t_stat (Z.lor v (Z.land (t_stat th) (Z.lnot RT_THREAD_STAT_MASK))) th) = v.
Proof.
  intros Hv. unfold thread_stat, RT_THREAD_STAT_MASK. simpl. apply Z.bits_inj'. intros n Hn.
  rewrite Z.land_spec, Z.lor_spec, Z.land_spec, Z.lnot_spec by done. change 15 with (Z.ones 4).
  destruct (decide (n < 4)) as [H4|H4].
  - rewrite Z.ones_spec_low by lia. simpl. rewrite andb_false_r, orb_false_r. apply andb_true_r.
  - rewrite Z.ones_spec_high by lia. rewrite andb_false_r.
    symmetry. apply (testbit_ge_width v 4); lia.
Qed.

Lemma stat_is_insert TH t th u st :
  stat_is (<[t := th]> TH) u st <->
  (u = t /\ thread_stat th = st) \/ (u <> t /\ stat_is TH u st).
Proof.
  unfold stat_is. destruct (decide (u = t)) as [->|Hne].
  - rewrite lookup_insert_eq. naive_solver.
  - rewrite lookup_insert_ne by done. naive_solver.
Qed.

(** ** Timer flags *)
Lemma flag_clear_test m r : 0 <= m ->
  timer_flag_test m (timer_flag_clear m r) = false.
Proof.
  intros Hm. unfold timer_flag_test, timer_flag_clear. simpl.
  rewrite <-Z.land_assoc, (Z.land_comm (Z.lnot m)), Z.land_lnot_diag, Z.land_0_r. done.
Qed.

Lemma flag_clear_other m m' r : Z.land m m' = 0 ->
  timer_flag_test m' (timer_flag_clear m r) = timer_flag_test m' r.
Proof.
  intros Hm. unfold timer_flag_test, timer_flag_clear. simpl. do 2 f_equal.
  rewrite <-Z.land_assoc. f_equal. apply Z.bits_inj'. intros n Hn.
  rewrite Z.land_spec, Z.lnot_spec by done.
  assert (Z.testbit (Z.land m m') n = false) as E by (rewrite Hm; apply Z.testbit_0_l).
  rewrite Z.land_spec in E. by destruct (Z.testbit m n), (Z.testbit m' n).
Qed.

Lemma flag_set_test m r : m <> 0 ->
  timer_flag_test m (timer_flag_set m r) = true.
Proof.
  intros Hm. unfold timer_flag_test, timer_flag_set. simpl.
  rewrite Z.land_comm.
  destruct (Z.eqb_spec (Z.land m (Z.lor (o_flag (tm_parent r)) m)) 0) as [E|E]; [|done].
  destruct Hm. rewrite <-E. apply Z.bits_inj'. intros n Hn. rewrite Z.land_spec, Z.lor_spec.
  by destruct (Z.testbit m n), (Z.testbit (o_flag (tm_parent r)) n).
Qed.

Lemma flag_set_other m m' r : Z.land m m' = 0 ->
  timer_flag_test m' (timer_flag_set m r) = timer_flag_test m' r.
Proof.
  intros Hm. unfold timer_flag_test, timer_flag_set. simpl. do 2 f_equal.
  apply Z.bits_inj'. intros n Hn. rewrite !Z.land_spec, Z.lor_spec.
  assert (Z.testbit (Z.land m m') n = false) as E by (rewrite Hm; apply Z.testbit_0_l).
  rewrite Z.land_spec in E. by destruct (Z.testbit m n), (Z.testbit m' n), (Z.testbit (o_flag (tm_parent r)) n).
Qed.

Lemma flag_clear_id m r : timer_flag_test m r = false -> timer_flag_clear m r = r.
Proof.
  unfold timer_flag_test, timer_flag_clear. intros E. apply negb_false_iff, Z.eqb_eq in E.
  destruct r as [ob f pa it tt]. destruct ob as [nm ty fl]. unfold set_tm_parent, set_o_flag. simpl in *.
  do 2 f_equal. apply Z.bits_inj'. intros n Hn. rewrite Z.land_spec, Z.lnot_spec by done.
  assert (Z.testbit (Z.land fl m) n = false) as E' by (rewrite E; apply Z.testbit_0_l).
  rewrite Z.land_spec in E'. by destruct (Z.testbit fl n), (Z.testbit m n).
Qed.

(** ** Removing a node from whatever queue holds it *)
Definition dropped (n : loc) (V V' : vlinks) : Prop :=
  forall h, is_head h = true -> V' !! h = drop_node n <$> V !! h.

Lemma remove_dropped V n ns :
  links_ok V -> is_head n = false -> V !! n = Some ns ->
  exists V', v_remove n V = Some V' /\ links_ok V' /\ V' !! n = Some [] /\ dropped n V V' /\
    forall x, is_Some (V !! x) -> is_Some (V' !! x).
Proof.
  intros HV Hn Hns. destruct (links_remove V n ns HV Hn Hns) as (V' & E & HV' & H1 & H2).
  exists V'. repeat (split; [done|]). split.
  - intros h Hh. apply H2. congruence.
  - intros x [xs Hx]. destruct (decide (x = n)) as [->|Hx']; [by rewrite H1|]. by rewrite H2, Hx.
Qed.

Lemma dropped_elem n V V' h xs x :
  dropped n V V' -> is_head h = true -> V' !! h = Some xs -> x ∈ xs ->
  exists ys, V !! h = Some ys /\ x ∈ ys /\ x <> n.
Proof.
  intros Hd Hh Hxs Hx. rewrite Hd in Hxs by done. destruct (V !! h) as [ys|]; [|done].
  injection Hxs as <-. apply elem_of_drop_node in Hx as [? ?]. eauto.
Qed.

Lemma dropped_same n V V' h xs :
  dropped n V V' -> is_head h = true -> V !! h = Some xs -> n ∉ xs -> V' !! h = Some xs.
Proof. intros Hd Hh Hxs Hn. rewrite Hd, Hxs by done. simpl. by rewrite drop_node_notin. Qed.

(** Two records of a timer that differ in what the invariant does not mention. *)
Definition same_timer_kind (r r' : rt_timer) : Prop :=
  tm_timeout_func r' = tm_timeout_func r /\ tm_parameter r' = tm_parameter r /\
  timer_flag_test RT_TIMER_FLAG_SOFT_TIMER r' = timer_flag_test RT_TIMER_FLAG_SOFT_TIMER r /\
  timer_flag_test RT_TIMER_FLAG_PERIODIC r' = timer_flag_test RT_TIMER_FLAG_PERIODIC r.

Lemma thread_timer_insert (TM : gmap timer_id rt_timer) tm r r' t :
  TM !! tm = Some r -> same_timer_kind r r' ->
  (exists q, TM !! TThread t = Some q /\ thread_timer_ok t q) ->
  exists q, <[tm := r']> TM !! TThread t = Some q /\ thread_timer_ok t q.
Proof.
  intros Hr (E1 & E2 & E3 & E4) (q & Hq & Hok). destruct (decide (TThread t = tm)) as [<-|Hne].
  - rewrite lookup_insert_eq. exists r'. split; [done|]. rewrite Hr in Hq. injection Hq as <-.
    unfold thread_timer_ok in *. by rewrite E1, E2, E3, E4.
  - exists q. by rewrite lookup_insert_ne.
Qed.

(** A timer is taken out of its list. *)
Lemma kparts_timer_off idle V V' TH TM Q tm r r' :
  kparts idle V TH TM Q -> TM !! tm = Some r -> same_timer_kind r r' ->
  dropped (LRow tm 0) V V' -> (forall x, is_Some (V !! x) -> is_Some (V' !! x)) ->
  kparts idle V' TH (<[tm := r']> TM) Q.
Proof.
  intros HP Hr Hk Hd Hdom. split.
  - apply HP.
  - intros t th Ht Hst. destruct (kp_thread _ _ _ _ _ HP t th Ht Hst) as [? ? ? ? ?].
    split; auto. by eapply thread_timer_insert.
  - apply HP.
  - intros h xs t Hh Hxs Hin. assert (is_head h = true) as Hh' by (by destruct h).
    destruct (dropped_elem _ _ _ _ _ _ Hd Hh' Hxs Hin) as (ys & Hys & Hin' & _).
    by eapply (kp_wait _ _ _ _ _ HP).
  - intros soft. apply Hdom, HP.
  - intros tm' q Hq. apply lookup_insert_Some in Hq as [[<- _]|[_ Hq]]; by eapply Hdom, HP.
  - intros soft xs tm' Hxs Hin.
    destruct (dropped_elem _ _ _ (LTimerHead soft 0) _ _ Hd eq_refl Hxs Hin) as (ys & Hys & Hin' & Hne).
    destruct (kp_timers _ _ _ _ _ HP _ _ _ Hys Hin') as (q & Hq & ?). exists q.
    rewrite lookup_insert_ne by congruence. done.
Qed.

Lemma sched_inv_dropped s s' Q n :
  sched_inv s Q -> links_ok (k_links s') -> dropped n (k_links s) (k_links s') ->
  (forall p, 0 <= p < 256 -> n ∉ LTlist <$> Q p) ->
  k_ready_table s' = k_ready_table s -> k_ready_group s' = k_ready_group s ->
  sched_inv s' Q.
Proof.
  intros HI HV Hd Hn E1 E2. split; [done| |rewrite E1, E2; apply HI].
  intros p Hp. eapply dropped_same; [done|done|by apply HI|auto].
Qed.

Lemma row_not_ready tm lvl (q : list nat) : LRow tm lvl ∉ LTlist <$> q.
Proof. intros (x & ? & _)%list_elem_of_fmap. done. Qed.

(** [rt_timer_stop] on a state of the invariant. *)
Lemma timer_stop_ok idle s Q tm r :
  kinv idle s Q -> quiet s -> k_timers s !! tm = Some r ->
  exists V a,
    let s' := core V (k_ready_table s) (k_ready_group s) (k_threads s)
      (<[tm := timer_flag_clear RT_TIMER_FLAG_ACTIVATED r]> (k_timers s)) s in
    rt_timer_stop tm s = Ok a s' /\ kinv idle s' Q /\
    dropped (LRow tm 0) (k_links s) V /\
    (forall x, is_head x = false -> k_links s !! x = Some [] -> V !! x = Some []) /\
    a = (if timer_flag_test RT_TIMER_FLAG_ACTIVATED r then RT_EOK else - RT_ERROR) /\
    (timer_flag_test RT_TIMER_FLAG_ACTIVATED r = true -> V !! LRow tm 0 = Some []).
Proof.
  intros HI Hq Hr.
  assert (same_timer_kind r (timer_flag_clear RT_TIMER_FLAG_ACTIVATED r)) as Hk.
  { split; [done|]. split; [done|]. split; by apply flag_clear_other. }
  destruct (kp_row _ _ _ _ _ (ki_parts _ _ _ HI) _ _ Hr) as [ns Hns].
  destruct (remove_dropped (k_links s) (LRow tm 0) ns) as (V & E & HV & Hl & Hd & Hdom);
    [apply HI|done|done|].
  destruct (timer_flag_test RT_TIMER_FLAG_ACTIVATED r) eqn:Ha.
  - exists V, RT_EOK. intros s'. split; [|split; [split|split; [done|split; [|split; done]]]].
    + unfold rt_timer_stop, rt_timer_remove, get_timer, upd_timer, put_timer, list_remove, list_op1,
        rt_hw_interrupt_disable, for_each, bind, gets, modify, ret. simpl. rewrite Hr. simpl.
      rewrite Ha. simpl. rewrite E. simpl.
      rewrite interrupt_enable_quiet by (unfold quiet; done). simpl. unfold get_timer, bind, gets. simpl.
      rewrite Hr. by destruct s.
    + eapply (sched_inv_dropped s); [apply HI|done|exact Hd| |done|done].
      intros p _. apply row_not_ready.
    + by eapply kparts_timer_off; [apply HI|..].
    + intros x Hx Hxl. unfold v_remove in E. rewrite Hns in E. simpl in E. injection E as <-.
      destruct (decide (x = LRow tm 0)) as [->|Hne]; [by rewrite lookup_insert_eq|].
      by rewrite lookup_insert_ne, lookup_fmap, Hxl by done.
  - exists (k_links s), (- RT_ERROR).
    assert (dropped (LRow tm 0) (k_links s) (k_links s)) as Hd'.
    { intros h Hh. destruct (k_links s !! h) as [xs|] eqn:Ehx; [|done]. simpl.
      rewrite drop_node_notin; [done|]. intros Hin.
      pose proof (lo_typed _ (si_links _ _ (ki_sched _ _ _ HI)) _ _ _ Hh Ehx Hin) as Hkd.
      destruct h; try done. simpl in Hkd. apply Nat.eqb_eq in Hkd as ->.
      destruct (kp_timers _ _ _ _ _ (ki_parts _ _ _ HI) _ _ _ Ehx Hin) as (q & Hq' & Ha' & _).
      congruence. }
    rewrite flag_clear_id, insert_id, core_id by done.
    split; [|split; [done|split; [done|split; [done|split; done]]]].
    unfold rt_timer_stop, get_timer, bind, gets. simpl. rewrite Hr. simpl. by rewrite Ha.
Qed.

(** ** Threads that change state *)

(** Two records of a thread with the same priority attributes and stack. *)
Definition same_thread_kind (th th' : rt_thread) : Prop :=
  t_current_priority th' = t_current_priority th /\ t_number th' = t_number th /\
  t_number_mask th' = t_number_mask th /\ t_high_mask th' = t_high_mask th /\
  t_stack_mark th' = t_stack_mark th /\ t_sp th' = t_sp th /\
  t_stack_addr th' = t_stack_addr th /\ t_stack_size th' = t_stack_size th.

Lemma same_kind_attr th th' : same_thread_kind th th' -> attr_ok th -> attr_ok th'.
Proof. intros (E1 & E2 & E3 & E4 & _) [? ? ? ?]. split; by rewrite ?E1, ?E2, ?E3, ?E4. Qed.

Lemma same_kind_stack th th' : same_thread_kind th th' -> stack_ok th -> stack_ok th'.
Proof. intros (_ & _ & _ & _ & E1 & E2 & E3 & E4). unfold stack_ok. by rewrite E1, E2, E3, E4. Qed.

Lemma stat_is_keep TH t th th' u st :
  TH !! t = Some th -> thread_stat th <> st -> stat_is TH u st -> stat_is (<[t := th']> TH) u st.
Proof.
  intros Ht Hst (x & Hx & Hs). apply stat_is_insert. right. split; [|exists x; done].
  intros ->. congruence.
Qed.

Lemma active_timer_keep TH TH' TM soft tm :
  (forall u, stat_is TH u RT_THREAD_SUSPEND -> stat_is TH' u RT_THREAD_SUSPEND) ->
  active_timer TH TM soft tm -> active_timer TH' TM soft tm.
Proof. intros HT (r & ? & ? & ? & Hs). exists r. repeat (split; [done|]). auto. Qed.

(** A thread record is replaced without changing state. *)
Lemma kparts_thread_field idle V TH TM Q t th th' :
  kparts idle V TH TM Q -> TH !! t = Some th -> same_thread_kind th th' ->
  t_stat th' = t_stat th -> kparts idle V (<[t := th']> TH) TM Q.
Proof.
  intros HP Ht Hk Hst.
  assert (thread_stat th' = thread_stat th) as Hst' by (unfold thread_stat; by rewrite Hst).
  assert (forall u st, stat_is TH u st -> stat_is (<[t := th']> TH) u st) as Hstat.
  { intros u st (x & Hx & Hs). apply stat_is_insert.
    destruct (decide (u = t)) as [->|]; [left|right; split; [done|by exists x]].
    split; [done|]. rewrite Ht in Hx. injection Hx as <-. congruence. }
  split; try apply HP.
  - intros u p Hp Hu. destruct (kp_ready _ _ _ _ _ HP u p Hp Hu) as (x & Hx & Hs & Hpx).
    destruct (decide (u = t)) as [->|Hne]; [|exists x; by rewrite lookup_insert_ne].
    exists th'. rewrite lookup_insert_eq. rewrite Ht in Hx. injection Hx as <-.
    split; [done|]. split; [congruence|]. destruct Hk as (-> & _). done.
  - intros u x Hx Hs. destruct (decide (u = t)) as [->|Hne].
    + rewrite lookup_insert_eq in Hx. injection Hx as <-. rewrite Hst' in Hs.
      destruct (kp_thread _ _ _ _ _ HP t th Ht Hs) as [Ha Hr Htl Hsk Htm].
      split; [by eapply same_kind_attr| |done|by eapply same_kind_stack|done].
      rewrite Hst'. destruct Hk as (-> & _). done.
    + rewrite lookup_insert_ne in Hx by done. by apply (kp_thread _ _ _ _ _ HP).
  - apply Hstat, HP.
  - intros h xs u Hh Hxs Hin. apply Hstat. by eapply (kp_wait _ _ _ _ _ HP).
  - intros soft xs tm Hxs Hin. eapply active_timer_keep; [intros u; apply Hstat|].
    by eapply (kp_timers _ _ _ _ _ HP).
Qed.

(** A ready thread leaves its queue and becomes suspended. *)
Lemma kparts_suspend idle V V' TH TM Q t th th' :
  kparts idle V TH TM Q -> TH !! t = Some th -> thread_stat th = RT_THREAD_READY -> t <> idle ->
  same_thread_kind th th' -> thread_stat th' = RT_THREAD_SUSPEND ->
  dropped (LTlist t) V V' -> (forall x, is_Some (V !! x) -> is_Some (V' !! x)) ->
  let p := t_current_priority th in
  kparts idle V' (<[t := th']> TH) TM (q_set Q p (drop_node t (Q p))).
Proof.
  intros HP Ht Hst Hidle Hk Hst' Hd Hdom p.
  destruct (kp_thread _ _ _ _ _ HP t th Ht) as [Ha Hr Htl Hsk Htm]; [by rewrite Hst|].
  assert (forall u, stat_is TH u RT_THREAD_SUSPEND ->
    stat_is (<[t := th']> TH) u RT_THREAD_SUSPEND) as Hstat.
  { intros u. apply (stat_is_keep _ _ th); [done|by rewrite Hst]. }
  assert (forall u p', u ∈ q_set Q p (drop_node t (Q p)) p' -> u ∈ Q p') as Hsub.
  { intros u p'. unfold q_set. case_decide; subst; [|done]. by intros [? _]%elem_of_drop_node. }
  split.
  - intros u p' Hp' Hu. assert (u <> t) as Hne.
    { intros ->. destruct (kp_ready _ _ _ _ _ HP t p' Hp' (Hsub _ _ Hu)) as (x & Hx & _ & Hpx).
      rewrite Ht in Hx. injection Hx as <-. unfold q_set in Hu. rewrite decide_True in Hu by done.
      by apply elem_of_drop_node in Hu as [_ ?]. }
    rewrite lookup_insert_ne by done. apply (kp_ready _ _ _ _ _ HP); auto.
  - intros u x Hx Hs. destruct (decide (u = t)) as [->|Hne].
    + rewrite lookup_insert_eq in Hx. injection Hx as <-.
      split; [by eapply same_kind_attr|by rewrite Hst'|by apply Hdom|by eapply same_kind_stack|done].
    + rewrite lookup_insert_ne in Hx by done.
      destruct (kp_thread _ _ _ _ _ HP u x Hx Hs) as [Ha' Hr' Htl' Hsk' Htm']. split; auto.
      intros Hrd. unfold q_set. case_decide as Hpp; [|by apply Hr'].
      rewrite <-Hpp. apply elem_of_drop_node. auto.
  - apply stat_is_insert. right. split; [done|apply HP].
  - intros h xs u Hh Hxs Hin. assert (is_head h = true) as Hh' by (by destruct h).
    destruct (dropped_elem _ _ _ _ _ _ Hd Hh' Hxs Hin) as (ys & Hys & Hin' & _).
    apply Hstat. by eapply (kp_wait _ _ _ _ _ HP).
  - intros soft. apply Hdom, HP.
  - intros tm r Hr'. by eapply Hdom, HP.
  - intros soft xs tm Hxs Hin. eapply active_timer_keep; [apply Hstat|].
    destruct (dropped_elem _ _ _ (LTimerHead soft 0) _ _ Hd eq_refl Hxs Hin) as (ys & Hys & Hin' & _).
    by eapply (kp_timers _ _ _ _ _ HP).
Qed.

(** A node is unlinked without any thread changing state. *)
Lemma kparts_unlink idle V V' TH TM Q n :
  kparts idle V TH TM Q -> dropped n V V' -> (forall x, is_Some (V !! x) -> is_Some (V' !! x)) ->
  kparts idle V' TH TM Q.
Proof.
  intros HP Hd Hdom. split; try apply HP.
  - intros u x Hx Hs. destruct (kp_thread _ _ _ _ _ HP u x Hx Hs) as [? ? ? ? ?]. split; auto.
  - intros h xs u Hh Hxs Hin. assert (is_head h = true) as Hh' by (by destruct h).
    destruct (dropped_elem _ _ _ _ _ _ Hd Hh' Hxs Hin) as (ys & Hys & Hin' & _).
    by eapply (kp_wait _ _ _ _ _ HP).
  - intros soft. apply Hdom, HP.
  - intros tm r Hr. by eapply Hdom, HP.
  - intros soft xs tm Hxs Hin.
    destruct (dropped_elem _ _ _ (LTimerHead soft 0) _ _ Hd eq_refl Hxs Hin) as (ys & Hys & Hin' & _).
    by eapply (kp_timers _ _ _ _ _ HP).
Qed.

(** An unlinked thread whose timer is stopped joins its ready queue. *)
Lemma kparts_make_ready idle V V' TH TM Q t th th' :
  kparts idle V TH TM Q -> links_ok V -> TH !! t = Some th -> thread_stat th <> RT_THREAD_INIT ->
  same_thread_kind th th' -> thread_stat th' = RT_THREAD_READY ->
  V !! LTlist t = Some [] ->
  (forall soft xs, V !! LTimerHead soft 0 = Some xs -> LRow (TThread t) 0 ∉ xs) ->
  (forall p, 0 <= p < 256 -> t ∉ Q p) ->
  let p := t_current_priority th in
  changed [LReady p] [LTlist t] V V' ->
  kparts idle V' (<[t := th']> TH) TM (q_set Q p (Q p ++ [t])).
Proof.
  intros HP HV Ht Hst Hk Hst' Hl Htmr Hnq p Hch.
  destruct (kp_thread _ _ _ _ _ HP t th Ht Hst) as [Ha Hr Htl Hsk Htm].
  assert (forall u p', u ∈ Q p' -> u ∈ q_set Q p (Q p ++ [t]) p') as Hsup.
  { intros u p' Hu. unfold q_set. case_decide; subst; set_solver. }
  assert (forall h xs, wait_head h = true -> V !! h = Some xs -> LTlist t ∉ xs) as Hnw.
  { intros h xs _ Hxs. by eapply loose_not_member. }
  split.
  - intros u p' Hp' Hu. destruct (decide (u = t)) as [->|Hne].
    + rewrite lookup_insert_eq. exists th'. split; [done|]. split; [done|].
      destruct Hk as (-> & _). unfold q_set in Hu. case_decide; [done|].
      by apply Hnq in Hu.
    + rewrite lookup_insert_ne by done. apply (kp_ready _ _ _ _ _ HP); [done|].
      unfold q_set in Hu. case_decide; subst; set_solver.
  - intros u x Hx Hs. destruct (decide (u = t)) as [->|Hne].
    + rewrite lookup_insert_eq in Hx. injection Hx as <-.
      split; [by eapply same_kind_attr| |by apply Hch|by eapply same_kind_stack|done].
      intros _. destruct Hk as (-> & _). unfold q_set. rewrite decide_True by done. set_solver.
    + rewrite lookup_insert_ne in Hx by done.
      destruct (kp_thread _ _ _ _ _ HP u x Hx Hs) as [? ? ? ? ?]. split; auto. by apply Hch.
  - destruct (kp_idle _ _ _ _ _ HP) as (x & Hx & Hs). apply stat_is_insert.
    destruct (decide (idle = t)) as [->|]; [left; done|right; split; [done|by exists x]].
  - intros h xs u Hh Hxs Hin. rewrite (ch_heads _ _ _ _ Hch) in Hxs; [|by destruct h|].
    2:{ destruct h; set_solver. }
    apply stat_is_insert. right. split; [|by eapply (kp_wait _ _ _ _ _ HP)].
    intros ->. by eapply Hnw.
  - intros soft. apply Hch, HP.
  - intros tm r Hr'. by eapply Hch, HP.
  - intros soft xs tm Hxs Hin. rewrite (ch_heads _ _ _ _ Hch) in Hxs by (done || set_solver).
    destruct (kp_timers _ _ _ _ _ HP _ _ _ Hxs Hin) as (r & ? & ? & ? & Hs). exists r.
    repeat (split; [done|]). intros u ->. apply stat_is_insert. right. split; [|auto].
    intros ->. by eapply Htmr.
Qed.

(** ** [rt_thread_suspend] and [rt_thread_resume] *)
Definition make_suspended (th : rt_thread) : rt_thread :=
  set_t_stat (Z.lor RT_THREAD_SUSPEND (Z.land th.(t_stat) (Z.lnot RT_THREAD_STAT_MASK))) th.

Lemma stat_suspended th : thread_stat (make_suspended th) = RT_THREAD_SUSPEND.
Proof. by apply thread_stat_set. Qed.

Lemma stat_ready th : thread_stat (make_ready th) = RT_THREAD_READY.
Proof. by apply thread_stat_set. Qed.

(** A suspended or ready thread, seen from the invariant. *)
Lemma kinv_thread idle s Q t th :
  kinv idle s Q -> k_threads s !! t = Some th -> thread_stat th <> RT_THREAD_INIT ->
  thread_ok (k_links s) (k_timers s) Q t th.
Proof. intros HI. apply (kp_thread _ _ _ _ _ (ki_parts _ _ _ HI)). Qed.

Lemma kinv_not_ready idle s Q t th p :
  kinv idle s Q -> k_threads s !! t = Some th -> thread_stat th <> RT_THREAD_READY ->
  0 <= p < 256 -> t ∉ Q p.
Proof.
  intros HI Ht Hst Hp Hin.
  destruct (kp_ready _ _ _ _ _ (ki_parts _ _ _ HI) _ _ Hp Hin) as (x & Hx & Hs & _). congruence.
Qed.

(** A ready thread is linked in its ready queue and nowhere else. *)
Lemma ready_member idle s Q t th :
  kinv idle s Q -> k_threads s !! t = Some th -> thread_stat th = RT_THREAD_READY ->
  forall h xs, is_head h = true -> k_links s !! h = Some xs -> LTlist t ∈ xs ->
  h = LReady (t_current_priority th).
Proof.
  intros HI Ht Hst h xs Hh Hxs Hin.
  destruct (kinv_thread _ _ _ _ _ HI Ht) as [Ha Hr _ _ _]; [by rewrite Hst|].
  eapply (member_unique (k_links s) h _ xs (LTlist <$> Q (t_current_priority th)) (LTlist t));
    [apply HI|done|done|done|apply HI, Ha|done|]. apply list_elem_of_fmap_2. by apply Hr.
Qed.

(** The timer of a thread that is not suspended is in no list. *)
Lemma timer_unlinked idle s Q t th :
  kinv idle s Q -> k_threads s !! t = Some th -> thread_stat th <> RT_THREAD_SUSPEND ->
  forall h xs, is_head h = true -> k_links s !! h = Some xs -> LRow (TThread t) 0 ∉ xs.
Proof.
  intros HI Ht Hst h xs Hh Hxs Hin.
  pose proof (lo_typed _ (si_links _ _ (ki_sched _ _ _ HI)) _ _ _ Hh Hxs Hin) as Hkd.
  destruct h; try done. simpl in Hkd. apply Nat.eqb_eq in Hkd as ->.
  destruct (kp_timers _ _ _ _ _ (ki_parts _ _ _ HI) _ _ _ Hxs Hin) as (q & _ & _ & _ & Hs).
  destruct (Hs t eq_refl) as (x & Hx & Hs'). congruence.
Qed.

Lemma suspend_ok idle s Q t th :
  kinv idle s Q -> quiet s -> k_threads s !! t = Some th ->
  thread_stat th = RT_THREAD_READY -> t <> idle ->
  exists V T G r,
    let p := t_current_priority th in
    let s' := core V T G (<[t := make_suspended th]> (k_threads s))
      (<[TThread t := timer_flag_clear RT_TIMER_FLAG_ACTIVATED r]> (k_timers s)) s in
    rt_thread_suspend t s = Ok RT_EOK s' /\
    kinv idle s' (q_set Q p (drop_node t (Q p))) /\
    k_timers s !! TThread t = Some r /\
    V !! LTlist t = Some [] /\
    (forall h, is_head h = true -> h <> LReady p -> V !! h = k_links s !! h).
Proof.
  intros HI Hq Ht Hst Hidle. set (p := t_current_priority th).
  destruct (kinv_thread _ _ _ _ _ HI Ht) as [Ha Hr [ns Hns] Hsk (r & Htm & Htk)]; [by rewrite Hst|].
  set (s1 := set_threads (<[t := make_suspended th]> (k_threads s)) (set_primask 1 s)).
  destruct (remove_thread_ok s1 Q t (make_suspended th) ns) as (V & T & G & E & EV & HS).
  { eapply sched_inv_frame; [..|apply HI]; done. }
  { by apply quiet_masked. }
  { apply lookup_insert_eq. }
  { by apply (same_kind_attr th). }
  { done. }
  { intros p' Hp' Hne Hin.
    destruct (kp_ready _ _ _ _ _ (ki_parts _ _ _ HI) _ _ Hp' Hin) as (x & Hx & _ & Hpx).
    apply Hne. simpl. congruence. }
  destruct (remove_dropped (k_links s) (LTlist t) ns) as (V0 & EV0 & HV & Hl & Hd & Hdom);
    [apply HI|done|done|].
  simpl in EV. rewrite EV0 in EV. injection EV as ->.
  rewrite sched_upd_core in E, HS. simpl in E, HS. fold p in HS. set (s2 := core _ _ _ _ _ _) in E, HS.
  assert (kinv idle s2 (q_set Q p (drop_node t (Q p)))) as HI2.
  { split; [done|]. simpl. eapply kparts_suspend; [apply HI|done..|apply stat_suspended|done|done]. }
  destruct (timer_stop_ok idle s2 _ (TThread t) r HI2) as (V' & a & E2 & HI3 & Hd' & Hloose & _);
    [by apply quiet_masked|done|].
  exists V', T, G, r. intros p' s'. change p' with p. clear p'.
  assert (forall h, is_head h = true -> V !! h = V' !! h) as Hsame.
  { intros h Hh. rewrite Hd' by done. change (k_links s2) with V.
    destruct (V !! h) as [xs|] eqn:Ehx; [|done]. simpl. rewrite drop_node_notin; [done|].
    rewrite Hd in Ehx by done. destruct (k_links s !! h) as [ys|] eqn:Ehy; [|done].
    injection Ehx as <-. intros [Hin _]%elem_of_drop_node.
    by eapply (timer_unlinked idle s Q t th); [done|done|rewrite Hst|..]. }
  split; [|split; [|split; [done|split]]].
  - unfold rt_thread_suspend, rt_hw_interrupt_disable, get_thread, upd_thread, put_thread, bind, gets, modify, ret.
    simpl. rewrite Ht. simpl. rewrite Hst. simpl. unfold get_thread, bind, gets. simpl. rewrite Ht. simpl.
    change (set_threads _ _) with s1. rewrite E. simpl. fold s2. rewrite E2. simpl.
    rewrite interrupt_enable_quiet by (unfold quiet; done). by destruct s.
  - eapply kinv_frame; [..|exact HI3]; done.
  - apply Hloose; [done|]. done.
  - intros h Hh Hne. rewrite <-Hsame, Hd by done.
    destruct (k_links s !! h) as [xs|] eqn:Ehx; [|done]. simpl. rewrite drop_node_notin; [done|].
    intros Hin. apply Hne. by apply (ready_member idle s Q t th HI Ht Hst h xs).
Qed.

Lemma resume_ok idle s Q t th :
  kinv idle s Q -> quiet s -> k_threads s !! t = Some th ->
  thread_stat th = RT_THREAD_SUSPEND ->
  exists V T G r,
    let p := t_current_priority th in
    let s' := core V T G (<[t := make_ready th]> (k_threads s))
      (<[TThread t := timer_flag_clear RT_TIMER_FLAG_ACTIVATED r]> (k_timers s)) s in
    rt_thread_resume t s = Ok RT_EOK s' /\
    kinv idle s' (q_set Q p (Q p ++ [t])) /\
    k_timers s !! TThread t = Some r /\
    (forall h, is_head h = true -> h <> LReady p ->
      V !! h = (fun xs => drop_node (LRow (TThread t) 0) (drop_node (LTlist t) xs)) <$> k_links s !! h).
Proof.
  intros HI Hq Ht Hst. set (p := t_current_priority th).
  destruct (kinv_thread _ _ _ _ _ HI Ht) as [Ha Hr [ns Hns] Hsk (r & Htm & Htk)]; [by rewrite Hst|].
  destruct (remove_dropped (k_links s) (LTlist t) ns) as (V0 & EV0 & HV & Hl & Hd & Hdom);
    [apply HI|done|done|].
  set (s1 := set_links V0 (set_primask 1 s)).
  assert (forall p', 0 <= p' < 256 -> t ∉ Q p') as Hnq.
  { intros p' Hp'. eapply kinv_not_ready; [done|done|by rewrite Hst|done]. }
  assert (kinv idle s1 Q) as HI1.
  { split.
    - eapply (sched_inv_dropped s); [apply HI|done|exact Hd| |done|done].
      intros p' Hp' (x & [= <-] & Hin)%list_elem_of_fmap. by apply Hnq in Hin.
    - by eapply kparts_unlink; [apply HI|..]. }
  destruct (timer_stop_ok idle s1 _ (TThread t) r HI1) as (V1 & a & E1 & HI2 & Hd1 & Hloose & _);
    [by apply quiet_masked|done|].
  set (s2 := core _ _ _ _ _ _) in E1, HI2.
  set (s3 := set_primask (k_primask s) s2).
  assert (kinv idle s3 Q) as HI3 by (eapply kinv_frame; [..|exact HI2]; done).
  destruct (insert_thread_ok s3 Q t th) as (V & T & G & E & HS & Hch).
  { apply HI3. } { done. } { done. } { done. } { by apply Hloose. }
  exists V, T, G, r. intros p' s'. change p' with p. clear p'.
  split; [|split; [split|split; [done|]]].
  - unfold rt_thread_resume, rt_hw_interrupt_disable, list_remove, list_op1, get_thread, bind, gets, modify, ret.
    simpl. rewrite Ht. simpl. rewrite Hst. simpl. rewrite EV0. simpl. fold s1. rewrite E1. simpl. fold s2.
    rewrite interrupt_enable_quiet by (unfold quiet; done). simpl. fold s3. rewrite E. simpl.
    by destruct s.
  - eapply sched_inv_frame; [..|exact HS]; done.
  - simpl. eapply kparts_make_ready; [apply HI3|apply HI3|done|by rewrite Hst|done|apply stat_ready| | |done|done].
    + by apply Hloose.
    + intros soft xs Hxs Hin. simpl in Hxs.
      destruct (dropped_elem _ _ _ (LTimerHead soft 0) _ _ Hd1 eq_refl Hxs Hin) as (ys & _ & _ & ?). done.
  - intros h Hh Hne. rewrite (ch_heads _ _ _ _ Hch) by (done || set_solver).
    change (k_links s3) with V1. rewrite Hd1 by done. change (k_links s1) with V0. rewrite Hd by done.
    by destruct (k_links s !! h).
Qed.

(** ** Rescheduling on a state of the invariant *)
Lemma highest_exists Q p : 0 <= p < 256 -> Q p <> [] -> exists p', is_highest Q p'.
Proof.
  intros Hp HQ.
  assert (forall k : nat, (Z.of_nat k <= 256) ->
    (forall p', 0 <= p' < Z.of_nat k -> Q p' = []) \/ exists p', is_highest Q p') as Hk.
  { induction k as [|k IH]; intros Hk; [left; lia|].
    destruct IH as [IH|IH]; [lia| |by right].
    destruct (decide (Q (Z.of_nat k) = [])) as [E|E].
    - left. intros p' Hp'. destruct (decide (p' = Z.of_nat k)) as [->|]; [done|]. apply IH. lia.
    - right. exists (Z.of_nat k). split; [lia|]. done. }
  destruct (Hk 256%nat) as [H0|H0]; [lia| |done]. by rewrite H0 in HQ by lia.
Qed.

(** There is always a thread to run, and its record is in order. *)
Lemma kinv_highest idle s Q :
  kinv idle s Q -> exists p to q th, is_highest Q p /\ Q p = to :: q /\
    k_threads s !! to = Some th /\ thread_stat th = RT_THREAD_READY /\
    t_current_priority th = p /\ stack_ok th.
Proof.
  intros HI. destruct (kp_idle _ _ _ _ _ (ki_parts _ _ _ HI)) as (x & Hx & Hs).
  destruct (kinv_thread _ _ _ _ _ HI Hx) as [Ha Hr _ _ _]; [by rewrite Hs|].
  destruct (highest_exists Q (t_current_priority x)) as [p Hp]; [apply Ha| |].
  { intros E. specialize (Hr Hs). rewrite E in Hr. set_solver. }
  destruct (Q p) as [|to q] eqn:E; [by destruct Hp as (_ & ? & _)|].
  destruct (kp_ready _ _ _ _ _ (ki_parts _ _ _ HI) to p) as (th & Hth & Hst & Hpr);
    [apply Hp|rewrite E; set_solver|].
  exists p, to, q, th. split; [done|]. split; [done|]. split; [done|]. split; [done|]. split; [done|].
  apply (kinv_thread _ _ _ _ _ HI Hth). by rewrite Hst.
Qed.

Lemma kinv_schedule idle s Q from :
  kinv idle s Q -> quiet s -> k_lock_nest s = 0 -> k_current s = Some from ->
  exists p to q, is_highest Q p /\ Q p = to :: q /\ rt_schedule s = reschedule p to from s.
Proof.
  intros HI Hq Hl Hc. destruct (kinv_highest _ _ _ HI) as (p & to & q & th & Hp & HQ & Hth & _ & _ & Hsk).
  exists p, to, q. split; [done|]. split; [done|].
  by eapply rt_schedule_ok; [apply HI|..].
Qed.

(** ** Waiting lists *)
(** A suspended thread that is on no list joins a waiting list. *)
Lemma kparts_wait idle V V' TH TM Q h t xs' :
  kparts idle V TH TM Q -> wait_head h = true -> changed [h] [LTlist t] V V' ->
  stat_is TH t RT_THREAD_SUSPEND -> V' !! h = Some xs' ->
  (forall x, x ∈ xs' -> x = LTlist t \/ exists xs, V !! h = Some xs /\ x ∈ xs) ->
  kparts idle V' TH TM Q.
Proof.
  intros HP Hw Hch Hst Hxs' Hsub. split; try apply HP.
  - intros u x Hx Hs. destruct (kp_thread _ _ _ _ _ HP u x Hx Hs) as [? ? ? ? ?].
    split; auto. by apply Hch.
  - intros h' xs u Hh' Hxs Hin. destruct (decide (h' = h)) as [->|Hne].
    + rewrite Hxs' in Hxs. injection Hxs as <-.
      destruct (Hsub _ Hin) as [[= ->]|(ys & Hys & Hin')]; [done|]. by eapply (kp_wait _ _ _ _ _ HP).
    + rewrite (ch_heads _ _ _ _ Hch) in Hxs; [|by destruct h'|set_solver].
      by eapply (kp_wait _ _ _ _ _ HP).
  - intros soft. apply Hch, HP.
  - intros tm r Hr. by eapply Hch, HP.
  - intros soft xs tm Hxs Hin. rewrite (ch_heads _ _ _ _ Hch) in Hxs; [|done|destruct h; set_solver].
    by eapply (kp_timers _ _ _ _ _ HP).
Qed.

Lemma sched_inv_changed s s' Q hs ns :
  sched_inv s Q -> links_ok (k_links s') -> changed hs ns (k_links s) (k_links s') ->
  (forall p, LReady p ∉ hs) ->
  k_ready_table s' = k_ready_table s -> k_ready_group s' = k_ready_group s -> sched_inv s' Q.
Proof.
  intros HI HV Hch Hn E1 E2. split; [done| |rewrite E1, E2; apply HI].
  intros p Hp. rewrite (ch_heads _ _ _ _ Hch) by done. by apply HI.
Qed.
