(* ===== verification/ThreadProof.v ===== *)
(** * Threads: yielding and changing priority *)
From S2P Require Import Prelude Kservice RtList KMonad KState KPrim KInv Scheduler Object TimerBase Thread Timer KernelInv.
Import Scheduler Object TimerBase Thread Timer.
Local Open Scope Z_scope.
Local Open Scope kmonad_scope.

(** Only ready queues are relinked. *)
Lemma kparts_relink idle V V' TH TM Q hs ns :
  kparts idle V TH TM Q -> changed hs ns V V' -> (forall h, h ∈ hs -> exists p, h = LReady p) ->
  kparts idle V' TH TM Q.
Proof.
  intros HP Hch Hhs. split; try apply HP.
  - intros u x Hx Hs. destruct (kp_thread _ _ _ _ _ HP u x Hx Hs) as [? ? ? ? ?]. split; auto. by apply Hch.
  - intros h xs u Hh Hxs Hin. rewrite (ch_heads _ _ _ _ Hch) in Hxs; [|by destruct h|].
    + by eapply (kp_wait _ _ _ _ _ HP).
    + intros [p ->]%Hhs. done.
  - intros soft. apply Hch, HP.
  - intros tm r Hr. by eapply Hch, HP.
  - intros soft xs tm Hxs Hin. rewrite (ch_heads _ _ _ _ Hch) in Hxs; [|done|].
    + by eapply (kp_timers _ _ _ _ _ HP).
    + by intros [p [=]]%Hhs.
Qed.

(** Only the order within the queues matters to the scheduler, not to the rest. *)
Lemma kparts_reorder idle V TH TM Q Q' :
  kparts idle V TH TM Q -> (forall p t, t ∈ Q' p <-> t ∈ Q p) -> kparts idle V TH TM Q'.
Proof.
  intros HP HQ. split; try apply HP.
  - intros t p Hp Ht. apply HQ in Ht. by apply (kp_ready _ _ _ _ _ HP).
  - intros u x Hx Hs. destruct (kp_thread _ _ _ _ _ HP u x Hx Hs) as [? ? ? ? ?]. split; auto.
    intros Hr. apply HQ. auto.
Qed.

(** The test [tlist.next != tlist.prev]: is another thread in the queue? *)
Lemma tlist_alone (V : vlinks) h A B t :
  coherent V -> V !! h = Some (LTlist <$> A ++ t :: B) ->
  exists n m, v_next V (LTlist t) = Some n /\ v_prev V (LTlist t) = Some m /\
    bool_decide (n <> m) = negb (bool_decide (A ++ B = [])).
Proof.
  intros HV Hq. rewrite fmap_app in Hq. simpl in Hq.
  pose proof (coherent_split _ _ _ _ _ HV Hq) as Hv. pose proof (coherent_nodup _ _ _ HV Hv) as Hnd.
  unfold v_next, v_prev. rewrite Hv. do 2 eexists. split; [done|]. split; [done|].
  rewrite last_app_ne by done. rewrite last_cons_default.
  destruct B as [|b B]; simpl.
  - destruct A as [|a A]; simpl in *; [by rewrite bool_decide_false by naive_solver|].
    apply NoDup_cons in Hnd as [Hn _]. rewrite bool_decide_true; [done|]. intros E. apply Hn.
    rewrite E, last_cons_default. destruct (last_default_elem (LTlist a) (list_fmap nat loc LTlist A)) as [->|?]; set_solver.
  - simpl in Hnd. apply NoDup_cons in Hnd as [Hn _]. rewrite bool_decide_true; [by destruct A|].
    intros E. apply Hn. apply elem_of_app. right. rewrite E.
    destruct (last_default_elem h (LTlist <$> A)) as [->|?]; set_solver.
Qed.

(** [rt_thread_yield]: alone in its queue the thread keeps running, otherwise it
    goes to the end of the queue. *)
Lemma yield_alone_eq idle s Q t th :
  kinv idle s Q -> quiet s -> k_current s = Some t -> k_threads s !! t = Some th ->
  thread_stat th = RT_THREAD_READY -> Q (t_current_priority th) = [t] ->
  rt_thread_yield s = Ok RT_EOK s.
Proof.
  intros HI Hq Hc Ht Hst HQ.
  destruct (kinv_thread _ _ _ _ _ HI Ht) as [Ha _ _ _ _]; [by rewrite Hst|].
  pose proof (si_queue _ _ (ki_sched _ _ _ HI) _ (at_range _ Ha)) as Hqu. rewrite HQ in Hqu.
  destruct (tlist_alone (k_links s) (LReady (t_current_priority th)) [] [] t) as (n & m & En & Em & Eb); [apply HI|exact Hqu|].
  unfold rt_thread_yield, rt_hw_interrupt_disable, current_deref, rt_thread_self, get_thread, list_next, list_prev,
    bind, gets, modify, ret. simpl. rewrite Hc. simpl. rewrite Ht. simpl. rewrite En. simpl. rewrite Em. simpl.
  rewrite Hst, Eb. simpl. rewrite interrupt_enable_quiet by (unfold quiet; done). simpl. by destruct s.
Qed.

Lemma yield_rotates_eq idle s Q t th A B :
  kinv idle s Q -> quiet s -> k_current s = Some t -> k_threads s !! t = Some th ->
  thread_stat th = RT_THREAD_READY -> Q (t_current_priority th) = A ++ t :: B -> A ++ B <> [] ->
  exists V, let s' := set_links V s in
    rt_thread_yield s = (rt_schedule ;! ret RT_EOK) s' /\
    kinv idle s' (q_set Q (t_current_priority th) (A ++ B ++ [t])).
Proof.
  intros HI Hq Hc Ht Hst HQ Hne. set (p := t_current_priority th) in *.
  destruct (kinv_thread _ _ _ _ _ HI Ht) as [Ha _ [ns Hns] _ _]; [by rewrite Hst|].
  pose proof (si_queue _ _ (ki_sched _ _ _ HI) _ (at_range _ Ha)) as Hqu. fold p in Hqu. rewrite HQ in Hqu.
  assert (links_ok (k_links s)) as HV by apply HI.
  destruct (tlist_alone (k_links s) _ A B t (lo_coherent _ HV) Hqu) as (n & m & En & Em & Eb).
  rewrite (bool_decide_false (A ++ B = [])) in Eb by done.
  destruct (links_remove_queue (k_links s) (LTlist t) ns) as (V0 & E0 & HV0 & Hl0 & _ & Hrm & Hch0); [done..|].
  rewrite fmap_app in Hqu. simpl in Hqu. specialize (Hrm (LReady p) _ _ eq_refl Hqu).
  destruct (links_append V0 (LReady p) (LTlist t) _ HV0 eq_refl Hrm Hl0 eq_refl) as (V & E & HV1 & Hq1 & Hch1).
  assert (changed [LReady p] [LTlist t] (k_links s) V) as Hch.
  { eapply changed_weaken; [eapply changed_trans; [apply (Hch0 [LReady p])|exact Hch1]|set_solver|set_solver].
    intros h xs Hh Hxs Hin. apply list_elem_of_singleton. by apply (ready_member idle s Q t th HI Ht Hst h xs). }
  exists V. intros s'. split; [|split].
  - unfold rt_thread_yield, rt_hw_interrupt_disable, current_deref, rt_thread_self, get_thread, list_next, list_prev,
      list_remove, list_insert_before, list_op1, bind, gets, modify, ret. simpl. rewrite Hc. simpl. rewrite Ht. simpl.
    rewrite En. simpl. rewrite Em. simpl. rewrite Hst, Eb. simpl. rewrite E0. simpl. fold p. rewrite E. simpl.
    rewrite interrupt_enable_quiet by (unfold quiet; done). by destruct s.
  - split; [done| |].
    + intros p' Hp'. simpl. unfold q_set. destruct (decide (p' = p)) as [->|Hp].
      * rewrite Hq1, !fmap_app. simpl. by rewrite app_assoc.
      * rewrite (ch_heads _ _ _ _ Hch) by (done || set_solver). by apply HI.
    + destruct (prio_split p (at_range _ Ha)) as (Hn & Hk & Ep).
      destruct (bitmap_byte _ _ _ _ (si_bitmap _ _ (ki_sched _ _ _ HI)) Hn) as [b Hb].
      replace (q_set Q p) with (q_set Q (8 * Z.shiftr p 3 + Z.land p 7)) by (by rewrite <-Ep).
      apply (bitmap_same _ _ _ _ _ b); [apply HI|done..|]. rewrite <-Ep, HQ.
      split; intros E'; [|by destruct A]. apply app_nil in E' as [_ [_ ?]%app_nil]. done.
  - simpl. eapply kparts_reorder; [eapply kparts_relink; [apply HI|exact Hch|]|].
    + intros h ->%list_elem_of_singleton. by exists p.
    + intros p' u. unfold q_set. destruct (decide (p' = p)) as [->|]; [|done]. rewrite HQ. set_solver.
Qed.

(** ** Changing a priority *)
Definition with_priority (prio : Z) (th : rt_thread) : rt_thread :=
  set_priority_attribute (set_t_current_priority prio th).

Lemma with_priority_attr prio th : 0 <= prio < 256 -> attr_ok (with_priority prio th).
Proof.
  intros Hp. destruct (prio_split prio Hp) as (Hn & Hk & _).
  split; simpl; [done|done| |].
  - rewrite u32_small; [done|]. rewrite Z.shiftl_1_l. split; [lia|].
    change 4294967296 with (2 ^ 32). apply Z.pow_lt_mono_r; lia.
  - rewrite u8_small; [done|]. rewrite Z.shiftl_1_l. split; [lia|].
    change 256 with (2 ^ 8). apply Z.pow_lt_mono_r; lia.
Qed.

(** A thread that is not ready only gets new attributes. *)
Lemma kparts_priority_waiting idle V TH TM Q t th prio :
  kparts idle V TH TM Q -> TH !! t = Some th -> thread_stat th <> RT_THREAD_READY -> 0 <= prio < 256 ->
  kparts idle V (<[t := with_priority prio th]> TH) TM Q.
Proof.
  intros HP Ht Hst Hp.
  assert (forall u st, stat_is TH u st -> stat_is (<[t := with_priority prio th]> TH) u st) as Hstat.
  { intros u st (x & Hx & Hs). apply stat_is_insert.
    destruct (decide (u = t)) as [->|]; [left|right; split; [done|by exists x]].
    split; [done|]. rewrite Ht in Hx. by injection Hx as <-. }
  split; try apply HP.
  - intros u p Hp' Hu. destruct (kp_ready _ _ _ _ _ HP u p Hp' Hu) as (x & Hx & Hs & Hpx).
    exists x. rewrite lookup_insert_ne; [done|]. intros <-. congruence.
  - intros u x Hx Hs. destruct (decide (u = t)) as [->|Hne].
    + rewrite lookup_insert_eq in Hx. injection Hx as <-.
      destruct (kp_thread _ _ _ _ _ HP t th Ht Hs) as [Ha Hr Htl Hsk Htm].
      split; [by apply with_priority_attr|by intros|done|done|done].
    + rewrite lookup_insert_ne in Hx by done. by apply (kp_thread _ _ _ _ _ HP).
  - apply Hstat, HP.
  - intros h xs u Hh Hxs Hin. apply Hstat. by eapply (kp_wait _ _ _ _ _ HP).
  - intros soft xs tm Hxs Hin. eapply active_timer_keep; [intros u; apply Hstat|].
    by eapply (kp_timers _ _ _ _ _ HP).
Qed.

(** The queues after a ready thread moved to another priority. *)
Definition q_move (Q : Z -> list nat) (t : nat) (p prio : Z) : Z -> list nat :=
  let Q1 := q_set Q p (drop_node t (Q p)) in q_set Q1 prio (Q1 prio ++ [t]).

Lemma elem_of_q_move Q t p prio p' u : u <> t -> u ∈ q_move Q t p prio p' <-> u ∈ Q p'.
Proof.
  intros Hne. unfold q_move, q_set.
  destruct (decide (p' = prio)) as [->|]; destruct (decide _) as [->|]; try done;
    rewrite ?elem_of_app, ?elem_of_drop_node; set_solver.
Qed.

Lemma kparts_priority_ready idle V V' TH TM Q t th th' prio hs ns :
  kparts idle V TH TM Q -> TH !! t = Some th -> thread_stat th = RT_THREAD_READY ->
  same_thread_kind (with_priority prio th) th' -> thread_stat th' = RT_THREAD_READY ->
  0 <= prio < 256 -> changed hs ns V V' -> (forall h, h ∈ hs -> exists p, h = LReady p) ->
  kparts idle V' (<[t := th']> TH) TM (q_move Q t (t_current_priority th) prio).
Proof.
  intros HP Ht Hst Hk Hst' Hp Hch Hhs.
  pose proof (kparts_relink _ _ _ _ _ _ _ _ HP Hch Hhs) as HP'.
  assert (t_current_priority th' = prio) as Epr by (by destruct Hk as (-> & _)).
  assert (forall u st, stat_is TH u st -> stat_is (<[t := th']> TH) u st) as Hstat.
  { intros u st (x & Hx & Hs). apply stat_is_insert.
    destruct (decide (u = t)) as [->|]; [left|right; split; [done|by exists x]].
    split; [done|]. rewrite Ht in Hx. injection Hx as <-. congruence. }
  split; try apply HP'.
  - intros u p' Hp' Hu. destruct (decide (u = t)) as [->|Hne].
    + exists th'. rewrite lookup_insert_eq. split; [done|]. split; [done|]. rewrite Epr.
      unfold q_move, q_set in Hu. destruct (decide (p' = prio)) as [->|Hne]; [done|exfalso].
      destruct (decide (p' = t_current_priority th)) as [->|Hne'].
      * by apply elem_of_drop_node in Hu as [_ ?].
      * destruct (kp_ready _ _ _ _ _ HP t p' Hp' Hu) as (x & Hx & _ & Hpx). congruence.
    + rewrite lookup_insert_ne by done. apply elem_of_q_move in Hu; [|done].
      by apply (kp_ready _ _ _ _ _ HP).
  - intros u x Hx Hs. destruct (decide (u = t)) as [->|Hne].
    + rewrite lookup_insert_eq in Hx. injection Hx as <-.
      destruct (kp_thread _ _ _ _ _ HP' t th Ht) as [Ha Hr Htl Hsk Htm]; [by rewrite Hst|].
      split; [by eapply same_kind_attr, with_priority_attr| |done|by eapply same_kind_stack|done].
      intros _. rewrite Epr. unfold q_move. unfold q_set at 1. rewrite decide_True by done. set_solver.
    + rewrite lookup_insert_ne in Hx by done.
      destruct (kp_thread _ _ _ _ _ HP' u x Hx Hs) as [? Hr ? ? ?]. split; auto.
      intros Hru. apply elem_of_q_move; auto.
  - apply Hstat, HP.
  - intros h xs u Hh Hxs Hin. apply Hstat. by eapply (kp_wait _ _ _ _ _ HP').
  - intros soft xs tm Hxs Hin. eapply active_timer_keep; [intros u; apply Hstat|].
    by eapply (kp_timers _ _ _ _ _ HP').
Qed.

(** [rt_thread_control] with [RT_THREAD_CTRL_CHANGE_PRIORITY]. *)
Lemma change_priority_ok idle s Q t th prio :
  kinv idle s Q -> quiet s -> k_threads s !! t = Some th -> thread_stat th <> RT_THREAD_INIT ->
  0 <= prio < 256 ->
  exists V T G th' Q',
    let s' := core V T G (<[t := th']> (k_threads s)) (k_timers s) s in
    rt_thread_control t RT_THREAD_CTRL_CHANGE_PRIORITY prio s = Ok RT_EOK s' /\
    kinv idle s' Q' /\ t_current_priority th' = prio /\ thread_stat th' = thread_stat th /\
    t_error th' = t_error th /\
    Q' = (if decide (thread_stat th = RT_THREAD_READY) then q_move Q t (t_current_priority th) prio else Q) /\
    (forall h, is_head h = true -> (forall p, h <> LReady p) -> V !! h = k_links s !! h) /\
    (forall x, is_Some (k_links s !! x) -> is_Some (V !! x)).
Proof.
  intros HI Hq Ht Hni Hp.
  destruct (kinv_thread _ _ _ _ _ HI Ht Hni) as [Ha Hr [ns Hns] Hsk Htm].
  destruct (decide (thread_stat th = RT_THREAD_READY)) as [Hst|Hst].
  2:{ exists (k_links s), (k_ready_table s), (k_ready_group s), (with_priority prio th), Q. intros s'.
      split; [|split; [split|done]].
      - unfold rt_thread_control, rt_hw_interrupt_disable, get_thread, upd_thread, put_thread, bind, gets, modify, ret.
        simpl. rewrite Ht. simpl. rewrite (proj2 (Z.eqb_neq _ _) Hst).
        unfold get_thread, bind, gets. simpl. rewrite Ht. simpl. rewrite u8_small by lia.
        rewrite interrupt_enable_quiet by (unfold quiet; done). by destruct s.
      - eapply sched_inv_frame; [..|apply HI]; done.
      - by apply kparts_priority_waiting; [apply HI|..]. }
  set (p := t_current_priority th).
  assert (kinv idle (set_primask 1 s) Q) as HI1 by (eapply kinv_frame; [..|exact HI]; done).
  destruct (remove_thread_ok (set_primask 1 s) Q t th ns) as (V0 & T0 & G0 & E0 & EV0 & HS0);
    [apply HI1|by apply quiet_masked|done|done|done| |].
  { intros p' Hp' Hne Hin.
    destruct (kp_ready _ _ _ _ _ (ki_parts _ _ _ HI) _ _ Hp' Hin) as (x & Hx & _ & Hpx). congruence. }
  destruct (links_remove_queue (k_links s) (LTlist t) ns) as (V1 & E1 & HV1 & Hl1 & _ & _ & Hch1);
    [apply HI|done|done|]. simpl in EV0. rewrite E1 in EV0. injection EV0 as ->. fold p in HS0.
  set (s1 := sched_upd _ _ _ _) in E0, HS0.
  set (s2 := set_threads (<[t := with_priority prio th]> (k_threads s1)) s1).
  destruct (insert_thread_ok s2 (q_set Q p (drop_node t (Q p))) t (with_priority prio th))
    as (V & T & G & E & HS & Hch).
  { eapply sched_inv_frame; [..|exact HS0]; done. }
  { by apply quiet_masked. }
  { apply lookup_insert_eq. }
  { by apply with_priority_attr. }
  { done. }
  exists V, T, G, (make_ready (with_priority prio th)), (q_move Q t p prio). intros s'.
  assert (changed ([LReady p] ++ [LReady prio]) ([] ++ [LTlist t]) (k_links s) V) as Hch2.
  { eapply changed_trans; [apply (Hch1 [LReady p])|exact Hch]. intros h xs Hh Hxs Hin.
    apply list_elem_of_singleton. by apply (ready_member idle s Q t th HI Ht Hst h xs). }
  split; [|split; [split|split; [done|split; [|split; [done|split; [done|split]]]]]].
  - unfold rt_thread_control, rt_hw_interrupt_disable, get_thread, bind, gets, modify, ret.
    simpl. rewrite Ht. simpl. rewrite Hst. simpl. rewrite E0. simpl. fold s1.
    unfold upd_thread, get_thread, put_thread, bind, gets, modify. simpl. rewrite Ht. simpl. rewrite u8_small by lia.
    change (set_threads _ s1) with s2. rewrite E. simpl.
    rewrite interrupt_enable_quiet by (unfold quiet; done). simpl. rewrite insert_insert_eq. by destruct s.
  - eapply sched_inv_frame; [..|exact HS]; done.
  - simpl. eapply (kparts_priority_ready idle (k_links s) V _ _ Q t th); [apply HI|done|done| |apply stat_ready|done|exact Hch2|].
    + done.
    + intros h [->| ->%list_elem_of_singleton]%elem_of_cons; eauto.
  - rewrite stat_ready. by rewrite Hst.
  - intros h Hh Hne. apply (ch_heads _ _ _ _ Hch2); [done|]. set_solver.
  - apply Hch2.
Qed.
