(* ===== verification/ObjectProof.v ===== *)
(** * Object containers: registering, finding and removing objects

    [container k c os]: the container of class [c] links the headers of [os],
    the newest first. *)
From S2P Require Import Prelude Kservice RtList KMonad KState KPrim KInv Scheduler Object TimerBase Thread Timer KernelInv.
Import Kservice Scheduler Object.
Local Open Scope Z_scope.
Local Open Scope kmonad_scope.

Module ObjectProof.

(** ** Headers *)
Lemma with_object_of o ob (k : kview) ob' : object_of o k = Some ob' -> object_of o (with_object o ob k) = Some ob.
Proof.
  destruct o as [t|tm|[i|i|i|i|i|i]|i|im]; simpl; rewrite lookup_alter_eq; destruct (_ !! _); by intros [= <-].
Qed.

Lemma with_object_twice o a b (k : kview) : with_object o b (with_object o a k) = with_object o b k.
Proof.
  destruct o as [t|tm|[i|i|i|i|i|i]|i|im]; cbn; by rewrite alter_alter_eq.
Qed.

Lemma with_object_other o o' ob (k : kview) : o <> o' -> object_of o' (with_object o ob k) = object_of o' k.
Proof.
  intros Hne. destruct o as [t|tm|[i|i|i|i|i|i]|i|im], o' as [t'|tm'|[j|j|j|j|j|j]|j|jm]; simpl; try done;
    by rewrite lookup_alter_ne by congruence.
Qed.

Lemma get_object_ok o (k : kview) ob : object_of o k = Some ob -> get_object o k = Ok ob k.
Proof. intros E. unfold get_object. by rewrite E. Qed.

(** ** The kernel invariant does not see containers *)
Lemma kparts_container idle V V' TH TM Q c o :
  kparts idle V TH TM Q -> changed [LObjHead c] [LObj o] V V' -> kparts idle V' TH TM Q.
Proof.
  intros HP Hch. split; try apply HP.
  - intros u x Hx Hs. destruct (kp_thread _ _ _ _ _ HP u x Hx Hs) as [? ? ? ? ?]. split; auto. by apply Hch.
  - intros h xs u Hh Hxs Hin. rewrite (ch_heads _ _ _ _ Hch) in Hxs; [|by destruct h|destruct h; set_solver].
    by eapply (kp_wait _ _ _ _ _ HP).
  - intros soft. apply Hch, HP.
  - intros tm r Hr. by eapply Hch, HP.
  - intros soft xs tm Hxs Hin. rewrite (ch_heads _ _ _ _ Hch) in Hxs by (done || set_solver).
    by eapply (kp_timers _ _ _ _ _ HP).
Qed.

Lemma kinv_container idle k V Q c o :
  kinv idle k Q -> links_ok V -> changed [LObjHead c] [LObj o] (k_links k) V -> kinv idle (set_links V k) Q.
Proof.
  intros HI HV Hch. split.
  - eapply (sched_inv_changed k); [apply HI|done|exact Hch| |done|done]. intros p. set_solver.
  - simpl. eapply kparts_container; [apply HI|exact Hch].
Qed.

(** ... and headers matter to it only through nothing but the [parent] fields. *)
Lemma kinv_header idle k Q i ob :
  kinv idle k Q -> kinv idle (with_object (OIpc i) ob k) Q.
Proof. intros HI. destruct i; (eapply kinv_frame; [..|exact HI]; done). Qed.

(** ** [rt_object_init] and [rt_object_detach] *)
Lemma information_ok c : c ∈ rt_object_container -> rt_object_get_information c = Some (LObjHead c).
Proof.
  intros H. repeat (apply elem_of_cons in H as [->|H]; [done|]). by apply not_elem_of_nil in H.
Qed.

Definition static_type (c : Z) : Z := u8 (Z.lor c RT_Object_Class_Static).

Lemma object_init_ok (k : kview) o c name xs ob name' :
  links_ok (k_links k) -> quiet k -> c ∈ rt_object_container ->
  k_links k !! LObjHead c = Some xs -> v_loose (k_links k) (LObj o) = true ->
  object_of o k = Some ob -> rt_strncpy (o_name ob) name RT_NAME_MAX = Some name' ->
  exists V, rt_object_init o c name k =
      Ok tt (set_links V (with_object o (Object name' (static_type c) (o_flag ob)) k)) /\
    links_ok V /\ V !! LObjHead c = Some (LObj o :: xs) /\ changed [LObjHead c] [LObj o] (k_links k) V.
Proof.
  intros HV Hq Hc Hxs Hl Hob Hn.
  destruct (links_push (k_links k) (LObjHead c) (LObj o) xs) as (V & E & HV' & Hq' & Hch); [done..|].
  exists V. split; [|done]. unfold rt_object_init. rewrite (information_ok _ Hc).
  rewrite bind_assert by done. unfold lift_opt at 1. rewrite bind_ret.
  rewrite (bind_ok _ _ _ _ _ (get_object_ok _ _ _ Hob)).
  set (ob1 := set_o_type _ ob). unfold put_object. rewrite bind_modify.
  rewrite (bind_ok _ _ _ _ _ (get_object_ok _ _ ob1 (with_object_of _ _ _ _ Hob))).
  rewrite (bind_lift_opt _ _ name') by done. rewrite bind_modify, with_object_twice.
  set (k1 := with_object o _ k).
  assert (k_links k1 = k_links k /\ k_primask k1 = k_primask k /\ quiet k1) as (El & Ep & Hq1).
  { unfold k1. destruct o as [t|tm|[i|i|i|i|i|i]|i|im]; split; (done || split; done). }
  unfold rt_hw_interrupt_disable, bind, gets, modify, ret. simpl.
  unfold list_insert_after, list_op1. simpl. rewrite El, E. simpl.
  rewrite interrupt_enable_quiet by exact Hq1. rewrite Ep. unfold ob1. f_equal.
  unfold set_links, set_primask. simpl. by rewrite <-?Ep.
Qed.

(** A node leaves its container. *)
Lemma object_detach_ok (k : kview) o c A B :
  links_ok (k_links k) -> quiet k -> k_links k !! LObjHead c = Some (A ++ LObj o :: B) ->
  exists V, rt_object_detach o k = Ok tt (set_links V k) /\ links_ok V /\
    V !! LObjHead c = Some (A ++ B) /\ V !! LObj o = Some [] /\ changed [LObjHead c] [] (k_links k) V.
Proof.
  intros HV Hq Hxs. destruct (coherent_mem _ _ _ (LObj o) (lo_coherent _ HV) Hxs) as [ns Hns]; [set_solver|].
  destruct (links_remove_queue (k_links k) (LObj o) ns HV eq_refl Hns) as (V & E & HV' & H1 & H2 & H3 & H4).
  exists V. split; [|split; [done|split; [by apply H3|split; [done|]]]].
  - unfold rt_object_detach, rt_hw_interrupt_disable, list_remove, list_op1, bind, gets, modify, ret. simpl.
    rewrite E. simpl. rewrite interrupt_enable_quiet by exact Hq. by destruct k.
  - apply H4. intros h xs Hh Hx Hin. apply list_elem_of_singleton. symmetry.
    eapply (member_unique (k_links k)); [done| |done|exact Hxs|exact Hx| |done]; [done|set_solver].
Qed.

(** ** [rt_object_find] *)
(** A C string, or a buffer, of which [n] characters can be compared. *)
Definition readable (s : list Z) (n : nat) : Prop := (n <= length s)%nat \/ 0 ∈ s.

Lemma strncmp_decides cs ct n :
  Forall is_byte cs -> Forall is_byte ct -> readable cs n -> readable ct n ->
  exists r, rt_strncmp cs ct n = Some r /\ (r =? 0) = same_name cs ct n.
Proof.
  unfold readable. revert cs ct. induction n as [|n IH]; intros cs ct Hcs Hct H1 H2; [exists 0; by destruct cs, ct|].
  destruct cs as [|c cs]; [destruct H1 as [H1|H1]; [simpl in H1; lia|by apply not_elem_of_nil in H1]|].
  destruct ct as [|d ct]; [destruct H2 as [H2|H2]; [simpl in H2; lia|by apply not_elem_of_nil in H2]|].
  apply Forall_cons in Hcs as [Hc Hcs]. apply Forall_cons in Hct as [Hd Hct]. simpl.
  rewrite (i8_zero c d) by done. destruct (Z.eqb_spec c d) as [->|Hne]; simpl.
  - destruct (Z.eqb_spec d 0) as [->|Hz]; simpl; [eauto|].
    apply IH; [done..| |]; [destruct H1 as [H|[H|H]%elem_of_cons]|destruct H2 as [H|[H|H]%elem_of_cons]];
      simpl in *; (by right) || (left; lia) || done.
  - eexists. split; [done|]. rewrite i8_zero by done. by apply Z.eqb_neq.
Qed.

(** A buffer of [n] characters takes any readable name. *)
Lemma strncpy_total dst src n :
  length dst = n -> readable src n -> Forall is_byte src ->
  exists r, rt_strncpy dst src n = Some r /\ Forall is_byte r.
Proof.
  unfold readable. revert dst src. induction n as [|n IH]; intros dst src Hl Hr Hb.
  { exists dst. destruct dst; [|done]. split; [by destruct src|done]. }
  destruct dst as [|x dst]; [done|].
  destruct src as [|c src]; [destruct Hr as [Hr|Hr]; [simpl in Hr; lia|by apply not_elem_of_nil in Hr]|].
  apply Forall_cons in Hb as [Hc Hb]. injection Hl as Hl. simpl. destruct (Z.eqb_spec c 0) as [->|Hz].
  - rewrite (proj2 (Nat.leb_le _ _)) by lia. eexists. split; [done|]. rewrite drop_ge by lia. rewrite app_nil_r.
    constructor; [done|]. apply Forall_replicate. unfold is_byte. lia.
  - destruct (IH dst src Hl) as (r & -> & Hr'); [destruct Hr as [H|[H|H]%elem_of_cons]; [left; simpl in H; lia|done|by right]|done|].
    exists (c :: r). split; [done|]. by constructor.
Qed.

Record header_ok (k : kview) (o : obj_id) (ob : rt_object) : Prop := {
  ho_of : object_of o k = Some ob;
  ho_bytes : Forall is_byte (o_name ob);
  ho_len : length (o_name ob) = RT_NAME_MAX;
}.

Definition container (k : kview) (c : Z) (os : list obj_id) : Prop :=
  k_links k !! LObjHead c = Some (LObj <$> os) /\ Forall (fun o => exists ob, header_ok k o ob) os.

(** Whether object [o] is found under [name]. *)
Definition is_named (k : kview) (name : list Z) (o : obj_id) : bool :=
  match object_of o k with Some ob => same_name (o_name ob) name RT_NAME_MAX | None => false end.

Lemma find_loop_ok (k : kview) c name os2 : forall os1 fuel,
  links_ok (k_links k) -> container k c (os1 ++ os2) -> Forall is_byte name -> readable name RT_NAME_MAX ->
  (length os2 < fuel)%nat ->
  object_find_loop fuel (LObjHead c) (default (LObjHead c) (head (LObj <$> os2))) name k =
    Ok (find (is_named k name) os2) k.
Proof.
  induction os2 as [|o os2 IH]; intros os1 [|fuel] HV Hc Hb Hr Hf; simpl in Hf; try lia.
  - cbn. by rewrite bool_decide_true.
  - cbn [object_find_loop fmap list_fmap head default from_option].
    rewrite bool_decide_false by done. rewrite (bind_ok (object_entry (LObj o)) _ k o k) by done.
    pose proof Hc as [Hq Ho]. apply Forall_app in Ho as [_ [(ob & [Hob Hby Hlen]) _]%Forall_cons].
    rewrite (bind_ok _ _ _ _ _ (get_object_ok _ _ _ Hob)).
    destruct (strncmp_decides (o_name ob) name RT_NAME_MAX) as (r & E & Er); [done|done|left; lia|done|].
    rewrite (bind_lift_opt _ _ r) by done. cbn [find]. unfold is_named at 1. rewrite Hob, Er.
    destruct (same_name (o_name ob) name RT_NAME_MAX); [done|].
    rewrite (bind_ok (list_next (LObj o)) _ k (default (LObjHead c) (head (LObj <$> os2))) k).
    + apply (IH (os1 ++ [o])); [done|by rewrite <-app_assoc|done|done|lia].
    + unfold list_next. simpl. rewrite fmap_app in Hq. simpl in Hq.
      by rewrite (queue_next_member _ _ _ _ _ (lo_coherent _ HV) Hq).
Qed.
End ObjectProof.
