(* ===== verification/WaitProof.v ===== *)
(** * Waiting lists: [rt_ipc_list_suspend], [rt_ipc_list_resume]

    A waiting list holds a sequence of suspended threads.  [wait_insert] is the
    abstract insertion: at the end, or in front of the first thread of lower
    priority. *)
From S2P Require Import Prelude Kservice RtList KMonad KState KPrim KInv Scheduler Object TimerBase Thread Timer Ipc KernelInv.
Import Scheduler Object TimerBase Thread Timer IpcCore.
Local Open Scope Z_scope.

Section insert.
Context (prio : nat -> Z).

Fixpoint prio_insert (t : nat) (ws : list nat) : list nat :=
  match ws with
  | [] => [t]
  | w :: ws' => if prio t <? prio w then t :: w :: ws' else w :: prio_insert t ws'
  end.

Definition wait_insert (flag : Z) (t : nat) (ws : list nat) : list nat :=
  if flag =? RT_IPC_FLAG_FIFO then ws ++ [t] else prio_insert t ws.

Lemma elem_of_prio_insert t ws x : x ∈ prio_insert t ws <-> x = t \/ x ∈ ws.
Proof.
  induction ws as [|w ws IH]; simpl; [set_solver|].
  destruct (prio t <? prio w); set_solver.
Qed.

Lemma elem_of_wait_insert flag t ws x : x ∈ wait_insert flag t ws <-> x = t \/ x ∈ ws.
Proof.
  unfold wait_insert. destruct (flag =? RT_IPC_FLAG_FIFO); [set_solver|apply elem_of_prio_insert].
Qed.

(** Priority order, first come first served among equals: the list stays
    sorted, and the threads that were waiting keep their order. *)
Lemma prio_insert_sorted t ws :
  StronglySorted (fun a b => prio a <= prio b) ws ->
  StronglySorted (fun a b => prio a <= prio b) (prio_insert t ws).
Proof.
  induction 1 as [|w ws Hs IH Hf]; simpl; [by repeat constructor|].
  destruct (Z.ltb_spec (prio t) (prio w)) as [Hlt|Hge].
  - constructor; [by constructor|]. constructor; [lia|].
    eapply Forall_impl; [exact Hf|]. simpl. lia.
  - constructor; [done|]. apply Forall_forall. intros x Hx.
    apply elem_of_prio_insert in Hx as [->|Hx]; [done|]. by eapply Forall_forall in Hf.
Qed.

Lemma prio_insert_split t ws :
  exists A B, ws = A ++ B /\ prio_insert t ws = A ++ t :: B /\
    Forall (fun a => prio a <= prio t) A /\
    match B with [] => True | b :: _ => prio t < prio b end.
Proof.
  induction ws as [|w ws IH]; simpl; [by exists [], []|].
  destruct (Z.ltb_spec (prio t) (prio w)) as [Hlt|Hge]; [by exists [], (w :: ws)|].
  destruct IH as (A & B & -> & -> & HA & HB). exists (w :: A), B. split; [done|]. split; [done|].
  split; [by constructor|done].
Qed.
End insert.

(** The priorities recorded in a thread table. *)
Definition prio_in (TH : gmap nat rt_thread) (t : nat) : Z :=
  default 0 (t_current_priority <$> TH !! t).

(** The search loop inserts at the place [prio_insert] says, or reports the end
    of the list. *)
Lemma prio_insert_loop_ok (s : kview) h t th A B fuel :
  links_ok (k_links s) -> wait_head h = true ->
  k_links s !! h = Some (LTlist <$> A ++ B) -> k_links s !! LTlist t = Some [] ->
  k_threads s !! t = Some th ->
  (forall w, w ∈ B -> is_Some (k_threads s !! w)) -> (length B < fuel)%nat ->
  let B' := prio_insert (prio_in (k_threads s)) t B in
  let n := default h (head (LTlist <$> B)) in
  (prio_insert_loop fuel h n t s = Ok false s /\ B' = B ++ [t]) \/
  exists V, prio_insert_loop fuel h n t s = Ok true (set_links V s) /\
    links_ok V /\ V !! h = Some (LTlist <$> A ++ B') /\ changed [h] [LTlist t] (k_links s) V.
Proof.
  intros HV Hw Hq Hl Ht. revert A fuel Hq. induction B as [|b B IH]; intros A fuel Hq HB Hf;
    (destruct fuel as [|fuel]; [simpl in Hf; lia|]); intros B' n.
  { left. split; [|done]. simpl. unfold n. simpl. by rewrite bool_decide_true. }
  destruct (HB b) as [bth Hb]; [set_solver|].
  assert (h <> LTlist b) as Hne by (destruct h; done).
  assert (prio_in (k_threads s) t = t_current_priority th) as Ept by (unfold prio_in; by rewrite Ht).
  assert (prio_in (k_threads s) b = t_current_priority bth) as Epb by (unfold prio_in; by rewrite Hb).
  unfold B', n. simpl. rewrite bool_decide_false by done.
  unfold get_thread, bind, gets, ret. simpl. rewrite Ht. simpl. rewrite Hb. simpl. rewrite Ept, Epb.
  destruct (Z.ltb_spec (t_current_priority th) (t_current_priority bth)) as [Hlt|Hge].
  - right. rewrite fmap_app in Hq. simpl in Hq.
    destruct (links_insert_before_member (k_links s) h (LTlist b) (LTlist t) (LTlist <$> A) (LTlist <$> B))
      as (V & E & HV' & Hq' & Hch); [done|by destruct h|done|done|by destruct h|].
    exists V. unfold list_insert_before, list_op1. simpl. rewrite E. simpl.
    split; [done|]. split; [done|]. split; [|done]. by rewrite fmap_app.
  - unfold list_next. simpl. rewrite fmap_app in Hq. simpl in Hq.
    rewrite (queue_next_member _ _ _ _ _ (lo_coherent _ HV) Hq). simpl.
    change (list_fmap nat loc LTlist B) with (LTlist <$> B).
    destruct (IH (A ++ [b]) fuel) as [[E1 E2]|(V & E1 & HV' & Hq' & Hch)].
    + by rewrite <-app_assoc, fmap_app.
    + set_solver.
    + simpl in Hf. lia.
    + left. rewrite E1. split; [done|]. by rewrite E2.
    + right. exists V. rewrite E1. split; [done|]. split; [done|]. split; [|done].
      by rewrite <-app_assoc in Hq'.
Qed.

(** Threads on a waiting list exist. *)
Lemma waiter_exists idle s Q h ws w :
  kinv idle s Q -> wait_head h = true -> k_links s !! h = Some (LTlist <$> ws) -> w ∈ ws ->
  exists th, k_threads s !! w = Some th /\ thread_stat th = RT_THREAD_SUSPEND.
Proof.
  intros HI Hw Hq Hin. apply (kp_wait _ _ _ _ _ (ki_parts _ _ _ HI) h _ w Hw Hq).
  by apply list_elem_of_fmap_2.
Qed.

(** The waiting list of a head may gain a suspended thread. *)
Lemma wait_relinked idle s Q h ws ws' t th V :
  kinv idle s Q -> wait_head h = true -> k_links s !! h = Some (LTlist <$> ws) ->
  k_threads s !! t = Some th -> thread_stat th = RT_THREAD_SUSPEND ->
  links_ok V -> V !! h = Some (LTlist <$> ws') -> (forall x, x ∈ ws' -> x = t \/ x ∈ ws) ->
  changed [h] [LTlist t] (k_links s) V -> kinv idle (set_links V s) Q.
Proof.
  intros HI Hw Hq Ht Hst HV' Hq' Hsub Hch. split.
  - eapply (sched_inv_changed s); [apply HI|done|exact Hch| |done|done]. intros p. destruct h; set_solver.
  - simpl. eapply kparts_wait; [apply HI|exact Hw|exact Hch|by exists th|exact Hq'|].
    intros x (w & -> & Hin)%list_elem_of_fmap. destruct (Hsub _ Hin) as [->|Hin']; [by left|right].
    eexists. split; [exact Hq|]. by apply list_elem_of_fmap_2.
Qed.

(** A waiting list that is not in use is initialised. *)
Lemma wait_init_ok idle s Q h :
  kinv idle s Q -> wait_head h = true -> v_loose (k_links s) h = true ->
  exists V, list_init h s = Ok tt (set_links V s) /\ kinv idle (set_links V s) Q /\ V !! h = Some [] /\
    forall x, x <> h -> V !! x = k_links s !! x.
Proof.
  intros HI Hw Hl. assert (v_init h (k_links s) = Some (<[h := []]> (k_links s))) as E by (unfold v_init; by rewrite Hl).
  exists (<[h := []]> (k_links s)). pose proof (si_links _ _ (ki_sched _ _ _ HI)) as HV.
  assert (is_head h = true) as Hh by (by destruct h).
  assert (links_ok (<[h := []]> (k_links s))) as HV'.
  { split; [eapply v_init_coherent; [apply HV|exact E]|]. intros h' xs x Hh' Hxs Hx.
    apply lookup_insert_Some in Hxs as [[<- <-]|[_ Hxs]]; [by apply not_elem_of_nil in Hx|]. by eapply (lo_typed _ HV). }
  assert (changed [h] [] (k_links s) (<[h := []]> (k_links s))) as Hch.
  { split.
    - intros h' _ Hne. apply lookup_insert_ne. set_solver.
    - intros x Hx. destruct (decide (x = h)) as [->|]; [by rewrite lookup_insert_eq|by rewrite lookup_insert_ne].
    - intros x Hx _ Hxs. rewrite lookup_insert_ne; [done|congruence]. }
  split; [unfold list_init, list_op1; cbn [ls_init view_store]; by rewrite E|].
  split; [|split; [apply lookup_insert_eq|intros x Hx; by apply lookup_insert_ne]]. split.
  - eapply (sched_inv_changed s); [apply HI|done|exact Hch| |done|done]. intros p. destruct h; set_solver.
  - pose proof (ki_parts _ _ _ HI) as HP. simpl. split; try apply HP.
    + intros t th Ht Hs. destruct (kp_thread _ _ _ _ _ HP t th Ht Hs) as [? ? ? ? ?]. split; auto. by apply Hch.
    + intros h' xs t Hh' Hxs Hin. apply lookup_insert_Some in Hxs as [[<- <-]|[_ Hxs]];
        [by apply not_elem_of_nil in Hin|]. by eapply (kp_wait _ _ _ _ _ HP).
    + intros soft. apply Hch, HP.
    + intros tm r Hr. by eapply Hch, HP.
    + intros soft xs tm Hxs Hin. rewrite lookup_insert_ne in Hxs by (by destruct h). by eapply (kp_timers _ _ _ _ _ HP).
Qed.

(** Queueing at the front. *)
Lemma wait_push_ok idle s Q h ws t th :
  kinv idle s Q -> wait_head h = true -> k_links s !! h = Some (LTlist <$> ws) ->
  k_links s !! LTlist t = Some [] -> k_threads s !! t = Some th -> thread_stat th = RT_THREAD_SUSPEND ->
  exists V, list_insert_after h (LTlist t) s = Ok tt (set_links V s) /\
    kinv idle (set_links V s) Q /\ V !! h = Some (LTlist <$> t :: ws) /\
    changed [h] [LTlist t] (k_links s) V.
Proof.
  intros HI Hw Hq Hl Ht Hst.
  destruct (links_push (k_links s) h (LTlist t) (LTlist <$> ws)) as (V & E & HV' & Hq' & Hch);
    [apply HI|by destruct h|done|unfold v_loose; by rewrite Hl|by destruct h|].
  exists V. split; [unfold list_insert_after, list_op1; simpl; by rewrite E|].
  split; [|done]. eapply (wait_relinked _ _ _ _ ws (t :: ws)); [done..|set_solver|done].
Qed.

(** Linking a suspended thread into a waiting list, both disciplines. *)
Lemma wait_link_ok idle s Q h ws t th flag :
  kinv idle s Q -> wait_head h = true -> k_links s !! h = Some (LTlist <$> ws) ->
  k_links s !! LTlist t = Some [] -> k_threads s !! t = Some th ->
  thread_stat th = RT_THREAD_SUSPEND -> (flag = RT_IPC_FLAG_FIFO \/ flag = RT_IPC_FLAG_PRIO) ->
  exists V,
    (if flag =? RT_IPC_FLAG_FIFO then list_insert_before h (LTlist t)
     else if flag =? RT_IPC_FLAG_PRIO then
       (let! n := list_next h in
        let! fuel := list_fuel in
        let! found := prio_insert_loop fuel h n t in
        if found : bool then ret tt else list_insert_before h (LTlist t))
     else ret tt)%M s = Ok tt (set_links V s) /\
    kinv idle (set_links V s) Q /\
    V !! h = Some (LTlist <$> wait_insert (prio_in (k_threads s)) flag t ws) /\
    changed [h] [LTlist t] (k_links s) V.
Proof.
  intros HI Hw Hq Hl Ht Hst Hf.
  assert (links_ok (k_links s)) as HV by apply HI.
  assert (is_head h = true) as Hh by (by destruct h).
  assert (exists V, list_insert_before h (LTlist t) s = Ok tt (set_links V s) /\ links_ok V /\
    V !! h = Some (LTlist <$> ws ++ [t]) /\ changed [h] [LTlist t] (k_links s) V) as Happ.
  { destruct (links_append (k_links s) h (LTlist t) (LTlist <$> ws)) as (V & E & HV' & Hq' & Hch);
      [done..|by destruct h|]. exists V. unfold list_insert_before, list_op1. simpl. rewrite E.
    rewrite fmap_app. done. }
  destruct Happ as (V & E & HV' & Hq' & Hch).
  destruct Hf as [->| ->].
  - exists V. split; [done|]. split; [|done]. eapply (wait_relinked _ s _ _ ws); [done..| |done]. set_solver.
  - change (RT_IPC_FLAG_PRIO =? RT_IPC_FLAG_FIFO) with false.
    change (RT_IPC_FLAG_PRIO =? RT_IPC_FLAG_PRIO) with true. cbn match.
    unfold list_fuel, bind, gets. unfold list_next at 1. simpl ls_next.
    rewrite (queue_next_head _ _ _ Hq). cbn [lift_opt ret res_bind ls_size view_store].
    destruct (prio_insert_loop_ok s h t th [] ws (S (size (k_links s)))) as [[E1 E2]|(V1 & E1 & HV1 & Hq1 & Hch1)];
      [done..| | | |].
    + intros w Hin. destruct (waiter_exists _ _ _ _ _ _ HI Hw Hq Hin) as (x & Hx & _). by exists x.
    + pose proof (coherent_size _ _ _ (lo_coherent _ HV) Hq) as Hs. rewrite length_fmap in Hs. lia.
    + exists V. rewrite E1. simpl. rewrite E. split; [done|]. unfold wait_insert. simpl. rewrite E2.
      split; [|done]. eapply (wait_relinked _ s _ _ ws); [done..| |done]. set_solver.
    + exists V1. rewrite E1. split; [done|]. unfold wait_insert. simpl.
      split; [|done]. eapply (wait_relinked _ s _ _ ws); [done..| |done].
      intros x. simpl. by rewrite elem_of_prio_insert.
Qed.

Lemma prio_in_insert TH t th th' u :
  TH !! t = Some th -> t_current_priority th' = t_current_priority th ->
  prio_in (<[t := th']> TH) u = prio_in TH u.
Proof.
  intros Ht E. unfold prio_in. destruct (decide (u = t)) as [->|Hne].
  - rewrite lookup_insert_eq, Ht. simpl. done.
  - by rewrite lookup_insert_ne.
Qed.

Lemma wait_insert_ext f g flag t ws :
  (forall u, f u = g u) -> wait_insert f flag t ws = wait_insert g flag t ws.
Proof.
  intros E. unfold wait_insert. destruct (flag =? RT_IPC_FLAG_FIFO); [done|].
  induction ws as [|w ws IH]; simpl; [done|]. by rewrite !E, IH.
Qed.

(** [rt_ipc_list_suspend]: the running thread moves from its ready queue into
    the waiting list. *)
Lemma ipc_suspend_ok idle s Q h ws t th flag :
  kinv idle s Q -> quiet s -> wait_head h = true -> k_links s !! h = Some (LTlist <$> ws) ->
  k_threads s !! t = Some th -> thread_stat th = RT_THREAD_READY -> t <> idle ->
  (flag = RT_IPC_FLAG_FIFO \/ flag = RT_IPC_FLAG_PRIO) ->
  exists V T G r,
    let p := t_current_priority th in
    let s' := core V T G (<[t := make_suspended th]> (k_threads s))
      (<[TThread t := timer_flag_clear RT_TIMER_FLAG_ACTIVATED r]> (k_timers s)) s in
    rt_ipc_list_suspend h t flag s = Ok RT_EOK s' /\
    kinv idle s' (q_set Q p (drop_node t (Q p))) /\
    k_timers s !! TThread t = Some r /\
    V !! h = Some (LTlist <$> wait_insert (prio_in (k_threads s)) flag t ws) /\
    (forall h', is_head h' = true -> h' <> LReady p -> h' <> h -> V !! h' = k_links s !! h').
Proof.
  intros HI Hq Hw Hqw Ht Hst Hidle Hf.
  destruct (suspend_ok idle s Q t th HI Hq Ht Hst Hidle) as (V & T & G & r & E & HI' & Hr & Hl & Hfr).
  set (p := t_current_priority th) in *. set (s1 := core _ _ _ _ _ _) in E, HI'.
  assert (h <> LReady p) as Hhp by (by intros ->).
  destruct (wait_link_ok idle s1 _ h ws t (make_suspended th) flag HI' Hw) as (V' & E' & HI2 & Hq' & Hch).
  { simpl. rewrite Hfr; [done|by destruct h|done]. }
  { done. } { apply lookup_insert_eq. } { apply stat_suspended. } { done. }
  exists V', T, G, r. intros p' s'. change p' with p. clear p'.
  assert (s' = set_links V' s1) as Es by (by destruct s).
  split; [|split; [|split; [done|split]]].
  - unfold rt_ipc_list_suspend, bind at 1. rewrite E. cbn [res_bind].
    unfold bind at 1. fold s1. rewrite E'. cbn [res_bind ret]. by rewrite <-Es.
  - by rewrite Es.
  - rewrite Hq'. do 2 f_equal. apply wait_insert_ext. intros u. by eapply prio_in_insert.
  - intros h' Hh' Hne Hne'. rewrite (ch_heads _ _ _ _ Hch); [by apply Hfr|done|set_solver].
Qed.

(** [rt_ipc_list_resume]: the first waiter becomes ready, at the end of the
    queue of its priority. *)
Lemma ipc_resume_ok idle s Q h t ws :
  kinv idle s Q -> quiet s -> wait_head h = true -> k_links s !! h = Some (LTlist <$> t :: ws) ->
  exists V T G r th,
    let p := t_current_priority th in
    let s' := core V T G (<[t := make_ready th]> (k_threads s))
      (<[TThread t := timer_flag_clear RT_TIMER_FLAG_ACTIVATED r]> (k_timers s)) s in
    rt_ipc_list_resume h s = Ok RT_EOK s' /\
    kinv idle s' (q_set Q p (Q p ++ [t])) /\
    k_threads s !! t = Some th /\ thread_stat th = RT_THREAD_SUSPEND /\
    k_timers s !! TThread t = Some r /\
    V !! h = Some (LTlist <$> ws) /\
    (forall h', wait_head h' = true -> h' <> h -> V !! h' = k_links s !! h').
Proof.
  intros HI Hq Hw Hqw.
  destruct (waiter_exists _ _ _ _ _ t HI Hw Hqw) as (th & Ht & Hst); [set_solver|].
  destruct (resume_ok idle s Q t th HI Hq Ht Hst) as (V & T & G & r & E & HI' & Hr & Hfr).
  exists V, T, G, r, th. intros p s'.
  assert (links_ok (k_links s)) as HV by apply HI.
  assert (forall ts : list nat, LRow (TThread t) 0 ∉ LTlist <$> ts) as Hrow by (intros; apply row_not_ready).
  split; [|split; [done|split; [done|split; [done|split; [done|split]]]]].
  - unfold rt_ipc_list_resume, list_next, bind. simpl. rewrite (queue_next_head _ _ _ Hqw). simpl.
    rewrite E. done.
  - rewrite Hfr; [|by destruct h|by intros ->]. rewrite Hqw. simpl. f_equal.
    pose proof (coherent_nodup _ _ _ (lo_coherent _ HV) Hqw) as Hnd. simpl in Hnd.
    apply NoDup_cons in Hnd as [Hnin _].
    change (LTlist t :: list_fmap nat loc LTlist ws) with ([] ++ LTlist t :: (LTlist <$> ws)).
    rewrite (drop_node_split (LTlist t) []); [|set_solver|done]. by apply drop_node_notin.
  - intros h' Hh' Hne. assert (is_head h' = true) as Hh'' by (by destruct h').
    rewrite Hfr; [|done|by intros ->]. destruct (k_links s !! h') as [xs|] eqn:Ex; [|done]. simpl. f_equal.
    assert (LTlist t ∉ xs) as Hn1.
    { intros Hin. apply Hne. eapply (member_unique _ h' h xs _ (LTlist t)); [exact HV|done|by destruct h|done|exact Hqw|done|].
      simpl. set_solver. }
    rewrite (drop_node_notin (LTlist t)) by done. apply drop_node_notin. intros Hin.
    pose proof (lo_typed _ HV _ _ _ Hh'' Ex Hin) as Hk. by destruct h'.
Qed.
