(* ===== verification/TimerProof.v ===== *)
(** * Timer lists: [rt_timer_start] and the order of expiry

    A timer list holds a sequence of timers.  [timer_insert] is the abstract
    insertion of [rt_timer_start]: in front of the first timer that is due
    later, in the wrap-around order of ticks. *)
From S2P Require Import Prelude Kservice RtList KMonad KState KPrim KInv Scheduler Object TimerBase Thread Timer KernelInv.
Import Scheduler Object TimerBase Thread Timer.
Local Open Scope Z_scope.

Definition trow (tm : timer_id) : loc := LRow tm 0.

#[export] Instance trow_inj : Inj (=) (=) trow.
Proof. by intros ?? [= ->]. Qed.

(** The test of the search loop: tick [a] is due later than tick [d]. *)
Definition due_later (a d : Z) : bool :=
  let diff := u32 (a - d) in negb (diff =? 0) && (diff <? half_tick).

Definition timeout_in (TM : gmap timer_id rt_timer) (tm : timer_id) : Z :=
  default 0 (tm_timeout_tick <$> TM !! tm).

Section insert.
Context (tick : timer_id -> Z).

Fixpoint timer_insert (d : Z) (tm : timer_id) (tms : list timer_id) : list timer_id :=
  match tms with
  | [] => [tm]
  | u :: rest => if due_later (tick u) d then tm :: u :: rest else u :: timer_insert d tm rest
  end.

Lemma timer_insert_split d tm A B :
  Forall (fun u => due_later (tick u) d = false) A ->
  match B with [] => True | b :: _ => due_later (tick b) d = true end ->
  timer_insert d tm (A ++ B) = A ++ tm :: B.
Proof.
  induction 1 as [|u A Hu _ IH]; intros HB; simpl.
  - destruct B as [|b B]; simpl; [done|]. by rewrite HB.
  - rewrite Hu. f_equal. auto.
Qed.

Lemma elem_of_timer_insert d tm tms x : x ∈ timer_insert d tm tms <-> x = tm \/ x ∈ tms.
Proof.
  induction tms as [|u tms IH]; simpl; [set_solver|].
  destruct (due_later (tick u) d); set_solver.
Qed.
End insert.

Lemma timer_insert_ext f g d tm tms :
  (forall u, u ∈ tms -> f u = g u) -> timer_insert f d tm tms = timer_insert g d tm tms.
Proof.
  intros E. induction tms as [|u tms IH]; simpl; [done|].
  rewrite E by set_solver. rewrite IH; [done|set_solver].
Qed.

(** The members of a timer list. *)
Lemma timer_queue (V : vlinks) soft xs :
  links_ok V -> V !! LTimerHead soft 0 = Some xs -> exists tms, xs = trow <$> tms.
Proof.
  intros HV Hxs.
  assert (Forall (fun x => exists tm, x = trow tm) xs) as Hf.
  { apply Forall_forall. intros x Hx.
    pose proof (lo_typed _ HV (LTimerHead soft 0) _ _ eq_refl Hxs Hx) as Hk. destruct x; try done. simpl in Hk.
    destruct lvl; [|done]. by eexists. }
  clear Hxs. induction Hf as [|x xs [tm ->] _ [tms ->]]; [by exists []|]. by exists (tm :: tms).
Qed.

Lemma last_default_snoc {A} (d x : A) xs : default d (last (xs ++ [x])) = x.
Proof. by rewrite last_snoc. Qed.

(** The search loop on row 0. *)
Lemma timer_row_search_ok (s : kview) soft d A B fuel :
  links_ok (k_links s) ->
  k_links s !! LTimerHead soft 0 = Some (trow <$> A ++ B) ->
  (forall u, u ∈ B -> is_Some (k_timers s !! u)) -> (length B < fuel)%nat ->
  exists B1 B2, B = B1 ++ B2 /\
    Forall (fun u => due_later (timeout_in (k_timers s) u) d = false) B1 /\
    match B2 with [] => True | b :: _ => due_later (timeout_in (k_timers s) b) d = true end /\
    timer_row_search fuel soft 0 d (default (LTimerHead soft 0) (last (trow <$> A))) s =
      Ok (default (LTimerHead soft 0) (last (trow <$> A ++ B1))) s.
Proof.
  intros HV. revert A fuel. induction B as [|b B IH]; intros A fuel Hq HB Hf;
    (destruct fuel as [|fuel]; [simpl in Hf; lia|]).
  { exists [], []. split; [done|]. split; [done|]. split; [done|]. simpl.
    unfold list_prev, bind, ret. simpl. rewrite (queue_prev_head _ _ _ Hq). simpl.
    rewrite app_nil_r. by rewrite bool_decide_true. }
  assert (v_next (k_links s) (default (LTimerHead soft 0) (last (trow <$> A))) = Some (trow b)) as Hn.
  { destruct A as [|a A _] using rev_ind.
    - simpl. rewrite (queue_next_head _ _ _ Hq). done.
    - rewrite fmap_app. simpl. rewrite last_default_snoc. rewrite <-app_assoc, fmap_app in Hq. simpl in Hq.
      by rewrite (queue_next_member _ _ _ _ _ (lo_coherent _ HV) Hq). }
  assert (default (LTimerHead soft 0) (last (trow <$> A)) <>
          default (LTimerHead soft 0) (last (trow <$> A ++ b :: B))) as Hne.
  { pose proof (coherent_nodup _ _ _ (lo_coherent _ HV) Hq) as Hnd. rewrite fmap_app in Hnd |- *.
    rewrite last_app_ne by done. simpl. apply NoDup_app in Hnd as (_ & Hdis & _).
    rewrite last_cons_default. destruct (last_default_elem (trow b) (trow <$> B)) as [E|E].
    - change (list_fmap timer_id loc trow B) with (trow <$> B). rewrite E.
      destruct (last_default_elem (LTimerHead soft 0) (trow <$> A)) as [E'|E']; [by rewrite E'|].
      intros E2. rewrite E2 in E'. apply (Hdis _ E'). set_solver.
    - intros E2. change (list_fmap timer_id loc trow B) with (trow <$> B) in E2. rewrite <-E2 in E.
      destruct (last_default_elem (LTimerHead soft 0) (trow <$> A)) as [E'|E'].
      + rewrite E' in E. apply list_elem_of_fmap in E as (? & ? & _). done.
      + apply (Hdis _ E'). set_solver. }
  destruct (HB b) as [r Hr]; [set_solver|].
  assert (timeout_in (k_timers s) b = tm_timeout_tick r) as Et by (unfold timeout_in; by rewrite Hr).
  cbn [timer_row_search]. unfold list_prev at 1, bind at 1. simpl ls_prev.
  rewrite (queue_prev_head _ _ _ Hq). cbn [lift_opt ret res_bind].
  rewrite bool_decide_false by done. unfold list_next, bind, get_timer, bind, gets. simpl. rewrite Hn. simpl.
  rewrite Hr. simpl.
  assert (forall Bx, default (LTimerHead soft 0) (last (trow <$> (A ++ [b]) ++ Bx)) =
                     default (LTimerHead soft 0) (last (trow <$> A ++ b :: Bx))) as Eapp
    by (intros; by rewrite <-app_assoc).
  destruct (due_later (timeout_in (k_timers s) b) d) eqn:Ed.
  - exists [], (b :: B). split; [done|]. split; [done|]. split; [done|].
    unfold due_later in Ed. rewrite Et in Ed. apply andb_true_iff in Ed as [Ed1 Ed2].
    apply negb_true_iff in Ed1. rewrite Ed1, Ed2. by rewrite app_nil_r.
  - destruct (IH (A ++ [b]) fuel) as (B1 & B2 & -> & H1 & H2 & E);
      [by rewrite <-app_assoc|set_solver|simpl in Hf; lia|].
    exists (b :: B1), B2. split; [done|]. split; [by constructor|]. split; [done|].
    rewrite Eapp in E. rewrite (fmap_app _ A [b]) in E. simpl in E. rewrite last_default_snoc in E.
    unfold due_later in Ed. rewrite Et in Ed. apply andb_false_iff in Ed.
    destruct (u32 (tm_timeout_tick r - d) =? 0); [by rewrite Hn|].
    destruct Ed as [Ed|Ed]; [done|]. rewrite Ed. simpl. by rewrite Hn.
Qed.

(** The loop over the rows has one round. *)
Lemma timer_rows_search_one (s : kview) soft d found :
  timer_row_search (S (size (k_links s))) soft 0 d (LTimerHead soft 0) s = Ok found s ->
  timer_rows_search soft d rows (LTimerHead soft 0) [] s = Ok [found] s.
Proof.
  intros E. unfold rows. cbn [seq RT_TIMER_SKIP_LIST_LEVEL timer_rows_search].
  unfold bind, list_fuel, gets. cbn [res_bind]. cbn [ls_size view_store]. rewrite E. done.
Qed.
#[local] Arguments timer_rows_search : simpl never.

(** A timer that is in no list is linked into list [soft]. *)
Lemma kparts_timer_on idle V V' TH TM Q tm r r' soft xs' :
  kparts idle V TH TM Q -> TM !! tm = Some r -> same_timer_kind r r' ->
  timer_flag_test RT_TIMER_FLAG_ACTIVATED r' = true ->
  timer_flag_test RT_TIMER_FLAG_SOFT_TIMER r' = soft ->
  (forall t, tm = TThread t -> stat_is TH t RT_THREAD_SUSPEND) ->
  changed [LTimerHead soft 0] [trow tm] V V' -> V' !! LTimerHead soft 0 = Some xs' ->
  (forall x, x ∈ xs' -> x = trow tm \/ exists xs, V !! LTimerHead soft 0 = Some xs /\ x ∈ xs) ->
  (forall soft xs, V !! LTimerHead soft 0 = Some xs -> trow tm ∉ xs) ->
  kparts idle V' TH (<[tm := r']> TM) Q.
Proof.
  intros HP Hr Hk Ha Hs Hthr Hch Hxs' Hsub Hnin.
  assert (forall soft' tm', tm' <> tm -> active_timer TH TM soft' tm' ->
    active_timer TH (<[tm := r']> TM) soft' tm') as Hkeep.
  { intros soft' tm' Hne (q & Hq & ?). exists q. by rewrite lookup_insert_ne. }
  split; try apply HP.
  - intros t th Ht Hst. destruct (kp_thread _ _ _ _ _ HP t th Ht Hst) as [? ? ? ? ?].
    split; auto; [by apply Hch|by eapply thread_timer_insert].
  - intros h xs t Hh Hxs Hin. rewrite (ch_heads _ _ _ _ Hch) in Hxs; [|by destruct h|destruct h; set_solver].
    by eapply (kp_wait _ _ _ _ _ HP).
  - intros soft'. apply Hch, HP.
  - intros tm' q Hq. apply lookup_insert_Some in Hq as [[<- _]|[_ Hq]]; by eapply Hch, HP.
  - intros soft' xs tm' Hxs Hin. destruct (decide (tm' = tm)) as [->|Hne].
    + destruct (decide (soft' = soft)) as [->|Hsne].
      * exists r'. rewrite lookup_insert_eq. done.
      * rewrite (ch_heads _ _ _ _ Hch) in Hxs; [|done|set_solver]. by apply (Hnin _ _ Hxs) in Hin.
    + apply Hkeep; [done|]. destruct (decide (soft' = soft)) as [->|Hsne].
      * rewrite Hxs' in Hxs. injection Hxs as <-.
        destruct (Hsub _ Hin) as [[= ->]|(ys & Hys & Hin')]; [done|]. by eapply (kp_timers _ _ _ _ _ HP).
      * rewrite (ch_heads _ _ _ _ Hch) in Hxs; [|done|set_solver]. by eapply (kp_timers _ _ _ _ _ HP).
Qed.

(** Linking after the node the search found. *)
Lemma timer_link_ok (V : vlinks) soft A B tm :
  links_ok V -> V !! LTimerHead soft 0 = Some (trow <$> A ++ B) -> V !! trow tm = Some [] ->
  exists V', v_insert_after (default (LTimerHead soft 0) (last (trow <$> A))) (trow tm) V = Some V' /\
    links_ok V' /\ V' !! LTimerHead soft 0 = Some (trow <$> A ++ tm :: B) /\
    changed [LTimerHead soft 0] [trow tm] V V'.
Proof.
  intros HV Hq Hl. destruct A as [|a A _] using rev_ind.
  - simpl. apply links_push; [done|done|done| |done]. unfold v_loose. by rewrite Hl.
  - rewrite fmap_app. simpl. rewrite last_default_snoc.
    rewrite <-app_assoc, fmap_app in Hq. simpl in Hq.
    destruct (links_insert_after_member V (LTimerHead soft 0) (trow a) (trow tm) (trow <$> A) (trow <$> B))
      as (V' & E & HV' & Hq' & Hch); [done..|].
    exists V'. split; [done|]. split; [done|]. split; [|done].
    rewrite Hq', <-app_assoc, fmap_app. done.
Qed.

(** The timer as [rt_timer_start] leaves it. *)
Definition started (now : Z) (r : rt_timer) : rt_timer :=
  timer_flag_set RT_TIMER_FLAG_ACTIVATED
    (set_tm_timeout_tick (u32 (now + tm_init_tick r)) (timer_flag_clear RT_TIMER_FLAG_ACTIVATED r)).

Lemma started_kind now r : same_timer_kind r (started now r).
Proof.
  split; [done|]. split; [done|]. unfold started. split.
  - rewrite flag_set_other by done. by apply flag_clear_other.
  - rewrite flag_set_other by done. by apply flag_clear_other.
Qed.

Lemma fmap_drop_trow tm tms : drop_node (trow tm) (trow <$> tms) = trow <$> drop_node tm tms.
Proof.
  unfold drop_node. induction tms as [|x q IH]; [done|]. rewrite fmap_cons, !filter_cons.
  destruct (decide (x = tm)) as [->|Hx].
  - rewrite !decide_False by naive_solver. done.
  - rewrite !decide_True; [by rewrite IH|done|]. intros ?%(inj trow). done.
Qed.

(** [rt_timer_start] on a hard timer. *)
Lemma timer_start_ok idle s Q tm r tms :
  kinv idle s Q -> quiet s -> k_timers s !! tm = Some r ->
  timer_flag_test RT_TIMER_FLAG_SOFT_TIMER r = false ->
  tm_init_tick r < half_tick ->
  (forall t, tm = TThread t -> stat_is (k_threads s) t RT_THREAD_SUSPEND) ->
  k_links s !! LTimerHead false 0 = Some (trow <$> tms) ->
  exists V,
    let d := u32 (k_tick s + tm_init_tick r) in
    let s' := core V (k_ready_table s) (k_ready_group s) (k_threads s)
      (<[tm := started (k_tick s) r]> (k_timers s))
      (set_random_nr (u32 (k_random_nr s + 1)) s) in
    rt_timer_start tm s = Ok (- RT_EOK) s' /\ kinv idle s' Q /\
    V !! LTimerHead false 0 =
      Some (trow <$> timer_insert (timeout_in (k_timers s)) d tm (drop_node tm tms)) /\
    (forall h, is_head h = true -> h <> LTimerHead false 0 -> V !! h = k_links s !! h).
Proof.
  intros HI Hq Hr Hsoft Hinit Hthr Htq.
  destruct (kp_row _ _ _ _ _ (ki_parts _ _ _ HI) _ _ Hr) as [ns Hns].
  destruct (remove_dropped (k_links s) (LRow tm 0) ns) as (V0 & E0 & HV0 & Hl0 & Hd0 & Hdom0);
    [apply HI|done|done|].
  set (d := u32 (k_tick s + tm_init_tick r)).
  set (rc := timer_flag_clear RT_TIMER_FLAG_ACTIVATED r).
  set (rt := set_tm_timeout_tick d rc).
  assert (same_timer_kind r rt) as Hk.
  { split; [done|]. split; [done|]. split; by apply (flag_clear_other RT_TIMER_FLAG_ACTIVATED). }
  set (s1 := core V0 (k_ready_table s) (k_ready_group s) (k_threads s) (<[tm := rt]> (k_timers s)) (set_primask 1 s)).
  assert (V0 !! LTimerHead false 0 = Some (trow <$> drop_node tm tms)) as Hq0.
  { rewrite Hd0, Htq by done. simpl. f_equal. apply fmap_drop_trow. }
  assert (kparts idle V0 (k_threads s) (<[tm := rt]> (k_timers s)) Q) as HP0.
  { eapply kparts_timer_off; [apply HI|done..]. }
  destruct (timer_row_search_ok s1 false d [] (drop_node tm tms) (S (size V0)))
    as (B1 & B2 & EB & HB1 & HB2 & Esearch).
  { done. } { done. }
  { intros u [Hu Hne]%elem_of_drop_node. simpl. rewrite lookup_insert_ne by done.
    destruct (kp_timers _ _ _ _ _ (ki_parts _ _ _ HI) false _ u Htq) as (q & -> & _); [|by eexists].
    by apply (list_elem_of_fmap_2 trow). }
  { pose proof (coherent_size _ _ _ (lo_coherent _ HV0) Hq0) as Hs. rewrite length_fmap in Hs. lia. }
  rewrite EB in Hq0. apply (timer_rows_search_one s1) in Esearch.
  destruct (timer_link_ok V0 false B1 B2 tm HV0 Hq0 Hl0) as (V & E & HV & HqV & Hch).
  exists V. intros d' s'.
  assert (Forall (fun u => due_later (timeout_in (k_timers s) u) d = false) B1) as HB1'.
  { apply Forall_forall. intros u Hu. eapply Forall_forall in HB1; [|exact Hu].
    unfold timeout_in in *. simpl in HB1. rewrite lookup_insert_ne in HB1; [done|].
    intros <-. assert (tm ∈ drop_node tm tms) as [_ ?]%elem_of_drop_node; [rewrite EB; set_solver|done]. }
  assert (match B2 with [] => True | b :: _ => due_later (timeout_in (k_timers s) b) d = true end) as HB2'.
  { destruct B2 as [|b B2]; [done|]. unfold timeout_in in *. simpl in HB2.
    rewrite lookup_insert_ne in HB2; [done|].
    intros <-. assert (tm ∈ drop_node tm tms) as [_ ?]%elem_of_drop_node; [rewrite EB; set_solver|done]. }
  assert (forall h, is_head h = true -> h <> LTimerHead false 0 -> V !! h = k_links s !! h) as Hfr.
  { intros h Hh Hne. rewrite (ch_heads _ _ _ _ Hch) by (done || set_solver). rewrite Hd0 by done.
    destruct (k_links s !! h) as [xs|] eqn:Ex; [|done]. simpl. rewrite drop_node_notin; [done|].
    intros Hin. pose proof (lo_typed _ (si_links _ _ (ki_sched _ _ _ HI)) _ _ _ Hh Ex Hin) as Hkd.
    destruct h as [| | |soft lvl| | | | | |]; try done. simpl in Hkd. destruct lvl; [|done].
    destruct (kp_timers _ _ _ _ _ (ki_parts _ _ _ HI) _ _ _ Ex Hin) as (q & Hq' & _ & Hs' & _).
    rewrite Hr in Hq'. injection Hq' as <-. rewrite Hsoft in Hs'. congruence. }
  split; [|split; [split|split; [|done]]].
  - unfold rt_timer_start, rt_timer_remove, get_timer, upd_timer, put_timer, list_remove, list_op1,
      rt_hw_interrupt_disable, for_each, rt_tick_get, bind, gets, modify, ret. simpl.
    rewrite E0. simpl. unfold get_timer, bind, gets. simpl. rewrite Hr. simpl.
    rewrite interrupt_enable_quiet by (unfold quiet; done). simpl.
    unfold get_timer, bind, gets. simpl. rewrite lookup_insert_eq. simpl.
    rewrite (proj2 (Z.ltb_lt _ _) Hinit). simpl. rewrite lookup_insert_eq. simpl.
    fold d. fold rc. fold rt.
    assert (timer_flag_test RT_TIMER_FLAG_SOFT_TIMER rt = false) as Hsrt
      by (destruct Hk as (_ & _ & -> & _); done).
    rewrite Hsrt, insert_insert_eq.
    match goal with |- context [timer_rows_search ?sf ?dd ?rw ?h ?acc ?st] =>
      replace (timer_rows_search sf dd rw h acc st) with
        (Ok [default (LTimerHead false 0) (last (trow <$> B1))] s1)
        by (symmetry; etransitivity; [|exact Esearch]; by destruct s) end.
    simpl. unfold list_insert_after, list_op1. simpl. fold (trow tm). rewrite E. simpl.
    rewrite lookup_insert_eq. simpl. rewrite interrupt_enable_quiet by (unfold quiet; done). simpl.
    unfold get_timer, bind, gets. simpl. rewrite lookup_insert_eq. simpl.
    rewrite flag_set_other by done. rewrite Hsrt. rewrite insert_insert_eq. by destruct s.
  - eapply (sched_inv_frame (set_links V s)); [done..|].
    eapply (sched_inv_changed (set_links V0 s)); [|done|exact Hch| |done|done].
    + eapply (sched_inv_dropped s); [apply HI|done|exact Hd0| |done|done]. intros p _. apply row_not_ready.
    + intros p. set_solver.
  - simpl. replace (<[tm := started (k_tick s) r]> (k_timers s))
      with (<[tm := started (k_tick s) r]> (<[tm := rt]> (k_timers s))) by apply insert_insert_eq.
    eapply kparts_timer_on; [exact HP0|apply lookup_insert_eq| | | |done|exact Hch|exact HqV| |].
    + split; [done|]. split; [done|]. split; by apply flag_set_other.
    + by apply flag_set_test.
    + destruct (started_kind (k_tick s) r) as (_ & _ & -> & _). done.
    + intros x (w & -> & Hin)%list_elem_of_fmap. apply elem_of_app in Hin as [Hin|[->|Hin]%elem_of_cons];
        [right|by left|right]; (eexists; split; [exact Hq0|]; apply list_elem_of_fmap_2; set_solver).
    + intros soft xs Hxs Hin.
      destruct (dropped_elem _ _ _ (LTimerHead soft 0) _ _ Hd0 eq_refl Hxs Hin) as (ys & _ & _ & ?). done.
  - change d' with d. rewrite EB, timer_insert_split by done. done.
Qed.

(** ** Waiting with a timeout *)
Lemma thread_context_ok (s : kview) c :
  quiet s -> k_current s = Some c -> k_irq_nest s = 0 -> RT_DEBUG_IN_THREAD_CONTEXT s = Ok tt s.
Proof.
  intros Hq Hc Hn. unfold RT_DEBUG_IN_THREAD_CONTEXT, RT_DEBUG_NOT_IN_INTERRUPT, rt_interrupt_get_nest,
    rt_hw_interrupt_disable, rt_thread_self, bind, gets, modify, ret. simpl.
  rewrite Hc, bool_decide_true by done. simpl. rewrite Hn. simpl.
  rewrite interrupt_enable_quiet by (unfold quiet; done). simpl.
  rewrite interrupt_enable_quiet by (unfold quiet; done). f_equal. by destruct s.
Qed.

Lemma kinv_field idle s Q t th th' :
  kinv idle s Q -> k_threads s !! t = Some th -> same_thread_kind th th' -> t_stat th' = t_stat th ->
  kinv idle (set_threads (<[t := th']> (k_threads s)) s) Q.
Proof.
  intros HI Ht Hk Hst. split; [eapply sched_inv_frame; [..|apply HI]; done|]. simpl.
  by eapply kparts_thread_field; [apply HI|..].
Qed.

(** The timeout of a timer that is in no list may be set. *)
Lemma timer_set_time_ok idle s Q tm r time :
  kinv idle s Q -> k_timers s !! tm = Some r ->
  timer_flag_test RT_TIMER_FLAG_ACTIVATED r = false ->
  let s' := set_timers (<[tm := set_tm_init_tick (u32 time) r]> (k_timers s)) s in
  rt_timer_control tm RT_TIMER_CTRL_SET_TIME time s = Ok (RT_EOK, time) s' /\ kinv idle s' Q.
Proof.
  intros HI Hr Ha s'. split.
  - unfold rt_timer_control, get_timer, put_timer, bind, gets, modify, ret. simpl. rewrite Hr. done.
  - split; [eapply sched_inv_frame; [..|apply HI]; done|]. simpl.
    eapply kparts_timer_off; [apply HI|done|done| |done].
    intros h Hh. destruct (k_links s !! h) as [xs|] eqn:Ehx; [|done]. simpl.
    rewrite drop_node_notin; [done|]. intros Hin.
    pose proof (lo_typed _ (si_links _ _ (ki_sched _ _ _ HI)) _ _ _ Hh Ehx Hin) as Hkd.
    destruct h as [| | |soft lvl| | | | | |]; try done. simpl in Hkd. destruct lvl; [|done].
    destruct (kp_timers _ _ _ _ _ (ki_parts _ _ _ HI) _ _ _ Ehx Hin) as (q & Hq' & Ha' & _). congruence.
Qed.
