(* ===== verification/TimerCheckProof.v ===== *)
(** * Timer expiry: [rt_timer_check]

    Ticks wrap around, so "earlier" is relative to a base tick: timers whose
    timeouts lie in the half-range window above the base are ordered by their
    offset from it.  The list of hard timers is kept in that order, and
    [rt_timer_check] leaves no expired timer in it. *)
From S2P Require Import Prelude Kservice RtList KMonad KState KPrim KInv Scheduler Object TimerBase Thread Timer KernelInv TimerProof.
Import Scheduler Object TimerBase Thread Timer.
Local Open Scope Z_scope.
Local Open Scope kmonad_scope.

Module TimerCheck.

(** Distance of a tick above the base, modulo the tick counter. *)
Definition offset (base x : Z) : Z := u32 (x - base).

Lemma half_tick_val : half_tick = 2147483647.
Proof. reflexivity. Qed.

Lemma u32_sub_offset base x y : u32 (x - y) = u32 (offset base x - offset base y).
Proof.
  unfold offset, u32. rewrite <-Zminus_mod. f_equal. lia.
Qed.

(** In the window the comparison of [rt_timer_start] is the order of offsets. *)
Lemma due_later_offset base x d :
  offset base x < half_tick -> offset base d < half_tick ->
  due_later x d = (offset base d <? offset base x).
Proof.
  rewrite half_tick_val. intros Hx Hd. unfold due_later. rewrite (u32_sub_offset base), half_tick_val.
  pose proof (u32_range (x - base)) as Hx0. pose proof (u32_range (d - base)) as Hd0.
  fold (offset base x) in Hx0. fold (offset base d) in Hd0.
  set (a := offset base x) in *. set (b := offset base d) in *.
  destruct (Z.ltb_spec b a) as [Hlt|Hge].
  - rewrite u32_small by lia. rewrite (proj2 (Z.eqb_neq _ _)) by lia. apply Z.ltb_lt. lia.
  - destruct (decide (a = b)) as [->|Hne]; [by rewrite Z.sub_diag|].
    assert (u32 (a - b) = a - b + 4294967296) as ->.
    { unfold u32. symmetry. apply (Z.mod_unique_pos _ _ (-1)); lia. }
    rewrite (proj2 (Z.ltb_ge _ _)) by lia. apply andb_false_r.
Qed.

(** A timer expired when its timeout is at most half a range in the past. *)
Definition expired (now x : Z) : bool := u32 (now - x) <? half_tick.

Lemma expired_offset base now x :
  offset base x < half_tick -> offset base now < half_tick ->
  expired now x = (offset base x <=? offset base now).
Proof.
  rewrite half_tick_val. intros Hx Hd. unfold expired. rewrite (u32_sub_offset base), half_tick_val.
  pose proof (u32_range (x - base)) as Hx0. pose proof (u32_range (now - base)) as Hd0.
  fold (offset base x) in Hx0. fold (offset base now) in Hd0.
  set (a := offset base x) in *. set (b := offset base now) in *.
  destruct (Z.leb_spec a b) as [Hle|Hgt].
  - rewrite u32_small by lia. apply Z.ltb_lt. lia.
  - assert (u32 (b - a) = b - a + 4294967296) as ->.
    { unfold u32. symmetry. apply (Z.mod_unique_pos _ _ (-1)); lia. }
    apply Z.ltb_ge. lia.
Qed.

(** The timers [tms] lie in the window above [base] and are in order. *)
Record ordered (base : Z) (tick : timer_id -> Z) (tms : list timer_id) : Prop := {
  or_window tm : tm ∈ tms -> offset base (tick tm) < half_tick;
  or_sorted : StronglySorted (fun a b => offset base (tick a) <= offset base (tick b)) tms;
}.

Lemma timer_insert_ordered base tick d tm tms :
  ordered base tick tms -> tick tm = d -> offset base d < half_tick ->
  ordered base tick (timer_insert tick d tm tms).
Proof.
  intros [Hw Hs] Htm Hd. split.
  { intros x [->|Hx]%elem_of_timer_insert; [by rewrite Htm|auto]. }
  induction Hs as [|u tms Hs IH Hf]; simpl; [by repeat constructor|].
  rewrite (due_later_offset base) by (done || apply Hw; set_solver).
  destruct (Z.ltb_spec (offset base d) (offset base (tick u))) as [Hlt|Hge].
  - constructor; [by constructor|]. rewrite Htm. constructor; [lia|].
    eapply Forall_impl; [exact Hf|]. simpl. lia.
  - constructor; [apply IH; intros x Hx; apply Hw; set_solver|]. apply Forall_forall.
    intros x [->|Hx]%elem_of_timer_insert; [by rewrite Htm|]. by eapply Forall_forall in Hf.
Qed.

Lemma ordered_ext base f g tms :
  (forall u, u ∈ tms -> f u = g u) -> ordered base f tms -> ordered base g tms.
Proof.
  intros E [Hw Hs]. split; [intros u Hu; rewrite <-E by done; auto|]. clear Hw.
  induction Hs as [|u tms Hs IH Hf]; constructor; [apply IH; set_solver|].
  apply Forall_forall. intros x Hx. eapply Forall_forall in Hf; [|exact Hx].
  rewrite <-!E by set_solver. done.
Qed.

Lemma ordered_sublist base f tms tms' :
  tms' `sublist_of` tms -> ordered base f tms -> ordered base f tms'.
Proof.
  intros Hsub [Hw Hs]. split; [intros u Hu; apply Hw; by eapply elem_of_sublist|].
  by eapply sorted_sublist.
Qed.

(** With the list in order, its expired timers come first. *)
Lemma ordered_head_not_expired base now tick u tms :
  ordered base tick (u :: tms) -> offset base now < half_tick ->
  expired now (tick u) = false -> forall x, x ∈ u :: tms -> expired now (tick x) = false.
Proof.
  intros [Hw Hs] Hn He x Hx. rewrite (expired_offset base) in He |- * by (done || apply Hw; set_solver).
  apply Z.leb_gt in He. apply Z.leb_gt. apply elem_of_cons in Hx as [->|Hx]; [done|].
  apply StronglySorted_inv in Hs as [_ Hf]. eapply Forall_forall in Hf; [|exact Hx]. simpl in Hf. lia.
Qed.

(** ** Masked rescheduling and the thread timeout *)

(** [rt_schedule] with interrupts disabled only chooses the next thread. *)
Definition chose (s s' : kview) : Prop :=
  exists c p pv, s' = set_pendsv pv (set_current (Some c) (set_current_priority p s)).

Lemma schedule_masked idle s Q c :
  kinv idle s Q -> k_primask s = 1 -> k_current s = Some c ->
  exists s', rt_schedule s = Ok tt s' /\ chose s s'.
Proof.
  intros HI Hp Hc. destruct (decide (k_lock_nest s = 0)) as [Hl|Hl].
  - destruct (kinv_schedule idle s Q c) as (p & to & q & _ & _ & E); [done|by apply quiet_masked|done|done|].
    rewrite E. unfold reschedule. destruct (decide (to = c)) as [->|Hne].
    + exists s. split; [done|]. exists c, (k_current_priority s), (k_pendsv s). rewrite <-Hc. by destruct s.
    + rewrite Hp. simpl. eexists. split; [done|]. by exists to, p, (Some (match k_pendsv s with Some (f, _) => f | None => c end, to)).
  - rewrite rt_schedule_locked by (done || by apply quiet_masked).
    exists s. split; [done|]. exists c, (k_current_priority s), (k_pendsv s). rewrite <-Hc. by destruct s.
Qed.

Lemma kinv_chose idle s s' Q : chose s s' -> kinv idle s Q -> kinv idle s' Q.
Proof. intros (c & p & pv & ->). by apply kinv_frame. Qed.

(** What a timeout function may do while the timer list is checked: it returns,
    keeps the invariant and the interrupt state, starts no hard timer and
    reprograms none. *)
Record timeout_step (idle : nat) (tms : list timer_id) (s s' : kview) : Prop := {
  ts_inv : exists Q, kinv idle s' Q;
  ts_masked : k_primask s' = k_primask s /\ k_irq_nest s' = k_irq_nest s;
  ts_current : is_Some (k_current s');
  ts_tick : k_tick s' = k_tick s;
  ts_list : exists tms', k_links s' !! LTimerHead false 0 = Some (trow <$> tms') /\
    tms' `sublist_of` tms /\
    forall u, u ∈ tms' -> timeout_in (k_timers s') u = timeout_in (k_timers s) u;
  ts_dom u : is_Some (k_timers s !! u) -> is_Some (k_timers s' !! u);
  ts_timers u r' : k_timers s' !! u = Some r' ->
    exists r, k_timers s !! u = Some r /\ same_timer_kind r r' /\ tm_init_tick r' = tm_init_tick r;
}.

(** [rt_thread_timeout] is such a function: the thread becomes ready with error
    [-RT_ETIMEOUT]. *)
Lemma thread_timeout_ok idle s Q t th c tms :
  kinv idle s Q -> k_primask s = 1 -> k_current s = Some c ->
  k_threads s !! t = Some th -> thread_stat th = RT_THREAD_SUSPEND ->
  k_links s !! LTimerHead false 0 = Some (trow <$> tms) ->
  (forall soft xs, k_links s !! LTimerHead soft 0 = Some xs -> LRow (TThread t) 0 ∉ xs) ->
  exists s', rt_thread_timeout t s = Ok tt s' /\ timeout_step idle tms s s' /\
    k_links s' !! LTimerHead false 0 = Some (trow <$> tms) /\
    k_timers s' = k_timers s /\
    k_threads s' = <[t := make_ready (set_t_error (- RT_ETIMEOUT) th)]> (k_threads s).
Proof.
  intros HI Hm Hc Ht Hst Htq Hrow.
  assert (kinv idle (set_threads (<[t := set_t_error (- RT_ETIMEOUT) th]> (k_threads s)) s) Q) as HI0
    by (by apply (kinv_field _ _ _ _ th)).
  set (th1 := set_t_error (- RT_ETIMEOUT) th) in *. set (s0 := set_threads _ s) in HI0.
  assert (k_threads s0 !! t = Some th1) as Ht0 by apply lookup_insert_eq.
  destruct (kinv_thread _ _ _ _ _ HI0 Ht0) as [Ha Hr [ns Hns] Hsk Htm];
    [change (thread_stat th1) with (thread_stat th); by rewrite Hst|].
  destruct (remove_dropped (k_links s0) (LTlist t) ns) as (V0 & EV0 & HV & Hl & Hd & Hdom);
    [apply HI0|done|done|].
  set (s1 := set_links V0 s0).
  assert (forall p', 0 <= p' < 256 -> t ∉ Q p') as Hnq.
  { intros p' Hp'. eapply (kinv_not_ready idle s0); [done|done| |done].
    change (thread_stat th1) with (thread_stat th). by rewrite Hst. }
  assert (kinv idle s1 Q) as HI1.
  { split.
    - eapply (sched_inv_dropped s0); [apply HI0|done|exact Hd| |done|done].
      intros p' Hp' (x & [= <-] & Hin)%list_elem_of_fmap. by apply Hnq in Hin.
    - by eapply kparts_unlink; [apply HI0|..]. }
  destruct (insert_thread_ok s1 Q t th1) as (V & T & G & E & HS & Hch).
  { apply HI1. } { by apply quiet_masked. } { done. } { done. } { done. }
  set (s2 := sched_upd _ _ _ _) in E, HS.
  assert (forall soft xs, V0 !! LTimerHead soft 0 = Some xs -> LRow (TThread t) 0 ∉ xs) as Hrow0.
  { intros soft xs Hxs Hin.
    destruct (dropped_elem _ _ _ (LTimerHead soft 0) _ _ Hd eq_refl Hxs Hin) as (ys & Hys & Hin' & _).
    by eapply Hrow. }
  assert (kinv idle s2 (q_set Q (t_current_priority th1) (Q (t_current_priority th1) ++ [t]))) as HI2.
  { split; [done|]. simpl. eapply (kparts_make_ready idle V0 V _ _ Q t th1 (make_ready th1));
      [apply HI1|done|done| |done|apply stat_ready|done|done|done|done].
    change (thread_stat th1) with (thread_stat th). by rewrite Hst. }
  destruct (schedule_masked idle s2 _ c HI2) as (s' & E' & Hcs); [done|done|].
  exists s'.
  assert (V !! LTimerHead false 0 = Some (trow <$> tms)) as HVq.
  { rewrite (ch_heads _ _ _ _ Hch) by (done || set_solver). change (k_links s1) with V0.
    eapply dropped_same; [done|done|done|]. intros (x & ? & _)%list_elem_of_fmap. done. }
  pose proof Hcs as (c' & p' & pv & Es').
  split; [|split; [split|]].
  - unfold rt_thread_timeout, get_thread, upd_thread, put_thread, list_remove, list_op1, bind, gets, modify. simpl.
    rewrite Ht. simpl. rewrite Hst. simpl. unfold get_thread, bind, gets. simpl. rewrite Ht. simpl.
    change (k_links s0) with (k_links s) in EV0. rewrite EV0. simpl. fold th1 s0 s1. rewrite E. simpl. by rewrite E'.
  - eexists. by eapply kinv_chose.
  - by rewrite Es'.
  - rewrite Es'. by eexists.
  - by rewrite Es'.
  - exists tms. rewrite Es'. done.
  - intros u Hu. by rewrite Es'.
  - intros u r Hu. exists r. rewrite Es' in Hu. done.
  - rewrite Es'. simpl. split; [done|]. split; [done|]. by rewrite insert_insert_eq.
Qed.

(** ** The check loop *)

(** Every timer that is not embedded in a thread calls an application function,
    and a periodic one has a period that keeps its next timeout in the window
    [late] ticks after the base. *)
Definition timers_fit (late : Z) (TM : gmap timer_id rt_timer) : Prop :=
  forall u r, TM !! u = Some r ->
    (forall i, u = TUser i -> exists f, tm_timeout_func r = User_timeout f) /\
    (timer_flag_test RT_TIMER_FLAG_PERIODIC r = true -> 0 < tm_init_tick r < half_tick - late).

Record check_state (idle : nat) (base : Z) (tms : list timer_id) (s : kview) : Prop := {
  cs_inv : exists Q, kinv idle s Q;
  cs_masked : k_primask s = 1;
  cs_current : is_Some (k_current s);
  cs_list : k_links s !! LTimerHead false 0 = Some (trow <$> tms);
  cs_ordered : ordered base (timeout_in (k_timers s)) tms;
  cs_late : offset base (k_tick s) < half_tick;
  cs_fit : timers_fit (offset base (k_tick s)) (k_timers s);
}.

(** The timers of the list that are due, and how many they are. *)
Definition due_list (s : kview) (tms : list timer_id) : list timer_id :=
  filter (fun u => expired (k_tick s) (timeout_in (k_timers s) u) = true) tms.
Definition due (s : kview) (tms : list timer_id) : nat := length (due_list s tms).

(** What the code does with the timer [u] after its function: a periodic timer
    that the function has not stopped is started again at the current tick, any
    other one is marked inactive.  [tms] becomes [tms']. *)
Definition rearmed (u : timer_id) (s : kview) (tms : list timer_id) (s' : kview) (tms' : list timer_id) : Prop :=
  exists r V TM random, k_timers s !! u = Some r /\
    s' = set_random_nr random (set_links V (set_timers TM s)) /\
    V !! LTimerHead false 0 = Some (trow <$> tms') /\
    let stopped := timer_flag_clear RT_TIMER_FLAG_ACTIVATED r in
    if timer_flag_test RT_TIMER_FLAG_PERIODIC r && timer_flag_test RT_TIMER_FLAG_ACTIVATED r then
      TM = <[u := started (k_tick s) stopped]> (k_timers s) /\
      tms' = timer_insert (timeout_in (k_timers s)) (u32 (k_tick s + tm_init_tick r)) u tms
    else TM = <[u := stopped]> (k_timers s) /\ tms' = tms.

(** From [s] with the list [tms] the timers [us] are fired, in this order.  The
    first of the list, if it is due, is taken off it, its function is called,
    which may stop others, and it is restarted or marked inactive. *)
Inductive fires (user_timeout : nat -> nat -> M kview unit) :
    kview -> list timer_id -> list timer_id -> kview -> list timer_id -> Prop :=
  | fires_none s tms : (forall u, u ∈ tms -> expired (k_tick s) (timeout_in (k_timers s) u) = false) ->
      fires user_timeout s tms [] s tms
  | fires_first s u rest r V s2 tms2 s3 tms3 us s' tms' :
      k_timers s !! u = Some r -> expired (k_tick s) (tm_timeout_tick r) = true ->
      V !! LTimerHead false 0 = Some (trow <$> rest) ->
      call_timeout user_timeout (tm_timeout_func r) (tm_parameter r) (set_links V s) = Ok tt s2 ->
      k_links s2 !! LTimerHead false 0 = Some (trow <$> tms2) -> tms2 `sublist_of` rest ->
      rearmed u s2 tms2 s3 tms3 -> fires user_timeout s3 tms3 us s' tms' ->
      fires user_timeout s (u :: rest) (u :: us) s' tms'.

Lemma trow_nodup (s : kview) tms :
  links_ok (k_links s) -> k_links s !! LTimerHead false 0 = Some (trow <$> tms) -> NoDup tms.
Proof.
  intros HV Hq. eapply NoDup_fmap_1. by eapply (coherent_nodup _ _ _ (lo_coherent _ HV)).
Qed.

Lemma kinv_timer_unlinked idle s Q tm r r' :
  kinv idle s Q -> k_timers s !! tm = Some r -> same_timer_kind r r' ->
  (forall soft xs, k_links s !! LTimerHead soft 0 = Some xs -> trow tm ∉ xs) ->
  kinv idle (set_timers (<[tm := r']> (k_timers s)) s) Q.
Proof.
  intros HI Hr Hk Hn. split; [eapply sched_inv_frame; [..|apply HI]; done|]. simpl.
  eapply kparts_timer_off; [apply HI|done|done| |done].
  intros h Hh. destruct (k_links s !! h) as [xs|] eqn:Ehx; [|done]. simpl.
  rewrite drop_node_notin; [done|]. intros Hin.
  pose proof (lo_typed _ (si_links _ _ (ki_sched _ _ _ HI)) _ _ _ Hh Ehx Hin) as Hkd.
  destruct h as [| | |soft lvl| | | | | |]; try done. simpl in Hkd. destruct lvl; [|done].
  by eapply Hn.
Qed.

Lemma due_filter s s' tms tms' :
  tms' `sublist_of` tms -> k_tick s' = k_tick s ->
  (forall u, u ∈ tms' -> timeout_in (k_timers s') u = timeout_in (k_timers s) u) ->
  due_list s' tms' `sublist_of` due_list s tms.
Proof.
  intros Hsub Ht Hto. unfold due_list. rewrite Ht.
  induction Hsub as [|x l1 l2 Hs IH|x l1 l2 Hs IH]; [done|..]; rewrite ?filter_cons.
  - rewrite (Hto x) by set_solver. case_decide; simpl; [apply sublist_skip|]; apply IH; set_solver.
  - case_decide; simpl; [apply sublist_cons|]; by apply IH.
Qed.

(** Inserting a timer that is not due. *)
Lemma due_insert s s' d u tms :
  k_tick s' = k_tick s ->
  (forall v, v ∈ tms -> timeout_in (k_timers s') v = timeout_in (k_timers s) v) ->
  timeout_in (k_timers s') u = d -> expired (k_tick s') d = false ->
  due_list s' (timer_insert (timeout_in (k_timers s')) d u tms) `sublist_of` due_list s tms.
Proof.
  intros Ht Hto Hu Hn. induction tms as [|v tms IH]; cbn [timer_insert].
  - unfold due_list. rewrite filter_cons_False by (rewrite Hu, Hn; done). done.
  - destruct (due_later (timeout_in (k_timers s') v) d).
    + assert (due_list s' (u :: v :: tms) = due_list s' (v :: tms)) as ->
        by (apply filter_cons_False; by rewrite Hu, Hn). by apply due_filter.
    + assert (due_list s' (timer_insert (timeout_in (k_timers s')) d u tms) `sublist_of` due_list s tms) as IH'
        by (apply IH; set_solver).
      unfold due_list in *. rewrite !filter_cons, Ht, Hto by set_solver. rewrite Ht in IH'.
      case_decide; simpl; [by apply sublist_skip|done].
Qed.

Section check.
Context (idle : nat) (base : Z) (user_timeout : nat -> nat -> M kview unit).
Hypothesis user_ok : forall f a s tms,
  (exists Q, kinv idle s Q) -> k_primask s = 1 -> is_Some (k_current s) ->
  k_links s !! LTimerHead false 0 = Some (trow <$> tms) ->
  exists s', user_timeout f a s = Ok tt s' /\ timeout_step idle tms s s'.

(** The expired timer at the head is removed and its function called. *)
Lemma fire_ok s u rest r :
  check_state idle base (u :: rest) s -> k_timers s !! u = Some r ->
  exists V s2, rt_timer_remove u s = Ok tt (set_links V s) /\
    V !! LTimerHead false 0 = Some (trow <$> rest) /\
    call_timeout user_timeout (tm_timeout_func r) (tm_parameter r) (set_links V s) = Ok tt s2 /\
    timeout_step idle rest (set_links V s) s2.
Proof using user_ok.
  intros [[Q HI] Hm [c Hc] Hq Ho Hlate Hfit] Hr.
  pose proof (trow_nodup _ _ (si_links _ _ (ki_sched _ _ _ HI)) Hq) as [Hnu Hnd]%NoDup_cons.
  destruct (kp_row _ _ _ _ _ (ki_parts _ _ _ HI) _ _ Hr) as [ns Hns].
  destruct (remove_dropped (k_links s) (LRow u 0) ns) as (V & E & HV & Hl & Hd & Hdom);
    [apply HI|done|done|].
  set (s1 := set_links V s).
  assert (kinv idle s1 Q) as HI1.
  { split; [|by eapply kparts_unlink; [apply HI|..]].
    eapply (sched_inv_dropped s); [apply HI|done|exact Hd| |done|done]. intros p _. apply row_not_ready. }
  assert (V !! LTimerHead false 0 = Some (trow <$> rest)) as Hq1.
  { rewrite Hd, Hq by done. cbn [fmap option_fmap option_map]. f_equal.
    change (LRow u 0) with (trow u). rewrite fmap_drop_trow. f_equal.
    change (u :: rest) with ([] ++ u :: rest). by rewrite drop_node_split by set_solver. }
  assert (exists s2, call_timeout user_timeout (tm_timeout_func r) (tm_parameter r) s1 = Ok tt s2 /\
    timeout_step idle rest s1 s2) as (s2 & E2 & Hst).
  { destruct u as [t|i].
    - destruct (kp_timers _ _ _ _ _ (ki_parts _ _ _ HI) false _ (TThread t) Hq) as (r' & Hr' & _ & _ & Hs);
        [simpl; set_solver|].
      destruct (Hs t eq_refl) as (th & Ht & Hst).
      destruct (kinv_thread _ _ _ _ _ HI Ht) as [_ _ _ _ (q & Hq' & (Ef & Ep & _))]; [by rewrite Hst|].
      rewrite Hr in Hq'. injection Hq' as <-. rewrite Ef, Ep. simpl.
      destruct (thread_timeout_ok idle s1 Q t th c rest) as (s2 & E2 & Hts & _); [done..| |by eauto].
      intros soft xs Hxs Hin.
      destruct (dropped_elem _ _ _ (LTimerHead soft 0) _ _ Hd eq_refl Hxs Hin) as (_ & _ & _ & ?). done.
    - destruct (proj1 (Hfit _ _ Hr) i eq_refl) as [f Ef]. rewrite Ef. simpl. apply user_ok; eauto. }
  exists V, s2. split; [|split; done].
  unfold rt_timer_remove, for_each, list_remove, list_op1, bind, ret. simpl. by rewrite E.
Qed.

(** After the function: the timer is restarted or deactivated. *)
Lemma after_timeout_ok s u r tms :
  check_state idle base tms s -> u ∉ tms -> k_timers s !! u = Some r ->
  timer_flag_test RT_TIMER_FLAG_SOFT_TIMER r = false ->
  (forall t, u = TThread t -> timer_flag_test RT_TIMER_FLAG_PERIODIC r = false) ->
  exists s' tms', timer_after_timeout u s = Ok tt s' /\ check_state idle base tms' s' /\
    rearmed u s tms s' tms' /\ due_list s' tms' `sublist_of` due_list s tms /\ k_tick s' = k_tick s /\ k_irq_nest s' = k_irq_nest s.
Proof using Type.
  intros [[Q HI] Hm Hc Hq Ho Hlate Hfit] Hnu Hr Hsoft Hthr.
  set (rc := timer_flag_clear RT_TIMER_FLAG_ACTIVATED r).
  assert (same_timer_kind r rc) as Hk.
  { split; [done|]. split; [done|]. split; by apply flag_clear_other. }
  assert (forall soft xs, k_links s !! LTimerHead soft 0 = Some xs -> trow u ∉ xs) as Hoff.
  { intros soft xs Hxs Hin. destruct soft.
    - destruct (kp_timers _ _ _ _ _ (ki_parts _ _ _ HI) _ _ _ Hxs Hin) as (q & Hq' & _ & Hs & _).
      congruence.
    - rewrite Hq in Hxs. injection Hxs as <-. apply list_elem_of_fmap in Hin as (v & [= <-] & Hin). done. }
  set (s1 := set_timers (<[u := rc]> (k_timers s)) s).
  assert (kinv idle s1 Q) as HI1 by (by eapply kinv_timer_unlinked).
  assert (forall late TM q, timers_fit late TM -> TM !! u = Some q -> forall q', same_timer_kind q q' ->
    tm_init_tick q' = tm_init_tick q -> timers_fit late (<[u := q']> TM)) as Hfit_upd.
  { intros late TM q Hf Hqq q' (K1 & _ & _ & K4) Ki v x Hv.
    destruct (decide (v = u)) as [->|Hne]; [|rewrite lookup_insert_ne in Hv by done; by apply Hf].
    rewrite lookup_insert_eq in Hv. injection Hv as <-. destruct (Hf _ _ Hqq) as [F1 F2].
    rewrite K1, K4, Ki. done. }
  assert (forall TM q v, v ∈ tms -> timeout_in (<[u := q]> TM) v = timeout_in TM v) as Hto.
  { intros TM q v Hv. unfold timeout_in. rewrite lookup_insert_ne; [done|]. by intros ->. }
  unfold timer_after_timeout, get_timer, put_timer, bind, gets, modify, ret. simpl. rewrite Hr. simpl.
  destruct (timer_flag_test RT_TIMER_FLAG_PERIODIC r) eqn:Ep;
    [destruct (timer_flag_test RT_TIMER_FLAG_ACTIVATED r) eqn:Ea|].
  2,3: exists s1, tms; split; [done|]; split; [|split; [exists r, (k_links s), (<[u := rc]> (k_timers s)), (k_random_nr s);
         split; [done|]; split; [by destruct s|]; split; [done|]; by rewrite Ep, ?Ea|
         split; [apply due_filter; [done|done|intros; by apply Hto]|done]]];
       split; [by exists Q|done|done|done| |done|by eapply Hfit_upd];
       eapply ordered_ext; [|exact Ho]; intros v Hv; symmetry; by apply Hto.
  destruct (proj2 (Hfit _ _ Hr) Ep) as [Hi0 Hi1].
  destruct (timer_start_ok idle s1 Q u rc tms) as (V & E & HI2 & Hq2 & Hfr);
    [done|by apply quiet_masked|apply lookup_insert_eq|destruct Hk as (_ & _ & -> & _); done
    |pose proof (u32_range (k_tick s - base)); unfold offset in Hi1; simpl; lia
    |intros t Et; by discriminate (Hthr t Et)|done|].
  set (d := u32 (k_tick s1 + tm_init_tick rc)) in Hq2. set (s2 := core _ _ _ _ _ _) in E, HI2.
  rewrite drop_node_notin in Hq2 by done.
  assert (offset base d = offset base (k_tick s) + tm_init_tick r) as Eoff.
  { unfold offset, d, u32. simpl. rewrite Zminus_mod_idemp_l.
    replace (k_tick s + tm_init_tick r - base) with ((k_tick s - base) + tm_init_tick r) by lia.
    rewrite <-Zplus_mod_idemp_l. change ((k_tick s - base) mod 2 ^ 32) with (offset base (k_tick s)).
    apply Z.mod_small. pose proof (u32_range (k_tick s - base)) as Hr0. fold (offset base (k_tick s)) in Hr0.
    rewrite half_tick_val in Hi1. lia. }
  assert (timeout_in (k_timers s2) u = d) as Edu.
  { unfold timeout_in. simpl. rewrite lookup_insert_eq. done. }
  assert (forall v, v ∈ tms -> timeout_in (k_timers s2) v = timeout_in (k_timers s) v) as Hto2.
  { intros v Hv. simpl. rewrite !Hto by done. done. }
  assert (timer_insert (timeout_in (k_timers s1)) d u tms = timer_insert (timeout_in (k_timers s2)) d u tms) as Eti.
  { apply timer_insert_ext. intros v Hv. rewrite Hto2 by done. by apply Hto. }
  exists s2, (timer_insert (timeout_in (k_timers s2)) d u tms).
  assert (ordered base (timeout_in (k_timers s2)) (timer_insert (timeout_in (k_timers s2)) d u tms)) as Ho2.
  { apply timer_insert_ordered; [|done|lia]. eapply ordered_ext; [|exact Ho]. intros v Hv. symmetry. auto. }
  split; [simpl; fold rc s1; by rewrite E|]. split; [|split; [|split; [|done]]].
  - split; [by exists Q|done|done| |done|done|].
    + by rewrite <-Eti.
    + eapply Hfit_upd; [eapply Hfit_upd; [exact Hfit|done|exact Hk|done]|apply lookup_insert_eq| |done].
      apply started_kind.
  - exists r, V, (<[u := started (k_tick s) rc]> (k_timers s)), (u32 (k_random_nr s + 1)).
    split; [done|]. split; [subst s2 s1; simpl; rewrite insert_insert_eq; by destruct s|].
    split; [by rewrite <-Eti|]. rewrite Ep, Ea. cbn [andb]. split; [done|]. rewrite <-Eti. apply timer_insert_ext.
    intros v Hv. simpl. by apply Hto.
  - assert (expired (k_tick s2) d = false) as Hnew.
    { rewrite (expired_offset base); [|lia|done]. apply Z.leb_gt. change (k_tick s2) with (k_tick s). lia. }
    by apply due_insert.
Qed.

(** Total correctness of the loop: as many rounds as there are due timers, and
    one to see that no more is due. *)
Lemma timer_check_loop_ok fuel tms s :
  check_state idle base tms s -> (due s tms < fuel)%nat ->
  exists s' us tms', timer_check_loop user_timeout fuel (k_tick s) s = Ok tt s' /\
    check_state idle base tms' s' /\ k_tick s' = k_tick s /\ k_irq_nest s' = k_irq_nest s /\
    fires user_timeout s tms us s' tms' /\ us `sublist_of` due_list s tms /\
    forall u, u ∈ tms' -> expired (k_tick s') (timeout_in (k_timers s') u) = false.
Proof using user_ok.
  revert tms s. induction fuel as [|fuel IH]; intros tms s Hcs Hf; [lia|].
  pose proof Hcs as [[Q HI] Hm Hc Hq Ho Hlate Hfit].
  pose proof (queue_isempty _ _ _ (lo_coherent _ (si_links _ _ (ki_sched _ _ _ HI))) Hq) as He.
  simpl. unfold list_isempty, list_next, get_timer, bind, gets, ret. simpl. rewrite He. simpl.
  destruct tms as [|u rest]; simpl.
  { exists s, [], []. do 4 (split; [done|]). split; [apply fires_none; set_solver|]. split; [done|]. set_solver. }
  rewrite (queue_next_head _ _ _ Hq). simpl.
  destruct (kp_timers _ _ _ _ _ (ki_parts _ _ _ HI) false _ u Hq) as (r & Hr & Ha & Hs & Hthr); [simpl; set_solver|].
  rewrite Hr. simpl.
  assert (timeout_in (k_timers s) u = tm_timeout_tick r) as Et by (unfold timeout_in; by rewrite Hr).
  change (u32 (k_tick s - tm_timeout_tick r) <? half_tick) with (expired (k_tick s) (tm_timeout_tick r)).
  destruct (expired (k_tick s) (tm_timeout_tick r)) eqn:Eexp; simpl.
  2:{ assert (forall v, v ∈ u :: rest -> expired (k_tick s) (timeout_in (k_timers s) v) = false) as Hnone
        by (eapply ordered_head_not_expired; [exact Ho|done|by rewrite Et]).
      exists s, [], (u :: rest). do 4 (split; [done|]). split; [by apply fires_none|]. split; [apply sublist_nil_l|done]. }
  destruct (fire_ok s u rest r Hcs Hr) as (V & s2 & E1 & EV & E2 & Hts). rewrite E1. simpl. rewrite E2. simpl.
  pose proof (trow_nodup _ _ (si_links _ _ (ki_sched _ _ _ HI)) Hq) as [Hnu Hnd]%NoDup_cons.
  destruct Hts as [Hinv [Hm2 Hn2] Hc2 Htk (tms2 & Hq2 & Hsub & Hto2) Hdom Hback]. simpl in Hm2, Hn2, Htk, Hto2, Hdom, Hback.
  destruct (Hdom u) as [r2 Hr2]; [by exists r|].
  destruct (Hback u r2 Hr2) as (r' & Hr' & Hk & Hi). rewrite Hr in Hr'. injection Hr' as <-.
  assert (ordered base (timeout_in (k_timers s2)) tms2) as Ho2.
  { eapply (ordered_ext base (timeout_in (k_timers s))); [intros v Hv; symmetry; auto|].
    eapply ordered_sublist; [|exact Ho]. by apply sublist_cons. }
  destruct (after_timeout_ok s2 u r2 tms2) as (s3 & tms3 & E3 & Hcs3 & Hre & Hdue & Htk3 & Hn3).
  { split; [done|congruence|done|done|done|by rewrite Htk|].
    intros v q Hv. destruct (Hback v q Hv) as (q0 & Hq0 & (K1 & _ & _ & K4) & Ki).
    destruct (Hfit v q0 Hq0) as [F1 F2]. rewrite K1, K4, Ki, Htk. done. }
  { intros Hin. apply Hnu. by eapply elem_of_sublist. }
  { done. }
  { destruct Hk as (_ & _ & -> & _). done. }
  { intros t ->. destruct Hk as (_ & _ & _ & ->). destruct (Hthr t eq_refl) as (th & Ht & Hst).
    destruct (kinv_thread _ _ _ _ _ HI Ht) as [_ _ _ _ (q & Hq' & (_ & _ & _ & Hp))]; [by rewrite Hst|].
    congruence. }
  rewrite E3. simpl. rewrite <-Htk3.
  assert (due_list s2 tms2 `sublist_of` due_list s rest) as Hd2 by (apply due_filter; auto).
  assert (due_list s (u :: rest) = u :: due_list s rest) as Ed by (apply filter_cons_True; by rewrite Et).
  unfold due in Hf. rewrite Ed in Hf. simpl in Hf.
  destruct (IH tms3 s3) as (s' & us & tms' & E' & Hcs' & Htk' & Hn' & Hfires & Hus & Hfin); [done| |].
  { pose proof (sublist_length _ _ Hd2). pose proof (sublist_length _ _ Hdue). unfold due. lia. }
  exists s', (u :: us), tms'. split; [done|]. split; [done|]. split; [congruence|]. split; [congruence|].
  split; [by eapply fires_first|]. split; [|done]. rewrite Ed. apply sublist_skip. by do 2 (etransitivity; [done|]).
Qed.
End check.
End TimerCheck.
