(* ===== verification/BlockProof.v ===== *)
(** * Blocking: suspend on a waiting list, arm the timer, reschedule

    What every blocking call of [ipc.c] does once it has to wait, proved once:
    the running thread joins the waiting list, its timer is armed when the
    wait is bounded, and the processor goes to the highest ready thread.  The
    rely and guarantee of the component theorems are also here. *)
From S2P Require Import Prelude Kservice RtList KMonad KState KPrim KInv Scheduler Object TimerBase Thread Timer Ipc KernelInv WaitProof TimerProof.
Import Scheduler Object TimerBase Thread Timer IpcCore.
Local Open Scope Z_scope.
Local Open Scope kmonad_scope.

(** Thread [t] runs: interrupts enabled, no handler active, no switch pending,
    the scheduler unlocked. *)
Record thread_ctx (s : kview) (t : nat) : Prop := {
  tc_primask : k_primask s = 0;
  tc_nest : k_irq_nest s = 0;
  tc_pendsv : k_pendsv s = None;
  tc_lock : k_lock_nest s = 0;
  tc_current : k_current s = Some t;
}.

Lemma ctx_quiet s t : thread_ctx s t -> quiet s.
Proof. intros [] ? ?. done. Qed.

(** The state of the system between the steps of threads: the invariant holds
    and some ready thread runs. *)
Definition running (idle : nat) (s : kview) (t : nat) : Prop :=
  (exists Q, kinv idle s Q) /\ thread_ctx s t /\ stat_is (k_threads s) t RT_THREAD_READY.

(** Guarantee: a call leaves the processor in such a state, the next thread
    running.  Rely: it is resumed in such a state, itself running. *)
Definition guar (idle from to : nat) (s : kview) : Prop := running idle s to /\ from <> to.
Definition rely (idle from : nat) (s s' : kview) : Prop := running idle s' from.

(** The timer record of a thread that waits at most [time] ticks. *)
Definition wait_timer (time now : Z) (r : rt_timer) : rt_timer :=
  let r := timer_flag_clear RT_TIMER_FLAG_ACTIVATED r in
  if 0 <? time then started now (set_tm_init_tick (u32 time) r) else r.

(** A suspended thread's timer is programmed and started. *)
Lemma arm_timer_ok idle s Q t th r time :
  kinv idle s Q -> quiet s -> k_threads s !! t = Some th -> thread_stat th = RT_THREAD_SUSPEND ->
  k_timers s !! TThread t = Some r -> timer_flag_test RT_TIMER_FLAG_ACTIVATED r = false ->
  0 <= time < half_tick ->
  exists s1 V,
    let s' := core V (k_ready_table s) (k_ready_group s) (k_threads s)
      (<[TThread t := started (k_tick s) (set_tm_init_tick time r)]> (k_timers s))
      (set_random_nr (u32 (k_random_nr s + 1)) s) in
    rt_timer_control (TThread t) RT_TIMER_CTRL_SET_TIME time s = Ok (RT_EOK, time) s1 /\
    rt_timer_start (TThread t) s1 = Ok (- RT_EOK) s' /\
    kinv idle s' Q /\
    (forall h, is_head h = true -> h <> LTimerHead false 0 -> V !! h = k_links s !! h).
Proof.
  intros HI Hq Ht Hst Hr Ha Htime.
  assert (u32 time = time) as Eu
    by (apply u32_small; unfold half_tick, RT_TICK_MAX in Htime; change (4294967295 / 2) with 2147483647 in Htime; lia).
  destruct (timer_set_time_ok idle s Q (TThread t) r time HI Hr Ha) as [E2 HI2]. rewrite Eu in E2, HI2.
  set (s2 := set_timers _ s) in E2, HI2.
  destruct (kinv_thread _ _ _ t th HI Ht) as [_ _ _ _ (q & Hq1 & Hqk)]; [by rewrite Hst|].
  rewrite Hr in Hq1. injection Hq1 as <-.
  destruct (kp_thead _ _ _ _ _ (ki_parts _ _ _ HI2) false) as [xs Hxs].
  destruct (timer_queue (k_links s2) false xs) as [tms ->]; [apply HI2|done|].
  destruct (timer_start_ok idle s2 Q (TThread t) (set_tm_init_tick time r) tms) as (V & E3 & HI3 & _ & Hfr);
    [done|done|apply lookup_insert_eq|apply Hqk|simpl; lia
    |intros t' [= <-]; by exists th|done|].
  exists s2, V. match type of HI3 with kinv _ ?x _ => set (s3 := x) in E3, HI3 end.
  match goal with |- let s' := ?x in _ => assert (x = s3) as -> end.
  { unfold s3. simpl. rewrite insert_insert_eq. by destruct s. }
  done.
Qed.

Lemma suspend_timed_ok idle s Q h ws t th flag time :
  kinv idle s Q -> quiet s -> wait_head h = true -> k_links s !! h = Some (LTlist <$> ws) ->
  k_threads s !! t = Some th -> thread_stat th = RT_THREAD_READY -> t <> idle ->
  (flag = RT_IPC_FLAG_FIFO \/ flag = RT_IPC_FLAG_PRIO) -> time < half_tick ->
  exists s1 V T G r n,
    let p := t_current_priority th in
    let s' := core V T G (<[t := make_suspended th]> (k_threads s))
      (<[TThread t := wait_timer time (k_tick s) r]> (k_timers s)) (set_random_nr n s) in
    rt_ipc_list_suspend h t flag s = Ok RT_EOK s1 /\
    (if 0 <? time then start_wait_timer t time else ret tt) s1 = Ok tt s' /\
    kinv idle s' (q_set Q p (drop_node t (Q p))) /\
    k_timers s !! TThread t = Some r /\
    V !! h = Some (LTlist <$> wait_insert (prio_in (k_threads s)) flag t ws) /\
    (forall h', wait_head h' = true -> h' <> h -> V !! h' = k_links s !! h') /\
    k_tick s1 = k_tick s.
Proof.
  intros HI Hq Hw Hqw Ht Hst Hidle Hf Htime.
  destruct (ipc_suspend_ok idle s Q h ws t th flag) as (V & T & G & r & E & HI1 & Hr & Hh & Hfr); [done..|].
  set (p := t_current_priority th) in *. set (s1 := core _ _ _ _ _ _) in E, HI1.
  set (rc := timer_flag_clear RT_TIMER_FLAG_ACTIVATED r) in *.
  destruct (0 <? time) eqn:Epos.
  2:{ exists s1, V, T, G, r, (k_random_nr s). intros p' s'. change p' with p.
      assert (s' = s1) as Es by (unfold s', wait_timer; rewrite Epos; by destruct s).
      rewrite Es. repeat (split; [done|]). split; [|done]. intros h' Hh' Hne. apply Hfr; [by destruct h'|by intros ->|done]. }
  assert (0 <= time < half_tick) as Hrange by (apply Z.ltb_lt in Epos; lia).
  assert (u32 time = time) as Eu
    by (apply u32_small; unfold half_tick, RT_TICK_MAX in Hrange; change (4294967295 / 2) with 2147483647 in Hrange; lia).
  destruct (arm_timer_ok idle s1 _ t (make_suspended th) rc time HI1) as (s2 & V' & E2 & E3 & HI3 & Hfr');
    [done|apply lookup_insert_eq|apply stat_suspended|apply lookup_insert_eq|by apply flag_clear_test|done|].
  exists s1, V', T, G, r, (u32 (k_random_nr s + 1)). intros p' s'. change p' with p. clear p'.
  match type of HI3 with kinv _ ?x _ => assert (s' = x) as Es end.
  { unfold s', wait_timer. rewrite Epos, Eu. simpl. rewrite !insert_insert_eq. by destruct s. }
  split; [done|]. split; [|split; [|split; [done|split; [|split; [|done]]]]].
  - unfold start_wait_timer, bind. rewrite E2. simpl. rewrite E3. simpl. by rewrite Es.
  - by rewrite Es.
  - rewrite Hfr'; [done|by destruct h|by intros ->].
  - intros h' Hh' Hne. rewrite Hfr'; [|by destruct h'|by intros ->].
    apply Hfr; [by destruct h'|by intros ->|done].
Qed.

(** A thread that is no longer ready gives the processor away. *)
Lemma schedule_away idle s Q t th :
  kinv idle s Q -> thread_ctx s t -> k_threads s !! t = Some th ->
  thread_stat th <> RT_THREAD_READY ->
  exists p to q, is_highest Q p /\ Q p = to :: q /\ t <> to /\
    rt_schedule s = Switch t to (switched p to s) (fun s' => Ok tt s') /\
    guar idle t to (switched p to s).
Proof.
  intros HI [H1 H2 H3 H4 H5] Ht Hst.
  destruct (kinv_schedule idle s Q t) as (p & to & q & Hp & HQ & E); [done| |done|done|].
  { by intros ? ?. }
  assert (to ∈ Q p) as Hin by (rewrite HQ; set_solver).
  destruct (kp_ready _ _ _ _ _ (ki_parts _ _ _ HI) to p) as (x & Hx & Hxs & _); [apply Hp|done|].
  assert (t <> to) as Hne by (intros ->; congruence).
  exists p, to, q. split; [done|]. split; [done|]. split; [done|]. split.
  - rewrite E. unfold reschedule. rewrite decide_False by done. by rewrite H1, H2.
  - split; [|done]. split; [|split].
    + exists Q. eapply kinv_frame; [..|exact HI]; done.
    + by split.
    + by exists x.
Qed.

(** A suspended thread that is queued arms its timer, when the wait is bounded,
    and gives the processor away; it continues with [k] when it is resumed. *)
Lemma park_eq {B} (k : M kview B) idle s Q t th r time :
  kinv idle s Q -> thread_ctx (set_primask 0 s) t -> k_primask s = 1 ->
  k_threads s !! t = Some th -> thread_stat th = RT_THREAD_SUSPEND ->
  k_timers s !! TThread t = Some r -> timer_flag_test RT_TIMER_FLAG_ACTIVATED r = false -> time < half_tick ->
  exists V TM n p to,
    let s' := switched p to (core V (k_ready_table s) (k_ready_group s) (k_threads s) TM
      (set_primask 0 (set_random_nr n s))) in
    ((if 0 <? time then start_wait_timer t time else ret tt) ;!
     rt_hw_interrupt_enable 0 ;!
     rt_schedule ;!
     k) s = Switch t to s' k /\
    guar idle t to s' /\
    (forall h, is_head h = true -> h <> LTimerHead false 0 -> V !! h = k_links s !! h).
Proof.
  intros HI [Hc1 Hc2 Hc3 Hc4 Hc5] Hpm Ht Hst Hr Ha Htime. simpl in *.
  assert (exists V TM n, let s1 := core V (k_ready_table s) (k_ready_group s) (k_threads s) TM (set_random_nr n s) in
    (if 0 <? time then start_wait_timer t time else ret tt) s = Ok tt s1 /\ kinv idle s1 Q /\
    (forall h, is_head h = true -> h <> LTimerHead false 0 -> V !! h = k_links s !! h))
    as (V & TM & n & E & HI1 & Hfr).
  { destruct (Z.ltb_spec 0 time) as [Hpos|_].
    - destruct (arm_timer_ok idle s Q t th r time HI) as (s1 & V & E1 & E2 & HI1 & Hfr);
        [by apply quiet_masked|done|done|done|done|lia|].
      eexists V, _, _. split; [|split; [exact HI1|exact Hfr]].
      unfold start_wait_timer, bind. rewrite E1. simpl. by rewrite E2.
    - exists (k_links s), (k_timers s), (k_random_nr s). intros s1. assert (s1 = s) as -> by (by destruct s). done. }
  set (s1 := core _ _ _ _ _ _) in E, HI1.
  set (s2 := core V (k_ready_table s) (k_ready_group s) (k_threads s) TM (set_primask 0 (set_random_nr n s))).
  assert (kinv idle s2 Q) as HI2 by (eapply kinv_frame; [..|exact HI1]; done).
  destruct (schedule_away idle s2 Q t th HI2) as (p & to & q & Hp & HQ & Hne & E3 & Hg);
    [by split|done|by rewrite Hst|].
  exists V, TM, n, p, to. fold s2. split; [|done].
  rewrite (bind_ok _ _ _ _ _ E).
  rewrite (bind_ok (rt_hw_interrupt_enable 0) _ s1 tt s2) by (rewrite interrupt_enable_quiet by (by intros ? ?); done).
  unfold bind. by rewrite E3.
Qed.

Lemma not_in_interrupt_ok (k : kview) : quiet k -> k_irq_nest k = 0 -> RT_DEBUG_NOT_IN_INTERRUPT k = Ok tt k.
Proof.
  intros Hq Hn. unfold RT_DEBUG_NOT_IN_INTERRUPT, rt_hw_interrupt_disable, rt_interrupt_get_nest, bind, gets, modify, ret.
  simpl. rewrite Hn. simpl. rewrite interrupt_enable_quiet by (unfold quiet; done). f_equal. by destruct k.
Qed.

(** Suspending a thread and queueing it last, as the drivers' lists do. *)
Lemma wait_append_ok idle s Q h ws t th :
  kinv idle s Q -> quiet s -> wait_head h = true -> k_links s !! h = Some (LTlist <$> ws) ->
  k_threads s !! t = Some th -> thread_stat th = RT_THREAD_READY -> t <> idle ->
  exists V T G r,
    let p := t_current_priority th in
    let s' := core V T G (<[t := make_suspended th]> (k_threads s))
      (<[TThread t := timer_flag_clear RT_TIMER_FLAG_ACTIVATED r]> (k_timers s)) s in
    (forall B (k : M kview B), (rt_thread_suspend t ;! list_insert_before h (LTlist t) ;! k) s = k s') /\
    kinv idle s' (q_set Q p (drop_node t (Q p))) /\
    V !! h = Some (LTlist <$> ws ++ [t]) /\
    (forall h', wait_head h' = true -> h' <> h -> V !! h' = k_links s !! h').
Proof.
  intros HI Hq Hw Hqw Ht Hst Hid.
  destruct (ipc_suspend_ok idle s Q h ws t th RT_IPC_FLAG_FIFO) as (V & T & G & r & E & HI' & _ & Hh & Hfr); [by try left..|].
  exists V, T, G, r. split; [|split; [exact HI'|split; [exact Hh|]]].
  - intros B k. set (s' := core _ _ _ _ _ _) in E |- *. unfold rt_ipc_list_suspend in E. cbn [Z.eqb RT_IPC_FLAG_FIFO] in E.
    unfold bind in E |- *. destruct (rt_thread_suspend t s) as [a s1| |]; [|discriminate E..]. simpl in E |- *.
    destruct (list_insert_before h (LTlist t) s1) as [a' s2| |]; [|discriminate E..]. simpl in E |- *. by injection E as ->.
  - intros h' Hh' Hne. apply Hfr; [by destruct h'|by intros ->|done].
Qed.

(** The waiting sequence of the drivers: the thread is queued last, [pre] checks
    the context, and the processor is given away. *)
Lemma append_park_eq {B} (k : M kview B) (pre : M kview unit) idle s Q h ws t th time :
  (forall s', k_primask s' = 1 -> k_irq_nest s' = 0 -> pre s' = Ok tt s') ->
  kinv idle s Q -> thread_ctx (set_primask 0 s) t -> k_primask s = 1 -> wait_head h = true ->
  k_links s !! h = Some (LTlist <$> ws) -> k_threads s !! t = Some th ->
  thread_stat th = RT_THREAD_READY -> t <> idle -> time < half_tick ->
  exists to s',
    (upd_thread t (set_t_error RT_EOK) ;!
     rt_thread_suspend t ;!
     list_insert_before h (LTlist t) ;!
     pre ;!
     (if 0 <? time then start_wait_timer t time else ret tt) ;!
     rt_hw_interrupt_enable 0 ;!
     rt_schedule ;!
     k) s = Switch t to s' k /\
    guar idle t to s' /\ stat_is (k_threads s') t RT_THREAD_SUSPEND /\
    k_links s' !! h = Some (LTlist <$> ws ++ [t]) /\
    (forall h', wait_head h' = true -> h' <> h -> k_links s' !! h' = k_links s !! h').
Proof.
  intros Hpre HI Hc Hpm Hh Hw Ht Hst Hid Htime.
  set (s1 := set_threads (<[t := set_t_error RT_EOK th]> (k_threads s)) s).
  assert (kinv idle s1 Q) as HI1 by (by apply (kinv_field idle s Q t th)).
  destruct (wait_append_ok idle s1 Q h ws t (set_t_error RT_EOK th) HI1) as (V & T & G & r & E & HI2 & Hq & Hfr);
    [by apply quiet_masked|done|done|apply lookup_insert_eq|done|done|].
  set (s2 := core _ _ _ _ _ _) in E, HI2.
  destruct (park_eq k idle s2 _ t (make_suspended (set_t_error RT_EOK th)) (timer_flag_clear RT_TIMER_FLAG_ACTIVATED r) time HI2)
    as (V4 & TM & n & p & to & E4 & Hg & Hfr4);
    [destruct Hc; by split|done|apply lookup_insert_eq|apply stat_suspended|apply lookup_insert_eq|by apply flag_clear_test|done|].
  eexists to, _. split; [|split; [exact Hg|split; [|split]]].
  - rewrite (bind_ok _ _ s tt s1)
      by (unfold upd_thread, get_thread, put_thread, bind, gets, modify; simpl; by rewrite Ht).
    rewrite E. rewrite (bind_ok _ _ _ _ _ (Hpre s2 Hpm (tc_nest _ _ Hc))). exact E4.
  - exists (make_suspended (set_t_error RT_EOK th)). split; [|apply stat_suspended]. simpl. by rewrite lookup_insert_eq.
  - simpl. rewrite Hfr4; [done|by destruct h|by intros ->].
  - intros h' Hh' Hne. simpl. rewrite Hfr4; [by apply Hfr|by destruct h'|by intros ->].
Qed.

(** The whole blocking sequence as one step: the thread leaves the processor in
    a state of the invariant, and continues with [k] when it is resumed.  [s]
    has interrupts disabled; the level to restore is 0. *)
Lemma block_eq {B} (k : M kview B) idle s Q h ws t th flag time :
  kinv idle s Q -> thread_ctx (set_primask 0 s) t -> k_primask s = 1 -> wait_head h = true ->
  k_links s !! h = Some (LTlist <$> ws) -> k_threads s !! t = Some th ->
  thread_stat th = RT_THREAD_READY -> t <> idle ->
  (flag = RT_IPC_FLAG_FIFO \/ flag = RT_IPC_FLAG_PRIO) -> time < half_tick ->
  exists V T G r n p to,
    let s' := switched p to (core V T G (<[t := make_suspended th]> (k_threads s))
      (<[TThread t := wait_timer time (k_tick s) r]> (k_timers s)) (set_primask 0 (set_random_nr n s))) in
    (rt_ipc_list_suspend h t flag ;!
     (if 0 <? time then start_wait_timer t time else ret tt) ;!
     rt_hw_interrupt_enable 0 ;!
     rt_schedule ;!
     k) s = Switch t to s' k /\
    guar idle t to s' /\
    k_timers s !! TThread t = Some r /\
    V !! h = Some (LTlist <$> wait_insert (prio_in (k_threads s)) flag t ws) /\
    (forall h', wait_head h' = true -> h' <> h -> V !! h' = k_links s !! h').
Proof.
  intros HI Hc Hpm Hw Hqw Ht Hst Hidle Hf Htime.
  destruct (suspend_timed_ok idle s Q h ws t th flag time) as
    (s1 & V & T & G & r & n & E1 & E2 & HI' & Hr & Hh & Hfr & _); [done|by apply quiet_masked|done..|].
  set (s2 := core _ _ _ _ _ _) in E2, HI'. destruct Hc as [Hc1 Hc2 Hc3 Hc4 Hc5]. simpl in *.
  set (s3 := set_primask 0 s2).
  assert (kinv idle s3 (q_set Q (t_current_priority th) (drop_node t (Q (t_current_priority th))))) as HI3.
  { eapply kinv_frame; [..|exact HI']; done. }
  destruct (schedule_away idle s3 _ t (make_suspended th) HI3) as (p & to & q & Hp & HQ & Hne & E & Hg).
  { by split. } { apply lookup_insert_eq. } { by rewrite stat_suspended. }
  exists V, T, G, r, n, p, to. split; [|done].
  rewrite (bind_ok _ _ _ _ _ E1), (bind_ok _ _ _ _ _ E2).
  rewrite (bind_ok (rt_hw_interrupt_enable 0) _ s2 tt s3) by (apply interrupt_enable_quiet; by intros ? ?).
  unfold bind. rewrite E. done.
Qed.

(** The first waiter is resumed with an error number. *)
Lemma wake_error_ok idle s Q h w ws e :
  kinv idle s Q -> quiet s -> wait_head h = true -> k_links s !! h = Some (LTlist <$> w :: ws) ->
  exists V T G r th a,
    let p := t_current_priority th in
    let s1 := set_threads (<[w := set_t_error e th]> (k_threads s)) s in
    let s' := core V T G (<[w := make_ready (set_t_error e th)]> (k_threads s1))
      (<[TThread w := timer_flag_clear RT_TIMER_FLAG_ACTIVATED r]> (k_timers s)) s1 in
    k_threads s !! w = Some th /\ thread_stat th = RT_THREAD_SUSPEND /\
    list_next h s = Ok (LTlist w) s /\
    upd_thread w (set_t_error e) s = Ok tt s1 /\ rt_thread_resume w s1 = Ok a s' /\
    kinv idle s' (q_set Q p (Q p ++ [w])) /\
    V !! h = Some (LTlist <$> ws) /\
    (forall h', wait_head h' = true -> h' <> h -> V !! h' = k_links s !! h').
Proof.
  intros HI Hq Hh Hws.
  destruct (waiter_exists idle s Q h (w :: ws) w HI Hh Hws) as (th & Ht & Hst); [set_solver|].
  set (s1 := set_threads (<[w := set_t_error e th]> (k_threads s)) s).
  assert (kinv idle s1 Q) as HI1 by (by apply (kinv_field idle s Q w th)).
  destruct (ipc_resume_ok idle s1 Q h w ws HI1 Hq Hh Hws) as (V & T & G & r & th' & E & HI' & Ht' & _ & _ & HV & Hfr).
  simpl in Ht'. rewrite lookup_insert_eq in Ht'. injection Ht' as <-.
  assert (list_next h s = Ok (LTlist w) s) as En
    by (unfold list_next; simpl ls_next; by rewrite (queue_next_head _ _ _ Hws)).
  unfold rt_ipc_list_resume in E. rewrite (bind_ok _ _ s1 (LTlist w) s1) in E
    by (unfold list_next; simpl ls_next; by rewrite (queue_next_head _ _ _ Hws)).
  unfold thread_entry in E. rewrite bind_ret in E. unfold bind in E.
  destruct (rt_thread_resume w s1) as [a s2| |] eqn:Er; [|discriminate E..].
  simpl in E. injection E as ->.
  exists V, T, G, r, th, a. split; [done|]. split; [done|]. split; [done|].
  split; [unfold upd_thread, get_thread, put_thread, bind, gets, modify; simpl; by rewrite Ht|].
  split; [exact Er|]. split; [exact HI'|]. split; [exact HV|exact Hfr].
Qed.

(** The waking sequence, in a thread or in a handler: the first waiter of [h]
    becomes ready and the scheduler chooses the highest ready thread. *)
Lemma wake_eq {A} (a : A) idle s Q h w ws from temp :
  kinv idle s Q -> k_primask s = 1 -> quiet (set_primask temp s) -> k_lock_nest s = 0 ->
  k_current s = Some from -> wait_head h = true -> k_links s !! h = Some (LTlist <$> w :: ws) ->
  exists V T G TH TM Q' p to q,
    let s' := core V T G TH TM (set_primask temp s) in
    (rt_ipc_list_resume h ;! rt_hw_interrupt_enable temp ;! rt_schedule ;! ret a) s =
      res_bind (reschedule p to from s') (fun _ => ret a) /\
    kinv idle s' Q' /\ is_highest Q' p /\ Q' p = to :: q /\
    stat_is TH w RT_THREAD_READY /\ V !! h = Some (LTlist <$> ws) /\
    (forall h', wait_head h' = true -> h' <> h -> V !! h' = k_links s !! h').
Proof.
  intros HI Hpm Hqt Hl Hc Hh Hws.
  destruct (ipc_resume_ok idle s Q h w ws HI) as (V & T & G & r & th & E & HI' & _ & _ & _ & HV & Hfr);
    [by apply quiet_masked|done|done|].
  set (s1 := core _ _ _ _ _ _) in E, HI'.
  set (s' := core V T G (k_threads s1) (k_timers s1) (set_primask temp s)).
  assert (exists Q', kinv idle s' Q') as [Q' HI2] by (eexists; eapply kinv_frame; [..|exact HI']; done).
  destruct (kinv_schedule idle s' Q' from HI2 Hqt Hl Hc) as (p & to & q & Hp & HQ & Es).
  exists V, T, G, (k_threads s1), (k_timers s1), Q', p, to, q. fold s'.
  split; [|split; [done|split; [done|split; [done|split; [|done]]]]].
  - rewrite (bind_ok _ _ _ _ _ E).
    rewrite (bind_ok (rt_hw_interrupt_enable temp) _ s1 tt s')
      by (rewrite interrupt_enable_quiet by exact Hqt; done).
    unfold bind. by rewrite Es.
  - eexists. split; [apply lookup_insert_eq|apply stat_ready].
Qed.

(** The same, as the drivers write it. *)
Lemma driver_wake_eq idle s Q h w ws from temp :
  kinv idle s Q -> k_primask s = 1 -> quiet (set_primask temp s) -> k_lock_nest s = 0 ->
  k_current s = Some from -> wait_head h = true -> k_links s !! h = Some (LTlist <$> w :: ws) ->
  exists s' Q' p to q,
    (let! n := list_next h in let! thread := thread_entry n in
     rt_thread_resume thread ;! rt_hw_interrupt_enable temp ;! rt_schedule)%M s = reschedule p to from s' /\
    kinv idle s' Q' /\ is_highest Q' p /\ Q' p = to :: q /\
    stat_is (k_threads s') w RT_THREAD_READY /\ k_links s' !! h = Some (LTlist <$> ws) /\
    (forall h', wait_head h' = true -> h' <> h -> k_links s' !! h' = k_links s !! h').
Proof.
  intros HI Hpm Hqt Hl Hc Hh Hws.
  destruct (ipc_resume_ok idle s Q h w ws HI) as (V & T & G & r & th & E & HI' & _ & _ & _ & HV & Hfr);
    [by apply quiet_masked|done|done|].
  set (s1 := core _ _ _ _ _ _) in E, HI'. set (s' := set_primask temp s1).
  assert (exists Q', kinv idle s' Q') as [Q' HI2] by (eexists; eapply kinv_frame; [..|exact HI']; done).
  destruct (kinv_schedule idle s' Q' from HI2 Hqt Hl Hc) as (p & to & q & Hp & HQ & Es).
  exists s', Q', p, to, q. split; [|split; [done|split; [done|split; [done|split; [|done]]]]].
  - assert (list_next h s = Ok (LTlist w) s) as En
      by (unfold list_next; simpl ls_next; by rewrite (queue_next_head _ _ _ Hws)).
    unfold rt_ipc_list_resume in E. rewrite (bind_ok _ _ _ _ _ En) in E. rewrite (bind_ok _ _ _ _ _ En).
    rewrite (bind_ok (thread_entry _) _ s w s) in E by done. rewrite (bind_ok (thread_entry _) _ s w s) by done. unfold bind at 1 in E.
    destruct (rt_thread_resume w s) as [a s2| |] eqn:Ew; [|discriminate E..]. simpl in E. injection E as ->.
    rewrite (bind_ok _ _ _ _ _ Ew), (bind_ok _ _ _ tt s'); [exact Es|].
    by rewrite interrupt_enable_quiet by exact Hqt.
  - eexists. split; [apply lookup_insert_eq|apply stat_ready].
Qed.

(** [rt_schedule] in a running system keeps the guarantee, and with it any
    property [I] of the state that choosing another thread does not touch. *)
Section with_invariant.
Context (idle : nat) (I : kview -> Prop).
Hypothesis I_switched : forall p t s, I s -> I (switched p t s).

Definition guarI (from to : nat) (s : kview) : Prop := guar idle from to s /\ I s.
Definition relyI (from : nat) (s s' : kview) : Prop := rely idle from s s' /\ I s'.

Lemma schedule_wp s t P :
  running idle s t -> I s -> (forall s', running idle s' t -> I s' -> P tt s') ->
  wp guarI relyI rt_schedule P s.
Proof using I_switched.
  intros ((Q & HI) & Hc & Hst) HIs HP. destruct Hc as [H1 H2 H3 H4 H5].
  destruct (kinv_schedule idle s Q t) as (p & to & q & Hp & HQ & E); [done| |done|done|].
  { by intros ? ?. }
  unfold wp. rewrite E. unfold reschedule. destruct (decide (to = t)) as [->|Hne].
  { apply HP; [|done]. split; [by exists Q|]. split; [by split|done]. }
  rewrite H1, H2. simpl. split; [|intros s' [Hs' HIs']; by apply HP].
  destruct (kp_ready _ _ _ _ _ (ki_parts _ _ _ HI) to p) as (x & Hx & Hxs & _);
    [apply Hp|rewrite HQ; set_solver|].
  split; [|by apply I_switched]. split; [|done]. split; [|split].
  - exists Q. eapply kinv_frame; [..|exact HI]; done.
  - by split.
  - by exists x.
Qed.

(** The same for a thread in a system that keeps [I]. *)
Lemma block_wp {B} (k : M kview B) s Q h ws t th flag time (P : B -> kview -> Prop) :
  kinv idle s Q -> thread_ctx (set_primask 0 s) t -> k_primask s = 1 -> wait_head h = true ->
  k_links s !! h = Some (LTlist <$> ws) -> k_threads s !! t = Some th ->
  thread_stat th = RT_THREAD_READY -> t <> idle ->
  (flag = RT_IPC_FLAG_FIFO \/ flag = RT_IPC_FLAG_PRIO) -> time < half_tick ->
  (forall V T G TM n, V !! h = Some (LTlist <$> wait_insert (prio_in (k_threads s)) flag t ws) ->
    (forall h', wait_head h' = true -> h' <> h -> V !! h' = k_links s !! h') ->
    I (core V T G (<[t := make_suspended th]> (k_threads s)) TM (set_primask 0 (set_random_nr n s)))) ->
  (forall s', running idle s' t -> I s' -> wp guarI relyI k P s') ->
  wp guarI relyI
    (rt_ipc_list_suspend h t flag ;!
     (if 0 <? time then start_wait_timer t time else ret tt) ;!
     rt_hw_interrupt_enable 0 ;!
     rt_schedule ;!
     k) P s.
Proof using I_switched.
  intros HI Hc Hpm Hw Hqw Ht Hst Hidle Hf Htime HIpost HP.
  destruct (block_eq k idle s Q h ws t th flag time HI Hc Hpm Hw Hqw Ht Hst Hidle Hf Htime)
    as (V & T & G & r & n & p & to & E & Hg & _ & Hh & Hfr).
  unfold wp. rewrite E. split.
  - split; [done|]. apply I_switched. by apply HIpost.
  - intros s' [Hs' HIs']. by apply HP.
Qed.
End with_invariant.
