(* ===== verification/WakeAll.v ===== *)
(** * Waking all threads of a waiting list

    [rt_ipc_list_resume_all] ([ipc.c]) on a state of the invariant: every waiter
    becomes ready, in the order of the list, with the error [- RT_ERROR].  The
    functions that detach, delete or reset an object use it. *)
From S2P Require Import Prelude Kservice RtList KMonad KState KPrim KInv Scheduler Object TimerBase Thread Timer Ipc KernelInv ThreadProof WaitProof TimerProof BlockProof.
Import Scheduler Object TimerBase Thread Timer IpcCore.
Local Open Scope Z_scope.
Local Open Scope kmonad_scope.

Module WakeAll.

(** The ready queues after the threads [ws] were woken, one after the other. *)
Fixpoint wake_queues (pr : nat -> Z) (ws : list nat) (Q : Z -> list nat) : Z -> list nat :=
  match ws with
  | [] => Q
  | w :: ws => wake_queues pr ws (q_set Q (pr w) (Q (pr w) ++ [w]))
  end.

Lemma wake_queues_at pr ws p : forall Q, wake_queues pr ws Q p = Q p ++ filter (fun w => pr w = p) ws.
Proof.
  induction ws as [|w ws IH]; intros Q; simpl; [by rewrite app_nil_r|].
  rewrite IH. unfold q_set. rewrite filter_cons. repeat case_decide; subst; try done. by rewrite <-app_assoc.
Qed.

Lemma wake_queues_ext pr pr' ws : (forall w, w ∈ ws -> pr w = pr' w) ->
  forall Q, wake_queues pr ws Q = wake_queues pr' ws Q.
Proof.
  induction ws as [|w ws IH]; intros H Q; simpl; [done|]. rewrite (H w) by set_solver. apply IH. set_solver.
Qed.

Definition woken (th : rt_thread) : rt_thread := make_ready (set_t_error (- RT_ERROR) th).

(** Containers do not change when a thread is resumed. *)
Lemma resume_container idle s Q t th a s' c :
  kinv idle s Q -> quiet s -> k_threads s !! t = Some th -> thread_stat th = RT_THREAD_SUSPEND ->
  rt_thread_resume t s = Ok a s' -> k_links s' !! LObjHead c = k_links s !! LObjHead c.
Proof.
  intros HI Hq Ht Hst Er. destruct (resume_ok idle s Q t th HI Hq Ht Hst) as (V & T & G & r & E & _ & _ & Hfr).
  rewrite Er in E. injection E as _ ->. cbn [k_links core set_ready_group set_ready_table set_links].
  rewrite Hfr by done. destruct (k_links s !! LObjHead c) as [xs|] eqn:Ex; [|done]. simpl. f_equal.
  assert (forall x, kind_ok (LObjHead c) x = false -> x ∉ xs) as Hn.
  { intros x Hk Hin. pose proof (lo_typed _ (si_links _ _ (ki_sched _ _ _ HI)) (LObjHead c) xs x eq_refl Ex Hin). congruence. }
  by rewrite !drop_node_notin by (rewrite ?drop_node_notin; by apply Hn).
Qed.

Lemma isempty_ok (s : kview) h ws :
  links_ok (k_links s) -> k_links s !! h = Some (LTlist <$> ws) ->
  list_isempty h s = Ok (bool_decide (ws = [])) s.
Proof.
  intros HV Hq. unfold list_isempty. rewrite (queue_isempty _ _ _ (lo_coherent _ HV) Hq). simpl.
  by destruct ws as [|w ws].
Qed.

Section loop.
#[local] Set Default Proof Using "All".
Context (idle : nat) (h : loc) (Hh : wait_head h = true).

(** One round. *)
Lemma wake_round s Q w ws :
  kinv idle s Q -> quiet s -> k_links s !! h = Some (LTlist <$> w :: ws) ->
  exists V T G TM th,
    let s' := core V T G (<[w := woken th]> (k_threads s)) TM s in
    (forall fuel, resume_all_loop (S fuel) h s = resume_all_loop fuel h s') /\
    k_threads s !! w = Some th /\ thread_stat th = RT_THREAD_SUSPEND /\
    kinv idle s' (q_set Q (t_current_priority th) (Q (t_current_priority th) ++ [w])) /\
    V !! h = Some (LTlist <$> ws) /\
    (forall h', wait_head h' = true -> h' <> h -> V !! h' = k_links s !! h') /\
    (forall c, V !! LObjHead c = k_links s !! LObjHead c).
Proof.
  intros HI Hq Hws. set (s1 := set_primask 1 s).
  assert (kinv idle s1 Q) as HI1 by (eapply kinv_frame; [..|exact HI]; done).
  assert (quiet s1) as Hq1 by (by apply quiet_masked).
  destruct (wake_error_ok idle s1 Q h w ws (- RT_ERROR) HI1 Hq1 Hh Hws)
    as (V & T & G & r & th & a & Ht & Hst & En & Eu & Er & HI' & HV & Hfr).
  set (s2 := set_threads _ s1) in Eu, Er. set (s3 := core _ _ _ _ _ _) in Er, HI'.
  exists V, T, G, (<[TThread w := timer_flag_clear RT_TIMER_FLAG_ACTIVATED r]> (k_timers s)), th. intros s'.
  assert (set_primask (k_primask s) s3 = s') as Es.
  { unfold s3, s', s2, s1, woken. destruct s. unfold core. simpl. by rewrite insert_insert_eq. }
  split; [|split; [done|split; [done|split; [|split; [done|split; [done|]]]]]].
  - intros fuel. cbn [resume_all_loop].
    rewrite (bind_ok _ _ _ _ _ (isempty_ok s h (w :: ws) (si_links _ _ (ki_sched _ _ _ HI)) Hws)), bool_decide_false by done. rewrite (bind_ok rt_hw_interrupt_disable _ s (k_primask s) s1) by done.
    rewrite (bind_ok _ _ _ _ _ En), (bind_ok (thread_entry (LTlist w)) _ s1 w s1) by done.
    rewrite (bind_ok _ _ _ _ _ Eu), (bind_ok _ _ _ _ _ Er).
    rewrite (bind_ok _ _ s3 tt s'); [done|]. rewrite <-Es. apply interrupt_enable_quiet. by rewrite Es.
  - rewrite <-Es. eapply kinv_frame; [..|exact HI']; done.
  - intros c. assert (kinv idle s2 Q) as HI2 by (by apply (kinv_field idle s1 Q w th)).
    apply (resume_container idle s2 Q w (set_t_error (- RT_ERROR) th) a s3 c HI2 Hq1); [apply lookup_insert_eq|done|exact Er].
Qed.

Lemma resume_all_loop_ok ws : forall s Q fuel,
  kinv idle s Q -> quiet s -> k_links s !! h = Some (LTlist <$> ws) -> NoDup ws -> (length ws < fuel)%nat ->
  exists V T G TH TM,
    let s' := core V T G TH TM s in
    resume_all_loop fuel h s = Ok tt s' /\
    kinv idle s' (wake_queues (prio_in (k_threads s)) ws Q) /\ V !! h = Some [] /\
    (forall h', wait_head h' = true -> h' <> h -> V !! h' = k_links s !! h') /\
    (forall c, V !! LObjHead c = k_links s !! LObjHead c) /\
    (forall t, TH !! t = if decide (t ∈ ws) then woken <$> k_threads s !! t else k_threads s !! t).
Proof.
  induction ws as [|w ws IH]; intros s Q fuel HI Hq Hws Hnd Hf; (destruct fuel as [|fuel]; [simpl in Hf; lia|]).
  { exists (k_links s), (k_ready_table s), (k_ready_group s), (k_threads s), (k_timers s). cbv zeta. rewrite core_id.
    split; [|by repeat (split; [done|])]. cbn [resume_all_loop].
    by rewrite (bind_ok _ _ _ _ _ (isempty_ok s h [] (si_links _ _ (ki_sched _ _ _ HI)) Hws)). }
  destruct (wake_round s Q w ws HI Hq Hws) as (V & T & G & TM & th & E & Ht & Hst & HI1 & HV & Hfr & Hcn).
  set (s1 := core _ _ _ _ _ _) in E, HI1. apply NoDup_cons in Hnd as [Hnw Hnd]. simpl in Hf.
  destruct (IH s1 _ fuel HI1 Hq HV Hnd ltac:(lia)) as (V' & T' & G' & TH & TM' & E' & HI' & HV' & Hfr' & Hcn' & HTH).
  exists V', T', G', TH, TM'. cbv zeta in *. rewrite E. replace (core V' T' G' TH TM' s) with (core V' T' G' TH TM' s1) by apply core_core.
  assert (prio_in (k_threads s) w = t_current_priority th) as Ep by (unfold prio_in; by rewrite Ht).
  split; [done|]. split; [|split; [done|split; [|split]]].
  - simpl. rewrite Ep. erewrite wake_queues_ext; [exact HI'|]. intros v Hv. unfold prio_in. simpl.
    rewrite lookup_insert_ne; [done|]. by intros ->.
  - intros h' Hh' Hne. rewrite Hfr' by done. by apply Hfr.
  - intros c. rewrite Hcn'. apply Hcn.
  - intros t. rewrite HTH. simpl. destruct (decide (t = w)) as [->|Hne].
    + rewrite lookup_insert_eq, Ht. rewrite decide_False by done. rewrite decide_True by set_solver. done.
    + rewrite lookup_insert_ne by done. repeat case_decide; try done; set_solver.
Qed.

Lemma wait_nodup s Q ws : kinv idle s Q -> k_links s !! h = Some (LTlist <$> ws) -> NoDup ws.
Proof using.
  intros HI Hws. pose proof (coherent_nodup _ _ _ (lo_coherent _ (si_links _ _ (ki_sched _ _ _ HI))) Hws) as H.
  by apply NoDup_fmap_1 in H.
Qed.

(** The result of waking all threads [ws] of the list. *)
Lemma resume_all_ok s Q ws :
  kinv idle s Q -> quiet s -> k_links s !! h = Some (LTlist <$> ws) ->
  exists V T G TH TM,
    let s' := core V T G TH TM s in
    rt_ipc_list_resume_all h s = Ok RT_EOK s' /\
    kinv idle s' (wake_queues (prio_in (k_threads s)) ws Q) /\ V !! h = Some [] /\
    (forall h', wait_head h' = true -> h' <> h -> V !! h' = k_links s !! h') /\
    (forall c, V !! LObjHead c = k_links s !! LObjHead c) /\
    (forall t, TH !! t = if decide (t ∈ ws) then woken <$> k_threads s !! t else k_threads s !! t).
Proof.
  intros HI Hq Hws. pose proof (wait_nodup _ _ _ HI Hws) as Hnd.
  destruct (resume_all_loop_ok ws s Q (S (size (k_links s))) HI Hq Hws Hnd) as (V & T & G & TH & TM & E & H).
  { pose proof (coherent_size _ _ _ (lo_coherent _ (si_links _ _ (ki_sched _ _ _ HI))) Hws) as Hs.
    rewrite length_fmap in Hs. lia. }
  exists V, T, G, TH, TM. split; [|exact H]. unfold rt_ipc_list_resume_all.
  rewrite (bind_ok list_fuel _ s (S (size (k_links s))) s) by done. by rewrite (bind_ok _ _ _ _ _ E).
Qed.
End loop.
End WakeAll.
