(* ===== verification/Board.v ===== *)
(** * A concrete board

    Deciding the invariant on concrete states, and a board of five threads and
    a few kernel objects that is booted by the kernel's own code.  The theorems
    of the component files are applied to its states. *)
From S2P Require Import Prelude Kservice RtList KMonad KState KPrim KInv Scheduler Object TimerBase Thread Timer Ipc IpcMsg KernelInv WaitProof TimerProof BlockProof.
Import Scheduler Object TimerBase Thread Timer IpcCore Sem Mutex Event Mailbox MsgQueue.
Local Open Scope Z_scope.
Local Open Scope kmonad_scope.

Module Board.

(** ** Deciding the invariant *)
Fixpoint splits {A} (pre xs : list A) : list (list A * A * list A) :=
  match xs with
  | [] => []
  | x :: xs' => (pre, x, xs') :: splits (pre ++ [x]) xs'
  end.

Lemma elem_of_splits {A} (pre xs P : list A) x B :
  xs = P ++ x :: B -> (pre ++ P, x, B) ∈ splits pre xs.
Proof.
  revert pre xs. induction P as [|p P IH]; intros pre xs ->; simpl.
  - rewrite app_nil_r. set_solver.
  - apply elem_of_cons. right. specialize (IH (pre ++ [p]) (P ++ x :: B) eq_refl).
    by rewrite <-app_assoc in IH.
Qed.

Definition coherent_b (V : vlinks) : bool :=
  forallb (fun '(x, xs) => bool_decide (NoDup (x :: xs)) &&
    forallb (fun '(P, y, B) => bool_decide (V !! y = Some (B ++ P))) (splits [] (x :: xs)))
    (map_to_list V).

Lemma coherent_b_sound V : coherent_b V = true -> coherent V.
Proof.
  unfold coherent_b. rewrite forallb_forall. intros H x xs Hx.
  specialize (H (x, xs)). cbv beta iota in H. rewrite <-list_elem_of_In, elem_of_map_to_list in H.
  specialize (H Hx). apply andb_true_iff in H as [H1 H2]. apply bool_decide_eq_true in H1.
  split; [done|]. intros P y B E. rewrite forallb_forall in H2. specialize (H2 (P, y, B)).
  cbv beta iota in H2. rewrite <-list_elem_of_In in H2. eapply bool_decide_eq_true, H2.
  by apply (elem_of_splits [] (x :: xs) P).
Qed.

Definition typed_b (V : vlinks) : bool :=
  forallb (fun '(h, xs) => negb (is_head h) || forallb (kind_ok h) xs) (map_to_list V).

Lemma typed_b_sound V : typed_b V = true -> typed V.
Proof.
  unfold typed_b. rewrite forallb_forall. intros H h xs x Hh Hxs Hx.
  specialize (H (h, xs)). simpl in H. rewrite <-list_elem_of_In, elem_of_map_to_list in H.
  specialize (H Hxs). rewrite Hh in H. simpl in H. rewrite forallb_forall in H.
  apply H. by apply list_elem_of_In.
Qed.

Definition tlist_of (x : loc) : option nat := match x with LTlist t => Some t | _ => None end.

(** The abstract ready queues of a state. *)
Definition queues_of (s : kview) (p : Z) : list nat :=
  omap tlist_of (default [] (k_links s !! LReady p)).

Definition prios : list Z := seqZ 0 256.

Lemma elem_of_prios p : 0 <= p < 256 -> p ∈ prios.
Proof. intros Hp. apply elem_of_seqZ. lia. Qed.

Definition bitmap_b (table : list Z) (group : Z) (Q : Z -> list nat) : bool :=
  bool_decide (length table = 32%nat) && bool_decide (0 <= group < 2 ^ 32) &&
  forallb (fun n =>
    match table !! n with
    | None => false
    | Some b =>
        bool_decide (0 <= b < 2 ^ 8) &&
        forallb (fun k => bool_decide (Z.testbit b k = bool_decide (Q (8 * Z.of_nat n + k) <> [])))
          (seqZ 0 8) &&
        bool_decide (Z.testbit group (Z.of_nat n) = bool_decide (b <> 0))
    end) (seq 0 32).

Lemma bitmap_b_sound table group Q : bitmap_b table group Q = true -> bitmap_ok table group Q.
Proof.
  unfold bitmap_b. intros [[H1 H2]%andb_true_iff H3]%andb_true_iff.
  apply bool_decide_eq_true in H1, H2.
  assert (forall n b, table !! n = Some b ->
    0 <= b < 2 ^ 8 /\ (forall k, 0 <= k < 8 -> Z.testbit b k = bool_decide (Q (8 * Z.of_nat n + k) <> [])) /\
    Z.testbit group (Z.of_nat n) = bool_decide (b <> 0)) as H.
  { intros n b Hn. rewrite forallb_forall in H3. specialize (H3 n). rewrite Hn in H3.
    rewrite in_seq in H3. apply lookup_lt_Some in Hn as Hlt.
    apply andb_true_iff in H3 as [[Ha Hb]%andb_true_iff Hc]; [|lia].
    apply bool_decide_eq_true in Ha, Hc. split; [done|]. split; [|done].
    intros k Hk. rewrite forallb_forall in Hb. eapply bool_decide_eq_true, Hb.
    apply list_elem_of_In, elem_of_seqZ. lia. }
  split; [done|done|..].
  - intros n b Hn. apply (H _ _ Hn).
  - intros n b k Hn Hk. by apply (H _ _ Hn).
  - intros n b Hn. apply (H _ _ Hn).
Qed.

Definition sched_b (s : kview) : bool :=
  coherent_b (k_links s) && typed_b (k_links s) &&
  forallb (fun p => bool_decide (k_links s !! LReady p = Some (LTlist <$> queues_of s p))) prios &&
  bitmap_b (k_ready_table s) (k_ready_group s) (queues_of s).

Lemma sched_b_sound s : sched_b s = true -> sched_inv s (queues_of s).
Proof.
  unfold sched_b. intros [[[H1 H2]%andb_true_iff H3]%andb_true_iff H4]%andb_true_iff.
  split; [split; [by apply coherent_b_sound|by apply typed_b_sound]| |by apply bitmap_b_sound].
  intros p Hp. rewrite forallb_forall in H3. eapply bool_decide_eq_true, H3.
  by apply list_elem_of_In, elem_of_prios.
Qed.

Definition attr_b (th : rt_thread) : bool :=
  bool_decide (0 <= t_current_priority th < 256) &&
  bool_decide (t_number th = Z.shiftr (t_current_priority th) 3) &&
  bool_decide (t_number_mask th = Z.shiftl 1 (t_number th)) &&
  bool_decide (t_high_mask th = Z.shiftl 1 (Z.land (t_current_priority th) 7)).

Definition stack_b (th : rt_thread) : bool :=
  bool_decide (t_stack_mark th = 35) && bool_decide (u32 (t_stack_addr th) < u32 (t_sp th)) &&
  bool_decide (u32 (t_sp th) <= u32 (t_stack_addr th + t_stack_size th)).

Definition stat_b (TH : gmap nat rt_thread) (t : nat) (st : Z) : bool :=
  match TH !! t with Some th => thread_stat th =? st | None => false end.

Lemma stat_b_sound TH t st : stat_b TH t st = true -> stat_is TH t st.
Proof.
  unfold stat_b, stat_is. destruct (TH !! t) as [th|]; [|done]. intros E%Z.eqb_eq. eauto.
Qed.

Definition is_some_b {A} (o : option A) : bool := match o with Some _ => true | None => false end.

Lemma is_some_b_sound {A} (o : option A) : is_some_b o = true -> is_Some o.
Proof. by destruct o. Qed.

Definition fn_eqb (f g : timeout_fn) : bool :=
  match f, g with
  | Rt_thread_timeout, Rt_thread_timeout => true
  | User_timeout a, User_timeout b => (a =? b)%nat
  | _, _ => false
  end.

Definition thread_b (s : kview) (t : nat) (th : rt_thread) : bool :=
  (thread_stat th =? RT_THREAD_INIT) ||
  attr_b th &&
  (negb (thread_stat th =? RT_THREAD_READY) || bool_decide (t ∈ queues_of s (t_current_priority th))) &&
  is_some_b (k_links s !! LTlist t) && stack_b th &&
  match k_timers s !! TThread t with
  | None => false
  | Some r => fn_eqb (tm_timeout_func r) Rt_thread_timeout && (tm_parameter r =? t)%nat &&
      negb (timer_flag_test RT_TIMER_FLAG_SOFT_TIMER r) && negb (timer_flag_test RT_TIMER_FLAG_PERIODIC r)
  end.

Lemma thread_b_sound s t th :
  thread_b s t th = true -> thread_stat th <> RT_THREAD_INIT ->
  thread_ok (k_links s) (k_timers s) (queues_of s) t th.
Proof.
  unfold thread_b. intros H Hst. apply Z.eqb_neq in Hst. rewrite Hst in H. simpl in H.
  repeat (apply andb_true_iff in H as [H ?]). destruct (k_timers s !! TThread t) as [r|] eqn:Er; [|done].
  unfold attr_b, stack_b in *.
  repeat match goal with
  | H : _ && _ = true |- _ => apply andb_true_iff in H as [? ?]
  | H : bool_decide _ = true |- _ => apply bool_decide_eq_true in H
  end. split; [by split| |by apply is_some_b_sound|done|].
  - intros Hr. apply Z.eqb_eq in Hr. 
    match goal with H : negb _ || _ = true |- _ => rewrite Hr in H; simpl in H; by apply bool_decide_eq_true in H end.
  - exists r. split; [done|]. unfold thread_timer_ok.
    repeat match goal with H : negb _ = true |- _ => apply negb_true_iff in H end.
    destruct (tm_timeout_func r); [|done]. split; [done|].
    match goal with H : (_ =? _)%nat = true |- _ => apply Nat.eqb_eq in H end. done.
Qed.

Definition timer_row (x : loc) : option timer_id :=
  match x with LRow tm 0 => Some tm | _ => None end.

Definition active_b (s : kview) (soft : bool) (tm : timer_id) : bool :=
  match k_timers s !! tm with
  | None => false
  | Some r => timer_flag_test RT_TIMER_FLAG_ACTIVATED r &&
      bool_decide (timer_flag_test RT_TIMER_FLAG_SOFT_TIMER r = soft) &&
      match tm with TThread t => stat_b (k_threads s) t RT_THREAD_SUSPEND | TUser _ => true end
  end.

Definition parts_b (idle : nat) (s : kview) : bool :=
  forallb (fun p => forallb (fun t =>
    match k_threads s !! t with
    | None => false
    | Some th => (thread_stat th =? RT_THREAD_READY) && (t_current_priority th =? p)
    end) (queues_of s p)) prios &&
  forallb (fun '(t, th) => thread_b s t th) (map_to_list (k_threads s)) &&
  stat_b (k_threads s) idle RT_THREAD_READY &&
  forallb (fun '(h, xs) => negb (wait_head h) ||
    forallb (fun t => stat_b (k_threads s) t RT_THREAD_SUSPEND) (omap tlist_of xs))
    (map_to_list (k_links s)) &&
  forallb (fun soft => is_some_b (k_links s !! LTimerHead soft 0)) [false; true] &&
  forallb (fun '(tm, _) => is_some_b (k_links s !! LRow tm 0)) (map_to_list (k_timers s)) &&
  forallb (fun soft => forallb (active_b s soft)
    (omap timer_row (default [] (k_links s !! LTimerHead soft 0)))) [false; true].

Lemma active_b_sound s soft tm :
  active_b s soft tm = true -> active_timer (k_threads s) (k_timers s) soft tm.
Proof.
  unfold active_b, active_timer. destruct (k_timers s !! tm) as [r|]; [|done].
  intros [[H1 H2%bool_decide_eq_true]%andb_true_iff H3]%andb_true_iff. exists r.
  repeat (split; [done|]). intros t ->. by apply stat_b_sound.
Qed.

Lemma parts_b_sound idle s :
  parts_b idle s = true -> kparts idle (k_links s) (k_threads s) (k_timers s) (queues_of s).
Proof.
  unfold parts_b. intros H. apply andb_true_iff in H as [H H0]. apply andb_true_iff in H as [H H3].
  apply andb_true_iff in H as [H H1]. apply andb_true_iff in H as [H H2].
  apply andb_true_iff in H as [H H5]. apply andb_true_iff in H as [H H4].
  rewrite forallb_forall in H, H0, H1, H2, H3, H4. split.
  - intros t p Hp Ht. specialize (H p). rewrite <-list_elem_of_In in H.
    specialize (H (elem_of_prios _ Hp)). rewrite forallb_forall in H. specialize (H t).
    rewrite <-list_elem_of_In in H. specialize (H Ht).
    destruct (k_threads s !! t) as [th|]; [|done]. apply andb_true_iff in H as [E1%Z.eqb_eq E2%Z.eqb_eq]. eauto.
  - intros t th Ht Hst. apply thread_b_sound; [|done].
    apply (H4 (t, th)). by apply list_elem_of_In, elem_of_map_to_list.
  - by apply stat_b_sound.
  - intros h xs t Hh Hxs Hin. specialize (H2 (h, xs)). cbv beta iota in H2.
    rewrite <-list_elem_of_In, elem_of_map_to_list, Hh in H2. specialize (H2 Hxs). simpl in H2.
    rewrite forallb_forall in H2. apply stat_b_sound, H2, list_elem_of_In, list_elem_of_omap.
    by exists (LTlist t).
  - intros soft. apply is_some_b_sound, H1. destruct soft; simpl; auto.
  - intros tm r Hr. apply is_some_b_sound, (H3 (tm, r)). by apply list_elem_of_In, elem_of_map_to_list.
  - intros soft xs tm Hxs Hin. specialize (H0 soft). rewrite Hxs in H0.
    specialize (H0 ltac:(destruct soft; simpl; auto)). rewrite forallb_forall in H0.
    apply active_b_sound, H0, list_elem_of_In, list_elem_of_omap. by exists (LRow tm 0).
Qed.

Lemma kinv_b_sound idle s : sched_b s && parts_b idle s = true -> kinv idle s (queues_of s).
Proof. intros [H1 H2]%andb_true_iff. split; [by apply sched_b_sound|by apply parts_b_sound]. Qed.

(** ** The board *)
Definition idle : nat := 0.
Definition timer_thread : nat := 1.

Definition blank_object : rt_object := Object (replicate 16 0) 0 0.
Definition blank_thread : rt_thread :=
  Thread blank_object 0 0 0 0 0 0 0 0 0 0 0 0 0 0 0 0 0 None 0.
Definition blank_timer : rt_timer := Timer blank_object Rt_thread_timeout 0 0 0.

Definition blank_device : rt_device :=
  Device blank_object 0 0 0 0 None None None None None None None None.

(** Memory before the kernel starts: the static object containers are the only
    initialised lists. *)
Definition reset_state : kview := Kst
  (list_to_map ((fun c => (LObjHead c, [])) <$> rt_object_container))
  (list_to_map ((fun t => (t, blank_thread)) <$> seq 0 6))
  (list_to_map (((fun t => (TThread t, blank_timer)) <$> seq 0 6) ++ [(TUser 0, blank_timer); (TUser 1, blank_timer)]))
  (list_to_map [(0%nat, Semaphore blank_object 0); (1%nat, Semaphore blank_object 0)])
  (list_to_map [(0%nat, Mutex blank_object 0 0 0 None); (1%nat, Mutex blank_object 0 0 0 None)])
  (list_to_map [(0%nat, Event blank_object 0)])
  (list_to_map [(0%nat, Mailbox blank_object 0 [] 0 0 0 0)])
  (list_to_map [(0%nat, MessageQueue blank_object 0 ∅ ∅ 0 0 0 None None None)])
  (list_to_map [(0%nat, Mempool blank_object 0 0 0 0 0 0 0)])
  (list_to_map [(0%nat, blank_device); (1%nat, blank_device)]) (list_to_map [(0%nat, blank_object)]) None
  0 None 0 0 [] 0 1 None 0 0 timer_thread 0.

Definition name_of (c : Z) : list Z := [c; 0].

(** Start thread [t] at priority [prio], its stack in a page of its own. *)
Definition start_thread (t : nat) (prio : Z) : M kview unit :=
  rt_thread_init 77 t (name_of (97 + Z.of_nat t)) 100 0 (0x20000000 + 1024 * Z.of_nat t) 512 prio 10 ;!
  rt_thread_startup t ;! ret tt.

(** The scheduler, the timer lists and thread, the idle thread, four threads of
    priorities 20, 10, 20 and 30, and one object of each kind. *)
Definition boot : M kview unit :=
  rt_system_scheduler_init ;!
  rt_system_timer_init ;!
  rt_system_timer_thread_init 77 100 0x20008000 ;!
  start_thread idle 255 ;!
  start_thread 2 20 ;!
  start_thread 3 10 ;!
  start_thread 4 20 ;!
  start_thread 5 30 ;!
  rt_timer_init (TUser 0) (name_of 120) (User_timeout 0) 0 5 0 ;!
  rt_timer_init (TUser 1) (name_of 121) (User_timeout 1) 0 5 (Z.lor RT_TIMER_FLAG_SOFT_TIMER RT_TIMER_FLAG_PERIODIC) ;!
  rt_sem_init 0 (name_of 115) 0 RT_IPC_FLAG_PRIO ;!
  rt_mutex_init 0 (name_of 109) RT_IPC_FLAG_PRIO ;!
  rt_mutex_init 1 (name_of 110) RT_IPC_FLAG_PRIO ;!
  rt_event_init 0 (name_of 101) RT_IPC_FLAG_FIFO ;!
  rt_mb_init 0 (name_of 98) 0x20000400 [0; 0; 0] 3 RT_IPC_FLAG_FIFO ;!
  rt_mq_init 0 (name_of 113) 0x20000500 (list_to_map ((fun c => (c, replicate 8 0)) <$> seq 0 4)) 8 48 RT_IPC_FLAG_FIFO ;!
  rt_system_scheduler_start ;!
  ret tt.

(** The timer thread runs first; it has nothing to do and suspends itself, and
    thread 3 runs. *)
Definition no_user_timeout (f p : nat) : M kview unit := fail Bad_pointer.

Definition booted : kview :=
  default reset_state (first_state (boot reset_state)).
Definition board : kview :=
  default reset_state (first_state (rt_thread_timer_round no_user_timeout 4 booted)).

Definition returned {A} (r : res kview A) : bool := match r with Ok _ _ => true | _ => false end.
Definition switched_to {A} (r : res kview A) : option (nat * nat) :=
  match r with Switch from to _ _ => Some (from, to) | _ => None end.

(** The boot sequence runs without a fault; then the timer thread hands over to
    thread 3, the one with the highest priority. *)
Lemma board_reached :
  returned (boot reset_state) = true /\
  switched_to (rt_thread_timer_round no_user_timeout 4 booted) = Some (timer_thread, 3%nat).
Proof. split; vm_compute; reflexivity. Qed.

Lemma board_kinv : kinv idle board (queues_of board).
Proof. apply kinv_b_sound. vm_compute. reflexivity. Qed.

Lemma board_running : running idle board 3.
Proof.
  split; [exists (queues_of board); apply board_kinv|].
  split; [split; vm_compute; reflexivity|]. apply stat_b_sound. vm_compute. reflexivity.
Qed.
(** Thread 3 has suspended itself: thread 2 runs, with thread 4 behind it in the
    queue of priority 20. *)
Definition board2 : kview :=
  default reset_state (first_state ((rt_thread_suspend 3 ;! rt_schedule) board)).

Lemma board2_kinv : kinv idle board2 (queues_of board2).
Proof. apply kinv_b_sound. vm_compute. reflexivity. Qed.

Lemma board2_running : running idle board2 2.
Proof.
  split; [exists (queues_of board2); apply board2_kinv|].
  split; [split; vm_compute; reflexivity|]. apply stat_b_sound. vm_compute. reflexivity.
Qed.

(** Thread records are looked up by name. *)
Definition thread_of (s : kview) (t : nat) : rt_thread := default blank_thread (k_threads s !! t).

Lemma thread_of_lookup s t : is_some_b (k_threads s !! t) = true -> k_threads s !! t = Some (thread_of s t).
Proof. unfold thread_of. by destruct (k_threads s !! t). Qed.

Lemma thread_of_inj s t th : k_threads s !! t = Some th -> th = thread_of s t.
Proof. unfold thread_of. by intros ->. Qed.

(** Thread 3 waits for semaphore 0, at most ten ticks; thread 2 runs. *)
Definition waiting3 : kview := default reset_state (first_state (rt_sem_take 0 10 board)).

Lemma waiting3_kinv : kinv idle waiting3 (queues_of waiting3).
Proof. apply kinv_b_sound. vm_compute. reflexivity. Qed.

Lemma waiting3_running : running idle waiting3 2.
Proof.
  split; [exists (queues_of waiting3); apply waiting3_kinv|].
  split; [split; vm_compute; reflexivity|]. apply stat_b_sound. vm_compute. reflexivity.
Qed.

(** Deciding which priority is the highest with a ready thread. *)
Definition highest_b (Q : Z -> list nat) (p : Z) : bool :=
  bool_decide (0 <= p < 256) && bool_decide (Q p <> []) &&
  forallb (fun p' => bool_decide (Q p' = [])) (seqZ 0 p).

Lemma highest_b_sound Q p : highest_b Q p = true -> is_highest Q p.
Proof.
  unfold highest_b. intros [[H1%bool_decide_eq_true H2%bool_decide_eq_true]%andb_true_iff H3]%andb_true_iff.
  split; [done|]. split; [done|]. intros p' Hp'. rewrite forallb_forall in H3.
  eapply bool_decide_eq_true, H3. apply list_elem_of_In, elem_of_seqZ. lia.
Qed.

#[global] Opaque board booted board2 waiting3.
End Board.
