(* ===== verification/SchedTheorems.v ===== *)
(** * Scheduling: the theorems about [scheduler.c] and [thread.c]

    Stated over the kernel invariant [kinv] and the abstract ready queues;
    each is followed by its application to the booted board. *)
From S2P Require Import Prelude Kservice RtList KMonad KState KPrim KInv Scheduler Object TimerBase Thread Timer Ipc KernelInv ThreadProof WaitProof TimerProof BlockProof Board.
Import Scheduler Object TimerBase Thread Timer IpcCore.
Local Open Scope Z_scope.
Local Open Scope kmonad_scope.

Module SchedTheorems.

(** ** Facts about the board the examples share *)
Lemma board_quiet : quiet Board.board.
Proof. eapply ctx_quiet. apply Board.board_running. Qed.

Lemma kinv_set_current c s :
  kinv Board.idle s (Board.queues_of s) ->
  kinv Board.idle (set_current c s) (Board.queues_of (set_current c s)).
Proof. intros [H1 H2]. split; [|done]. destruct H1. by split. Qed.

Lemma quiet_set_current c (s : kview) : quiet s -> quiet (set_current c s).
Proof. done. Qed.

(** ** [rt_schedule] *)

(** C1: [rt_schedule] runs the highest priority.  With the scheduler locked it
    does nothing.  Otherwise the thread it chooses is the first of the
    highest-priority non-empty ready queue: if that thread runs already nothing
    changes, in a thread the processor switches to it at once, and in an
    interrupt handler the switch is left pending; the invariant is kept. *)
Theorem schedule_runs_highest idle s Q from :
  kinv idle s Q -> quiet s -> k_current s = Some from ->
  (k_lock_nest s <> 0 -> rt_schedule s = Ok tt s) /\
  (k_lock_nest s = 0 -> exists p to q, is_highest Q p /\ Q p = to :: q /\
     rt_schedule s = reschedule p to from s /\ kinv idle (switched p to s) Q).
Proof.
  intros HI Hq Hc. split; [by apply rt_schedule_locked|]. intros Hl.
  destruct (kinv_schedule idle s Q from HI Hq Hl Hc) as (p & to & q & Hp & HQ & E).
  exists p, to, q. split; [done|]. split; [done|]. split; [done|]. by eapply kinv_frame; [..|exact HI].
Qed.

(** Thread 2 (priority 20) runs while thread 3 (priority 10) is ready. *)
Example schedule_runs_highest_witness :
  let s := set_current (Some 2%nat) Board.board in
  exists p to q, is_highest (Board.queues_of s) p /\ Board.queues_of s p = to :: q /\
    rt_schedule s = reschedule p to 2 s /\ kinv Board.idle (switched p to s) (Board.queues_of s).
Proof.
  apply (schedule_runs_highest Board.idle).
  - apply kinv_set_current, Board.board_kinv.
  - apply quiet_set_current, board_quiet.
  - reflexivity.
  - vm_compute. reflexivity.
Defined.

(** C18: the ready queues.  [rt_schedule_insert_thread] refines appending to the
    queue of the thread's priority: the thread is the last of that queue, its
    status is ready, both levels of the priority bitmap agree with the queues,
    and no other list of the kernel changes.  [rt_schedule_remove_thread] refines
    deleting the thread from the queue of its priority: the order of the others
    is kept, and the bits of the bitmap are cleared exactly when a queue or a
    group of eight runs empty. *)
Theorem ready_queues_refine s Q t th :
  sched_inv s Q -> quiet s -> k_threads s !! t = Some th -> attr_ok th ->
  let p := t_current_priority th in
  (k_links s !! LTlist t = Some [] -> exists V T G,
    let s' := sched_upd V T G (set_threads (<[t := make_ready th]> (k_threads s)) s) in
    rt_schedule_insert_thread t s = Ok tt s' /\
    sched_inv s' (q_set Q p (Q p ++ [t])) /\
    (forall h, is_head h = true -> h <> LReady p -> V !! h = k_links s !! h)) /\
  (forall ns, k_links s !! LTlist t = Some ns ->
    (forall p', 0 <= p' < 256 -> p' <> p -> t ∉ Q p') -> exists V T G,
    let s' := sched_upd V T G s in
    rt_schedule_remove_thread t s = Ok tt s' /\
    sched_inv s' (q_set Q p (drop_node t (Q p)))).
Proof.
  intros HI Hq Ht Ha p. split.
  - intros Hl. destruct (insert_thread_ok s Q t th HI Hq Ht Ha Hl) as (V & T & G & E & HS & Hch).
    exists V, T, G. split; [done|]. split; [done|]. intros h Hh Hne. apply (ch_heads _ _ _ _ Hch); set_solver.
  - intros ns Hl Ho. destruct (remove_thread_ok s Q t th ns HI Hq Ht Ha Hl Ho) as (V & T & G & E & _ & HS).
    exists V, T, G. by split.
Qed.

(** The timer thread (priority 4), suspended on the board, is made ready; thread
    4 leaves the queue of priority 20, and thread 2 stays in it. *)
Example ready_queues_refine_witness :
  (exists s', rt_schedule_insert_thread 1 Board.board = Ok tt s' /\
    sched_inv s' (q_set (Board.queues_of Board.board) 4 [1%nat])) /\
  (exists s', rt_schedule_remove_thread 4 Board.board = Ok tt s' /\
    sched_inv s' (q_set (Board.queues_of Board.board) 20 [2%nat])).
Proof.
  split.
  - destruct (ready_queues_refine Board.board (Board.queues_of Board.board) 1 (Board.thread_of Board.board 1)
      (ki_sched _ _ _ Board.board_kinv) board_quiet
      (Board.thread_of_lookup Board.board 1 ltac:(vm_compute; reflexivity)) ltac:(split; vm_compute; done)) as [H _].
    destruct H as (V & T & G & E & HS & _); [vm_compute; reflexivity|].
    eexists. split; [exact E|]. revert HS.
    replace (t_current_priority (Board.thread_of Board.board 1)) with 4 by (vm_compute; reflexivity).
    replace (Board.queues_of Board.board 4) with (@nil nat) by (vm_compute; reflexivity).
    intros HS. exact HS.
  - destruct (ready_queues_refine Board.board (Board.queues_of Board.board) 4 (Board.thread_of Board.board 4)
      (ki_sched _ _ _ Board.board_kinv) board_quiet
      (Board.thread_of_lookup Board.board 4 ltac:(vm_compute; reflexivity)) ltac:(split; vm_compute; done)) as [_ H].
    destruct (H (default [] (k_links Board.board !! LTlist 4))) as (V & T & G & E & HS).
    + vm_compute. reflexivity.
    + intros p Hp Hne Hin.
      destruct (kp_ready _ _ _ _ _ (ki_parts _ _ _ Board.board_kinv) _ _ Hp Hin) as (x & Hx & _ & Hpx).
      apply Hne. by rewrite <-(Board.thread_of_inj _ _ _ Hx).
    + eexists. split; [exact E|]. revert HS.
      replace (t_current_priority (Board.thread_of Board.board 4)) with 20 by (vm_compute; reflexivity).
      replace (drop_node 4%nat (Board.queues_of Board.board 20)) with [2%nat] by (vm_compute; reflexivity).
      intros HS. exact HS.
Defined.

(** ** Critical sections *)
Fixpoint repeat_call (n : nat) (m : M kview unit) : M kview unit :=
  match n with O => ret tt | S n => m ;! repeat_call n m end.

Lemma set_lock_nest_twice (s : kview) a b : set_lock_nest a (set_lock_nest b s) = set_lock_nest a s.
Proof. by destruct s. Qed.

Lemma enter_critical_eq (s : kview) :
  quiet s -> rt_enter_critical s = Ok tt (set_lock_nest (i16 (k_lock_nest s + 1)) s).
Proof.
  intros Hq. unfold rt_enter_critical, rt_hw_interrupt_disable, bind, gets, modify, ret. simpl.
  rewrite interrupt_enable_quiet by (unfold quiet; done). by destruct s.
Qed.

Lemma exit_critical_eq (s : kview) :
  quiet s ->
  rt_exit_critical s =
    let n := i16 (k_lock_nest s - 1) in
    if n <=? 0 then rt_schedule (set_lock_nest 0 s) else Ok tt (set_lock_nest n s).
Proof.
  intros Hq. unfold rt_exit_critical, rt_hw_interrupt_disable, bind, gets, modify, ret. simpl.
  destruct (_ <=? 0); simpl; rewrite interrupt_enable_quiet by (unfold quiet; done); simpl;
    by destruct s.
Qed.

Lemma repeat_enter n (s : kview) :
  quiet s -> k_lock_nest s = i16 (k_lock_nest s) ->
  repeat_call n rt_enter_critical s = Ok tt (set_lock_nest (i16 (k_lock_nest s + Z.of_nat n)) s).
Proof.
  revert s. induction n as [|n IH]; intros s Hq Hr.
  - simpl. unfold ret. rewrite Z.add_0_r, <-Hr. by destruct s.
  - simpl repeat_call. rewrite (bind_ok _ _ _ _ _ (enter_critical_eq s Hq)).
    rewrite IH; [|done|simpl; pose proof (i16_add (k_lock_nest s + 1) 0) as E0; by rewrite !Z.add_0_r in E0].
    rewrite set_lock_nest_twice. simpl k_lock_nest. rewrite i16_add. do 3 f_equal. lia.
Qed.

(** [n] exits from a nesting of [n]: only the last one reschedules. *)
Lemma repeat_exit n (s : kview) :
  quiet s -> (0 < n)%nat -> Z.of_nat n <= 32768 -> k_lock_nest s = i16 (Z.of_nat n) ->
  repeat_call n rt_exit_critical s = (rt_schedule ;! ret tt) (set_lock_nest 0 s).
Proof.
  revert s. induction n as [|n IH]; intros s Hq Hn Hb Hl; [lia|]. simpl repeat_call.
  assert (i16 (k_lock_nest s - 1) = Z.of_nat n) as E.
  { rewrite Hl. replace (i16 (Z.of_nat (S n)) - 1) with (i16 (Z.of_nat (S n)) + -1) by lia.
    rewrite i16_add. rewrite i16_small; lia. }
  unfold bind at 1. rewrite exit_critical_eq by done. rewrite E. cbv zeta.
  destruct n as [|n].
  - simpl. done.
  - rewrite (proj2 (Z.leb_gt _ _)) by lia. cbv beta iota delta [res_bind].
    rewrite IH; [|done|lia|lia|simpl; by rewrite i16_small by lia].
    by rewrite set_lock_nest_twice.
Qed.

(** Critical sections nest.  Up to 32768 calls of [rt_enter_critical]
    followed by as many of [rt_exit_critical] behave as one [rt_schedule]: the
    scheduler stays locked until the outermost exit, and then the scheduling
    that was held back is done. *)
Theorem critical_sections_nest n (s : kview) :
  quiet s -> k_lock_nest s = 0 -> 0 < Z.of_nat n <= 32768 ->
  (repeat_call n rt_enter_critical ;! repeat_call n rt_exit_critical) s =
  (rt_schedule ;! ret tt) s.
Proof.
  intros Hq Hl Hn.
  rewrite (bind_ok _ _ _ _ _ (repeat_enter n s Hq ltac:(by rewrite Hl))). rewrite Hl.
  rewrite repeat_exit; [|done|lia|lia|done]. rewrite set_lock_nest_twice.
  f_equal. rewrite <-Hl. by destruct s.
Qed.

Example critical_sections_nest_witness :
  (repeat_call 2 rt_enter_critical ;! repeat_call 2 rt_exit_critical) Board.board =
  (rt_schedule ;! ret tt) Board.board.
Proof.
  apply critical_sections_nest; [apply board_quiet|vm_compute; reflexivity|lia].
Defined.

(** The nesting counter is signed.  After 32769 calls of
    [rt_enter_critical] a single [rt_exit_critical] unlocks the scheduler and
    reschedules, with 32768 critical sections still open, although the comment
    of the function allows a nesting up to [RT_UINT16_MAX]. *)
Theorem critical_nesting_overflows (s : kview) n :
  quiet s -> k_lock_nest s = 0 -> 32769 <= Z.of_nat n <= 65535 ->
  (repeat_call n rt_enter_critical ;! rt_exit_critical) s = rt_schedule s.
Proof.
  intros Hq Hl Hn.
  rewrite (bind_ok _ _ _ _ _ (repeat_enter n s Hq ltac:(by rewrite Hl))). rewrite Hl.
  assert (i16 (0 + Z.of_nat n) = Z.of_nat n - 65536) as E.
  { replace (0 + Z.of_nat n) with (Z.of_nat n - 65536 + 65536 * 1) by lia.
    rewrite i16_mod, i16_small; lia. }
  rewrite E, exit_critical_eq by done. simpl k_lock_nest. cbv zeta.
  rewrite i16_small by lia. rewrite (proj2 (Z.leb_le _ _)) by lia.
  rewrite set_lock_nest_twice. f_equal. rewrite <-Hl. by destruct s.
Qed.

Example critical_nesting_overflows_witness :
  (repeat_call (Z.to_nat 32769) rt_enter_critical ;! rt_exit_critical) Board.board =
  rt_schedule Board.board.
Proof.
  apply critical_nesting_overflows; [apply board_quiet|vm_compute; reflexivity|lia].
Defined.
End SchedTheorems.
