(* ===== verification/ThreadTheorems.v ===== *)
(** * Threads: the theorems about [thread.c] and the waiting lists of [ipc.c]

    Round robin, suspending and resuming, changing a priority, and the order in
    which threads wait. *)
From S2P Require Import Prelude Kservice RtList KMonad KState KPrim KInv Scheduler Object TimerBase Thread Timer Ipc KernelInv ThreadProof WaitProof TimerProof BlockProof Board SchedTheorems.
Import Scheduler Object TimerBase Thread Timer IpcCore SchedTheorems.
Local Open Scope Z_scope.
Local Open Scope kmonad_scope.

Module ThreadTheorems.

Lemma is_highest_unique Q p p' : is_highest Q p -> is_highest Q p' -> p = p'.
Proof.
  intros (H1 & H2 & H3) (H1' & H2' & H3').
  destruct (Z.lt_trichotomy p p') as [Hlt|[->|Hlt]]; [|done|].
  - by rewrite H3' in H2 by lia.
  - by rewrite H3 in H2' by lia.
Qed.

(** The queue a thread leaves or joins decides who is highest afterwards. *)
Lemma is_highest_set Q p q : is_highest Q p -> q <> [] -> is_highest (q_set Q p q) p.
Proof.
  intros (H1 & H2 & H3) Hq. split; [done|]. unfold q_set. rewrite decide_True by done.
  split; [done|]. intros p' Hp'. rewrite decide_False by lia. by apply H3.
Qed.

(** [rt_thread_yield] is round robin.  When the running thread is the only
    one of its priority the call changes nothing; otherwise the thread goes to
    the end of its queue, the processor switches to the next thread of the same
    priority, and the call returns [RT_EOK] when the thread is scheduled again. *)
Theorem yield_round_robin idle s Q t th q :
  kinv idle s Q -> thread_ctx s t -> k_threads s !! t = Some th ->
  thread_stat th = RT_THREAD_READY ->
  is_highest Q (t_current_priority th) -> Q (t_current_priority th) = t :: q ->
  match q with
  | [] => rt_thread_yield s = Ok RT_EOK s
  | next :: rest => exists V,
      let p := t_current_priority th in
      let s' := switched p next (set_links V s) in
      rt_thread_yield s = Switch t next s' (fun s'' => Ok RT_EOK s'') /\
      kinv idle s' (q_set Q p (next :: rest ++ [t]))
  end.
Proof.
  intros HI Hctx Ht Hst Hp HQ. pose proof (ctx_quiet _ _ Hctx) as Hq.
  pose proof Hctx as [Hpm Hin Hpv Hl Hc]. destruct q as [|next rest].
  { by eapply yield_alone_eq. }
  destruct (yield_rotates_eq idle s Q t th [] (next :: rest) HI Hq Hc Ht Hst HQ) as (V & E & HI'); [done|].
  exists V. intros p s'. fold p in HI', HQ, Hp. simpl app in HI'.
  destruct (kinv_schedule idle _ _ t HI') as (p' & to & q' & Hp' & HQ' & Es); [done|done|done|].
  assert (p' = p) as ->.
  { eapply is_highest_unique; [exact Hp'|]. by apply is_highest_set. }
  unfold q_set in HQ'. rewrite decide_True in HQ' by done. injection HQ' as <- <-.
  split; [|by eapply kinv_frame; [..|exact HI']].
  assert (next <> t) as Hne.
  { intros ->. pose proof (si_queue _ _ (ki_sched _ _ _ HI) p ltac:(apply Hp)) as Hqu.
    rewrite HQ in Hqu. apply (coherent_nodup _ _ _ (lo_coherent _ (si_links _ _ (ki_sched _ _ _ HI)))) in Hqu.
    simpl in Hqu. apply NoDup_cons in Hqu as [Hn _]. set_solver. }
  rewrite E. unfold bind. rewrite Es. unfold reschedule. rewrite decide_False by done.
  simpl. rewrite Hpm, Hin. done.
Qed.

(** Thread 2 yields to thread 4. *)
Example yield_round_robin_witness :
  exists V, let s' := switched 20 4 (set_links V Board.board2) in
    rt_thread_yield Board.board2 = Switch 2 4 s' (fun s'' => Ok RT_EOK s'') /\
    kinv Board.idle s' (q_set (Board.queues_of Board.board2) 20 [4%nat; 2%nat]).
Proof.
  pose proof (yield_round_robin Board.idle Board.board2 (Board.queues_of Board.board2) 2
    (Board.thread_of Board.board2 2) [4%nat]) as H.
  replace (t_current_priority (Board.thread_of Board.board2 2)) with 20 in H
    by (vm_compute; reflexivity). apply H.
  - apply Board.board2_kinv.
  - apply Board.board2_running.
  - apply Board.thread_of_lookup. vm_compute. reflexivity.
  - vm_compute. reflexivity.
  - apply Board.highest_b_sound. vm_compute. reflexivity.
  - vm_compute. reflexivity.
Defined.

(** Suspending and resuming.  A ready thread that is suspended leaves its
    ready queue; suspending it again is refused with [-RT_ERROR] and changes
    nothing, as is resuming a thread that is ready.  Resuming it makes it
    ready at the end of the queue of its priority. *)
Theorem suspend_resume_roundtrip idle s Q t th :
  kinv idle s Q -> quiet s -> k_threads s !! t = Some th ->
  thread_stat th = RT_THREAD_READY -> t <> idle ->
  exists s1 s2 Q2, let p := t_current_priority th in
    rt_thread_suspend t s = Ok RT_EOK s1 /\
    kinv idle s1 (q_set Q p (drop_node t (Q p))) /\ stat_is (k_threads s1) t RT_THREAD_SUSPEND /\
    rt_thread_suspend t s1 = Ok (- RT_ERROR) s1 /\
    rt_thread_resume t s = Ok (- RT_ERROR) s /\
    rt_thread_resume t s1 = Ok RT_EOK s2 /\
    kinv idle s2 Q2 /\ stat_is (k_threads s2) t RT_THREAD_READY /\
    Q2 p = drop_node t (Q p) ++ [t] /\ (forall p', p' <> p -> Q2 p' = Q p').
Proof.
  intros HI Hq Ht Hst Hid.
  destruct (suspend_ok idle s Q t th HI Hq Ht Hst Hid) as (V & T & G & r & E & HI1 & Hr & HV & _).
  set (s1 := core _ _ _ _ _ _) in E, HI1.
  assert (k_threads s1 !! t = Some (make_suspended th)) as Ht1 by apply lookup_insert_eq.
  destruct (resume_ok idle s1 _ t (make_suspended th) HI1 Hq Ht1 (stat_suspended th))
    as (V2 & T2 & G2 & r2 & E2 & HI2 & _).
  set (s2 := core _ _ _ _ _ _) in E2, HI2. eexists s1, s2, _. intros p.
  split; [exact E|]. split; [exact HI1|]. split; [eexists; split; [exact Ht1|apply stat_suspended]|].
  split; [|split; [|split; [exact E2|split; [exact HI2|split]]]].
  - unfold rt_thread_suspend, get_thread, bind, gets. simpl. rewrite lookup_insert_eq. simpl.
    by rewrite stat_suspended.
  - unfold rt_thread_resume, get_thread, bind, gets. simpl. rewrite Ht. simpl. by rewrite Hst.
  - eexists. split; [apply lookup_insert_eq|apply stat_ready].
  - change (t_current_priority (make_suspended th)) with p. unfold q_set. split.
    + by rewrite !decide_True.
    + intros p' Hp'. by rewrite !decide_False.
Qed.

(** Thread 2 is suspended and resumed: it is now behind thread 4. *)
Example suspend_resume_roundtrip_witness :
  exists s1 s2 Q2, rt_thread_suspend 2 Board.board = Ok RT_EOK s1 /\
    rt_thread_resume 2 s1 = Ok RT_EOK s2 /\ kinv Board.idle s2 Q2 /\ Q2 20 = [4%nat; 2%nat].
Proof.
  destruct (suspend_resume_roundtrip Board.idle Board.board (Board.queues_of Board.board) 2
    (Board.thread_of Board.board 2)) as (s1 & s2 & Q2 & H).
  - apply Board.board_kinv.
  - apply board_quiet.
  - apply Board.thread_of_lookup. vm_compute. reflexivity.
  - vm_compute. reflexivity.
  - discriminate.
  - revert H. cbv zeta. replace (t_current_priority (Board.thread_of Board.board 2)) with 20 by (vm_compute; reflexivity).
    assert (drop_node 2%nat (Board.queues_of Board.board 20) = [4%nat]) as -> by (vm_compute; reflexivity).
    intros (H1 & _ & _ & _ & _ & H2 & H3 & _ & H4 & _). exists s1, s2, Q2. auto.
Defined.

(** Changing a priority.  [rt_thread_control] with
    [RT_THREAD_CTRL_CHANGE_PRIORITY] gives the thread the new priority and the
    bitmap masks of it; a ready thread moves to the end of the new priority's
    queue, a suspended one stays on the list it waits on, and no list but the
    ready queues changes. *)
Theorem change_priority_moves idle s Q t th prio :
  kinv idle s Q -> quiet s -> k_threads s !! t = Some th -> thread_stat th <> RT_THREAD_INIT ->
  0 <= prio < 256 ->
  exists s' th' Q',
    rt_thread_control t RT_THREAD_CTRL_CHANGE_PRIORITY prio s = Ok RT_EOK s' /\
    kinv idle s' Q' /\ k_threads s' !! t = Some th' /\ attr_ok th' /\
    t_current_priority th' = prio /\ thread_stat th' = thread_stat th /\
    (forall u, u <> t -> k_threads s' !! u = k_threads s !! u) /\
    (thread_stat th = RT_THREAD_READY ->
      Q' = q_set (q_set Q (t_current_priority th) (drop_node t (Q (t_current_priority th)))) prio
             (q_set Q (t_current_priority th) (drop_node t (Q (t_current_priority th))) prio ++ [t])) /\
    (thread_stat th <> RT_THREAD_READY -> Q' = Q) /\
    (forall h, is_head h = true -> (forall p, h <> LReady p) -> k_links s' !! h = k_links s !! h).
Proof.
  intros HI Hq Ht Hni Hp.
  destruct (change_priority_ok idle s Q t th prio HI Hq Ht Hni Hp)
    as (V & T & G & th' & Q' & E & HI' & Hpr & Hst & _ & EQ & Hh & _).
  eexists _, th', Q'. split; [exact E|]. split; [exact HI'|]. split; [apply lookup_insert_eq|].
  split; [|split; [done|split; [done|split; [|split; [|split; [|exact Hh]]]]]].
  - apply (kinv_thread _ _ _ t _ HI'); [apply lookup_insert_eq|by rewrite Hst].
  - intros u Hu. simpl. by rewrite lookup_insert_ne.
  - intros Hr. rewrite decide_True in EQ by done. exact EQ.
  - intros Hr. rewrite decide_False in EQ by done. exact EQ.
Qed.

(** Thread 5 (priority 30) joins the queue of priority 20. *)
Example change_priority_moves_witness :
  exists s' Q', rt_thread_control 5 RT_THREAD_CTRL_CHANGE_PRIORITY 20 Board.board = Ok RT_EOK s' /\
    kinv Board.idle s' Q' /\ Q' 20 = [2%nat; 4%nat; 5%nat] /\ Q' 30 = [].
Proof.
  destruct (change_priority_moves Board.idle Board.board (Board.queues_of Board.board) 5
    (Board.thread_of Board.board 5) 20) as (s' & th' & Q' & E & HI & _ & _ & _ & _ & _ & EQ & _).
  - apply Board.board_kinv.
  - apply board_quiet.
  - apply Board.thread_of_lookup. vm_compute. reflexivity.
  - vm_compute. discriminate.
  - lia.
  - exists s', Q'. split; [exact E|]. split; [exact HI|].
    rewrite EQ by (vm_compute; reflexivity). split; vm_compute; reflexivity.
Defined.

(** ** Waiting lists *)

(** The order in which threads wait.  [rt_ipc_list_suspend] takes the
    running thread off its ready queue and links it into the waiting list: at
    the end with [RT_IPC_FLAG_FIFO]; with [RT_IPC_FLAG_PRIO] behind every
    thread of the same or a higher priority and in front of the first thread of
    a lower one, so a list in priority order stays in priority order and equal
    priorities are served first come first served. *)
Theorem wait_list_order idle s Q h ws t th flag :
  kinv idle s Q -> quiet s -> wait_head h = true -> k_links s !! h = Some (LTlist <$> ws) ->
  k_threads s !! t = Some th -> thread_stat th = RT_THREAD_READY -> t <> idle ->
  (flag = RT_IPC_FLAG_FIFO \/ flag = RT_IPC_FLAG_PRIO) ->
  let prio := prio_in (k_threads s) in
  exists s' A B,
    rt_ipc_list_suspend h t flag s = Ok RT_EOK s' /\
    kinv idle s' (q_set Q (prio t) (drop_node t (Q (prio t)))) /\
    stat_is (k_threads s') t RT_THREAD_SUSPEND /\
    k_links s' !! h = Some (LTlist <$> A ++ t :: B) /\ ws = A ++ B /\
    (flag = RT_IPC_FLAG_FIFO -> B = []) /\
    (flag = RT_IPC_FLAG_PRIO ->
      Forall (fun a => prio a <= prio t) A /\
      match B with [] => True | b :: _ => prio t < prio b end /\
      (StronglySorted (fun a b => prio a <= prio b) ws ->
       StronglySorted (fun a b => prio a <= prio b) (A ++ t :: B))).
Proof.
  intros HI Hq Hh Hws Ht Hst Hid Hf prio.
  destruct (ipc_suspend_ok idle s Q h ws t th flag HI Hq Hh Hws Ht Hst Hid Hf)
    as (V & T & G & r & E & HI' & _ & HV & _).
  assert (prio t = t_current_priority th) as Ep by (unfold prio, prio_in; by rewrite Ht).
  rewrite <-Ep in HI'. unfold wait_insert in HV. destruct Hf as [-> | ->].
  - eexists _, ws, []. split; [exact E|]. split; [exact HI'|].
    split; [eexists; split; [apply lookup_insert_eq|apply stat_suspended]|].
    split; [exact HV|]. split; [by rewrite app_nil_r|]. done.
  - destruct (prio_insert_split prio t ws) as (A & B & Ews & Eins & HA & HB).
    eexists _, A, B. split; [exact E|]. split; [exact HI'|].
    split; [eexists; split; [apply lookup_insert_eq|apply stat_suspended]|].
    split; [rewrite <-Eins; exact HV|]. split; [done|]. split; [done|]. intros _.
    split; [done|]. split; [done|]. rewrite <-Eins. apply prio_insert_sorted.
Qed.

(** Thread 3 waits on the empty list of semaphore 0. *)
Example wait_list_order_witness :
  exists s', rt_ipc_list_suspend (LSuspend (ISem 0)) 3 RT_IPC_FLAG_PRIO Board.board = Ok RT_EOK s' /\
    stat_is (k_threads s') 3 RT_THREAD_SUSPEND /\
    k_links s' !! LSuspend (ISem 0) = Some [LTlist 3].
Proof.
  destruct (wait_list_order Board.idle Board.board (Board.queues_of Board.board) (LSuspend (ISem 0)) []
    3 (Board.thread_of Board.board 3) RT_IPC_FLAG_PRIO) as (s' & A & B & E & _ & Hs & HV & HAB & _).
  - apply Board.board_kinv.
  - apply board_quiet.
  - reflexivity.
  - vm_compute. reflexivity.
  - apply Board.thread_of_lookup. vm_compute. reflexivity.
  - vm_compute. reflexivity.
  - discriminate.
  - right. reflexivity.
  - exists s'. destruct A, B; try discriminate HAB. auto.
Defined.

(** [rt_ipc_list_resume] wakes the first waiter: it becomes ready at the
    end of the queue of its priority, its timer is off, the others keep waiting
    in their order, and no other waiting list changes. *)
Theorem wait_list_wakes_first idle s Q h t ws :
  kinv idle s Q -> quiet s -> wait_head h = true -> k_links s !! h = Some (LTlist <$> t :: ws) ->
  let p := prio_in (k_threads s) t in
  exists s' r,
    rt_ipc_list_resume h s = Ok RT_EOK s' /\
    kinv idle s' (q_set Q p (Q p ++ [t])) /\ stat_is (k_threads s') t RT_THREAD_READY /\
    k_timers s' !! TThread t = Some r /\ timer_flag_test RT_TIMER_FLAG_ACTIVATED r = false /\
    k_links s' !! h = Some (LTlist <$> ws) /\
    (forall h', wait_head h' = true -> h' <> h -> k_links s' !! h' = k_links s !! h').
Proof.
  intros HI Hq Hh Hws p.
  destruct (ipc_resume_ok idle s Q h t ws HI Hq Hh Hws)
    as (V & T & G & r & th & E & HI' & Ht & _ & _ & HV & Hother).
  assert (p = t_current_priority th) as Ep by (unfold p, prio_in; by rewrite Ht).
  rewrite <-Ep in HI'. eexists _, _. split; [exact E|]. split; [exact HI'|].
  split; [eexists; split; [apply lookup_insert_eq|apply stat_ready]|].
  split; [apply lookup_insert_eq|]. split; [by apply flag_clear_test|]. auto.
Qed.

(** Semaphore 0 after thread 3 went to wait for it. *)
Example wait_list_wakes_first_witness :
  exists s', rt_ipc_list_resume (LSuspend (ISem 0)) Board.waiting3 = Ok RT_EOK s' /\
    stat_is (k_threads s') 3 RT_THREAD_READY /\ k_links s' !! LSuspend (ISem 0) = Some [].
Proof.
  destruct (wait_list_wakes_first Board.idle Board.waiting3 (Board.queues_of Board.waiting3)
    (LSuspend (ISem 0)) 3 []) as (s' & r & E & _ & Hs & _ & _ & HV & _).
  - apply Board.waiting3_kinv.
  - eapply ctx_quiet. apply Board.waiting3_running.
  - reflexivity.
  - vm_compute. reflexivity.
  - exists s'. auto.
Defined.

(** ** Sleeping *)

(** [rt_thread_sleep] (and [rt_thread_delay]).  The running thread is
    suspended with its timer due in exactly the given number of ticks, the
    processor goes to the highest ready thread, and when the thread runs again
    the call returns [RT_EOK]; the error number left by the timeout is cleared. *)
Theorem sleep_suspends idle s Q t th tick :
  kinv idle s Q -> thread_ctx s t -> k_threads s !! t = Some th ->
  thread_stat th = RT_THREAD_READY -> t <> idle -> 0 <= tick < half_tick ->
  exists to s' k r,
    rt_thread_sleep tick s = Switch t to s' k /\ running idle s' to /\
    stat_is (k_threads s') t RT_THREAD_SUSPEND /\
    k_timers s' !! TThread t = Some r /\ timer_flag_test RT_TIMER_FLAG_ACTIVATED r = true /\
    tm_timeout_tick r = u32 (k_tick s + tick) /\
    (forall s2 th2, k_threads s2 !! t = Some th2 ->
       k s2 = Ok RT_EOK (if t_error th2 =? - RT_ETIMEOUT
         then set_threads (<[t := set_t_error RT_EOK th2]> (k_threads s2)) s2 else s2)).
Proof.
  intros HI Hctx Ht Hst Hid Htick. pose proof Hctx as [C1 C2 C3 C4 C5].
  assert (kinv idle (set_primask 1 s) Q) as HI0 by (eapply kinv_frame; [..|exact HI]; done).
  destruct (suspend_ok idle (set_primask 1 s) Q t th HI0) as (V & T & G & r & E1 & HI1 & Hr & _);
    [by apply quiet_masked|done|done|done|].
  set (s1 := core _ _ _ _ _ _) in E1, HI1.
  destruct (arm_timer_ok idle s1 _ t (make_suspended th) (timer_flag_clear RT_TIMER_FLAG_ACTIVATED r) tick HI1)
    as (s2 & V2 & E2 & E3 & HI3 & _);
    [by apply quiet_masked|apply lookup_insert_eq|apply stat_suspended|apply lookup_insert_eq|by apply flag_clear_test|done|].
  set (s3 := core _ _ _ _ _ _) in E3, HI3. set (s4 := set_primask 0 s3).
  assert (exists Q4, kinv idle s4 Q4) as [Q4 HI4] by (eexists; eapply kinv_frame; [..|exact HI3]; done).
  destruct (schedule_away idle s4 Q4 t (make_suspended th) HI4) as (p & to & q & _ & _ & _ & E4 & [HG _]).
  { by split. } { apply lookup_insert_eq. } { by rewrite stat_suspended. }
  eexists to, (switched p to s4), _, _. split; [|split; [exact HG|]].
  - unfold rt_thread_sleep, rt_hw_interrupt_disable, rt_thread_self, bind, gets, modify, ret. simpl.
    rewrite C1, C5. simpl. rewrite E1. simpl. rewrite E2. simpl. rewrite E3. simpl.
    rewrite (interrupt_enable_quiet 0 s3) by (by intros ? ?). simpl. fold s4. rewrite E4. reflexivity.
  - split; [eexists; split; [apply lookup_insert_eq|apply stat_suspended]|].
    split; [apply lookup_insert_eq|]. split; [by apply flag_set_test|]. split; [done|].
    intros s5 th5 H5. unfold get_thread, put_thread, bind, gets, modify, ret. simpl. rewrite H5. simpl.
    by destruct (t_error th5 =? - RT_ETIMEOUT).
Qed.

(** Thread 3 sleeps for ten ticks. *)
Example sleep_suspends_witness :
  exists to s' k r, rt_thread_sleep 10 Board.board = Switch 3 to s' k /\ running Board.idle s' to /\
    k_timers s' !! TThread 3 = Some r /\ timer_flag_test RT_TIMER_FLAG_ACTIVATED r = true.
Proof.
  destruct (sleep_suspends Board.idle Board.board (Board.queues_of Board.board) 3 (Board.thread_of Board.board 3) 10)
    as (to & s' & k & r & E & HG & _ & Hr & Ha & _).
  - apply Board.board_kinv.
  - apply Board.board_running.
  - apply Board.thread_of_lookup. vm_compute. reflexivity.
  - vm_compute. reflexivity.
  - discriminate.
  - split; [discriminate|reflexivity].
  - exists to, s', k, r. auto.
Defined.
End ThreadTheorems.
