(* ===== verification/TimerTheorems.v ===== *)
(** * Timers and ticks: the theorems about [timer.c] and [clock.c]

    The order of the timer list, expiry, what starting and stopping a timer
    reports, and the cases the code does not handle: a periodic timer of period
    0, a soft timer stopped by another one's function, waits of half a tick
    range. *)
From S2P Require Import Prelude Kservice RtList KMonad KState KPrim KInv Scheduler Object TimerBase Thread Timer Ipc KernelInv TimerProof TimerCheckProof WaitProof BlockProof Board SchedTheorems ThreadTheorems.
Import Scheduler Object TimerBase Thread Timer TimerCheck SchedTheorems ThreadTheorems.
Local Open Scope Z_scope.
Local Open Scope kmonad_scope.

Module TimerTheorems.

(** ** Deciding the order of a concrete timer list *)
Definition timer_of (s : kview) (tm : timer_id) : rt_timer :=
  default Board.blank_timer (k_timers s !! tm).

Lemma timer_of_lookup s tm :
  Board.is_some_b (k_timers s !! tm) = true -> k_timers s !! tm = Some (timer_of s tm).
Proof. unfold timer_of. by destruct (k_timers s !! tm). Qed.

Fixpoint ordered_b (base : Z) (tick : timer_id -> Z) (tms : list timer_id) : bool :=
  match tms with
  | [] => true
  | a :: rest => (offset base (tick a) <? half_tick) &&
      forallb (fun b => offset base (tick a) <=? offset base (tick b)) rest && ordered_b base tick rest
  end.

Lemma ordered_b_sound base tick tms : ordered_b base tick tms = true -> ordered base tick tms.
Proof.
  induction tms as [|a rest IH]; [intros _; split; [set_solver|constructor]|].
  simpl. intros [[H1%Z.ltb_lt H2]%andb_true_iff H3]%andb_true_iff. destruct (IH H3) as [Hw Hs]. split.
  - intros tm [->|Hin]%elem_of_cons; auto.
  - constructor; [done|]. apply List.Forall_forall. rewrite forallb_forall in H2.
    intros x Hx. by apply Z.leb_le, H2.
Qed.

(** The board with timer 0 set to [n] ticks. *)
Definition long_timer (n : Z) : kview :=
  default Board.reset_state
    (first_state (rt_timer_control (TUser 0) RT_TIMER_CTRL_SET_TIME n Board.board)).

(** ** Starting and stopping *)

(** C10: [rt_timer_start] keeps the timer list in the order of expiry.  When
    the timers of the list are due within half the tick range above some base
    tick, in order, and so is the new one, then afterwards the list holds the
    old timers and the new one, in order, the new one due [init_tick] ticks
    from now and marked active; the call returns [RT_EOK]. *)
Theorem timer_start_keeps_order idle s Q tm r tms base :
  kinv idle s Q -> quiet s -> k_timers s !! tm = Some r ->
  timer_flag_test RT_TIMER_FLAG_SOFT_TIMER r = false -> tm_init_tick r < half_tick ->
  (forall t, tm = TThread t -> stat_is (k_threads s) t RT_THREAD_SUSPEND) ->
  k_links s !! LTimerHead false 0 = Some (trow <$> tms) ->
  ordered base (timeout_in (k_timers s)) tms ->
  offset base (u32 (k_tick s + tm_init_tick r)) < half_tick ->
  exists s' tms',
    rt_timer_start tm s = Ok RT_EOK s' /\ kinv idle s' Q /\
    k_links s' !! LTimerHead false 0 = Some (trow <$> tms') /\
    (forall x, x ∈ tms' <-> x = tm \/ x ∈ tms) /\
    ordered base (timeout_in (k_timers s')) tms' /\
    (exists r', k_timers s' !! tm = Some r' /\ timer_flag_test RT_TIMER_FLAG_ACTIVATED r' = true /\
       tm_timeout_tick r' = u32 (k_tick s + tm_init_tick r)) /\
    (forall u, u <> tm -> k_timers s' !! u = k_timers s !! u).
Proof.
  intros HI Hq Hr Hs Hi Ht Hl Ho Hw.
  destruct (timer_start_ok idle s Q tm r tms HI Hq Hr Hs Hi Ht Hl) as (V & E & HI' & HV & _).
  set (d := u32 (k_tick s + tm_init_tick r)) in *. set (s' := core _ _ _ _ _ _) in E, HI'.
  exists s', (timer_insert (timeout_in (k_timers s)) d tm (drop_node tm tms)).
  split; [exact E|]. split; [done|]. split; [exact HV|].
  assert (forall u, u <> tm -> k_timers s' !! u = k_timers s !! u) as Hother
    by (intros u Hu; simpl; by rewrite lookup_insert_ne).
  assert (timeout_in (k_timers s') tm = d) as Etm by (unfold timeout_in; simpl; by rewrite lookup_insert_eq).
  split; [|split; [|split; [|done]]].
  - intros x. rewrite elem_of_timer_insert, elem_of_drop_node. destruct (decide (x = tm)); tauto.
  - erewrite (timer_insert_ext _ (timeout_in (k_timers s'))).
    + apply timer_insert_ordered; [|done|done].
      eapply (ordered_ext base (timeout_in (k_timers s))).
      * intros u [_ Hu]%elem_of_drop_node. unfold timeout_in. by rewrite Hother.
      * eapply ordered_sublist; [|exact Ho]. apply sublist_filter.
    + intros u [_ Hu]%elem_of_drop_node. unfold timeout_in. by rewrite Hother.
  - exists (started (k_tick s) r). split; [apply lookup_insert_eq|]. split; [|done].
    by apply flag_set_test.
Qed.
(** Timer 0 (period 5) is started while the timer of thread 3 (10 ticks) runs. *)
Example timer_start_keeps_order_witness :
  exists s' tms', rt_timer_start (TUser 0) Board.waiting3 = Ok RT_EOK s' /\
    k_links s' !! LTimerHead false 0 = Some (trow <$> tms') /\
    (forall x, x ∈ tms' <-> x = TUser 0 \/ x ∈ [TThread 3]) /\
    ordered 0 (timeout_in (k_timers s')) tms'.
Proof.
  destruct (timer_start_keeps_order Board.idle Board.waiting3 (Board.queues_of Board.waiting3) (TUser 0)
    (timer_of Board.waiting3 (TUser 0)) [TThread 3] 0) as (s' & tms' & E & _ & HV & Hx & Ho & _).
  - apply Board.waiting3_kinv.
  - eapply ctx_quiet. apply Board.waiting3_running.
  - apply timer_of_lookup. vm_compute. reflexivity.
  - vm_compute. reflexivity.
  - vm_compute. reflexivity.
  - discriminate.
  - vm_compute. reflexivity.
  - apply ordered_b_sound. vm_compute. reflexivity.
  - vm_compute. reflexivity.
  - exists s', tms'. auto.
Defined.

(** [rt_timer_stop] takes the timer off its list and marks it inactive;
    it returns [RT_EOK] for a timer that was active and [-RT_ERROR] for one that
    was not, whose stop changes no list. *)
Theorem timer_stop_reports idle s Q tm r :
  kinv idle s Q -> quiet s -> k_timers s !! tm = Some r ->
  exists s' r',
    rt_timer_stop tm s =
      Ok (if timer_flag_test RT_TIMER_FLAG_ACTIVATED r then RT_EOK else - RT_ERROR) s' /\
    kinv idle s' Q /\ k_timers s' !! tm = Some r' /\
    timer_flag_test RT_TIMER_FLAG_ACTIVATED r' = false /\
    (forall soft xs, k_links s' !! LTimerHead soft 0 = Some xs -> trow tm ∉ xs) /\
    (forall h xs, is_head h = true -> k_links s !! h = Some xs -> trow tm ∉ xs ->
      k_links s' !! h = Some xs).
Proof.
  intros HI Hq Hr.
  destruct (timer_stop_ok idle s Q tm r HI Hq Hr) as (V & a & E & HI' & Hd & _ & -> & _).
  set (s' := core _ _ _ _ _ _) in E, HI'. exists s', (timer_flag_clear RT_TIMER_FLAG_ACTIVATED r).
  split; [exact E|]. split; [done|]. split; [apply lookup_insert_eq|].
  split; [by apply flag_clear_test|]. split.
  - intros soft xs Hxs Hin.
    destruct (dropped_elem _ _ _ (LTimerHead soft 0) _ _ Hd eq_refl Hxs Hin) as (_ & _ & _ & ?). done.
  - intros h xs Hh Hxs Hn. change (k_links s') with V. by rewrite (dropped_same _ _ _ _ _ Hd Hh Hxs Hn).
Qed.

(** The timer of thread 3, which waits. *)
Example timer_stop_reports_witness :
  exists s', rt_timer_stop (TThread 3) Board.waiting3 = Ok RT_EOK s' /\
    kinv Board.idle s' (Board.queues_of Board.waiting3).
Proof.
  destruct (timer_stop_reports Board.idle Board.waiting3 (Board.queues_of Board.waiting3) (TThread 3)
    (timer_of Board.waiting3 (TThread 3))) as (s' & r' & E & HI & _).
  - apply Board.waiting3_kinv.
  - eapply ctx_quiet. apply Board.waiting3_running.
  - apply timer_of_lookup. vm_compute. reflexivity.
  - exists s'. split; [|exact HI]. rewrite E.
    replace (timer_flag_test RT_TIMER_FLAG_ACTIVATED (timer_of Board.waiting3 (TThread 3))) with true
      by (vm_compute; reflexivity). reflexivity.
Defined.

(** The limit on timeouts is strict.  [rt_timer_start] stops in its
    assertion for a timeout of [RT_TICK_MAX / 2] ticks or more, so the longest
    wait of the blocking calls, [0x7fffffff] ticks, is not usable although the
    comment only excludes timeouts greater than [RT_TICK_MAX / 2]. *)
Theorem timer_start_rejects_half_range idle s Q tm r :
  kinv idle s Q -> quiet s -> k_timers s !! tm = Some r -> half_tick <= tm_init_tick r ->
  rt_timer_start tm s = Err Assert_failed.
Proof.
  intros HI Hq Hr Hi.
  destruct (kp_row _ _ _ _ _ (ki_parts _ _ _ HI) _ _ Hr) as [ns Hns].
  destruct (remove_dropped (k_links s) (LRow tm 0) ns) as (V & E & _); [apply HI|done|done|].
  unfold rt_timer_start, rt_hw_interrupt_disable, rt_timer_remove, for_each, list_remove, list_op1, upd_timer,
    get_timer, put_timer, bind, gets, modify, ret. simpl. rewrite E. simpl. rewrite Hr. simpl.
  rewrite interrupt_enable_quiet by (unfold quiet; done). simpl.
  rewrite lookup_insert_eq. simpl. by rewrite (proj2 (Z.ltb_ge _ _)).
Qed.

(** Timer 0 set to [0x7fffffff] ticks. *)
Example timer_start_rejects_half_range_witness :
  rt_timer_start (TUser 0) (long_timer 0x7fffffff) = Err Assert_failed.
Proof.
  apply (timer_start_rejects_half_range Board.idle _ (Board.queues_of (long_timer 0x7fffffff)) _
    (timer_of (long_timer 0x7fffffff) (TUser 0))).
  - apply Board.kinv_b_sound. vm_compute. reflexivity.
  - intros _ _. vm_compute. reflexivity.
  - apply timer_of_lookup. vm_compute. reflexivity.
  - apply Z.leb_le. vm_compute. reflexivity.
Defined.
(** ** Expiry *)

(** C9: [rt_timer_check] fires the expired timers.  It is called in an interrupt
    handler with the hard timers in order, all due within half the tick range;
    every periodic timer has a period above 0 ([check_state]); and every timeout
    function of the application returns, starts and reprograms no hard timer,
    but may stop some ([timeout_step]).  Then it returns, after no more rounds
    than there are expired timers and one.  It fires timers that were expired,
    in the order of the list: each is taken off the list, its function is called
    with its parameter, and it is started again if it is periodic and still
    active and marked inactive if not ([fires]).  When it returns no expired timer is
    left in the list, the list is in order and the kernel invariant holds. *)
Theorem timer_check_expires idle base user_timeout tms s fuel :
  (forall f a s tms, (exists Q, kinv idle s Q) -> k_primask s = 1 -> is_Some (k_current s) ->
     k_links s !! LTimerHead false 0 = Some (trow <$> tms) ->
     exists s', user_timeout f a s = Ok tt s' /\ timeout_step idle tms s s') ->
  check_state idle base tms (set_primask 1 s) -> k_irq_nest s <> 0 -> (due s tms < fuel)%nat ->
  exists s1 us tms', let s' := set_primask (k_primask s) s1 in
    rt_timer_check user_timeout fuel s = Ok tt s' /\
    fires user_timeout (set_primask 1 s) tms us s1 tms' /\ us `sublist_of` due_list s tms /\
    (exists Q, kinv idle s' Q) /\ k_tick s' = k_tick s /\
    k_links s' !! LTimerHead false 0 = Some (trow <$> tms') /\
    ordered base (timeout_in (k_timers s')) tms' /\
    (forall u, u ∈ tms' -> expired (k_tick s') (timeout_in (k_timers s') u) = false).
Proof.
  intros Hu Hcs Hn Hf.
  destruct (timer_check_loop_ok idle base user_timeout Hu fuel tms (set_primask 1 s) Hcs Hf)
    as (s1 & us & tms' & E & [[Q HI] Hm Hc HV Ho _ _] & Htk & Hin & Hfires & Hus & Hx).
  exists s1, us, tms'. split; [|split; [exact Hfires|split; [exact Hus|split; [|done]]]].
  - unfold rt_timer_check, rt_tick_get, rt_hw_interrupt_disable, bind, gets, modify, ret. simpl.
    simpl in E. rewrite E. simpl. unfold rt_hw_interrupt_enable. simpl. simpl in Hin. rewrite Hin.
    rewrite (proj2 (Z.eqb_neq _ _) Hn), andb_false_r. by destruct (k_pendsv s1) as [[? ?]|].
  - exists Q. by eapply kinv_frame; [..|exact HI].
Qed.

(** Thread 3 waits with a timeout of 10 ticks and timer 0 runs with one of 5;
    the tick handler runs at tick 7. *)
Definition tick7 : kview := set_irq_nest 1 (set_tick 7
  (default Board.reset_state (first_state (rt_timer_start (TUser 0) Board.waiting3)))).

Definition fit_b (late : Z) (TM : gmap timer_id rt_timer) : bool :=
  forallb (fun '(u, r) =>
    match u with TUser _ => match tm_timeout_func r with User_timeout _ => true | _ => false end | _ => true end &&
    (negb (timer_flag_test RT_TIMER_FLAG_PERIODIC r) ||
     (0 <? tm_init_tick r) && (tm_init_tick r <? half_tick - late))) (map_to_list TM).

Lemma fit_b_sound late TM : fit_b late TM = true -> timers_fit late TM.
Proof.
  unfold fit_b. rewrite forallb_forall. intros H u r Hu. specialize (H (u, r)).
  cbv beta iota in H. rewrite <-list_elem_of_In, elem_of_map_to_list in H.
  apply andb_true_iff in H as [H1 H2]; [|done]. split.
  - intros i ->. destruct (tm_timeout_func r); [done|eauto].
  - intros Hp. rewrite Hp in H2. simpl in H2. apply andb_true_iff in H2 as [?%Z.ltb_lt ?%Z.ltb_lt]. done.
Qed.

Lemma is_some_of {A} (o : option A) : Board.is_some_b o = true -> is_Some o.
Proof. by destruct o. Qed.

Lemma tick7_check : check_state Board.idle 0 [TUser 0; TThread 3] (set_primask 1 tick7).
Proof.
  split.
  - exists (Board.queues_of (set_primask 1 tick7)). apply Board.kinv_b_sound. vm_compute. reflexivity.
  - reflexivity.
  - apply is_some_of. vm_compute. reflexivity.
  - vm_compute. reflexivity.
  - apply ordered_b_sound. vm_compute. reflexivity.
  - vm_compute. reflexivity.
  - apply fit_b_sound. vm_compute. reflexivity.
Qed.

(** A timeout function that does nothing is one the theorem allows. *)
Definition idle_timeout (f a : nat) : M kview unit := ret tt.

Lemma idle_timeout_step idle f a s tms :
  (exists Q, kinv idle s Q) -> k_primask s = 1 -> is_Some (k_current s) ->
  k_links s !! LTimerHead false 0 = Some (trow <$> tms) ->
  exists s', idle_timeout f a s = Ok tt s' /\ timeout_step idle tms s s'.
Proof.
  intros HI Hm Hc Hl. exists s. split; [done|]. split; [done|done|done|done|eauto|done|].
  intros u r Hr. exists r. split; [done|]. split; [|done]. by split.
Qed.

Example timer_check_expires_witness :
  exists s1 us tms', rt_timer_check idle_timeout 2 tick7 = Ok tt (set_primask (k_primask tick7) s1) /\
    fires idle_timeout (set_primask 1 tick7) [TUser 0; TThread 3] us s1 tms' /\ us `sublist_of` [TUser 0] /\
    k_links s1 !! LTimerHead false 0 = Some (trow <$> tms').
Proof.
  destruct (timer_check_expires Board.idle 0 idle_timeout [TUser 0; TThread 3] tick7 2)
    as (s1 & us & tms' & E & Hfires & Hus & _ & _ & HV & _).
  - apply idle_timeout_step.
  - apply tick7_check.
  - vm_compute. discriminate.
  - apply Nat.ltb_lt. vm_compute. reflexivity.
  - exists s1, us, tms'. split; [exact E|]. split; [exact Hfires|]. split; [|exact HV].
    assert (due_list tick7 [TUser 0; TThread 3] = [TUser 0]) as E1 by (vm_compute; reflexivity). by rewrite <-E1.
Defined.

(** ** A periodic timer of period 0 *)

(** The only hard timer is [u], periodic with period 0, due now. *)
Record spinning (idle : nat) (u : nat) (f : nat) (s : kview) : Prop := {
  sp_inv : exists Q, kinv idle s Q;
  sp_masked : k_primask s = 1;
  sp_list : k_links s !! LTimerHead false 0 = Some (trow <$> [TUser u]);
  sp_timer : exists r, k_timers s !! TUser u = Some r /\ tm_timeout_func r = User_timeout f /\
    timer_flag_test RT_TIMER_FLAG_ACTIVATED r = true /\
    timer_flag_test RT_TIMER_FLAG_PERIODIC r = true /\
    timer_flag_test RT_TIMER_FLAG_SOFT_TIMER r = false /\
    tm_init_tick r = 0 /\ expired (k_tick s) (tm_timeout_tick r) = true;
}.

Lemma expired_now now : expired now (u32 (now + 0)) = true.
Proof.
  unfold expired, u32. rewrite Zminus_mod_idemp_r, Z.add_0_r, Z.sub_diag. done.
Qed.

(** One round of the loop ends in such a state again. *)
Lemma spinning_round idle u f user_timeout fuel s :
  (forall a s, user_timeout f a s = Ok tt s) -> spinning idle u f s ->
  exists s', timer_check_loop user_timeout (S fuel) (k_tick s) s = timer_check_loop user_timeout fuel (k_tick s') s' /\
    spinning idle u f s'.
Proof.
  intros Hf [[Q HI] Hm Hl (r & Hr & Ef & Ha & Hp & Hs & Hi & Hx)].
  destruct (kp_row _ _ _ _ _ (ki_parts _ _ _ HI) _ _ Hr) as [ns Hns].
  destruct (remove_dropped (k_links s) (LRow (TUser u) 0) ns) as (V & E & HV & Hlo & Hd & Hdom); [apply HI|done|done|].
  set (s1 := set_links V s).
  assert (kinv idle s1 Q) as HI1.
  { split; [|by eapply kparts_unlink; [apply HI|..]].
    eapply (sched_inv_dropped s); [apply HI|done|exact Hd| |done|done]. intros p _. apply row_not_ready. }
  set (rc := timer_flag_clear RT_TIMER_FLAG_ACTIVATED r).
  set (s2 := set_timers (<[TUser u := rc]> (k_timers s1)) s1).
  assert (kinv idle s2 Q) as HI2.
  { apply (kinv_timer_unlinked idle s1 Q (TUser u) r rc HI1 Hr).
    - split; [done|]. split; [done|]. split; by apply flag_clear_other.
    - intros soft xs Hxs Hin.
      destruct (dropped_elem _ _ _ (LTimerHead soft 0) _ _ Hd eq_refl Hxs Hin) as (_ & _ & _ & ?). done. }
  assert (k_links s2 !! LTimerHead false 0 = Some (trow <$> [])) as Hl2.
  { change (k_links s2) with V. rewrite Hd, Hl by done. cbn [fmap option_fmap option_map]. f_equal.
    change (LRow (TUser u) 0) with (trow (TUser u)). rewrite fmap_drop_trow. f_equal.
    change [TUser u] with ([] ++ [TUser u]). by rewrite drop_node_split by set_solver. }
  destruct (timer_start_ok idle s2 Q (TUser u) rc [] HI2) as (V3 & E3 & HI3 & Hl3 & _);
    [by apply quiet_masked|apply lookup_insert_eq|by unfold rc; rewrite flag_clear_other
    |simpl; rewrite Hi; done|done|done|].
  set (s3 := core _ _ _ _ _ _) in E3, HI3. exists s3. split; [|split].
  - pose proof (queue_isempty _ _ _ (lo_coherent _ (si_links _ _ (ki_sched _ _ _ HI))) Hl) as He.
    simpl. unfold list_isempty, list_next, get_timer, bind, gets, ret. simpl. rewrite He. simpl.
    rewrite (queue_next_head _ _ _ Hl). simpl. rewrite Hr. simpl. unfold expired in Hx. rewrite Hx.
    unfold rt_timer_remove, for_each, list_remove, list_op1, bind, ret. simpl. rewrite E. simpl.
    rewrite Ef. simpl. rewrite Hf. simpl.
    unfold timer_after_timeout, get_timer, put_timer, bind, gets, modify, ret. simpl. rewrite Hr. simpl.
    rewrite Hp, Ha. simpl. fold s1. fold rc. change (set_timers _ s1) with s2. by rewrite E3.
  - by exists Q.
  - done.
  - exact Hl3.
  - exists (started (k_tick s2) rc). split; [apply lookup_insert_eq|].
    split; [done|]. split; [by apply flag_set_test|].
    destruct (started_kind (k_tick s2) rc) as (_ & _ & K1 & K2).
    split; [rewrite K2; unfold rc; by rewrite flag_clear_other|].
    split; [rewrite K1; unfold rc; by rewrite flag_clear_other|].
    split; [done|]. simpl. rewrite Hi. apply expired_now.
Qed.

(** A periodic timer of period 0 hangs the kernel.  When such a timer is
    due and its function returns, [rt_timer_check] restarts it with a timeout
    that has expired already, and the loop goes on for ever: no number of
    rounds is enough. *)
Theorem zero_period_hangs idle u f user_timeout s fuel :
  (forall a s, user_timeout f a s = Ok tt s) -> spinning idle u f (set_primask 1 s) ->
  rt_timer_check user_timeout fuel s = Err Out_of_fuel.
Proof.
  intros Hf Hsp. unfold rt_timer_check, rt_tick_get, rt_hw_interrupt_disable, bind, gets, modify, ret. simpl.
  change (k_tick s) with (k_tick (set_primask 1 s)).
  enough (timer_check_loop user_timeout fuel (k_tick (set_primask 1 s)) (set_primask 1 s) = Err Out_of_fuel)
    as -> by done.
  revert Hsp. generalize (set_primask 1 s). induction fuel as [|fuel IH]; intros s0 Hsp; [done|].
  destruct (spinning_round idle u f user_timeout fuel s0 Hf Hsp) as (s' & -> & Hsp'). by apply IH.
Qed.

(** Timer 0 is made periodic with period 0 and started. *)
Definition zero_period : kview := default Board.reset_state (first_state
  ((rt_timer_control (TUser 0) RT_TIMER_CTRL_SET_TIME 0 ;!
    rt_timer_control (TUser 0) RT_TIMER_CTRL_SET_PERIODIC 0 ;!
    rt_timer_start (TUser 0)) Board.board)).

Definition spinning_b (u f : nat) (s : kview) : bool :=
  Board.sched_b s && Board.parts_b Board.idle s && (k_primask s =? 1) &&
  bool_decide (k_links s !! LTimerHead false 0 = Some (trow <$> [TUser u])) &&
  match k_timers s !! TUser u with
  | None => false
  | Some r => Board.fn_eqb (tm_timeout_func r) (User_timeout f) &&
      timer_flag_test RT_TIMER_FLAG_ACTIVATED r && timer_flag_test RT_TIMER_FLAG_PERIODIC r &&
      negb (timer_flag_test RT_TIMER_FLAG_SOFT_TIMER r) && (tm_init_tick r =? 0) &&
      expired (k_tick s) (tm_timeout_tick r)
  end.

Lemma spinning_b_sound u f s : spinning_b u f s = true -> spinning Board.idle u f s.
Proof.
  unfold spinning_b. intros [[[H0 Hm]%andb_true_iff Hl]%andb_true_iff Hr]%andb_true_iff. split.
  - exists (Board.queues_of s). by apply Board.kinv_b_sound.
  - by apply Z.eqb_eq.
  - by eapply bool_decide_eq_true.
  - destruct (k_timers s !! TUser u) as [r|]; [|done]. exists r.
    repeat (apply andb_true_iff in Hr as [Hr ?]).
    repeat match goal with H : negb _ = true |- _ => apply negb_true_iff in H end.
    destruct (tm_timeout_func r) as [|g]; [done|]. apply Nat.eqb_eq in Hr as ->.
    repeat match goal with H : (_ =? _) = true |- _ => apply Z.eqb_eq in H end. done.
Qed.

Example zero_period_hangs_witness :
  rt_timer_check idle_timeout 1000 zero_period = Err Out_of_fuel.
Proof.
  apply (zero_period_hangs Board.idle 0 0 idle_timeout zero_period 1000).
  - reflexivity.
  - apply spinning_b_sound. vm_compute. reflexivity.
Defined.
(** ** Milliseconds *)
(** [rt_tick_from_millisecond].  A negative time means waiting for ever; up
    to 21474826 ms the result is the least number of ticks that lasts at least
    the given time.  Longer times overflow: the documentation of the function
    allows [0x7fffffff] ms, but between 21474827 ms and 42949662 ms (six to
    twelve hours), and for [0x7fffffff] ms, the result is 0 or negative: no wait
    at all, or, as a tick count, a wait the timer refuses. *)
Theorem tick_from_millisecond_bounds ms :
  let t := rt_tick_from_millisecond ms in
  (ms < 0 -> t = RT_WAITING_FOREVER) /\
  (0 <= ms <= 21474826 -> 0 <= t /\ 1000 * (t - 1) < RT_TICK_PER_SECOND * ms <= 1000 * t) /\
  (21474827 <= ms <= 42949662 \/ ms = 0x7fffffff -> t <= 0).
Proof.
  unfold rt_tick_from_millisecond, RT_TICK_PER_SECOND. split; [|split].
  - intros H. by rewrite (proj2 (Z.ltb_lt _ _)).
  - intros H. rewrite (proj2 (Z.ltb_ge _ _)) by lia. rewrite i32_add, i32_small by lia.
    rewrite Z.quot_div_nonneg by lia.
    pose proof (Z.div_mod (100 * ms + 999) 1000). pose proof (Z.mod_pos_bound (100 * ms + 999) 1000). lia.
  - intros [H| ->]; [|vm_compute; discriminate]. rewrite (proj2 (Z.ltb_ge _ _)) by lia.
    rewrite i32_add. assert (i32 (100 * ms + 999) = 100 * ms + 999 - 2 ^ 32) as ->.
    { unfold i32. rewrite (Z.mod_eq _ (2 ^ 32)) by lia.
      assert ((100 * ms + 999 + 2 ^ 31) / 2 ^ 32 = 1) as ->; [|lia].
      symmetry. apply Z.div_unique with (r := 100 * ms + 999 + 2 ^ 31 - 2 ^ 32); lia. }
    rewrite <-(Z.quot_0_l 1000) by lia. apply Z.quot_le_mono; lia.
Qed.

Example tick_from_millisecond_bounds_witness :
  rt_tick_from_millisecond (-1) = RT_WAITING_FOREVER /\
  1000 * (rt_tick_from_millisecond 25 - 1) < RT_TICK_PER_SECOND * 25 <= 1000 * rt_tick_from_millisecond 25 /\
  rt_tick_from_millisecond 28800000 <= 0.
Proof.
  split; [|split].
  - apply (tick_from_millisecond_bounds (-1)). lia.
  - apply (tick_from_millisecond_bounds 25). lia.
  - apply (tick_from_millisecond_bounds 28800000). left. lia.
Defined.

(** ** A soft timer that stops its neighbour *)

(** Thread [c] is the one to run. *)
Definition top (Q : Z -> list nat) (c : nat) : Prop :=
  exists p q, is_highest Q p /\ Q p = c :: q.

Lemma schedule_stays idle s Q c :
  kinv idle s Q -> quiet s -> k_lock_nest s = 0 -> k_current s = Some c -> top Q c ->
  rt_schedule s = Ok tt s.
Proof.
  intros HI Hq Hl Hc (p & q & Hp & HQ).
  destruct (kinv_schedule idle s Q c HI Hq Hl Hc) as (p' & to & q' & Hp' & HQ' & E).
  rewrite <-(is_highest_unique Q p p' Hp Hp') in HQ'. rewrite HQ in HQ'. injection HQ' as <- _.
  rewrite E. unfold reschedule. by rewrite decide_True.
Qed.

(** The state of the timer thread [c] inside the loop. *)
Record checking (idle c : nat) (Q : Z -> list nat) (s : kview) : Prop := {
  ck_inv : kinv idle s Q;
  ck_primask : k_primask s = 0;
  ck_nest : k_irq_nest s = 0;
  ck_pendsv : k_pendsv s = None;
  ck_lock : k_lock_nest s = 1;
  ck_current : k_current s = Some c;
  ck_top : top Q c;
}.

Lemma checking_quiet idle c Q s : checking idle c Q s -> quiet s.
Proof. intros H _ _. apply H. Qed.

Lemma checking_exit idle c Q s :
  checking idle c Q s -> rt_exit_critical s = Ok tt (set_lock_nest 0 s).
Proof.
  intros H. rewrite exit_critical_eq by (by eapply checking_quiet). rewrite (ck_lock _ _ _ _ H). simpl.
  apply (schedule_stays idle _ Q c); [|intros _ _; apply H|done|apply H|apply H].
  eapply kinv_frame; [..|apply H]; done.
Qed.

Lemma checking_enter (s : kview) :
  quiet s -> k_lock_nest s = 0 -> rt_enter_critical s = Ok tt (set_lock_nest 1 s).
Proof. intros Hq Hl. rewrite enter_critical_eq by done. by rewrite Hl. Qed.

(** The loop stands on a timer that is in no list: its [next] pointer is its own
    address, so every round meets the same timer. *)
Lemma soft_loop_stuck idle c Q s u f r user_timeout fuel :
  checking idle c Q s -> k_links s !! trow (TUser u) = Some [] ->
  k_timers s !! TUser u = Some r -> tm_timeout_func r = User_timeout f ->
  timer_flag_test RT_TIMER_FLAG_ACTIVATED r = false ->
  expired (k_tick s) (tm_timeout_tick r) = true ->
  (forall a s, user_timeout f a s = Ok tt s) ->
  soft_timer_check_loop user_timeout fuel (k_tick s) (trow (TUser u)) s = Err Out_of_fuel.
Proof.
  intros Hck Hl Hr Ef Ha Hx Hf. induction fuel as [|fuel IH]; [done|].
  assert (list_remove (LRow (TUser u) 0) s = Ok tt s) as Erm.
  { unfold list_remove, list_op1. simpl.
    rewrite remove_alone; [by destruct s|apply Hck|done]. }
  simpl. unfold get_timer, list_next, bind, gets, ret. simpl. rewrite Hr. simpl.
  unfold expired in Hx. rewrite Hx. simpl.
  unfold v_next. change (LRow (TUser u) 0) with (trow (TUser u)). rewrite Hl. simpl.
  unfold rt_timer_remove, for_each, bind, ret. simpl. rewrite Erm. simpl.
  rewrite (checking_exit _ _ _ _ Hck). simpl. rewrite Ef. simpl. rewrite Hf. simpl.
  rewrite checking_enter by (done || (intros _ _; apply Hck)). simpl.
  replace (set_lock_nest 1 (set_lock_nest 0 s)) with s
    by (pose proof (ck_lock _ _ _ _ Hck); destruct s; simpl in *; by subst).
  unfold timer_after_timeout, get_timer, put_timer, bind, gets, modify, ret. simpl. rewrite Hr. simpl.
  rewrite Ha, andb_false_r. rewrite flag_clear_id, insert_id by done.
  replace (set_timers (k_timers s) s) with s by (by destruct s). exact IH.
Qed.
(** C21: a soft timer's function that stops the next soft timer hangs the timer
    thread.  [rt_soft_timer_check] keeps a pointer to the next timer across the
    call of the timeout function.  When the functions of timers [a] and [b] are
    due, [b] behind [a], and the one of [a] stops [b], the loop goes on with
    [b], which is in no list any more: it is fired although it was stopped, and
    since its [next] pointer is its own address the loop never ends. *)
Theorem soft_timer_stopped_hangs idle c Q s a b fa fb ra rb rest user_timeout fuel :
  kinv idle s Q -> thread_ctx s c -> top Q c ->
  k_links s !! LTimerHead true 0 = Some (trow <$> TUser a :: TUser b :: rest) ->
  k_timers s !! TUser a = Some ra -> tm_timeout_func ra = User_timeout fa ->
  timer_flag_test RT_TIMER_FLAG_PERIODIC ra = false -> expired (k_tick s) (tm_timeout_tick ra) = true ->
  k_timers s !! TUser b = Some rb -> tm_timeout_func rb = User_timeout fb ->
  expired (k_tick s) (tm_timeout_tick rb) = true ->
  (forall p s, user_timeout fa p s = (rt_timer_stop (TUser b) ;! ret tt) s) ->
  (forall p s, user_timeout fb p s = Ok tt s) ->
  rt_soft_timer_check user_timeout fuel s = Err Out_of_fuel.
Proof.
  intros HI [Hpm Hin Hpv Hlk Hcu] Htop Hl Hra Efa Hpa Hxa Hrb Efb Hxb Hfa Hfb.
  assert (quiet s) as Hqs by (intros _ _; exact Hpv).
  assert (links_ok (k_links s)) as HV0 by apply HI.
  destruct (kp_timers _ _ _ _ _ (ki_parts _ _ _ HI) true _ (TUser b) Hl) as (r & Hr & Hab & _); [simpl; set_solver|].
  rewrite Hrb in Hr. injection Hr as <-.
  pose proof (coherent_nodup _ _ _ (lo_coherent _ HV0) Hl) as Hnd. simpl in Hnd.
  assert (a <> b) as Hne by (intros ->; apply NoDup_cons in Hnd as [Hnd _]; set_solver). clear Hnd.
  destruct (kp_row _ _ _ _ _ (ki_parts _ _ _ HI) _ _ Hra) as [ns Hns].
  destruct (remove_dropped (k_links s) (LRow (TUser a) 0) ns) as (V & E & HV & _ & Hd & Hdom); [done..|].
  set (s0 := set_links V s).
  assert (kinv idle s0 Q) as HI0.
  { split; [|by eapply kparts_unlink; [apply HI|..]].
    eapply (sched_inv_dropped s); [apply HI|done|exact Hd| |done|done]. intros p _. apply row_not_ready. }
  destruct (timer_stop_ok idle s0 Q (TUser b) rb HI0 Hqs Hrb) as (V3 & x & E3 & HI3 & Hd3 & _ & _ & Hb3).
  specialize (Hb3 Hab). set (s3 := core _ _ _ _ _ _) in E3, HI3.
  set (rc := timer_flag_clear RT_TIMER_FLAG_ACTIVATED ra).
  set (s4 := set_lock_nest 1 (set_timers (<[TUser a := rc]> (k_timers s3)) s3)).
  assert (k_timers s3 !! TUser a = Some ra) as Hra3 by (simpl; rewrite lookup_insert_ne; [done|congruence]).
  assert (checking idle c Q s4) as Hck4.
  { split; try done. eapply kinv_frame; [..|apply (kinv_timer_unlinked idle s3 Q (TUser a) ra rc HI3 Hra3)]; try done.
    - split; [done|]. split; [done|]. split; by apply flag_clear_other.
    - intros soft xs Hxs Hin'.
      destruct (dropped_elem _ _ _ (LTimerHead soft 0) _ _ Hd3 eq_refl Hxs Hin') as (ys & Hys & Hin'' & _).
      destruct (dropped_elem _ _ _ (LTimerHead soft 0) _ _ Hd eq_refl Hys Hin'') as (_ & _ & _ & ?). done. }
  assert (checking idle c Q (set_lock_nest 1 s0)) as Hck0.
  { split; try done. eapply kinv_frame; [..|exact HI0]; done. }
  unfold rt_soft_timer_check, rt_tick_get, list_next, bind, gets, ret.
  simpl res_bind. rewrite (checking_enter s Hqs Hlk). simpl res_bind.
  change (ls_next (k_links (set_lock_nest 1 s))) with (v_next (k_links s)).
  rewrite (queue_next_head _ _ _ Hl). simpl res_bind. destruct fuel as [|fuel]; [done|].
  simpl. unfold get_timer, list_next, bind, gets, ret. simpl. rewrite Hra. simpl.
  unfold expired in Hxa. rewrite Hxa. simpl.
  pose proof (queue_next_member (k_links s) (LTimerHead true 0) [] (trow (TUser a)) (map trow (TUser b :: rest))
    (lo_coherent _ HV0) Hl) as En. simpl in En. rewrite En. simpl.
  unfold rt_timer_remove, for_each, list_remove, list_op1, bind, ret. simpl. rewrite E. simpl.
  change (set_links V (set_lock_nest 1 s)) with (set_lock_nest 1 s0).
  rewrite (checking_exit _ _ _ _ Hck0). simpl. rewrite Efa. simpl. rewrite Hfa. unfold bind.
  replace (set_lock_nest 0 (set_lock_nest 1 s0)) with s0 by (destruct s; simpl in *; by subst).
  rewrite E3. simpl.
  rewrite checking_enter by (done || (intros _ _; apply Hpv)). simpl.
  unfold timer_after_timeout, get_timer, put_timer, bind, gets, modify, ret. simpl.
  simpl in Hra3. rewrite Hra3. simpl. rewrite Hpa. simpl.
  pose proof (soft_loop_stuck idle c Q s4 b fb (timer_flag_clear RT_TIMER_FLAG_ACTIVATED rb) user_timeout fuel Hck4) as Hst.
  match goal with |- res_bind ?x _ = _ => assert (x = Err Out_of_fuel) as Ex; [|by rewrite Ex] end.
  apply Hst.
  - exact Hb3.
  - simpl. rewrite lookup_insert_ne by congruence. apply lookup_insert_eq.
  - done.
  - by apply flag_clear_test.
  - exact Hxb.
  - done.
Qed.
(** Timers 0 and 1 are soft timers of 5 ticks; at tick 20 the timer thread runs. *)
Definition soft_pair : kview := set_tick 20 (default Board.reset_state (first_state
  ((rt_timer_detach (TUser 0) ;!
    rt_timer_init (TUser 0) (Board.name_of 120) (User_timeout 0) 0 5 RT_TIMER_FLAG_SOFT_TIMER ;!
    rt_enter_critical ;!
    rt_timer_start (TUser 0) ;!
    rt_timer_start (TUser 1) ;!
    rt_exit_critical) Board.board))).

(** The function of timer 0 stops timer 1. *)
Definition stop_neighbour (f p : nat) : M kview unit :=
  match f with O => rt_timer_stop (TUser 1) ;! ret tt | _ => ret tt end.

Example soft_timer_stopped_hangs_witness :
  rt_soft_timer_check stop_neighbour 1000 soft_pair = Err Out_of_fuel.
Proof.
  apply (soft_timer_stopped_hangs Board.idle Board.timer_thread (Board.queues_of soft_pair) soft_pair
    0 1 0 1 (timer_of soft_pair (TUser 0)) (timer_of soft_pair (TUser 1)) []).
  - apply Board.kinv_b_sound. vm_compute. reflexivity.
  - split; vm_compute; reflexivity.
  - exists 4, []. split; [apply Board.highest_b_sound|]; vm_compute; reflexivity.
  - vm_compute. reflexivity.
  - apply timer_of_lookup. vm_compute. reflexivity.
  - vm_compute. reflexivity.
  - vm_compute. reflexivity.
  - vm_compute. reflexivity.
  - apply timer_of_lookup. vm_compute. reflexivity.
  - vm_compute. reflexivity.
  - vm_compute. reflexivity.
  - reflexivity.
  - reflexivity.
Defined.
End TimerTheorems.
