(* ===== verification/SemProof.v ===== *)
(** * Semaphores: theorems *)
From S2P Require Import Prelude Kservice RtList KMonad KState KPrim KInv Scheduler Object TimerBase Thread Timer Ipc KernelInv WaitProof TimerProof BlockProof.
Import Scheduler Object TimerBase Thread Timer IpcCore Sem.
Local Open Scope Z_scope.
Local Open Scope kmonad_scope.

Module SemProof.

(** Semaphore [i] with value [sm] and the threads [ws] waiting, first to last:
    threads only wait while the value is 0. *)
Record sem_at (i : nat) (s : kview) (sm : rt_semaphore) (ws : list nat) : Prop := {
  sa_sem : k_sems s !! i = Some sm;
  sa_wait : k_links s !! LSuspend (ISem i) = Some (LTlist <$> ws);
  sa_range : 0 <= sem_value sm < 65536;
  sa_excl : ws = [] \/ sem_value sm = 0;
  sa_flag : o_flag (sem_parent sm) = RT_IPC_FLAG_FIFO \/ o_flag (sem_parent sm) = RT_IPC_FLAG_PRIO;
}.

Definition sem_inv (i : nat) (s : kview) : Prop := exists sm ws, sem_at i s sm ws.

Lemma sem_inv_switched i p t s : sem_inv i s -> sem_inv i (switched p t s).
Proof. intros (sm & ws & [? ? ? ? ?]). exists sm, ws. by split. Qed.

(** ** Functional behaviour, branch by branch *)
Lemma sem_take_available_eq (s : kview) i sm time :
  quiet s -> k_sems s !! i = Some sm -> 0 < sem_value sm < 65536 ->
  rt_sem_take i time s =
    Ok RT_EOK (set_sems (<[i := set_sem_value (sem_value sm - 1) sm]> (k_sems s)) s).
Proof.
  intros Hq Hs Hv. unfold rt_sem_take, get_sem, put_sem, rt_hw_interrupt_disable, bind, gets, modify, ret.
  simpl. rewrite Hs. simpl. rewrite (proj2 (Z.ltb_lt _ _)) by lia. simpl.
  rewrite u16_small by lia. rewrite interrupt_enable_quiet by (unfold quiet; done). simpl.
  by destruct s.
Qed.

Lemma sem_take_nowait_eq (s : kview) i sm :
  quiet s -> k_sems s !! i = Some sm -> sem_value sm = 0 ->
  rt_sem_take i 0 s = Ok (- RT_ETIMEOUT) s.
Proof.
  intros Hq Hs Hv. unfold rt_sem_take, get_sem, rt_hw_interrupt_disable, bind, gets, modify, ret.
  simpl. rewrite Hs. simpl. rewrite Hv. simpl.
  rewrite interrupt_enable_quiet by (unfold quiet; done). simpl. by destruct s.
Qed.

(** The blocking branch, up to the blocking sequence. *)
Lemma sem_take_block_eq (s : kview) i sm t th time :
  thread_ctx s t -> k_sems s !! i = Some sm -> sem_value sm = 0 -> time <> 0 ->
  k_threads s !! t = Some th ->
  rt_sem_take i time s =
    (rt_ipc_list_suspend (LSuspend (ISem i)) t (o_flag (sem_parent sm)) ;!
     (if 0 <? time then start_wait_timer t time else ret tt) ;!
     rt_hw_interrupt_enable 0 ;!
     rt_schedule ;!
     let! th := get_thread t in
     if negb (th.(t_error) =? RT_EOK) then ret th.(t_error) else ret RT_EOK)
    (set_threads (<[t := set_t_error RT_EOK th]> (k_threads s)) (set_primask 1 s)).
Proof.
  intros [H1 H2 H3 H4 H5] Hs Hv Htime Ht.
  unfold rt_sem_take, rt_hw_interrupt_disable, get_sem, upd_thread, get_thread, put_thread,
    current_deref, rt_thread_self, bind, gets, modify, ret. simpl.
  rewrite Hs. simpl. rewrite Hv. simpl. rewrite (proj2 (Z.eqb_neq _ _) Htime).
  rewrite (thread_context_ok _ t) by (done || by apply quiet_masked). simpl.
  rewrite H5. simpl. rewrite Ht. simpl. rewrite Hs. simpl. by rewrite H1.
Qed.

(** ** Release *)
Lemma sem_release_count_eq (s : kview) i sm :
  quiet s -> links_ok (k_links s) -> sem_at i s sm [] ->
  rt_sem_release i s =
    Ok RT_EOK (set_sems (<[i := set_sem_value (u16 (sem_value sm + 1)) sm]> (k_sems s)) s).
Proof.
  intros Hq HV [Hs Hw _ _ _].
  unfold rt_sem_release, rt_hw_interrupt_disable, list_isempty, upd_sem, get_sem, put_sem, bind, gets, modify, ret.
  simpl. rewrite (queue_isempty _ _ _ (lo_coherent _ HV) Hw). simpl. rewrite Hs. simpl.
  rewrite interrupt_enable_quiet by (unfold quiet; done). simpl. by destruct s.
Qed.

(** *** A semaphore used as a lock *)
(** Nobody holds or waits for it, and the caller runs outside interrupt handlers. *)
Record lock_open (k : kview) (n : nat) : Prop := {
  ho_quiet : quiet k;
  ho_nest : k_irq_nest k = 0;
  ho_links : links_ok (k_links k);
  ho_sem : exists sm, sem_at n k sm [] /\ sem_value sm = 1;
}.

(** The kernel state while it is taken. *)
Definition lock_taken (k : kview) (n : nat) : kview :=
  match k_sems k !! n with
  | Some sm => set_sems (<[n := set_sem_value 0 sm]> (k_sems k)) k
  | None => k
  end.

Lemma lock_take k n : lock_open k n -> rt_sem_take n RT_WAITING_FOREVER k = Ok RT_EOK (lock_taken k n).
Proof.
  intros [Hq Hn Hl (sm & Hat & Hv)]. rewrite (sem_take_available_eq _ _ sm); [|done|apply Hat|lia].
  unfold lock_taken. by rewrite (sa_sem _ _ _ _ Hat), Hv.
Qed.

(** Taking and releasing leaves the kernel as it was. *)
Lemma lock_release k n : lock_open k n -> rt_sem_release n (lock_taken k n) = Ok RT_EOK k.
Proof.
  intros [Hq Hn Hl (sm & Hat & Hv)]. pose proof (sa_sem _ _ _ _ Hat) as Hsm. unfold lock_taken. rewrite Hsm.
  rewrite (sem_release_count_eq _ _ (set_sem_value 0 sm));
    [|done|done|split; [apply lookup_insert_eq|apply Hat|simpl; lia|by left|apply Hat]].
  do 2 f_equal. simpl. rewrite insert_insert_eq.
  replace (set_sem_value (u16 (0 + 1)) (set_sem_value 0 sm)) with sm
    by (destruct sm; simpl in *; subst; unfold set_sem_value; simpl; f_equal; done).
  rewrite insert_id by done. by destruct k.
Qed.

(** In a thread or in an interrupt handler: the first waiter becomes ready and
    the value stays 0. *)
Lemma sem_release_wake_eq idle s Q i sm w ws :
  kinv idle s Q -> quiet s -> sem_at i s sm (w :: ws) ->
  exists V T G r th,
    let p := t_current_priority th in
    let s' := core V T G (<[w := make_ready th]> (k_threads s))
      (<[TThread w := timer_flag_clear RT_TIMER_FLAG_ACTIVATED r]> (k_timers s)) s in
    rt_sem_release i s = (rt_schedule ;! ret RT_EOK) s' /\
    kinv idle s' (q_set Q p (Q p ++ [w])) /\
    k_threads s !! w = Some th /\ thread_stat th = RT_THREAD_SUSPEND /\
    sem_at i s' sm ws.
Proof.
  intros HI Hq Hat. destruct Hat as [Hs Hw Hr He Hf].
  assert (kinv idle (set_primask 1 s) Q) as HI1 by (eapply kinv_frame; [..|exact HI]; done).
  destruct (ipc_resume_ok idle (set_primask 1 s) Q (LSuspend (ISem i)) w ws)
    as (V & T & G & r & th & E & HI' & Ht & Hst & Hr' & Hq' & Hfr);
    [done|by apply quiet_masked|done|done|].
  exists V, T, G, r, th. intros p s'.
  split; [|split; [|split; [done|split; [done|]]]].
  - unfold rt_sem_release, rt_hw_interrupt_disable, list_isempty, bind, gets, modify, ret. simpl.
    rewrite (queue_isempty _ _ _ (lo_coherent _ (si_links _ _ (ki_sched _ _ _ HI))) Hw). simpl.
    rewrite E. simpl. rewrite interrupt_enable_quiet by (unfold quiet; done). simpl.
    fold p. unfold s'. by destruct s.
  - eapply kinv_frame; [..|exact HI']; done.
  - split; [done|done|done| |done]. right. destruct He as [?|?]; [done|done].
Qed.

(** ** Semaphores in a running system *)
Section system.
Context (idle i : nat).
Abbreviation G := (guarI idle (sem_inv i)).
Abbreviation R := (relyI idle (sem_inv i)).

Lemma running_set_sems s t m : running idle s t -> running idle (set_sems m s) t.
Proof.
  intros ((Q & HI) & [? ? ? ? ?] & Hst). split; [|split; [by split|done]].
  exists Q. eapply kinv_frame; [..|exact HI]; done.
Qed.

(** The result of a take is 0, a timeout of a call that does not wait, or the
    code the thread was woken with. *)
Definition take_result (t : nat) (time a : Z) (s' : kview) : Prop :=
  a = RT_EOK \/ (time = 0 /\ a = - RT_ETIMEOUT) \/
  (time <> 0 /\ exists th, k_threads s' !! t = Some th /\ a = t_error th).

Lemma sem_take_wp s t time :
  running idle s t -> t <> idle -> sem_inv i s -> time < half_tick ->
  wp G R (rt_sem_take i time)
    (fun a s' => running idle s' t /\ sem_inv i s' /\ take_result t time a s') s.
Proof.
  intros Hrun Hidle (sm & ws & Hat) Htime. pose proof Hrun as ((Q & HI) & Hc & (th & Ht & Hst)).
  pose proof Hat as [Hs Hw Hr He Hf].
  destruct (decide (0 < sem_value sm)) as [Hpos|Hz].
  { eapply wp_ok; [apply (sem_take_available_eq _ _ sm); [by eapply ctx_quiet|done|lia]|].
    split; [by apply running_set_sems|]. split; [|by left].
    exists (set_sem_value (sem_value sm - 1) sm), ws. split; [apply lookup_insert_eq|done|simpl; lia| |done].
    left. destruct He; [done|lia]. }
  destruct (decide (time = 0)) as [->|Hnz].
  { eapply wp_ok; [apply (sem_take_nowait_eq _ _ sm); [by eapply ctx_quiet|done|lia]|].
    split; [done|]. split; [by exists sm, ws|]. right. by left. }
  unfold wp. rewrite (sem_take_block_eq s i sm t th) by (done || lia).
  pose proof Hc as [Hc1 Hc2 Hc3 Hc4 Hc5].
  eapply (block_wp idle (sem_inv i) (sem_inv_switched i) _ _ Q (LSuspend (ISem i)) ws t (set_t_error RT_EOK th)).
  - eapply kinv_frame; [..|by apply (kinv_field idle s Q t th (set_t_error RT_EOK th))]; done.
  - by split.
  - done.
  - done.
  - done.
  - apply lookup_insert_eq.
  - done.
  - done.
  - done.
  - done.
  - intros V T G TM n HV Hfr. exists sm. eexists. split; [done|exact HV|done| |done]. right. lia.
  - intros s' Hs' HIs'. destruct Hs' as (? & ? & (th' & Ht' & Hst')).
    assert ((let! th := get_thread t in
      if negb (th.(t_error) =? RT_EOK) then ret th.(t_error) else ret RT_EOK) s' = Ok (t_error th') s') as E.
    { unfold get_thread, bind, gets, ret. simpl. rewrite Ht'. simpl.
      destruct (Z.eqb_spec (t_error th') RT_EOK) as [->|]; done. }
    eapply wp_ok; [exact E|]. split; [split; [done|split; [done|by exists th']]|]. split; [done|].
    right. right. eauto.
Qed.

Lemma sem_release_wp s t :
  running idle s t -> sem_inv i s ->
  wp G R (rt_sem_release i) (fun a s' => a = RT_EOK /\ running idle s' t /\ sem_inv i s') s.
Proof.
  intros Hrun (sm & ws & Hat). pose proof Hrun as ((Q & HI) & Hc & (th & Ht & Hst)).
  destruct ws as [|w ws].
  - eapply wp_ok; [apply (sem_release_count_eq _ _ sm); [by eapply ctx_quiet|apply HI|done]|].
    split; [done|]. split; [by apply running_set_sems|].
    destruct Hat as [Hs Hw Hr He Hf].
    exists (set_sem_value (u16 (sem_value sm + 1)) sm), []. split; [apply lookup_insert_eq|done| |by left|done].
    apply u16_range.
  - destruct (sem_release_wake_eq idle s Q i sm w ws HI (ctx_quiet _ _ Hc) Hat)
      as (V & T & Gr & r & wth & E & HI' & Hwt & Hws & Hat').
    unfold wp. rewrite E. fold (wp G R (rt_schedule ;! ret RT_EOK)
      (fun a s' => a = RT_EOK /\ running idle s' t /\ sem_inv i s')).
    apply wp_bind. destruct Hc as [Hc1 Hc2 Hc3 Hc4 Hc5].
    apply (schedule_wp idle (sem_inv i) (sem_inv_switched i) _ t).
    + split; [eauto|]. split; [by split|]. apply stat_is_insert. right.
      split; [|by exists th]. intros ->. rewrite Ht in Hwt. injection Hwt as <-. by rewrite Hst in Hws.
    + by exists sm, ws.
    + intros s' Hs' HIs'. eapply wp_ok; [reflexivity|]. done.
Qed.
End system.
End SemProof.
