(* ===== verification/SemTheorems.v ===== *)
(** * Semaphores: the theorems about [rt_sem_take] and [rt_sem_release] *)
From S2P Require Import Prelude Kservice RtList KMonad KState KPrim KInv Scheduler Object TimerBase Thread Timer Ipc KernelInv WaitProof TimerProof BlockProof Board SchedTheorems SemProof.
Import Scheduler Object TimerBase Thread Timer IpcCore Sem SemProof.
Local Open Scope Z_scope.
Local Open Scope kmonad_scope.

Module SemTheorems.

(** ** Semaphore 0 of the board *)
Definition sem_of (s : kview) (i : nat) : rt_semaphore :=
  default (Semaphore Board.blank_object 0) (k_sems s !! i).

Definition sem_b (i : nat) (s : kview) (ws : list nat) : bool :=
  match k_sems s !! i with
  | None => false
  | Some sm =>
      bool_decide (k_links s !! LSuspend (ISem i) = Some (LTlist <$> ws)) &&
      bool_decide (0 <= sem_value sm < 65536) &&
      (bool_decide (ws = []) || (sem_value sm =? 0)) &&
      ((o_flag (sem_parent sm) =? RT_IPC_FLAG_FIFO) || (o_flag (sem_parent sm) =? RT_IPC_FLAG_PRIO))
  end.

Lemma sem_b_sound i s ws : sem_b i s ws = true -> sem_at i s (sem_of s i) ws.
Proof.
  unfold sem_b, sem_of. destruct (k_sems s !! i) as [sm|] eqn:E; [|done].
  intros [[[H1 H2]%andb_true_iff H3]%andb_true_iff H4]%andb_true_iff. simpl. split.
  - done.
  - by eapply bool_decide_eq_true.
  - by eapply bool_decide_eq_true.
  - apply orb_true_iff in H3 as [H3|H3]; [left; by eapply bool_decide_eq_true|right; by apply Z.eqb_eq].
  - apply orb_true_iff in H4 as [H4|H4]; apply Z.eqb_eq in H4; auto.
Qed.

(** ** Safety in a running system *)

(** C3: semaphores in a running system.  [rt_sem_take] called by a thread that is
    not the idle thread, and [rt_sem_release] called by any, never fault;
    whenever they give the processor away the kernel invariant holds and a ready
    thread runs; if every state the thread is resumed in satisfies the
    invariant, they return with the invariant and the semaphore is well-formed
    (nobody waits while the value is positive).  The result of a take is 0,
    [-RT_ETIMEOUT] for a call that does not wait, or the error code the thread
    was woken with; a release returns [RT_EOK]. *)
Theorem semaphore_safe idle i s t :
  running idle s t -> sem_inv i s ->
  (forall time, t <> idle -> time < half_tick ->
    wp (guarI idle (sem_inv i)) (relyI idle (sem_inv i)) (rt_sem_take i time)
      (fun a s' => running idle s' t /\ sem_inv i s' /\ take_result t time a s') s) /\
  wp (guarI idle (sem_inv i)) (relyI idle (sem_inv i)) (rt_sem_release i)
    (fun a s' => a = RT_EOK /\ running idle s' t /\ sem_inv i s') s.
Proof. intros Hr Hi. split; [intros time Ht Htm; by apply sem_take_wp|by apply sem_release_wp]. Qed.

(** Thread 2 releases, or waits ten ticks for, the semaphore thread 3 waits for. *)
Example semaphore_safe_witness :
  wp (guarI Board.idle (sem_inv 0)) (relyI Board.idle (sem_inv 0)) (rt_sem_take 0 10)
    (fun a s' => running Board.idle s' 2 /\ sem_inv 0 s' /\ take_result 2 10 a s') Board.waiting3 /\
  wp (guarI Board.idle (sem_inv 0)) (relyI Board.idle (sem_inv 0)) (rt_sem_release 0)
    (fun a s' => a = RT_EOK /\ running Board.idle s' 2 /\ sem_inv 0 s') Board.waiting3.
Proof.
  destruct (semaphore_safe Board.idle 0 Board.waiting3 2) as [H1 H2].
  - apply Board.waiting3_running.
  - exists (sem_of Board.waiting3 0), [3%nat]. apply sem_b_sound. vm_compute. reflexivity.
  - split; [apply H1; [discriminate|reflexivity]|exact H2].
Defined.

(** ** What a take does *)

(** C11: what [rt_sem_take] does.  With a positive value it takes one unit at
    once; with value 0 and no waiting time it returns [-RT_ETIMEOUT] and changes
    nothing; otherwise the thread is suspended, waits in the semaphore's list
    at the place its flag says, its timer is armed exactly for a positive time,
    the processor goes to the highest ready thread, and when the thread runs
    again the call returns the thread's error number. *)
Theorem sem_take_behaviour idle s Q i sm ws t th time :
  kinv idle s Q -> thread_ctx s t -> sem_at i s sm ws -> k_threads s !! t = Some th ->
  thread_stat th = RT_THREAD_READY -> t <> idle -> time < half_tick ->
  (0 < sem_value sm -> rt_sem_take i time s =
     Ok RT_EOK (set_sems (<[i := set_sem_value (sem_value sm - 1) sm]> (k_sems s)) s)) /\
  (sem_value sm = 0 -> time = 0 -> rt_sem_take i time s = Ok (- RT_ETIMEOUT) s) /\
  (sem_value sm = 0 -> time <> 0 -> exists to s' k r,
     rt_sem_take i time s = Switch t to s' k /\ running idle s' to /\
     stat_is (k_threads s') t RT_THREAD_SUSPEND /\
     sem_at i s' sm (wait_insert (prio_in (k_threads s)) (o_flag (sem_parent sm)) t ws) /\
     k_timers s' !! TThread t = Some r /\
     timer_flag_test RT_TIMER_FLAG_ACTIVATED r = (0 <? time) /\
     (0 < time -> tm_timeout_tick r = u32 (k_tick s + u32 time)) /\
     (forall s2 th2, k_threads s2 !! t = Some th2 -> k s2 = Ok (t_error th2) s2)).
Proof.
  intros HI Hc Hat Ht Hst Hid Htime. pose proof Hat as [Hs Hw Hr He Hf]. split; [|split].
  - intros Hv. apply sem_take_available_eq; [by eapply ctx_quiet|done|lia].
  - intros Hv ->. apply (sem_take_nowait_eq _ _ sm); [by eapply ctx_quiet|done|done].
  - intros Hv Hnz. pose proof Hc as [C1 C2 C3 C4 C5].
    rewrite (sem_take_block_eq s i sm t th time) by done.
    set (th1 := set_t_error RT_EOK th).
    set (s1 := set_threads (<[t := th1]> (k_threads s)) (set_primask 1 s)).
    assert (kinv idle s1 Q) as HI1.
    { eapply kinv_frame; [..|by apply (kinv_field idle s Q t th th1)]; done. }
    destruct (block_eq (let! th := get_thread t in
        if negb (t_error th =? RT_EOK) then ret (t_error th) else ret RT_EOK)
      idle s1 Q (LSuspend (ISem i)) ws t th1 (o_flag (sem_parent sm)) time)
      as (V & T & G & r & n & p & to & E & [HG Hne] & Hr2 & HV & _);
      [done|by split|done|done|done|apply lookup_insert_eq|done|done|done|done|].
    eexists to, _, _, (wait_timer time (k_tick s1) r).
    split; [exact E|]. split; [exact HG|]. split; [|split; [|split; [|split; [|split]]]].
    + eexists. split; [apply lookup_insert_eq|apply stat_suspended].
    + split; [exact Hs| |done|right; done|done]. simpl. rewrite HV. do 2 f_equal.
      apply wait_insert_ext. intros u. by apply (prio_in_insert (k_threads s) t th th1).
    + apply lookup_insert_eq.
    + unfold wait_timer. destruct (0 <? time); [by apply flag_set_test|by apply flag_clear_test].
    + intros Hpos. unfold wait_timer. by rewrite (proj2 (Z.ltb_lt _ _) Hpos).
    + intros s5 th5 H5. unfold get_thread, bind, gets, ret. simpl. rewrite H5. simpl.
      destruct (Z.eqb_spec (t_error th5) RT_EOK) as [->|]; done.
Qed.

(** Thread 3 waits ten ticks for semaphore 0, whose value is 0. *)
Example sem_take_behaviour_witness :
  exists to s' k r, rt_sem_take 0 10 Board.board = Switch 3 to s' k /\ running Board.idle s' to /\
    stat_is (k_threads s') 3 RT_THREAD_SUSPEND /\
    k_timers s' !! TThread 3 = Some r /\ timer_flag_test RT_TIMER_FLAG_ACTIVATED r = true.
Proof.
  destruct (sem_take_behaviour Board.idle Board.board (Board.queues_of Board.board) 0
    (sem_of Board.board 0) [] 3 (Board.thread_of Board.board 3) 10) as (_ & _ & H).
  - apply Board.board_kinv.
  - apply Board.board_running.
  - apply sem_b_sound. vm_compute. reflexivity.
  - apply Board.thread_of_lookup. vm_compute. reflexivity.
  - vm_compute. reflexivity.
  - discriminate.
  - reflexivity.
  - destruct H as (to & s' & k & r & E & Hrun & Hst & _ & Hr & Ha & _);
      [vm_compute; reflexivity|discriminate|].
    exists to, s', k, r. auto.
Defined.

(** ** What a release does *)

(** What [rt_sem_release] does, in a thread or in an interrupt handler.
    Without waiters the value is incremented modulo [2^16].  With waiters the
    value stays 0 and the unit is handed to the first of them, which becomes
    ready; then the scheduler chooses the highest ready thread, at once in a
    thread and with a pending switch in a handler. *)
Theorem sem_release_behaviour idle s Q i sm ws from :
  kinv idle s Q -> quiet s -> k_lock_nest s = 0 -> k_current s = Some from -> sem_at i s sm ws ->
  match ws with
  | [] => rt_sem_release i s =
      Ok RT_EOK (set_sems (<[i := set_sem_value (u16 (sem_value sm + 1)) sm]> (k_sems s)) s)
  | w :: ws' => exists s' Q' p to q,
      rt_sem_release i s = res_bind (reschedule p to from s') (fun _ => ret RT_EOK) /\
      kinv idle s' Q' /\ is_highest Q' p /\ Q' p = to :: q /\
      sem_at i s' sm ws' /\ sem_value sm = 0 /\
      stat_is (k_threads s') w RT_THREAD_READY /\ w ∈ Q' (prio_in (k_threads s) w)
  end.
Proof.
  intros HI Hq Hl Hc Hat. destruct ws as [|w ws].
  - apply sem_release_count_eq; [done|apply HI|done].
  - destruct (sem_release_wake_eq idle s Q i sm w ws HI Hq Hat) as (V & T & G & r & th & E & HI' & Ht & _ & Hat').
    set (s' := core _ _ _ _ _ _) in E, HI', Hat'.
    destruct (kinv_schedule idle s' _ from HI' Hq Hl Hc) as (p & to & q & Hp & HQ & Es).
    exists s'. eexists _, p, to, q. split; [rewrite E; unfold bind; by rewrite Es|].
    split; [exact HI'|]. split; [exact Hp|]. split; [exact HQ|]. split; [done|].
    split; [by destruct (sa_excl _ _ _ _ Hat)|].
    split; [eexists; split; [apply lookup_insert_eq|apply stat_ready]|].
    unfold prio_in. rewrite Ht. simpl. unfold q_set. rewrite decide_True by done. set_solver.
Qed.

(** A handler releases the semaphore thread 3 waits for while thread 2 runs:
    the switch to thread 3 is left pending. *)
Definition handler : kview := set_irq_nest 1 Board.waiting3.

Example sem_release_behaviour_witness :
  exists s' Q' p to q,
    rt_sem_release 0 handler =
      res_bind (reschedule p to 2 s') (fun _ => ret RT_EOK) /\
    kinv Board.idle s' Q' /\ is_highest Q' p /\ Q' p = to :: q /\
    stat_is (k_threads s') 3 RT_THREAD_READY.
Proof.
  destruct (sem_release_behaviour Board.idle handler (Board.queues_of handler) 0 (sem_of handler 0) [3%nat] 2)
    as (s' & Q' & p & to & q & E & HI & Hp & HQ & _ & _ & Hs & _).
  - apply Board.kinv_b_sound. vm_compute. reflexivity.
  - intros _ _. vm_compute. reflexivity.
  - vm_compute. reflexivity.
  - vm_compute. reflexivity.
  - apply sem_b_sound. vm_compute. reflexivity.
  - exists s', Q', p, to, q. auto.
Defined.

(** The value of a semaphore overflows silently.  Releasing a semaphore
    of value 65535 that nobody waits for returns [RT_EOK] and leaves the value
    0, so the next take of it blocks or times out. *)
Theorem sem_value_wraps (s : kview) i sm :
  quiet s -> links_ok (k_links s) -> sem_at i s sm [] -> sem_value sm = 65535 ->
  exists s', rt_sem_release i s = Ok RT_EOK s' /\ rt_sem_take i 0 s' = Ok (- RT_ETIMEOUT) s'.
Proof.
  intros Hq HV Hat Hv. rewrite (sem_release_count_eq s i sm Hq HV Hat), Hv. eexists. split; [reflexivity|].
  eapply sem_take_nowait_eq; [done|apply lookup_insert_eq|done].
Qed.

(** Semaphore 0 reset to the value 65535. *)
Definition full : kview := default Board.reset_state
  (first_state (rt_sem_control 0 RT_IPC_CMD_RESET 65535 Board.board)).

Example sem_value_wraps_witness :
  exists s', rt_sem_release 0 full = Ok RT_EOK s' /\ rt_sem_take 0 0 s' = Ok (- RT_ETIMEOUT) s'.
Proof.
  apply (sem_value_wraps full 0 (sem_of full 0)).
  - intros _ _. vm_compute. reflexivity.
  - eapply si_links, ki_sched, (Board.kinv_b_sound Board.idle). vm_compute. reflexivity.
  - apply sem_b_sound. vm_compute. reflexivity.
  - vm_compute. reflexivity.
Defined.
End SemTheorems.
