(* ===== verification/MemProof.v ===== *)
(** * The small-memory heap: representation and theorems on the locked parts *)
From S2P Require Import Prelude Ram RtList KMonad KState KPrim Mem.
Import Ram Mem.
Local Open Scope Z_scope.
Local Open Scope kmonad_scope.

Module MemProof.

(** ** Headers *)
Record hmem := Hmem { m_magic : Z; m_used : Z; m_next : Z; m_prev : Z }.

(** The [struct heap_mem] at address [a]. *)
Record hdr (m : ram) (a : Z) (x : hmem) : Prop := {
  hd_magic : load 2 m a = Some (m_magic x);
  hd_used : load 2 m (a + 2) = Some (m_used x);
  hd_next : load 4 m (a + 4) = Some (m_next x);
  hd_prev : load 4 m (a + 8) = Some (m_prev x);
}.

(** [m'] differs from [m] in the [n] bytes at [a] only. *)
Definition same_but (a n : Z) (m m' : ram) : Prop :=
  forall x, x < a \/ a + n <= x -> m' !! x = m !! x.

Lemma same_but_trans a n m1 m2 m3 : same_but a n m1 m2 -> same_but a n m2 m3 -> same_but a n m1 m3.
Proof. intros H1 H2 x Hx. by rewrite H2, H1. Qed.

Lemma same_but_wider a n b k m m' :
  same_but a n m m' -> b <= a -> a + n <= b + k -> same_but b k m m'.
Proof. intros H ?? x Hx. apply H. lia. Qed.

Lemma read_bytes_ext m m' a n :
  (forall x, a <= x < a + Z.of_nat n -> m' !! x = m !! x) -> read_bytes m' a n = read_bytes m a n.
Proof.
  revert a. induction n as [|n IH]; intros a H; simpl; [done|].
  rewrite H by lia. rewrite IH; [done|]. intros x Hx. apply H. lia.
Qed.

Lemma load_ext n m m' a :
  (forall x, a <= x < a + Z.of_nat n -> m' !! x = m !! x) -> load n m' a = load n m a.
Proof. intros H. unfold load. by rewrite (read_bytes_ext m). Qed.

Lemma hdr_ext m m' a x : (forall b, a <= b < a + 12 -> m' !! b = m !! b) -> hdr m a x -> hdr m' a x.
Proof. intros H [? ? ? ?]. split; rewrite (load_ext _ m); auto; intros b Hb; apply H; lia. Qed.

Lemma hdr_frame b n m m' a x :
  same_but b n m m' -> a + 12 <= b \/ b + n <= a -> hdr m a x -> hdr m' a x.
Proof. intros H Hd. apply hdr_ext. intros c Hc. apply H. lia. Qed.

Lemma hdr_fun m a x y : hdr m a x -> hdr m a y -> x = y.
Proof. intros [? ? ? ?] [? ? ? ?]. destruct x, y; simpl in *. congruence. Qed.

(** ** Stores *)
Record stored (a n : Z) (m m' : ram) : Prop := {
  st_same : same_but a n m m';
  st_mapped : forall b k, mapped m b k -> mapped m' b k;
  st_ok : ram_ok m -> ram_ok m';
}.

Lemma stored_trans a n m1 m2 m3 : stored a n m1 m2 -> stored a n m2 m3 -> stored a n m1 m3.
Proof. intros [? ? ?] [? ? ?]. split; [by eapply same_but_trans|auto|auto]. Qed.

Lemma stored_wider a n b k m m' : stored a n m m' -> b <= a -> a + n <= b + k -> stored b k m m'.
Proof. intros [? ? ?] ??. split; [by eapply same_but_wider|done|done]. Qed.

Lemma stored_refl a n m : stored a n m m.
Proof. by split. Qed.

Lemma store_stored n m a v :
  mapped m a (Z.of_nat n) -> exists m', store n m a v = Some m' /\ stored a (Z.of_nat n) m m'.
Proof.
  intros HM. destruct (write_bytes_ok m a (le_split n v)) as [m' E]; [by rewrite length_le_split|].
  exists m'. split; [done|]. split.
  - intros x Hx. apply write_bytes_Some in E as [_ E]. rewrite E, length_le_split. by rewrite decide_False by lia.
  - intros b k. by eapply mapped_write.
  - intros Hm. by eapply ram_ok_write; [..|exact E]; [|apply le_split_bytes].
Qed.

Lemma load_mapped n m a v : load n m a = Some v -> mapped m a (Z.of_nat n).
Proof.
  unfold load. destruct (read_bytes m a n) as [l|] eqn:E; [|done]. intros _.
  apply read_bytes_lookup in E as [Hl H]. intros x Hx.
  destruct (lookup_lt_is_Some_2 l (Z.to_nat (x - a))) as [b Hb]; [lia|].
  exists b. rewrite <-(H _ _ Hb). f_equal. lia.
Qed.

Lemma mapped_load n m a : mapped m a (Z.of_nat n) -> exists v, load n m a = Some v.
Proof. intros H. apply read_bytes_ok in H as (l & E & _). unfold load. rewrite E. simpl. eauto. Qed.

Lemma mapped_sub m a n b k : mapped m a n -> a <= b -> b + k <= a + n -> mapped m b k.
Proof. intros H ?? x Hx. apply H. lia. Qed.

Lemma hdr_mapped m a x : hdr m a x -> mapped m a 12.
Proof.
  intros [H1 H2 H3 H4] b Hb. apply load_mapped in H1, H2, H3, H4. simpl in *.
  destruct (decide (b < a + 2)); [apply H1; lia|]. destruct (decide (b < a + 4)); [apply H2; lia|].
  destruct (decide (b < a + 8)); [apply H3; lia|apply H4; lia].
Qed.

(** Memory that can be accessed holds some header. *)
Lemma mapped_hdr m a : mapped m a 12 -> exists x, hdr m a x.
Proof.
  intros H. destruct (mapped_load 2 m a) as [v1 E1]; [by eapply mapped_sub; [exact H|simpl; lia..]|].
  destruct (mapped_load 2 m (a + 2)) as [v2 E2]; [by eapply mapped_sub; [exact H|simpl; lia..]|].
  destruct (mapped_load 4 m (a + 4)) as [v3 E3]; [by eapply mapped_sub; [exact H|simpl; lia..]|].
  destruct (mapped_load 4 m (a + 8)) as [v4 E4]; [by eapply mapped_sub; [exact H|simpl; lia..]|].
  by exists (Hmem v1 v2 v3 v4).
Qed.

(** ** One field of a header *)
Lemma field_store n m a off v x :
  hdr m a x -> 0 <= off -> off + Z.of_nat n <= 12 ->
  exists m', store n m (a + off) v = Some m' /\ stored a 12 m m' /\
    load n m' (a + off) = Some (v mod 256 ^ Z.of_nat n) /\
    forall k o, o + Z.of_nat k <= off \/ off + Z.of_nat n <= o -> load k m' (a + o) = load k m (a + o).
Proof.
  intros Hx Ho Hn. destruct (store_stored n m (a + off) v) as (m' & E & S).
  { eapply mapped_sub; [by eapply hdr_mapped|lia..]. }
  exists m'. split; [done|]. split; [eapply stored_wider; [exact S|lia..]|].
  split; [by eapply load_store_same|]. intros k o Hd. eapply load_store_other; [done|lia].
Qed.

(** The header after the store of one field. *)
Ltac field_done E Hoth :=
  let H1 := fresh in let H2 := fresh in let H3 := fresh in let H4 := fresh in
  match goal with Hx : hdr _ ?a _ |- _ =>
    destruct Hx as [H1 H2 H3 H4]; rewrite Z.mod_small in E by lia;
    split; simpl;
    first [exact E | by rewrite Hoth by (simpl; lia)
          | generalize (Hoth 2%nat 0); rewrite !Z.add_0_r; intros ->; [done|simpl; lia]]
  end.

Lemma hdr_store_magic m a x v : hdr m a x -> 0 <= v < 2 ^ 16 ->
  exists m', store 2 m a v = Some m' /\ stored a 12 m m' /\ hdr m' a (Hmem v (m_used x) (m_next x) (m_prev x)).
Proof.
  intros Hx Hv. destruct (field_store 2 m a 0 v x) as (m' & E & S & Hs & Ho); [done|simpl; lia..|].
  rewrite Z.add_0_r in E, Hs. exists m'. split; [done|]. split; [done|]. field_done Hs Ho.
Qed.

Lemma hdr_store_used m a x v : hdr m a x -> 0 <= v < 2 ^ 16 ->
  exists m', store 2 m (a + 2) v = Some m' /\ stored a 12 m m' /\ hdr m' a (Hmem (m_magic x) v (m_next x) (m_prev x)).
Proof.
  intros Hx Hv. destruct (field_store 2 m a 2 v x) as (m' & E & S & Hs & Ho); [done|simpl; lia..|].
  exists m'. split; [done|]. split; [done|]. field_done Hs Ho.
Qed.

Lemma hdr_store_next m a x v : hdr m a x -> 0 <= v < 2 ^ 32 ->
  exists m', store 4 m (a + 4) v = Some m' /\ stored a 12 m m' /\ hdr m' a (Hmem (m_magic x) (m_used x) v (m_prev x)).
Proof.
  intros Hx Hv. destruct (field_store 4 m a 4 v x) as (m' & E & S & Hs & Ho); [done|simpl; lia..|].
  exists m'. split; [done|]. split; [done|]. field_done Hs Ho.
Qed.

Lemma hdr_store_prev m a x v : hdr m a x -> 0 <= v < 2 ^ 32 ->
  exists m', store 4 m (a + 8) v = Some m' /\ stored a 12 m m' /\ hdr m' a (Hmem (m_magic x) (m_used x) (m_next x) v).
Proof.
  intros Hx Hv. destruct (field_store 4 m a 8 v x) as (m' & E & S & Hs & Ho); [done|simpl; lia..|].
  exists m'. split; [done|]. split; [done|]. field_done Hs Ho.
Qed.

(** ** The field operations on a header that is there *)
Lemma set_ram_eta h : set_hp_ram (hp_ram h) h = h.
Proof. by destruct h. Qed.

Section fields.
Context (h : heap) (m : ram) (a : Z) (x : hmem).
Hypothesis Hx : hdr m a x.

Lemma ld_ok n b v : load n m b = Some v -> ld n b (set_hp_ram m h) = Ok v (set_hp_ram m h).
Proof. unfold ld. simpl. by intros ->. Qed.

Lemma get_magic_ok : get_magic a (set_hp_ram m h) = Ok (m_magic x) (set_hp_ram m h).
Proof using Hx. apply ld_ok, Hx. Qed.
Lemma get_used_ok : get_used a (set_hp_ram m h) = Ok (m_used x) (set_hp_ram m h).
Proof using Hx. apply ld_ok, Hx. Qed.
Lemma get_next_ok : get_next a (set_hp_ram m h) = Ok (m_next x) (set_hp_ram m h).
Proof using Hx. apply ld_ok, Hx. Qed.
Lemma get_prev_ok : get_prev a (set_hp_ram m h) = Ok (m_prev x) (set_hp_ram m h).
Proof using Hx. apply ld_ok, Hx. Qed.

Lemma ram_op_ok f m' : f m = Some m' -> ram_op f (set_hp_ram m h) = Ok tt (set_hp_ram m' h).
Proof. unfold ram_op. simpl. by intros ->. Qed.

Lemma set_magic_ok v : 0 <= v < 2 ^ 16 ->
  exists m', set_magic a v (set_hp_ram m h) = Ok tt (set_hp_ram m' h) /\ stored a 12 m m' /\
    hdr m' a (Hmem v (m_used x) (m_next x) (m_prev x)).
Proof using Hx.
  intros Hv. destruct (hdr_store_magic _ _ _ v Hx Hv) as (m' & E & ?).
  exists m'. split; [|done]. by apply ram_op_ok.
Qed.
Lemma set_used_ok v : 0 <= v < 2 ^ 16 ->
  exists m', set_used a v (set_hp_ram m h) = Ok tt (set_hp_ram m' h) /\ stored a 12 m m' /\
    hdr m' a (Hmem (m_magic x) v (m_next x) (m_prev x)).
Proof using Hx.
  intros Hv. destruct (hdr_store_used _ _ _ v Hx Hv) as (m' & E & ?).
  exists m'. split; [|done]. by apply ram_op_ok.
Qed.
Lemma set_next_ok v : 0 <= v < 2 ^ 32 ->
  exists m', set_next a v (set_hp_ram m h) = Ok tt (set_hp_ram m' h) /\ stored a 12 m m' /\
    hdr m' a (Hmem (m_magic x) (m_used x) v (m_prev x)).
Proof using Hx.
  intros Hv. destruct (hdr_store_next _ _ _ v Hx Hv) as (m' & E & ?).
  exists m'. split; [|done]. by apply ram_op_ok.
Qed.
Lemma set_prev_ok v : 0 <= v < 2 ^ 32 ->
  exists m', set_prev a v (set_hp_ram m h) = Ok tt (set_hp_ram m' h) /\ stored a 12 m m' /\
    hdr m' a (Hmem (m_magic x) (m_used x) (m_next x) v).
Proof using Hx.
  intros Hv. destruct (hdr_store_prev _ _ _ v Hx Hv) as (m' & E & ?).
  exists m'. split; [|done]. by apply ram_op_ok.
Qed.
End fields.

(** The same on the memory of the state itself. *)
Lemma get_magic_at h a x : hdr (hp_ram h) a x -> get_magic a h = Ok (m_magic x) h.
Proof. intros H. pose proof (get_magic_ok h _ _ _ H) as E. by rewrite set_ram_eta in E. Qed.
Lemma get_used_at h a x : hdr (hp_ram h) a x -> get_used a h = Ok (m_used x) h.
Proof. intros H. pose proof (get_used_ok h _ _ _ H) as E. by rewrite set_ram_eta in E. Qed.
Lemma get_next_at h a x : hdr (hp_ram h) a x -> get_next a h = Ok (m_next x) h.
Proof. intros H. pose proof (get_next_ok h _ _ _ H) as E. by rewrite set_ram_eta in E. Qed.
Lemma get_prev_at h a x : hdr (hp_ram h) a x -> get_prev a h = Ok (m_prev x) h.
Proof. intros H. pose proof (get_prev_ok h _ _ _ H) as E. by rewrite set_ram_eta in E. Qed.

Lemma heap_at_ok h off : 0 <= hp_ptr h + off < 2 ^ 32 -> heap_at off h = Ok (hp_ptr h + off) h.
Proof. intros. unfold heap_at, gets. by rewrite u32_small by lia. Qed.

Lemma heap_off_ok h off : 0 <= off < 2 ^ 32 -> heap_off (hp_ptr h + off) h = Ok off h.
Proof.
  intros. unfold heap_off, gets. replace (hp_ptr h + off - hp_ptr h) with off by lia.
  by rewrite u32_small by lia.
Qed.

(** ** Block lists

    A block is its length, header included, and whether it is used. *)
Abbreviation blk := (Z * bool)%type.

Definition total (bs : list blk) : Z := foldr (fun (b : blk) n => b.1 + n) 0 bs.
Definition used_total (bs : list blk) : Z :=
  foldr (fun (b : blk) n => (if b.2 then b.1 else 0) + n) 0 bs.

(** Offset of the last block of [bs], which begins at [off] after the block at [prev]. *)
Fixpoint last_off (off prev : Z) (bs : list blk) : Z :=
  match bs with [] => prev | b :: bs => last_off (off + b.1) off bs end.

Section blocks.
Context (m : ram) (base : Z).

Fixpoint blocks_at (off prev : Z) (bs : list blk) : Prop :=
  match bs with
  | [] => True
  | b :: bs =>
      16 <= b.1 /\ b.1 mod 4 = 0 /\
      hdr m (base + off) (Hmem HEAP_MAGIC (Z.b2z b.2) (off + b.1) prev) /\
      blocks_at (off + b.1) off bs
  end.

(** The blocks from [off] to the end of the heap, and the end marker. *)
Definition tail_at (off prev : Z) (bs : list blk) : Prop :=
  blocks_at off prev bs /\
  exists p, hdr m (base + off + total bs) (Hmem HEAP_MAGIC 1 (off + total bs) p).
End blocks.

(** No two neighbours are free. *)
Fixpoint merged (bs : list blk) : Prop :=
  match bs with
  | [] => True
  | b :: bs' => match bs' with b' :: _ => b.2 = true \/ b'.2 = true | [] => True end /\ merged bs'
  end.

Lemma total_app bs1 bs2 : total (bs1 ++ bs2) = total bs1 + total bs2.
Proof. induction bs1 as [|b bs1 IH]; simpl; lia. Qed.
Lemma used_total_app bs1 bs2 : used_total (bs1 ++ bs2) = used_total bs1 + used_total bs2.
Proof. induction bs1 as [|b bs1 IH]; simpl; lia. Qed.
Lemma last_off_app off prev bs1 bs2 :
  last_off off prev (bs1 ++ bs2) = last_off (off + total bs1) (last_off off prev bs1) bs2.
Proof.
  revert off prev. induction bs1 as [|b bs1 IH]; intros off prev; simpl; [by rewrite Z.add_0_r|].
  rewrite IH. f_equal. lia.
Qed.

Lemma blocks_at_app m base off prev bs1 bs2 :
  blocks_at m base off prev (bs1 ++ bs2) <->
  blocks_at m base off prev bs1 /\ blocks_at m base (off + total bs1) (last_off off prev bs1) bs2.
Proof.
  revert off prev. induction bs1 as [|b bs1 IH]; intros off prev; simpl.
  - rewrite Z.add_0_r. naive_solver.
  - rewrite IH. replace (off + (b.1 + total bs1)) with (off + b.1 + total bs1) by lia. naive_solver.
Qed.

Lemma tail_at_app m base off prev bs1 bs2 :
  tail_at m base off prev (bs1 ++ bs2) <->
  blocks_at m base off prev bs1 /\ tail_at m base (off + total bs1) (last_off off prev bs1) bs2.
Proof.
  unfold tail_at. rewrite blocks_at_app, total_app.
  replace (base + off + (total bs1 + total bs2)) with (base + (off + total bs1) + total bs2) by lia.
  replace (off + (total bs1 + total bs2)) with (off + total bs1 + total bs2) by lia. naive_solver.
Qed.

Lemma blocks_total m base off prev bs :
  blocks_at m base off prev bs -> 16 * Z.of_nat (length bs) <= total bs.
Proof.
  revert off prev. induction bs as [|b bs IH]; intros off prev; simpl; [lia|].
  intros (Hb & _ & _ & H). apply IH in H. lia.
Qed.

Lemma blocks_total_mod m base off prev bs : blocks_at m base off prev bs -> total bs mod 4 = 0.
Proof.
  revert off prev. induction bs as [|b bs IH]; intros off prev; simpl; [done|].
  intros (_ & Hm & _ & H). apply IH in H. rewrite Z.add_mod, Hm, H by lia. done.
Qed.

Lemma blocks_at_ext m m' base off prev bs :
  (forall x, base + off <= x < base + off + total bs -> m' !! x = m !! x) ->
  blocks_at m base off prev bs -> blocks_at m' base off prev bs.
Proof.
  revert off prev. induction bs as [|b bs IH]; intros off prev Hext; simpl; [done|].
  intros (Hb & Hm & Hh & H). pose proof (blocks_total _ _ _ _ _ H). simpl in Hext.
  split; [done|]. split; [done|]. split.
  - eapply hdr_ext; [|exact Hh]. intros x Hx. apply Hext. lia.
  - eapply IH; [|exact H]. intros x Hx. apply Hext. lia.
Qed.

Lemma tail_at_ext m m' base off prev bs :
  (forall x, base + off <= x < base + off + total bs + 12 -> m' !! x = m !! x) ->
  tail_at m base off prev bs -> tail_at m' base off prev bs.
Proof.
  intros Hext [H [p Hp]]. pose proof (blocks_total _ _ _ _ _ H). split.
  - eapply blocks_at_ext; [|exact H]. intros x Hx. apply Hext. lia.
  - exists p. eapply hdr_ext; [|exact Hp]. intros x Hx. apply Hext. lia.
Qed.

(** The header at the beginning of a tail: a block's or the end marker. *)
Lemma tail_head m base off prev bs :
  tail_at m base off prev bs ->
  exists u p, hdr m (base + off) (Hmem HEAP_MAGIC u (match bs with [] => off | b :: _ => off + b.1 end) p) /\
    (bs = [] -> u = 1) /\ forall b bs', bs = b :: bs' -> u = Z.b2z b.2 /\ p = prev.
Proof.
  intros [H [p Hp]]. destruct bs as [|b bs]; simpl in *.
  - rewrite !Z.add_0_r in Hp. eexists _, _. split; [exact Hp|]. done.
  - destruct H as (_ & _ & Hh & _). eexists _, _. split; [exact Hh|]. split; [done|]. by intros ? ? [= <- <-].
Qed.

Lemma tail_set_prev h m base off prev bs v :
  tail_at m base off prev bs -> 0 <= v < 2 ^ 32 ->
  exists m', set_prev (base + off) v (set_hp_ram m h) = Ok tt (set_hp_ram m' h) /\
    stored (base + off) 12 m m' /\ tail_at m' base off v bs.
Proof.
  intros Ht Hv. destruct (tail_head _ _ _ _ _ Ht) as (u & p & Hh & _).
  destruct (set_prev_ok h _ _ _ Hh v Hv) as (m' & E & S & Hh').
  exists m'. split; [done|]. split; [done|]. simpl in Hh'. destruct Ht as [H [p' Hp]].
  destruct bs as [|b bs]; simpl in *.
  - split; [done|]. rewrite !Z.add_0_r in *. pose proof (hdr_fun _ _ _ _ Hh Hp) as [= -> ->]. by exists v.
  - destruct H as (Hb & Hm & Hh0 & H). pose proof (blocks_total _ _ _ _ _ H).
    pose proof (hdr_fun _ _ _ _ Hh Hh0) as [= -> ->]. split.
    + split; [done|]. split; [done|]. split; [done|].
      eapply blocks_at_ext; [|exact H]. intros x Hx. apply S. lia.
    + exists p'. eapply hdr_frame; [apply S|right; simpl; lia|exact Hp].
Qed.

(** ** The invariant

    The heap is the block list [pre ++ suf] and its end marker; [lfree] is the
    first block of [suf], which is free, or the end. *)
Record heap_rep (h : heap) (pre suf : list blk) : Prop := {
  hr_blocks : tail_at (hp_ram h) (hp_ptr h) 0 0 (pre ++ suf);
  hr_total : total (pre ++ suf) = hp_size h + 12;
  hr_size : 12 <= hp_size h;
  hr_align : hp_ptr h mod 4 = 0;
  hr_base : 0 < hp_ptr h;
  hr_top : hp_ptr h + hp_size h + 24 <= 2 ^ 32;
  hr_hend : hp_end h = hp_ptr h + hp_size h + 12;
  hr_lfree : hp_lfree h = hp_ptr h + total pre;
  hr_head : match suf with [] => True | b :: _ => b.2 = false end;
  hr_merged : merged (pre ++ suf);
  hr_mapped : mapped (hp_ram h) (hp_ptr h) (hp_size h + 24);
  hr_ok : ram_ok (hp_ram h);
  hr_used : hp_used h = used_total (pre ++ suf);
}.

(** [lfree] is the lowest free block: nothing before it is free. *)
Definition lowest (pre : list blk) : Prop := Forall (fun b : blk => b.2 = true) pre.

Lemma total_nonneg m base off prev bs : blocks_at m base off prev bs -> 0 <= total bs.
Proof. intros H. apply blocks_total in H. lia. Qed.

Lemma used_total_bound m base off prev bs : blocks_at m base off prev bs -> 0 <= used_total bs <= total bs.
Proof.
  revert off prev. induction bs as [|b bs IH]; intros off prev; simpl; [lia|].
  intros (Hb & _ & _ & H). apply IH in H. destruct b.2; lia.
Qed.

(** The user data of the used blocks is the same in both memories. *)
Fixpoint data_same (m m' : ram) (base off : Z) (bs : list blk) : Prop :=
  match bs with
  | [] => True
  | b :: bs =>
      (b.2 = true -> forall x, base + off + 12 <= x < base + off + b.1 -> m' !! x = m !! x) /\
      data_same m m' base (off + b.1) bs
  end.

Lemma data_same_app m m' base off bs1 bs2 :
  data_same m m' base off (bs1 ++ bs2) <->
  data_same m m' base off bs1 /\ data_same m m' base (off + total bs1) bs2.
Proof.
  revert off. induction bs1 as [|b bs1 IH]; intros off; simpl; [rewrite Z.add_0_r; naive_solver|].
  rewrite IH. replace (off + (b.1 + total bs1)) with (off + b.1 + total bs1) by lia. naive_solver.
Qed.

Lemma data_same_range m0 m m' base off prev bs :
  blocks_at m0 base off prev bs ->
  (forall x, base + off + 12 <= x < base + off + total bs -> m' !! x = m !! x) ->
  data_same m m' base off bs.
Proof.
  revert off prev. induction bs as [|b bs IH]; intros off prev; simpl; [done|].
  intros (Hb & _ & _ & H) Hx. pose proof (total_nonneg _ _ _ _ _ H). split.
  - intros _ x ?. apply Hx. lia.
  - eapply IH; [exact H|]. intros x ?. apply Hx. lia.
Qed.

Lemma data_same_trans m1 m2 m3 base off bs :
  data_same m1 m2 base off bs -> data_same m2 m3 base off bs -> data_same m1 m3 base off bs.
Proof.
  revert off. induction bs as [|b bs IH]; intros off; simpl; [done|].
  intros [H1 H1'] [H2 H2']. split; [|eauto]. intros Hb x Hx. by rewrite H2, H1.
Qed.

(** ** The search for the next free block *)
Lemma lfree_loop_ok fuel h bs : forall off prev,
  tail_at (hp_ram h) (hp_ptr h) off prev bs -> 0 <= off ->
  0 < hp_ptr h -> hp_ptr h + off + total bs < 2 ^ 32 ->
  hp_end h = hp_ptr h + off + total bs ->
  (length bs < fuel)%nat ->
  exists p q, bs = p ++ q /\ lowest p /\ match q with [] => True | b :: _ => b.2 = false end /\
    lfree_loop fuel (set_hp_lfree (hp_ptr h + off) h) = Ok tt (set_hp_lfree (hp_ptr h + off + total p) h).
Proof.
  revert bs. induction fuel as [|fuel IH]; intros bs off prev Ht Ho Hb Htop Hend Hf; [lia|].
  destruct (tail_head _ _ _ _ _ Ht) as (u & p & Hh & Hnil & Hcons).
  simpl. rewrite bind_gets. simpl.
  rewrite (bind_ok _ _ _ _ _ (get_used_at (set_hp_lfree (hp_ptr h + off) h) _ _ Hh)). simpl.
  destruct bs as [|b bs].
  - exists [], []. split; [done|]. split; [constructor|]. split; [done|].
    rewrite Hend, (Hnil eq_refl). simpl. rewrite !Z.add_0_r, Z.eqb_refl. done.
  - destruct (Hcons b bs eq_refl) as [-> ->].
    pose proof Ht as [(Hb24 & _ & _ & H) [pe He]]. pose proof (total_nonneg _ _ _ _ _ H). simpl in *.
    assert (hp_ptr h + off =? hp_end h = false) as -> by (apply Z.eqb_neq; lia).
    destruct b as [len []]; simpl in *.
    + rewrite (bind_ok _ _ _ _ _ (get_next_at (set_hp_lfree (hp_ptr h + off) h) _ _ Hh)). simpl.
      erewrite bind_ok; [|apply heap_at_ok; simpl; lia]. cbn [hp_ptr set_hp_lfree].
      unfold set_lfree. rewrite bind_modify.
      destruct (IH bs (off + len) off) as (p' & q & -> & Hp & Hq & E); [|lia|lia|lia|lia|lia|].
      { apply (tail_at_app _ _ off prev [(len, true)]) in Ht as [_ Ht]. simpl in Ht.
        by rewrite Z.add_0_r in Ht. }
      exists ((len, true) :: p'), q. split; [done|]. split; [by constructor|]. split; [done|].
      etrans; [exact E|]. simpl. do 2 f_equal. lia.
    + exists [], ((len, false) :: bs). split; [done|]. split; [constructor|]. split; [done|].
      simpl. by rewrite Z.add_0_r.
Qed.

(** ** Splitting and marking a block *)
Section block.
Context (h : heap) (m : ram) (p q : list blk) (len u : Z) (off prev : Z).
Abbreviation base := (hp_ptr h).
Hypothesis Hp : blocks_at m base 0 0 p.
Hypothesis Hoff : off = total p.
Hypothesis Hh : hdr m (base + off) (Hmem HEAP_MAGIC u (off + len) prev).
Hypothesis Hlen : 16 <= len.
Hypothesis Hq : tail_at m base (off + len) off q.
Hypothesis Hbase : 0 < base.
Hypothesis Htop : base + hp_size h + 24 <= 2 ^ 32.
Hypothesis Hsize : off + len + total q = hp_size h + 12.
Hypothesis Hmap : mapped m base (hp_size h + 24).

Lemma off_nonneg : 0 <= off.
Proof using Hp Hoff. rewrite Hoff. by eapply total_nonneg. Qed.

Lemma q_nonneg : 0 <= total q.
Proof using Hq. eapply total_nonneg, Hq. Qed.

Lemma create_mem2_ok size :
  0 <= size -> size + 24 <= len ->
  exists m', create_mem2 (base + off) off (off + 12 + size) (set_hp_ram m h) =
      Ok (base + (off + 12 + size)) (set_hp_ram m' h) /\
    stored (base + off) len m m' /\
    hdr m' (base + off) (Hmem HEAP_MAGIC u (off + 12 + size) prev) /\
    hdr m' (base + (off + 12 + size)) (Hmem HEAP_MAGIC 0 (off + len) off) /\
    forall x, base + off + 12 <= x < base + off + 12 + size -> m' !! x = m !! x.
Proof using Hp Hoff Hh Hlen Hq Hbase Htop Hsize Hmap.
  intros Hs1 Hs2. pose proof off_nonneg. pose proof q_nonneg. set (ptr2 := off + 12 + size).
  destruct (mapped_hdr m (base + ptr2)) as [x0 H0']; [eapply mapped_sub; [exact Hmap|lia..]|].
  unfold create_mem2. erewrite bind_ok; [|apply heap_at_ok; simpl; lia]. cbn [hp_ptr set_hp_ram].
  destruct (set_magic_ok h m _ _ H0' HEAP_MAGIC) as (m1 & E1 & S1 & H1); [done|].
  rewrite (bind_ok _ _ _ _ _ E1). simpl in H1.
  destruct (set_used_ok h m1 _ _ H1 0) as (m2 & E2 & S2 & H2); [done|].
  rewrite (bind_ok _ _ _ _ _ E2). simpl in H2.
  assert (S12 := stored_trans _ _ _ _ _ S1 S2).
  assert (hdr m2 (base + off) (Hmem HEAP_MAGIC u (off + len) prev)) as Hh2
    by (eapply hdr_frame; [apply S12|lia|exact Hh]).
  rewrite (bind_ok _ _ _ _ _ (get_next_ok h m2 _ _ Hh2)). cbn [m_next].
  destruct (set_next_ok h m2 _ _ H2 (off + len)) as (m3 & E3 & S3 & H3); [lia|].
  rewrite (bind_ok _ _ _ _ _ E3). simpl in H3.
  destruct (set_prev_ok h m3 _ _ H3 off) as (m4 & E4 & S4 & H4); [lia|].
  rewrite (bind_ok _ _ _ _ _ E4). simpl in H4.
  assert (S14 := stored_trans _ _ _ _ _ (stored_trans _ _ _ _ _ S12 S3) S4).
  assert (hdr m4 (base + off) (Hmem HEAP_MAGIC u (off + len) prev)) as Hh4
    by (eapply hdr_frame; [apply S14|lia|exact Hh]).
  destruct (set_next_ok h m4 _ _ Hh4 ptr2) as (m5 & E5 & S5 & H5); [lia|].
  rewrite (bind_ok _ _ _ _ _ E5). simpl in H5.
  exists m5. split; [done|]. split; [|split; [exact H5|]].
  - eapply stored_trans; eapply stored_wider; [exact S14|lia|lia|exact S5|lia|lia].
  - split; [eapply hdr_frame; [apply S5|lia|exact H4]|].
    intros x Hx. rewrite (st_same _ _ _ _ S5), (st_same _ _ _ _ S14) by lia. done.
Qed.

Lemma relink_next_ok m1 pv ptr2 x :
  hdr m1 (base + ptr2) x -> m_next x = off + len -> off < ptr2 < off + len ->
  tail_at m1 base (off + len) pv q ->
  exists m', relink_next (base + ptr2) ptr2 (set_hp_ram m1 h) = Ok tt (set_hp_ram m' h) /\
    stored (base + off + len) 12 m1 m' /\ tail_at m' base (off + len) ptr2 q.
Proof using Hp Hoff Hlen Hq Hbase Htop Hsize.
  intros Hx Hn Hptr Ht. pose proof off_nonneg. unfold relink_next. rewrite bind_gets.
  rewrite (bind_ok _ _ _ _ _ (get_next_ok h m1 _ _ Hx)), Hn.
  change (SIZEOF_STRUCT_MEM) with 12. cbn [hp_size set_hp_ram]. pose proof Ht as [Htb Hte].
  pose proof (blocks_total _ _ _ _ _ Htb) as Htq. rewrite (u32_small (hp_size h + 12)) by lia.
  destruct q as [|b q'].
  - simpl in Hsize. replace (off + len =? hp_size h + 12) with true by (symmetry; apply Z.eqb_eq; lia).
    exists m1. split; [done|]. split; [apply stored_refl|]. by split.
  - simpl length in Htq. assert (total (b :: q') >= 16) by lia.
    replace (off + len =? hp_size h + 12) with false by (symmetry; apply Z.eqb_neq; lia). cbn [negb].
    erewrite bind_ok; [|apply heap_at_ok; simpl; simpl in *; lia]. cbn [hp_ptr set_hp_ram].
    destruct (tail_set_prev h m1 base (off + len) pv (b :: q') ptr2 Ht) as (m' & E & S & Ht'); [lia|].
    exists m'. split; [exact E|]. split; [|exact Ht']. by rewrite <-Z.add_assoc.
Qed.

(** What becomes of a free block of [len] bytes when [size] are taken. *)
Definition alloc_blocks (size len : Z) (q : list blk) : list blk :=
  if size + 36 <=? len then (size + 12, true) :: (len - size - 12, false) :: q else (len, true) :: q.

Definition count_state (n : Z) (h : heap) : heap :=
  let u := u32 (hp_used h + n) in
  Heap (hp_ram h) (hp_sem h) (hp_ptr h) (hp_end h) (hp_lfree h) (hp_size h) u (Z.max (hp_max h) u).

Lemma count_used_ok n h0 : count_used n h0 = Ok tt (count_state n h0).
Proof.
  unfold count_used, count_state. rewrite bind_modify. unfold modify. f_equal. simpl.
  destruct (Z.ltb_spec (hp_max h0) (u32 (hp_used h0 + n))); unfold set_hp_max, set_hp_used; simpl.
  - by rewrite Z.max_r by lia.
  - by rewrite Z.max_l by lia.
Qed.

(** The memory [m'] after the block at [off] has become the blocks [bs]. *)
Record reblocked (m m' : ram) (bs : list blk) : Prop := {
  rb_tail : tail_at m' base off prev bs;
  rb_same : same_but (base + off) (len + 12) m m';
  rb_data : data_same m m' base (off + len) q;
  rb_mapped : forall b k, mapped m b k -> mapped m' b k;
  rb_ok : ram_ok m -> ram_ok m';
}.

Lemma reblocked_intro m1 m' bs :
  stored (base + off) len m m1 -> stored (base + off + len) 12 m1 m' ->
  tail_at m' base off prev bs -> reblocked m m' bs.
Proof using Hq Hlen.
  intros S1 S2 Ht. destruct S1 as [S1 M1 O1], S2 as [S2 M2 O2]. split; [done| | |auto|auto].
  - intros x Hx. rewrite S2, S1 by lia. done.
  - eapply data_same_range; [apply Hq|]. intros x Hx. rewrite S2, S1 by lia. done.
Qed.

Lemma malloc_mark_ok size :
  12 <= size -> size mod 4 = 0 -> size + 12 <= len -> len mod 4 = 0 ->
  exists m', malloc_mark (base + off) off size (set_hp_ram m h) =
      Ok tt (count_state (if size + 36 <=? len then size + 12 else len) (set_hp_ram m' h)) /\
    reblocked m m' (alloc_blocks size len q).
Proof using Hp Hoff Hh Hlen Hq Hbase Htop Hsize Hmap.
  intros Hs Hsm Hfit Hlm. pose proof off_nonneg. pose proof q_nonneg.
  unfold malloc_mark. rewrite (bind_ok _ _ _ _ _ (get_next_ok h m _ _ Hh)). cbn [m_next].
  change SIZEOF_STRUCT_MEM with 12. change MIN_SIZE_ALIGNED with 12.
  rewrite (u32_small (off + 12)), (u32_small (size + 12 + 12)), (u32_small (off + len - _)) by lia.
  unfold alloc_blocks.
  replace (size + 12 + 12 <=? off + len - (off + 12)) with (size + 36 <=? len)
    by (destruct (Z.leb_spec (size + 36) len); symmetry; [apply Z.leb_le|apply Z.leb_gt]; lia).
  destruct (Z.leb_spec (size + 36) len) as [Hsplit|Hwhole].
  - rewrite (u32_small (off + 12 + size)) by lia.
    destruct (create_mem2_ok size) as (m1 & E1 & S1 & H1 & H2 & _); [lia|lia|].
    rewrite (bind_ok _ _ _ _ _ E1).
    destruct (set_used_ok h m1 _ _ H1 1) as (m2 & E2 & S2 & H3); [done|]. simpl in H3.
    rewrite (bind_ok _ _ _ _ _ E2).
    assert (hdr m2 (base + (off + 12 + size)) (Hmem HEAP_MAGIC 0 (off + len) off)) as H4
      by (eapply hdr_frame; [apply S2|lia|exact H2]).
    assert (S12 : stored (base + off) len m m2)
      by (eapply stored_trans; [exact S1|]; eapply stored_wider; [exact S2|lia..]).
    assert (tail_at m2 base (off + len) off q) as Hq2
      by (eapply tail_at_ext; [|exact Hq]; intros x Hx; apply S12; lia).
    destruct (relink_next_ok m2 off (off + 12 + size) _ H4) as (m3 & E3 & S3 & Hq3); [done|lia|done|].
    rewrite (bind_ok _ _ _ _ _ E3), count_used_ok.
    exists m3. split; [done|]. eapply reblocked_intro; [exact S12|exact S3|].
    apply (tail_at_app _ _ _ _ [(size + 12, true); (len - size - 12, false)]). simpl.
    replace (off + (size + 12 + (len - size - 12 + 0))) with (off + len) by lia.
    replace (off + (size + 12)) with (off + 12 + size) in * by lia. split; [|exact Hq3].
    split; [lia|]. split; [rewrite Z.add_mod, Hsm; done|]. split.
    { eapply hdr_frame; [apply S3|lia|exact H3]. }
    split; [lia|]. split.
    { replace (len - size - 12) with (len + (- size) + (-3) * 4) by lia. rewrite Z_mod_plus_full, Z.add_mod, Hlm, Z_mod_zero_opp_full; done. }
    split; [|done]. replace (off + 12 + size + (len - size - 12)) with (off + len) by lia.
    eapply hdr_frame; [apply S3|lia|exact H4].
  - destruct (set_used_ok h m _ _ Hh 1) as (m2 & E2 & S2 & H3); [done|]. simpl in H3.
    rewrite (bind_ok _ _ _ _ _ E2), (bind_ok _ _ _ _ _ (get_next_ok h m2 _ _ H3)). cbn [m_next].
    erewrite bind_ok; [|apply (heap_off_ok (set_hp_ram m2 h) off); lia].
    rewrite count_used_ok. replace (u32 (off + len - off)) with len by (rewrite u32_small by lia; lia).
    exists m2. split; [done|].
    assert (S12 : stored (base + off) len m m2) by (eapply stored_wider; [exact S2|lia..]).
    eapply reblocked_intro; [exact S12|apply stored_refl|].
    apply (tail_at_app _ _ _ _ [(len, true)]). simpl. rewrite Z.add_0_r.
    split; [done|]. eapply tail_at_ext; [|exact Hq]. intros x Hx. apply S12. lia.
Qed.

(** Writing the header of the first block once more. *)
Lemma reblocked_touch m1 m2 b bs :
  reblocked m m1 (b :: bs) -> stored (base + off) 12 m1 m2 ->
  hdr m2 (base + off) (Hmem HEAP_MAGIC (Z.b2z b.2) (off + b.1) prev) -> reblocked m m2 (b :: bs).
Proof using Hlen Hq.
  intros [[(H1 & H2 & H3 & H4) [pe He]] Hs Hd HM HO] S Hh2. pose proof (total_nonneg _ _ _ _ _ H4).
  simpl in He. split.
  - split.
    + split; [done|]. split; [done|]. split; [done|]. eapply blocks_at_ext; [|exact H4]. intros x Hx. apply S. lia.
    + exists pe. eapply hdr_frame; [apply S|right; simpl; lia|exact He].
  - eapply same_but_trans; [exact Hs|]. eapply same_but_wider; [apply S|lia..].
  - eapply data_same_trans; [exact Hd|]. eapply data_same_range; [apply Hq|]. intros x Hx. apply S. lia.
  - intros c k Hc. by apply S, HM.
  - intros Hok. by apply S, HO.
Qed.
End block.

(** ** The first fit *)
(** The first block from [off] on that [rt_malloc] takes for [size] bytes:
    the blocks before it, its length, and the blocks behind it. *)
Fixpoint find_fit (msa size off : Z) (bs : list blk) : option (list blk * Z * list blk) :=
  match bs with
  | [] => None
  | b :: bs =>
      if off <? msa - size then
        if negb b.2 && (size + 12 <=? b.1) then Some ([], b.1, bs)
        else r ← find_fit msa size (off + b.1) bs; Some (b :: r.1.1, r.1.2, r.2)
      else None
  end.

Lemma find_fit_spec msa size off bs p len q :
  find_fit msa size off bs = Some (p, len, q) -> bs = p ++ (len, false) :: q /\ size + 12 <= len.
Proof.
  revert off p. induction bs as [|[l []] bs IH]; intros off p; simpl; [done|..];
    (destruct (off <? msa - size); [|done]).
  - destruct (find_fit _ _ _ bs) as [[[p' len'] q']|] eqn:E; simpl; [|done]. intros [= <- <- <-].
    apply IH in E as [-> ?]. done.
  - destruct (Z.leb_spec (size + 12) l); simpl; [by intros [= <- <- <-]|].
    destruct (find_fit _ _ _ bs) as [[[p' len'] q']|] eqn:E; simpl; [|done]. intros [= <- <- <-].
    apply IH in E as [-> ?]. done.
Qed.

Lemma b2z_zero b : (Z.b2z b =? 0) = negb b.
Proof. by destruct b. Qed.

Lemma malloc_loop_eq fuel h bs size : forall off prev,
  tail_at (hp_ram h) (hp_ptr h) off prev bs -> 0 <= off -> 0 < hp_ptr h ->
  hp_ptr h + hp_size h + 24 <= 2 ^ 32 -> off + total bs = hp_size h + 12 ->
  12 <= size <= hp_size h -> (length bs < fuel)%nat ->
  malloc_loop fuel size off h =
    match find_fit (hp_size h) size off bs with
    | Some (p, _, _) =>
        let o := off + total p in (malloc_take (hp_ptr h + o) o size ;! ret (Some (hp_ptr h + o))) h
    | None => Ok None h
    end.
Proof.
  revert bs. induction fuel as [|fuel IH]; intros bs off prev Ht Ho Hb Htop Hsz Hs Hf; [lia|].
  simpl malloc_loop. rewrite bind_gets, (u32_small (hp_size h - size)) by lia.
  destruct bs as [|b bs].
  { simpl in Hsz. rewrite (proj2 (Z.ltb_ge _ _)) by lia. done. }
  destruct (tail_head _ _ _ _ _ Ht) as (u & pv & Hh & _ & Hc). destruct (Hc _ _ eq_refl) as [-> ->].
  pose proof Ht as [(Hb24 & _ & _ & H) _]. pose proof (total_nonneg _ _ _ _ _ H). simpl in Hsz, Hf.
  simpl find_fit. destruct (off <? hp_size h - size); [|done].
  rewrite (bind_ok _ _ _ _ _ (heap_at_ok h off ltac:(lia))).
  rewrite (bind_ok _ _ _ _ _ (get_used_at h _ _ Hh)), (bind_ok _ _ _ _ _ (get_next_at h _ _ Hh)). cbn [m_used m_next]. change SIZEOF_STRUCT_MEM with 12.
  rewrite b2z_zero, (u32_small (off + 12)), (u32_small (off + b.1 - _)) by lia.
  replace (size <=? off + b.1 - (off + 12)) with (size + 12 <=? b.1)
    by (destruct (Z.leb_spec (size + 12) b.1); symmetry; [apply Z.leb_le|apply Z.leb_gt]; lia).
  destruct (negb b.2 && (size + 12 <=? b.1)); [simpl; by rewrite Z.add_0_r|].
  rewrite (bind_ok _ _ _ _ _ (heap_at_ok h off ltac:(lia))).
  rewrite (bind_ok _ _ _ _ _ (get_next_at h _ _ Hh)).
  cbn [m_next]. rewrite (IH bs (off + b.1) off); [|by apply (tail_at_app _ _ off prev [b]) in Ht as [_ Ht]; simpl in Ht; rewrite Z.add_0_r in Ht|lia..].
  destruct (find_fit _ _ _ bs) as [[[p len] q]|]; simpl; [|done]. by replace (off + (b.1 + total p)) with (off + b.1 + total p) by lia.
Qed.

(** ** [merged] *)
Lemma merged_app P b Q : merged (P ++ b :: Q) <-> merged (P ++ [b]) /\ merged (b :: Q).
Proof.
  induction P as [|x P IH]; simpl; [tauto|].
  rewrite IH. simpl. destruct P as [|y P]; simpl; tauto.
Qed.

(** Free neighbours are not created by using a block. *)
Lemma merged_use P l u l' : merged (P ++ [(l, u)]) -> merged (P ++ [(l', true)]).
Proof.
  induction P as [|x P IH]; simpl; [done|]. intros [H1 H2].
  split; [|auto]. destruct P as [|y P]; simpl in *; tauto.
Qed.

Lemma merged_resize P l u l' Q : merged (P ++ (l, u) :: Q) -> merged (P ++ (l', u) :: Q).
Proof.
  intros [H1 H2]%merged_app. apply merged_app. split; [|destruct Q; simpl in *; tauto].
  induction P as [|x P IH]; simpl in *; [done|]. destruct H1 as [H1 H1'].
  split; [|auto]. destruct P as [|y P]; simpl in *; tauto.
Qed.

Lemma merged_alloc P size len Q :
  merged (P ++ (len, false) :: Q) -> merged (P ++ alloc_blocks size len Q).
Proof.
  intros H. unfold alloc_blocks. apply merged_app in H as [H1 H2]. simpl in H2. destruct H2 as [H2 H3].
  destruct (size + 36 <=? len); apply merged_app; (split; [by eapply merged_use|]).
  - simpl. split; [by left|]. split; [|done]. destruct Q; tauto.
  - simpl. split; [|done]. destruct Q; tauto.
Qed.

Lemma total_alloc size len Q : total (alloc_blocks size len Q) = len + total Q.
Proof. unfold alloc_blocks. destruct (size + 36 <=? len); simpl; lia. Qed.

Definition alloc_len (size len : Z) : Z := if size + 36 <=? len then size + 12 else len.

Lemma alloc_blocks_cons size len Q :
  exists R, alloc_blocks size len Q = (alloc_len size len, true) :: R /\
    used_total R = used_total Q /\ total R = len + total Q - alloc_len size len.
Proof.
  unfold alloc_blocks, alloc_len. destruct (size + 36 <=? len); eexists; (split; [done|]); simpl; split; lia.
Qed.

(** ** [malloc_take] *)
Section take.
Context (h : heap) (pre p q : list blk) (len size : Z).
Abbreviation P := (pre ++ p).
Abbreviation base := (hp_ptr h).
Abbreviation off := (total P).
Hypothesis HR : heap_rep h pre (p ++ (len, false) :: q).
Hypothesis Hs : 12 <= size.
Hypothesis Hsm : size mod 4 = 0.
Hypothesis Hfit : size + 12 <= len.

Lemma take_parts :
  let prev := last_off 0 0 P in
  blocks_at (hp_ram h) base 0 0 P /\ 16 <= len /\ len mod 4 = 0 /\
  hdr (hp_ram h) (base + off) (Hmem HEAP_MAGIC 0 (off + len) prev) /\
  tail_at (hp_ram h) base (off + len) off q /\ off + len + total q = hp_size h + 12.
Proof using HR.
  destruct HR as [Ht Hsum _ _ _ _ _ _ _ _ _ _ _]. rewrite app_assoc in Ht, Hsum.
  apply tail_at_app in Ht as [HP Ht]. rewrite Z.add_0_l in Ht.
  apply (tail_at_app _ _ _ _ [(len, false)]) in Ht as [(Hl & Hm & Hh & _) Hq].
  simpl in Hq, Hh. rewrite Z.add_0_r in Hq. rewrite total_app in Hsum. simpl in Hsum.
  split; [done|]. split; [done|]. split; [done|]. split; [done|]. split; [done|]. lia.
Qed.

(** The state after the block has been marked. *)
Lemma take_marked :
  exists m', (malloc_mark (base + off) off size ;! set_magic (base + off) HEAP_MAGIC) h =
      Ok tt (count_state (alloc_len size len) (set_hp_ram m' h)) /\
    reblocked h q len off (last_off 0 0 P) (hp_ram h) m' (alloc_blocks size len q).
Proof using HR Hs Hsm Hfit.
  pose proof HR as [_ _ _ _ Hb Htop _ _ _ _ Hmap _ _].
  destruct take_parts as (HP & Hl & Hm & Hh & Hq & Hsum).
  destruct (malloc_mark_ok h (hp_ram h) P q len 0 off _ HP eq_refl Hh Hl Hq Hb Htop Hsum Hmap size)
    as (m1 & E & HB); [done..|]. rewrite set_ram_eta in E. rewrite (bind_ok _ _ _ _ _ E).
  fold (alloc_len size len). destruct (alloc_blocks_cons size len q) as (R & EB & _). rewrite EB in HB |- *.
  pose proof (rb_tail _ _ _ _ _ _ _ _ HB) as [(_ & _ & Hh1 & _) _]. cbn [fst snd] in Hh1.
  destruct (set_magic_ok (count_state (alloc_len size len) (set_hp_ram m1 h)) m1 _ _ Hh1 HEAP_MAGIC)
    as (m2 & E2 & S2 & Hh2); [done|].
  exists m2. split; [exact E2|]. eapply reblocked_touch; [exact Hl|exact Hq|exact HB|exact S2|exact Hh2].
Qed.

(** The new block list, wherever the lowest free block is then. *)
Lemma take_rep m' pre' suf' :
  reblocked h q len off (last_off 0 0 P) (hp_ram h) m' (alloc_blocks size len q) ->
  pre' ++ suf' = P ++ alloc_blocks size len q ->
  match suf' with [] => True | b :: _ => b.2 = false end ->
  heap_rep (set_hp_lfree (base + total pre') (count_state (alloc_len size len) (set_hp_ram m' h))) pre' suf' /\
  data_same (hp_ram h) m' base 0 (P ++ (len, false) :: q).
Proof using HR Hs Hfit.
  intros [Hrt Hrs Hrd Hrm Hro] E Hhead. destruct take_parts as (HP & Hl & Hm & Hh & Hq & Hsum).
  pose proof HR as [_ Htot Hsz Hal Hb Htop Hend _ _ Hmg Hmap Hok Hus].
  rewrite app_assoc in Hmg, Hus.
  assert (blocks_at m' base 0 0 P) as HP'
    by (eapply blocks_at_ext; [|exact HP]; intros x Hx; apply Hrs; lia).
  split.
  - split; simpl; try done.
    + rewrite E. apply tail_at_app. by rewrite Z.add_0_l.
    + rewrite E, total_app, total_alloc. lia.
    + rewrite E. by apply merged_alloc.
    + by apply Hrm.
    + by apply Hro.
    + rewrite E, Hus, !used_total_app. destruct (alloc_blocks_cons size len q) as (R & -> & Hu & _).
      pose proof (used_total_bound _ _ _ _ _ HP) as HuP. rewrite used_total_app in HuP. pose proof (used_total_bound _ _ _ _ _ (proj1 Hq)).
      assert (0 <= alloc_len size len <= len) by
        (unfold alloc_len; destruct (Z.leb_spec (size + 36) len); lia).
      simpl. rewrite Hu. rewrite u32_small; lia.
  - apply data_same_app. split.
    + eapply data_same_range; [exact HP|]. intros x Hx. apply Hrs. lia.
    + simpl. split; [done|]. by rewrite Z.add_0_l.
Qed.

Lemma bind_seq_ok {S A B C} (m : M S A) (n : M S B) (k : B -> M S C) s b s' :
  (m ;! n) s = Ok b s' -> bind m (fun _ => bind n k) s = k b s'.
Proof. unfold bind. destruct (m s) as [a s1| |]; simpl; [|done..]. by intros ->. Qed.

Definition allocated (h' : heap) (pre' suf' : list blk) : Prop :=
  heap_rep h' pre' suf' /\ pre' ++ suf' = P ++ alloc_blocks size len q /\
  data_same (hp_ram h) (hp_ram h') base 0 (P ++ (len, false) :: q) /\
  (lowest pre -> lowest pre') /\
  hp_sem h' = hp_sem h /\ hp_ptr h' = hp_ptr h /\ hp_size h' = hp_size h /\
  hp_max h' = Z.max (hp_max h) (hp_used h').

Lemma malloc_take_ok :
  exists h' pre' suf', malloc_take (base + off) off size h = Ok tt h' /\ allocated h' pre' suf'.
Proof using HR Hs Hsm Hfit.
  destruct take_marked as (m' & E & HB). unfold malloc_take.
  rewrite (bind_seq_ok _ _ _ _ _ _ E), bind_gets. cbn [hp_lfree set_hp_ram count_state].
  pose proof HR as [_ _ Hsz _ Hb Htop Hend Hlf Hhead _ _ _ _].
  destruct take_parts as (HP & Hl & _ & _ & Hq & Hsum). pose proof (blocks_total _ _ _ _ _ HP) as HPt.
  pose proof (total_nonneg _ _ _ _ _ HP). pose proof (total_nonneg _ _ _ _ _ (proj1 Hq)).
  pose proof (total_app pre p) as Htp. destruct (decide (p = [])) as [Hpn|Hpn].
  - assert (off = total pre) as Hoff by (rewrite Htp, Hpn; simpl; lia).
    rewrite Hlf, Hoff, Z.eqb_refl. unfold heap_fuel. rewrite bind_gets. cbn [hp_size set_hp_ram count_state].
    pose proof (rb_tail _ _ _ _ _ _ _ _ HB) as Ht.
    pose proof (blocks_total _ _ _ _ _ (proj1 Ht)) as Hlenb. rewrite total_alloc in Hlenb.
    set (h1 := count_state _ _).
    destruct (lfree_loop_ok (S (Z.to_nat (hp_size h))) h1 (alloc_blocks size len q) _ _ Ht)
      as (p1 & q1 & Eq1 & Hlow & Hq1 & E1); [done|done|rewrite total_alloc; simpl; lia|rewrite total_alloc; simpl; lia|lia|].
    assert (set_hp_lfree (hp_ptr h1 + off) h1 = h1) as Eh1
      by (unfold h1, set_hp_lfree, count_state; simpl; by rewrite Hoff, <-Hlf).
    rewrite Eh1 in E1. rewrite (bind_ok _ _ _ _ _ E1), bind_gets. cbn [hp_lfree set_hp_lfree].
    rewrite Eq1 in Ht. apply tail_at_app in Ht as [_ Ht].
    destruct (tail_head _ _ _ _ _ Ht) as (u & pv & Hh & Hnil & Hcons).
    destruct (take_rep m' (P ++ p1) q1) as [HR' HD]; [done|by rewrite Eq1, app_assoc|done|].
    rewrite total_app in HR'. change (hp_ptr h1) with base. rewrite <-Z.add_assoc.
    rewrite (bind_ok _ _ _ _ _ (get_used_at (set_hp_lfree (base + (off + total p1)) h1) _ _ Hh)).
    cbn [m_used hp_end set_hp_lfree]. change (hp_end h1) with (hp_end h).
    eexists _, (P ++ p1), q1. split; [|split; [exact HR'|]].
    + unfold rt_assert. replace (_ || _) with true; [done|]. symmetry. apply orb_true_iff.
      destruct q1 as [|b1 q1]; [left|right].
      * apply Z.eqb_eq. pose proof (hr_lfree _ _ _ HR') as El. pose proof (hr_total _ _ _ HR') as Et.
        rewrite app_nil_r in Et. rewrite !total_app in Et. simpl in Et. lia.
      * destruct (Hcons _ _ eq_refl) as [-> _]. by rewrite Hq1.
    + split; [by rewrite Eq1, app_assoc|]. split; [done|]. split; [|done].
      intros Hlo. unfold lowest. rewrite Hpn, app_nil_r, Forall_app. done.
  - replace (base + off =? hp_lfree h) with false.
    2:{ symmetry. apply Z.eqb_neq. rewrite Hlf, Htp.
        pose proof (proj2 (proj1 (blocks_at_app _ _ _ _ _ _) HP)) as Hbp. apply blocks_total in Hbp.
        destruct p; [done|]. simpl length in Hbp. lia. }
    destruct (take_rep m' pre (p ++ alloc_blocks size len q)) as [HR' HD]; [done|by rewrite app_assoc| |].
    { destruct p as [|b p']; [done|]. exact Hhead. }
    assert (set_hp_lfree (base + total pre) (count_state (alloc_len size len) (set_hp_ram m' h)) =
      count_state (alloc_len size len) (set_hp_ram m' h)) as Eh.
    { unfold set_hp_lfree, count_state. simpl. by rewrite <-Hlf. }
    rewrite Eh in HR'. eexists _, pre, _. split; [done|]. split; [exact HR'|].
    split; [by rewrite app_assoc|]. split; [done|]. done.
Qed.
End take.

Lemma malloc_locked_ok h pre suf size :
  heap_rep h pre suf -> 12 <= size <= hp_size h -> size mod 4 = 0 ->
  match find_fit (hp_size h) size (total pre) suf with
  | None => malloc_locked size h = Ok None h
  | Some (p, len, q) => exists h' pre' suf',
      malloc_locked size h = Ok (Some (hp_ptr h + total (pre ++ p))) h' /\
      allocated h pre p q len size h' pre' suf'
  end.
Proof.
  intros HR Hs Hsm. pose proof HR as [Ht Htot Hsz _ Hb Htop _ Hlf _ _ _ _ _].
  apply tail_at_app in Ht as [HP Ht]. rewrite Z.add_0_l in Ht. pose proof (total_nonneg _ _ _ _ _ HP).
  rewrite total_app in Htot. pose proof (blocks_total _ _ _ _ _ (proj1 Ht)).
  unfold malloc_locked, heap_fuel. rewrite !bind_gets, Hlf.
  rewrite (bind_ok _ _ _ _ _ (heap_off_ok h (total pre) ltac:(lia))).
  rewrite (malloc_loop_eq _ h suf size (total pre) _ Ht) by lia.
  destruct (find_fit _ _ _ suf) as [[[p len] q]|] eqn:E; [|done].
  apply find_fit_spec in E as [-> Hfit].
  destruct (malloc_take_ok h pre p q len size HR) as (h' & pre' & suf' & E & HA); [lia|done|done|].
  exists h', pre', suf'. split; [|exact HA]. cbv zeta. rewrite <-total_app. by rewrite (bind_ok _ _ _ _ _ E).
Qed.

(** The search gives up only when no free block from [lfree] on is large
    enough, but for one case: a last block of exactly the right size. *)
Lemma find_fit_none m base off prev msa size bs :
  blocks_at m base off prev bs -> off + total bs = msa + 12 ->
  (find_fit msa size off bs = None <->
   forall p len q, bs = p ++ (len, false) :: q -> len < size + 12 \/ (q = [] /\ len = size + 12)).
Proof.
  revert off prev. induction bs as [|[l u] bs IH]; intros off prev HB Hsum.
  { split; [|done]. intros _ p len q E. by destruct p. }
  pose proof HB as (Hl & _ & _ & H). simpl in Hl, H, Hsum. simpl find_fit.
  destruct (Z.ltb_spec off (msa - size)) as [Hlt|Hge].
  - specialize (IH _ _ H ltac:(lia)).
    destruct (negb u && (size + 12 <=? l)) eqn:Efit.
    { apply andb_true_iff in Efit as [Hu Hfit]. destruct u; [done|]. apply Z.leb_le in Hfit.
      split; [done|]. intros HF. exfalso. destruct (HF [] l bs eq_refl) as [?|[-> ?]]; simpl in *; lia. }
    transitivity (find_fit msa size (off + l) bs = None).
    { destruct (find_fit _ _ _ bs); simpl; split; done. }
    rewrite IH. split; intros HF p len q E.
    + destruct p as [|x p]; [|injection E as <- ->; by eapply HF].
      injection E as <- -> <-. simpl in Efit. apply Z.leb_gt in Efit. lia.
    + eapply (HF ((l, u) :: p)). by rewrite E.
  - split; [|done]. intros _ p len q E. rewrite E in HB.
    assert (l + total bs = total p + (len + total q)) as Et.
    { pose proof (f_equal total E) as Et. rewrite total_app in Et. exact Et. }
    apply blocks_at_app in HB as [HB1 (_ & _ & _ & HB2)]. apply blocks_total in HB1, HB2.
    destruct (decide (len < size + 12)); [by left|right].
    destruct q; simpl in *; [|lia]. split; [done|]. lia.
Qed.

(** ** Plugging holes *)
Definition fwd_len (len : Z) (q : list blk) : Z :=
  match q with (l, false) :: _ => len + l | _ => len end.
Definition fwd_rest (q : list blk) : list blk :=
  match q with (_, false) :: q' => q' | _ => q end.
Definition bwd_free (p : list blk) : bool :=
  match last p with Some (_, false) => true | _ => false end.
Definition bwd_len (p : list blk) (len : Z) : Z :=
  match last p with Some (l, false) => l + len | _ => len end.
Definition bwd_rest (p : list blk) : list blk := if bwd_free p then removelast p else p.

(** The block list after the block between [p] and [q] has been freed. *)
Definition free_blocks (p : list blk) (len : Z) (q : list blk) : list blk :=
  bwd_rest p ++ (bwd_len p (fwd_len len q), false) :: fwd_rest q.

(** What a step of [plug_holes] leaves: the new memory and [lfree]. *)
Record plugged (base : Z) (m m' : ram) (bs : list blk) : Prop := {
  pl_tail : tail_at m' base 0 0 bs;
  pl_data : data_same m m' base 0 bs;
  pl_mapped : forall b k, mapped m b k -> mapped m' b k;
  pl_ok : ram_ok m -> ram_ok m';
}.

Lemma set_lfree_if (c : bool) a b h :
  hp_lfree h = b -> (if c then set_lfree a else ret tt) h = Ok tt (set_hp_lfree (if c then a else b) h).
Proof. intros <-. destruct c; [done|]. by destruct h. Qed.

(** A free block takes over the free block behind it. *)
Lemma absorb_ok h m p la lb q :
  let base := hp_ptr h in
  tail_at m base 0 0 (p ++ (la, false) :: (lb, false) :: q) ->
  total (p ++ (la, false) :: (lb, false) :: q) = hp_size h + 12 ->
  0 < base -> base + hp_size h + 24 <= 2 ^ 32 ->
  exists m', absorb (base + total p) (base + (total p + la)) (set_hp_ram m h) = Ok tt (set_hp_ram m' h) /\
    plugged base m m' (p ++ (la + lb, false) :: q).
Proof.
  intros base Ht Hsum Hb Htop. apply tail_at_app in Ht as [HP Ht]. rewrite Z.add_0_l in Ht.
  rewrite total_app in Hsum. simpl in Hsum.
  apply (tail_at_app _ _ _ _ [(la, false); (lb, false)]) in Ht as [(Hla & Hma & Hha & Hlb & Hmb & Hhb & _) Hq].
  simpl in Hla, Hma, Hha, Hlb, Hmb, Hhb, Hq.
  replace (total p + (la + (lb + 0))) with (total p + la + lb) in Hq by lia.
  pose proof (total_nonneg _ _ _ _ _ HP). pose proof (total_nonneg _ _ _ _ _ (proj1 Hq)).
  unfold absorb. rewrite (bind_ok _ _ _ _ _ (get_next_ok h m _ _ Hhb)). cbn [m_next].
  destruct (set_next_ok h m _ _ Hha (total p + la + lb)) as (m1 & E1 & S1 & Hh1); [lia|]. simpl in Hh1.
  rewrite (bind_ok _ _ _ _ _ E1).
  assert (hdr m1 (base + (total p + la)) (Hmem HEAP_MAGIC 0 (total p + la + lb) (total p))) as Hhb1
    by (eapply hdr_frame; [apply S1|lia|exact Hhb]).
  rewrite (bind_ok _ _ _ _ _ (get_next_ok h m1 _ _ Hhb1)). cbn [m_next].
  rewrite (bind_ok _ _ _ _ _ (heap_at_ok (set_hp_ram m1 h) (total p + la + lb) ltac:(simpl; lia))).
  rewrite (bind_ok _ _ _ _ _ (heap_off_ok (set_hp_ram m1 h) (total p) ltac:(lia))).
  cbn [hp_ptr set_hp_ram]. fold base.
  assert (tail_at m1 base (total p + la + lb) (total p + la) q) as Hq1
    by (eapply tail_at_ext; [|exact Hq]; intros x Hx; apply S1; lia).
  destruct (tail_set_prev h m1 base _ _ q (total p) Hq1) as (m2 & E2 & S2 & Hq2); [lia|].
  assert (Hsame : forall x, x < base + total p \/ base + total p + 12 <= x < base + (total p + la + lb) \/
      base + (total p + la + lb) + 12 <= x -> m2 !! x = m !! x)
    by (intros x Hx; rewrite (st_same _ _ _ _ S2), (st_same _ _ _ _ S1) by lia; done).
  assert (hdr m2 (base + total p) (Hmem HEAP_MAGIC 0 (total p + la + lb) (last_off 0 0 p))) as Hh2
    by (eapply hdr_frame; [apply S2|lia|exact Hh1]).
  exists m2. split; [exact E2|]. split.
  - apply tail_at_app. rewrite Z.add_0_l. split.
    { eapply blocks_at_ext; [|exact HP]. intros x Hx. apply Hsame. lia. }
    apply (tail_at_app _ _ _ _ [(la + lb, false)]). simpl. rewrite Z.add_0_r, Z.add_assoc.
    split; [|exact Hq2]. split; [lia|]. split; [rewrite Z.add_mod, Hma, Hmb; done|]. split; [exact Hh2|done].
  - apply data_same_app. split; [eapply data_same_range; [exact HP|intros x Hx; apply Hsame; lia]|].
    simpl. split; [done|]. replace (0 + total p + (la + lb)) with (total p + la + lb) by lia.
    eapply data_same_range; [apply Hq|]. intros x Hx. apply Hsame. lia.
  - intros b k Hk. by apply S2, S1.
  - intros Hok. by apply S2, S1.
Qed.

Lemma plugged_refl base m bs : tail_at m base 0 0 bs -> plugged base m m bs.
Proof. intros Ht. split; [done| |done|done]. eapply data_same_range; [apply Ht|done]. Qed.

Section plug.
Context (h : heap) (m : ram) (p q : list blk) (len lo : Z).
Abbreviation base := (hp_ptr h).
Abbreviation off := (total p).
Hypothesis Ht : tail_at m base 0 0 (p ++ (len, false) :: q).
Hypothesis Hsum : total (p ++ (len, false) :: q) = hp_size h + 12.
Hypothesis Hbase : 0 < base.
Hypothesis Htop : base + hp_size h + 24 <= 2 ^ 32.
Hypothesis Hend : hp_end h = base + hp_size h + 12.

Lemma plug_parts :
  blocks_at m base 0 0 p /\ 16 <= len /\ len mod 4 = 0 /\
  hdr m (base + off) (Hmem HEAP_MAGIC 0 (off + len) (last_off 0 0 p)) /\
  tail_at m base (off + len) off q /\ off + len + total q = hp_size h + 12 /\ 0 <= off /\ 0 <= total q.
Proof using Ht Hsum.
  pose proof Ht as H. apply tail_at_app in H as [HP H]. rewrite Z.add_0_l in H.
  apply (tail_at_app _ _ _ _ [(len, false)]) in H as [(Hl & Hm & Hh & _) Hq].
  simpl in Hq, Hh, Hl, Hm. rewrite Z.add_0_r in Hq. pose proof Hsum as Hs. rewrite total_app in Hs. simpl in Hs.
  pose proof (total_nonneg _ _ _ _ _ HP). pose proof (total_nonneg _ _ _ _ _ (proj1 Hq)).
  do 5 (split; [done|]). lia.
Qed.

Lemma plug_forward_ok :
  exists m', plug_forward (base + off) (set_hp_ram m (set_hp_lfree (base + lo) h)) =
      Ok tt (set_hp_ram m' (set_hp_lfree
        (base + match q with (_, false) :: _ => if lo =? off + len then off else lo | _ => lo end) h)) /\
    plugged base m m' (p ++ (fwd_len len q, false) :: fwd_rest q).
Proof using Ht Hsum Hbase Htop Hend.
  destruct plug_parts as (HP & Hl & Hlm & Hh & Hq & Hs & Ho & Hqn).
  unfold plug_forward. set (h1 := set_hp_lfree (base + lo) h).
  rewrite (bind_ok _ _ _ _ _ (get_next_ok h1 m _ _ Hh)). cbn [m_next].
  rewrite (bind_ok _ _ _ _ _ (heap_at_ok (set_hp_ram m h1) (off + len) ltac:(simpl; lia))).
  cbn [hp_ptr set_hp_ram]. change (hp_ptr h1) with base.
  rewrite (proj2 (Z.eqb_neq _ _)) by lia.
  destruct (tail_head _ _ _ _ _ Hq) as (u & pv & Hhn & Hnil & Hcons).
  rewrite (bind_ok _ _ _ _ _ (get_used_ok h1 m _ _ Hhn)), bind_gets. cbn [m_used hp_end set_hp_ram].
  change (hp_end h1) with (hp_end h). rewrite Hend.
  destruct q as [|[l u'] q'].
  { rewrite (Hnil eq_refl). exists m. split; [done|by apply plugged_refl]. }
  destruct (Hcons _ _ eq_refl) as [-> ->]. destruct u'; simpl; [exists m; split; [done|by apply plugged_refl]|].
  pose proof (blocks_total _ _ _ _ _ (proj1 Hq)) as Hqt. simpl in Hqt, Hs, Hqn.
  replace (base + (off + len) =? base + hp_size h + 12) with false by (symmetry; apply Z.eqb_neq; lia).
  cbn [andb negb]. rewrite bind_gets. cbn [hp_lfree set_hp_ram].
  replace (hp_lfree h1 =? base + (off + len)) with (lo =? off + len)
    by (unfold h1; simpl; destruct (Z.eqb_spec lo (off + len)); symmetry; [apply Z.eqb_eq|apply Z.eqb_neq]; lia).
  rewrite (bind_ok _ _ _ _ _ (set_lfree_if _ _ (base + lo) (set_hp_ram m h1) eq_refl)).
  set (lo1 := if lo =? off + len then off else lo).
  replace (set_hp_lfree (if lo =? off + len then base + off else base + lo) (set_hp_ram m h1))
    with (set_hp_ram m (set_hp_lfree (base + lo1) h)) by (unfold lo1; by destruct (lo =? off + len)).
  apply (absorb_ok (set_hp_lfree (base + lo1) h) m p len l q' Ht Hsum Hbase Htop).
Qed.

Lemma last_snoc_cases (l : list blk) :
  l = [] \/ exists l' x, l = l' ++ [x].
Proof. destruct l using rev_ind; [by left|right; eauto]. Qed.

Lemma plug_backward_ok :
  exists m', plug_backward (base + off) (set_hp_ram m (set_hp_lfree (base + lo) h)) =
      Ok tt (set_hp_ram m' (set_hp_lfree
        (base + (if bwd_free p && (lo =? off) then total (bwd_rest p) else lo)) h)) /\
    plugged base m m' (bwd_rest p ++ (bwd_len p len, false) :: q).
Proof using Ht Hsum Hbase Htop Hend.
  destruct plug_parts as (HP & Hl & Hlm & Hh & Hq & Hs & Ho & Hqn).
  unfold plug_backward. set (h1 := set_hp_lfree (base + lo) h).
  rewrite (bind_ok _ _ _ _ _ (get_prev_ok h1 m _ _ Hh)). cbn [m_prev].
  destruct (last_snoc_cases p) as [Ep|(p' & [l u] & Ep)].
  { rewrite (bind_ok _ _ _ _ _ (heap_at_ok (set_hp_ram m h1) (last_off 0 0 p) ltac:(rewrite Ep; simpl; lia))).
    cbn [hp_ptr set_hp_ram]. change (hp_ptr h1) with base.
    replace (base + last_off 0 0 p =? base + off) with true by (rewrite Ep; symmetry; apply Z.eqb_eq; simpl; lia).
    exists m. rewrite Ep in Ht |- *. split; [done|by apply plugged_refl]. }
  assert (last_off 0 0 p = total p') as Elo by (rewrite Ep, last_off_app; simpl; lia).
  pose proof HP as HP1. rewrite Ep in HP1. apply blocks_at_app in HP1 as [HP1 (Hll & Hlm' & Hhp & _)].
  rewrite Z.add_0_l in Hhp. simpl in Hhp, Hll, Hlm'.
  pose proof (total_nonneg _ _ _ _ _ HP1). assert (off = total p' + l) as Eoff by (rewrite Ep, total_app; simpl; lia).
  rewrite Elo, (bind_ok _ _ _ _ _ (heap_at_ok (set_hp_ram m h1) (total p') ltac:(simpl; lia))).
  cbn [hp_ptr set_hp_ram]. change (hp_ptr h1) with base.
  rewrite (proj2 (Z.eqb_neq _ _)) by lia.
  rewrite (bind_ok _ _ _ _ _ (get_used_ok h1 m _ _ Hhp)). cbn [m_used]. rewrite b2z_zero.
  assert (bwd_free p = negb u) as Ebf by (unfold bwd_free; rewrite Ep, last_snoc; by destruct u).
  assert (bwd_rest p = if u then p else p') as Ebr
    by (unfold bwd_rest; rewrite Ebf, Ep; destruct u; simpl; [done|apply removelast_last]).
  assert (bwd_len p len = if u then len else l + len) as Ebl
    by (unfold bwd_len; rewrite Ep, last_snoc; by destruct u).
  rewrite Ebf, Ebr, Ebl. destruct u; cbn [negb andb].
  { exists m. split; [done|by apply plugged_refl]. }
  rewrite bind_gets. cbn [hp_lfree set_hp_ram].
  replace (hp_lfree h1 =? base + off) with (lo =? off)
    by (unfold h1; simpl; destruct (Z.eqb_spec lo off); symmetry; [apply Z.eqb_eq|apply Z.eqb_neq]; lia).
  rewrite (bind_ok _ _ _ _ _ (set_lfree_if _ _ (base + lo) (set_hp_ram m h1) eq_refl)).
  set (lo1 := if lo =? off then total p' else lo).
  replace (set_hp_lfree (if lo =? off then base + total p' else base + lo) (set_hp_ram m h1))
    with (set_hp_ram m (set_hp_lfree (base + lo1) h)) by (unfold lo1; by destruct (lo =? off)).
  rewrite Eoff. rewrite Ep, <-app_assoc in Ht, Hsum.
  apply (absorb_ok (set_hp_lfree (base + lo1) h) m p' l len q Ht Hsum Hbase Htop).
Qed.
End plug.

Lemma bwd_cases p :
  (bwd_free p = false /\ bwd_rest p = p /\ (forall n, bwd_len p n = n) /\
     match last p with Some b => b.2 = true | None => True end) \/
  exists p' l, p = p' ++ [(l, false)] /\ bwd_free p = true /\ bwd_rest p = p' /\ forall n, bwd_len p n = l + n.
Proof.
  unfold bwd_free, bwd_len, bwd_rest, bwd_free. destruct (last_snoc_cases p) as [->|(p' & [l u] & ->)].
  { by left. }
  rewrite last_snoc. destruct u; simpl; [by left|right]. exists p', l. by rewrite removelast_last.
Qed.

Lemma fwd_cases q :
  (fwd_rest q = q /\ (forall n, fwd_len n q = n) /\ match q with b :: _ => b.2 = true | [] => True end) \/
  exists l q', q = (l, false) :: q' /\ fwd_rest q = q' /\ forall n, fwd_len n q = n + l.
Proof. destruct q as [|[l []] q]; [by left..|right]. by exists l, q. Qed.

Lemma total_free p len q : total (free_blocks p len q) = total p + len + total q.
Proof.
  unfold free_blocks. rewrite total_app. simpl.
  destruct (bwd_cases p) as [(_ & -> & -> & _)|(p' & l & -> & _ & -> & ->)], (fwd_cases q) as [(-> & -> & _)|(l2 & q' & -> & -> & ->)];
    rewrite ?total_app; simpl; lia.
Qed.

Lemma used_total_free p len q : used_total (free_blocks p len q) = used_total p + used_total q.
Proof.
  unfold free_blocks. rewrite used_total_app. simpl.
  destruct (bwd_cases p) as [(_ & -> & _)|(p' & l & -> & _ & -> & _)], (fwd_cases q) as [(-> & _)|(l2 & q' & -> & -> & _)];
    rewrite ?used_total_app; simpl; lia.
Qed.

Lemma merged_join p n q :
  merged p -> match last p with Some b => b.2 = true | None => True end ->
  merged q -> match q with b :: _ => b.2 = true | [] => True end -> merged (p ++ (n, false) :: q).
Proof.
  intros Hp Hlast Hq Hhead. apply merged_app. split.
  - induction p as [|b p IH]; [done|]. destruct Hp as [Hp1 Hp2]. split.
    + destruct p as [|b' p]; simpl in *; [by left|done].
    + apply IH; [done|]. by destruct p.
  - split; [|done]. destruct q; [done|by right].
Qed.

Lemma merged_app_l p q : merged (p ++ q) -> merged p.
Proof.
  induction p as [|b p IH]; [done|]. intros [H1 H2]. split; [|auto]. by destruct p.
Qed.

Lemma merged_app_r p q : merged (p ++ q) -> merged q.
Proof. induction p as [|b p IH]; [done|]. intros [H1 H2]. auto. Qed.

Lemma merged_free p len q : merged (p ++ (len, true) :: q) -> merged (free_blocks p len q).
Proof.
  intros H. pose proof (merged_app_l _ _ H) as Hp. apply merged_app_r in H as [_ Hq]. unfold free_blocks.
  apply merged_join.
  - destruct (bwd_cases p) as [(_ & -> & _)|(p' & l & -> & _ & -> & _)]; [done|by eapply merged_app_l].
  - destruct (bwd_cases p) as [(_ & -> & _ & ?)|(p' & l & -> & _ & -> & _)]; [done|].
    destruct (last_snoc_cases p') as [->|(p'' & b & ->)]; [done|]. rewrite last_snoc.
    rewrite <-app_assoc in Hp. apply merged_app_r in Hp as [[?|?] _]; [done|by simpl in *].
  - destruct (fwd_cases q) as [(-> & _)|(l2 & q' & -> & -> & _)]; [done|apply Hq].
  - destruct (fwd_cases q) as [(-> & _ & ?)|(l2 & q' & -> & -> & _)]; [done|].
    destruct q' as [|b q']; [done|]. destruct Hq as [[?|?] _]; done.
Qed.

Lemma data_same_bwd m m' base p n q :
  data_same m m' base 0 (p ++ (n, false) :: q) ->
  data_same m m' base 0 (bwd_rest p ++ (bwd_len p n, false) :: q).
Proof.
  destruct (bwd_cases p) as [(_ & -> & -> & _)|(p' & l & -> & _ & -> & ->)]; [done|].
  rewrite <-app_assoc, !data_same_app. simpl. intros (H1 & _ & _ & H2). split; [done|]. split; [done|].
  by replace (0 + total p' + (l + n)) with (0 + total p' + (l + 0) + n) by lia.
Qed.

(** [plug_holes] on a block between [p] and [q], whatever [lfree] is. *)
Lemma plug_holes_ok h m p q len lo :
  let base := hp_ptr h in
  tail_at m base 0 0 (p ++ (len, false) :: q) ->
  total (p ++ (len, false) :: q) = hp_size h + 12 ->
  0 < base -> base + hp_size h + 24 <= 2 ^ 32 -> hp_end h = base + hp_size h + 12 ->
  exists m',
    let lo1 := match q with (_, false) :: _ => if lo =? total p + len then total p else lo | _ => lo end in
    plug_holes (base + total p) (set_hp_ram m (set_hp_lfree (base + lo) h)) =
      Ok tt (set_hp_ram m' (set_hp_lfree
        (base + (if bwd_free p && (lo1 =? total p) then total (bwd_rest p) else lo1)) h)) /\
    plugged base m m' (free_blocks p len q).
Proof.
  intros base Ht Hsum Hb Htop Hend.
  destruct (plug_parts h m p q len Ht Hsum) as (HP & Hl & Hlm & Hh & Hq & Hs & Ho & Hqn).
  set (h1 := set_hp_lfree (base + lo) h).
  assert (plug_holes (base + total p) (set_hp_ram m h1) =
    (plug_forward (base + total p) ;! plug_backward (base + total p)) (set_hp_ram m h1)) as ->.
  { unfold plug_holes. rewrite bind_gets. cbn [hp_ptr hp_end set_hp_ram].
    change (hp_ptr h1) with base. change (hp_end h1) with (hp_end h). fold base in Hh, Hend.
    rewrite bind_assert by (apply Z.leb_le; lia). rewrite bind_assert by (apply Z.ltb_lt; lia).
    rewrite (bind_ok _ _ _ _ _ (get_used_ok h1 m _ _ Hh)). by rewrite bind_assert. }
  destruct (plug_forward_ok h m p q len lo Ht Hsum Hb Htop Hend) as (m1 & E1 & [P1 D1 M1 O1]).
  rewrite (bind_ok _ _ _ _ _ E1). fold base. set (lo1 := match q with (_, false) :: _ => _ | _ => _ end).
  destruct (plug_backward_ok h m1 p (fwd_rest q) (fwd_len len q) lo1 P1) as (m2 & E2 & [P2 D2 M2 O2]);
    [|done..|].
  { rewrite total_app. simpl. destruct (fwd_cases q) as [(-> & -> & _)|(l2 & q' & -> & -> & ->)]; simpl in *; lia. }
  exists m2. split; [exact E2|]. split; [exact P2| |auto|auto].
  eapply data_same_trans; [by apply data_same_bwd|exact D2].
Qed.

(** ** [rt_free] under the semaphore *)
Definition freed (h : heap) (p q : list blk) (len : Z) (pre : list blk) (h' : heap) (pre' suf' : list blk) : Prop :=
  heap_rep h' pre' suf' /\ pre' ++ suf' = free_blocks p len q /\
  data_same (hp_ram h) (hp_ram h') (hp_ptr h) 0 (free_blocks p len q) /\
  (lowest pre -> lowest pre') /\
  hp_sem h' = hp_sem h /\ hp_ptr h' = hp_ptr h /\ hp_size h' = hp_size h /\ hp_max h' = hp_max h.

(** Where the lowest free block is after the block between [p] and [q] was freed. *)
Lemma free_split h p q len pre suf :
  heap_rep h pre suf -> pre ++ suf = p ++ (len, true) :: q ->
  let lo := if total p <? total pre then total p else total pre in
  let lo1 := match q with (_, false) :: _ => if lo =? total p + len then total p else lo | _ => lo end in
  exists pre' suf', pre' ++ suf' = free_blocks p len q /\
    (if bwd_free p && (lo1 =? total p) then total (bwd_rest p) else lo1) = total pre' /\
    match suf' with [] => True | b :: _ => b.2 = false end /\ (lowest pre -> lowest pre').
Proof.
  intros HR E lo lo1. pose proof (hr_blocks _ _ _ HR) as Ht. pose proof (hr_head _ _ _ HR) as Hhead.
  assert (0 <= total p /\ 16 <= len) as [Hp Hl].
  { rewrite E in Ht. apply tail_at_app in Ht as [HP [(Hl & _) _]]. split; [by eapply total_nonneg|done]. }
  assert (lo <= total p) as Hlo by (unfold lo; destruct (Z.ltb_spec (total p) (total pre)); lia).
  assert (lo1 = lo) as ->.
  { unfold lo1. destruct q as [|[l []] q]; [done..|]. by rewrite (proj2 (Z.eqb_neq _ _)) by lia. }
  apply app_eq_inv in E as [(k & -> & E)|(k & -> & E)].
  - destruct k as [|b k]; [simpl in E; destruct suf; [done|injection E as <- <-; done]|].
    injection E as <- Eq. exists (bwd_rest p), ((bwd_len p (fwd_len len q), false) :: fwd_rest q).
    apply tail_at_app in Ht as [Ht _]. apply blocks_at_app in Ht as [_ Ht]. apply blocks_total in Ht. simpl length in Ht.
    assert (lo = total p) as -> by (unfold lo; rewrite total_app; destruct (Z.ltb_spec (total p) (total p + total ((len, true) :: k))); lia).
    split; [done|]. rewrite Z.eqb_refl, andb_true_r. unfold lowest. rewrite Forall_app.
    destruct (bwd_cases p) as [(-> & -> & _)|(p' & l & -> & -> & -> & _)]; [naive_solver|].
    rewrite Forall_app. naive_solver.
  - destruct k as [|b k]; [simpl in E; subst suf; by simpl in Hhead|].
    rewrite E in Ht, Hhead. apply tail_at_app in Ht as [_ [Ht _]].
    assert (0 < total (b :: k)) as Hk.
    { change ((b :: k) ++ (len, true) :: q) with (b :: k ++ (len, true) :: q) in Ht. simpl in Ht.
      destruct Ht as (Hb & _ & _ & Ht). apply blocks_at_app in Ht as [Ht _]. apply total_nonneg in Ht. simpl. lia. }
    assert (lo = total pre) as -> by (unfold lo; rewrite total_app; destruct (Z.ltb_spec (total pre + total (b :: k)) (total pre)); lia).
    rewrite (proj2 (Z.eqb_neq _ _)), andb_false_r by (rewrite total_app; lia).
    unfold free_blocks. destruct (bwd_cases (pre ++ b :: k)) as [(_ & -> & _)|(p' & l & Ep & _ & -> & _)].
    + exists pre, ((b :: k) ++ (bwd_len (pre ++ b :: k) (fwd_len len q), false) :: fwd_rest q).
      by rewrite app_assoc.
    + destruct (last_snoc_cases (b :: k)) as [?|(k' & x & Ek)]; [done|]. rewrite Ek in Ep |- *.
      rewrite app_assoc in Ep. apply app_inj_tail in Ep as [<- ->].
      exists pre. eexists. split; [by rewrite <-app_assoc|]. split; [done|]. split; [|done].
      destruct k' as [|b' k']; [done|]. injection Ek as <- _. done.
Qed.

Lemma free_locked_ok h p q len pre suf :
  heap_rep h pre suf -> pre ++ suf = p ++ (len, true) :: q ->
  exists h' pre' suf', free_locked (hp_ptr h + total p) h = Ok tt h' /\ freed h p q len pre h' pre' suf'.
Proof.
  intros HR E. destruct (free_split h p q len pre suf HR E) as (pre' & suf' & E' & Hlo & Hhead' & Hlow).
  pose proof HR as [Ht Htot Hsz Hal Hb Htop Hend Hlf _ Hmg Hmap Hok Hus]. rewrite E in Ht, Htot, Hmg, Hus.
  pose proof Ht as Ht0. apply tail_at_app in Ht as [HP Ht]. rewrite Z.add_0_l in Ht.
  apply (tail_at_app _ _ _ _ [(len, true)]) in Ht as [(Hl & Hlm & Hh & _) Hq].
  simpl in Hq, Hh, Hl, Hlm. rewrite Z.add_0_r in Hq. rewrite total_app in Htot. simpl in Htot.
  pose proof (total_nonneg _ _ _ _ _ HP). pose proof (total_nonneg _ _ _ _ _ (proj1 Hq)).
  set (base := hp_ptr h) in *. set (mem := base + total p) in *.
  unfold free_locked. rewrite (bind_ok _ _ _ _ _ (get_used_at h _ _ Hh)), (bind_ok _ _ _ _ _ (get_magic_at h _ _ Hh)).
  rewrite bind_assert, bind_assert by done. cbn [m_used m_magic].
  destruct (set_used_ok h _ _ _ Hh 0) as (m1 & E1 & S1 & Hh1); [done|]. rewrite set_ram_eta in E1. simpl in Hh1.
  rewrite (bind_ok _ _ _ _ _ E1).
  destruct (set_magic_ok h m1 _ _ Hh1 HEAP_MAGIC) as (m2 & E2 & S2 & Hh2); [done|]. simpl in Hh2.
  rewrite (bind_ok _ _ _ _ _ E2), bind_gets. cbn [hp_lfree set_hp_ram]. rewrite Hlf.
  pose proof (stored_trans _ _ _ _ _ S1 S2) as S.
  rewrite (bind_ok _ _ _ _ _ (set_lfree_if _ _ _ (set_hp_ram m2 h) Hlf)).
  set (lo := if total p <? total pre then total p else total pre) in *.
  replace (set_hp_lfree (if mem <? base + total pre then mem else base + total pre) (set_hp_ram m2 h))
    with (set_hp_ram m2 (set_hp_lfree (base + lo) h)).
  2:{ unfold lo, mem. destruct (Z.ltb_spec (base + total p) (base + total pre)), (Z.ltb_spec (total p) (total pre)); done || lia. }
  rewrite (bind_ok _ _ _ _ _ (get_next_ok (set_hp_lfree (base + lo) h) m2 _ _ Hh2)). cbn [m_next].
  rewrite (bind_ok _ _ _ _ _ (heap_off_ok (set_hp_ram m2 (set_hp_lfree (base + lo) h)) (total p) ltac:(lia))).
  rewrite bind_modify. cbn [hp_used set_hp_ram set_hp_lfree].
  replace (u32 (total p + len - total p)) with len by (rewrite u32_small by lia; lia).
  set (us := u32 (hp_used h - len)).
  assert (tail_at m2 base 0 0 (p ++ (len, false) :: q)) as Ht2.
  { apply tail_at_app. rewrite Z.add_0_l. split.
    - eapply blocks_at_ext; [|exact HP]. intros x Hx. apply S. unfold mem. lia.
    - apply (tail_at_app _ _ _ _ [(len, false)]). simpl. rewrite Z.add_0_r. split; [done|].
      eapply tail_at_ext; [|exact Hq]. intros x Hx. apply S. unfold mem. lia. }
  destruct (plug_holes_ok (set_hp_used us h) m2 p q len lo Ht2) as (m3 & E3 & [P3 D3 M3 O3]);
    [rewrite total_app; simpl; lia|done|done|done|].
  rewrite Hlo in E3. eexists _, pre', suf'. split; [exact E3|]. split; [|split; [done|split; [|done]]].
  - split; simpl; try done.
    + by rewrite E'.
    + rewrite E', total_free. lia.
    + rewrite E'. by apply merged_free.
    + by apply M3, S.
    + by apply O3, S.
    + rewrite E', used_total_free. unfold us. rewrite Hus, used_total_app. simpl.
      pose proof (used_total_bound _ _ _ _ _ HP). pose proof (used_total_bound _ _ _ _ _ (proj1 Hq)).
      rewrite u32_small; lia.
  - eapply data_same_trans; [|exact D3]. apply data_same_bwd, data_same_app. split.
    + eapply data_same_range; [exact HP|]. intros x Hx. apply S. unfold mem. lia.
    + simpl. split; [done|]. rewrite Z.add_0_l.
      destruct (fwd_cases q) as [(-> & -> & _)|(l & q' & -> & -> & ->)].
      * eapply data_same_range; [apply Hq|]. intros x Hx. apply S. unfold mem. lia.
      * apply (tail_at_app _ _ _ _ [(l, false)]) in Hq as [(Hll & _) [Hq _]]. simpl in Hll, Hq.
        rewrite Z.add_0_r in Hq. rewrite Z.add_assoc. eapply data_same_range; [apply Hq|].
        intros x Hx. apply S. unfold mem. lia.
Qed.

(** ** The splitting branch of [rt_realloc] under the semaphore *)
(** The block list after the block between [p] and [q] was cut to [ns] bytes. *)
Definition cut_blocks (p : list blk) (len ns : Z) (q : list blk) : list blk :=
  p ++ (ns + 12, true) :: (fwd_len (len - ns - 12) q, false) :: fwd_rest q.

Lemma cut_free p len ns q : cut_blocks p len ns q = free_blocks (p ++ [(ns + 12, true)]) (len - ns - 12) q.
Proof.
  unfold cut_blocks, free_blocks, bwd_rest, bwd_len, bwd_free. rewrite last_snoc. by rewrite <-app_assoc.
Qed.

Lemma total_cut p len ns q : total (cut_blocks p len ns q) = total p + len + total q.
Proof. rewrite cut_free, total_free, total_app. simpl. lia. Qed.

Definition cut_lfree (p : list blk) (len ns : Z) (q : list blk) (lo : Z) : Z :=
  match q with (_, false) :: _ => if lo =? total p + len then total p + (ns + 12) else lo | _ => lo end.

Lemma cut_split h p q len ns pre suf :
  heap_rep h pre suf -> pre ++ suf = p ++ (len, true) :: q ->
  exists pre' suf', pre' ++ suf' = cut_blocks p len ns q /\ cut_lfree p len ns q (total pre) = total pre' /\
    match suf' with [] => True | b :: _ => b.2 = false end.
Proof.
  intros HR E. pose proof (hr_blocks _ _ _ HR) as Ht. pose proof (hr_head _ _ _ HR) as Hhead.
  pose proof Ht as Ht'. rewrite E in Ht. apply tail_at_app in Ht as [HP Ht].
  apply (tail_at_app _ _ _ _ [(len, true)]) in Ht as [(Hl & _) [Hq _]]. simpl in Hl.
  unfold cut_blocks, cut_lfree. apply app_eq_inv in E as [(k & -> & E)|(k & -> & E)].
  - destruct k as [|b k]; [simpl in E; destruct suf; [done|injection E as <- <-; done]|].
    injection E as <- Eq. rewrite total_app. destruct k as [|b k]; simpl in Eq |- *.
    + subst q. destruct suf as [|[l u] suf]; [|simpl in Hhead; subst u].
      * eexists (p ++ [(ns + 12, true); (_, false)]), []. split; [by rewrite app_nil_r|]. split; [|done].
        rewrite total_app. simpl. lia.
      * exists (p ++ [(ns + 12, true)]). eexists. split; [by rewrite <-app_assoc|].
        rewrite total_app. simpl. rewrite (proj2 (Z.eqb_eq _ _)) by lia. split; [lia|done].
    + subst q. destruct b as [l u]. apply (blocks_at_app _ _ _ _ [(l, u)]) in Hq as [(Hl1 & _) Hk]. simpl in Hl1.
      apply blocks_at_app in Hk as [Hk _]. apply total_nonneg in Hk.
      destruct u; simpl.
      * exists (p ++ (ns + 12, true) :: (len - ns - 12, false) :: (l, true) :: k), suf.
        split; [by rewrite <-app_assoc|]. rewrite total_app. simpl. split; [lia|done].
      * exists (p ++ (ns + 12, true) :: (len - ns - 12 + l, false) :: k), suf.
        split; [by rewrite <-app_assoc|]. rewrite total_app. simpl.
        rewrite (proj2 (Z.eqb_neq _ _)) by lia. split; [lia|done].
  - destruct k as [|b k]; [simpl in E; subst suf; by simpl in Hhead|].
    exists pre, ((b :: k) ++ (ns + 12, true) :: (fwd_len (len - ns - 12) q, false) :: fwd_rest q).
    split; [by rewrite app_assoc|]. apply blocks_at_app in HP as [_ HP]. apply blocks_total in HP. simpl length in HP.
    rewrite total_app. subst suf. split; [|done].
    destruct q as [|[l []] q]; [done..|]. by rewrite (proj2 (Z.eqb_neq _ _)) by lia.
Qed.

Definition resized (h : heap) (p q : list blk) (len ns : Z) (h' : heap) (pre' suf' : list blk) : Prop :=
  heap_rep h' pre' suf' /\ pre' ++ suf' = cut_blocks p len ns q /\
  data_same (hp_ram h) (hp_ram h') (hp_ptr h) 0 (cut_blocks p len ns q) /\
  hp_lfree h' = hp_ptr h + cut_lfree p len ns q (hp_lfree h - hp_ptr h) /\
  hp_sem h' = hp_sem h /\ hp_ptr h' = hp_ptr h /\ hp_size h' = hp_size h /\ hp_max h' = hp_max h.

Lemma realloc_split_ok h p q len ns pre suf :
  heap_rep h pre suf -> pre ++ suf = p ++ (len, true) :: q -> 0 < ns -> ns mod 4 = 0 -> ns + 36 < len ->
  exists h' pre' suf', realloc_split (hp_ptr h + total p) (total p) (len - 12) ns h = Ok tt h' /\
    resized h p q len ns h' pre' suf'.
Proof.
  intros HR E Hns Hnm Hfit. destruct (cut_split h p q len ns pre suf HR E) as (pre' & suf' & E' & Hlo & Hhead').
  pose proof HR as [Ht Htot Hsz Hal Hb Htop Hend Hlf _ Hmg Hmap Hok Hus]. rewrite E in Ht, Htot, Hmg, Hus.
  apply tail_at_app in Ht as [HP Ht]. rewrite Z.add_0_l in Ht.
  apply (tail_at_app _ _ _ _ [(len, true)]) in Ht as [(Hl & Hlm & Hh & _) Hq].
  simpl in Hq, Hh, Hl, Hlm. rewrite Z.add_0_r in Hq. rewrite total_app in Htot. simpl in Htot.
  pose proof (total_nonneg _ _ _ _ _ HP). pose proof (total_nonneg _ _ _ _ _ (proj1 Hq)).
  unfold realloc_split. rewrite bind_modify. change SIZEOF_STRUCT_MEM with 12.
  assert (4 <= ns) by (pose proof (Z.div_mod ns 4); lia).
  set (us := u32 (hp_used h - u32 (len - 12 - ns))).
  rewrite (u32_small (total p + 12 + ns)) by lia.
  set (h1 := set_hp_used us h).
  assert (hp_size h1 = hp_size h) as Hsz1 by done. assert (hp_ptr h1 = hp_ptr h) as Hp1 by done.
  destruct (create_mem2_ok h1 (hp_ram h) p q len 1 (total p) _ HP eq_refl Hh Hl Hq Hb Htop
    ltac:(simpl; lia) Hmap ns) as (m1 & E1 & S1 & Hh1 & Hh2 & Hkeep); [lia|lia|].
  change (set_hp_ram (hp_ram h) h1) with (set_hp_used us (set_hp_ram (hp_ram h) h)) in E1.
  rewrite set_ram_eta in E1. rewrite (bind_ok _ _ _ _ _ E1).
  assert (tail_at m1 (hp_ptr h) (total p + len) (total p) q) as Hq1
    by (eapply tail_at_ext; [|exact Hq]; intros x Hx; apply S1; simpl; lia).
  destruct (relink_next_ok h1 (hp_ram h) p q len (total p) HP eq_refl Hl Hq Hb Htop ltac:(lia)
    m1 (total p) (total p + 12 + ns) _ Hh2) as (m2 & E2 & S2 & Hq2); [done|lia|done|].
  rewrite (bind_ok _ _ _ _ _ E2).
  set (p1 := p ++ [(ns + 12, true)]).
  assert (total p1 = total p + 12 + ns) as Htp1 by (unfold p1; rewrite total_app; simpl; lia).
  assert (tail_at m2 (hp_ptr h) 0 0 (p1 ++ (len - ns - 12, false) :: q)) as Ht2.
  { unfold p1. rewrite <-app_assoc. apply tail_at_app. rewrite Z.add_0_l. split.
    { eapply blocks_at_ext; [|exact HP]. intros x Hx.
      rewrite (st_same _ _ _ _ S2), (st_same _ _ _ _ S1) by (simpl; lia). done. }
    apply (tail_at_app _ _ _ _ [(ns + 12, true); (len - ns - 12, false)]). simpl.
    replace (total p + (ns + 12 + (len - ns - 12 + 0))) with (total p + len) by lia.
    replace (total p + (ns + 12)) with (total p + 12 + ns) by lia.
    replace (total p + 12 + ns + (len - ns - 12)) with (total p + len) by lia. split; [|exact Hq2].
    split; [lia|]. split; [rewrite Z.add_mod, Hnm; done|]. split.
    { eapply hdr_frame; [apply S2|simpl; lia|exact Hh1]. }
    split; [lia|]. split; [|split; [eapply hdr_frame; [apply S2|simpl; lia|exact Hh2]|done]].
    replace (len - ns - 12) with (len + (- ns) + (-3) * 4) by lia.
    rewrite Z_mod_plus_full, Z.add_mod, Hlm, Z_mod_zero_opp_full; done. }
  assert (hp_lfree h1 = hp_ptr h1 + total pre) as Hlf1 by done.
  assert (set_hp_lfree (hp_ptr h1 + total pre) h1 = h1) as Eh1
    by (rewrite <-Hlf1; by destruct h1).
  destruct (plug_holes_ok h1 m2 p1 q (len - ns - 12) (total pre) Ht2) as (m3 & E3 & [P3 D3 M3 O3]);
    [rewrite total_app, Htp1; simpl; lia|done|done|done|].
  rewrite Eh1, Htp1 in E3. unfold p1 in P3, D3. rewrite <-cut_free in P3, D3. change (hp_ptr h1) with (hp_ptr h) in *.
  assert (bwd_free p1 = false) as Hbf by (unfold bwd_free, p1; by rewrite last_snoc).
  rewrite Hbf in E3. cbn [andb] in E3.
  eexists _, pre', suf'. split; [exact E3|].
  assert (match q with (_, false) :: _ => if total pre =? total p + 12 + ns + (len - ns - 12) then total p + 12 + ns else total pre
    | _ => total pre end = cut_lfree p len ns q (total pre)) as Ecl.
  { unfold cut_lfree. replace (total p + 12 + ns + (len - ns - 12)) with (total p + len) by lia.
    by replace (total p + (ns + 12)) with (total p + 12 + ns) by lia. }
  rewrite Ecl. split; [|split; [done|split; [|split; [simpl; rewrite Hlf; do 2 f_equal; lia|done]]]].
  - split; simpl; try done.
    + by rewrite E'.
    + rewrite E', total_cut. lia.
    + by rewrite Hlo.
    + rewrite E', cut_free. apply merged_free. rewrite <-app_assoc. apply merged_app in Hmg as [Hmg1 [_ Hmg2]].
      apply merged_app. split; [by eapply merged_use|]. simpl. split; [by left|]. split; [|done].
      by destruct q; [|left].
    + apply M3, S2, S1, Hmap.
    + apply O3, S2, S1, Hok.
    + rewrite E', cut_free, used_total_free, used_total_app. unfold us. rewrite Hus, used_total_app. simpl.
      pose proof (used_total_bound _ _ _ _ _ HP). pose proof (used_total_bound _ _ _ _ _ (proj1 Hq)).
      rewrite (u32_small (len - 12 - ns)), u32_small; lia.
  - eapply data_same_trans; [|exact D3]. unfold cut_blocks. apply data_same_app. split; [|simpl; split; [|split; [done|]]].
    + eapply data_same_range; [exact HP|]. intros x Hx.
      rewrite (st_same _ _ _ _ S2), (st_same _ _ _ _ S1) by lia. done.
    + intros _ x Hx. rewrite (st_same _ _ _ _ S2), Hkeep by lia. done.
    + assert (forall x, hp_ptr h + total p + len + 12 <= x -> m2 !! x = hp_ram h !! x) as Hx2
        by (intros x Hx; rewrite (st_same _ _ _ _ S2), (st_same _ _ _ _ S1) by lia; done).
      destruct (fwd_cases q) as [(-> & -> & _)|(l & q' & -> & -> & ->)].
      * replace (0 + total p + (ns + 12) + (len - ns - 12)) with (total p + len) by lia.
        eapply data_same_range; [apply Hq|]. intros x Hx. apply Hx2. lia.
      * apply (tail_at_app _ _ _ _ [(l, false)]) in Hq as [(Hll & _) [Hq _]]. simpl in Hll, Hq.
        rewrite Z.add_0_r in Hq.
        replace (0 + total p + (ns + 12) + (len - ns - 12 + l)) with (total p + len + l) by lia.
        eapply data_same_range; [apply Hq|]. intros x Hx. apply Hx2. lia.
Qed.
End MemProof.
