(* ===== verification/BlockMap.v ===== *)
(** * Lists of blocks as maps

    An allocator's memory is a list of blocks, each a header of [hd] bytes and
    its data.  The users of the allocator see a finite map from the addresses of
    the used blocks to their bytes ([block_map]).  Both allocators of the kernel
    are described in this way. *)
From S2P Require Import Prelude Ram MemProof.
Import Ram MemProof.
Local Open Scope Z_scope.

Module BlockMap.

(** One entry in the middle. *)
Lemma map_middle {A} (l1 l2 : list (Z * A)) r x :
  NoDup (l1 ++ (r, x) :: l2).*1 ->
  (list_to_map (l1 ++ (r, x) :: l2) : gmap Z A) = <[r := x]> (list_to_map (l1 ++ l2)) /\
  (list_to_map (l1 ++ l2) : gmap Z A) !! r = None.
Proof.
  intros Hnd. assert (l1 ++ (r, x) :: l2 ≡ₚ (r, x) :: l1 ++ l2) as HP by (by rewrite <-Permutation_middle).
  assert (NoDup ((r, x) :: l1 ++ l2).*1) as Hnd' by (by rewrite <-HP).
  split.
  - by rewrite (list_to_map_proper _ ((r, x) :: l1 ++ l2)).
  - apply not_elem_of_list_to_map. by inversion Hnd'.
Qed.

Section header.
Context (hd : Z).

(** Offset and size of the data of the used blocks. *)
Fixpoint used_list (off : Z) (bs : list blk) : list (Z * Z) :=
  match bs with
  | [] => []
  | b :: bs => (if b.2 then [(off + hd, b.1 - hd)] else []) ++ used_list (off + b.1) bs
  end.

(** A block as an entry of the map. *)
Definition entry (m : ram) (base : Z) (e : Z * Z) : Z * list Z :=
  (base + e.1, default [] (read_bytes m (base + e.1) (Z.to_nat e.2))).

Definition block_map (m : ram) (base : Z) (bs : list blk) : gmap Z (list Z) :=
  list_to_map (entry m base <$> used_list 0 bs).

Lemma used_list_app bs1 bs2 : forall off, used_list off (bs1 ++ bs2) = used_list off bs1 ++ used_list (off + total bs1) bs2.
Proof.
  induction bs1 as [|b bs1 IH]; intros off; simpl; [by rewrite Z.add_0_r|].
  rewrite IH, app_assoc. do 2 f_equal. lia.
Qed.

(** Freeing a block takes its entry out, whatever it is joined with. *)
Lemma free_used p len q :
  used_list 0 (free_blocks p len q) = used_list 0 p ++ used_list (total p + len) q.
Proof.
  unfold free_blocks. rewrite used_list_app. simpl.
  assert (forall o, used_list (o + fwd_len len q) (fwd_rest q) = used_list (o + len) q) as Hq.
  { intros o. destruct (fwd_cases q) as [(-> & -> & _)|(l & q' & -> & -> & ->)]; [done|]. simpl. f_equal. lia. }
  destruct (bwd_cases p) as [(_ & -> & -> & _)|(p' & l & -> & _ & -> & ->)].
  - by rewrite Hq.
  - rewrite used_list_app, total_app. simpl. rewrite app_nil_r. f_equal.
    rewrite Z.add_assoc, Hq. f_equal. lia.
Qed.

(** The block an entry of the map stands for. *)
Lemma used_list_elem bs e : forall off, e ∈ used_list off bs ->
  exists A B, bs = A ++ (e.2 + hd, true) :: B /\ e.1 = off + total A + hd.
Proof.
  induction bs as [|[n u] bs IH]; intros off; simpl; [by intros ?%not_elem_of_nil|].
  intros [H|H]%elem_of_app.
  - destruct u; [|by apply not_elem_of_nil in H]. apply list_elem_of_singleton in H as ->. exists [], bs. simpl.
    split; [by replace (n - hd + hd) with n by lia|lia].
  - destruct (IH _ H) as (A & B & -> & ->). exists ((n, u) :: A), B. split; [done|]. simpl. lia.
Qed.

(** Every block has its header and some data. *)
Definition roomy (bs : list blk) : Prop := Forall (fun b => hd < b.1) bs.

Section room.
Hypothesis Hhd : 0 <= hd.

Lemma roomy_total bs : roomy bs -> 0 <= total bs.
Proof using Hhd. induction 1; simpl in *; lia. Qed.

Lemma used_list_bounds bs : roomy bs -> forall off,
  Forall (fun e => off + hd <= e.1 /\ 0 < e.2 /\ e.1 + e.2 <= off + total bs) (used_list off bs).
Proof using Hhd.
  induction 1 as [|b bs Hb H IH]; intros off; simpl; [done|]. pose proof (roomy_total _ H). apply Forall_app. split.
  - destruct b.2; [|done]. repeat constructor; simpl in *; lia.
  - eapply Forall_impl; [apply IH|]. simpl in *. lia.
Qed.

Lemma used_list_distinct bs : roomy bs -> forall off, NoDup (used_list off bs).*1.
Proof using Hhd.
  induction 1 as [|b bs Hb H IH]; intros off; simpl; [constructor|].
  pose proof (used_list_bounds _ H (off + b.1)) as HR. destruct b.2; simpl; [|apply IH].
  constructor; [|apply IH]. intros Hin. apply list_elem_of_fmap in Hin as (e & E & He).
  eapply Forall_forall in HR; [|exact He]. simpl in *. lia.
Qed.

Lemma entries_distinct m base bs : roomy bs -> NoDup (entry m base <$> used_list 0 bs).*1.
Proof using Hhd.
  intros H. pose proof (used_list_distinct _ H 0) as Hd. rewrite <-list_fmap_compose.
  replace (fst ∘ entry m base) with (Z.add base ∘ (fst : Z * Z -> Z)) by done.
  rewrite list_fmap_compose. apply NoDup_fmap_2; [intros x y; lia|done].
Qed.

(** Two used blocks are the same one or apart. *)
Lemma roomy_apart A la ua B C lc uc D :
  roomy (A ++ (la, ua) :: B) -> A ++ (la, ua) :: B = C ++ (lc, uc) :: D ->
  (A = C /\ la = lc /\ ua = uc /\ B = D) \/ total A + la <= total C \/ total C + lc <= total A.
Proof using Hhd.
  intros HB E. apply app_eq_inv in E as [(k & -> & E)|(k & -> & E)].
  - destruct k as [|b k]; [rewrite app_nil_r; injection E as <- <- <-; by left|]. right; right. injection E as <- ED.
    rewrite total_app. simpl. rewrite <-app_assoc in HB.
    apply Forall_app in HB as [_ [_ HB]%Forall_cons]. apply Forall_app in HB as [HB _]. apply roomy_total in HB. lia.
  - destruct k as [|b k]; [rewrite app_nil_r; injection E as -> -> ->; by left|]. right; left. injection E as <- EB.
    rewrite total_app. simpl. apply Forall_app in HB as [_ [_ HB]%Forall_cons]. rewrite EB in HB.
    apply Forall_app in HB as [HB _]. apply roomy_total in HB. lia.
Qed.

(** The map around a block: used, free, and after it is freed. *)
Definition rest_map (m : ram) (base : Z) (A : list blk) (len : Z) (B : list blk) : gmap Z (list Z) :=
  list_to_map (entry m base <$> (used_list 0 A ++ used_list (total A + len) B)).

Lemma block_map_used m base A n B l :
  roomy (A ++ (n + hd, true) :: B) -> read_bytes m (base + total A + hd) (Z.to_nat n) = Some l ->
  block_map m base (A ++ (n + hd, true) :: B) = <[base + total A + hd := l]> (rest_map m base A (n + hd) B) /\
  rest_map m base A (n + hd) B !! (base + total A + hd) = None.
Proof using Hhd.
  intros HR El. pose proof (entries_distinct m base _ HR) as Hnd.
  assert (entry m base <$> used_list 0 (A ++ (n + hd, true) :: B) =
    (entry m base <$> used_list 0 A) ++ (base + total A + hd, l) :: (entry m base <$> used_list (total A + (n + hd)) B)) as EE.
  { rewrite used_list_app, Z.add_0_l, fmap_app. f_equal. cbn [used_list fst snd app fmap list_fmap].
    f_equal. unfold entry. cbn [fst snd]. rewrite Z.add_assoc. replace (n + hd - hd) with n by lia. by rewrite El. }
  unfold block_map, rest_map. rewrite fmap_app. rewrite EE in *. by apply map_middle.
Qed.

Lemma block_map_unused m base A len B : block_map m base (A ++ (len, false) :: B) = rest_map m base A len B.
Proof. unfold block_map, rest_map. by rewrite used_list_app. Qed.

Lemma block_map_freed m base A len B : block_map m base (free_blocks A len B) = rest_map m base A len B.
Proof. unfold block_map, rest_map. by rewrite free_used. Qed.

Lemma rest_map_divided m base A n len B :
  rest_map m base A n ((len - n, false) :: B) = rest_map m base A len B.
Proof. unfold rest_map. simpl. by replace (total A + n + (len - n)) with (total A + len) by lia. Qed.

Lemma block_map_lookup m base bs r l :
  roomy bs -> mapped m base (total bs) -> block_map m base bs !! r = Some l ->
  exists A n B, bs = A ++ (n + hd, true) :: B /\ r = base + total A + hd /\ 0 < n /\ n + hd + total A <= total bs /\
    0 <= total A /\ read_bytes m r (Z.to_nat n) = Some l /\ Z.of_nat (length l) = n.
Proof using Hhd.
  intros HR Hm E. apply elem_of_list_to_map_2 in E.
  apply list_elem_of_fmap in E as (e & Ee & He). unfold entry in Ee. injection Ee as Er El.
  pose proof (used_list_bounds _ HR 0) as HF. eapply Forall_forall in HF as (H1 & H2 & H3); [|exact He].
  destruct (used_list_elem _ _ _ He) as (A & B & EL & E1). exists A, e.2, B. rewrite EL in HR.
  apply Forall_app in HR as [HA _]. apply roomy_total in HA.
  split; [done|]. split; [lia|]. split; [done|]. split; [lia|]. split; [done|]. rewrite <-Er in El.
  destruct (read_bytes_ok m r (Z.to_nat e.2)) as (l' & E' & Hl').
  { intros x Hx. apply Hm. lia. }
  rewrite E' in El. simpl in El. subst l'. split; [done|]. lia.
Qed.

(** The bytes of one block are changed. *)
Lemma rest_map_same m m' base A len B :
  roomy (A ++ (len, true) :: B) -> (forall x, x < base + total A \/ base + total A + len <= x -> m' !! x = m !! x) ->
  rest_map m' base A len B = rest_map m base A len B.
Proof using Hhd.
  intros [HA [_ HB]%Forall_cons]%Forall_app Hx. unfold rest_map. f_equal. apply list_fmap_ext. intros i e Hi.
  apply list_elem_of_lookup_2, elem_of_app in Hi. unfold entry. do 2 f_equal. apply read_bytes_ext. intros x Hxr. apply Hx.
  destruct Hi as [Hi|Hi].
  - pose proof (used_list_bounds _ HA 0) as HF. eapply Forall_forall in HF; [|exact Hi]. simpl in HF. lia.
  - pose proof (used_list_bounds _ HB (total A + len)) as HF. eapply Forall_forall in HF; [|exact Hi]. simpl in HF. lia.
Qed.

Lemma block_map_write m m' base A n B l l' :
  roomy (A ++ (n + hd, true) :: B) -> read_bytes m (base + total A + hd) (Z.to_nat n) = Some l ->
  write_bytes m (base + total A + hd) l' = Some m' -> Z.of_nat (length l') = n ->
  block_map m' base (A ++ (n + hd, true) :: B) = <[base + total A + hd := l']> (block_map m base (A ++ (n + hd, true) :: B)).
Proof using Hhd.
  intros HR El Ew Hl'. destruct (block_map_used m base A n B l HR El) as [-> _].
  assert (read_bytes m' (base + total A + hd) (Z.to_nat n) = Some l') as El'.
  { apply read_write_same in Ew. by replace (length l') with (Z.to_nat n) in Ew by lia. }
  destruct (block_map_used m' base A n B l' HR El') as [-> _]. rewrite insert_insert_eq. f_equal.
  apply rest_map_same; [done|]. intros x Hx. apply write_bytes_Some in Ew as [_ ->]. rewrite decide_False by lia. done.
Qed.
End room.
End header.

Arguments used_list _ _ !_ /.
End BlockMap.
