(* ===== verification/Allocator.v ===== *)
(** * What an allocator promises, and what [kservice.c] builds on it

    [Allocator] is the contract of the system heap: a finite map from addresses
    to blocks of bytes.  [rt_malloc_align] and [rt_free_align] of
    [src/src/kservice.c] are proved against it, for whichever heap is
    configured. *)
From S2P Require Import Prelude Ram KMonad.
Import Ram.
Local Open Scope Z_scope.
Local Open Scope kmonad_scope.

Module Allocator.

Section contract.
Context {X : Type} (rt_malloc : Z -> M X Z) (rt_free : Z -> M X unit) (mem : X -> ram) (set_mem : ram -> X -> X).
Context (view : X -> gmap Z (list Z) -> Prop).

(** The allocated blocks and their bytes are [U] in every state with [view s U]. *)
Class Allocator : Prop := {
  al_alloc s U size : view s U -> 0 < size < 2 ^ 32 - 3 ->
    rt_malloc size s = Ok 0 s \/
    exists r s' l, rt_malloc size s = Ok r s' /\ view s' (<[r := l]> U) /\ U !! r = None /\
      size <= Z.of_nat (length l) /\ r <> 0 /\ r mod 4 = 0;
  al_free s U r l : view s U -> U !! r = Some l -> exists s', rt_free r s = Ok tt s' /\ view s' (delete r U);
  al_read s U r l : view s U -> U !! r = Some l ->
    read_bytes (mem s) r (length l) = Some l /\ Forall byte_ok l /\ 0 < r /\ r + Z.of_nat (length l) <= 2 ^ 32;
  al_write s U r l l' : view s U -> U !! r = Some l -> length l' = length l -> Forall byte_ok l' ->
    exists m', write_bytes (mem s) r l' = Some m' /\ view (set_mem m' s) (<[r := l']> U);
  al_apart s U r l r' l' : view s U -> U !! r = Some l -> U !! r' = Some l' -> r <> r' ->
    r + Z.of_nat (length l) <= r' \/ r' + Z.of_nat (length l') <= r;
  al_bytes s U : view s U -> ram_ok (mem s);
}.
End contract.

(** ** Aligned blocks *)
Section aligned.
Context {X : Type} (rt_malloc : Z -> M X Z) (rt_free : Z -> M X unit) (mem : X -> ram) (set_mem : ram -> X -> X).

Definition store_word (a v : Z) : M X unit := fun s =>
  match store 4 (mem s) a v with Some m => Ok tt (set_mem m s) | None => Err Bad_pointer end.
Definition load_word (a : Z) : M X Z := fun s =>
  match load 4 (mem s) a with Some v => Ok v s | None => Err Bad_pointer end.

(** [((x + 0x03) & ~0x03)]. *)
Definition align_up4 (x : Z) : Z := Z.land (u32 (x + 0x03)) (Z.lnot 0x03).

(** [rt_malloc_align]. *)
Definition rt_malloc_align (size align : Z) : M X Z :=
  let align := align_up4 align in
  let align_size := u32 (align_up4 size + align) in
  let! ptr := rt_malloc align_size in
  if negb (ptr =? 0) then
    let align_ptr :=
      if Z.land ptr (u32 (align - 1)) =? 0 then u32 (ptr + align)
      else Z.land (u32 (ptr + u32 (align - 1))) (Z.lnot (u32 (align - 1))) in
    store_word (u32 (align_ptr - 4)) ptr ;!
    ret align_ptr
  else ret 0.

(** [rt_free_align]. *)
Definition rt_free_align (ptr : Z) : M X unit :=
  let! real_ptr := load_word (u32 (ptr - 4)) in
  rt_free real_ptr.
End aligned.

(** *** Writes inside a block *)
Lemma write_same m a l : read_bytes m a (length l) = Some l -> write_bytes m a l = Some m.
Proof.
  revert a. induction l as [|b l IH]; intros a; simpl; [done|].
  destruct (m !! a) as [b'|] eqn:E; simpl; [|done]. destruct (read_bytes m (a + 1) (length l)) as [l'|] eqn:E'; simpl; [|done].
  intros [= -> ->]. rewrite insert_id by done. by apply IH.
Qed.

Lemma read_app m a l1 l2 :
  read_bytes m a (length (l1 ++ l2)) = Some (l1 ++ l2) ->
  read_bytes m a (length l1) = Some l1 /\ read_bytes m (a + Z.of_nat (length l1)) (length l2) = Some l2.
Proof.
  intros [_ H]%read_bytes_lookup. split; apply read_bytes_lookup; (split; [done|]); intros i b Hi.
  - apply H. by apply lookup_app_l_Some.
  - rewrite <-Z.add_assoc, <-Nat2Z.inj_add. apply H. rewrite lookup_app_r by lia. rewrite <-Hi. f_equal. lia.
Qed.

Lemma write_within m r l1 w w' l2 :
  read_bytes m r (length (l1 ++ w ++ l2)) = Some (l1 ++ w ++ l2) -> length w' = length w ->
  write_bytes m r (l1 ++ w' ++ l2) = write_bytes m (r + Z.of_nat (length l1)) w'.
Proof.
  intros HR Hw. apply read_app in HR as [H1 H2]. apply read_app in H2 as [_ H2].
  rewrite write_bytes_app, (write_same _ _ _ H1). cbn [mbind option_bind]. rewrite write_bytes_app.
  destruct (write_bytes m _ w') as [m'|] eqn:E; cbn [mbind option_bind]; [|done]. apply write_same.
  rewrite (read_write_other _ _ _ _ _ _ E) by (right; lia). by rewrite Hw.
Qed.

(** A word of a block. *)
Lemma word_split (l : list Z) (o : nat) :
  (o + 4 <= length l)%nat -> exists w, length w = 4%nat /\ l = take o l ++ w ++ drop (o + 4) l.
Proof.
  intros Ho. exists (take 4 (drop o l)). split; [rewrite length_take, length_drop; lia|].
  by rewrite <-drop_drop, !take_drop.
Qed.

Section client.
Context {X : Type} (rt_malloc : Z -> M X Z) (rt_free : Z -> M X unit) (mem : X -> ram) (set_mem : ram -> X -> X).
Context (view : X -> gmap Z (list Z) -> Prop) `{AL : !Allocator rt_malloc rt_free mem set_mem view}.
#[local] Set Default Proof Using "All".

Lemma store_word_view s U r l (o : nat) v :
  view s U -> U !! r = Some l -> (o + 4 <= length l)%nat ->
  exists s', store_word mem set_mem (r + Z.of_nat o) v s = Ok tt s' /\
    view s' (<[r := take o l ++ le_split 4 v ++ drop (o + 4) l]> U).
Proof.
  intros HV E Ho. destruct (al_read _ _ _ _ _ _ _ _ _ HV E) as (HR & Hb & _). destruct (word_split l o Ho) as (w & Hw & El).
  assert (length (le_split 4 v) = length w) as Hv by done.
  destruct (al_write _ _ _ _ _ s U r l (take o l ++ le_split 4 v ++ drop (o + 4) l) HV E) as (m' & Ew & HV').
  { rewrite El at 3. by rewrite !length_app, Hv. }
  { apply Forall_app. split; [by apply Forall_take|]. apply Forall_app. split; [apply le_split_bytes|by apply Forall_drop]. }
  exists (set_mem m' s). split; [|done]. unfold store_word, store. rewrite El in HR.
  rewrite (write_within _ _ _ w) in Ew by done. rewrite length_take, Nat.min_l in Ew by lia. by rewrite Ew.
Qed.

Lemma load_word_view s U r l (o : nat) v :
  view s U -> U !! r = Some l -> (o + 4 <= length l)%nat -> take 4 (drop o l) = le_split 4 v -> 0 <= v < 2 ^ 32 ->
  load_word mem (r + Z.of_nat o) s = Ok v s.
Proof.
  intros HV E Ho Ew Hv. destruct (al_read _ _ _ _ _ _ _ _ _ HV E) as (HR & _).
  assert (l = take o l ++ take 4 (drop o l) ++ drop (o + 4) l) as El by (by rewrite <-drop_drop, !take_drop).
  rewrite El in HR. apply read_app in HR as [_ HR]. apply read_app in HR as [HR _].
  rewrite Ew, length_le_split, length_take, Nat.min_l in HR by lia.
  unfold load_word, load. rewrite HR. cbn [fmap option_fmap option_map]. rewrite le_combine_split.
  change (256 ^ Z.of_nat 4) with (2 ^ 32). by rewrite Z.mod_small.
Qed.

(** [rt_memcpy] from one block to another. *)
Lemma memcpy_view s U p lp r l (n : nat) :
  view s U -> U !! p = Some lp -> U !! r = Some l -> p <> r -> (n <= length lp)%nat -> (n <= length l)%nat ->
  exists m', rt_memcpy (mem s) r p (Z.of_nat n) = Some m' /\ view (set_mem m' s) (<[r := take n lp ++ drop n l]> U).
Proof.
  intros HV Ep Er Hne Hp Hl. destruct (al_read _ _ _ _ _ _ _ _ _ HV Ep) as (HRp & Hbp & _ & Htp).
  destruct (al_read _ _ _ _ _ _ _ _ _ HV Er) as (HRr & Hbr & Hr & Htr).
  destruct (al_write _ _ _ _ _ s U r l (take n lp ++ drop n l) HV Er) as (m' & Ew & HV').
  { rewrite length_app, length_take, length_drop. lia. }
  { apply Forall_app. split; [by apply Forall_take|by apply Forall_drop]. }
  exists m'. split; [|done]. pose proof (al_apart _ _ _ _ _ _ _ _ _ _ _ HV Ep Er Hne).
  rewrite rt_memcpy_eq by (try (by eapply al_bytes); lia).
  pose proof (al_read _ _ _ _ _ _ _ _ _ HV Ep) as (_ & _ & Hp0 & _).
  rewrite Nat2Z.id, copy_bytes_up by (try (by eapply al_bytes); lia).
  rewrite <-(take_drop n lp) in HRp. apply read_app in HRp as [HRp _]. rewrite length_take, Nat.min_l in HRp by lia.
  rewrite HRp. cbn [mbind option_bind]. rewrite <-Ew. rewrite <-(take_drop n l) in HRr.
  pose proof (write_within (mem s) r [] (take n l) (take n lp) (drop n l) HRr) as HW. simpl in HW.
  rewrite HW, Z.add_0_r by (rewrite !length_take; lia). done.
Qed.

(** Where the aligned block begins. *)
Definition aligned_ptr (ptr j : Z) : Z := (ptr / 2 ^ j + 1) * 2 ^ j.

Lemma aligned_ptr_eq ptr j :
  2 <= j < 32 -> 0 <= ptr -> ptr + 2 ^ j < 2 ^ 32 ->
  (if Z.land ptr (u32 (2 ^ j - 1)) =? 0 then u32 (ptr + 2 ^ j)
   else Z.land (u32 (ptr + u32 (2 ^ j - 1))) (Z.lnot (u32 (2 ^ j - 1)))) = aligned_ptr ptr j.
Proof.
  intros Hj Hp Hs. pose proof (Z.pow_pos_nonneg 2 j ltac:(lia) ltac:(lia)) as Hpos.
  assert (2 ^ j < 2 ^ 32) by (apply Z.pow_lt_mono_r; lia).
  rewrite !u32_small by (rewrite ?u32_small by lia; lia). rewrite land_lnot_pow2 by lia.
  replace (2 ^ j - 1) with (Z.ones j) at 1 by (rewrite Z.ones_equiv; lia). rewrite Z.land_ones by lia.
  pose proof (Z.div_mod ptr (2 ^ j)) as Hd. pose proof (Z.mod_pos_bound ptr (2 ^ j) Hpos) as Hm. unfold aligned_ptr.
  destruct (Z.eqb_spec (ptr mod 2 ^ j) 0) as [E|E]; [nia|]. f_equal.
  replace (ptr + (2 ^ j - 1)) with (ptr mod 2 ^ j - 1 + (ptr / 2 ^ j + 1) * 2 ^ j) by nia.
  rewrite Z.div_add by lia. rewrite (Z.div_small (ptr mod 2 ^ j - 1)) by lia. lia.
Qed.

Lemma aligned_ptr_bounds ptr j :
  2 <= j -> ptr mod 4 = 0 -> aligned_ptr ptr j mod 2 ^ j = 0 /\ ptr + 4 <= aligned_ptr ptr j <= ptr + 2 ^ j.
Proof.
  intros Hj Hp. pose proof (Z.pow_pos_nonneg 2 j ltac:(lia) ltac:(lia)) as Hpos. unfold aligned_ptr.
  pose proof (Z.div_mod ptr (2 ^ j)). pose proof (Z.mod_pos_bound ptr (2 ^ j) Hpos).
  split; [by apply Z.mod_mul; lia|].
  assert (2 ^ j = 4 * 2 ^ (j - 2)) as E4 by (change 4 with (2 ^ 2); rewrite <-Z.pow_add_r by lia; f_equal; lia).
  assert (ptr = 4 * (ptr / 4)) as Ep by (pose proof (Z.div_mod ptr 4); lia).
  split; [|nia]. rewrite E4 in *. nia.
Qed.

Lemma align_up4_eq x : 0 <= x < 2 ^ 32 - 3 -> align_up4 x = (x + 3) / 4 * 4.
Proof.
  intros Hx. unfold align_up4. rewrite u32_small by lia. change 3 with (2 ^ 2 - 1) at 2. by rewrite land_lnot_pow2 by lia.
Qed.

(** An aligned block is part of a block of the heap, whose address is in front
    of it; freeing it frees the block. *)
Lemma malloc_align_ok s U size align j :
  view s U -> 2 <= j < 32 -> align_up4 align = 2 ^ j -> 0 < size -> size + 3 + 2 ^ j < 2 ^ 32 - 3 ->
  rt_malloc_align rt_malloc mem set_mem size align s = Ok 0 s \/
  exists p s' r l, rt_malloc_align rt_malloc mem set_mem size align s = Ok p s' /\ p <> 0 /\ p mod 2 ^ j = 0 /\
    view s' (<[r := l]> U) /\ U !! r = None /\ r + 4 <= p /\ p + size <= r + Z.of_nat (length l) /\
    forall s2 U2 l2, view s2 U2 -> U2 !! r = Some l2 -> length l2 = length l ->
      take (Z.to_nat (p - r)) l2 = take (Z.to_nat (p - r)) l ->
      exists s3, rt_free_align rt_free mem p s2 = Ok tt s3 /\ view s3 (delete r U2).
Proof.
  intros HV Hj Ha Hs Hmax. pose proof (Z.pow_pos_nonneg 2 j ltac:(lia) ltac:(lia)) as Hpos.
  assert (size <= align_up4 size <= size + 3) as Hup.
  { rewrite align_up4_eq by lia. pose proof (Z.div_mod (size + 3) 4). pose proof (Z.mod_pos_bound (size + 3) 4). lia. }
  unfold rt_malloc_align. rewrite Ha, (u32_small (align_up4 size + _)) by lia.
  destruct (al_alloc _ _ _ _ _ s U (align_up4 size + 2 ^ j) HV) as [E|(r & s1 & l & E & HV1 & Hno & Hl & Hr0 & Hr4)];
    [lia|left; by rewrite (bind_ok _ _ _ _ _ E)|right].
  destruct (al_read _ _ _ _ _ s1 _ r l HV1 (lookup_insert_eq _ _ _)) as (_ & _ & Hr & Htop).
  destruct (aligned_ptr_bounds r j) as [Hmod Hp]; [lia|done|]. set (p := aligned_ptr r j) in *.
  set (o := Z.to_nat (p - 4 - r)).
  destruct (store_word_view s1 _ r l o r HV1 (lookup_insert_eq _ _ _)) as (s2 & Est & HV2); [lia|].
  rewrite insert_insert_eq in HV2. set (l1 := take o l ++ le_split 4 r ++ drop (o + 4) l) in *.
  assert (length l1 = length l) as Hl1 by (unfold l1; rewrite !length_app, length_take, length_drop, length_le_split; lia).
  replace (r + Z.of_nat o) with (p - 4) in Est by lia.
  exists p, s2, r, l1. rewrite (bind_ok _ _ _ _ _ E), (proj2 (Z.eqb_neq _ _) Hr0).
  change (negb false) with true. cbv iota zeta. rewrite aligned_ptr_eq by lia. fold p.
  rewrite (u32_small (p - 4)), (bind_ok _ _ _ _ _ Est) by lia.
  do 5 (split; [done || lia|]). split; [lia|]. split; [lia|]. intros s3 U2 l2 HV3 E2 Hl2 Ht.
  unfold rt_free_align. rewrite (u32_small (p - 4)) by lia. replace (p - 4) with (r + Z.of_nat o) by lia.
  rewrite (bind_ok _ _ _ r s3); [by eapply al_free|]. apply (load_word_view _ U2 _ l2); [done|done|lia| |lia].
  replace (Z.to_nat (p - r)) with (o + 4)%nat in Ht by lia. rewrite take_drop_commute, Ht, <-take_drop_commute.
  unfold l1. rewrite drop_app_length' by (rewrite length_take; lia). by rewrite take_app_length' by done.
Qed.
End client.
End Allocator.
