(* ===== verification/MemHeapProof.v ===== *)
(** * Memory heaps: the pool under the lock

    [pool_rep] says that the headers of a pool represent a list of blocks and a
    list of free blocks.  The file shows how the code that runs under the lock
    changes them. *)
From S2P Require Import Prelude Rings KMonad KState MemProof MemHeap.
Import Rings MemProof MemHeap.
Local Open Scope Z_scope.
Local Open Scope kmonad_scope.

Module MemHeapProof.

(** ** Assignments to fields *)
Abbreviation items := (gmap Z rt_memheap_item).

Lemma proj_alter {B} (p : rt_memheap_item -> B) k a b (I : items) :
  p <$> alter k a I !! b = (if decide (a = b) then (p ∘ k) <$> I !! b else p <$> I !! b).
Proof.
  destruct (decide (a = b)) as [->|Hne]; [|by rewrite lookup_alter_ne].
  rewrite lookup_alter_eq. by destruct (I !! b).
Qed.

Lemma proj_some {B} (p : rt_memheap_item -> B) (I : items) a v :
  p <$> I !! a = Some v -> is_Some (I !! a).
Proof. by intros (x & -> & _)%fmap_Some. Qed.

Section step.
Context (HP : gmap nat rt_memheap) (R : Ram.ram).

Lemma get_item_at I a it : I !! a = Some it -> get_item a (Mstore HP I R) = Ok it (Mstore HP I R).
Proof. intros E. unfold get_item, bind, gets. simpl. by rewrite E. Qed.

Lemma upd_item_at I a k : is_Some (I !! a) -> upd_item a k (Mstore HP I R) = Ok tt (Mstore HP (alter k a I) R).
Proof.
  intros [it E]. unfold upd_item. rewrite (bind_ok _ _ _ _ _ (get_item_at _ _ _ E)). unfold modify, set_ms_items. simpl.
  do 2 f_equal. apply map_eq. intros b. destruct (decide (b = a)) as [->|Hne].
  - by rewrite lookup_insert_eq, lookup_alter_eq, E.
  - by rewrite lookup_insert_ne, lookup_alter_ne.
Qed.

Lemma get_memheap_at I i h : HP !! i = Some h -> get_memheap i (Mstore HP I R) = Ok h (Mstore HP I R).
Proof. intros E. unfold get_memheap, bind, gets. simpl. by rewrite E. Qed.

Lemma memitem_size_at I a it :
  I !! a = Some it -> MEMITEM_SIZE a (Mstore HP I R) = Ok (u32 (it_next it - a - 24)) (Mstore HP I R).
Proof. intros E. unfold MEMITEM_SIZE. by rewrite (bind_ok _ _ _ _ _ (get_item_at _ _ _ E)). Qed.

Lemma is_used_at I a it :
  I !! a = Some it -> RT_MEMHEAP_IS_USED a (Mstore HP I R) =
    Ok (negb (Z.land (it_magic it) RT_MEMHEAP_USED =? 0)) (Mstore HP I R).
Proof. intros E. unfold RT_MEMHEAP_IS_USED. by rewrite (bind_ok _ _ _ _ _ (get_item_at _ _ _ E)). Qed.
End step.

Lemma alter_some k a b (I : items) : is_Some (I !! b) -> is_Some (alter k a I !! b).
Proof. intros H. by apply lookup_alter_is_Some. Qed.

(** ** The primitives *)
(** The values of fields after assignments. *)
Ltac fields :=
  repeat split; intros; rewrite ?proj_alter; repeat case_decide; subst; try congruence;
  rewrite ?lookup_insert_eq, ?lookup_insert_ne by congruence;
  repeat match goal with H : ?I !! ?a = Some _ |- context [?I !! ?a] => rewrite H end; try done;
  try (match goal with |- context [?I !! ?a] => destruct (I !! a) end; done); try set_solver.

(** Which fields of which nodes may differ. *)
Definition same_on {B} (p : rt_memheap_item -> B) (I I' : items) (except : list Z) : Prop :=
  forall a, a ∉ except -> p <$> I' !! a = p <$> I !! a.

(** [split_after]: the new block is linked behind [hd]. *)
Lemma split_after_ok raw HP R I hp hd new y :
  it_next <$> I !! hd = Some y -> is_Some (I !! y) -> new <> hd -> new <> y ->
  exists I', split_after raw hp hd new (Mstore HP I R) = Ok tt (Mstore HP I' R) /\
    inserted it_next it_prev I I' hd new y /\
    it_magic <$> I' !! new = Some RT_MEMHEAP_MAGIC /\ it_pool_ptr <$> I' !! new = Some hp /\
    same_on it_magic I I' [new] /\ same_on it_pool_ptr I I' [new] /\
    same_on it_next_free I I' [new] /\ same_on it_prev_free I I' [new].
Proof.
  intros (ih & Eh & Ey)%fmap_Some [iy Hy] Hn1 Hn2. unfold split_after, place_item.
  set (I0 := <[new := raw]> I).
  rewrite (bind_ok _ _ _ tt (Mstore HP I0 R)) by done.
  assert (is_Some (I0 !! new)) as S0 by (unfold I0; by rewrite lookup_insert_eq).
  rewrite (bind_ok _ _ _ _ _ (upd_item_at HP R I0 new _ S0)). set (I1 := alter _ new I0).
  assert (is_Some (I1 !! new)) as S1 by (by apply alter_some).
  rewrite (bind_ok _ _ _ _ _ (upd_item_at HP R I1 new _ S1)). set (I2 := alter _ new I1).
  assert (is_Some (I2 !! new)) as S2 by (by apply alter_some).
  rewrite (bind_ok _ _ _ _ _ (upd_item_at HP R I2 new _ S2)). set (I3 := alter _ new I2).
  assert (is_Some (I3 !! new)) as S3 by (by apply alter_some).
  assert (forall b, b <> new -> I3 !! b = I !! b) as E3.
  { intros b Hb. unfold I3, I2, I1, I0. by rewrite !lookup_alter_ne, lookup_insert_ne by done. }
  rewrite (bind_ok _ _ _ _ _ (get_item_at HP R I3 hd ih ltac:(by rewrite E3 by done))).
  rewrite (bind_ok _ _ _ _ _ (upd_item_at HP R I3 new _ S3)). set (I4 := alter _ new I3).
  assert (forall b, b <> new -> I4 !! b = I !! b) as E4.
  { intros b Hb. unfold I4. by rewrite lookup_alter_ne, E3 by done. }
  rewrite (bind_ok _ _ _ _ _ (get_item_at HP R I4 hd ih ltac:(by rewrite E4 by done))).
  assert (is_Some (I4 !! it_next ih)) as S4 by (rewrite E4, <-Ey by congruence; eauto).
  rewrite (bind_ok _ _ _ _ _ (upd_item_at HP R I4 _ _ S4)). set (I5 := alter _ _ I4).
  assert (is_Some (I5 !! hd)) as S5 by (apply alter_some; rewrite E4 by done; eauto).
  rewrite (upd_item_at HP R I5 hd _ S5). eexists. split; [reflexivity|].
  rewrite <-Ey in *. unfold I5, I4, I3, I2, I1, I0, same_on in *. clear - Eh Hy Hn1 Hn2 Ey.
  fields.
Qed.

(** [remove_free], between [p] and [n]. *)
Lemma remove_free_ok HP R I x ix p n :
  I !! x = Some ix -> it_prev_free ix = p -> it_next_free ix = n -> is_Some (I !! p) -> is_Some (I !! n) ->
  p <> x -> n <> x ->
  exists I', remove_free x (Mstore HP I R) = Ok tt (Mstore HP I' R) /\
    removed it_next_free it_prev_free I I' p n /\ same_on it_magic I I' [] /\ same_on it_pool_ptr I I' [] /\
    same_on it_next I I' [] /\ same_on it_prev I I' [].
Proof.
  intros Ex Ep En Sp Sn Hp Hn. unfold remove_free.
  rewrite (bind_ok _ _ _ _ _ (get_item_at HP R I x ix Ex)), Ep, En.
  rewrite (bind_ok _ _ _ _ _ (upd_item_at HP R I n _ Sn)). set (I1 := alter _ n I).
  assert (I1 !! x = Some ix) as E1 by (unfold I1; by rewrite lookup_alter_ne).
  rewrite (bind_ok _ _ _ _ _ (get_item_at HP R I1 x ix E1)), Ep, En.
  rewrite (upd_item_at HP R I1 p _ (alter_some _ _ _ _ Sp)). eexists. split; [reflexivity|].
  destruct Sp as [ip Sp], Sn as [iN Sn]. unfold I1, same_on. clear - Sp Sn Hp Hn. fields.
Qed.

(** [insert_free], in front of [y]. *)
Lemma insert_free_ok HP R I hp h x y :
  HP !! hp = Some h -> it_next_free <$> I !! mh_free_list h = Some y -> is_Some (I !! x) -> is_Some (I !! y) ->
  x <> mh_free_list h -> x <> y ->
  exists I', insert_free hp x (Mstore HP I R) = Ok tt (Mstore HP I' R) /\
    inserted it_next_free it_prev_free I I' (mh_free_list h) x y /\
    same_on it_magic I I' [] /\ same_on it_pool_ptr I I' [] /\ same_on it_next I I' [] /\ same_on it_prev I I' [].
Proof.
  intros Eh (fl & Ef & Ey)%fmap_Some Sx Sy Hx Hxy. set (fh := mh_free_list h) in *. unfold insert_free.
  rewrite (bind_ok _ _ _ _ _ (get_memheap_at HP R I hp h Eh)). fold fh.
  rewrite (bind_ok _ _ _ _ _ (get_item_at HP R I fh fl Ef)), <-Ey.
  rewrite (bind_ok _ _ _ _ _ (upd_item_at HP R I x _ Sx)). set (I1 := alter _ x I).
  assert (is_Some (I1 !! x)) as S1 by (by apply alter_some).
  rewrite (bind_ok _ _ _ _ _ (upd_item_at HP R I1 x _ S1)). set (I2 := alter _ x I1).
  assert (I2 !! fh = Some fl) as E2 by (unfold I2, I1; by rewrite !lookup_alter_ne).
  rewrite (bind_ok _ _ _ _ _ (get_item_at HP R I2 fh fl E2)), <-Ey.
  assert (is_Some (I2 !! y)) as S2 by (by do 2 apply alter_some).
  rewrite (bind_ok _ _ _ _ _ (upd_item_at HP R I2 y _ S2)). set (I3 := alter _ y I2).
  assert (is_Some (I3 !! fh)) as S3 by (apply alter_some; eauto).
  rewrite (upd_item_at HP R I3 fh _ S3). eexists. split; [reflexivity|].
  destruct Sx as [ix Sx], Sy as [iy Sy]. unfold I3, I2, I1, same_on. clear - Ef Sx Sy Hx Hxy. fields.
Qed.

(** A block leaves the ring of blocks: from behind [hd], or by its own pointers. *)
Lemma unlink_next_ok HP R I hd ih x ix n :
  I !! hd = Some ih -> it_next ih = x -> I !! x = Some ix -> it_next ix = n -> is_Some (I !! n) -> x <> n -> x <> hd ->
  exists I',
    (forall B (k : MM B), (let! hd' := get_item hd in
      let new_ptr := hd'.(it_next) in
      let! nw := get_item new_ptr in
      upd_item nw.(it_next) (set_it_prev hd) ;!
      let! nw := get_item new_ptr in
      upd_item hd (set_it_next nw.(it_next)) ;! k) (Mstore HP I R) = k (Mstore HP I' R)) /\
    removed it_next it_prev I I' hd n /\ same_on it_magic I I' [] /\ same_on it_pool_ptr I I' [] /\
    same_on it_next_free I I' [] /\ same_on it_prev_free I I' [].
Proof.
  intros Eh Ex Ei En Sn Hxn Hxh. set (I1 := alter (set_it_prev hd) n I).
  assert (I1 !! x = Some ix) as E1 by (unfold I1; by rewrite lookup_alter_ne).
  assert (is_Some (I1 !! hd)) as S1 by (apply alter_some; eauto).
  exists (alter (set_it_next n) hd I1). split.
  - intros B k. rewrite (bind_ok _ _ _ _ _ (get_item_at HP R I hd ih Eh)). cbv zeta. rewrite Ex.
    rewrite (bind_ok _ _ _ _ _ (get_item_at HP R I x ix Ei)), En.
    rewrite (bind_ok _ _ _ _ _ (upd_item_at HP R I n _ Sn)). fold I1.
    rewrite (bind_ok _ _ _ _ _ (get_item_at HP R I1 x ix E1)), En.
    by rewrite (bind_ok _ _ _ _ _ (upd_item_at HP R I1 hd _ S1)).
  - destruct Sn as [iN Sn]. unfold I1, same_on. clear - Eh Sn Hxn Hxh. fields.
Qed.

Section self.
Context (HP : gmap nat rt_memheap) (R : Ram.ram) (I : items) (x : Z) (ix : rt_memheap_item) (p n : Z).
Hypothesis Ex : I !! x = Some ix.
Hypothesis Ep : it_prev ix = p.
Hypothesis En : it_next ix = n.
Hypothesis Sp : is_Some (I !! p).
Hypothesis Sn : is_Some (I !! n).
Hypothesis Hxn : x <> n.
Hypothesis Hxp : x <> p.
#[local] Set Default Proof Using "All".

Definition unlinked (I' : items) : Prop :=
  removed it_next it_prev I I' p n /\ I' !! x = Some ix /\ same_on it_magic I I' [] /\ same_on it_pool_ptr I I' [] /\
  same_on it_next_free I I' [] /\ same_on it_prev_free I I' [].

Lemma unlink_prev_first :
  exists I',
    (forall B (k : MM B), (let! hd := get_item x in
      upd_item hd.(it_prev) (set_it_next hd.(it_next)) ;!
      let! hd := get_item x in
      upd_item hd.(it_next) (set_it_prev hd.(it_prev)) ;! k) (Mstore HP I R) = k (Mstore HP I' R)) /\ unlinked I'.
Proof.
  set (I1 := alter (set_it_next n) p I).
  assert (I1 !! x = Some ix) as E1 by (unfold I1; by rewrite lookup_alter_ne).
  exists (alter (set_it_prev p) n I1). split.
  - intros B k. rewrite (bind_ok _ _ _ _ _ (get_item_at HP R I x ix Ex)), Ep, En.
    rewrite (bind_ok _ _ _ _ _ (upd_item_at HP R I p _ Sp)). fold I1.
    rewrite (bind_ok _ _ _ _ _ (get_item_at HP R I1 x ix E1)), Ep, En.
    by rewrite (bind_ok _ _ _ _ _ (upd_item_at HP R I1 n _ (alter_some _ _ _ _ Sn))).
  - destruct Sp as [ip Sp'], Sn as [iN Sn']. unfold unlinked, I1, same_on in *. clear - Ex E1 Sp' Sn' Hxn Hxp.
    split; [|split; [by rewrite lookup_alter_ne|]]; fields.
Qed.

Lemma unlink_next_first :
  exists I',
    (forall B (k : MM B), (let! nx := get_item x in
      upd_item nx.(it_next) (set_it_prev nx.(it_prev)) ;!
      let! nx := get_item x in
      upd_item nx.(it_prev) (set_it_next nx.(it_next)) ;! k) (Mstore HP I R) = k (Mstore HP I' R)) /\ unlinked I'.
Proof.
  set (I1 := alter (set_it_prev p) n I).
  assert (I1 !! x = Some ix) as E1 by (unfold I1; by rewrite lookup_alter_ne).
  exists (alter (set_it_next n) p I1). split.
  - intros B k. rewrite (bind_ok _ _ _ _ _ (get_item_at HP R I x ix Ex)), Ep, En.
    rewrite (bind_ok _ _ _ _ _ (upd_item_at HP R I n _ Sn)). fold I1.
    rewrite (bind_ok _ _ _ _ _ (get_item_at HP R I1 x ix E1)), Ep, En.
    by rewrite (bind_ok _ _ _ _ _ (upd_item_at HP R I1 p _ (alter_some _ _ _ _ Sp))).
  - destruct Sp as [ip Sp'], Sn as [iN Sn']. unfold unlinked, I1, same_on in *. clear - Ex E1 Sp' Sn' Hxn Hxp.
    split; [|split; [by rewrite lookup_alter_ne|]]; fields.
Qed.
End self.

(** ** Blocks and addresses *)
Fixpoint addrs (a : Z) (bs : list blk) : list Z :=
  match bs with [] => [] | b :: bs => a :: addrs (a + b.1) bs end.
(** The addresses of the free blocks. *)
Fixpoint free_addrs (a : Z) (bs : list blk) : list Z :=
  match bs with [] => [] | b :: bs => (if b.2 then [] else [a]) ++ free_addrs (a + b.1) bs end.

Lemma addrs_app a bs1 bs2 : addrs a (bs1 ++ bs2) = addrs a bs1 ++ addrs (a + total bs1) bs2.
Proof.
  revert a. induction bs1 as [|b bs1 IH]; intros a; simpl; [by rewrite Z.add_0_r|].
  rewrite IH. by rewrite Z.add_assoc.
Qed.

Lemma free_addrs_app a bs1 bs2 : free_addrs a (bs1 ++ bs2) = free_addrs a bs1 ++ free_addrs (a + total bs1) bs2.
Proof.
  revert a. induction bs1 as [|b bs1 IH]; intros a; simpl; [by rewrite Z.add_0_r|].
  by rewrite IH, Z.add_assoc, app_assoc.
Qed.

Lemma free_addrs_sub a bs : free_addrs a bs ⊆ addrs a bs.
Proof.
  revert a. induction bs as [|[l u] bs IH]; intros a x; simpl; [by intros ?%not_elem_of_nil|].
  specialize (IH (a + l)). destruct u; simpl; set_solver.
Qed.

(** Every block has room for its header. *)
Definition sized (bs : list blk) : Prop := Forall (fun b => 24 <= b.1) bs.

Lemma sized_total bs : sized bs -> 0 <= total bs.
Proof. induction 1; simpl in *; lia. Qed.

Lemma addrs_range a bs x : sized bs -> x ∈ addrs a bs -> a <= x < a + total bs.
Proof.
  intros Hs. revert a. induction Hs as [|b bs Hb Hs IH]; intros a; simpl; [by intros ?%not_elem_of_nil|].
  pose proof (sized_total _ Hs). intros [->|Hx]%elem_of_cons; [simpl in *; lia|]. apply IH in Hx. simpl in *. lia.
Qed.

Lemma addrs_nodup a bs : sized bs -> NoDup (addrs a bs).
Proof.
  intros Hs. revert a. induction Hs as [|b bs Hb Hs IH]; intros a; simpl; [constructor|].
  constructor; [|done]. intros Hx. apply addrs_range in Hx; [simpl in *; lia|done].
Qed.

Lemma free_addrs_nodup a bs : sized bs -> NoDup (free_addrs a bs).
Proof.
  intros Hs. revert a. induction Hs as [|b bs Hb Hs IH]; intros a; simpl; [constructor|].
  apply NoDup_app. split; [destruct b.2; [constructor|apply NoDup_singleton]|]. split; [|done].
  intros x Hx Hin. apply free_addrs_sub, addrs_range in Hin; [|done]. destruct b.2; [by apply not_elem_of_nil in Hx|].
  apply list_elem_of_singleton in Hx as ->. simpl in *. lia.
Qed.

(** No header is inside a block. *)
Lemma inside_not_addr a bs1 b bs2 x :
  sized (bs1 ++ b :: bs2) -> a + total bs1 < x < a + total bs1 + b.1 -> x ∉ addrs a (bs1 ++ b :: bs2).
Proof.
  intros [H1 [Hb H2]%Forall_cons]%Forall_app Hx Hin. rewrite addrs_app in Hin. simpl in Hin.
  apply elem_of_app in Hin as [Hin|[Hin|Hin]%elem_of_cons]; [| lia |];
    (apply addrs_range in Hin; [|done]); lia.
Qed.

(** ** The headers of a pool *)
Definition magic_of (u : bool) : Z := if u then Z.lor RT_MEMHEAP_MAGIC RT_MEMHEAP_USED else RT_MEMHEAP_MAGIC.

Section pool.
Context (hp : nat) (fh start : Z).

Definition hdr_at (I : items) (a : Z) (u : bool) : Prop :=
  it_magic <$> I !! a = Some (magic_of u) /\ it_pool_ptr <$> I !! a = Some hp.

Fixpoint hdrs (I : items) (a : Z) (bs : list blk) : Prop :=
  match bs with [] => True | b :: bs => hdr_at I a b.2 /\ hdrs I (a + b.1) bs end.

Lemma hdrs_app I a bs1 bs2 : hdrs I a (bs1 ++ bs2) <-> hdrs I a bs1 /\ hdrs I (a + total bs1) bs2.
Proof.
  revert a. induction bs1 as [|b bs1 IH]; intros a; simpl; [rewrite Z.add_0_r; naive_solver|].
  rewrite IH, Z.add_assoc. naive_solver.
Qed.

Lemma hdrs_ext I I' a bs :
  (forall x, x ∈ addrs a bs -> it_magic <$> I' !! x = it_magic <$> I !! x /\ it_pool_ptr <$> I' !! x = it_pool_ptr <$> I !! x) ->
  hdrs I a bs -> hdrs I' a bs.
Proof.
  revert a. induction bs as [|b bs IH]; intros a He; simpl; [done|]. intros [[H1 H2] H].
  destruct (He a) as [E1 E2]; [simpl; set_solver|]. split; [by split; rewrite ?E1, ?E2|].
  apply IH; [|done]. intros x Hx. apply He. simpl. set_solver.
Qed.

(** The two rings and the headers, for blocks [bs] with the end of the pool last
    and free blocks [fl]. *)
Record pool_items (I : items) (bs : list blk) (fl : list Z) : Prop := {
  pi_ring : ring it_next it_prev I (addrs start bs);
  pi_hdrs : hdrs I start bs;
  pi_free : ring it_next_free it_prev_free I (fh :: fl);
}.

(** The blocks fill the pool, the free ones are in it, the head of the list is not. *)
Record pool_apart (size : Z) (bs : list blk) (fl : list Z) : Prop := {
  pa_sized : sized bs;
  pa_total : total bs = size;
  pa_free : Forall (fun a => start <= a < start + size) fl;
  pa_nodup : NoDup fl;
  pa_fh : fh < start \/ start + size <= fh;
}.

Lemma apart_nodup size bs fl : pool_apart size bs fl -> NoDup (fh :: fl).
Proof.
  intros [_ _ Hr Hn Hf]. constructor; [|done]. intros Hin. rewrite Forall_forall in Hr. apply Hr in Hin. lia.
Qed.

Lemma same_ring (f g : rt_memheap_item -> Z) I I' c :
  same_on f I I' [] -> same_on g I I' [] -> ring f g I c -> ring f g I' c.
Proof. intros Hf Hg. apply ring_ext; intros a _; [apply Hf|apply Hg]; apply not_elem_of_nil. Qed.

Lemma same_ring_but (f g : rt_memheap_item -> Z) I I' c x :
  same_on f I I' [x] -> same_on g I I' [x] -> x ∉ c -> ring f g I c -> ring f g I' c.
Proof. intros Hf Hg Hx. apply ring_ext; intros a Ha; [apply Hf|apply Hg]; set_solver. Qed.

Lemma same_hdrs I I' a bs :
  same_on it_magic I I' [] -> same_on it_pool_ptr I I' [] -> hdrs I a bs -> hdrs I' a bs.
Proof. intros Hm Hp. apply hdrs_ext. intros x _. split; [apply Hm|apply Hp]; apply not_elem_of_nil. Qed.

(** The mark of a block. *)
Lemma items_mark I I' A l u u' B fl :
  let x := start + total A in
  pool_items I (A ++ (l, u) :: B) fl -> sized (A ++ (l, u) :: B) ->
  it_magic <$> I' !! x = Some (magic_of u') -> same_on it_magic I I' [x] -> same_on it_pool_ptr I I' [] ->
  same_on it_next I I' [] -> same_on it_prev I I' [] -> same_on it_next_free I I' [] -> same_on it_prev_free I I' [] ->
  pool_items I' (A ++ (l, u') :: B) fl.
Proof.
  intros x [H1 H2 H3] Hs Hm Hsm Hsp Hn Hp Hnf Hpf.
  pose proof (addrs_nodup start _ Hs) as Hnd. rewrite addrs_app in *. simpl in *. fold x in H1, Hnd.
  rewrite <-Permutation_middle in Hnd. apply NoDup_cons in Hnd as [Hx _].
  split; [rewrite addrs_app; by apply (same_ring _ _ I)| |by apply (same_ring _ _ I)].
  rewrite hdrs_app in *. simpl in *. fold x in H2 |- *. destruct H2 as (HA & [_ Hpx] & HB).
  assert (forall a, a ≠ x -> it_magic <$> I' !! a = it_magic <$> I !! a /\ it_pool_ptr <$> I' !! a = it_pool_ptr <$> I !! a) as He.
  { intros a Ha. split; [apply Hsm; set_solver|apply Hsp, not_elem_of_nil]. }
  split; [eapply hdrs_ext; [|exact HA]; intros a Ha; apply He; set_solver|].
  split; [split; [done|]; rewrite Hsp; [done|apply not_elem_of_nil]|].
  eapply hdrs_ext; [|exact HB]. intros a Ha. apply He. set_solver.
Qed.

(** A block is divided. *)
Lemma items_split I I' A l u n B fl y :
  let x := start + total A in
  pool_items I (A ++ (l, u) :: B) fl -> sized (A ++ (l, u) :: B) -> 24 <= n -> n + 24 <= l ->
  it_next <$> I !! x = Some y -> inserted it_next it_prev I I' x (x + n) y ->
  it_magic <$> I' !! (x + n) = Some RT_MEMHEAP_MAGIC -> it_pool_ptr <$> I' !! (x + n) = Some hp ->
  same_on it_magic I I' [x + n] -> same_on it_pool_ptr I I' [x + n] ->
  same_on it_next_free I I' [x + n] -> same_on it_prev_free I I' [x + n] -> x + n ∉ fh :: fl ->
  pool_items I' (A ++ (n, u) :: (l - n, false) :: B) fl.
Proof.
  intros x [H1 H2 H3] Hs Hn Hl Ey Hi Hm Hp Hsm Hsp Hnf Hpf Hnew.
  pose proof (addrs_nodup start _ Hs) as Hnd.
  assert (x + n ∉ addrs start (A ++ (l, u) :: B)) as Hin by (apply inside_not_addr; [done|unfold x; simpl; lia]).
  assert (addrs start (A ++ (n, u) :: (l - n, false) :: B) = addrs start A ++ x :: (x + n) :: addrs (x + l) B) as EA.
  { rewrite addrs_app. simpl. fold x. do 3 f_equal. f_equal. lia. }
  assert (addrs start (A ++ (l, u) :: B) = addrs start A ++ x :: addrs (x + l) B) as EA0 by (by rewrite addrs_app).
  split; [| |by apply (same_ring_but _ _ I _ _ (x + n))].
  - rewrite EA. rewrite EA0 in *. eapply ring_insert_at; [exact H1|done|done|].
    apply ring_link_at in H1 as [H1 _]. rewrite Ey in H1. by injection H1 as ->.
  - rewrite hdrs_app in *. simpl in *. fold x in H2 |- *. destruct H2 as (HA & [Hm1 Hp1] & HB).
    rewrite EA0 in Hin. assert (x + n <> x) by lia.
    assert (forall a, a ∈ addrs start A \/ a ∈ addrs (x + l) B \/ a = x -> it_magic <$> I' !! a = it_magic <$> I !! a /\
      it_pool_ptr <$> I' !! a = it_pool_ptr <$> I !! a) as He.
    { intros a Ha. assert (a ∉ [x + n]) by (apply not_elem_of_cons; split; [intros ->; set_solver|apply not_elem_of_nil]).
      split; [by apply Hsm|by apply Hsp]. }
    split; [eapply hdrs_ext; [|exact HA]; auto|]. destruct (He x) as [E1 E2]; [auto|].
    split; [by split; rewrite ?E1, ?E2|]. split; [done|]. replace (x + n + (l - n)) with (x + l) by lia.
    eapply hdrs_ext; [|exact HB]. auto.
Qed.

(** A block is joined with the one behind it. *)
Lemma items_merge I I' A l u l2 u2 B fl n :
  let x := start + total A in
  pool_items I (A ++ (l, u) :: (l2, u2) :: B) fl -> sized (A ++ (l, u) :: (l2, u2) :: B) ->
  it_next <$> I !! (x + l) = Some n -> removed it_next it_prev I I' x n ->
  same_on it_magic I I' [] -> same_on it_pool_ptr I I' [] -> same_on it_next_free I I' [] -> same_on it_prev_free I I' [] ->
  pool_items I' (A ++ (l + l2, u) :: B) fl.
Proof.
  intros x [H1 H2 H3] Hs En Hr Hsm Hsp Hnf Hpf.
  pose proof (addrs_nodup start _ Hs) as Hnd.
  assert (addrs start (A ++ (l, u) :: (l2, u2) :: B) = addrs start A ++ x :: (x + l) :: addrs (x + l + l2) B) as EA0 by (by rewrite addrs_app).
  split; [| |by apply (same_ring _ _ I)].
  - rewrite addrs_app. simpl. fold x. rewrite Z.add_assoc. rewrite EA0 in *.
    eapply ring_remove_at; [exact H1|done|]. apply ring_neighbours_at in H1 as [_ H1]. rewrite En in H1. by injection H1 as ->.
  - eapply same_hdrs; [done|done|]. rewrite hdrs_app in *. simpl in *. rewrite Z.add_assoc. naive_solver.
Qed.

(** A block leaves and enters the list of free blocks. *)
Lemma items_unfree I I' bs P x Q p n :
  pool_items I bs (P ++ x :: Q) -> NoDup (fh :: P ++ x :: Q) ->
  it_prev_free <$> I !! x = Some p -> it_next_free <$> I !! x = Some n -> removed it_next_free it_prev_free I I' p n ->
  same_on it_magic I I' [] -> same_on it_pool_ptr I I' [] -> same_on it_next I I' [] -> same_on it_prev I I' [] ->
  pool_items I' bs (P ++ Q).
Proof.
  intros [H1 H2 H3] Hnd Ep En Hr Hm Hp Hn Hv. split; [by apply (same_ring _ _ I)|by apply (same_hdrs I)|].
  destruct (ring_mid _ _ _ _ _ _ _ H3 Hnd) as (p' & n' & E1 & E2 & _ & _ & H). apply H.
  rewrite Ep in E1. rewrite En in E2. by injection E1 as ->; injection E2 as ->.
Qed.

Lemma items_free I I' bs x fl y :
  pool_items I bs fl -> NoDup (fh :: fl) -> x ∉ fh :: fl ->
  it_next_free <$> I !! fh = Some y -> inserted it_next_free it_prev_free I I' fh x y ->
  same_on it_magic I I' [] -> same_on it_pool_ptr I I' [] -> same_on it_next I I' [] -> same_on it_prev I I' [] ->
  pool_items I' bs (x :: fl).
Proof.
  intros [H1 H2 H3] Hnd Hx Ey Hi Hm Hp Hn Hv. split; [by apply (same_ring _ _ I)|by apply (same_hdrs I)|].
  eapply ring_insert; [exact H3|done|done|]. apply ring_link in H3 as [H3 _]. rewrite Ey in H3. by injection H3 as ->.
Qed.

(** What the headers say. *)
Lemma items_hdr I A l u B fl :
  pool_items I (A ++ (l, u) :: B) fl -> B <> [] ->
  exists it, I !! (start + total A) = Some it /\ it_magic it = magic_of u /\ it_pool_ptr it = hp /\
    it_next it = start + total A + l.
Proof.
  intros [H1 H2 _] HB. rewrite hdrs_app in H2. destruct H2 as (_ & [Hm Hp] & _).
  apply fmap_Some in Hm as (it & E & Em). rewrite E in Hp. injection Hp as Ep. exists it. split; [done|]. split; [done|].
  split; [done|]. rewrite addrs_app in H1. simpl in H1. apply ring_link_at in H1 as [H1 _]. rewrite E in H1.
  injection H1 as ->. by destruct B as [|b B].
Qed.

Lemma items_prev I A l u l2 u2 B fl :
  pool_items I (A ++ (l, u) :: (l2, u2) :: B) fl -> it_prev <$> I !! (start + total A + l) = Some (start + total A).
Proof. intros [H1 _ _]. rewrite addrs_app in H1. simpl in H1. by apply ring_neighbours_at in H1 as [H1 _]. Qed.
End pool.
End MemHeapProof.
