(* ===== verification/MemHeapSpec.v ===== *)
(** * Memory heaps: allocation and release under the lock

    [pool_ok] says that the headers of a pool represent a list of blocks and a
    list of free blocks.  The first part gives every primitive of [MemHeap.v] its
    effect on the two lists; the second one composes them. *)
From S2P Require Import Prelude Rings KMonad KState MemProof MemHeap MemHeapProof.
Import Rings MemProof MemHeap MemHeapProof.
Local Open Scope Z_scope.
Local Open Scope kmonad_scope.

Module MemHeapSpec.

Section prim.
Context (hp : nat) (fh start size : Z) (HP : gmap nat rt_memheap) (R : Ram.ram).
Abbreviation St I := (Mstore HP I R).
Abbreviation endblk := (24, true).

Record pool_ok (I : items) (bs : list blk) (fl : list Z) : Prop := {
  po_items : pool_items hp fh start I (bs ++ [endblk]) fl;
  po_apart : pool_apart fh start size (bs ++ [endblk]) fl;
}.

(** The headers of other pools are left alone. *)
Definition owned (a : Z) : Prop := a = fh \/ start <= a < start + size.
Definition frame (I I' : items) : Prop := forall a, ~ owned a -> I' !! a = I !! a.

Lemma frame_refl I : frame I I.
Proof. by intros a _. Qed.
Lemma frame_trans I1 I2 I3 : frame I1 I2 -> frame I2 I3 -> frame I1 I3.
Proof. intros H1 H2 a Ha. by rewrite H2, H1. Qed.

Lemma frame_alter k I x : owned x -> frame I (alter k x I).
Proof. intros Hx a Ha. apply lookup_alter_ne. by intros ->. Qed.

Lemma same_item (I I' : items) a :
  it_magic <$> I' !! a = it_magic <$> I !! a -> it_pool_ptr <$> I' !! a = it_pool_ptr <$> I !! a ->
  it_next <$> I' !! a = it_next <$> I !! a -> it_prev <$> I' !! a = it_prev <$> I !! a ->
  it_next_free <$> I' !! a = it_next_free <$> I !! a -> it_prev_free <$> I' !! a = it_prev_free <$> I !! a ->
  I' !! a = I !! a.
Proof.
  destruct (I' !! a) as [[]|], (I !! a) as [[]|]; simpl; [|done..]. intros. congruence.
Qed.

(** Nodes of the pool are owned. *)
Lemma owned_free I bs fl x : pool_ok I bs fl -> x ∈ fh :: fl -> owned x.
Proof.
  intros [_ [_ _ Hr _ _]] [->|Hx]%elem_of_cons; [by left|right]. rewrite Forall_forall in Hr. by apply Hr.
Qed.

Lemma owned_addr I bs fl x : pool_ok I bs fl -> x ∈ addrs start (bs ++ [endblk]) -> owned x.
Proof. intros [_ [Hs Ht _ _ _]] Hx. right. apply addrs_range in Hx; [lia|done]. Qed.

Lemma removed_frame (f g : rt_memheap_item -> Z) I I' p n :
  removed f g I I' p n -> owned p -> owned n ->
  forall a, ~ owned a -> f <$> I' !! a = f <$> I !! a /\ g <$> I' !! a = g <$> I !! a.
Proof. intros Hr Hp Hn a Ha. split; [apply (re_other_next _ _ _ _ _ _ Hr)|apply (re_other_prev _ _ _ _ _ _ Hr)]; by intros ->. Qed.

Lemma inserted_frame (f g : rt_memheap_item -> Z) I I' x n y :
  inserted f g I I' x n y -> owned x -> owned n -> owned y ->
  forall a, ~ owned a -> f <$> I' !! a = f <$> I !! a /\ g <$> I' !! a = g <$> I !! a.
Proof.
  intros Hi Hx Hn Hy a Ha. split; [apply (in_other_next _ _ _ _ _ _ _ Hi)|apply (in_other_prev _ _ _ _ _ _ _ Hi)]; by intros ->.
Qed.

Lemma same_nil {B} (p : rt_memheap_item -> B) I I' a : same_on p I I' [] -> p <$> I' !! a = p <$> I !! a.
Proof. intros H. apply H, not_elem_of_nil. Qed.

Lemma same_one {B} (p : rt_memheap_item -> B) I I' a x : same_on p I I' [x] -> a <> x -> p <$> I' !! a = p <$> I !! a.
Proof. intros H Ha. apply H. by apply not_elem_of_cons; split; [|apply not_elem_of_nil]. Qed.

Lemma total_end bs : total (bs ++ [endblk]) = total bs + 24.
Proof. rewrite total_app. simpl. lia. Qed.

(** The block at [start + total A], and what follows it. *)
Lemma block_hdr I A l u B fl :
  pool_ok I (A ++ (l, u) :: B) fl ->
  exists it, I !! (start + total A) = Some it /\ it_magic it = magic_of u /\ it_pool_ptr it = hp /\
    it_next it = start + total A + l /\ is_Some (I !! (start + total A + l)).
Proof.
  intros [Hi _]. rewrite <-app_assoc in Hi. simpl in Hi.
  destruct (items_hdr hp fh start I A l u (B ++ [endblk]) fl Hi) as (it & E1 & E2 & E3 & E4); [by destruct B|].
  exists it. do 4 (split; [done|]). eapply ring_dom; [apply Hi|]. rewrite addrs_app. simpl.
  destruct B; simpl; set_solver.
Qed.

Lemma block_bounds I A l u B fl :
  pool_ok I (A ++ (l, u) :: B) fl -> 0 <= total A /\ 24 <= l /\ 0 <= total B /\ total A + l + total B + 24 = size.
Proof.
  intros [_ [Hs Ht _ _ _]]. rewrite total_end, total_app in Ht. simpl in Ht.
  apply Forall_app in Hs as [[HA [Hl HB]%Forall_cons]%Forall_app _]. simpl in Hl.
  pose proof (sized_total _ HA). pose proof (sized_total _ HB). lia.
Qed.

(** The memory of headers that are in neither ring is free for any use. *)
Lemma free_alter_ok I bs fl x k :
  pool_ok I bs fl -> x ∉ fh :: fl -> (forall it, it_magic (k it) = it_magic it) ->
  (forall it, it_pool_ptr (k it) = it_pool_ptr it) -> (forall it, it_next (k it) = it_next it) ->
  (forall it, it_prev (k it) = it_prev it) -> pool_ok (alter k x I) bs fl.
Proof.
  intros [[H1 H2 H3] Ha] Hx Hm Hp Hn Hv. split; [|done].
  assert (forall B (p : rt_memheap_item -> B) a, (forall it, p (k it) = p it) -> p <$> alter k x I !! a = p <$> I !! a) as Hpr.
  { intros B p a Hk. rewrite proj_alter. case_decide; [subst|done]. destruct (I !! a); simpl; [by rewrite Hk|done]. }
  split.
  - eapply ring_ext; [..|exact H1]; intros a _; by apply Hpr.
  - eapply hdrs_ext; [|exact H2]. intros a _. split; by apply Hpr.
  - eapply ring_ext; [..|exact H3]; intros a Hin; rewrite lookup_alter_ne; try done; by intros ->.
Qed.

(** *** The mark of a block *)
Lemma mark_ok I A l u u' B fl k :
  pool_ok I (A ++ (l, u) :: B) fl ->
  (forall it, it_magic it = magic_of u -> it_magic (k it) = magic_of u') ->
  (forall it, it_pool_ptr (k it) = it_pool_ptr it /\ it_next (k it) = it_next it /\ it_prev (k it) = it_prev it /\
    it_next_free (k it) = it_next_free it /\ it_prev_free (k it) = it_prev_free it) ->
  exists I', upd_item (start + total A) k (St I) = Ok tt (St I') /\
    pool_ok I' (A ++ (l, u') :: B) fl /\ frame I I'.
Proof.
  intros HO Hm Hk. destruct (block_hdr _ _ _ _ _ _ HO) as (it & E & Em & _). set (x := start + total A) in *.
  exists (alter k x I). split; [apply upd_item_at; eauto|].
  pose proof (block_bounds _ _ _ _ _ _ HO). destruct HO as [Hi [Hs Ht Hr Hn Hf]].
  split; [|apply frame_alter; right; lia].
  assert (forall B (p : rt_memheap_item -> B), (forall it, p (k it) = p it) -> same_on p I (alter k x I) []) as Hpr.
  { intros B0 p Hp a _. rewrite proj_alter. case_decide; [subst a|done]. rewrite E. simpl. by rewrite Hp. }
  rewrite <-app_assoc in Hi, Hs, Ht. simpl in Hi, Hs, Ht. split; rewrite <-app_assoc; simpl.
  - eapply items_mark; [exact Hi|exact Hs|..].
    + fold x. rewrite lookup_alter_eq, E. simpl. f_equal. by apply Hm.
    + intros a [Ha _]%not_elem_of_cons. by rewrite lookup_alter_ne by done.
    + apply Hpr. apply Hk.
    + apply Hpr. apply Hk.
    + apply Hpr. apply Hk.
    + apply Hpr. apply Hk.
    + apply Hpr. apply Hk.
  - rewrite total_app in *. simpl in *. split; [|rewrite total_app; simpl; lia|done..].
    apply Forall_app in Hs as [HA [Hl HB]%Forall_cons]. apply Forall_app. split; [done|]. by apply Forall_cons.
Qed.

(** *** The ring of free blocks *)
Lemma remove_free_pool I bs P x Q :
  pool_ok I bs (P ++ x :: Q) ->
  exists I', remove_free x (St I) = Ok tt (St I') /\ pool_ok I' bs (P ++ Q) /\ frame I I' /\ x ∉ fh :: P ++ Q /\
    same_on it_next I I' [] /\ same_on it_prev I I' [].
Proof.
  intros HO. pose proof HO as [Hi Ha]. pose proof (apart_nodup _ _ _ _ _ Ha) as Hnd. pose proof Hi as [_ _ H3].
  destruct (ring_mid _ _ _ _ _ _ _ H3 Hnd) as (p & n & E1 & E2 & Hp & Hn & _).
  assert (x ∉ fh :: P ++ Q) as Hx.
  { rewrite app_comm_cons, <-Permutation_middle in Hnd. apply NoDup_cons in Hnd as [Hx _]. by rewrite app_comm_cons. }
  assert (forall y, y ∈ fh :: P ++ Q -> y ∈ fh :: P ++ x :: Q) as Hsub by set_solver.
  apply fmap_Some in E1 as (ix & Ex & Ep). assert (n = it_next_free ix) as En by (rewrite Ex in E2; by injection E2).
  destruct (remove_free_ok HP R I x ix p n) as (I' & E & Hr & Hm & Hpp & Hnx & Hpv); try done.
  { eapply ring_dom; [exact H3|by apply Hsub]. }
  { eapply ring_dom; [exact H3|by apply Hsub]. }
  { intros ->; done. }
  { intros ->; done. }
  exists I'. split; [exact E|]. split; [split|].
  - eapply (items_unfree _ _ _ I I' _ P x Q p n); [exact Hi|exact Hnd|by rewrite Ex, Ep|by rewrite Ex, En|done..].
  - destruct Ha as [Hs Ht Hrg Hn' Hf]. split; try done.
    + rewrite Forall_app in Hrg |- *. rewrite Forall_cons in Hrg. tauto.
    + rewrite <-Permutation_middle in Hn'. by apply NoDup_cons in Hn' as [_ ?].
  - split; [|done]. intros a Hna.
    destruct (removed_frame _ _ _ _ _ _ Hr (owned_free _ _ _ _ HO (Hsub _ Hp)) (owned_free _ _ _ _ HO (Hsub _ Hn)) a Hna).
    apply same_item; try done; by apply same_nil.
Qed.
Lemma insert_free_pool h I bs x fl :
  HP !! hp = Some h -> mh_free_list h = fh -> pool_ok I bs fl ->
  start <= x < start + size -> x ∉ fl -> is_Some (I !! x) ->
  exists I', insert_free hp x (St I) = Ok tt (St I') /\ pool_ok I' bs (x :: fl) /\ frame I I' /\
    same_on it_next I I' [] /\ same_on it_prev I I' [].
Proof.
  intros Eh Ef HO Hx Hxf Sx. pose proof HO as [Hi Ha]. pose proof (apart_nodup _ _ _ _ _ Ha) as Hnd.
  pose proof Hi as [_ _ H3]. destruct (ring_link _ _ _ _ _ H3) as [E1 _]. set (y := succ_of fh fl) in *.
  assert (y ∈ fh :: fl) as Hy by (unfold y, succ_of; destruct fl; simpl; set_solver).
  assert (x ∉ fh :: fl) as Hxn by (apply not_elem_of_cons; split; [intros ->; pose proof (pa_fh _ _ _ _ _ Ha); lia|done]).
  destruct (insert_free_ok HP R I hp h x y) as (I' & E & Hr & Hm & Hpp & Hnx & Hpv); try done.
  { by rewrite Ef. }
  { by eapply ring_dom. }
  { rewrite Ef. by apply not_elem_of_cons in Hxn as [? _]. }
  { by intros ->. }
  rewrite Ef in Hr. exists I'. split; [exact E|]. split; [split|].
  - eapply (items_free _ _ _ I I' _ x fl y); done.
  - destruct Ha as [Hs Ht Hrg Hn' Hf]. split; try done; [by apply Forall_cons|by apply NoDup_cons].
  - split; [|done]. intros a Hna.
    destruct (inserted_frame _ _ _ _ _ _ _ Hr (or_introl eq_refl) (or_intror Hx) (owned_free _ _ _ _ HO Hy) a Hna).
    apply same_item; try done; by apply same_nil.
Qed.

(** *** The ring of blocks *)
Lemma split_pool raw I A l u n B fl :
  let x := start + total A in
  pool_ok I (A ++ (l, u) :: B) fl -> 24 <= n -> n + 24 <= l -> x + n ∉ fl ->
  exists I', split_after raw hp x (x + n) (St I) = Ok tt (St I') /\
    pool_ok I' (A ++ (n, u) :: (l - n, false) :: B) fl /\ frame I I'.
Proof.
  intros x HO Hn Hl Hf. destruct (block_hdr _ _ _ _ _ _ HO) as (it & E & _ & _ & En & Sn). fold x in E, En, Sn.
  pose proof (block_bounds _ _ _ _ _ _ HO). pose proof HO as [Hi [Hs Ht Hrg Hnd Hfh]].
  assert (it_next <$> I !! x = Some (x + l)) as Ey by (rewrite E; simpl; by rewrite En).
  destruct (split_after_ok raw HP R I hp x (x + n) (x + l) Ey Sn) as (I' & E' & Hin & Hm & Hp & S1 & S2 & S3 & S4); [lia|lia|].
  exists I'. split; [exact E'|]. rewrite <-app_assoc in Hi, Hs, Ht. simpl in Hi, Hs, Ht.
  assert (x + n ∉ fh :: fl) as Hnew by (apply not_elem_of_cons; split; [unfold x; lia|done]).
  assert (owned (x + l)) as Hol.
  { right. unfold x. lia. }
  split.
  - split; rewrite <-app_assoc; simpl.
    + by eapply items_split.
    + apply Forall_app in Hs as [HA [_ HB]%Forall_cons]. rewrite total_app in *. simpl in *.
      split; [|rewrite total_app; simpl; lia|done..]. apply Forall_app. split; [done|].
      apply Forall_cons. split; [simpl; lia|]. apply Forall_cons. split; [simpl; lia|done].
  - intros a Hna. assert (a <> x + n) as Ha by (intros ->; apply Hna; right; unfold x; lia).
    destruct (inserted_frame _ _ _ _ _ _ _ Hin ltac:(right; unfold x; lia) ltac:(right; unfold x; lia) Hol a Hna).
    apply same_item; try done; by eapply same_one.
Qed.

(** Two neighbours become one block, by the assignments that end with [I']. *)
Lemma merge_pool I I' A l u l2 u2 B fl :
  let x := start + total A in
  pool_ok I (A ++ (l, u) :: (l2, u2) :: B) fl -> removed it_next it_prev I I' x (x + l + l2) ->
  same_on it_magic I I' [] -> same_on it_pool_ptr I I' [] -> same_on it_next_free I I' [] -> same_on it_prev_free I I' [] ->
  pool_ok I' (A ++ (l + l2, u) :: B) fl /\ frame I I'.
Proof.
  intros x HO Hr S1 S2 S3 S4. pose proof HO as HO'.
  replace (A ++ (l, u) :: (l2, u2) :: B) with ((A ++ [(l, u)]) ++ (l2, u2) :: B) in HO' by (by rewrite <-app_assoc).
  destruct (block_hdr _ _ _ _ _ _ HO') as (it & E & _ & _ & En & _).
  pose proof (block_bounds _ _ _ _ _ _ HO') as Hb. pose proof (block_bounds _ _ _ _ _ _ HO).
  rewrite total_app in E, En, Hb. simpl in E, En, Hb.
  pose proof HO as [Hi [Hs Ht Hrg Hnd Hfh]]. rewrite <-app_assoc in Hi, Hs, Ht. simpl in Hi, Hs, Ht.
  assert (it_next <$> I !! (x + l) = Some (x + l + l2)) as Ey.
  { unfold x. replace (start + total A + l) with (start + (total A + (l + 0))) by lia. rewrite E. simpl. f_equal. lia. }
  split; [split; rewrite <-app_assoc; simpl|].
  - by eapply items_merge.
  - apply Forall_app in Hs as [HA [H1 [H2 HB]%Forall_cons]%Forall_cons]. rewrite total_app in *. simpl in *.
    split; [|rewrite total_app; simpl; lia|done..]. apply Forall_app. split; [done|]. apply Forall_cons. split; [simpl; lia|done].
  - intros a Hna. destruct (removed_frame _ _ _ _ _ _ Hr ltac:(right; unfold x; lia) ltac:(right; unfold x; lia) a Hna).
    apply same_item; try done; by apply same_nil.
Qed.

(** The headers of two neighbours and of what follows them. *)
Lemma two_hdrs I A l u l2 u2 B fl :
  let x := start + total A in
  pool_ok I (A ++ (l, u) :: (l2, u2) :: B) fl ->
  exists i1 i2, I !! x = Some i1 /\ it_magic i1 = magic_of u /\ it_pool_ptr i1 = hp /\ it_next i1 = x + l /\
    I !! (x + l) = Some i2 /\ it_magic i2 = magic_of u2 /\ it_pool_ptr i2 = hp /\ it_next i2 = x + l + l2 /\
    it_prev i2 = x /\ is_Some (I !! (x + l + l2)).
Proof.
  intros x HO. destruct (block_hdr _ _ _ _ _ _ HO) as (i1 & E1 & M1 & P1 & N1 & _).
  pose proof HO as [Hi _]. rewrite <-app_assoc in Hi. simpl in Hi. pose proof (items_prev _ _ _ _ _ _ _ _ _ _ _ Hi) as Hp.
  replace (A ++ (l, u) :: (l2, u2) :: B) with ((A ++ [(l, u)]) ++ (l2, u2) :: B) in HO by (by rewrite <-app_assoc).
  destruct (block_hdr _ _ _ _ _ _ HO) as (i2 & E2 & M2 & P2 & N2 & S2). rewrite total_app in *. simpl in *.
  replace (start + (total A + (l + 0))) with (x + l) in * by (unfold x; lia). fold x in E1, N1, Hp.
  exists i1, i2. do 8 (split; [done|]). split; [|done]. rewrite E2 in Hp. by injection Hp.
Qed.
(** The three ways in which the code takes the second one out. *)
Section merge.
Context (I : items) (A : list blk) (l l2 : Z) (u u2 : bool) (B : list blk) (fl : list Z).
Abbreviation x := (start + total A).
Hypothesis HO : pool_ok I (A ++ (l, u) :: (l2, u2) :: B) fl.
#[local] Set Default Proof Using "All".

Definition merged_to (I' : items) : Prop := pool_ok I' (A ++ (l + l2, u) :: B) fl /\ frame I I'.

Lemma merge_lens : 24 <= l /\ 24 <= l2.
Proof.
  pose proof HO as [_ [Hs _ _ _ _]]. rewrite <-app_assoc in Hs.
  apply Forall_app in Hs as [_ [H1 [H2 _]%Forall_cons]%Forall_cons]. done.
Qed.

Lemma merge_next_pool :
  exists I', merged_to I' /\
    forall T (k : MM T), (let! nw := get_item (x + l) in
      upd_item nw.(it_next) (set_it_prev x) ;!
      let! nw := get_item (x + l) in
      upd_item x (set_it_next nw.(it_next)) ;! k) (St I) = k (St I').
Proof.
  pose proof merge_lens. destruct (two_hdrs _ _ _ _ _ _ _ _ HO) as (i1 & i2 & E1 & _ & _ & N1 & E2 & _ & _ & N2 & _ & S2).
  destruct (unlink_next_ok HP R I x i1 (x + l) i2 (x + l + l2) E1 N1 E2 N2 S2) as (I' & E & Hr & S); [lia..|].
  exists I'. split; [eapply merge_pool; [exact HO|done|apply S..]|]. intros T k. rewrite <-E, (bind_ok _ _ _ _ _ (get_item_at HP R I x i1 E1)).
  cbv zeta. by rewrite N1.
Qed.

Lemma merge_self (I' : items) i2 :
  unlinked I (x + l) i2 x (x + l + l2) I' -> merged_to I'.
Proof. intros (Hr & _ & S). eapply merge_pool; [exact HO|done|apply S..]. Qed.

Lemma merge_prev_first_pool :
  exists I', merged_to I' /\ I' !! (x + l) = I !! (x + l) /\
    forall T (k : MM T), (let! hd := get_item (x + l) in
      upd_item hd.(it_prev) (set_it_next hd.(it_next)) ;!
      let! hd := get_item (x + l) in
      upd_item hd.(it_next) (set_it_prev hd.(it_prev)) ;! k) (St I) = k (St I').
Proof.
  pose proof merge_lens. destruct (two_hdrs _ _ _ _ _ _ _ _ HO) as (i1 & i2 & E1 & _ & _ & _ & E2 & _ & _ & N2 & V2 & S2).
  destruct (unlink_prev_first HP R I (x + l) i2 x (x + l + l2) E2 V2 N2) as (I' & E & U); [eauto|done|lia..|].
  exists I'. split; [by eapply merge_self|]. split; [|done]. destruct U as (_ & -> & _). done.
Qed.

Lemma merge_next_first_pool :
  exists I', merged_to I' /\
    forall T (k : MM T), (let! nx := get_item (x + l) in
      upd_item nx.(it_next) (set_it_prev nx.(it_prev)) ;!
      let! nx := get_item (x + l) in
      upd_item nx.(it_prev) (set_it_next nx.(it_next)) ;! k) (St I) = k (St I').
Proof.
  pose proof merge_lens. destruct (two_hdrs _ _ _ _ _ _ _ _ HO) as (i1 & i2 & E1 & _ & _ & _ & E2 & _ & _ & N2 & V2 & S2).
  destruct (unlink_next_first HP R I (x + l) i2 x (x + l + l2) E2 V2 N2) as (I' & E & U); [eauto|done|lia..|].
  exists I'. split; [by eapply merge_self|done].
Qed.
End merge.
End prim.

(** ** The state of a memory heap *)
(** The bytes that are free: the headers of free blocks are not counted. *)
Definition free_total (bs : list blk) : Z := foldr (fun (b : blk) n => (if b.2 then 0 else b.1 - 24) + n) 0 bs.

Lemma free_total_app bs1 bs2 : free_total (bs1 ++ bs2) = free_total bs1 + free_total bs2.
Proof. induction bs1 as [|b bs1 IH]; simpl; lia. Qed.

(** A block has a header and at least the smallest size, in words. *)
Definition block_ok (b : blk) : Prop := 36 <= b.1 /\ b.1 mod 4 = 0.

Record pool_rep (hp : nat) (h : rt_memheap) (I : items) (bs : list blk) (fl : list Z) : Prop := {
  pr_ok : pool_ok hp (mh_free_list h) (mh_start_addr h) (mh_pool_size h) I bs fl;
  pr_free : fl ≡ₚ free_addrs (mh_start_addr h) bs;
  pr_blocks : Forall block_ok bs;
  pr_merged : merged bs;
  pr_avail : mh_available_size h = free_total bs;
  pr_max : mh_pool_size h - mh_available_size h <= mh_max_used_size h;
  pr_start : 0 < mh_start_addr h;
  pr_top : mh_start_addr h + mh_pool_size h <= 2 ^ 32;
}.

Lemma free_total_bounds bs : Forall block_ok bs -> 0 <= free_total bs <= total bs.
Proof. induction 1 as [|[l []] bs [Hb _] H IH]; simpl in *; lia. Qed.

Lemma rep_total hp h I bs fl : pool_rep hp h I bs fl -> total bs + 24 = mh_pool_size h.
Proof. intros HR. destruct (pr_ok _ _ _ _ _ HR) as [_ [_ Ht _ _ _]]. by rewrite total_end in Ht. Qed.

(** ** The search *)
Fixpoint block_len (a : Z) (bs : list blk) (x : Z) : option Z :=
  match bs with
  | [] => None
  | b :: bs => if x =? a then Some b.1 else block_len (a + b.1) bs x
  end.

(** Whether the block at [x] has room for [size] bytes. *)
Definition fits (size start : Z) (bs : list blk) (x : Z) : bool :=
  match block_len start bs x with Some l => size + 24 <=? l | None => false end.

Lemma block_len_at a A l u B : sized A -> block_len a (A ++ (l, u) :: B) (a + total A) = Some l.
Proof.
  intros Hs. revert a. induction Hs as [|b A Hb Hs IH]; intros a; simpl.
  - by rewrite Z.add_0_r, Z.eqb_refl.
  - pose proof (sized_total _ Hs). simpl in Hb. rewrite (proj2 (Z.eqb_neq _ _)) by lia. by rewrite Z.add_assoc.
Qed.

Lemma free_addr_block a bs x :
  x ∈ free_addrs a bs -> exists A l B, bs = A ++ (l, false) :: B /\ x = a + total A.
Proof.
  revert a. induction bs as [|[l u] bs IH]; intros a; simpl; [by intros ?%not_elem_of_nil|].
  intros [Hx|Hx]%elem_of_app.
  - destruct u; [by apply not_elem_of_nil in Hx|]. apply list_elem_of_singleton in Hx as ->.
    exists [], l, bs. split; [done|]. simpl. lia.
  - destruct (IH _ Hx) as (A & l' & B & -> & ->). exists ((l, u) :: A), l', B. split; [done|]. simpl. lia.
Qed.

Section locked.
Context (hp : nat) (h : rt_memheap) (HP : gmap nat rt_memheap) (R : Ram.ram) (I : items) (bs : list blk) (fl : list Z).
Hypothesis Eh : HP !! hp = Some h.
Hypothesis HR : pool_rep hp h I bs fl.
#[local] Set Default Proof Using "All".
Abbreviation start := (mh_start_addr h).
Abbreviation fh := (mh_free_list h).
Abbreviation St := (Mstore HP I R).

Lemma rep_sized : sized bs.
Proof. destruct (pr_ok _ _ _ _ _ HR) as [_ [Hs _ _ _ _]]. by apply Forall_app in Hs as [? _]. Qed.

(** A free block in the lists and in memory. *)
Lemma free_block x :
  x ∈ fl -> exists A l B it, bs = A ++ (l, false) :: B /\ x = start + total A /\ block_len start bs x = Some l /\
    I !! x = Some it /\ u32 (it_next it - x - 24) = l - 24 /\ 36 <= l /\ l <= mh_pool_size h - 24.
Proof.
  intros Hx. rewrite (pr_free _ _ _ _ _ HR) in Hx. destruct (free_addr_block _ _ _ Hx) as (A & l & B & Eb & ->).
  pose proof (pr_ok _ _ _ _ _ HR) as HO. rewrite Eb in HO.
  destruct (block_hdr _ _ _ _ _ _ _ _ _ _ HO) as (it & E & _ & _ & En & _).
  pose proof (block_bounds _ _ _ _ _ _ _ _ _ _ HO). pose proof (pr_start _ _ _ _ _ HR). pose proof (pr_top _ _ _ _ _ HR).
  pose proof (pr_blocks _ _ _ _ _ HR) as Hb. rewrite Eb in Hb. apply Forall_app in Hb as [_ [[Hl _] _]%Forall_cons]. simpl in Hl.
  exists A, l, B, it. split; [done|]. split; [done|]. split.
  { rewrite Eb. apply block_len_at. pose proof rep_sized as Hs. rewrite Eb in Hs. by apply Forall_app in Hs as [? _]. }
  split; [done|]. rewrite En, u32_small by lia. lia.
Qed.

Lemma search_loop_ok size : forall l P fs fuel,
  fl = P ++ l -> fs < size -> (length l < fuel)%nat ->
  (exists Q x T len, l = Q ++ x :: T /\ Forall (fun y => fits size start bs y = false) Q /\
    block_len start bs x = Some len /\ size + 24 <= len /\
    search_loop fuel hp size (default fh (head l)) fs St = Ok (x, len - 24) St) \/
  (Forall (fun y => fits size start bs y = false) l /\
    exists fs', fs' < size /\ search_loop fuel hp size (default fh (head l)) fs St = Ok (fh, fs') St).
Proof.
  induction l as [|x l IH]; intros P fs fuel Ef Hfs Hfuel; (destruct fuel as [|fuel]; [simpl in *; lia|]); simpl.
  - right. split; [constructor|]. exists fs. split; [done|].
    rewrite (bind_ok _ _ _ _ _ (get_memheap_at _ _ _ _ _ Eh)). by rewrite Z.eqb_refl.
  - assert (x ∈ fl) as Hx by (rewrite Ef; set_solver).
    destruct (free_block x Hx) as (A & len & B & it & Eb & Ex & El & Ei & Ez & Hl & Hle).
    rewrite (bind_ok _ _ _ _ _ (get_memheap_at _ _ _ _ _ Eh)).
    assert (x <> fh) as Hne.
    { pose proof (apart_nodup _ _ _ _ _ (po_apart _ _ _ _ _ _ _ (pr_ok _ _ _ _ _ HR))) as Hnd.
      apply NoDup_cons in Hnd as [Hnd _]. intros ->. by apply Hnd. }
    rewrite (proj2 (Z.eqb_neq _ _) Hne), (proj2 (Z.ltb_lt _ _) Hfs). simpl.
    rewrite (bind_ok _ _ _ _ _ (memitem_size_at _ _ _ _ _ Ei)), Ez.
    destruct (Z.ltb_spec (len - 24) size) as [Hlt|Hge].
    + rewrite (bind_ok _ _ _ _ _ (get_item_at _ _ _ _ _ Ei)).
      assert (it_next_free it = default fh (head l)) as ->.
      { destruct (pr_ok _ _ _ _ _ HR) as [[_ _ H3] _]. rewrite Ef, app_comm_cons in H3.
        apply ring_link_at in H3 as [H3 _]. rewrite Ei in H3. injection H3 as ->. by destruct l. }
      assert (fits size start bs x = false) as Hf by (unfold fits; rewrite El; apply Z.leb_gt; lia).
      destruct (IH (P ++ [x]) (len - 24) fuel) as [(Q & y & T & len' & -> & HQ & H)|[HF H]].
      * by rewrite <-app_assoc.
      * done.
      * simpl in Hfuel. lia.
      * left. exists (x :: Q), y, T, len'. split; [done|]. split; [by apply Forall_cons|done].
      * right. split; [by apply Forall_cons|done].
    + left. exists [], x, l, len. split; [done|]. split; [constructor|]. split; [done|]. split; [lia|].
      destruct fuel as [|fuel]; [simpl in Hfuel; lia|]. simpl.
      rewrite (bind_ok _ _ _ _ _ (get_memheap_at _ _ _ _ _ Eh)).
      by rewrite (proj2 (Z.eqb_neq _ _) Hne), (proj2 (Z.ltb_ge _ _)) by lia.
Qed.

(** Every node of the free list has an entry, so the fuel is enough. *)
Lemma fuel_enough : (length fl < S (S (size I)))%nat.
Proof.
  destruct (pr_ok _ _ _ _ _ HR) as [[_ _ H3] Ha]. apply apart_nodup in Ha.
  assert (list_to_set (fh :: fl) ⊆@{gset Z} dom I) as Hsub.
  { intros x Hx. apply elem_of_list_to_set in Hx. apply elem_of_dom. by eapply ring_dom. }
  apply subseteq_size in Hsub. rewrite size_list_to_set in Hsub by done. rewrite size_dom in Hsub. simpl in Hsub. lia.
Qed.
End locked.
(** ** Allocation *)
(** What becomes of the free block of [len] bytes at [x], of the ring of free
    blocks, and how many bytes are not available any more. *)
Definition splits (size len : Z) : bool := size + 60 <=? len.
Definition taken_blocks (size len : Z) (B : list blk) : list blk :=
  if splits size len then (size + 24, true) :: (len - (size + 24), false) :: B else (len, true) :: B.
Definition taken_free (size len x : Z) (fl : list Z) : list Z :=
  if splits size len then (x + (size + 24)) :: fl else fl.
Definition taken_bytes (size len : Z) : Z := if splits size len then size + 24 else len - 24.

Definition counted (n : Z) (h : rt_memheap) : rt_memheap :=
  Memheap h.(mh_start_addr) h.(mh_pool_size) (h.(mh_available_size) - n)
    (Z.max h.(mh_max_used_size) (h.(mh_pool_size) - (h.(mh_available_size) - n)))
    h.(mh_block_list) h.(mh_free_list) h.(mh_free_header) h.(mh_lock).

Lemma take_bytes_ok hp h HP I R n :
  HP !! hp = Some h -> 0 <= mh_available_size h - n -> mh_available_size h - n <= mh_pool_size h < 2 ^ 32 ->
  take_bytes hp n (Mstore HP I R) = Ok tt (Mstore (<[hp := counted n h]> HP) I R).
Proof.
  intros Eh H1 H2. unfold take_bytes, upd_memheap.
  rewrite (bind_bind_ok _ _ _ _ _ _ (get_memheap_at _ _ _ _ _ Eh)), bind_modify.
  change (set_ms_heaps ?v (Mstore HP I R)) with (Mstore v I R). cbn [ms_heaps].
  rewrite (bind_ok _ _ _ _ _ (get_memheap_at _ _ _ hp (set_mh_available_size (u32 (mh_available_size h - n)) h)
    ltac:(apply lookup_insert_eq))). unfold modify, set_ms_heaps. simpl. rewrite insert_insert_eq, (u32_small (_ - n)), u32_small by lia.
  do 3 f_equal. unfold counted, set_mh_max_used_size, set_mh_available_size. destruct (Z.ltb_spec (mh_max_used_size h)
    (mh_pool_size h - (mh_available_size h - n))); simpl; f_equal; lia.
Qed.

Lemma merged_taken P len size Q : merged (P ++ (len, false) :: Q) -> merged (P ++ taken_blocks size len Q).
Proof.
  intros [H1 [H2 H3]]%merged_app. unfold taken_blocks.
  destruct (splits size len); apply merged_app; (split; [by eapply merged_use|]);
    simpl; repeat split; try done; try (by left); destruct Q; tauto.
Qed.

Lemma total_taken size len Q : total (taken_blocks size len Q) = len + total Q.
Proof. unfold taken_blocks. destruct (splits size len); simpl; lia. Qed.

Lemma free_total_taken size len Q :
  free_total (taken_blocks size len Q) = len - 24 - taken_bytes size len + free_total Q.
Proof. unfold taken_blocks, taken_bytes. destruct (splits size len); simpl; lia. Qed.

Lemma block_ok_taken size len Q :
  12 <= size -> size mod 4 = 0 -> size + 24 <= len -> block_ok (len, false) -> Forall block_ok Q ->
  Forall block_ok (taken_blocks size len Q).
Proof.
  unfold block_ok, taken_blocks, splits. simpl. intros Hs Hm Hl [Hl' Hlm] HQ.
  assert ((size + 24) mod 4 = 0) by (rewrite Z.add_mod, Hm by lia; done).
  destruct (Z.leb_spec (size + 60) len); repeat constructor; simpl; try done; try lia.
  rewrite Zminus_mod, Hlm, H by lia. done.
Qed.

Lemma free_addrs_taken a size len Q :
  free_addrs a (taken_blocks size len Q) = taken_free size len a (free_addrs (a + len) Q).
Proof.
  unfold taken_blocks, taken_free. destruct (splits size len); simpl; [|done].
  do 2 f_equal. lia.
Qed.

(** The representation after an allocation. *)
Lemma rep_taken hp h I I' A len B P x T size :
  pool_rep hp h I (A ++ (len, false) :: B) (P ++ x :: T) -> x = mh_start_addr h + total A ->
  12 <= size -> size mod 4 = 0 -> size + 24 <= len ->
  pool_ok hp (mh_free_list h) (mh_start_addr h) (mh_pool_size h) I' (A ++ taken_blocks size len B)
    (taken_free size len x (P ++ T)) ->
  pool_rep hp (counted (taken_bytes size len) h) I' (A ++ taken_blocks size len B) (taken_free size len x (P ++ T)).
Proof.
  intros [HO Hf Hb Hm Ha Hx Hs Ht] Ex H1 H2 H3 HO'. split; simpl; try done.
  - rewrite free_addrs_app in Hf |- *. rewrite free_addrs_taken. simpl in Hf. rewrite <-Ex in Hf |- *.
    rewrite <-!Permutation_middle in Hf. apply Permutation_cons_inv in Hf.
    unfold taken_free. destruct (splits size len); [|done]. by rewrite <-Permutation_middle, Hf.
  - apply Forall_app in Hb as [HA [Hl HB]%Forall_cons]. apply Forall_app. split; [done|]. by apply block_ok_taken.
  - by eapply merged_taken.
  - rewrite Ha, !free_total_app, free_total_taken. simpl. lia.
  - lia.
Qed.
(** A block leaves the free list, and its pointers are reset. *)
Lemma take_out_ok hp fh start size HP R I A l u B P Q :
  let x := start + total A in
  pool_ok hp fh start size I (A ++ (l, u) :: B) (P ++ x :: Q) ->
  exists I', pool_ok hp fh start size I' (A ++ (l, u) :: B) (P ++ Q) /\ frame fh start size I I' /\
    (remove_free x ;! upd_item x (set_it_next_free 0) ;! upd_item x (set_it_prev_free 0)) (Mstore HP I R) =
      Ok tt (Mstore HP I' R) /\
    forall T (k : MM T), (remove_free x ;! upd_item x (set_it_next_free 0) ;! upd_item x (set_it_prev_free 0) ;! k)
      (Mstore HP I R) = k (Mstore HP I' R).
Proof.
  intros x HO. destruct (remove_free_pool hp fh start size HP R _ _ _ _ _ HO) as (I1 & E1 & HO1 & F1 & Hx & _).
  destruct (block_hdr _ _ _ _ _ _ _ _ _ _ HO1) as (it & Ei & _). fold x in Ei.
  assert (is_Some (I1 !! x)) as S1 by eauto. set (I2 := alter (set_it_next_free 0) x I1).
  assert (is_Some (I2 !! x)) as S2 by (by apply alter_some).
  exists (alter (set_it_prev_free 0) x I2). split; [|split; [|split]].
  - apply free_alter_ok; try done. by apply free_alter_ok.
  - pose proof (block_bounds _ _ _ _ _ _ _ _ _ _ HO).
    eapply frame_trans; [exact F1|]. eapply frame_trans; apply frame_alter; right; unfold x; lia.
  - rewrite (bind_ok _ _ _ _ _ E1), (bind_ok _ _ _ _ _ (upd_item_at _ _ _ _ _ S1)). by apply upd_item_at.
  - intros T k. rewrite (bind_ok _ _ _ _ _ E1), (bind_ok _ _ _ _ _ (upd_item_at _ _ _ _ _ S1)).
    by rewrite (bind_ok _ _ _ _ _ (upd_item_at _ _ _ _ _ S2)).
Qed.

(** The block found is taken, and divided if it is large enough. *)
Definition take_block (raw : rt_memheap_item) (heap : nat) (size x free_size : Z) : MM unit :=
  if u32 (size + RT_MEMHEAP_SIZE + RT_MEMHEAP_MINIALLOC) <=? free_size then
    split_after raw heap x (u32 (x + size + RT_MEMHEAP_SIZE)) ;!
    remove_free x ;!
    upd_item x (set_it_next_free 0) ;!
    upd_item x (set_it_prev_free 0) ;!
    insert_free heap (u32 (x + size + RT_MEMHEAP_SIZE)) ;!
    take_bytes heap (size + RT_MEMHEAP_SIZE)
  else
    take_bytes heap free_size ;!
    remove_free x ;!
    upd_item x (set_it_next_free 0) ;!
    upd_item x (set_it_prev_free 0).

Section alloc.
Context (raw : rt_memheap_item) (hp : nat) (h : rt_memheap) (HP : gmap nat rt_memheap) (R : Ram.ram) (I : items).
Context (A B : list blk) (P T : list Z) (len size : Z).
Abbreviation start := (mh_start_addr h).
Abbreviation fh := (mh_free_list h).
Abbreviation x := (start + total A).
Hypothesis Eh : HP !! hp = Some h.
Hypothesis HR : pool_rep hp h I (A ++ (len, false) :: B) (P ++ x :: T).
Hypothesis Hsize : 12 <= size.
Hypothesis Hmod : size mod 4 = 0.
Hypothesis Hfit : size + 24 <= len.
#[local] Set Default Proof Using "All".

Lemma alloc_bounds :
  0 <= total A /\ 36 <= len /\ total A + len + 24 <= mh_pool_size h /\ 0 < start /\ start + mh_pool_size h <= 2 ^ 32 /\
  len - 24 <= mh_available_size h <= mh_pool_size h.
Proof.
  pose proof (block_bounds _ _ _ _ _ _ _ _ _ _ (pr_ok _ _ _ _ _ HR)). pose proof (pr_start _ _ _ _ _ HR).
  pose proof (pr_top _ _ _ _ _ HR). pose proof (pr_blocks _ _ _ _ _ HR) as Hb. pose proof (rep_total _ _ _ _ _ HR) as Ht.
  pose proof (free_total_bounds _ Hb). pose proof (pr_avail _ _ _ _ _ HR) as Ha. rewrite free_total_app in Ha. simpl in Ha.
  apply Forall_app in Hb as [HA [[Hl _] HB]%Forall_cons]. simpl in Hl.
  pose proof (free_total_bounds _ HA). pose proof (free_total_bounds _ HB). rewrite free_total_app in *. simpl in *. lia.
Qed.

Lemma take_block_ok :
  exists I', take_block raw hp size x (len - 24) (Mstore HP I R) =
      Ok tt (Mstore (<[hp := counted (taken_bytes size len) h]> HP) I' R) /\
    frame fh start (mh_pool_size h) I I' /\
    pool_ok hp fh start (mh_pool_size h) I' (A ++ (if splits size len then
        (size + 24, false) :: (len - (size + 24), false) :: B else (len, false) :: B)) (taken_free size len x (P ++ T)).
Proof.
  pose proof alloc_bounds. pose proof (pr_ok _ _ _ _ _ HR) as HO. unfold take_block, taken_bytes, taken_free, splits.
  change RT_MEMHEAP_SIZE with 24. change RT_MEMHEAP_MINIALLOC with 12. rewrite (u32_small (size + 24 + 12)) by lia.
  replace (size + 24 + 12 <=? len - 24) with (size + 60 <=? len) by (apply eq_true_iff_eq; rewrite !Z.leb_le; lia).
  destruct (Z.leb_spec (size + 60) len) as [Hs|Hs].
  - rewrite <-Z.add_assoc, (u32_small (x + _)) by lia.
    assert (x + (size + 24) ∉ P ++ x :: T) as Hn.
    { intros Hin. rewrite (pr_free _ _ _ _ _ HR) in Hin. apply free_addrs_sub in Hin. revert Hin.
      apply inside_not_addr; [|simpl; lia]. pose proof (pr_ok _ _ _ _ _ HR) as [_ [Hz _ _ _ _]]. by apply Forall_app in Hz as [? _]. }
    destruct (split_pool hp fh start _ HP R raw I A len false (size + 24) B _ HO) as (I1 & E1 & HO1 & F1); [lia|lia|done|].
    rewrite (bind_ok _ _ _ _ _ E1).
    destruct (take_out_ok hp fh start _ HP R I1 A _ false _ P T HO1) as (I2 & HO2 & F2 & _ & E2). rewrite E2.
    destruct (two_hdrs _ _ _ _ _ _ _ _ _ _ _ _ HO2) as (i1 & i2 & _ & _ & _ & _ & Ei & _).
    destruct (insert_free_pool hp fh start _ HP R h I2 _ (x + (size + 24)) (P ++ T) Eh eq_refl HO2) as (I3 & E3 & HO3 & F3 & _).
    { lia. }
    { intros Hin. apply Hn. set_solver. }
    { eauto. }
    exists I3. rewrite (bind_ok _ _ _ _ _ E3), (take_bytes_ok _ h) by (done || lia). split; [done|].
    split; [|done]. eapply frame_trans; [exact F1|]. by eapply frame_trans.
  - rewrite (bind_ok _ _ _ _ _ (take_bytes_ok hp h HP I R (len - 24) Eh ltac:(lia) ltac:(lia))).
    destruct (take_out_ok hp fh start _ (<[hp := counted (len - 24) h]> HP) R I A len false B P T HO) as (I1 & HO1 & F1 & E1 & _).
    exists I1. by rewrite E1.
Qed.

Lemma take_marked_ok :
  exists I', (take_block raw hp size x (len - 24) ;!
      upd_item x (fun i => set_it_magic (Z.lor i.(it_magic) RT_MEMHEAP_USED) i) ;!
      ret (Some (u32 (x + RT_MEMHEAP_SIZE)))) (Mstore HP I R) =
      Ok (Some (x + 24)) (Mstore (<[hp := counted (taken_bytes size len) h]> HP) I' R) /\
    frame fh start (mh_pool_size h) I I' /\
    pool_rep hp (counted (taken_bytes size len) h) I' (A ++ taken_blocks size len B) (taken_free size len x (P ++ T)).
Proof.
  destruct take_block_ok as (I1 & E1 & F1 & HO1). rewrite (bind_ok _ _ _ _ _ E1).
  set (HP' := <[hp := _]> HP).
  assert (exists n B', (if splits size len then (size + 24, false) :: (len - (size + 24), false) :: B else (len, false) :: B) =
    (n, false) :: B' /\ taken_blocks size len B = (n, true) :: B') as (n & B' & EB & ET).
  { unfold taken_blocks. destruct (splits size len); eauto. }
  rewrite EB in HO1.
  destruct (mark_ok hp fh start _ HP' R I1 A n false true B' _ (fun i => set_it_magic (Z.lor i.(it_magic) RT_MEMHEAP_USED) i) HO1)
    as (I2 & E2 & HO2 & F2); [by intros it -> |done|].
  exists I2. rewrite (bind_ok _ _ _ _ _ E2). pose proof alloc_bounds. change RT_MEMHEAP_SIZE with 24. rewrite u32_small by lia.
  split; [done|]. split; [by eapply frame_trans|]. rewrite <-ET in HO2. by eapply rep_taken.
Qed.
End alloc.

(** First fit in the order of the free list. *)
Lemma mh_alloc_locked_ok raw hp h HP R I bs fl size :
  HP !! hp = Some h -> pool_rep hp h I bs fl -> 12 <= size -> size mod 4 = 0 -> size < mh_available_size h ->
  (Forall (fun y => fits size (mh_start_addr h) bs y = false) fl /\
    mh_alloc_locked raw hp size (Mstore HP I R) = Ok None (Mstore HP I R)) \/
  exists P T A len B I', let x := mh_start_addr h + total A in
    fl = P ++ x :: T /\ Forall (fun y => fits size (mh_start_addr h) bs y = false) P /\
    bs = A ++ (len, false) :: B /\ size + 24 <= len /\
    mh_alloc_locked raw hp size (Mstore HP I R) =
      Ok (Some (x + 24)) (Mstore (<[hp := counted (taken_bytes size len) h]> HP) I' R) /\
    frame (mh_free_list h) (mh_start_addr h) (mh_pool_size h) I I' /\
    pool_rep hp (counted (taken_bytes size len) h) I' (A ++ taken_blocks size len B) (taken_free size len x (P ++ T)).
Proof.
  intros Eh HR Hs Hm Hav. unfold mh_alloc_locked, items_fuel.
  pose proof (pr_ok _ _ _ _ _ HR) as [[_ _ H3] _]. pose proof (ring_link _ _ _ _ _ H3) as [Hn _].
  apply fmap_Some in Hn as (fi & Ef & En).
  rewrite (bind_ok _ _ _ _ _ (get_memheap_at _ _ _ _ _ Eh)), (bind_ok _ _ _ _ _ (get_item_at _ _ _ _ _ Ef)), bind_gets, <-En.
  destruct (search_loop_ok hp h HP R I bs fl Eh HR size fl [] 0 (S (S (stdpp.base.size I)))) as
    [(P & x & T & len & E & HP' & El & Hfit & ES)|[HF (fs & Hfs & ES)]]; [done|lia|by eapply fuel_enough|right|left].
  - unfold succ_of. simpl ms_items. rewrite (bind_ok _ _ _ _ _ ES). simpl.
    rewrite (proj2 (Z.leb_le _ _)) by lia.
    destruct (free_block hp h HP R I bs fl Eh HR x) as (A & l & B & it & Eb & Ex & El' & _); [rewrite E; set_solver|].
    rewrite El in El'. injection El' as <-. subst fl bs x.
    destruct (take_marked_ok raw hp h HP R I A B P T len size Eh HR Hs Hm Hfit) as (I' & E' & F & HR').
    exists P, T, A, len, B, I'. do 4 (split; [done|]). split; [|done]. exact E'.
  - unfold succ_of. simpl ms_items. rewrite (bind_ok _ _ _ _ _ ES). simpl. split; [done|].
    by rewrite (proj2 (Z.leb_gt _ _)) by lia.
Qed.
(** ** Release *)
Lemma magic_used u : negb (Z.land (magic_of u) RT_MEMHEAP_USED =? 0) = u.
Proof. by destruct u. Qed.

Definition next_free (B : list blk) : bool := match B with (_, false) :: _ => true | _ => false end.

Lemma prev_hdr hp fh start size I A l u B fl :
  let x := start + total A in
  pool_ok hp fh start size I (A ++ (l, u) :: B) fl ->
  exists p ip, it_prev <$> I !! x = Some p /\ I !! p = Some ip /\ it_magic ip = magic_of (negb (bwd_free A)).
Proof.
  intros x [[H1 H2 _] _]. destruct (last_snoc_cases A) as [->|(A' & [l1 u1] & ->)].
  - exists (start + total ((l, u) :: B)). rewrite addrs_app in H1. apply rotate_ring in H1.
    rewrite hdrs_app in H2. destruct H2 as [_ [[Hm _] _]]. destruct H1 as [[_ Hv] _]. simpl in Hv.
    replace x with start by (unfold x; simpl; lia). apply fmap_Some in Hm as (ip & E & Em). eauto.
  - rewrite <-!app_assoc in H1, H2. simpl in H1, H2. rewrite addrs_app in H1. simpl in H1.
    apply ring_neighbours_at in H1 as [Hv _]. rewrite hdrs_app in H2. destruct H2 as (_ & [Hm _] & _).
    exists (start + total A').
    replace (start + total A' + l1) with x in Hv by (unfold x; rewrite total_app; simpl; lia). apply fmap_Some in Hm as (ip & E & Em).
    exists ip. split; [done|]. split; [done|]. unfold bwd_free. rewrite last_snoc, <-Em. simpl. by destruct u1.
Qed.

Lemma next_hdr hp fh start size I A l u B fl :
  pool_ok hp fh start size I (A ++ (l, u) :: B) fl ->
  exists i2, I !! (start + total A + l) = Some i2 /\ it_magic i2 = magic_of (negb (next_free B)).
Proof.
  intros [[_ H2 _] _]. rewrite <-app_assoc, hdrs_app in H2. destruct H2 as (_ & _ & H2). simpl in H2.
  destruct B as [|[l2 u2] B]; destruct H2 as [[Hm _] _]; apply fmap_Some in Hm as (i2 & E & Em); exists i2; (split; [done|]);
    rewrite <-Em; [done|by destruct u2].
Qed.

Section release.
Context (hp : nat) (h : rt_memheap) (HP : gmap nat rt_memheap) (R : Ram.ram).
Abbreviation start := (mh_start_addr h).
Abbreviation fh := (mh_free_list h).
Abbreviation psize := (mh_pool_size h).

(** The heaps with [v] bytes available in this one. *)
Definition with_avail (v : Z) : gmap nat rt_memheap := <[hp := set_mh_available_size v h]> HP.

Lemma give_bytes_ok I v n :
  0 <= v + n < 2 ^ 32 -> give_bytes hp n (Mstore (with_avail v) I R) = Ok tt (Mstore (with_avail (v + n)) I R).
Proof.
  intros Hv. unfold give_bytes, upd_memheap, with_avail.
  rewrite (bind_ok _ _ _ _ _ (get_memheap_at _ _ _ _ _ (lookup_insert_eq _ _ _))).
  unfold modify, set_ms_heaps. simpl. by rewrite insert_insert_eq, u32_small by lia.
Qed.

(** The first part of [mh_free_locked]: join with the block before. *)
Definition free_prev (x : Z) {T} (k : bool -> Z -> MM T) : MM T :=
  let! hd := get_item x in
  let! used := RT_MEMHEAP_IS_USED hd.(it_prev) in
  let! x' := (if negb used then
      give_bytes hp RT_MEMHEAP_SIZE ;!
      let! hd := get_item x in
      upd_item hd.(it_prev) (set_it_next hd.(it_next)) ;!
      let! hd := get_item x in
      upd_item hd.(it_next) (set_it_prev hd.(it_prev)) ;!
      let! hd := get_item x in
      ret hd.(it_prev)
    else ret x) in
  k used x'.

Lemma free_prev_ok I A l B fl v :
  pool_ok hp fh start psize I (A ++ (l, false) :: B) fl -> 0 <= v < 2 ^ 32 - 24 ->
  exists I', pool_ok hp fh start psize I' (bwd_rest A ++ (bwd_len A l, false) :: B) fl /\ frame fh start psize I I' /\
    forall T (k : bool -> Z -> MM T), free_prev (start + total A) k (Mstore (with_avail v) I R) =
      k (negb (bwd_free A)) (start + total (bwd_rest A))
        (Mstore (with_avail (if bwd_free A then v + 24 else v)) I' R).
Proof.
  intros HO Hv. set (x := start + total A).
  destruct (prev_hdr _ _ _ _ _ _ _ _ _ _ HO) as (p & ip & Ep & Eip & Em). fold x in Ep.
  apply fmap_Some in Ep as (ix & Ex & ->). unfold free_prev.
  destruct (bwd_cases A) as [(Ef & Er & El & _)|(A' & l1 & EA & Ef & Er & El)].
  - rewrite Ef, Er, El in *. exists I. split; [done|]. split; [apply frame_refl|]. intros T k.
    rewrite (bind_ok _ _ _ _ _ (get_item_at _ _ _ _ _ Ex)), (bind_ok _ _ _ _ _ (is_used_at _ _ _ _ _ Eip)), Em, magic_used.
    done.
  - rewrite Ef, Er, El in *. subst A. rewrite <-app_assoc in HO. simpl in HO.
    destruct (merge_prev_first_pool _ _ _ _ (with_avail (v + 24)) R _ _ _ _ _ _ _ _ HO) as (I' & [HO' F] & Ex' & E).
    assert (x = start + total A' + l1) as Hx by (unfold x; rewrite total_app; simpl; lia). rewrite <-Hx in *.
    exists I'. split; [exact HO'|]. split; [done|]. intros T k.
    rewrite (bind_ok _ _ _ _ _ (get_item_at _ _ _ _ _ Ex)), (bind_ok _ _ _ _ _ (is_used_at _ _ _ _ _ Eip)), Em, magic_used.
    simpl negb. cbv iota. rewrite (bind_ok _ _ _ (start + total A') (Mstore (with_avail (v + 24)) I' R)); [done|].
    rewrite (bind_ok _ _ _ _ _ (give_bytes_ok I v 24 ltac:(lia))), E.
    rewrite Ex in Ex'. rewrite (bind_ok _ _ _ _ _ (get_item_at _ _ _ _ _ Ex')). unfold ret. f_equal.
    destruct (two_hdrs _ _ _ _ _ _ _ _ _ _ _ _ HO) as (i1 & i2 & _ & _ & _ & _ & E2 & _ & _ & _ & V2 & _).
    rewrite <-Hx, Ex in E2. by injection E2 as <-.
Qed.

(** The second part: join with the block behind. *)
Definition free_next (x : Z) {T} (k : MM T) : MM T :=
  let! hd := get_item x in
  let! used := RT_MEMHEAP_IS_USED hd.(it_next) in
  (if negb used then
    give_bytes hp RT_MEMHEAP_SIZE ;!
    let! hd := get_item x in
    let new_ptr := hd.(it_next) in
    let! nw := get_item new_ptr in
    upd_item nw.(it_next) (set_it_prev x) ;!
    let! nw := get_item new_ptr in
    upd_item x (set_it_next nw.(it_next)) ;!
    remove_free new_ptr
  else ret tt) ;! k.

(** The free list without [y]. *)
Definition without (y : Z) (fl : list Z) : list Z := filter (fun a => a <> y) fl.

Lemma without_other y l : y ∉ l -> without y l = l.
Proof.
  unfold without. induction l as [|z l IH]; [done|]. intros [Hz Hl]%not_elem_of_cons.
  rewrite filter_cons_True by (by intros ->). by rewrite IH.
Qed.

Lemma without_mid P y Q : NoDup (P ++ y :: Q) -> without y (P ++ y :: Q) = P ++ Q.
Proof.
  intros Hnd. rewrite <-Permutation_middle in Hnd. apply NoDup_cons in Hnd as [Hy _].
  unfold without. rewrite filter_app, filter_cons_False by (intros H; by apply H).
  rewrite <-filter_app. by apply without_other.
Qed.

Lemma free_next_ok I A l B fl v :
  pool_ok hp fh start psize I (A ++ (l, false) :: B) fl -> 0 <= v < 2 ^ 32 - 24 ->
  (next_free B = true -> start + total A + l ∈ fl) ->
  exists I', pool_ok hp fh start psize I' (A ++ (fwd_len l B, false) :: fwd_rest B)
      (if next_free B then without (start + total A + l) fl else fl) /\ frame fh start psize I I' /\
    forall T (k : MM T), free_next (start + total A) k (Mstore (with_avail v) I R) =
      k (Mstore (with_avail (if next_free B then v + 24 else v)) I' R).
Proof.
  intros HO Hv Hin. set (x := start + total A) in *.
  destruct (block_hdr _ _ _ _ _ _ _ _ _ _ HO) as (ix & Ex & _ & _ & En & _). fold x in Ex, En.
  destruct (next_hdr _ _ _ _ _ _ _ _ _ _ HO) as (i2 & E2 & Em). fold x in E2. unfold free_next.
  destruct (fwd_cases B) as [(Er & El & Hb)|(l2 & B' & EB & Er & El)].
  - assert (next_free B = false) as Ef by (destruct B as [|[? []] ?]; simpl in *; done). rewrite Er, El, Ef in *. exists I.
    split; [done|]. split; [apply frame_refl|]. intros T k.
    by rewrite (bind_ok _ _ _ _ _ (get_item_at _ _ _ _ _ Ex)), En, (bind_ok _ _ _ _ _ (is_used_at _ _ _ _ _ E2)), Em, magic_used.
  - rewrite Er, El. subst B. simpl next_free in Hin, Em |- *. simpl negb in Em.
    destruct (merge_next_pool _ _ _ _ (with_avail (v + 24)) R _ _ _ _ _ _ _ _ HO) as (I1 & [HO1 F1] & E). fold x in E.
    specialize (Hin eq_refl). apply list_elem_of_split in Hin as (P & Q & ->).
    destruct (remove_free_pool _ _ _ _ (with_avail (v + 24)) R _ _ _ _ _ HO1) as (I2 & E3 & HO2 & F2 & _).
    pose proof (pa_nodup _ _ _ _ _ (po_apart _ _ _ _ _ _ _ HO1)) as Hnd.
    exists I2. cbv iota. rewrite (without_mid _ _ _ Hnd). split; [done|]. split; [by eapply frame_trans|]. intros T k.
    rewrite (bind_ok _ _ _ _ _ (get_item_at _ _ _ _ _ Ex)), En, (bind_ok _ _ _ _ _ (is_used_at _ _ _ _ _ E2)), Em, magic_used.
    simpl negb. cbv iota. rewrite (bind_ok _ _ _ tt (Mstore (with_avail (v + 24)) I2 R)); [done|].
    change RT_MEMHEAP_SIZE with 24.
    rewrite (bind_ok _ _ _ _ _ (give_bytes_ok I v 24 ltac:(lia))), (bind_ok _ _ _ _ _ (get_item_at _ _ _ _ _ Ex)), En.
    cbv zeta. by rewrite E.
Qed.
End release.
(** What becomes of the lists, and the bytes that are available again. *)
Definition freed_free (x y : Z) (A B : list blk) (fl : list Z) : list Z :=
  let fl := if next_free B then without y fl else fl in if bwd_free A then fl else x :: fl.
Definition freed_bytes (A : list blk) (len : Z) (B : list blk) : Z :=
  len - 24 + (if bwd_free A then 24 else 0) + (if next_free B then 24 else 0).

Lemma free_total_freed A len B :
  free_total (free_blocks A len B) = free_total (A ++ (len, true) :: B) + freed_bytes A len B.
Proof.
  unfold free_blocks, freed_bytes. rewrite !free_total_app. simpl.
  destruct (fwd_cases B) as [(-> & -> & Hb)|(l2 & B' & -> & -> & ->)];
  destruct (bwd_cases A) as [(-> & -> & -> & _)|(A' & l1 & -> & -> & -> & ->)]; rewrite ?free_total_app; simpl;
    try lia; destruct B as [|[? []] ?]; simpl in *; try done; lia.
Qed.

Lemma block_ok_freed A len B :
  Forall block_ok (A ++ (len, true) :: B) -> Forall block_ok (free_blocks A len B).
Proof.
  unfold free_blocks, block_ok. intros [HA [[Hl Hm] HB]%Forall_cons]%Forall_app. simpl in Hl, Hm.
  assert (36 <= fwd_len len B /\ fwd_len len B mod 4 = 0 /\ Forall block_ok (fwd_rest B)) as (H1 & H2 & H3).
  { destruct (fwd_cases B) as [(-> & -> & _)|(l2 & B' & -> & -> & ->)]; [done|].
    apply Forall_cons in HB as [[? ?] ?]. simpl in *. split; [lia|]. split; [by rewrite Z.add_mod, Hm, H0 by lia|done]. }
  destruct (bwd_cases A) as [(_ & -> & -> & _)|(A' & l1 & -> & _ & -> & ->)]; [by apply Forall_app; split; [|constructor]|].
  apply Forall_app in HA as [HA [[? ?] _]%Forall_cons]. simpl in *. apply Forall_app. split; [done|]. constructor; [|done].
  simpl. split; [lia|]. by rewrite Z.add_mod, H2, H0 by lia.
Qed.

Lemma next_in a A len B fl :
  fl ≡ₚ free_addrs a (A ++ (len, true) :: B) -> next_free B = true -> a + total A + len ∈ fl.
Proof.
  intros -> HB. rewrite free_addrs_app. destruct B as [|[l2 []] B]; try done. simpl. set_solver.
Qed.

Lemma used_not_free a A len B : sized (A ++ (len, true) :: B) -> a + total A ∉ free_addrs a (A ++ (len, true) :: B).
Proof.
  intros [HA [Hl HB]%Forall_cons]%Forall_app. simpl in Hl. rewrite free_addrs_app. simpl.
  intros [Hin|Hin]%elem_of_app; apply free_addrs_sub, addrs_range in Hin; try done; lia.
Qed.

Lemma free_addrs_freed a A len B fl :
  sized (A ++ (len, true) :: B) -> fl ≡ₚ free_addrs a (A ++ (len, true) :: B) ->
  freed_free (a + total A) (a + total A + len) A B fl ≡ₚ free_addrs a (free_blocks A len B).
Proof.
  intros Hs Hf. pose proof (free_addrs_nodup a _ Hs) as Hnd. rewrite <-Hf in Hnd.
  assert ((if next_free B then without (a + total A + len) fl else fl) ≡ₚ
    free_addrs a A ++ free_addrs (a + total A + fwd_len len B) (fwd_rest B)) as HN.
  { rewrite free_addrs_app in Hf. simpl in Hf. destruct (fwd_cases B) as [(-> & -> & Hb)|(l2 & B' & -> & -> & ->)].
    - by destruct B as [|[? []] ?]; simpl in *.
    - simpl in Hf |- *. rewrite Hf in Hnd. rewrite Z.add_assoc, <-(without_mid _ _ _ Hnd).
      unfold without. by rewrite Hf. }
  unfold freed_free, free_blocks. set (L := if next_free B then _ else _) in *. clearbody L. rewrite free_addrs_app. simpl.
  destruct (bwd_cases A) as [(-> & -> & E & _)|(A' & l1 & -> & -> & -> & E)]; rewrite HN, E.
  - by rewrite Permutation_middle.
  - rewrite free_addrs_app, !total_app. simpl. rewrite <-app_assoc. simpl. do 2 f_equiv.
    by replace (a + (total A' + (l1 + 0)) + fwd_len len B) with (a + total A' + (l1 + fwd_len len B)) by lia.
Qed.
(** Both joins, and the insertion of a block that was not joined with the one before. *)
Lemma free_joins_ok hp h HP R I A l B fl v :
  let x := mh_start_addr h + total A in
  let w := v + (if bwd_free A then 24 else 0) + (if next_free B then 24 else 0) in
  pool_ok hp (mh_free_list h) (mh_start_addr h) (mh_pool_size h) I (A ++ (l, false) :: B) fl ->
  0 <= v -> w < 2 ^ 32 - 24 -> x ∉ fl -> (next_free B = true -> x + l ∈ fl) ->
  exists I', free_prev hp x (fun insert x => free_next hp x (if insert then insert_free hp x else ret tt))
      (Mstore (with_avail hp h HP v) I R) = Ok tt (Mstore (with_avail hp h HP w) I' R) /\
    frame (mh_free_list h) (mh_start_addr h) (mh_pool_size h) I I' /\
    pool_ok hp (mh_free_list h) (mh_start_addr h) (mh_pool_size h) I' (free_blocks A l B) (freed_free x (x + l) A B fl).
Proof.
  intros x w HO Hv Hw Hx Hn.
  destruct (free_prev_ok hp h HP R I A l B fl v HO) as (I1 & HO1 & F1 & E1); [unfold w in *; destruct (bwd_free A), (next_free B); lia|].
  fold x in E1. rewrite E1. set (v1 := if bwd_free A then v + 24 else v).
  assert (mh_start_addr h + total (bwd_rest A) + bwd_len A l = x + l) as Hy.
  { unfold x. destruct (bwd_cases A) as [(_ & -> & -> & _)|(A' & l1 & -> & _ & -> & ->)]; rewrite ?total_app; simpl; lia. }
  destruct (free_next_ok hp h HP R I1 (bwd_rest A) (bwd_len A l) B fl v1 HO1) as (I2 & HO2 & F2 & E2).
  { unfold v1, w in *. destruct (bwd_free A), (next_free B); lia. }
  { by rewrite Hy. }
  rewrite E2. assert ((if next_free B then v1 + 24 else v1) = w) as -> by (unfold v1, w; destruct (bwd_free A), (next_free B); lia).
  replace (fwd_len (bwd_len A l) B) with (bwd_len A (fwd_len l B)) in HO2.
  2:{ destruct (fwd_cases B) as [(_ & E & _)|(l2 & B' & _ & _ & E)]; rewrite !E; [done|]. unfold bwd_len. destruct (last A) as [[? []]|]; lia. }
  rewrite Hy in HO2. fold (free_blocks A l B) in HO2. unfold freed_free.
  destruct (bwd_cases A) as [(Ef & Er & _)|(A' & l1 & EA & Ef & Er & _)]; rewrite Ef in *; simpl negb; cbv iota.
  - rewrite Er. fold x.
    destruct (insert_free_pool hp (mh_free_list h) _ _ (with_avail hp h HP w) R (set_mh_available_size w h) I2 _ x _
      (lookup_insert_eq _ _ _) eq_refl HO2) as (I3 & E3 & HO3 & F3 & _).
    { pose proof (block_bounds _ _ _ _ _ _ _ _ _ _ HO). unfold x. lia. }
    { destruct (next_free B); [|done]. unfold without. by intros [_ ?]%list_elem_of_filter. }
    { unfold free_blocks in HO2. rewrite Er in HO2. destruct (block_hdr _ _ _ _ _ _ _ _ _ _ HO2) as (ix & Ex & _). eauto. }
    exists I3. split; [done|]. split; [|done]. eapply frame_trans; [exact F1|]. by eapply frame_trans.
  - exists I2. split; [done|]. split; [|done]. by eapply frame_trans.
Qed.

Definition given (n : Z) (h : rt_memheap) : rt_memheap := set_mh_available_size (mh_available_size h + n) h.

(** [mh_free_locked] in parts. *)
Lemma mh_free_locked_parts hp x S :
  mh_free_locked hp x S =
  (upd_item x (fun i => set_it_magic (Z.land i.(it_magic) (Z.lnot RT_MEMHEAP_USED)) i) ;!
   let! size := MEMITEM_SIZE x in
   give_bytes hp size ;!
   free_prev hp x (fun insert x => free_next hp x (if insert then insert_free hp x else ret tt))) S.
Proof. done. Qed.

Lemma rep_freed_pure hp h I' A len B fl :
  let x := mh_start_addr h + total A in
  fl ≡ₚ free_addrs (mh_start_addr h) (A ++ (len, true) :: B) -> Forall block_ok (A ++ (len, true) :: B) ->
  merged (A ++ (len, true) :: B) -> mh_available_size h = free_total (A ++ (len, true) :: B) ->
  mh_pool_size h - mh_available_size h <= mh_max_used_size h -> 0 < mh_start_addr h ->
  mh_start_addr h + mh_pool_size h <= 2 ^ 32 ->
  pool_ok hp (mh_free_list h) (mh_start_addr h) (mh_pool_size h) I' (free_blocks A len B) (freed_free x (x + len) A B fl) ->
  pool_rep hp (given (freed_bytes A len B) h) I' (free_blocks A len B) (freed_free x (x + len) A B fl).
Proof.
  intros x Hf Hb Hm Ha Hx Hs Ht HO'. split; simpl; try done.
  - apply free_addrs_freed; [|done]. eapply Forall_impl; [exact Hb|]. intros b [? _]. simpl. lia.
  - by apply block_ok_freed.
  - by apply merged_free.
  - rewrite Ha, free_total_freed. lia.
  - apply Forall_app in Hb as [_ [[Hl _] _]%Forall_cons]. simpl in Hl. unfold freed_bytes.
    destruct (bwd_free A), (next_free B); lia.
Qed.

Lemma rep_freed hp h I I' A len B fl :
  let x := mh_start_addr h + total A in
  pool_rep hp h I (A ++ (len, true) :: B) fl ->
  pool_ok hp (mh_free_list h) (mh_start_addr h) (mh_pool_size h) I' (free_blocks A len B) (freed_free x (x + len) A B fl) ->
  pool_rep hp (given (freed_bytes A len B) h) I' (free_blocks A len B) (freed_free x (x + len) A B fl).
Proof. intros x [HO Hf Hb Hm Ha Hx Hs Ht]. by apply rep_freed_pure. Qed.

Lemma freed_bounds hp h I A len B fl :
  pool_rep hp h I (A ++ (len, true) :: B) fl ->
  0 <= mh_available_size h /\ mh_available_size h + freed_bytes A len B < 2 ^ 32 - 24.
Proof.
  intros HR. pose proof (free_total_bounds _ (block_ok_freed _ _ _ (pr_blocks _ _ _ _ _ HR))) as Hft.
  pose proof (free_total_bounds _ (pr_blocks _ _ _ _ _ HR)). pose proof (rep_total _ _ _ _ _ HR) as Htot.
  pose proof (pr_start _ _ _ _ _ HR). pose proof (pr_top _ _ _ _ _ HR). pose proof (pr_avail _ _ _ _ _ HR).
  rewrite free_total_freed, total_free in Hft. rewrite total_app in Htot. simpl in Htot. lia.
Qed.

Lemma mh_free_locked_ok hp h HP R I A len B fl :
  let x := mh_start_addr h + total A in
  HP !! hp = Some h -> pool_rep hp h I (A ++ (len, true) :: B) fl ->
  exists I', mh_free_locked hp x (Mstore HP I R) = Ok tt (Mstore (<[hp := given (freed_bytes A len B) h]> HP) I' R) /\
    frame (mh_free_list h) (mh_start_addr h) (mh_pool_size h) I I' /\
    pool_rep hp (given (freed_bytes A len B) h) I' (free_blocks A len B) (freed_free x (x + len) A B fl).
Proof.
  intros x Eh HR. pose proof (pr_ok _ _ _ _ _ HR) as HO. pose proof (block_bounds _ _ _ _ _ _ _ _ _ _ HO).
  destruct (freed_bounds _ _ _ _ _ _ _ HR) as [Hv Hw]. pose proof (pr_start _ _ _ _ _ HR). pose proof (pr_top _ _ _ _ _ HR).
  pose proof (Forall_elt _ _ _ (pr_blocks _ _ _ _ _ HR)) as [Hl _]. simpl in Hl.
  assert (HP = with_avail hp h HP (mh_available_size h)) as EHP
    by (unfold with_avail; rewrite insert_id; [done|]; rewrite Eh; by destruct h).
  rewrite mh_free_locked_parts.
  destruct (mark_ok _ _ _ _ HP R I A len true false B fl
    (fun i => set_it_magic (Z.land i.(it_magic) (Z.lnot RT_MEMHEAP_USED)) i) HO) as (I1 & E1 & HO1 & F1); [by intros it -> |done|].
  fold x in E1. rewrite (bind_ok _ _ _ _ _ E1).
  destruct (block_hdr _ _ _ _ _ _ _ _ _ _ HO1) as (ix & Ex & _ & _ & En & _). fold x in Ex, En.
  rewrite (bind_ok _ _ _ _ _ (memitem_size_at _ _ _ _ _ Ex)), En, u32_small by (unfold x; lia).
  replace (x + len - x - 24) with (len - 24) by lia. unfold freed_bytes in Hw.
  replace (Mstore HP I1 R) with (Mstore (with_avail hp h HP (mh_available_size h)) I1 R) by (by rewrite <-EHP).
  rewrite (bind_ok _ _ _ _ _ (give_bytes_ok hp h HP R I1 (mh_available_size h) (len - 24) ltac:(destruct (bwd_free A), (next_free B); lia))).
  assert (sized (A ++ (len, true) :: B)) as Hs by (destruct HO as [_ [Hz _ _ _ _]]; by apply Forall_app in Hz as [? _]).
  destruct (free_joins_ok hp h HP R I1 A len B fl (mh_available_size h + (len - 24)) HO1) as (I2 & E2 & F2 & HO2).
  { lia. }
  { destruct (bwd_free A), (next_free B); lia. }
  { rewrite (pr_free _ _ _ _ _ HR). by apply used_not_free. }
  { apply next_in, HR. }
  exists I2. fold x in E2. rewrite E2. split; [|split; [by eapply frame_trans|by eapply rep_freed]].
  unfold with_avail, given, freed_bytes. rewrite !Z.add_assoc. done.
Qed.
(** ** Initialization *)
Lemma place_ok raw HP R I a it T (k : MM T) :
  (place_item raw a ;! upd_item a (fun _ => it) ;! k) (Mstore HP I R) = k (Mstore HP (<[a := it]> I) R).
Proof.
  unfold place_item. rewrite bind_modify. unfold set_ms_items. simpl.
  rewrite (bind_ok _ _ _ _ _ (upd_item_at HP R (<[a := raw]> I) a _ ltac:(rewrite lookup_insert_eq; eauto))).
  do 2 f_equal. by rewrite alter_insert_eq.
Qed.

Lemma upd_memheap_ok HP R I i h f :
  HP !! i = Some h -> upd_memheap i f (Mstore HP I R) = Ok tt (Mstore (<[i := f h]> HP) I R).
Proof. intros E. unfold upd_memheap. by rewrite (bind_ok _ _ _ _ _ (get_memheap_at _ _ _ _ _ E)). Qed.

Section init.
Context (raw : rt_memheap_item) (hp : nat) (h : rt_memheap) (HP : gmap nat rt_memheap) (R : Ram.ram) (I : items).
Abbreviation start := (mh_start_addr h).
Abbreviation fh := (mh_free_header h).
Abbreviation last := (start + mh_pool_size h - 24).
Hypothesis Eh : HP !! hp = Some h.
Hypothesis Hsize : 60 <= mh_pool_size h.
Hypothesis Hmod : mh_pool_size h mod 4 = 0.
Hypothesis Hav : mh_available_size h = mh_pool_size h - 48.
Hypothesis Hmax : mh_max_used_size h = 48.
Hypothesis Hstart : 0 < start.
Hypothesis Htop : start + mh_pool_size h <= 2 ^ 32.
Hypothesis Hfh : fh < start \/ start + mh_pool_size h <= fh.
#[local] Set Default Proof Using "All".

Definition started : rt_memheap := set_mh_block_list start (set_mh_free_list fh h).
Definition end_item : rt_memheap_item := Item (Z.lor RT_MEMHEAP_MAGIC RT_MEMHEAP_USED) hp start start 0 0.

(** The items up to the insertion of the only block in the free list. *)
Definition before_insert : items :=
  <[start := Item RT_MEMHEAP_MAGIC hp last last start start]> (<[fh := Item RT_MEMHEAP_MAGIC hp 0 0 fh fh]> I).

Lemma init_insert_ok :
  exists I1, insert_free hp start (Mstore (<[hp := started]> HP) before_insert R) = Ok tt (Mstore (<[hp := started]> HP) I1 R) /\
    I1 !! start = Some (Item RT_MEMHEAP_MAGIC hp last last fh fh) /\
    I1 !! fh = Some (Item RT_MEMHEAP_MAGIC hp 0 0 start start) /\
    forall a, a <> start -> a <> fh -> I1 !! a = I !! a.
Proof.
  assert (start <> fh) as Hne by lia. assert (before_insert !! fh = Some (Item RT_MEMHEAP_MAGIC hp 0 0 fh fh)) as Ef.
  { unfold before_insert. by rewrite lookup_insert_ne, lookup_insert_eq. }
  assert (before_insert !! start = Some (Item RT_MEMHEAP_MAGIC hp last last start start)) as Es by apply lookup_insert_eq.
  destruct (insert_free_ok (<[hp := started]> HP) R before_insert hp started start fh) as (I1 & E & [H1 H2 H3 H4 H5 H6] & S1 & S2 & S3 & S4).
  { apply lookup_insert_eq. } { simpl. by rewrite Ef. } { eauto. } { eauto. } { done. } { done. }
  simpl in *. exists I1. split; [exact E|].
  assert (forall a it, it_magic <$> I1 !! a = Some (it_magic it) -> it_pool_ptr <$> I1 !! a = Some (it_pool_ptr it) ->
    it_next <$> I1 !! a = Some (it_next it) -> it_prev <$> I1 !! a = Some (it_prev it) ->
    it_next_free <$> I1 !! a = Some (it_next_free it) -> it_prev_free <$> I1 !! a = Some (it_prev_free it) ->
    I1 !! a = Some it) as Hit.
  { intros a it. destruct (I1 !! a) as [[]|], it; simpl; [|done]. intros. congruence. }
  split; [|split].
  - apply Hit; rewrite ?(same_nil _ _ _ _ S1), ?(same_nil _ _ _ _ S2), ?(same_nil _ _ _ _ S3), ?(same_nil _ _ _ _ S4), ?Es; done.
  - apply Hit; rewrite ?(same_nil _ _ _ _ S1), ?(same_nil _ _ _ _ S2), ?(same_nil _ _ _ _ S3), ?(same_nil _ _ _ _ S4), ?Ef; done.
  - intros a Ha Hb. transitivity (before_insert !! a).
    + apply same_item; [by apply same_nil..|by apply H5|by apply H6].
    + unfold before_insert. by rewrite !lookup_insert_ne by congruence.
Qed.

Lemma init_items_ok :
  exists I', init_items raw hp fh start (Mstore HP I R) = Ok tt (Mstore (<[hp := started]> HP) I' R) /\
    frame fh start (mh_pool_size h) I I' /\ pool_rep hp started I' [(mh_pool_size h - 24, false)] [start].
Proof.
  destruct init_insert_ok as (I1 & E1 & Es & Ef & Ho). exists (<[last := end_item]> I1).
  assert (start <> fh) as N1 by lia. assert (last <> start) as N2 by lia. assert (last <> fh) as N3 by lia.
  split; [|split].
  - unfold init_items. rewrite (bind_ok _ _ _ _ _ (get_memheap_at _ _ _ _ _ Eh)), place_ok.
    rewrite (bind_ok _ _ _ _ _ (upd_memheap_ok _ _ _ _ _ _ Eh)). cbv zeta. rewrite place_ok.
    replace (u32 (start + mh_available_size h + RT_MEMHEAP_SIZE)) with last by (change RT_MEMHEAP_SIZE with 24; rewrite u32_small by lia; lia).
    set (I0 := <[start := _]> (<[fh := _]> I)).
    assert (is_Some (I0 !! start)) as S0 by (unfold I0; rewrite lookup_insert_eq; eauto).
    rewrite (bind_ok _ _ _ _ _ (upd_item_at _ _ _ _ _ S0)), (bind_ok _ _ _ _ _ (upd_item_at _ _ _ _ _ (alter_some _ _ _ _ S0))).
    rewrite (bind_ok _ _ _ _ _ (upd_memheap_ok _ _ _ _ _ _ (lookup_insert_eq _ _ _))), insert_insert_eq.
    unfold I0. rewrite !alter_insert_eq. rewrite (bind_ok _ _ _ _ _ E1).
    rewrite (bind_ok _ _ _ _ _ (get_item_at _ _ _ _ _ Es)). cbv zeta. cbn [it_next].
    unfold place_item. rewrite bind_modify. unfold set_ms_items. cbn [ms_items ms_heaps ms_ram].
    rewrite upd_item_at by (rewrite lookup_insert_eq; eauto). by rewrite alter_insert_eq.
  - intros a Ha. rewrite lookup_insert_ne by (intros <-; apply Ha; right; lia). apply Ho; intros ->; apply Ha; [right; lia|by left].
  - assert (start + (mh_pool_size h - 24) = last) as El by lia. split; simpl; try done; try lia.
    + split; [split; simpl|split; simpl]; rewrite ?El.
      * repeat split; rewrite ?lookup_insert_eq, ?lookup_insert_ne, ?Es, ?Ef by done; done.
      * repeat split; rewrite ?lookup_insert_eq, ?lookup_insert_ne, ?Es, ?Ef by done; done.
      * repeat split; rewrite ?lookup_insert_eq, ?lookup_insert_ne, ?Es, ?Ef by done; done.
      * repeat constructor; simpl; lia.
      * lia.
      * repeat constructor; lia.
      * apply NoDup_singleton.
      * done.
    + constructor; [|done]. split; simpl; [lia|]. by rewrite Zminus_mod, Hmod.
Qed.
End init.
(** ** Resizing in place *)
(** Growing: the block is extended into the free block behind it. *)
Lemma expand_pool raw hp fh start size h HP R I A len l2 B n fl :
  let x := start + total A in
  HP !! hp = Some h -> mh_free_list h = fh ->
  pool_ok hp fh start size I (A ++ (len, true) :: (l2, false) :: B) fl -> x + len ∈ fl ->
  len < n -> n + 24 <= len + l2 -> x + n ∉ fl -> 0 <= x -> start + size <= 2 ^ 32 ->
  exists I', (let next_ptr := x + len in
      remove_free next_ptr ;!
      let! nx := get_item next_ptr in
      upd_item nx.(it_next) (set_it_prev nx.(it_prev)) ;!
      let! nx := get_item next_ptr in
      upd_item nx.(it_prev) (set_it_next nx.(it_next)) ;!
      let next_ptr := x + n in
      split_after raw hp x next_ptr ;!
      insert_free hp next_ptr ;!
      ret true) (Mstore HP I R) = Ok true (Mstore HP I' R) /\ frame fh start size I I' /\
    pool_ok hp fh start size I' (A ++ (n, true) :: (len + l2 - n, false) :: B) ((x + n) :: without (x + len) fl).
Proof.
  intros x Eh Ef HO Hin Hn Hfit Hx H0 Htop. destruct (merge_lens hp fh start size HP R I A len l2 true false _ fl HO) as [Hl Hl2].
  apply list_elem_of_split in Hin as (P & Q & ->).
  destruct (remove_free_pool _ _ _ _ HP R _ _ _ _ _ HO) as (I1 & E1 & HO1 & F1 & _).
  pose proof (pa_nodup _ _ _ _ _ (po_apart _ _ _ _ _ _ _ HO)) as Hnd. rewrite (without_mid _ _ _ Hnd).
  destruct (merge_next_first_pool _ _ _ _ HP R _ _ _ _ _ _ _ _ HO1) as (I2 & [HO2 F2] & E2). fold x in E2.
  assert (x + n ∉ P ++ Q) as Hx' by set_solver.
  destruct (split_pool hp fh start size HP R raw I2 A (len + l2) true n B (P ++ Q) HO2) as (I3 & E3 & HO3 & F3); [lia|lia|done|].
  destruct (two_hdrs _ _ _ _ _ _ _ _ _ _ _ _ HO3) as (i1 & i2 & _ & _ & _ & _ & Ei & _).
  pose proof (block_bounds _ _ _ _ _ _ _ _ _ _ HO2).
  destruct (insert_free_pool hp fh start size HP R h I3 _ (x + n) (P ++ Q) Eh Ef HO3) as (I4 & E4 & HO4 & F4 & _);
    [unfold x; lia|done|eauto|].
  exists I4. cbv zeta. rewrite (bind_ok _ _ _ _ _ E1), E2, (bind_ok _ _ _ _ _ E3), (bind_ok _ _ _ _ _ E4).
  split; [done|]. split; [|done]. eapply frame_trans; [exact F1|]. eapply frame_trans; [exact F2|]. by eapply frame_trans.
Qed.

(** Shrinking: the rest of the block is freed, joined with a free block behind it. *)
Definition next_payload (B : list blk) : Z := match B with (l2, false) :: _ => l2 - 24 | _ => 0 end.

Lemma shrink_next_ok hp h HP R I A l B fl v :
  let x := mh_start_addr h + total A in
  pool_ok hp (mh_free_list h) (mh_start_addr h) (mh_pool_size h) I (A ++ (l, false) :: B) fl ->
  next_payload B <= v < 2 ^ 32 -> mh_pool_size h < 2 ^ 32 -> (next_free B = true -> x + l ∈ fl) ->
  exists I', (if next_free B then
      let! size := MEMITEM_SIZE (x + l) in
      upd_memheap hp (fun h => set_mh_available_size (u32 (h.(mh_available_size) - size)) h) ;!
      let! fr := get_item (x + l) in
      upd_item fr.(it_next) (set_it_prev x) ;!
      let! fr := get_item (x + l) in
      upd_item x (set_it_next fr.(it_next)) ;!
      remove_free (x + l)
    else ret tt) (Mstore (with_avail hp h HP v) I R) = Ok tt (Mstore (with_avail hp h HP (v - next_payload B)) I' R) /\
    frame (mh_free_list h) (mh_start_addr h) (mh_pool_size h) I I' /\
    pool_ok hp (mh_free_list h) (mh_start_addr h) (mh_pool_size h) I' (A ++ (fwd_len l B, false) :: fwd_rest B)
      (if next_free B then without (x + l) fl else fl).
Proof.
  intros x HO Hv Ht Hin. destruct (fwd_cases B) as [(Er & El & Hb)|(l2 & B' & EB & Er & El)].
  - assert (next_free B = false /\ next_payload B = 0) as [Ef Ep] by (destruct B as [|[? []] ?]; simpl in *; done).
    rewrite Er, El, Ef, Ep, Z.sub_0_r. exists I. split; [done|]. split; [apply frame_refl|done].
  - rewrite Er, El. subst B. simpl in *. specialize (Hin eq_refl). apply list_elem_of_split in Hin as (P & Q & ->).
    pose proof (pa_nodup _ _ _ _ _ (po_apart _ _ _ _ _ _ _ HO)) as Hnd. rewrite (without_mid _ _ _ Hnd).
    destruct (two_hdrs _ _ _ _ _ _ _ _ _ _ _ _ HO) as (i1 & i2 & _ & _ & _ & _ & E2 & _ & _ & N2 & _). fold x in E2, N2.
    set (v' := v - (l2 - 24)).
    destruct (merge_next_pool _ _ _ _ (with_avail hp h HP v') R _ _ _ _ _ _ _ _ HO) as (I1 & [HO1 F1] & E). fold x in E.
    destruct (remove_free_pool _ _ _ _ (with_avail hp h HP v') R _ _ _ _ _ HO1) as (I2 & E3 & HO2 & F2 & _).
    exists I2. split; [|split; [by eapply frame_trans|done]]. pose proof (block_bounds _ _ _ _ _ _ _ _ _ _ HO1).
    pose proof (merge_lens hp _ _ _ HP R I A l l2 false false _ _ HO).
    rewrite (bind_ok _ _ _ _ _ (memitem_size_at _ _ _ _ _ E2)), N2, (u32_small (x + l + l2 - (x + l) - 24)) by lia.
    rewrite (bind_ok _ _ _ _ _ (upd_memheap_ok (with_avail hp h HP v) R I hp _ _ (lookup_insert_eq _ _ _))). simpl.
    rewrite u32_small by lia. unfold with_avail at 1. rewrite insert_insert_eq.
    replace (v - (x + l + l2 - (x + l) - 24)) with v' by (unfold v'; lia).
    change (set_mh_available_size v' (set_mh_available_size v h)) with (set_mh_available_size v' h). fold (with_avail hp h HP v').
    by rewrite E.
Qed.

Lemma shrink_pool raw hp h HP R I A len B n fl v :
  let x := mh_start_addr h + total A in
  pool_ok hp (mh_free_list h) (mh_start_addr h) (mh_pool_size h) I (A ++ (len, true) :: B) fl ->
  24 <= n -> n + 24 <= len -> x + n ∉ fl -> (next_free B = true -> x + len ∈ fl) ->
  0 < mh_start_addr h -> mh_start_addr h + mh_pool_size h <= 2 ^ 32 ->
  next_payload B <= v -> v + freed_bytes (A ++ [(n, true)]) (len - n) B < 2 ^ 32 -> v < 2 ^ 32 ->
  exists I', realloc_shrink raw hp x (n - 24) (Mstore (with_avail hp h HP v) I R) =
      Ok tt (Mstore (with_avail hp h HP (v + freed_bytes (A ++ [(n, true)]) (len - n) B)) I' R) /\
    frame (mh_free_list h) (mh_start_addr h) (mh_pool_size h) I I' /\
    pool_ok hp (mh_free_list h) (mh_start_addr h) (mh_pool_size h) I' (free_blocks (A ++ [(n, true)]) (len - n) B)
      (freed_free (x + n) (x + len) (A ++ [(n, true)]) B fl).
Proof.
  intros x HO Hn Hl Hx Hin Hs Ht Hv Hw Hv'. pose proof (block_bounds _ _ _ _ _ _ _ _ _ _ HO).
  set (HPv := with_avail hp h HP). unfold realloc_shrink. change RT_MEMHEAP_SIZE with 24.
  replace (u32 (x + (n - 24) + 24)) with (x + n) by (rewrite u32_small by (unfold x; lia); lia).
  destruct (split_pool hp _ _ _ (HPv v) R raw I A len true n B fl HO) as (I1 & E1 & HO1 & F1); [lia|lia|done|].
  cbv zeta. fold x in E1. rewrite (bind_ok _ _ _ _ _ E1). set (A2 := A ++ [(n, true)]) in *.
  replace (A ++ (n, true) :: (len - n, false) :: B) with (A2 ++ (len - n, false) :: B) in HO1 by (unfold A2; by rewrite <-app_assoc).
  assert (mh_start_addr h + total A2 = x + n) as Ey by (unfold A2; rewrite total_app; unfold x; simpl; lia).
  destruct (block_hdr _ _ _ _ _ _ _ _ _ _ HO1) as (iy & Eiy & _ & _ & Eny & _).
  destruct (next_hdr _ _ _ _ _ _ _ _ _ _ HO1) as (i2 & Ei2 & Em).
  assert (next_payload B = 0 \/ next_free B = true) as HB by (destruct B as [|[? []] ?]; auto).
  destruct (shrink_next_ok hp h HP R I1 A2 (len - n) B fl v HO1) as (I2 & E2 & F2 & HO2); [lia|lia| |].
  { intros Hnf. replace (mh_start_addr h + total A2 + (len - n)) with (x + len) by lia. auto. }
  rewrite Ey in *. replace (x + n + (len - n)) with (x + len) in * by lia.
  rewrite (bind_ok _ _ _ _ _ (get_item_at _ _ _ _ _ Eiy)), Eny, (bind_ok _ _ _ _ _ (is_used_at _ _ _ _ _ Ei2)), Em, magic_used, negb_involutive.
  rewrite (bind_ok _ _ _ _ _ E2).
  destruct (block_hdr _ _ _ _ _ _ _ _ _ _ HO2) as (iz & Eiz & _ & _ & Enz & _). rewrite Ey in Eiz, Enz.
  set (v2 := v - next_payload B). set (fl2 := if next_free B then without (x + len) fl else fl) in *.
  pose proof (block_bounds _ _ _ _ _ _ _ _ _ _ HO2) as Hb2.
  destruct (insert_free_pool hp _ _ _ (HPv v2) R (set_mh_available_size v2 h) I2 _ (x + n) fl2
    (lookup_insert_eq _ _ _) eq_refl HO2) as (I3 & E3 & HO3 & F3 & Nx & _); [lia| |eauto|].
  { unfold fl2, without. destruct (next_free B); [|done]. by intros [_ ?]%list_elem_of_filter. }
  rewrite (bind_ok _ _ _ _ _ E3). pose proof (same_nil _ _ _ (x + n) Nx) as Enx. rewrite Eiz in Enx.
  apply fmap_Some in Enx as (iw & Eiw & Enw). simpl in Enw. rewrite Enz in Enw.
  rewrite (bind_ok _ _ _ _ _ (memitem_size_at _ _ _ _ _ Eiw)), <-Enw.
  assert (v2 + (fwd_len (len - n) B - 24) = v + freed_bytes A2 (len - n) B /\ bwd_free A2 = false) as [Ew Eb2].
  { unfold v2, freed_bytes, A2, bwd_free. rewrite last_snoc. split; [|done].
    destruct B as [|[l2 []] ?]; simpl; lia. }
  rewrite u32_small by lia. replace (x + n + fwd_len (len - n) B - (x + n) - 24) with (fwd_len (len - n) B - 24) by lia.
  rewrite (give_bytes_ok hp h HP R I3 v2) by (unfold v2 in *; lia). rewrite Ew.
  exists I3. split; [done|]. split; [eapply frame_trans; [exact F1|]; by eapply frame_trans|].
  unfold free_blocks, freed_free, bwd_rest, bwd_len. rewrite Eb2. unfold A2 at 2. rewrite last_snoc. done.
Qed.
(** What growing to [newsize] bytes does to the two blocks. *)
Definition grows (len l2 newsize : Z) : bool := newsize + 60 <? len + l2.

Lemma rep_grown hp h I I' A len l2 B fl newsize :
  let x := mh_start_addr h + total A in
  let n := newsize + 24 in
  pool_rep hp h I (A ++ (len, true) :: (l2, false) :: B) fl -> newsize mod 4 = 0 ->
  len < n -> newsize + 60 < len + l2 ->
  pool_ok hp (mh_free_list h) (mh_start_addr h) (mh_pool_size h) I' (A ++ (n, true) :: (len + l2 - n, false) :: B)
    ((x + n) :: without (x + len) fl) ->
  pool_rep hp (counted (n - len) h) I' (A ++ (n, true) :: (len + l2 - n, false) :: B) ((x + n) :: without (x + len) fl).
Proof.
  intros x n HR Hmod Hlt Hfit HO'. pose proof HR as [HO Hf Hb Hm Ha Hx Hs Ht]. split; simpl; try done.
  - pose proof (pa_nodup _ _ _ _ _ (po_apart _ _ _ _ _ _ _ HO)) as Hnd.
    rewrite free_addrs_app in *. simpl in *. fold x in Hf |- *.
    replace (x + n + (len + l2 - n)) with (x + len + l2) by lia. rewrite <-Permutation_middle. constructor.
    rewrite Hf in Hnd. rewrite <-(without_mid _ _ _ Hnd). unfold without. by rewrite Hf.
  - apply Forall_app in Hb as [HA [[H1 H2] [[H3 H4] HB]%Forall_cons]%Forall_cons]. simpl in *.
    assert (n mod 4 = 0) by (unfold n; rewrite Z.add_mod, Hmod by lia; done).
    apply Forall_app. split; [done|]. constructor; [split; simpl; [unfold n in *; lia|done]|].
    constructor; [|done]. split; simpl; [unfold n in *; lia|]. rewrite Zminus_mod, H, (Z.add_mod len), H2, H4 by lia. done.
  - apply merged_app in Hm as [Hm1 [Hm2 [Hm3 Hm4]]]. apply merged_app. split; [by eapply merged_use|]. simpl.
    split; [by left|]. split; [|done]. destruct B; simpl in *; tauto.
  - rewrite Ha, !free_total_app. simpl. unfold n. lia.
  - lia.
Qed.

Section resize.
Context (raw : rt_memheap_item) (hp : nat) (h : rt_memheap) (HP : gmap nat rt_memheap) (R : Ram.ram) (I : items).
Context (A B : list blk) (len : Z) (fl : list Z) (newsize : Z).
Abbreviation start := (mh_start_addr h).
Abbreviation x := (start + total A).
Hypothesis Eh : HP !! hp = Some h.
Hypothesis HR : pool_rep hp h I (A ++ (len, true) :: B) fl.
Hypothesis Hmod : newsize mod 4 = 0.
#[local] Set Default Proof Using "All".

Lemma resize_bounds :
  0 <= total A /\ 36 <= len /\ 0 <= total B /\ total A + len + total B + 24 = mh_pool_size h /\
  0 < start /\ start + mh_pool_size h <= 2 ^ 32 /\ free_total B <= mh_available_size h <= mh_pool_size h.
Proof.
  pose proof (block_bounds _ _ _ _ _ _ _ _ _ _ (pr_ok _ _ _ _ _ HR)). pose proof (pr_start _ _ _ _ _ HR).
  pose proof (pr_top _ _ _ _ _ HR). pose proof (pr_blocks _ _ _ _ _ HR) as Hb. pose proof (rep_total _ _ _ _ _ HR) as Htot.
  pose proof (free_total_bounds _ Hb). pose proof (pr_avail _ _ _ _ _ HR) as Ha. rewrite free_total_app in Ha. simpl in Ha.
  apply Forall_app in Hb as [HA [[Hl _] HB]%Forall_cons]. simpl in Hl.
  pose proof (free_total_bounds _ HA). rewrite free_total_app in *. simpl in *. lia.
Qed.

Lemma resize_sized : sized (A ++ (len, true) :: B).
Proof. eapply Forall_impl; [exact (pr_blocks _ _ _ _ _ HR)|]. intros b [? _]. simpl. lia. Qed.

Lemma expand_used :
  next_free B = false -> realloc_expand raw hp (x + 24) x (len - 24) newsize (Mstore HP I R) = Ok false (Mstore HP I R).
Proof.
  intros Hn. pose proof resize_bounds. pose proof (pr_ok _ _ _ _ _ HR) as HO.
  destruct (block_hdr _ _ _ _ _ _ _ _ _ _ HO) as (ix & Ex & _ & _ & En & _).
  destruct (next_hdr _ _ _ _ _ _ _ _ _ _ HO) as (i2 & E2 & Em). unfold realloc_expand.
  rewrite (bind_ok _ _ _ _ _ (get_item_at _ _ _ _ _ Ex)), En. cbv zeta.
  rewrite bind_assert by (apply Z.ltb_lt; lia). rewrite (bind_ok _ _ _ _ _ (is_used_at _ _ _ _ _ E2)), Em, magic_used, Hn.
  done.
Qed.

Lemma expand_free l2 B' :
  B = (l2, false) :: B' -> len - 24 < newsize -> newsize + 12 < 2 ^ 32 ->
  if grows len l2 newsize then
    exists I', realloc_expand raw hp (x + 24) x (len - 24) newsize (Mstore HP I R) =
        Ok true (Mstore (<[hp := counted (newsize + 24 - len) h]> HP) I' R) /\
      frame (mh_free_list h) start (mh_pool_size h) I I' /\
      pool_rep hp (counted (newsize + 24 - len) h) I' (A ++ (newsize + 24, true) :: (len + l2 - (newsize + 24), false) :: B')
        ((x + (newsize + 24)) :: without (x + len) fl)
  else realloc_expand raw hp (x + 24) x (len - 24) newsize (Mstore HP I R) = Ok false (Mstore HP I R).
Proof.
  intros EB Hlt Hmax. pose proof resize_bounds as Hb. pose proof (pr_ok _ _ _ _ _ HR) as HO.
  pose proof (resize_sized) as Hs. pose proof HR as HR'. rewrite EB in HO, Hb, Hs, HR'. simpl in Hb.
  destruct (two_hdrs _ _ _ _ _ _ _ _ _ _ _ _ HO) as (ix & i2 & Ex & _ & _ & En & E2 & Em & _ & En2 & _).
  apply Forall_app in Hs as [HsA [_ [Hl2 HsB]%Forall_cons]%Forall_cons]. pose proof (sized_total _ HsB). simpl in Hl2.
  pose proof (pr_blocks _ _ _ _ _ HR') as Hbk. apply Forall_app in Hbk as [_ [_ [_ Hbk]%Forall_cons]%Forall_cons].
  pose proof (free_total_bounds _ Hbk).
  assert (realloc_expand raw hp (x + 24) x (len - 24) newsize (Mstore HP I R) =
    if grows len l2 newsize then
      (take_bytes hp (newsize + 24 - len) ;!
      (let next_ptr := x + len in
      remove_free next_ptr ;!
      let! nx := get_item next_ptr in
      upd_item nx.(it_next) (set_it_prev nx.(it_prev)) ;!
      let! nx := get_item next_ptr in
      upd_item nx.(it_prev) (set_it_next nx.(it_next)) ;!
      let next_ptr := x + (newsize + 24) in
      split_after raw hp x next_ptr ;!
      insert_free hp next_ptr ;!
      ret true)) (Mstore HP I R)
    else Ok false (Mstore HP I R)) as ->.
  { unfold realloc_expand. rewrite (bind_ok _ _ _ _ _ (get_item_at _ _ _ _ _ Ex)), En. cbv zeta.
    rewrite bind_assert by (apply Z.ltb_lt; lia). rewrite (bind_ok _ _ _ _ _ (is_used_at _ _ _ _ _ E2)), Em, magic_used.
    change (negb false) with true. cbv iota. rewrite (bind_ok _ _ _ _ _ (memitem_size_at _ _ _ _ _ E2)), En2.
    rewrite bind_assert by (apply Z.ltb_lt; lia). change RT_MEMHEAP_MINIALLOC with 12. rewrite (u32_small (newsize + 12)) by lia.
    replace (u32 (u32 (x + len + l2 - (x + len) - 24) + (len - 24))) with (l2 + len - 48) by (rewrite (u32_small (x + len + l2 - _ - 24)), u32_small by lia; lia).
    replace (newsize + 12 <? l2 + len - 48) with (grows len l2 newsize) by (unfold grows; apply eq_true_iff_eq; rewrite !Z.ltb_lt; lia).
    unfold grows. destruct (Z.ltb_spec (newsize + 60) (len + l2)); [|done].
    rewrite (u32_small (newsize - (len - 24))), (u32_small (x + 24 + newsize)) by lia.
    replace (newsize - (len - 24)) with (newsize + 24 - len) by lia. by replace (x + 24 + newsize) with (x + (newsize + 24)) by lia. }
  unfold grows. destruct (Z.ltb_spec (newsize + 60) (len + l2)) as [Hg|_]; [|done].
  rewrite (bind_ok _ _ _ _ _ (take_bytes_ok hp h HP I R (newsize + 24 - len) Eh ltac:(lia) ltac:(lia))).
  set (HP' := <[hp := _]> HP).
  destruct (expand_pool raw hp (mh_free_list h) start (mh_pool_size h) (counted (newsize + 24 - len) h) HP' R I A len l2 B'
    (newsize + 24) fl) as (I' & E & F & HO'); try done; try lia.
  { apply lookup_insert_eq. }
  { rewrite (pr_free _ _ _ _ _ HR'), free_addrs_app. simpl. set_solver. }
  { rewrite (pr_free _ _ _ _ _ HR'). intros Hin%free_addrs_sub. revert Hin.
    replace (A ++ (len, true) :: (l2, false) :: B') with ((A ++ [(len, true)]) ++ (l2, false) :: B') by (by rewrite <-app_assoc).
    apply inside_not_addr; [|rewrite total_app; simpl; lia]. rewrite <-app_assoc. pose proof resize_sized as Hs. by rewrite EB in Hs. }
  exists I'. split; [exact E|]. split; [done|]. eapply rep_grown; try done; lia.
Qed.

(** The rest of the block is freed. *)
Lemma shrink_locked_ok :
  12 <= newsize -> newsize + 60 < len ->
  let A2 := A ++ [(newsize + 24, true)] in
  let len2 := len - (newsize + 24) in
  let h' := given (freed_bytes A2 len2 B) h in
  exists I' fl', realloc_shrink raw hp x newsize (Mstore HP I R) = Ok tt (Mstore (<[hp := h']> HP) I' R) /\
    frame (mh_free_list h) start (mh_pool_size h) I I' /\ pool_rep hp h' I' (free_blocks A2 len2 B) fl'.
Proof.
  intros Hn Hlt A2 len2 h'. pose proof resize_bounds as Hb. pose proof HR as [HO Hf Hbk Hm Ha Hx Hs Ht].
  assert (start + total A2 = x + (newsize + 24)) as Ey by (unfold A2; rewrite total_app; simpl; lia).
  assert (A2 ++ (len2, true) :: B = A ++ (newsize + 24, true) :: (len2, true) :: B) as EA by (unfold A2; by rewrite <-app_assoc).
  assert (mh_available_size h = free_total (A2 ++ (len2, true) :: B)) as Ha2.
  { rewrite EA, Ha, !free_total_app. done. }
  assert (Forall block_ok (A2 ++ (len2, true) :: B)) as Hbk2.
  { rewrite EA. apply Forall_app in Hbk as [HA [[H1 H2] HB]%Forall_cons]. simpl in H1, H2.
    assert ((newsize + 24) mod 4 = 0) as E4 by (rewrite Z.add_mod, Hmod by lia; done).
    apply Forall_app. split; [done|]. constructor; [split; simpl; [lia|done]|]. constructor; [|done].
    split; simpl; [unfold len2; lia|]. unfold len2. by rewrite Zminus_mod, H2, E4. }
  assert (free_addrs start (A2 ++ (len2, true) :: B) = free_addrs start (A ++ (len, true) :: B)) as Ef.
  { rewrite EA, !free_addrs_app. simpl. do 2 f_equal. unfold len2. lia. }
  assert (total (A2 ++ (len2, true) :: B) + 24 = mh_pool_size h) as Htot by (rewrite EA, total_app; simpl; unfold len2; lia).
  pose proof (free_total_bounds _ (block_ok_freed _ _ _ Hbk2)) as Hft. rewrite free_total_freed, total_free in Hft.
  rewrite total_app in Htot. simpl in Htot.
  destruct (shrink_pool raw hp h HP R I A len B (newsize + 24) fl (mh_available_size h) HO) as (I' & E & F & HO'); try lia.
  { rewrite Hf. intros Hin%free_addrs_sub. revert Hin. apply inside_not_addr; [apply resize_sized|simpl; lia]. }
  { intros HB. by eapply next_in. }
  { apply Forall_app in Hbk as [_ [_ HB]%Forall_cons]. destruct B as [|[l2 u] B']; simpl in *; [lia|].
    apply Forall_cons in HB as [_ HB]. pose proof (free_total_bounds _ HB). destruct u; lia. }
  { fold A2 len2. lia. }
  exists I', (freed_free (x + (newsize + 24)) (x + len) A2 B fl). replace (newsize + 24 - 24) with newsize in E by lia.
  assert (HP = with_avail hp h HP (mh_available_size h)) as EHP
    by (unfold with_avail; rewrite insert_id; [done|]; rewrite Eh; by destruct h).
  rewrite <-EHP in E. split; [exact E|]. split; [done|]. fold A2 len2 in HO'.
  replace (x + len) with (x + (newsize + 24) + len2) in HO' |- * by (unfold len2; lia). rewrite <-Ey in HO' |- *.
  apply rep_freed_pure; try done; [by rewrite Hf, Ef|].
  rewrite EA. apply merged_app in Hm as [Hm1 Hm2]. apply merged_app. split; [by eapply merged_use|]. simpl in *.
  split; [by left|]. split; [|tauto]. destruct B; [done|by left].
Qed.
End resize.
End MemHeapSpec.
