(* ===== verification/MemSpec.v ===== *)
(** * The small-memory heap: the operations with their semaphore

    [MemProof.v] treats what the operations do between taking and releasing
    [heap_sem]; here they are put together with the kernel.  With the semaphore
    free a call runs without a switch and leaves the kernel as it was. *)
From S2P Require Import Prelude Kservice Ram RtList KMonad KState KPrim KInv Scheduler Object TimerBase Thread Timer Ipc Mem KernelInv WaitProof TimerProof BlockProof SemProof MemProof.
Import Ram Mem Sem SemProof MemProof.
Local Open Scope Z_scope.
Local Open Scope kmonad_scope.

Module MemSpec.

Abbreviation khs := (kview * heap)%type.

(** The heap is not in use, and the caller runs outside interrupt handlers. *)
Definition heap_open (k : kview) (h : heap) : Prop := lock_open k (hp_sem h).

Lemma on_heap_ok {A} (f : HM A) (k : kview) h a h' : f h = Ok a h' -> on_heap f (k, h) = Ok a (k, h').
Proof. unfold on_heap. simpl. by intros ->. Qed.

Section open.
Context (k : kview) (h : heap).
Hypothesis Ho : heap_open k h.

(** The kernel state while the semaphore is taken. *)
Definition taken : kview := lock_taken k (hp_sem h).

Lemma debug_ok (h' : heap) : kernel RT_DEBUG_NOT_IN_INTERRUPT (k, h') = Ok tt (k, h').
Proof using Ho. apply kernel_ok, not_in_interrupt_ok; apply Ho. Qed.

Lemma take_ok : take_heap_sem (k, h) = Ok tt (taken, h).
Proof using Ho. unfold take_heap_sem. rewrite bind_gets. by rewrite (bind_ok _ _ _ _ _ (kernel_ok _ _ _ _ _ (lock_take _ _ Ho))). Qed.

Lemma release_ok h' : hp_sem h' = hp_sem h -> release_heap_sem (taken, h') = Ok tt (k, h').
Proof using Ho.
  intros Hs. unfold release_heap_sem. rewrite bind_gets. simpl. rewrite Hs.
  by rewrite (bind_ok _ _ _ _ _ (kernel_ok _ _ _ _ _ (lock_release _ _ Ho))).
Qed.
End open.

(** ** Requests *)
(** The size [rt_malloc] looks for. *)
Definition request (size : Z) : Z := Z.max 12 (RT_ALIGN size 4).

Lemma request_mod size : request size mod 4 = 0.
Proof.
  unfold request. destruct (Z.max_spec 12 (RT_ALIGN size 4)) as [[_ ->]|[_ ->]]; [apply align4_mod|done].
Qed.

Lemma div4_add a b : a mod 4 = 0 -> b mod 4 = 0 -> (a + b) mod 4 = 0.
Proof. intros Ha Hb. rewrite Z.add_mod, Ha, Hb by lia. done. Qed.

Lemma land3_zero a : a mod 4 = 0 -> Z.land a 3 = 0.
Proof. intros Ha. change 3 with (Z.ones 2). by rewrite Z.land_ones by lia. Qed.

(** A block of the heap: where it is, and where its data is. *)
Lemma block_place h pre suf p b q :
  heap_rep h pre suf -> pre ++ suf = p ++ b :: q ->
  0 <= total p /\ 16 <= b.1 /\ total p + b.1 + total q = hp_size h + 12 /\ 0 <= total q /\
  (hp_ptr h + total p) mod 4 = 0 /\ b.1 mod 4 = 0 /\
  hdr (hp_ram h) (hp_ptr h + total p) (Hmem HEAP_MAGIC (Z.b2z b.2) (total p + b.1) (last_off 0 0 p)).
Proof.
  intros HR E. pose proof HR as [Ht Htot _ Hal _ _ _ _ _ _ _ _ _]. rewrite E in Ht, Htot.
  destruct Ht as [Ht _]. apply blocks_at_app in Ht as [HP (Hl & Hm & Hh & Hq)]. rewrite Z.add_0_l in Hh.
  rewrite total_app in Htot. simpl in Htot.
  pose proof (total_nonneg _ _ _ _ _ HP). pose proof (total_nonneg _ _ _ _ _ Hq).
  do 4 (split; [done || lia|]). split; [|done]. apply div4_add; [done|]. by eapply blocks_total_mod.
Qed.

(** ** [rt_malloc] *)
Lemma malloc_eq k h pre suf size :
  heap_open k h -> heap_rep h pre suf -> 0 < size -> RT_ALIGN size 4 <= hp_size h ->
  match find_fit (hp_size h) (request size) (total pre) suf with
  | None => rt_malloc size (k, h) = Ok 0 (k, h)
  | Some (p, len, q) => exists h' pre' suf',
      rt_malloc size (k, h) = Ok (hp_ptr h + total (pre ++ p) + 12) (k, h') /\
      allocated h pre p q len (request size) h' pre' suf'
  end.
Proof.
  intros Ho HR Hs Hfit. pose proof (hr_size _ _ _ HR) as Hsz. pose proof (align4_range size) as Hra.
  assert (12 <= request size <= hp_size h) as Hrq by (unfold request; lia).
  assert (rt_malloc size (k, h) = (let! r := on_heap (malloc_locked (request size)) in
      match r with
      | Some mem =>
          release_heap_sem ;!
          let! h := gets snd in
          rt_assert (u32 (mem + 12 + request size) <=? hp_end h) ;!
          rt_assert (u32 (mem + 12) mod 4 =? 0) ;!
          rt_assert (Z.land mem 3 =? 0) ;!
          ret (u32 (mem + 12))
      | None => release_heap_sem ;! ret 0
      end) (taken k h, h)) as ->.
  { unfold rt_malloc. rewrite (bind_ok _ _ _ _ _ (debug_ok k h Ho h)).
    rewrite (proj2 (Z.eqb_neq _ _)) by lia. rewrite bind_gets. cbn [snd].
    change RT_ALIGN_SIZE with 4. rewrite (proj2 (Z.ltb_ge _ _)) by lia.
    rewrite (bind_ok _ _ _ _ _ (take_ok k h Ho)).
    replace (if RT_ALIGN size 4 <? MIN_SIZE_ALIGNED then MIN_SIZE_ALIGNED else RT_ALIGN size 4) with (request size).
    - done.
    - change MIN_SIZE_ALIGNED with 12. unfold request. destruct (Z.ltb_spec (RT_ALIGN size 4) 12); lia. }
  pose proof (malloc_locked_ok h pre suf (request size) HR Hrq (request_mod size)) as HM.
  destruct (find_fit _ _ _ suf) as [[[p len] q]|] eqn:Ef.
  - destruct HM as (h' & pre' & suf' & E & HA). exists h', pre', suf'. split; [|exact HA].
    rewrite (bind_ok _ _ _ _ _ (on_heap_ok _ _ _ _ _ E)).
    pose proof HA as (HR' & Eb & _ & _ & Hsem & Hptr & Hsize & _).
    rewrite (bind_ok _ _ _ _ _ (release_ok k h Ho h' Hsem)), bind_gets. cbn [snd].
    apply find_fit_spec in Ef as [-> Hl].
    destruct (block_place h pre _ (pre ++ p) (len, false) q HR) as (H1 & H2 & H3 & H4 & H5 & _);
      [by rewrite <-app_assoc|]. simpl in H2, H3.
    pose proof (hr_top _ _ _ HR). pose proof (hr_base _ _ _ HR).
    rewrite !u32_small by lia. rewrite (hr_hend _ _ _ HR'), Hptr, Hsize.
    rewrite bind_assert by (apply Z.leb_le; lia).
    rewrite bind_assert by (apply Z.eqb_eq; by apply div4_add).
    rewrite bind_assert by (apply Z.eqb_eq; by apply land3_zero). done.
  - rewrite (bind_ok _ _ _ _ _ (on_heap_ok _ _ _ _ _ HM)).
    by rewrite (bind_ok _ _ _ _ _ (release_ok k h Ho h eq_refl)).
Qed.

Lemma malloc_too_big k h size :
  heap_open k h -> hp_size h < RT_ALIGN size 4 -> rt_malloc size (k, h) = Ok 0 (k, h).
Proof.
  intros Ho Hs. unfold rt_malloc. rewrite (bind_ok _ _ _ _ _ (debug_ok k h Ho h)).
  destruct (size =? 0); [done|]. rewrite bind_gets. cbn [snd]. change RT_ALIGN_SIZE with 4.
  by rewrite (proj2 (Z.ltb_lt _ _)) by lia.
Qed.

(** ** [rt_free] *)
Lemma free_eq k h pre suf p len q :
  heap_open k h -> heap_rep h pre suf -> pre ++ suf = p ++ (len, true) :: q ->
  exists h' pre' suf', rt_free (hp_ptr h + total p + 12) (k, h) = Ok tt (k, h') /\
    freed h p q len pre h' pre' suf'.
Proof.
  intros Ho HR E. destruct (block_place h pre suf p (len, true) q HR E) as (H1 & H2 & H3 & H4 & H5 & _).
  simpl in H2, H3. pose proof (hr_top _ _ _ HR). pose proof (hr_base _ _ _ HR). pose proof (hr_hend _ _ _ HR) as He.
  destruct (free_locked_ok h p q len pre suf HR E) as (h' & pre' & suf' & EF & HF).
  exists h', pre', suf'. split; [|exact HF]. pose proof HF as (_ & _ & _ & _ & Hsem & _).
  unfold rt_free. rewrite (bind_ok _ _ _ _ _ (debug_ok k h Ho h)).
  rewrite (proj2 (Z.eqb_neq _ _)) by lia. change (RT_ALIGN_SIZE - 1) with 3. change SIZEOF_STRUCT_MEM with 12.
  rewrite bind_assert by (apply Z.eqb_eq, land3_zero, div4_add; done).
  rewrite bind_gets. cbn [snd]. rewrite He.
  rewrite bind_assert by (apply andb_true_iff; split; [apply Z.leb_le|apply Z.ltb_lt]; lia).
  rewrite (proj2 (Z.ltb_ge _ _)), (proj2 (Z.leb_gt _ _)) by lia. cbn [orb].
  replace (u32 (hp_ptr h + total p + 12 - 12)) with (hp_ptr h + total p) by (rewrite u32_small by lia; lia).
  rewrite (bind_ok _ _ _ _ _ (take_ok k h Ho)), (bind_ok _ _ _ _ _ (on_heap_ok _ _ _ _ _ EF)).
  by apply release_ok.
Qed.

(** The heap stays open for the next call. *)
Lemma heap_open_same k h h' : hp_sem h' = hp_sem h -> heap_open k h -> heap_open k h'.
Proof. intros E [Hq Hn Hl Hs]. split; [done..|]. by rewrite E. Qed.

(** ** Blocks that are not touched *)
Lemma data_same_lookup m m' base off A l B :
  data_same m m' base off (A ++ (l, true) :: B) ->
  forall x, base + off + total A + 12 <= x < base + off + total A + l -> m' !! x = m !! x.
Proof.
  rewrite data_same_app. simpl. intros (_ & H & _) x Hx. apply H; [done|]. lia.
Qed.

Lemma data_same_inside m0 m m' base off prev A l B :
  blocks_at m0 base off prev (A ++ (l, false) :: B) ->
  (forall x, x < base + off + total A \/ base + off + total A + l <= x -> m' !! x = m !! x) ->
  data_same m m' base off (A ++ (l, false) :: B).
Proof.
  intros HB Hx. apply blocks_at_app in HB as [HA (Hl & _ & _ & HB)]. simpl in Hl, HB.
  apply data_same_app. split; [|simpl; split; [done|]].
  - eapply data_same_range; [exact HA|]. intros x ?. apply Hx. lia.
  - eapply data_same_range; [exact HB|]. intros x ?. apply Hx. lia.
Qed.

(** A used block is still there after another block was allocated ... *)
Lemma used_after_alloc A l B p len q size :
  A ++ (l, true) :: B = p ++ (len, false) :: q ->
  exists A' B', p ++ alloc_blocks size len q = A' ++ (l, true) :: B' /\ total A' = total A.
Proof.
  intros E. destruct (alloc_blocks_cons size len q) as (R & ER & _).
  apply app_eq_inv in E as [(k & -> & E)|(k & -> & E)].
  - destruct k as [|b k]; [done|]. injection E as <- ->.
    unfold alloc_blocks. destruct (size + 36 <=? len).
    + exists (p ++ (size + 12, true) :: (len - size - 12, false) :: k), B.
      split; [by rewrite <-app_assoc|]. rewrite !total_app. simpl. lia.
    + exists (p ++ (len, true) :: k), B. split; [by rewrite <-app_assoc|]. rewrite !total_app. done.
  - destruct k as [|b k]; [done|]. injection E as <- ->.
    exists A, (k ++ alloc_blocks size len q). split; [by rewrite <-app_assoc|done].
Qed.

(** ... or freed. *)
Lemma used_after_free A l B p len q :
  A ++ (l, true) :: B = p ++ (len, true) :: q -> A <> p ->
  exists A' B', free_blocks p len q = A' ++ (l, true) :: B' /\ total A' = total A.
Proof.
  intros E Hne. apply app_eq_inv in E as [(k & -> & E)|(k & -> & E)].
  - destruct k as [|b k]; [by rewrite app_nil_r in Hne|]. injection E as <- Eq. unfold free_blocks.
    assert (exists k', fwd_rest q = k' ++ (l, true) :: B /\ total k' + fwd_len len q = total k + len) as (k' & -> & Hk).
    { subst q. destruct k as [|[l' []] k]; simpl; [exists []|exists ((l', true) :: k)|exists k]; split; done || simpl; lia. }
    exists (bwd_rest p ++ (bwd_len p (fwd_len len q), false) :: k'), B. split; [by rewrite <-app_assoc|].
    rewrite !total_app. simpl.
    destruct (bwd_cases p) as [(_ & -> & -> & _)|(p' & lb & -> & _ & -> & ->)]; rewrite ?total_app; simpl; lia.
  - destruct k as [|b k]; [by rewrite app_nil_r in Hne|]. injection E as <- ->. unfold free_blocks.
    destruct (bwd_cases (A ++ (l, true) :: k)) as [(_ & -> & _)|(p' & lb & Ep & _ & -> & _)].
    + exists A. eexists. split; [by rewrite <-app_assoc|done].
    + destruct (last_snoc_cases k) as [->|(k' & x & ->)].
      { apply app_inj_tail in Ep as [_ [=]]. }
      rewrite app_comm_cons, app_assoc in Ep. apply app_inj_tail in Ep as [<- ->].
      exists A. eexists. split; [by rewrite <-app_assoc|done].
Qed.

(** What freeing says about the blocks of the list before. *)
Lemma data_same_free m m' base p len q :
  data_same m m' base 0 (free_blocks p len q) -> data_same m m' base 0 (p ++ (len, false) :: q).
Proof.
  unfold free_blocks. rewrite !data_same_app. simpl.
  destruct (fwd_cases q) as [(-> & -> & _)|(l & q' & -> & -> & ->)];
  destruct (bwd_cases p) as [(_ & -> & -> & _)|(p' & lb & -> & _ & -> & ->)];
    rewrite ?data_same_app, ?total_app; simpl; intros (H1 & _ & H2); (split; [|split; [done|]]); try done;
    try (split; [done|]; split; done);
    match goal with |- context [data_same _ _ _ ?o _] => match type of H2 with data_same _ _ _ ?o' _ =>
      replace o with o' by lia end end; done.
Qed.

(** The owner of a block may write to its data. *)
Lemma heap_rep_write h pre suf p len u q m' :
  heap_rep h pre suf -> pre ++ suf = p ++ (len, u) :: q ->
  stored (hp_ptr h + total p + 12) (len - 12) (hp_ram h) m' ->
  heap_rep (set_hp_ram m' h) pre suf.
Proof.
  intros [Ht ? ? ? ? ? ? ? ? ? Hmap Hok ?] E [S HM HO]. split; try done; simpl.
  - rewrite E in Ht |- *. apply tail_at_app in Ht as [HP Ht]. apply tail_at_app. split.
    { eapply blocks_at_ext; [|exact HP]. intros x Hx. apply S. lia. }
    apply (tail_at_app _ _ _ _ [(len, u)]) in Ht as [(Hl & Hm & Hh & _) Hq].
    apply (tail_at_app _ _ _ _ [(len, u)]). simpl in *. rewrite Z.add_0_r, Z.add_0_l in *. split.
    + split; [done|]. split; [done|]. split; [|done]. eapply hdr_ext; [|exact Hh]. intros x Hx. apply S. lia.
    + eapply tail_at_ext; [|exact Hq]. intros x Hx. apply S. lia.
  - by apply HM.
  - by apply HO.
Qed.

(** Two blocks of one list are the same or apart. *)
Lemma blocks_disjoint m base off prev A la ua B C lc uc D :
  blocks_at m base off prev (A ++ (la, ua) :: B) -> A ++ (la, ua) :: B = C ++ (lc, uc) :: D ->
  (A = C /\ la = lc /\ ua = uc /\ B = D) \/ total A + la <= total C \/ total C + lc <= total A.
Proof.
  intros HB E. apply app_eq_inv in E as [(k & -> & E)|(k & -> & E)].
  - destruct k as [|b k]; [rewrite app_nil_r; injection E as <- <- <-; by left|]. right; right. injection E as <- ED.
    rewrite total_app. simpl. rewrite <-app_assoc in HB. apply blocks_at_app in HB as [_ (_ & _ & _ & HB)].
    apply blocks_at_app in HB as [HB _]. apply total_nonneg in HB. lia.
  - destruct k as [|b k]; [rewrite app_nil_r; injection E as -> -> ->; by left|]. right; left. injection E as <- EB.
    rewrite total_app. simpl. apply blocks_at_app in HB as [_ (_ & _ & _ & HB)]. rewrite EB in HB.
    apply blocks_at_app in HB as [HB _]. apply total_nonneg in HB. lia.
Qed.

Lemma memcpy_ok m dst src n :
  ram_ok m -> mapped m src n -> mapped m dst n -> 0 <= n < 2 ^ 32 -> src + n <= dst \/ dst + n <= src ->
  exists m', rt_memcpy m dst src n = Some m' /\ stored dst n m m' /\
    forall i, 0 <= i < n -> m' !! (dst + i) = m !! (src + i).
Proof.
  intros Hm Hs Hd Hn Hdis. rewrite rt_memcpy_eq, copy_bytes_up by (done || lia).
  destruct (read_bytes_ok m src (Z.to_nat n)) as (l & El & Hl); [by rewrite Z2Nat.id by lia|].
  destruct (write_bytes_ok m dst l) as [m' Em]; [by rewrite Hl, Z2Nat.id by lia|].
  exists m'. rewrite El. cbn [mbind option_bind]. split; [done|].
  pose proof Em as Em'. apply write_bytes_Some in Em' as [_ H]. rewrite Hl, Z2Nat.id in H by lia. split.
  - split.
    + intros x Hx. by rewrite H, decide_False by lia.
    + intros b k. by eapply mapped_write.
    + intros _. eapply ram_ok_write; [done|by eapply ram_ok_read|done].
  - intros i Hi. rewrite H, decide_True by lia. replace (dst + i - dst) with i by lia.
    apply read_bytes_lookup in El as [_ El]. destruct (lookup_lt_is_Some_2 l (Z.to_nat i)) as [b Hb]; [lia|].
    rewrite Hb. specialize (El _ _ Hb). by rewrite Z2Nat.id in El by lia.
Qed.

(** ** [rt_realloc] *)
Section realloc.
Context (k : kview) (h : heap) (pre suf p q : list blk) (len : Z).
Abbreviation base := (hp_ptr h).
Abbreviation rmem := (base + total p + 12).
Hypothesis Ho : heap_open k h.
Hypothesis HR : heap_rep h pre suf.
Hypothesis E : pre ++ suf = p ++ (len, true) :: q.

(** The used blocks other than the one at [p] keep their data. *)
Definition others_same (m' : ram) : Prop :=
  forall A l B, pre ++ suf = A ++ (l, true) :: B -> A <> p ->
  forall x, base + total A + 12 <= x < base + total A + l -> m' !! x = hp_ram h !! x.

(** The block at [r] has at least [ns] bytes and begins with the old data. *)
Definition kept (ns r : Z) (m' : ram) (bs : list blk) : Prop :=
  exists p' len' q', bs = p' ++ (len', true) :: q' /\ r = base + total p' + 12 /\ ns + 12 <= len' /\
    forall i, 0 <= i < Z.min (len - 12) ns -> m' !! (r + i) = hp_ram h !! (rmem + i).

Lemma used_after_cut A l B ns :
  pre ++ suf = A ++ (l, true) :: B -> A <> p ->
  exists A' B', cut_blocks p len ns q = A' ++ (l, true) :: B' /\ total A' = total A.
Proof using E.
  rewrite E, cut_free. intros EA Hne. symmetry in EA.
  apply app_eq_inv in EA as [(k0 & -> & EA)|(k0 & Ep & EA)].
  - destruct k0 as [|b k0]; [by rewrite app_nil_r in Hne|]. injection EA as <- Eq.
    destruct (used_after_free ((p ++ [(ns + 12, true)]) ++ (len - ns - 12, true) :: k0) l B
      (p ++ [(ns + 12, true)]) (len - ns - 12) q) as (A' & B' & E1 & E2).
    { rewrite Eq. by rewrite <-!app_assoc. }
    { intros Ex. apply (f_equal length) in Ex. rewrite !length_app in Ex. simpl in Ex. lia. }
    exists A', B'. split; [done|]. rewrite E2, !total_app. simpl. lia.
  - destruct k0 as [|b k0]; [rewrite app_nil_r in Ep; by subst|]. injection EA as <- ->. rewrite Ep.
    destruct (used_after_free A l (k0 ++ (ns + 12, true) :: (len - ns - 12, true) :: q)
      ((A ++ (l, true) :: k0) ++ [(ns + 12, true)]) (len - ns - 12) q) as (A' & B' & E1 & E2).
    { by rewrite <-!app_assoc. }
    { intros Ex. apply (f_equal length) in Ex. rewrite !length_app in Ex. simpl in Ex. lia. }
    eauto.
Qed.

(** Moving the data: allocate, copy, free. *)
Lemma realloc_move ns :
  0 < ns <= hp_size h -> RT_ALIGN ns 4 = ns ->
  exists r h' pre' suf',
    (let! nmem := rt_malloc ns in
     (if negb (nmem =? 0) then
        on_heap (ram_op (fun m => rt_memcpy m nmem rmem (if len - 12 <? ns then len - 12 else ns))) ;!
        rt_free rmem
      else ret tt) ;!
     ret nmem) (k, h) = Ok r (k, h') /\ heap_rep h' pre' suf' /\ hp_sem h' = hp_sem h /\
    ((r = 0 /\ h' = h) \/
     (kept ns r (hp_ram h') (pre' ++ suf') /\ others_same (hp_ram h'))).
Proof using Ho HR E.
  intros Hns Hal. pose proof (malloc_eq k h pre suf ns Ho HR ltac:(lia) ltac:(lia)) as HM.
  destruct (find_fit _ _ _ suf) as [[[pa lf] qa]|] eqn:Ef.
  2:{ rewrite (bind_ok _ _ _ _ _ HM). exists 0, h, pre, suf. split; [done|]. split; [done|]. split; [done|by left]. }
  destruct HM as (h1 & pre1 & suf1 & E1 & HR1 & L1 & D1 & _ & Hs1 & Hp1 & Hz1 & _).
  rewrite (bind_ok _ _ _ _ _ E1). apply find_fit_spec in Ef as [Esuf Hlf].
  set (P := pre ++ pa) in *. assert (pre ++ suf = P ++ (lf, false) :: qa) as EP by (unfold P; rewrite Esuf; by rewrite app_assoc).
  pose proof (hr_blocks _ _ _ HR) as [HB _]. pose proof HB as HBP. rewrite E in HB. rewrite EP in HBP.
  destruct (block_place h pre suf p _ q HR E) as (A1 & A2 & A3 & A4 & _). simpl in A2, A3.
  destruct (block_place h pre suf P _ qa HR EP) as (B1 & B2 & B3 & B4 & _). simpl in B2, B3.
  pose proof (hr_base _ _ _ HR) as Hbase. pose proof (hr_top _ _ _ HR) as Htop.
  assert (total p + len <= total P \/ total P + lf <= total p) as Hdis.
  { destruct (blocks_disjoint _ _ _ _ p len true q P lf false qa HB) as [(_ & _ & [=] & _)|?]; [by rewrite <-E, EP|done]. }
  destruct (alloc_blocks_cons (request ns) lf qa) as (R & ER & _ & HtR). rewrite ER in L1.
  assert (12 <= request ns /\ ns <= request ns) as [Hr1 Hr2] by (unfold request; lia).
  assert (request ns + 12 <= alloc_len (request ns) lf <= lf) as Hal1
    by (unfold alloc_len; destruct (Z.leb_spec (request ns + 36) lf); lia).
  set (r := base + total P + 12). set (n := if len - 12 <? ns then len - 12 else ns).
  assert (n = Z.min (len - 12) ns) as Hn by (unfold n; destruct (Z.ltb_spec (len - 12) ns); lia).
  replace (r =? 0) with false by (symmetry; apply Z.eqb_neq; unfold r; lia). cbn [negb].
  pose proof (hr_mapped _ _ _ HR1) as Hmap. rewrite Hp1, Hz1 in Hmap.
  destruct (memcpy_ok (hp_ram h1) r rmem n) as (m2 & E2 & S2 & C2);
    [apply HR1|eapply mapped_sub; [exact Hmap|unfold r; lia..]|eapply mapped_sub; [exact Hmap|unfold r; lia..]|lia|unfold r; lia|].
  assert (HR2 : heap_rep (set_hp_ram m2 h1) pre1 suf1).
  { eapply heap_rep_write; [exact HR1|exact L1|]. rewrite Hp1. eapply stored_wider; [exact S2|unfold r; lia..]. }
  destruct (used_after_alloc p len q P lf qa (request ns)) as (p1 & q1 & EL1 & Hp1t); [by rewrite <-E, EP|].
  rewrite ER, <-L1 in EL1.
  destruct (free_eq k (set_hp_ram m2 h1) pre1 suf1 p1 len q1) as (h3 & pre3 & suf3 & E3 & HR3 & L3 & D3 & _ & Hs3 & Hp3 & _);
    [by apply (heap_open_same k h)|exact HR2|exact EL1|].
  simpl in E3, D3, Hs3, Hp3. rewrite Hp1 in E3, D3, Hp3. rewrite Hp1t in E3.
  assert (on_heap (ram_op (fun m => rt_memcpy m r rmem n)) (k, h1) = Ok tt (k, set_hp_ram m2 h1)) as EC
    by (apply on_heap_ok; unfold ram_op; by rewrite E2).
  erewrite bind_ok; [|rewrite (bind_ok _ _ _ _ _ EC); exact E3].
  exists r, h3, pre3, suf3. split; [done|]. split; [done|]. split; [by rewrite Hs3|]. right. split.
  - destruct (used_after_free P (alloc_len (request ns) lf) R p1 len q1) as (A' & B' & EA & HA);
      [by rewrite <-L1, EL1|intros ->; lia|].
    exists A', (alloc_len (request ns) lf), B'. split; [by rewrite L3|]. split; [unfold r; lia|]. split; [lia|].
    intros i Hi. rewrite EA in D3.
    rewrite (data_same_lookup _ _ _ _ _ _ _ D3) by (unfold r; lia). rewrite C2 by lia.
    rewrite <-EP, E in D1. by rewrite (data_same_lookup _ _ _ _ _ _ _ D1) by lia.
  - intros A l B EA Hne x Hx.
    destruct (blocks_disjoint _ _ _ _ P lf false qa A l true B HBP) as [(_ & _ & [=] & _)|HdA]; [by rewrite <-EP, EA|].
    destruct (used_after_alloc A l B P lf qa (request ns)) as (A1' & B1' & EA1 & HA1); [by rewrite <-EA, EP|].
    rewrite ER, <-L1 in EA1.
    destruct (used_after_free A1' l B1' p1 len q1) as (A2' & B2' & EA2 & HA2); [by rewrite <-EA1, EL1| |].
    { intros ->. destruct (blocks_disjoint _ _ _ _ p len true q A l true B HB) as [(-> & _)|Hd];
        [by rewrite <-E, EA|done|].
      destruct (block_place h pre suf A _ B HR EA) as (_ & C1 & _). simpl in C1. lia. }
    rewrite EA2 in D3. rewrite (data_same_lookup _ _ _ _ _ _ _ D3) by lia.
    rewrite (st_same _ _ _ _ S2) by (unfold r; lia).
    rewrite <-EP, EA in D1. by rewrite (data_same_lookup _ _ _ _ _ _ _ D1) by lia.
Qed.

(** [rt_realloc] once it holds the semaphore and has read the block. *)
Lemma realloc_entry newsize :
  let ns := RT_ALIGN newsize 4 in
  0 < ns <= hp_size h ->
  rt_realloc rmem newsize (k, h) =
    (if len - 12 =? ns then release_heap_sem ;! ret rmem
     else if ns + 12 + 12 <? len - 12 then
       on_heap (realloc_split (base + total p) (total p) (len - 12) ns) ;! release_heap_sem ;! ret rmem
     else
       release_heap_sem ;!
       let! nmem := rt_malloc ns in
       (if negb (nmem =? 0) then
          on_heap (ram_op (fun m => rt_memcpy m nmem rmem (if len - 12 <? ns then len - 12 else ns))) ;!
          rt_free rmem
        else ret tt) ;!
       ret nmem) (taken k h, h).
Proof using Ho HR E.
  intros ns Hns. destruct (block_place h pre suf p _ q HR E) as (A1 & A2 & A3 & A4 & A5 & A6 & Hh). simpl in A2, A3, A6, Hh.
  pose proof (hr_base _ _ _ HR) as Hbase. pose proof (hr_top _ _ _ HR) as Htop. pose proof (hr_hend _ _ _ HR) as Hend.
  unfold rt_realloc. rewrite (bind_ok _ _ _ _ _ (debug_ok k h Ho h)). change RT_ALIGN_SIZE with 4. fold ns.
  rewrite bind_gets. cbn [snd]. rewrite (proj2 (Z.ltb_ge _ _)) by lia.
  rewrite (proj2 (Z.eqb_neq ns 0)), (proj2 (Z.eqb_neq rmem 0)) by lia.
  rewrite (bind_ok _ _ _ _ _ (take_ok k h Ho)), bind_gets. cbn [snd]. rewrite Hend.
  rewrite (proj2 (Z.ltb_ge _ _)), (proj2 (Z.leb_gt _ _)) by lia. cbn [orb].
  change SIZEOF_STRUCT_MEM with 12. change MIN_SIZE with 12.
  replace (u32 (rmem - 12)) with (base + total p) by (rewrite u32_small by lia; lia).
  erewrite bind_ok; [|apply on_heap_ok, heap_off_ok; lia].
  erewrite bind_ok; [|apply on_heap_ok; by eapply get_next_at]. cbn [m_next].
  replace (u32 (total p + len - total p - 12)) with (len - 12) by (rewrite u32_small by lia; lia).
  by rewrite (u32_small (ns + 12 + 12)) by lia.
Qed.

(** The block is cut in place. *)
Lemma realloc_cut_eq newsize :
  let ns := RT_ALIGN newsize 4 in
  0 < ns -> ns + 36 < len ->
  exists h' pre' suf',
    rt_realloc rmem newsize (k, h) = Ok rmem (k, h') /\ resized h p q len ns h' pre' suf'.
Proof using Ho HR E.
  intros ns Hns Hcut. destruct (block_place h pre suf p _ q HR E) as (A1 & A2 & A3 & A4 & _). simpl in A2, A3.
  destruct (realloc_split_ok h p q len ns pre suf HR E) as (h' & pre' & suf' & ES & HS); [lia|apply align4_mod|lia|].
  exists h', pre', suf'. split; [|exact HS]. rewrite realloc_entry by (fold ns; lia). fold ns.
  rewrite (proj2 (Z.eqb_neq _ _)), (proj2 (Z.ltb_lt _ _)) by lia.
  destruct HS as (_ & _ & _ & _ & Hs' & _).
  by rewrite (bind_ok _ _ _ _ _ (on_heap_ok _ _ _ _ _ ES)), (bind_ok _ _ _ _ _ (release_ok k h Ho h' Hs')).
Qed.

Lemma realloc_eq newsize :
  let ns := RT_ALIGN newsize 4 in
  0 < ns <= hp_size h ->
  exists r h' pre' suf',
    rt_realloc rmem newsize (k, h) = Ok r (k, h') /\ heap_rep h' pre' suf' /\ hp_sem h' = hp_sem h /\
    ((r = 0 /\ h' = h) \/
     (kept ns r (hp_ram h') (pre' ++ suf') /\ others_same (hp_ram h'))).
Proof using Ho HR E.
  intros ns Hns. destruct (block_place h pre suf p _ q HR E) as (A1 & A2 & A3 & A4 & _). simpl in A2, A3.
  pose proof (hr_top _ _ _ HR) as Htop. pose proof (hr_base _ _ _ HR) as Hbase.
  assert (ns mod 4 = 0) as Hnm by apply align4_mod.
  assert (RT_ALIGN ns 4 = ns) as Hal.
  { rewrite align4 by lia. pose proof (Z.div_mod ns 4 ltac:(lia)).
    replace (ns + 3) with (3 + ns / 4 * 4) by lia. rewrite Z.div_add by lia. change (3 / 4) with 0. lia. }
  destruct (Z.ltb_spec (ns + 12 + 12) (len - 12)) as [Hcut|Hmove].
  - destruct (realloc_cut_eq newsize) as (h' & pre' & suf' & ES & HR' & L' & D' & _ & Hs' & Hp' & _);
      [fold ns; lia|fold ns; lia|]. fold ns in ES, L', D'.
    exists rmem, h', pre', suf'. split; [done|]. split; [done|]. split; [done|right]. split.
    + exists p, (ns + 12). eexists. split; [exact L'|]. split; [lia|]. split; [lia|]. intros i Hi.
      apply (data_same_lookup _ _ _ _ _ _ _ D'). lia.
    + intros A l B EA Hne x Hx. destruct (used_after_cut A l B ns EA Hne) as (A' & B' & EC & HA).
      rewrite EC in D'. apply (data_same_lookup _ _ _ _ _ _ _ D'). lia.
  - rewrite realloc_entry by (fold ns; lia). fold ns.
    rewrite (proj2 (Z.ltb_ge (ns + 12 + 12) _)) by lia.
    destruct (Z.eqb_spec (len - 12) ns) as [Heq|Hneq].
    + rewrite (bind_ok _ _ _ _ _ (release_ok k h Ho h eq_refl)). exists rmem, h, pre, suf.
      split; [done|]. split; [done|]. split; [done|right]. split; [|done].
      exists p, len, q. split; [done|]. split; [lia|]. split; [lia|done].
    + rewrite (bind_ok _ _ _ _ _ (release_ok k h Ho h eq_refl)). by apply realloc_move.
Qed.
End realloc.

(** ** [rt_system_heap_init] *)
(** A fresh heap is one free block. *)
Lemma heap_rep_fresh m sem b n lf us mx :
  hdr m b (Hmem HEAP_MAGIC 0 (n + 12) 0) -> hdr m (b + (n + 12)) (Hmem HEAP_MAGIC 1 (n + 12) (n + 12)) ->
  12 <= n -> n mod 4 = 0 -> b mod 4 = 0 -> 0 < b -> b + n + 24 <= 2 ^ 32 ->
  mapped m b (n + 24) -> ram_ok m -> lf = b -> us = 0 ->
  heap_rep (Heap m sem b (b + (n + 12)) lf n us mx) [] [(n + 12, false)].
Proof.
  intros H1 H2 Hn Hnm Hbm Hb Ht Hmap Hok -> ->. split; simpl; try done; try lia.
  split; simpl; [split; [lia|split; [|split; [by rewrite Z.add_0_r|done]]]|].
  - by apply div4_add.
  - exists (n + 12). replace (b + 0 + (n + 12 + 0)) with (b + (n + 12)) by lia. by rewrite Z.add_0_r.
Qed.

Definition init_heap_code (msa b : Z) : HM unit :=
  modify (set_hp_size msa) ;!
  modify (set_hp_ptr b) ;!
  let mem := b in
  set_magic mem HEAP_MAGIC ;!
  set_next mem (u32 (msa + SIZEOF_STRUCT_MEM)) ;!
  set_prev mem 0 ;!
  set_used mem 0 ;!
  let! next := get_next mem in
  let! hend := heap_at next in
  modify (set_hp_end hend) ;!
  set_magic hend HEAP_MAGIC ;!
  set_used hend 1 ;!
  set_next hend (u32 (msa + SIZEOF_STRUCT_MEM)) ;!
  set_prev hend (u32 (msa + SIZEOF_STRUCT_MEM)).

Lemma init_heap_ok h n b :
  mapped (hp_ram h) b (n + 24) -> 0 <= n -> 0 <= b -> b + n + 24 <= 2 ^ 32 ->
  exists m', init_heap_code n b h = Ok tt (Heap m' (hp_sem h) b (b + (n + 12)) (hp_lfree h) n (hp_used h) (hp_max h)) /\
    hdr m' b (Hmem HEAP_MAGIC 0 (n + 12) 0) /\ hdr m' (b + (n + 12)) (Hmem HEAP_MAGIC 1 (n + 12) (n + 12)) /\
    (forall c l, mapped (hp_ram h) c l -> mapped m' c l) /\ (ram_ok (hp_ram h) -> ram_ok m').
Proof.
  intros Hmap Hn Hb Htop. unfold init_heap_code. rewrite !bind_modify. cbv zeta.
  change SIZEOF_STRUCT_MEM with 12. rewrite (u32_small (n + 12)) by lia.
  set (h1 := set_hp_ptr b (set_hp_size n h)).
  destruct (mapped_hdr (hp_ram h) b) as [x0 H0]; [eapply mapped_sub; [exact Hmap|lia..]|].
  destruct (set_magic_ok h1 _ _ _ H0 HEAP_MAGIC) as (m1 & E1 & S1 & H1); [done|]. simpl in H1.
  change (set_hp_ram (hp_ram h) h1) with (set_hp_ptr b (set_hp_size n (set_hp_ram (hp_ram h) h))) in E1.
  rewrite set_ram_eta in E1. rewrite (bind_ok _ _ _ _ _ E1).
  destruct (set_next_ok h1 m1 _ _ H1 (n + 12)) as (m2 & E2 & S2 & H2); [lia|]. simpl in H2. rewrite (bind_ok _ _ _ _ _ E2).
  destruct (set_prev_ok h1 m2 _ _ H2 0) as (m3 & E3 & S3 & H3); [lia|]. simpl in H3. rewrite (bind_ok _ _ _ _ _ E3).
  destruct (set_used_ok h1 m3 _ _ H3 0) as (m4 & E4 & S4 & H4); [lia|]. simpl in H4. rewrite (bind_ok _ _ _ _ _ E4).
  rewrite (bind_ok _ _ _ _ _ (get_next_ok h1 m4 _ _ H4)). cbn [m_next].
  rewrite (bind_ok _ _ _ _ _ (heap_at_ok (set_hp_ram m4 h1) (n + 12) ltac:(simpl; lia))).
  rewrite bind_modify. cbn [hp_ptr set_hp_ram h1 set_hp_ptr].
  pose proof (stored_trans _ _ _ _ _ (stored_trans _ _ _ _ _ (stored_trans _ _ _ _ _ S1 S2) S3) S4) as S14.
  set (h2 := set_hp_end (b + (n + 12)) h1).
  destruct (mapped_hdr m4 (b + (n + 12))) as [x1 H5]; [eapply mapped_sub; [apply S14, Hmap|lia..]|].
  destruct (set_magic_ok h2 _ _ _ H5 HEAP_MAGIC) as (m5 & E5 & S5 & H6); [done|]. simpl in H6. rewrite (bind_ok _ _ _ _ _ E5).
  destruct (set_used_ok h2 m5 _ _ H6 1) as (m6 & E6 & S6 & H7); [lia|]. simpl in H7. rewrite (bind_ok _ _ _ _ _ E6).
  destruct (set_next_ok h2 m6 _ _ H7 (n + 12)) as (m7 & E7 & S7 & H8); [lia|]. simpl in H8. rewrite (bind_ok _ _ _ _ _ E7).
  destruct (set_prev_ok h2 m7 _ _ H8 (n + 12)) as (m8 & E8 & S8 & H9); [lia|]. simpl in H9.
  pose proof (stored_trans _ _ _ _ _ (stored_trans _ _ _ _ _ (stored_trans _ _ _ _ _ S5 S6) S7) S8) as S58.
  exists m8. split; [exact E8|]. split; [|split; [exact H9|split]].
  - eapply hdr_frame; [apply S58|lia|exact H4].
  - intros c l Hc. by apply S58, S14.
  - intros Hok. by apply S58, S14.
Qed.

(** ** The heap in a running system *)
Definition heap_inv (h : heap) : Prop := exists pre suf, heap_rep h pre suf.

(** [r] is the data of a used block. *)
Definition used_at (r : Z) (h : heap) : Prop :=
  exists pre suf p len q, heap_rep h pre suf /\ pre ++ suf = p ++ (len, true) :: q /\ r = hp_ptr h + total p + 12.

Definition same_heap (h h' : heap) : Prop :=
  hp_sem h' = hp_sem h /\ hp_ptr h' = hp_ptr h /\ hp_size h' = hp_size h.

(** A thread leaves the processor with the heap in order, and finds it in
    order, its own blocks [mine] among the used ones. *)
Section system.
Context (idle i : nat) (mine : Z -> Prop).

Definition guarH (from to : nat) (s : khs) : Prop :=
  guarI idle (sem_inv i) from to s.1 /\ heap_inv s.2 /\ hp_sem s.2 = i.
Definition relyH (from : nat) (s s' : khs) : Prop :=
  relyI idle (sem_inv i) from s.1 s'.1 /\ heap_inv s'.2 /\ same_heap s.2 s'.2 /\
  forall r, mine r -> used_at r s.2 -> used_at r s'.2.

Definition stays (h h' : heap) : Prop :=
  heap_inv h' /\ same_heap h h' /\ forall r, mine r -> used_at r h -> used_at r h'.

Lemma stays_refl h : heap_inv h -> stays h h.
Proof. by split. Qed.

Lemma wp_res_kernel {A} (r : res kview A) (Q : A -> kview -> Prop) h h1 :
  wp_res (guarI idle (sem_inv i)) (relyI idle (sem_inv i)) r Q -> stays h h1 -> hp_sem h = i ->
  wp_res guarH relyH (res_kernel h1 r) (fun a s' => Q a s'.1 /\ stays h s'.2).
Proof.
  revert h1. induction r as [a s|from to s c IH|e]; simpl; intros h1 Hr Hst Hi; [done| |done].
  destruct Hr as [HG Hk]. destruct Hst as (Hh & (S1 & S2 & S3) & Hm). split.
  { split; [done|]. split; [done|]. cbn [snd]. congruence. }
  intros [k' h'] (HR & Hh' & (S1' & S2' & S3') & Hm'). cbn [fst snd] in *.
  apply IH; [by apply Hk| |done]. split; [done|]. split; [split; [congruence|split; congruence]|]. auto.
Qed.

Lemma wp_kernel {A} (f : M kview A) (Q : A -> kview -> Prop) k h :
  wp (guarI idle (sem_inv i)) (relyI idle (sem_inv i)) f Q k -> heap_inv h -> hp_sem h = i ->
  wp guarH relyH (kernel f) (fun a s' => Q a s'.1 /\ stays h s'.2) (k, h).
Proof. intros Hr Hh Hi. apply wp_res_kernel; [done|by apply stays_refl|done]. Qed.

Lemma wp_take k h t (Q : unit -> khs -> Prop) :
  running idle k t -> t <> idle -> sem_inv i k -> heap_inv h -> hp_sem h = i ->
  (forall k' h', running idle k' t -> sem_inv i k' -> stays h h' -> Q tt (k', h')) ->
  wp guarH relyH take_heap_sem Q (k, h).
Proof.
  intros Hrun Hid Hsem Hh Hi HQ. unfold take_heap_sem. apply wp_bind. eapply wp_ok; [done|]. cbn [snd]. rewrite Hi.
  apply wp_bind. eapply wp_mono.
  - apply wp_kernel; [|done|done]. by apply sem_take_wp.
  - intros a [k' h'] ((H1 & H2 & _) & H3). eapply wp_ok; [done|]. by apply HQ.
Qed.

Lemma wp_release k h t (Q : unit -> khs -> Prop) :
  running idle k t -> sem_inv i k -> heap_inv h -> hp_sem h = i ->
  (forall k' h', running idle k' t -> sem_inv i k' -> stays h h' -> Q tt (k', h')) ->
  wp guarH relyH release_heap_sem Q (k, h).
Proof.
  intros Hrun Hsem Hh Hi HQ. unfold release_heap_sem. apply wp_bind. eapply wp_ok; [done|]. cbn [snd]. rewrite Hi.
  apply wp_bind. eapply wp_mono.
  - apply wp_kernel; [|done|done]. by apply sem_release_wp.
  - intros a [k' h'] ((_ & H1 & H2) & H3). eapply wp_ok; [done|]. by apply HQ.
Qed.

Lemma running_debug k (h : heap) t : running idle k t -> kernel RT_DEBUG_NOT_IN_INTERRUPT (k, h) = Ok tt (k, h).
Proof. intros (_ & Hc & _). apply kernel_ok, not_in_interrupt_ok; [by eapply ctx_quiet|apply Hc]. Qed.

(** The bytes a caller of [rt_malloc] is given: as many as it asks for, and at
    least twelve; but the three sizes from [2^32-3] on wrap to 0 when they are
    rounded up, and are given twelve. *)
Definition granted (size : Z) : Z := if size <? 2 ^ 32 - 3 then Z.max 12 size else 12.

Lemma granted_request size : 0 <= size -> granted size <= request size.
Proof.
  intros Hs. unfold granted, request. destruct (Z.ltb_spec size (2 ^ 32 - 3)); [|lia]. rewrite align4 by lia.
  pose proof (Z.div_mod (size + 3) 4 ltac:(lia)). pose proof (Z.mod_pos_bound (size + 3) 4 ltac:(lia)). lia.
Qed.

(** What [rt_malloc] returns: nothing, or room for [granted size] bytes inside
    the heap. *)
Definition malloc_result (h : heap) (size r : Z) : Prop :=
  r = 0 \/ (hp_ptr h + 12 <= r /\ r mod 4 = 0 /\ r + granted size <= hp_ptr h + hp_size h + 12).

Lemma malloc_wp k h t size :
  running idle k t -> t <> idle -> sem_inv i k -> heap_inv h -> hp_sem h = i -> 0 <= size ->
  wp guarH relyH (rt_malloc size)
    (fun r s' => running idle s'.1 t /\ sem_inv i s'.1 /\ heap_inv s'.2 /\ same_heap h s'.2 /\ malloc_result h size r) (k, h).
Proof.
  intros Hrun Hid Hsem Hh Hi Hsize. unfold rt_malloc. eapply wp_bind_ok; [by eapply running_debug|].
  destruct (Z.eqb_spec size 0) as [->|Hs0].
  { eapply wp_ok; [done|]. do 4 (split; [done|]). by left. }
  eapply wp_bind_ok; [done|]. cbn [snd]. change RT_ALIGN_SIZE with 4.
  destruct (Z.ltb_spec (hp_size h) (RT_ALIGN size 4)) as [Hbig|Hfit].
  { eapply wp_ok; [done|]. do 4 (split; [done|]). by left. }
  replace (if RT_ALIGN size 4 <? MIN_SIZE_ALIGNED then MIN_SIZE_ALIGNED else RT_ALIGN size 4) with (request size).
  2:{ change MIN_SIZE_ALIGNED with 12. unfold request. destruct (Z.ltb_spec (RT_ALIGN size 4) 12); lia. }
  apply wp_bind. eapply wp_take; [done|done|done|done|done|].
  intros k1 h1 Hrun1 Hsem1 ((pre & suf & HR1) & (Si & Sp & Ss) & _).
  pose proof (hr_size _ _ _ HR1) as Hsz. pose proof (align4_range size) as Hra. pose proof (granted_request size Hsize).
  assert (12 <= request size <= hp_size h1) as Hrq by (unfold request; lia).
  pose proof (malloc_locked_ok h1 pre suf (request size) HR1 Hrq (request_mod size)) as HM.
  destruct (find_fit _ _ _ suf) as [[[p len] q]|] eqn:Ef.
  - destruct HM as (h2 & pre' & suf' & E & HA). eapply wp_bind_ok; [by apply on_heap_ok|].
    pose proof HA as (HR' & _ & _ & _ & Hs2 & Hp2 & Hz2 & _).
    apply find_fit_spec in Ef as [-> Hl].
    destruct (block_place h1 pre _ (pre ++ p) (len, false) q HR1) as (H1 & H2 & H3 & H4 & H5 & _);
      [by rewrite <-app_assoc|]. simpl in H2, H3.
    pose proof (hr_top _ _ _ HR1). pose proof (hr_base _ _ _ HR1).
    apply wp_bind. eapply wp_release; [done|done|by exists pre', suf'|by rewrite Hs2, Si|].
    intros k3 h3 Hrun3 Hsem3 ((pre3 & suf3 & HR3) & (Si3 & Sp3 & Ss3) & _).
    eapply wp_bind_ok; [done|]. cbn [snd]. change SIZEOF_STRUCT_MEM with 12. change (RT_ALIGN_SIZE - 1) with 3.
    rewrite !u32_small by lia. rewrite (hr_hend _ _ _ HR3), Sp3, Ss3, Hp2, Hz2.
    eapply wp_bind_ok; [unfold rt_assert; by rewrite (proj2 (Z.leb_le _ _)) by lia|].
    eapply wp_bind_ok; [unfold rt_assert; by rewrite (proj2 (Z.eqb_eq _ _)) by (by apply div4_add)|].
    eapply wp_bind_ok; [unfold rt_assert; by rewrite (proj2 (Z.eqb_eq _ _)) by (by apply land3_zero)|].
    eapply wp_ok; [done|]. split; [done|]. split; [done|]. split; [by exists pre3, suf3|]. cbn [snd].
    split; [split; [congruence|split; congruence]|]. right. rewrite <-Sp, <-Ss. split; [lia|]. split; [by apply div4_add|lia].
  - eapply wp_bind_ok; [by apply on_heap_ok|].
    apply wp_bind. eapply wp_release; [done|done|by exists pre, suf|by rewrite Si|].
    intros k3 h3 Hrun3 Hsem3 (Hinv3 & (Si3 & Sp3 & Ss3) & _). eapply wp_ok; [done|].
    do 3 (split; [done|]). cbn [snd]. split; [split; [congruence|split; congruence]|by left].
Qed.

Lemma free_wp k h t r :
  running idle k t -> t <> idle -> sem_inv i k -> hp_sem h = i -> mine r -> used_at r h ->
  wp guarH relyH (rt_free r)
    (fun _ s' => running idle s'.1 t /\ sem_inv i s'.1 /\ heap_inv s'.2 /\ same_heap h s'.2) (k, h).
Proof.
  intros Hrun Hid Hsem Hi Hmine Hused. pose proof Hused as (pre & suf & p & len & q & HR & E & Hr).
  destruct (block_place h pre suf p (len, true) q HR E) as (H1 & H2 & H3 & H4 & H5 & _). simpl in H2, H3.
  pose proof (hr_top _ _ _ HR). pose proof (hr_base _ _ _ HR). pose proof (hr_hend _ _ _ HR) as He.
  unfold rt_free. eapply wp_bind_ok; [by eapply running_debug|].
  rewrite (proj2 (Z.eqb_neq _ _)) by lia. change (RT_ALIGN_SIZE - 1) with 3. change SIZEOF_STRUCT_MEM with 12.
  eapply wp_bind_ok; [unfold rt_assert; rewrite (proj2 (Z.eqb_eq _ _)); [done|]; rewrite Hr; by apply land3_zero, div4_add|].
  eapply wp_bind_ok; [done|]. cbn [snd]. rewrite He.
  eapply wp_bind_ok; [unfold rt_assert; rewrite (proj2 (andb_true_iff _ _)); [done|split; [apply Z.leb_le|apply Z.ltb_lt]; lia]|].
  rewrite (proj2 (Z.ltb_ge _ _)), (proj2 (Z.leb_gt _ _)) by lia. cbn [orb].
  apply wp_bind. eapply wp_take; [done|done|done|by exists pre, suf|done|].
  intros k1 h1 Hrun1 Hsem1 (_ & (Si & Sp & Ss) & Hm1).
  destruct (Hm1 r Hmine Hused) as (pre1 & suf1 & p1 & len1 & q1 & HR1 & E1 & Hr1).
  destruct (block_place h1 pre1 suf1 p1 (len1, true) q1 HR1 E1) as (G1 & G2 & G3 & G4 & _). simpl in G2, G3.
  destruct (free_locked_ok h1 p1 q1 len1 pre1 suf1 HR1 E1) as (h' & pre' & suf' & EF & HF).
  replace (u32 (r - 12)) with (hp_ptr h1 + total p1) by (rewrite u32_small by lia; lia).
  eapply wp_bind_ok; [by apply on_heap_ok|]. destruct HF as (HR' & _ & _ & _ & Hs' & Hp' & Hz' & _).
  eapply wp_release; [done|done|by exists pre', suf'|by rewrite Hs', Si|].
  intros k3 h3 Hrun3 Hsem3 (Hinv3 & (Si3 & Sp3 & Ss3) & _).
  do 3 (split; [done|]). split; [|split]; cbn [snd]; congruence.
Qed.
End system.
End MemSpec.
