(* ===== verification/MemHeapOps.v ===== *)
(** * Memory heaps: the operations with their lock

    With the lock free a call runs without a switch and leaves the kernel as it
    was; [MemHeapSpec.v] says what happens to the pool. *)
From S2P Require Import Prelude Kservice Ram RtList KMonad KState KPrim KInv Scheduler Object TimerBase Thread Timer Ipc Mem KernelInv WaitProof TimerProof BlockProof SemProof MemProof MemSpec MemHeap MemHeapProof MemHeapSpec.
Import Kservice Ram Sem SemProof MemProof MemHeap MemHeapProof MemHeapSpec.
Local Open Scope Z_scope.
Local Open Scope kmonad_scope.

Module MemHeapOps.

(** [kview], with the heaps beside it. *)
Abbreviation kms := (kview * mstore)%type.

(** The heap [hp] has the blocks [bs] and the free list [fl], and its lock is free. *)
Record mheap_at (hp : nat) (s : kms) (h : rt_memheap) (bs : list blk) (fl : list Z) : Prop := {
  ma_heap : ms_heaps s.2 !! hp = Some h;
  ma_lock : lock_open s.1 (mh_lock h);
  ma_rep : pool_rep hp h (ms_items s.2) bs fl;
}.

(** What a call leaves alone: other heaps, the headers outside the pool, all data. *)
Record others (hp : nat) (h : rt_memheap) (ms ms' : mstore) : Prop := {
  ot_heaps i : i <> hp -> ms_heaps ms' !! i = ms_heaps ms !! i;
  ot_items : frame (mh_free_list h) (mh_start_addr h) (mh_pool_size h) (ms_items ms) (ms_items ms');
  ot_ram : ms_ram ms' = ms_ram ms;
}.

Lemma on_pool_ok {A} (m : MM A) (k : kview) ms a ms' : m ms = Ok a ms' -> on_pool m (k, ms) = Ok a (k, ms').
Proof. unfold on_pool. simpl. by intros ->. Qed.

Lemma request_size_eq size : request_size size = MemSpec.request size.
Proof.
  unfold request_size, MemSpec.request. change Mem.RT_ALIGN_SIZE with 4. change RT_MEMHEAP_MINIALLOC with 12.
  destruct (Z.ltb_spec (RT_ALIGN size 4) 12); lia.
Qed.

Lemma request_size_range size : 12 <= request_size size < 2 ^ 32 /\ request_size size mod 4 = 0.
Proof.
  rewrite request_size_eq. pose proof (align4_range size). split; [unfold MemSpec.request; lia|apply MemSpec.request_mod].
Qed.

Lemma request_size_ge size : 0 <= size <= 2 ^ 32 - 4 -> size <= request_size size.
Proof.
  intros Hs. rewrite request_size_eq. unfold MemSpec.request. rewrite align4 by lia.
  pose proof (Z.div_mod (size + 3) 4). pose proof (Z.mod_pos_bound (size + 3) 4). lia.
Qed.

(** An aligned size is a request for itself. *)
Lemma request_size_idem size : request_size (request_size size) = request_size size.
Proof.
  destruct (request_size_range size) as [Hr Hm]. rewrite (request_size_eq (request_size size)). unfold MemSpec.request.
  assert (request_size size <= 2 ^ 32 - 4) as Hle.
  { pose proof (Z.div_mod (request_size size) 4). lia. }
  rewrite align4 by lia. replace (request_size size + 3) with (3 + request_size size / 4 * 4)
    by (pose proof (Z.div_mod (request_size size) 4); lia).
  rewrite Z.div_add by lia. pose proof (Z.div_mod (request_size size) 4). change (3 / 4) with 0. lia.
Qed.

Section ops.
Context (hp : nat) (k : kview) (HP : gmap nat rt_memheap) (I : items) (R : ram).
Context (h : rt_memheap) (bs : list blk) (fl : list Z).
Abbreviation St := (Mstore HP I R).
Hypothesis HA : mheap_at hp (k, St) h bs fl.
#[local] Set Default Proof Using "All".

Abbreviation taken := (lock_taken k (mh_lock h)).

Lemma heap_found : HP !! hp = Some h.
Proof. apply (ma_heap _ _ _ _ _ HA). Qed.

Lemma with_lock_ok {A} (failed : A) (body : M kms A) :
  with_lock hp failed body (k, St) = body (taken, St).
Proof.
  unfold with_lock. rewrite (bind_ok _ _ _ _ _ (on_pool_ok _ _ _ _ _ (get_memheap_at _ _ _ _ _ heap_found))).
  rewrite (bind_ok _ _ _ _ _ (kernel_ok _ _ _ _ _ (lock_take _ _ (ma_lock _ _ _ _ _ HA)))). done.
Qed.

Lemma unlock_ok HP' I' R' h' :
  HP' !! hp = Some h' -> mh_lock h' = mh_lock h -> unlock hp (taken, Mstore HP' I' R') = Ok tt (k, Mstore HP' I' R').
Proof.
  intros E El. unfold unlock. rewrite (bind_ok _ _ _ _ _ (on_pool_ok _ _ _ _ _ (get_memheap_at _ _ _ _ _ E))), El.
  rewrite (bind_ok _ _ _ _ _ (kernel_ok _ _ _ _ _ (lock_release _ _ (ma_lock _ _ _ _ _ HA)))). done.
Qed.

(** A call that only runs code under the lock. *)
Lemma locked_call {A B} (failed : B) (m : MM A) (g : A -> B) a h' I' :
  m St = Ok a (Mstore (<[hp := h']> HP) I' R) -> mh_lock h' = mh_lock h ->
  with_lock hp failed (let! r := on_pool m in unlock hp ;! ret (g r)) (k, St) = Ok (g a) (k, Mstore (<[hp := h']> HP) I' R).
Proof.
  intros E El. rewrite with_lock_ok, (bind_ok _ _ _ _ _ (on_pool_ok _ _ _ _ _ E)).
  by rewrite (bind_ok _ _ _ _ _ (unlock_ok _ _ _ h' (lookup_insert_eq _ _ _) El)).
Qed.

Lemma locked_same {A B} (failed : B) (m : MM A) (g : A -> B) a :
  m St = Ok a St -> with_lock hp failed (let! r := on_pool m in unlock hp ;! ret (g r)) (k, St) = Ok (g a) (k, St).
Proof.
  intros E. rewrite with_lock_ok, (bind_ok _ _ _ _ _ (on_pool_ok _ _ _ _ _ E)).
  by rewrite (bind_ok _ _ _ _ _ (unlock_ok _ _ _ h heap_found eq_refl)).
Qed.

(** What a call did, from what it did under the lock. *)
Lemma mheap_after h' I' bs' fl' :
  mh_lock h' = mh_lock h -> pool_rep hp h' I' bs' fl' -> frame (mh_free_list h) (mh_start_addr h) (mh_pool_size h) I I' ->
  mheap_at hp (k, Mstore (<[hp := h']> HP) I' R) h' bs' fl' /\ others hp h St (Mstore (<[hp := h']> HP) I' R).
Proof.
  intros El HR F. split; split; simpl; try done.
  - apply lookup_insert_eq.
  - rewrite El. apply HA.
  - intros i Hi. by apply lookup_insert_ne.
Qed.

(** ** [rt_memheap_alloc] *)
Lemma mheap_alloc_eq raw size :
  let n := request_size size in
  let start := mh_start_addr h in
  ((mh_available_size h <= n \/ Forall (fun y => fits n start bs y = false) fl) /\
    rt_memheap_alloc raw hp size (k, St) = Ok 0 (k, St)) \/
  exists P T A len B ms', let x := start + total A in let h' := counted (taken_bytes n len) h in
    n < mh_available_size h /\ fl = P ++ x :: T /\ Forall (fun y => fits n start bs y = false) P /\
    bs = A ++ (len, false) :: B /\ n + 24 <= len /\
    rt_memheap_alloc raw hp size (k, St) = Ok (x + 24) (k, ms') /\
    mheap_at hp (k, ms') h' (A ++ taken_blocks n len B) (taken_free n len x (P ++ T)) /\ others hp h St ms'.
Proof.
  intros n start. destruct (request_size_range size) as [Hr Hm]. fold n in Hr, Hm. unfold rt_memheap_alloc. fold n. cbv zeta.
  rewrite (bind_ok _ _ _ _ _ (on_pool_ok _ _ _ _ _ (get_memheap_at _ _ _ _ _ heap_found))).
  destruct (Z.ltb_spec n (mh_available_size h)) as [Hlt|Hge]; [|left; by split; [left|]].
  destruct (mh_alloc_locked_ok raw hp h HP R I bs fl n heap_found (ma_rep _ _ _ _ _ HA)) as
    [[HF E]|(P & T & A & len & B & I' & Ef & HF & Eb & Hfit & E & F & HR')]; [lia|done|done|left|right].
  - split; [by right|]. by rewrite (locked_same 0 _ (default 0) _ E).
  - destruct (mheap_after (counted (taken_bytes n len) h) I' _ _ eq_refl HR' F) as [HA' HO].
    exists P, T, A, len, B. eexists. do 5 (split; [done|]). split; [|done].
    by rewrite (locked_call 0 _ (default 0) _ _ _ E eq_refl).
Qed.
End ops.

(** ** [rt_memheap_free] *)
Lemma mheap_free_eq hp k HP I R h A len B fl :
  let x := mh_start_addr h + total A in
  let h' := given (freed_bytes A len B) h in
  mheap_at hp (k, Mstore HP I R) h (A ++ (len, true) :: B) fl ->
  exists ms', rt_memheap_free (x + 24) (k, Mstore HP I R) = Ok tt (k, ms') /\
    mheap_at hp (k, ms') h' (free_blocks A len B) (freed_free x (x + len) A B fl) /\ others hp h (Mstore HP I R) ms'.
Proof.
  intros x h' HA. pose proof (ma_rep _ _ _ _ _ HA) as HR. simpl in HR. pose proof (pr_ok _ _ _ _ _ HR) as HO.
  pose proof (block_bounds _ _ _ _ _ _ _ _ _ _ HO). pose proof (pr_start _ _ _ _ _ HR). pose proof (pr_top _ _ _ _ _ HR).
  destruct (block_hdr _ _ _ _ _ _ _ _ _ _ HO) as (ix & Ex & Em & Ep & En & _).
  destruct (next_hdr _ _ _ _ _ _ _ _ _ _ HO) as (i2 & E2 & Em2). fold x in Ex, En, E2.
  destruct (mh_free_locked_ok hp h HP R I A len B fl (ma_heap _ _ _ _ _ HA) HR) as (I' & E & F & HR').
  destruct (mheap_after hp k HP I R h _ _ HA h' I' _ _ eq_refl HR' F) as [HA' HOt]. eexists. split; [|split; [exact HA'|exact HOt]].
  unfold rt_memheap_free. rewrite (proj2 (Z.eqb_neq _ _)) by (unfold x; lia). cbv zeta. change RT_MEMHEAP_SIZE with 24.
  replace (u32 (x + 24 - 24)) with x by (rewrite u32_small by (unfold x; lia); lia).
  rewrite (bind_ok _ _ _ _ _ (on_pool_ok _ _ _ _ _ (get_item_at _ _ _ _ _ Ex))), Em.
  rewrite !bind_assert by done. rewrite En, (bind_ok _ _ _ _ _ (on_pool_ok _ _ _ _ _ (get_item_at _ _ _ _ _ E2))), Em2.
  rewrite bind_assert by (by destruct (negb (next_free B))). rewrite Ep.
  rewrite (with_lock_ok _ _ _ _ _ _ _ _ HA), (bind_ok _ _ _ _ _ (on_pool_ok _ _ _ _ _ E)).
  by rewrite (unlock_ok _ _ _ _ _ _ _ _ HA _ _ _ h' (lookup_insert_eq _ _ _) eq_refl).
Qed.
End MemHeapOps.
