(* ===== verification/MemHeapMap.v ===== *)
(** * A memory heap as a map of blocks

    The view of the users of a memory heap: a finite map from addresses to
    blocks of bytes, as for the small-memory heap.  [rt_memheap_realloc] is
    described by this map only. *)
From S2P Require Import Prelude Kservice Ram RtList KMonad KState KPrim KInv Scheduler Object TimerBase Thread Timer Ipc Mem KernelInv BlockProof SemProof MemProof BlockMap Allocator MemHeap MemHeapProof MemHeapSpec MemHeapOps.
Import Ram SemProof MemProof BlockMap Allocator MemHeap MemHeapProof MemHeapSpec MemHeapOps.
Local Open Scope Z_scope.
Local Open Scope kmonad_scope.

Module MemHeapMap.

(** The pool of [h] is memory. *)
Record pool_ram (h : rt_memheap) (m : ram) : Prop := {
  pm_mapped : mapped m (mh_start_addr h) (mh_pool_size h);
  pm_bytes : ram_ok m;
  pm_align : mh_start_addr h mod 4 = 0;
}.

Definition mheap_view (hp : nat) (s : kms) (U : gmap Z (list Z)) : Prop :=
  exists h bs fl, mheap_at hp s h bs fl /\ pool_ram h (ms_ram s.2) /\
    U = block_map 24 (ms_ram s.2) (mh_start_addr h) bs.

Lemma block_ok_roomy bs : Forall block_ok bs -> roomy 24 bs.
Proof. intros H. eapply Forall_impl; [exact H|]. intros b [? _]. simpl. lia. Qed.

Lemma rep_roomy hp h I bs fl : pool_rep hp h I bs fl -> roomy 24 bs.
Proof. intros HR. by apply block_ok_roomy, (pr_blocks _ _ _ _ _ HR). Qed.

Lemma total_mod4 bs : Forall block_ok bs -> total bs mod 4 = 0.
Proof.
  induction 1 as [|b bs [_ Hb] H IH]; simpl; [done|]. by rewrite Z.add_mod, Hb, IH by lia.
Qed.

(** An entry is the data of a used block. *)
Lemma mview_entry h m I hp bs fl r l :
  pool_rep hp h I bs fl -> pool_ram h m -> block_map 24 m (mh_start_addr h) bs !! r = Some l ->
  exists A n B, bs = A ++ (n + 24, true) :: B /\ r = mh_start_addr h + total A + 24 /\ 12 <= n /\
    0 <= total A /\ total A + (n + 24) + 24 <= mh_pool_size h /\
    read_bytes m r (Z.to_nat n) = Some l /\ Z.of_nat (length l) = n.
Proof.
  intros HR [Hm _ _] E. pose proof (rep_total _ _ _ _ _ HR).
  destruct (block_map_lookup 24 ltac:(lia) m (mh_start_addr h) bs r l (rep_roomy _ _ _ _ _ HR)) as
    (A & n & B & Eb & Er & Hn & Hle & HA & El & Hl); [eapply mapped_sub; [exact Hm|lia..]|done|].
  exists A, n, B. do 2 (split; [done|]). split; [|by split; [|split; [lia|]]].
  pose proof (pr_blocks _ _ _ _ _ HR) as Hb. rewrite Eb in Hb. apply Forall_app in Hb as [_ [[Hb _] _]%Forall_cons]. simpl in Hb. lia.
Qed.

(** ** Allocation *)
(** The map after a block of [len] bytes was taken for [n]. *)
Lemma taken_map m base A n len B :
  12 <= n -> n + 24 <= len -> mapped m base (total A + len + total B) -> roomy 24 (A ++ (len, false) :: B) ->
  exists l, n <= Z.of_nat (length l) /\
    block_map 24 m base (A ++ taken_blocks n len B) = <[base + total A + 24 := l]> (block_map 24 m base (A ++ (len, false) :: B)) /\
    block_map 24 m base (A ++ (len, false) :: B) !! (base + total A + 24) = None.
Proof.
  intros Hn Hfit Hm HR. rewrite block_map_unused. pose proof HR as [HA [Hl HB]%Forall_cons]%Forall_app. simpl in Hl.
  pose proof (roomy_total 24 ltac:(lia) _ HA). pose proof (roomy_total 24 ltac:(lia) _ HB).
  assert (exists k B', n <= k /\ k + 24 <= len /\ taken_blocks n len B = (k + 24, true) :: B' /\
    roomy 24 (A ++ (k + 24, true) :: B') /\ rest_map 24 m base A (k + 24) B' = rest_map 24 m base A len B) as (k & B' & Hk & Hk2 & -> & HR' & <-).
  { unfold taken_blocks, splits. destruct (Z.leb_spec (n + 60) len).
    - exists n. eexists. split; [lia|]. split; [lia|]. split; [done|]. split; [|apply rest_map_divided].
      apply Forall_app. split; [done|]. constructor; [simpl; lia|]. constructor; [simpl; lia|done].
    - exists (len - 24), B. replace (len - 24 + 24) with len by lia. split; [lia|]. split; [lia|]. split; [done|]. split; [|done].
      apply Forall_app. split; [done|]. by constructor. }
  destruct (read_bytes_ok m (base + total A + 24) (Z.to_nat k)) as (l & El & Hll).
  { eapply mapped_sub; [exact Hm|lia..]. }
  destruct (block_map_used 24 ltac:(lia) m base A k B' l HR' El) as [E1 E2]. exists l. split; [lia|]. by split.
Qed.

Lemma mview_alloc raw hp s U size :
  mheap_view hp s U -> 0 < size <= 2 ^ 32 - 4 ->
  rt_memheap_alloc raw hp size s = Ok 0 s \/
  exists r s' l, rt_memheap_alloc raw hp size s = Ok r s' /\ mheap_view hp s' (<[r := l]> U) /\ U !! r = None /\
    size <= Z.of_nat (length l) /\ r <> 0 /\ r mod 4 = 0.
Proof.
  destruct s as [k [HP I R]]. intros (h & bs & fl & HA & [Hm Hb Hal] & ->) Hs. simpl in *.
  destruct (mheap_alloc_eq hp k HP I R h bs fl HA raw size) as [[_ E]|(P & T & A & len & B & ms' & Hlt & Ef & HF & Eb & Hfit & E & HA' & HO)];
    [by left|right]. pose proof (ma_rep _ _ _ _ _ HA) as HR. simpl in HR. pose proof (request_size_ge size ltac:(lia)).
  destruct (request_size_range size) as [Hrq _]. set (n := request_size size) in *.
  pose proof (rep_total _ _ _ _ _ HR) as Htot. pose proof (rep_roomy _ _ _ _ _ HR) as Hro. rewrite Eb in Htot, Hro.
  rewrite total_app in Htot. simpl in Htot. pose proof (pr_start _ _ _ _ _ HR).
  pose proof (pr_blocks _ _ _ _ _ HR) as Hbk. rewrite Eb in Hbk. apply Forall_app in Hbk as [HbA _].
  pose proof (roomy_total 24 ltac:(lia) _ (block_ok_roomy _ HbA)).
  destruct (taken_map R (mh_start_addr h) A n len B ltac:(lia) Hfit) as (l & Hl & EM & Hno); [eapply mapped_sub; [exact Hm|lia..]|done|].
  exists (mh_start_addr h + total A + 24), (k, ms'), l. rewrite <-Eb in EM, Hno. split; [exact E|]. split; [|split; [exact Hno|split; [lia|split; [lia|]]]].
  - exists (counted (taken_bytes n len) h). do 2 eexists. split; [exact HA'|]. simpl. rewrite (ot_ram _ _ _ _ HO).
    split; [by split|]. by symmetry.
  - rewrite <-Z.add_assoc, Z.add_mod, Hal, (Z.add_mod (total A)), (total_mod4 _ HbA) by lia. done.
Qed.

(** ** Release *)
Lemma mview_free hp s U r l :
  mheap_view hp s U -> U !! r = Some l -> exists s', rt_memheap_free r s = Ok tt s' /\ mheap_view hp s' (delete r U) /\
    ms_ram s'.2 = ms_ram s.2.
Proof.
  destruct s as [k [HP I R]]. intros (h & bs & fl & HA & HM & ->) E. simpl in *.
  pose proof (ma_rep _ _ _ _ _ HA) as HR. simpl in HR.
  destruct (mview_entry _ _ _ _ _ _ _ _ HR HM E) as (A & n & B & -> & -> & Hn & HtA & Htop & El & Hl).
  destruct (mheap_free_eq hp k HP I R h A (n + 24) B fl HA) as (ms' & EF & HA' & HO). exists (k, ms'). split; [exact EF|].
  split; [|apply HO]. exists (given (freed_bytes A (n + 24) B) h). do 2 eexists. split; [exact HA'|]. simpl.
  rewrite (ot_ram _ _ _ _ HO). split; [by destruct HM; split|]. simpl. rewrite block_map_freed.
  destruct (block_map_used 24 ltac:(lia) R (mh_start_addr h) A n B l (rep_roomy _ _ _ _ _ HR) El) as [-> Hno].
  by rewrite delete_insert_id.
Qed.

(** ** Access *)
Lemma mview_read hp s U r l :
  mheap_view hp s U -> U !! r = Some l ->
  read_bytes (ms_ram s.2) r (length l) = Some l /\ Forall byte_ok l /\ 0 < r /\ r + Z.of_nat (length l) <= 2 ^ 32.
Proof.
  intros (h & bs & fl & HA & HM & ->) E. pose proof (ma_rep _ _ _ _ _ HA) as HR.
  destruct (mview_entry _ _ _ _ _ _ _ _ HR HM E) as (A & n & B & -> & -> & Hn & HtA & Htop & El & Hl).
  pose proof (pr_start _ _ _ _ _ HR). pose proof (pr_top _ _ _ _ _ HR).
  replace (length l) with (Z.to_nat n) by lia. split; [done|]. split; [|lia].
  apply read_bytes_lookup in El as [_ El]. apply Forall_lookup. intros i b Hi. apply El in Hi. by apply (pm_bytes _ _ HM) in Hi.
Qed.

Definition set_pool_ram (m : ram) (s : kms) : kms := (s.1, set_ms_ram m s.2).

Lemma mview_write hp s U r l l' :
  mheap_view hp s U -> U !! r = Some l -> length l' = length l -> Forall byte_ok l' ->
  exists m', write_bytes (ms_ram s.2) r l' = Some m' /\ mheap_view hp (set_pool_ram m' s) (<[r := l']> U).
Proof.
  intros (h & bs & fl & HA & HM & ->) E Hl' Hb. pose proof (ma_rep _ _ _ _ _ HA) as HR.
  destruct (mview_entry _ _ _ _ _ _ _ _ HR HM E) as (A & n & B & -> & -> & Hn & HtA & Htop & El & Hl).
  pose proof HM as [Hm Hok Hal].
  destruct (write_bytes_ok (ms_ram s.2) (mh_start_addr h + total A + 24) l') as [m' Ew]; [eapply mapped_sub; [exact Hm|lia..]|].
  exists m'. split; [exact Ew|]. exists h, (A ++ (n + 24, true) :: B), fl. split; [by destruct HA; split|]. simpl. split.
  - split; [by eapply mapped_write|by eapply ram_ok_write|done].
  - symmetry. eapply (block_map_write 24); [lia|by eapply rep_roomy|done|done|lia].
Qed.

Lemma mview_apart hp s U r l r' l' :
  mheap_view hp s U -> U !! r = Some l -> U !! r' = Some l' -> r <> r' ->
  r + Z.of_nat (length l) <= r' \/ r' + Z.of_nat (length l') <= r.
Proof.
  intros (h & bs & fl & HA & HM & ->) E E' Hne. pose proof (ma_rep _ _ _ _ _ HA) as HR.
  destruct (mview_entry _ _ _ _ _ _ _ _ HR HM E) as (A & n & B & EL & -> & Hn & _ & _ & _ & Hl).
  destruct (mview_entry _ _ _ _ _ _ _ _ HR HM E') as (A' & n' & B' & EL' & -> & Hn' & _ & _ & _ & Hl').
  pose proof (rep_roomy _ _ _ _ _ HR) as Hro. rewrite EL in Hro, EL'.
  destruct (roomy_apart 24 ltac:(lia) _ _ _ _ _ _ _ _ Hro EL') as [(-> & _)|[H|H]]; [done|lia|lia].
Qed.

Lemma mview_bytes hp s U : mheap_view hp s U -> ram_ok (ms_ram s.2).
Proof. intros (h & bs & fl & _ & HM & _). apply HM. Qed.

(** A memory heap keeps the contract of an allocator. *)
#[export] Instance memheap_allocator raw hp :
  Allocator (rt_memheap_alloc raw hp) rt_memheap_free (fun s : kms => ms_ram s.2) set_pool_ram (mheap_view hp).
Proof.
  split.
  - intros s U size HV Hs. apply mview_alloc; [done|lia].
  - intros s U r l HV E. destruct (mview_free hp s U r l HV E) as (s' & E1 & E2 & _). eauto.
  - intros s U r l. apply mview_read.
  - intros s U r l l'. apply mview_write.
  - intros s U r l r' l'. apply mview_apart.
  - intros s U. apply mview_bytes.
Qed.

(** ** [rt_memheap_realloc] *)
Section realloc.
Context (raw : rt_memheap_item) (hp : nat) (k : kview) (HP : gmap nat rt_memheap) (I : items) (R : ram).
Context (h : rt_memheap) (A B : list blk) (m : Z) (fl : list Z) (newsize : Z) (l : list Z).
Abbreviation St := (Mstore HP I R).
Abbreviation x := (mh_start_addr h + total A).
Abbreviation p := (x + 24).
Abbreviation U := (block_map 24 R (mh_start_addr h) (A ++ (m + 24, true) :: B)).
Abbreviation n := (request_size newsize).
Hypothesis HA : mheap_at hp (k, St) h (A ++ (m + 24, true) :: B) fl.
Hypothesis HM : pool_ram h R.
Hypothesis El : read_bytes R p (Z.to_nat m) = Some l.
Hypothesis Hnew : 0 < newsize <= 2 ^ 32 - 4.
Hypothesis Hmax : n + 12 < 2 ^ 32.
#[local] Set Default Proof Using "All".

Definition realloc_copy : M kms Z :=
  let! new_ptr := rt_memheap_alloc raw hp n in
  (if negb (new_ptr =? 0) then
     on_pool (fun s => match rt_memcpy s.(ms_ram) new_ptr p (if m <? n then m else n) with
       | Some r => Ok tt (set_ms_ram r s) | None => Err Bad_pointer end) ;!
     rt_memheap_free p
   else ret tt) ;!
  ret new_ptr.

Lemma realloc_facts :
  pool_rep hp h I (A ++ (m + 24, true) :: B) fl /\ roomy 24 (A ++ (m + 24, true) :: B) /\ 12 <= m /\ 0 <= total A /\
  0 <= total B /\ total A + m + 24 + total B + 24 = mh_pool_size h /\ 0 < mh_start_addr h /\
  mh_start_addr h + mh_pool_size h <= 2 ^ 32 /\ Z.of_nat (length l) = m.
Proof.
  pose proof (ma_rep _ _ _ _ _ HA) as HR. simpl in HR. pose proof (resize_bounds raw hp h HP R I A B (m + 24) fl 0
    (ma_heap _ _ _ _ _ HA) HR eq_refl). split; [done|]. split; [by eapply rep_roomy|].
  apply read_bytes_lookup in El as [Hl _]. lia.
Qed.

(** The header of the block, and the three ways the call can go. *)
Lemma realloc_ways :
  rt_memheap_realloc raw hp p newsize (k, St) =
  (if m <? n then
     let! expanded := with_lock hp None (
       let! e := on_pool (realloc_expand raw hp p x m n) in unlock hp ;! ret (Some e)) in
     match expanded with
     | None => ret 0
     | Some true => ret p
     | Some false => realloc_copy
     end
   else if m <=? n + 36 then ret p
   else with_lock hp 0 (on_pool (realloc_shrink raw hp x n) ;! unlock hp ;! ret p)) (k, St).
Proof.
  destruct realloc_facts as (HR & _ & Hm & HtA & HtB & Htot & Hs & Ht & _).
  destruct (block_hdr _ _ _ _ _ _ _ _ _ _ (pr_ok _ _ _ _ _ HR)) as (ix & Ex & _ & _ & En & _).
  unfold rt_memheap_realloc. rewrite (proj2 (Z.eqb_neq newsize 0)), (proj2 (Z.eqb_neq p 0)) by lia. cbv zeta.
  change RT_MEMHEAP_SIZE with 24. change RT_MEMHEAP_MINIALLOC with 12. rewrite (u32_small (x + 24 - 24)) by lia.
  replace (x + 24 - 24) with x by lia.
  rewrite (bind_ok _ _ _ _ _ (on_pool_ok _ _ _ _ _ (memitem_size_at _ _ _ _ _ Ex))), En, u32_small by lia.
  replace (x + (m + 24) - x - 24) with m by lia. destruct (request_size_range newsize) as [Hr _].
  unfold realloc_copy. destruct (Z.ltb_spec m n); [done|]. rewrite u32_small by lia.
  by replace (n + 24 + 12) with (n + 36) by lia.
Qed.

(** What the caller gets: the data as far as it fits, and all other blocks. *)
Definition reallocated (r : Z) (s' : kms) : Prop :=
  exists l', mheap_view hp s' (<[r := l']> (delete p U)) /\ (r = p \/ U !! r = None) /\ n <= Z.of_nat (length l') /\
    (l `prefix_of` l' \/ l' `prefix_of` l).

Lemma realloc_map : U = <[p := l]> (rest_map 24 R (mh_start_addr h) A (m + 24) B) /\
  delete p U = rest_map 24 R (mh_start_addr h) A (m + 24) B.
Proof.
  destruct realloc_facts as (_ & Hro & _). destruct (block_map_used 24 ltac:(lia) R (mh_start_addr h) A m B l Hro El) as [E Hno].
  split; [done|]. by rewrite E, delete_insert_id.
Qed.

(** The bytes of a resized block that stays where it is. *)
Lemma resized_map A' len B' (j : Z) :
  A' = A -> roomy 24 (A ++ (j + 24, true) :: B') -> 0 < j -> total A + j + 48 <= mh_pool_size h ->
  rest_map 24 R (mh_start_addr h) A (j + 24) B' = rest_map 24 R (mh_start_addr h) A (m + 24) B ->
  len = j + 24 ->
  exists l', block_map 24 R (mh_start_addr h) (A' ++ (len, true) :: B') = <[p := l']> (delete p U) /\
    Z.of_nat (length l') = j /\ (l `prefix_of` l' \/ l' `prefix_of` l).
Proof.
  intros -> Hro Hj Hle Erest ->. destruct realloc_facts as (_ & _ & Hm & HtA & _ & _ & _ & _ & Hl).
  destruct (read_bytes_ok R p (Z.to_nat j)) as (l' & El' & Hl'); [eapply mapped_sub; [apply (pm_mapped _ _ HM)|lia..]|].
  destruct (block_map_used 24 ltac:(lia) R (mh_start_addr h) A j B' l' Hro El') as [E _].
  destruct realloc_map as [_ ->]. exists l'. rewrite E, Erest. split; [done|]. split; [lia|].
  assert (forall a b, read_bytes R p (length a) = Some a -> read_bytes R p (length b) = Some b -> (length a <= length b)%nat ->
    a `prefix_of` b) as Hpre.
  { intros a b Ha Hb Hab. exists (drop (length a) b). rewrite <-(take_drop (length a) b) at 1. f_equal.
    rewrite <-(take_drop (length a) b) in Hb. apply read_app in Hb as [Hb _].
    rewrite length_take, Nat.min_l in Hb by lia. rewrite Ha in Hb. by injection Hb as <-. }
  replace (Z.to_nat j) with (length l') in El' by lia. pose proof El as El2. replace (Z.to_nat m) with (length l) in El2 by lia.
  destruct (decide (length l <= length l')%nat); [left|right]; apply Hpre; done || lia.
Qed.

(** The block is left as it is. *)
Lemma realloc_keep :
  n <= m -> m <= n + 36 -> rt_memheap_realloc raw hp p newsize (k, St) = Ok p (k, St) /\ reallocated p (k, St).
Proof.
  intros H1 H2. rewrite realloc_ways, (proj2 (Z.ltb_ge _ _)), (proj2 (Z.leb_le _ _)) by lia. split; [done|].
  destruct realloc_facts as (_ & _ & _ & _ & _ & _ & _ & _ & Hl). destruct realloc_map as [E1 E2].
  exists l. split; [|split; [by left|split; [lia|by left]]]. rewrite E2, <-E1. exists h. do 2 eexists. split; [exact HA|done].
Qed.

(** The block is cut. *)
Lemma realloc_cut :
  n + 36 < m -> exists s', rt_memheap_realloc raw hp p newsize (k, St) = Ok p s' /\ reallocated p s'.
Proof.
  intros Hlt. destruct realloc_facts as (HR & Hro & Hm & HtA & HtB & Htot & _). destruct (request_size_range newsize) as [Hr Hmod].
  destruct (shrink_locked_ok raw hp h HP R I A B (m + 24) fl n (ma_heap _ _ _ _ _ HA) HR Hmod) as (I' & fl' & E & F & HR'); [lia|lia|].
  rewrite realloc_ways, (proj2 (Z.ltb_ge _ _)), (proj2 (Z.leb_gt _ _)) by lia.
  rewrite (locked_call hp k HP I R h _ fl HA 0 _ (fun _ => p) _ _ _ E eq_refl). eexists. split; [reflexivity|].
  destruct (mheap_after hp k HP I R h _ fl HA (given _ h) I' _ _ eq_refl HR' F) as [HA' HO].
  destruct (resized_map A (n + 24) ((m + 24 - (n + 24), false) :: B) n eq_refl) as (l' & EM & Hl' & Hpre); [|lia|lia| |done|].
  { apply Forall_app in Hro as [HrA [_ HrB]%Forall_cons]. apply Forall_app. split; [done|].
    constructor; [simpl; lia|]. constructor; [simpl; lia|done]. }
  { apply rest_map_divided. }
  exists l'. split; [|split; [by left|split; [lia|done]]]. eexists. do 2 eexists. split; [exact HA'|]. simpl.
  split; [by destruct HM; split|]. rewrite <-EM, block_map_freed, <-block_map_unused. by rewrite <-app_assoc.
Qed.

(** The block grows into the free one behind it, or does not. *)
Lemma realloc_grow :
  m < n ->
  (exists s', rt_memheap_realloc raw hp p newsize (k, St) = Ok p s' /\ reallocated p s') \/
  rt_memheap_realloc raw hp p newsize (k, St) = realloc_copy (k, St).
Proof.
  intros Hlt. destruct realloc_facts as (HR & Hro & Hm & HtA & HtB & Htot & _). destruct (request_size_range newsize) as [Hr Hmod].
  rewrite realloc_ways, (proj2 (Z.ltb_lt _ _)) by lia.
  assert (m + 24 - 24 = m) as Em by lia.
  destruct (next_free B) eqn:Enf.
  2:{ right. pose proof (expand_used raw hp h HP R I A B (m + 24) fl n (ma_heap _ _ _ _ _ HA) HR Hmod Enf) as E.
      rewrite Em in E. by rewrite (bind_ok _ _ _ _ _ (locked_same hp k HP I R h _ fl HA None _ Some _ E)). }
  assert (exists l2 B', B = (l2, false) :: B') as (l2 & B' & EB) by (clear - Enf; destruct B as [|[? []] ?]; try done; eauto).
  pose proof (expand_free raw hp h HP R I A B (m + 24) fl n (ma_heap _ _ _ _ _ HA) HR Hmod l2 B' EB ltac:(lia) Hmax) as HE.
  rewrite Em in HE.
  destruct (grows (m + 24) l2 n) eqn:Eg.
  2:{ right. by rewrite (bind_ok _ _ _ _ _ (locked_same hp k HP I R h _ fl HA None _ Some _ HE)). }
  left. destruct HE as (I' & E & F & HR'). apply Z.ltb_lt in Eg.
  rewrite (bind_ok _ _ _ _ _ (locked_call hp k HP I R h _ fl HA None _ Some _ _ _ E eq_refl)).
  eexists. split; [reflexivity|].
  destruct (mheap_after hp k HP I R h _ fl HA (counted _ h) I' _ _ eq_refl HR' F) as [HA' HO].
  rewrite EB in Hro, HtB, Htot. apply Forall_app in Hro as [HrA [_ [_ HrB]%Forall_cons]%Forall_cons]. pose proof (roomy_total 24 ltac:(lia) _ HrB).
  simpl in Htot.
  destruct (resized_map A (n + 24) ((m + 24 + l2 - (n + 24), false) :: B') n eq_refl) as (l' & EM & Hl' & Hpre); [|lia|lia| |done|].
  { apply Forall_app. split; [done|]. constructor; [simpl; lia|]. constructor; [simpl; lia|done]. }
  { rewrite rest_map_divided, EB. unfold rest_map. simpl. by rewrite Z.add_assoc. }
  exists l'. split; [|split; [by left|split; [lia|done]]]. eexists. do 2 eexists. split; [exact HA'|]. simpl.
  split; [by destruct HM; split|]. by rewrite EM.
Qed.

(** The data is moved to a new block. *)
Lemma mrealloc_move :
  m < n ->
  realloc_copy (k, St) = Ok 0 (k, St) \/ exists r s', realloc_copy (k, St) = Ok r s' /\ r <> 0 /\ reallocated r s'.
Proof.
  intros Hlt. destruct realloc_facts as (_ & _ & Hm & _ & _ & _ & _ & _ & Hl). destruct realloc_map as [EU _].
  assert (mheap_view hp (k, St) U) as HV by (exists h; do 2 eexists; split; [exact HA|done]).
  assert (U !! p = Some l) as Ep by (rewrite EU; apply lookup_insert_eq).
  unfold realloc_copy. rewrite (proj2 (Z.ltb_lt _ _) Hlt).
  destruct (mview_alloc raw hp (k, St) U n HV) as [E|(r & s1 & lr & E & HV1 & Hno & Hlr & Hr0 & _)]; [destruct (request_size_range newsize); lia|left|right].
  { by rewrite (bind_ok _ _ _ _ _ E). }
  assert (p <> r) as Hpr by (intros E'; rewrite <-E', Ep in Hno; done).
  assert (<[r := lr]> U !! p = Some l) as Ep1 by (by rewrite lookup_insert_ne).
  destruct (memcpy_view (rt_memheap_alloc raw hp) rt_memheap_free (fun s : kms => ms_ram s.2) set_pool_ram (mheap_view hp)
    s1 _ p l r lr (length l) HV1 Ep1 (lookup_insert_eq _ _ _) Hpr) as (m' & EC & HV2); [lia|lia|].
  rewrite insert_insert_eq, take_ge, Hl in * by lia. set (l' := l ++ drop (length l) lr) in *.
  destruct (mview_free hp (set_pool_ram m' s1) _ p l HV2) as (s2 & EF & HV3 & _); [by rewrite lookup_insert_ne|].
  exists r, s2. rewrite (bind_ok _ _ _ _ _ E), (proj2 (Z.eqb_neq _ _) Hr0). change (negb false) with true. cbv iota.
  split; [|split; [done|]].
  - rewrite (bind_ok _ _ _ tt s2); [done|]. rewrite (bind_ok _ _ _ tt (set_pool_ram m' s1)); [exact EF|].
    unfold on_pool. by rewrite EC.
  - exists l'. split; [by rewrite delete_insert_ne in HV3 by done|]. split; [by right|]. split; [|left; by eexists].
    unfold l'. rewrite length_app, length_drop. lia.
Qed.
End realloc.

Lemma mview_realloc raw hp s U p l newsize :
  mheap_view hp s U -> U !! p = Some l -> 0 < newsize -> request_size newsize + 12 < 2 ^ 32 -> newsize <= 2 ^ 32 - 4 ->
  rt_memheap_realloc raw hp p newsize s = Ok 0 s \/
  exists r s' l', rt_memheap_realloc raw hp p newsize s = Ok r s' /\ r <> 0 /\
    mheap_view hp s' (<[r := l']> (delete p U)) /\ (r = p \/ U !! r = None) /\
    newsize <= Z.of_nat (length l') /\ (l `prefix_of` l' \/ l' `prefix_of` l).
Proof.
  destruct s as [k [HP I R]]. intros (h & bs & fl & HA & HM & ->) E H1 H2 H3. simpl in *.
  pose proof (ma_rep _ _ _ _ _ HA) as HR. simpl in HR.
  destruct (mview_entry _ _ _ _ _ _ _ _ HR HM E) as (A & m & B & -> & -> & Hm & HtA & Htop & El & Hl).
  pose proof (pr_start _ _ _ _ _ HR). pose proof (request_size_ge newsize ltac:(lia)) as Hge.
  assert (0 < newsize <= 2 ^ 32 - 4) as Hn by lia.
  assert (forall r s', r <> 0 -> rt_memheap_realloc raw hp (mh_start_addr h + total A + 24) newsize (k, Mstore HP I R) = Ok r s' ->
    reallocated hp R h A B m newsize l r s' -> exists r s' l',
    rt_memheap_realloc raw hp (mh_start_addr h + total A + 24) newsize (k, Mstore HP I R) = Ok r s' /\ r <> 0 /\
    mheap_view hp s' (<[r := l']> (delete (mh_start_addr h + total A + 24) (block_map 24 R (mh_start_addr h) (A ++ (m + 24, true) :: B)))) /\
    (r = mh_start_addr h + total A + 24 \/ block_map 24 R (mh_start_addr h) (A ++ (m + 24, true) :: B) !! r = None) /\
    newsize <= Z.of_nat (length l') /\ (l `prefix_of` l' \/ l' `prefix_of` l)) as Hfin.
  { intros r s' Hr Er (l' & HV & Hw & Hlen & Hpre). exists r, s', l'. do 4 (split; [done|]). split; [lia|done]. }
  destruct (Z.lt_ge_cases m (request_size newsize)) as [Hlt|Hle].
  - destruct (realloc_grow raw hp k HP I R h A B m fl newsize l HA HM El Hn H2 Hlt) as [(s' & E' & HR')|E'].
    + right. eapply Hfin; [|exact E'|exact HR']; lia.
    + destruct (mrealloc_move raw hp k HP I R h A B m fl newsize l HA HM El Hn H2 Hlt) as [E2|(r & s' & E2 & Hr & HR')].
      * left. by rewrite E'.
      * right. eapply Hfin; [exact Hr|by rewrite E'|exact HR'].
  - right. destruct (Z.le_gt_cases m (request_size newsize + 36)) as [Hk|Hk].
    + destruct (realloc_keep raw hp k HP I R h A B m fl newsize l HA HM El Hn H2 Hle Hk) as [E' HR']. eapply Hfin; [|exact E'|exact HR']; lia.
    + destruct (realloc_cut raw hp k HP I R h A B m fl newsize l HA HM El Hn H2) as (s' & E' & HR'); [lia|].
      eapply Hfin; [|exact E'|exact HR']; lia.
Qed.
End MemHeapMap.
