(* ===== verification/MemTheorems.v ===== *)
(** * The small-memory heap: the properties *)
From S2P Require Import Prelude Kservice Ram RtList KMonad KState KPrim KInv Scheduler Object TimerBase Thread Timer Ipc Mem KernelInv WaitProof TimerProof BlockProof Board SemProof SemTheorems MemProof MemSpec.
Import Scheduler Ram Mem Sem SemProof SemTheorems MemProof MemSpec.
Local Open Scope Z_scope.
Local Open Scope kmonad_scope.

Module MemTheorems.

(** ** Deciding the invariant on concrete heaps *)
Definition load_b (n : nat) (m : ram) (a v : Z) : bool := bool_decide (load n m a = Some v).

Definition hdr_b (m : ram) (a : Z) (x : hmem) : bool :=
  load_b 2 m a (m_magic x) && load_b 2 m (a + 2) (m_used x) &&
  load_b 4 m (a + 4) (m_next x) && load_b 4 m (a + 8) (m_prev x).

Lemma hdr_b_sound m a x : hdr_b m a x = true -> hdr m a x.
Proof.
  unfold hdr_b, load_b. intros [[[H1 H2]%andb_true_iff H3]%andb_true_iff H4]%andb_true_iff.
  apply bool_decide_eq_true in H1, H2, H3, H4. by split.
Qed.

Fixpoint blocks_b (m : ram) (base off prev : Z) (bs : list blk) : bool :=
  match bs with
  | [] => true
  | b :: bs => (16 <=? b.1) && (b.1 mod 4 =? 0) &&
      hdr_b m (base + off) (Hmem HEAP_MAGIC (Z.b2z b.2) (off + b.1) prev) && blocks_b m base (off + b.1) off bs
  end.

Lemma blocks_b_sound m base bs : forall off prev, blocks_b m base off prev bs = true -> blocks_at m base off prev bs.
Proof.
  induction bs as [|b bs IH]; intros off prev; simpl; [done|].
  intros [[[H1%Z.leb_le H2%Z.eqb_eq]%andb_true_iff H3%hdr_b_sound]%andb_true_iff H4]%andb_true_iff. auto.
Qed.

Fixpoint merged_b (bs : list blk) : bool :=
  match bs with
  | [] => true
  | b :: bs' => match bs' with b' :: _ => b.2 || b'.2 | [] => true end && merged_b bs'
  end.

Lemma merged_b_sound bs : merged_b bs = true -> merged bs.
Proof.
  induction bs as [|b bs IH]; simpl; [done|]. intros [H1 H2]%andb_true_iff. split; [|auto].
  destruct bs; [done|]. by apply orb_true_iff in H1.
Qed.

(** The previous offset stored in the end marker is arbitrary. *)
Definition end_b (m : ram) (base off : Z) : bool :=
  match load 4 m (base + off + 8) with
  | Some p => hdr_b m (base + off) (Hmem HEAP_MAGIC 1 off p)
  | None => false
  end.

Definition rep_b (h : heap) (pre suf : list blk) : bool :=
  blocks_b (hp_ram h) (hp_ptr h) 0 0 (pre ++ suf) && end_b (hp_ram h) (hp_ptr h) (total (pre ++ suf)) &&
  (total (pre ++ suf) =? hp_size h + 12) && (12 <=? hp_size h) && (hp_ptr h mod 4 =? 0) && (0 <? hp_ptr h) &&
  (hp_ptr h + hp_size h + 24 <=? 2 ^ 32) && (hp_end h =? hp_ptr h + hp_size h + 12) &&
  (hp_lfree h =? hp_ptr h + total pre) && match suf with [] => true | b :: _ => negb b.2 end &&
  merged_b (pre ++ suf) &&
  forallb (fun x => bool_decide (is_Some (hp_ram h !! x))) (seqZ (hp_ptr h) (hp_size h + 24)) &&
  ram_ok_b (hp_ram h) &&
  (hp_used h =? used_total (pre ++ suf)).

Lemma rep_b_sound h pre suf : rep_b h pre suf = true -> heap_rep h pre suf.
Proof.
  unfold rep_b. intros H. repeat (apply andb_true_iff in H as [H ?]).
  repeat match goal with
  | H : (_ =? _) = true |- _ => apply Z.eqb_eq in H
  | H : (_ <=? _) = true |- _ => apply Z.leb_le in H
  | H : (_ <? _) = true |- _ => apply Z.ltb_lt in H
  end. split; try done.
  - split; [by apply blocks_b_sound|]. unfold end_b in *. rewrite Z.add_0_l, Z.add_0_r in *.
    destruct (load 4 _ (_ + 8)) as [p|]; [|done]. exists p. by apply hdr_b_sound.
  - destruct suf as [|[l []] suf]; done.
  - by apply merged_b_sound.
  - intros x Hx. match goal with H : forallb _ (seqZ _ _) = true |- _ => rewrite forallb_forall in H;
      eapply bool_decide_eq_true, H, list_elem_of_In, elem_of_seqZ end. lia.
  - by apply ram_ok_b_sound.
Qed.

(** ** A heap on the board *)
Definition blank_heap : heap :=
  Heap (list_to_map ((fun a => (a, 7)) <$> seqZ 0x20010000 256)) 1 0 0 0 0 0 0.

Definition run {A} (f : M khs A) (s : khs) : khs := default s (first_state (f s)).

(** 216 bytes of memory, one free block of 228 with its header. *)
Definition heap0 : khs := run (rt_system_heap_init 0x20010001 0x200100f6) (Board.board, blank_heap).
(** Three blocks are allocated and the second one is freed: 20 bytes, a hole of
    40 bytes, 12 bytes, and the rest. *)
Definition heap1 : khs :=
  run (rt_malloc 20 ;! (let! r := rt_malloc 38 in rt_malloc 8 ;! rt_free r)) heap0.
(** All memory allocated: a block of 100 bytes and one of 104. *)
Definition heap_full : khs := run (rt_malloc 100 ;! rt_malloc 88) heap0.

Example heap0_rep : rep_b heap0.2 [] [(228, false)] = true.
Proof. vm_compute. reflexivity. Qed.
Example heap1_rep : rep_b heap1.2 [(32, true)] [(52, false); (24, true); (120, false)] = true.
Proof. vm_compute. reflexivity. Qed.
Example heapfull_rep : rep_b heap_full.2 [(112, true); (116, true)] [] = true.
Proof. vm_compute. reflexivity. Qed.

Definition open_b (s : khs) : bool :=
  bool_decide (k_pendsv s.1 = None) && (k_irq_nest s.1 =? 0) && Board.sched_b s.1 &&
  sem_b (hp_sem s.2) s.1 [] && (sem_value (sem_of s.1 (hp_sem s.2)) =? 1).

Lemma open_b_sound s : open_b s = true -> heap_open s.1 s.2.
Proof.
  unfold open_b. intros [[[[H1%bool_decide_eq_true H2%Z.eqb_eq]%andb_true_iff H3]%andb_true_iff H4]%andb_true_iff H5%Z.eqb_eq]%andb_true_iff.
  split; [by intros _ _|done|by apply (si_links _ _ (Board.sched_b_sound _ H3))|].
  eexists. split; [by apply sem_b_sound|done].
Qed.

Lemma heap0_open : open_b heap0 = true.
Proof. vm_compute. reflexivity. Qed.
Lemma heap1_open : open_b heap1 = true.
Proof. vm_compute. reflexivity. Qed.
Lemma heapfull_open : open_b heap_full = true.
Proof. vm_compute. reflexivity. Qed.

#[global] Opaque heap0 heap1 heap_full.

(** ** Allocation *)

(** What [rt_malloc] does when no other thread uses the heap.  The request
    is rounded up to a multiple of four, and to twelve bytes at least.  A
    request larger than the heap gets nothing.  Otherwise the first block from
    [lfree] on that is free and large enough is taken, whole or split when the
    rest can hold another block; the data of all used blocks is unchanged, the
    heap stays well-formed, [lfree] stays the lowest free block if it was, and
    the kernel state is as before.  The result is null only when every free
    block from [lfree] on is too small, or is the last block and fits exactly. *)
Theorem malloc_first_fit k h pre suf size :
  heap_open k h -> heap_rep h pre suf -> 0 < size < 2 ^ 32 ->
  if hp_size h <? RT_ALIGN size 4 then rt_malloc size (k, h) = Ok 0 (k, h)
  else
    (exists p len q h' pre' suf',
      find_fit (hp_size h) (request size) (total pre) suf = Some (p, len, q) /\
      suf = p ++ (len, false) :: q /\ request size + 12 <= len /\
      rt_malloc size (k, h) = Ok (hp_ptr h + total (pre ++ p) + 12) (k, h') /\
      allocated h pre p q len (request size) h' pre' suf') \/
    (rt_malloc size (k, h) = Ok 0 (k, h) /\
     forall p len q, suf = p ++ (len, false) :: q ->
       len < request size + 12 \/ (q = [] /\ len = request size + 12)).
Proof.
  intros Ho HR Hs. destruct (Z.ltb_spec (hp_size h) (RT_ALIGN size 4)) as [Hb|Hb]; [by apply malloc_too_big|].
  pose proof (malloc_eq k h pre suf size Ho HR ltac:(lia) Hb) as HM.
  destruct (find_fit _ _ _ suf) as [[[p len] q]|] eqn:E; [left|right].
  - destruct HM as (h' & pre' & suf' & EM & HA). exists p, len, q, h', pre', suf'.
    destruct (find_fit_spec _ _ _ _ _ _ _ E) as [-> Hl]. done.
  - split; [exact HM|]. pose proof HR as [[HB _] Htot _ _ _ _ _ _ _ _ _ _ _].
    apply blocks_at_app in HB as [_ HB]. rewrite total_app in Htot. rewrite Z.add_0_l in HB.
    by apply (find_fit_none _ _ _ _ _ _ _ HB Htot).
Qed.

(** 38 bytes from the heap with a hole of 40 bytes: the hole is taken whole. *)
Example malloc_first_fit_witness :
  exists p len q h' pre' suf',
    find_fit (hp_size heap1.2) (request 38) (total [(32, true)]) [(52, false); (24, true); (120, false)] = Some (p, len, q) /\
    rt_malloc 38 (heap1.1, heap1.2) = Ok (hp_ptr heap1.2 + total ([(32, true)] ++ p) + 12) (heap1.1, h') /\
    heap_rep h' pre' suf'.
Proof.
  pose proof (malloc_first_fit heap1.1 heap1.2 [(32, true)] [(52, false); (24, true); (120, false)] 38
    (open_b_sound _ heap1_open) (rep_b_sound _ _ _ heap1_rep) ltac:(lia)) as H.
  replace (hp_size heap1.2 <? RT_ALIGN 38 4) with false in H by (symmetry; vm_compute; reflexivity).
  destruct H as [(p & len & q & h' & pre' & suf' & H1 & _ & _ & H2 & H3 & _)|[_ H]].
  - exists p, len, q, h', pre', suf'. auto.
  - exfalso. destruct (H [] 52 [(24, true); (120, false)] eq_refl) as [Hc|[Hc _]]; [|discriminate].
    revert Hc. vm_compute. discriminate.
Defined.

(** C6: what [rt_free] does with the address of a used block, when no other
    thread uses the heap.  The block becomes free and is merged with a free
    block behind it and a free block before it, so that no two neighbours are
    free; the data of the other blocks is unchanged, the heap stays
    well-formed, [lfree] stays the lowest free block if it was, and the kernel
    state is as before. *)
Theorem free_coalesces k h pre suf p len q :
  heap_open k h -> heap_rep h pre suf -> pre ++ suf = p ++ (len, true) :: q ->
  exists h' pre' suf', rt_free (hp_ptr h + total p + 12) (k, h) = Ok tt (k, h') /\
    freed h p q len pre h' pre' suf'.
Proof. apply free_eq. Qed.

(** The block behind the hole is freed: hole, block and rest become one. *)
Example free_coalesces_witness :
  exists h' pre' suf', rt_free (hp_ptr heap1.2 + 84 + 12) (heap1.1, heap1.2) = Ok tt (heap1.1, h') /\
    heap_rep h' pre' suf' /\ pre' ++ suf' = [(32, true); (196, false)].
Proof.
  destruct (free_coalesces heap1.1 heap1.2 [(32, true)] [(52, false); (24, true); (120, false)]
    [(32, true); (52, false)] 24 [(120, false)] (open_b_sound _ heap1_open) (rep_b_sound _ _ _ heap1_rep) eq_refl)
    as (h' & pre' & suf' & E & HR & L & _).
  exists h', pre', suf'. auto.
Defined.

Lemma free_alloc_blocks P size len q :
  merged (P ++ (len, false) :: q) ->
  exists R, alloc_blocks size len q = (alloc_len size len, true) :: R /\
    free_blocks P (alloc_len size len) R = P ++ (len, false) :: q.
Proof.
  intros H. apply merged_app in H as [H1 [H2 _]].
  assert (bwd_rest P = P /\ forall n, bwd_len P n = n) as [Eb El].
  { destruct (bwd_cases P) as [(_ & Eb & El & _)|(P' & l & -> & _)]; [done|].
    rewrite <-app_assoc in H1. by apply merged_app_r in H1 as [[?|?] _]. }
  unfold alloc_blocks, alloc_len, free_blocks. destruct (size + 36 <=? len).
  - eexists. split; [done|]. rewrite Eb, El. simpl. do 3 f_equal. lia.
  - eexists. split; [done|]. rewrite Eb, El. simpl in H2. destruct q as [|[l []] q]; [done..|]. by destruct H2.
Qed.

(** The block list determines where the lowest free block is. *)
Lemma lowest_unique (pre suf pre' suf' : list blk) :
  pre ++ suf = pre' ++ suf' -> lowest pre -> lowest pre' ->
  match suf with [] => True | b :: _ => b.2 = false end ->
  match suf' with [] => True | b :: _ => b.2 = false end -> pre = pre'.
Proof.
  intros E Hl Hl' Hh Hh'. apply app_eq_inv in E as [(x & -> & E)|(x & -> & E)];
    (destruct x as [|b x]; [by rewrite app_nil_r|]); unfold lowest in *; rewrite Forall_app, Forall_cons in *.
  - rewrite E in Hh'. simpl in Hh'. destruct Hl as (_ & Hb & _). congruence.
  - rewrite E in Hh. simpl in Hh. destruct Hl' as (_ & Hb & _). congruence.
Qed.

(** Freeing what was just allocated restores the heap.  After [rt_malloc]
    has returned a block, [rt_free] of it leaves the same list of blocks and the
    same count of used bytes, and, if [lfree] was the lowest free block, the
    same [lfree]. *)
Theorem malloc_free_roundtrip k h pre suf size r h1 :
  heap_open k h -> heap_rep h pre suf -> 0 < size < 2 ^ 32 -> lowest pre ->
  rt_malloc size (k, h) = Ok r (k, h1) -> r <> 0 ->
  exists h2, rt_free r (k, h1) = Ok tt (k, h2) /\ heap_rep h2 pre suf /\
    hp_used h2 = hp_used h /\ hp_lfree h2 = hp_lfree h.
Proof.
  intros Ho HR Hs Hlow EM Hr. destruct (Z.ltb_spec (hp_size h) (RT_ALIGN size 4)) as [Hb|Hb].
  { rewrite malloc_too_big in EM by done. by injection EM as <- _. }
  pose proof (malloc_eq k h pre suf size Ho HR ltac:(lia) Hb) as HM.
  destruct (find_fit _ _ _ suf) as [[[p len] q]|] eqn:E; [|rewrite EM in HM; by injection HM as -> _].
  destruct HM as (h' & pre' & suf' & EM' & HR' & L & _ & Hl & Hs' & Hp' & _).
  rewrite EM in EM'. injection EM' as -> ->. apply find_fit_spec in E as [Esuf _].
  assert (pre ++ suf = (pre ++ p) ++ (len, false) :: q) as EL by (rewrite Esuf; by rewrite app_assoc).
  pose proof (hr_merged _ _ _ HR) as Hm. rewrite EL in Hm.
  destruct (free_alloc_blocks _ (request size) _ _ Hm) as (R & ER & EF). rewrite ER in L.
  destruct (free_eq k h' pre' suf' (pre ++ p) _ R (heap_open_same _ _ _ Hs' Ho) HR' L)
    as (h2 & pre2 & suf2 & E2 & HR2 & L2 & _ & Hl2 & _ & Hp2 & Hz2 & _).
  rewrite Hp' in E2. exists h2. split; [exact E2|]. rewrite EF, <-EL in L2.
  assert (pre2 = pre) as ->.
  { eapply lowest_unique; [exact L2|by apply Hl2, Hl|done|apply HR2|apply HR]. }
  apply app_inv_head in L2 as ->. split; [done|].
  rewrite (hr_used _ _ _ HR2), (hr_used _ _ _ HR), (hr_lfree _ _ _ HR2), (hr_lfree _ _ _ HR). split; [done|].
  f_equal. congruence.
Qed.

Example malloc_free_roundtrip_witness :
  exists r h1 h2, rt_malloc 60 (heap1.1, heap1.2) = Ok r (heap1.1, h1) /\
    rt_free r (heap1.1, h1) = Ok tt (heap1.1, h2) /\
    heap_rep h2 [(32, true)] [(52, false); (24, true); (120, false)].
Proof.
  pose proof (malloc_eq heap1.1 heap1.2 [(32, true)] [(52, false); (24, true); (120, false)] 60
    (open_b_sound _ heap1_open) (rep_b_sound _ _ _ heap1_rep) ltac:(lia)) as HM.
  replace (find_fit (hp_size heap1.2) (request 60) (total [(32, true)]) [(52, false); (24, true); (120, false)])
    with (Some ([(52, false); (24, true)], 120, @nil blk)) in HM by (symmetry; vm_compute; reflexivity).
  destruct HM as (h1 & pre' & suf' & E1 & _); [vm_compute; discriminate|].
  destruct (malloc_free_roundtrip heap1.1 heap1.2 [(32, true)] [(52, false); (24, true); (120, false)] 60
    _ h1 (open_b_sound _ heap1_open) (rep_b_sound _ _ _ heap1_rep) ltac:(lia) ltac:(by repeat constructor) E1)
    as (h2 & E2 & HR & _).
  - vm_compute. discriminate.
  - eexists _, h1, h2. split; [exact E1|]. split; [exact E2|exact HR].
Defined.

(** ** Zeroed memory *)
Lemma memset_ok m p c n :
  mapped m p n -> 0 <= n < 2 ^ 32 ->
  exists m', rt_memset m p c n = Some m' /\ stored p n m m' /\
    forall x, p <= x < p + n -> m' !! x = Some (Z.land c 0xff).
Proof.
  intros Hm Hn. rewrite rt_memset_eq by done. set (d := Z.land c 255). set (l := replicate (Z.to_nat n) d).
  assert (Z.of_nat (length l) = n) as Hl by (unfold l; rewrite length_replicate; lia).
  destruct (write_bytes_ok m p l) as [m' E]; [by rewrite Hl|]. exists m'. split; [done|].
  pose proof E as E'. apply write_bytes_Some in E' as [_ H]. rewrite Hl in H.
  assert (byte_ok d) as Hd.
  { unfold byte_ok, d. change 255 with (Z.ones 8). rewrite Z.land_ones by lia. apply Z.mod_pos_bound. lia. }
  split.
  - split.
    + intros x Hx. by rewrite H, decide_False by lia.
    + intros b k. by eapply mapped_write.
    + intros Hok. eapply ram_ok_write; [done| |done]. by apply Forall_replicate.
  - intros x Hx. rewrite H, decide_True by lia. apply lookup_replicate. split; [done|lia].
Qed.

(** [rt_calloc] returns zeroed memory.  When no other thread uses the heap
    and the product of the arguments, modulo [2^32], is [n], between 1 and
    [2^32 - 4]: either the result is null and nothing has changed, or it is the
    data of a used block with room for [n] bytes, all of them 0, and the blocks
    used before keep their data. *)
Theorem calloc_zeroes k h pre suf count size :
  let n := u32 (count * size) in
  heap_open k h -> heap_rep h pre suf -> 0 < n < 2 ^ 32 - 3 ->
  rt_calloc count size (k, h) = Ok 0 (k, h) \/
  exists p len q h' pre' suf',
    rt_calloc count size (k, h) = Ok (hp_ptr h + total p + 12) (k, h') /\
    heap_rep h' pre' suf' /\ pre' ++ suf' = p ++ (len, true) :: q /\ n + 12 <= len /\
    (forall x, 0 <= x < n -> hp_ram h' !! (hp_ptr h + total p + 12 + x) = Some 0) /\
    data_same (hp_ram h) (hp_ram h') (hp_ptr h) 0 (pre ++ suf).
Proof.
  intros n Ho HR Hn. unfold rt_calloc. fold n. rewrite (bind_ok _ _ _ _ _ (debug_ok k h Ho h)).
  destruct (Z.ltb_spec (hp_size h) (RT_ALIGN n 4)) as [Hb|Hb].
  { left. by rewrite (bind_ok _ _ _ _ _ (malloc_too_big k h n Ho Hb)). }
  pose proof (malloc_eq k h pre suf n Ho HR ltac:(lia) Hb) as HM.
  destruct (find_fit _ _ _ suf) as [[[p len] q]|] eqn:Ef; [right|left; by rewrite (bind_ok _ _ _ _ _ HM)].
  destruct HM as (h1 & pre1 & suf1 & E1 & HR1 & L1 & D1 & _ & Hs1 & Hp1 & Hz1 & _).
  rewrite (bind_ok _ _ _ _ _ E1). apply find_fit_spec in Ef as [Esuf Hlf].
  destruct (alloc_blocks_cons (request n) len q) as (R & ER & _). rewrite ER in L1.
  assert (n <= request n) as Hrn.
  { unfold request. rewrite align4 by lia. pose proof (Z.div_mod (n + 3) 4). pose proof (Z.mod_pos_bound (n + 3) 4). lia. }
  assert (request n + 12 <= alloc_len (request n) len <= len) as Hal
    by (unfold alloc_len; destruct (Z.leb_spec (request n + 36) len); lia).
  assert (pre ++ suf = (pre ++ p) ++ (len, false) :: q) as EL by (rewrite Esuf; by rewrite app_assoc).
  destruct (block_place h pre suf (pre ++ p) _ q HR EL) as (B1 & B2 & B3 & B4 & _). simpl in B2, B3.
  pose proof (hr_base _ _ _ HR). pose proof (hr_mapped _ _ _ HR1) as Hmap. rewrite Hp1, Hz1 in Hmap.
  set (r := hp_ptr h + total (pre ++ p) + 12).
  replace (r =? 0) with false by (symmetry; apply Z.eqb_neq; unfold r; lia). cbn [negb].
  destruct (memset_ok (hp_ram h1) r 0 n) as (m2 & E2 & S2 & Z2);
    [eapply mapped_sub; [exact Hmap|unfold r; lia..]|lia|].
  assert (on_heap (ram_op (fun m => rt_memset m r 0 n)) (k, h1) = Ok tt (k, set_hp_ram m2 h1)) as EC
    by (apply on_heap_ok; unfold ram_op; by rewrite E2).
  rewrite (bind_ok _ _ _ _ _ EC). exists (pre ++ p), (alloc_len (request n) len), R, (set_hp_ram m2 h1), pre1, suf1.
  split; [done|]. split; [|split; [exact L1|split; [lia|split]]].
  - eapply heap_rep_write; [exact HR1|exact L1|]. rewrite Hp1. eapply stored_wider; [exact S2|unfold r; lia..].
  - intros x Hx. apply Z2. unfold r. lia.
  - rewrite EL. eapply data_same_trans; [exact D1|]. pose proof (hr_blocks _ _ _ HR) as [HB _]. rewrite EL in HB.
    eapply data_same_inside; [exact HB|]. intros x Hx. apply S2. unfold r. lia.
Qed.

(** Three times five bytes. *)
Example calloc_zeroes_witness :
  rt_calloc 3 5 (heap1.1, heap1.2) = Ok 0 (heap1.1, heap1.2) \/
  exists p len q h' pre' suf',
    rt_calloc 3 5 (heap1.1, heap1.2) = Ok (hp_ptr heap1.2 + total p + 12) (heap1.1, h') /\
    heap_rep h' pre' suf' /\ pre' ++ suf' = p ++ (len, true) :: q /\ 15 + 12 <= len.
Proof.
  destruct (calloc_zeroes heap1.1 heap1.2 [(32, true)] [(52, false); (24, true); (120, false)] 3 5
    (open_b_sound _ heap1_open) (rep_b_sound _ _ _ heap1_rep)) as [H|(p & len & q & h' & pre' & suf' & E & HR & L & Hl & _)].
  - vm_compute. split; reflexivity.
  - left. exact H.
  - right. exists p, len, q, h', pre', suf'. split; [exact E|]. split; [exact HR|]. split; [exact L|exact Hl].
Defined.

(** ** Initialisation *)

(** [rt_system_heap_init] makes a heap of one free block.  The bounds are
    rounded to multiples of four, upwards and downwards; when they leave room
    for two headers and at least one block, and memory answers there, the heap
    is well-formed with everything in one free block after the call, and
    [heap_sem] has been initialised; when they do not leave room for the two
    headers, nothing is changed. *)
Theorem heap_init_one_block (k k' : kview) h begin_addr end_addr :
  let b := RT_ALIGN begin_addr 4 in
  let e := RT_ALIGN_DOWN end_addr 4 in
  quiet k -> k_irq_nest k = 0 -> 0 < b -> 0 <= end_addr < 2 ^ 32 ->
  rt_sem_init (hp_sem h) [104; 101; 97; 112; 0] 1 RT_IPC_FLAG_FIFO k = Ok RT_EOK k' ->
  hp_used h = 0 -> ram_ok (hp_ram h) -> mapped (hp_ram h) b (e - b) ->
  (b + 36 <= e -> exists h',
    rt_system_heap_init begin_addr end_addr (k, h) = Ok tt (k', h') /\
    hp_ptr h' = b /\ hp_size h' = e - b - 24 /\ heap_rep h' [] [(e - b - 12, false)]) /\
  (e < b + 24 -> rt_system_heap_init begin_addr end_addr (k, h) = Ok tt (k, h)).
Proof.
  intros b e Hq Hn Hb Hend Hsem Hus Hok Hmap.
  assert (0 <= e < 2 ^ 32) as He by (apply land_lnot_range; [lia|done]).
  assert (b mod 4 = 0) as Hbm by apply align4_mod.
  assert (e mod 4 = 0) as Hem.
  { enough (Z.land e (Z.ones 2) = 0) as H by (rewrite Z.land_ones in H by lia; done).
    unfold e, RT_ALIGN_DOWN. rewrite <-Z.land_assoc. apply Z.land_0_r. }
  unfold rt_system_heap_init. change RT_ALIGN_SIZE with 4. fold b e. cbv zeta.
  change (2 * SIZEOF_STRUCT_MEM) with 24.
  rewrite (bind_ok _ _ _ _ _ (kernel_ok _ k h _ _ (not_in_interrupt_ok k Hq Hn))). split.
  - intros Hroom. rewrite (proj2 (Z.ltb_lt _ _)), (proj2 (Z.leb_le _ _)) by lia. cbn [andb].
    destruct (init_heap_ok h (e - b - 24) b) as (m' & E & H1 & H2 & H3 & H4);
      [by replace (e - b - 24 + 24) with (e - b) by lia|lia|lia|lia|].
    fold (init_heap_code (e - b - 24) b). rewrite (bind_ok _ _ _ _ _ (on_heap_ok _ k _ _ _ E)), bind_gets. cbn [snd hp_sem].
    rewrite (bind_ok _ _ _ _ _ (kernel_ok _ _ _ _ _ Hsem)).
    eexists. split; [by apply on_heap_ok|]. split; [done|]. split; [done|].
    replace (e - b - 12) with (e - b - 24 + 12) by lia. apply heap_rep_fresh; try done; try lia.
    + replace (e - b - 24) with (e + (- b) + (-6) * 4) by lia.
      rewrite Z_mod_plus_full, Z.add_mod, Hem, Z_mod_zero_opp_full; done.
    + apply H3. by replace (e - b - 24 + 24) with (e - b) by lia.
    + by apply H4.
  - intros Hroom. destruct (Z.ltb_spec 24 e); [|done]. by rewrite (proj2 (Z.leb_gt _ _)) by lia.
Qed.

Lemma board_sem_init :
  exists k', rt_sem_init 1 [104; 101; 97; 112; 0] 1 RT_IPC_FLAG_FIFO Board.board = Ok RT_EOK k'.
Proof.
  assert (match rt_sem_init 1 [104; 101; 97; 112; 0] 1 RT_IPC_FLAG_FIFO Board.board with
    | Ok a _ => a =? RT_EOK | _ => false end = true) as H by (vm_compute; reflexivity).
  destruct (rt_sem_init _ _ _ _ _) as [a k'| |]; [|done..]. apply Z.eqb_eq in H. subst a. by exists k'.
Qed.

Definition bytes_b (m : ram) (a n : Z) : bool :=
  forallb (fun x => bool_decide (is_Some (m !! x))) (seqZ a n) &&
  forallb (fun b : Z * Z => bool_decide (byte_ok b.2)) (map_to_list m).

Lemma bytes_b_sound m a n : bytes_b m a n = true -> mapped m a n /\ ram_ok m.
Proof.
  unfold bytes_b. rewrite andb_true_iff, !forallb_forall. intros [H1 H2]. split.
  - intros x Hx. eapply bool_decide_eq_true, H1, list_elem_of_In, elem_of_seqZ. lia.
  - intros x b Hx. specialize (H2 (x, b)). cbv beta in H2.
    by eapply bool_decide_eq_true, H2, list_elem_of_In, elem_of_map_to_list.
Qed.

Lemma blank_heap_bytes : bytes_b (hp_ram blank_heap) 0x20010004 240 = true.
Proof. vm_compute. reflexivity. Qed.

Example heap_init_one_block_witness :
  exists k' h', rt_system_heap_init 0x20010001 0x200100f6 (Board.board, blank_heap) = Ok tt (k', h') /\
    heap_rep h' [] [(228, false)].
Proof.
  destruct board_sem_init as [k' E]. destruct (bytes_b_sound _ _ _ blank_heap_bytes) as [HM HO].
  destruct (heap_init_one_block Board.board k' blank_heap 0x20010001 0x200100f6) as [H _].
  - intros _ _. vm_compute. reflexivity.
  - vm_compute. reflexivity.
  - reflexivity.
  - lia.
  - exact E.
  - reflexivity.
  - exact HO.
  - exact HM.
  - destruct H as (h' & E' & _ & _ & HR); [vm_compute; discriminate|].
    exists k', h'. split; [exact E'|exact HR].
Defined.

(** ** Resizing *)

(** C12: [rt_realloc] keeps the data.  For the address of a used block and a
    size that is neither rounded to 0 nor larger than the heap, when no other
    thread uses the heap: either the result is null and nothing has changed, or
    the result is the data of a used block with room for the new size that
    begins with the old data, as much of it as fits, whether the block was left
    alone, cut in place or moved.  Every other used block keeps its data, the
    heap stays well-formed, and the kernel state is as before. *)
Theorem realloc_keeps_data k h pre suf p len q newsize :
  heap_open k h -> heap_rep h pre suf -> pre ++ suf = p ++ (len, true) :: q ->
  0 < RT_ALIGN newsize 4 <= hp_size h ->
  exists r h' pre' suf',
    rt_realloc (hp_ptr h + total p + 12) newsize (k, h) = Ok r (k, h') /\ heap_rep h' pre' suf' /\
    ((r = 0 /\ h' = h) \/
     (kept h p len (RT_ALIGN newsize 4) r (hp_ram h') (pre' ++ suf') /\ others_same h pre suf p (hp_ram h'))).
Proof.
  intros Ho HR E Hns. destruct (realloc_eq k h pre suf p q len Ho HR E newsize Hns)
    as (r & h' & pre' & suf' & E1 & E2 & _ & E3). exists r, h', pre', suf'. auto.
Qed.

(** The first block grows from 20 to 40 bytes and moves into the hole. *)
Example realloc_keeps_data_witness :
  exists r h' pre' suf',
    rt_realloc (hp_ptr heap1.2 + 0 + 12) 40 (heap1.1, heap1.2) = Ok r (heap1.1, h') /\ heap_rep h' pre' suf' /\
    ((r = 0 /\ h' = heap1.2) \/
     (kept heap1.2 [] 32 40 r (hp_ram h') (pre' ++ suf') /\
      others_same heap1.2 [(32, true)] [(52, false); (24, true); (120, false)] [] (hp_ram h'))).
Proof.
  apply (realloc_keeps_data heap1.1 heap1.2 [(32, true)] [(52, false); (24, true); (120, false)]
    [] 32 [(52, false); (24, true); (120, false)] 40 (open_b_sound _ heap1_open) (rep_b_sound _ _ _ heap1_rep) eq_refl).
  vm_compute. split; [reflexivity|discriminate].
Defined.

(** ** What goes wrong *)

(** Requests at the limits.  The last block is never used up: a heap that is
    one free block of [n] bytes refuses a request for exactly [n] bytes, although
    the block fits.  And the size is rounded up without a check: a request for
    [2^32 - 3] bytes or more is treated like a request for one byte, and can
    return a block of twelve bytes. *)
Theorem malloc_limits k h pre suf size :
  heap_open k h -> heap_rep h pre suf -> 0 < size < 2 ^ 32 ->
  (pre = [] -> suf = [(hp_size h + 12, false)] -> RT_ALIGN size 4 = hp_size h ->
    rt_malloc size (k, h) = Ok 0 (k, h)) /\
  (2 ^ 32 - 3 <= size -> rt_malloc size (k, h) = rt_malloc 1 (k, h)).
Proof.
  intros Ho HR Hs. pose proof (hr_size _ _ _ HR) as Hsz. split.
  - intros -> -> Ha. pose proof (malloc_eq k h [] _ size Ho HR ltac:(lia) ltac:(lia)) as HM.
    simpl in HM. unfold request in HM. by rewrite Ha, Z.max_r, (proj2 (Z.ltb_ge _ _)) in HM by lia.
  - intros Hw. assert (RT_ALIGN size 4 = 0) as E0.
    { unfold RT_ALIGN. replace (u32 (size + 4 - 1)) with (size + 3 - 2 ^ 32).
      - assert (size + 3 - 2 ^ 32 = 0 \/ size + 3 - 2 ^ 32 = 1 \/ size + 3 - 2 ^ 32 = 2) as [->|[->| ->]] by lia; reflexivity.
      - unfold u32. apply (Z.mod_unique _ _ 1); lia. }
    unfold rt_malloc. rewrite !(bind_ok _ _ _ _ _ (debug_ok k h Ho h)).
    rewrite (proj2 (Z.eqb_neq size 0)) by lia. cbn [Z.eqb]. rewrite !bind_gets. cbn [snd].
    change RT_ALIGN_SIZE with 4. rewrite E0. change (RT_ALIGN 1 4) with 4. change MIN_SIZE_ALIGNED with 12.
    by rewrite !(proj2 (Z.ltb_ge (hp_size h) _)) by lia.
Qed.

Example malloc_limits_witness :
  rt_malloc 216 (heap0.1, heap0.2) = Ok 0 (heap0.1, heap0.2) /\
  rt_malloc (2 ^ 32 - 1) (heap0.1, heap0.2) = rt_malloc 1 (heap0.1, heap0.2).
Proof.
  split.
  - apply (malloc_limits heap0.1 heap0.2 [] [(228, false)] 216);
      [apply open_b_sound, heap0_open|exact (rep_b_sound _ _ _ heap0_rep)|lia|vm_compute; reflexivity..].
  - apply (malloc_limits heap0.1 heap0.2 [] [(228, false)]);
      [apply open_b_sound, heap0_open|exact (rep_b_sound _ _ _ heap0_rep)|lia|lia].
Defined.

(** C19: [rt_realloc] loses free memory.  In a heap without a free block, [lfree]
    is the end of the heap.  Cutting a block in place makes a free block but
    leaves [lfree] where it is: every later [rt_malloc] returns null. *)
Theorem realloc_hides_free_block k h p len q newsize :
  heap_open k h -> heap_rep h (p ++ (len, true) :: q) [] -> lowest q ->
  0 < RT_ALIGN newsize 4 -> RT_ALIGN newsize 4 + 36 < len ->
  exists h',
    rt_realloc (hp_ptr h + total p + 12) newsize (k, h) = Ok (hp_ptr h + total p + 12) (k, h') /\
    heap_rep h' (p ++ (RT_ALIGN newsize 4 + 12, true) :: (len - RT_ALIGN newsize 4 - 12, false) :: q) [] /\
    forall size, 0 < size -> rt_malloc size (k, h') = Ok 0 (k, h').
Proof.
  intros Ho HR Hq Hns Hcut.
  destruct (realloc_cut_eq k h (p ++ (len, true) :: q) [] p q len Ho HR (app_nil_r _) newsize Hns Hcut)
    as (h' & pre' & suf' & E & HR' & L & _ & Hlf & Hs & Hp & Hz & _).
  assert (fwd_rest q = q /\ fwd_len (len - RT_ALIGN newsize 4 - 12) q = len - RT_ALIGN newsize 4 - 12 /\
    forall lo, cut_lfree p len (RT_ALIGN newsize 4) q lo = lo) as (E1 & E2 & E3).
  { destruct q as [|[l u] q]; [done|]. apply Forall_cons in Hq as [Hu _]. simpl in Hu. subst u. done. }
  unfold cut_blocks in L. rewrite E1, E2 in L. rewrite E3 in Hlf.
  assert (suf' = []) as ->.
  { pose proof (hr_lfree _ _ _ HR) as Hl0. pose proof (hr_lfree _ _ _ HR') as Hl1.
    pose proof (hr_total _ _ _ HR) as Ht0. pose proof (hr_total _ _ _ HR') as Ht1. rewrite app_nil_r in Ht0.
    pose proof (hr_blocks _ _ _ HR') as [HB _]. apply blocks_at_app in HB as [_ HB]. apply blocks_total in HB.
    rewrite total_app in Ht1. destruct suf'; [done|]. simpl length in HB. lia. }
  rewrite app_nil_r in L. exists h'. split; [exact E|]. rewrite <-L. split; [exact HR'|].
  intros size Hsz. destruct (Z.ltb_spec (hp_size h') (RT_ALIGN size 4)) as [Hb|Hb].
  - apply malloc_too_big; [by eapply heap_open_same|done].
  - apply (malloc_eq k h' pre' [] size (heap_open_same _ _ _ Hs Ho) HR' Hsz Hb).
Qed.

Example realloc_hides_free_block_witness :
  exists h', rt_realloc (hp_ptr heap_full.2 + 12) 20 (heap_full.1, heap_full.2) =
      Ok (hp_ptr heap_full.2 + 12) (heap_full.1, h') /\
    heap_rep h' [(32, true); (80, false); (116, true)] [] /\
    rt_malloc 40 (heap_full.1, h') = Ok 0 (heap_full.1, h').
Proof.
  destruct (realloc_hides_free_block heap_full.1 heap_full.2 [] 112 [(116, true)] 20
    (open_b_sound _ heapfull_open) (rep_b_sound _ _ _ heapfull_rep)) as (h' & E & HR & HM).
  - by repeat constructor.
  - reflexivity.
  - reflexivity.
  - exists h'. rewrite Z.add_0_r in E. split; [exact E|]. split; [exact HR|by apply HM].
Defined.

(** ** Safety in a running system *)

(** Thread 3 runs and the heap's semaphore is free. *)
Lemma heap1_running : running Board.idle heap1.1 3.
Proof.
  split; [exists (Board.queues_of heap1.1); apply Board.kinv_b_sound; vm_compute; reflexivity|].
  split; [split; vm_compute; reflexivity|]. apply Board.stat_b_sound. vm_compute. reflexivity.
Qed.

Lemma heap1_sem : sem_inv 1 heap1.1.
Proof. exists (sem_of heap1.1 1), []. apply sem_b_sound. vm_compute. reflexivity. Qed.

(** C5: the heap in a running system.  [rt_malloc], and [rt_free] of the address
    of a used block of the caller, called by a thread that is not the idle thread
    with the semaphore of the heap and the heap itself in order, never fault;
    whenever they give the processor away, kernel and heap are in order; and if
    the thread is always resumed with kernel and heap in order and its own blocks
    left alone, they return with both in order.  The result of [rt_malloc] is
    null or the address, a multiple of four, of room inside the heap: for all
    [size] bytes that were asked for, and twelve at least, when [size] is below
    [2^32-3]; for the three larger sizes, which wrap to 0, for twelve bytes. *)
Theorem heap_safe idle i mine k h t :
  running idle k t -> t <> idle -> sem_inv i k -> heap_inv h -> hp_sem h = i ->
  (forall size, 0 <= size ->
    wp (guarH idle i) (relyH idle i mine) (rt_malloc size)
      (fun r s' => running idle s'.1 t /\ sem_inv i s'.1 /\ heap_inv s'.2 /\ same_heap h s'.2 /\
        malloc_result h size r) (k, h)) /\
  (forall r, mine r -> used_at r h ->
    wp (guarH idle i) (relyH idle i mine) (rt_free r)
      (fun _ s' => running idle s'.1 t /\ sem_inv i s'.1 /\ heap_inv s'.2 /\ same_heap h s'.2) (k, h)).
Proof. intros. split; intros; [by apply malloc_wp|by apply free_wp]. Qed.

Example heap_safe_witness :
  wp (guarH Board.idle 1) (relyH Board.idle 1 (fun _ => True)) (rt_malloc 38)
    (fun r s' => running Board.idle s'.1 3 /\ sem_inv 1 s'.1 /\ heap_inv s'.2 /\ same_heap heap1.2 s'.2 /\
      malloc_result heap1.2 38 r) (heap1.1, heap1.2) /\
  wp (guarH Board.idle 1) (relyH Board.idle 1 (fun _ => True)) (rt_free (hp_ptr heap1.2 + total [] + 12))
    (fun _ s' => running Board.idle s'.1 3 /\ sem_inv 1 s'.1 /\ heap_inv s'.2 /\ same_heap heap1.2 s'.2)
    (heap1.1, heap1.2).
Proof.
  destruct (heap_safe Board.idle 1 (fun _ => True) heap1.1 heap1.2 3) as [H1 H2].
  - exact heap1_running.
  - discriminate.
  - exact heap1_sem.
  - eexists _, _. exact (rep_b_sound _ _ _ heap1_rep).
  - vm_compute. reflexivity.
  - split; [apply H1; lia|apply H2; [exact I|]].
    exists [(32, true)], [(52, false); (24, true); (120, false)], [], 32, [(52, false); (24, true); (120, false)].
    split; [exact (rep_b_sound _ _ _ heap1_rep)|]. split; reflexivity.
Defined.
End MemTheorems.
