(* ===== verification/HeapMap.v ===== *)
(** * The heap as a map of blocks

    The abstract view of the small-memory heap its users have: a finite map from
    the addresses of allocated blocks to their bytes ([heap_view]).  [rt_malloc]
    adds an entry or reports that there is no room, [rt_free] deletes one, the
    owner of a block may change its bytes, and blocks do not overlap. *)
From S2P Require Import Prelude Kservice Ram RtList KMonad KState KPrim KInv Scheduler Object TimerBase Thread Timer Ipc Mem KernelInv BlockProof Board SemProof MemProof BlockMap MemSpec MemTheorems.
Import Ram Mem SemProof MemProof BlockMap MemSpec MemTheorems.
Local Open Scope Z_scope.
Local Open Scope kmonad_scope.

Module HeapMap.

(** A header of the small-memory heap has 12 bytes. *)
Abbreviation used_list := (BlockMap.used_list 12).

Definition heap_map (h : heap) (bs : list blk) : gmap Z (list Z) := block_map 12 (hp_ram h) (hp_ptr h) bs.

Definition heap_view (h : heap) (U : gmap Z (list Z)) : Prop :=
  exists pre suf, heap_rep h pre suf /\ U = heap_map h (pre ++ suf).

Lemma used_list_range m base bs : forall off prev, blocks_at m base off prev bs ->
  Forall (fun e => off + 12 <= e.1 /\ 4 <= e.2 /\ e.1 + e.2 <= off + total bs /\ e.1 mod 4 = off mod 4) (used_list off bs).
Proof.
  induction bs as [|b bs IH]; intros off prev; simpl; [done|]. intros (Hb & Hm & _ & H).
  pose proof (total_nonneg _ _ _ _ _ H). apply Forall_app. split.
  - destruct b.2; [|done]. repeat constructor; simpl; try lia.
    rewrite <-Zplus_mod_idemp_r. change (12 mod 4) with 0. by rewrite Z.add_0_r.
  - eapply Forall_impl; [by eapply IH|]. intros e (H1 & H2 & H3 & H4). repeat split; try lia.
    rewrite H4, <-Zplus_mod_idemp_r, Hm. by rewrite Z.add_0_r.
Qed.

Lemma used_list_nodup m base bs : forall off prev, blocks_at m base off prev bs -> NoDup (used_list off bs).*1.
Proof.
  induction bs as [|b bs IH]; intros off prev; simpl; [constructor|]. intros (Hb & _ & _ & H).
  pose proof (used_list_range _ _ _ _ _ H) as HR. destruct b.2; simpl; [|by eapply IH].
  constructor; [|by eapply IH]. intros Hin. apply list_elem_of_fmap in Hin as (e & E & He).
  eapply Forall_forall in HR; [|exact He]. simpl in HR. lia.
Qed.

Lemma entries_nodup m m' base bs off prev :
  blocks_at m base off prev bs -> NoDup (entry m' base <$> used_list off bs).*1.
Proof.
  intros H. apply used_list_nodup in H. rewrite <-list_fmap_compose.
  replace (fst ∘ entry m' base) with (Z.add base ∘ (fst : Z * Z -> Z)) by done.
  rewrite list_fmap_compose. apply NoDup_fmap_2; [intros x y; lia|done].
Qed.

(** Memories with the same data have the same entries. *)
Lemma entries_same m m' base bs : forall off, data_same m m' base off bs ->
  entry m' base <$> used_list off bs = entry m base <$> used_list off bs.
Proof.
  induction bs as [|b bs IH]; intros off; simpl; [done|]. intros [H1 H2].
  rewrite !fmap_app, (IH _ H2). f_equal. destruct b.2; [|done]. simpl. unfold entry. simpl. do 3 f_equal.
  apply read_bytes_ext. intros x Hx. apply H1; [done|]. lia.
Qed.

Lemma alloc_used off size len q : size + 12 <= len ->
  exists n, size <= n /\ used_list off (alloc_blocks size len q) = (off + 12, n) :: used_list (off + len) q.
Proof.
  intros Hl. unfold alloc_blocks. destruct (Z.leb_spec (size + 36) len); simpl.
  - exists size. split; [lia|]. replace (size + 12 - 12) with size by lia.
    by replace (off + (size + 12) + (len - size - 12)) with (off + len) by lia.
  - exists (len - 12). split; [lia|done].
Qed.

(** ** The operations *)
(** What stays the same over a call: where the heap is, and its semaphore. *)
Definition same_place (h h' : heap) : Prop :=
  hp_sem h' = hp_sem h /\ hp_ptr h' = hp_ptr h /\ hp_size h' = hp_size h.

Lemma request_ge size : 0 < size < 2 ^ 32 -> RT_ALIGN size 4 < size \/ size <= request size.
Proof. unfold request. lia. Qed.

Lemma align_ge size h pre suf : heap_rep h pre suf -> 0 < size < 2 ^ 32 - 3 -> size <= request size.
Proof. intros _ Hs. unfold request. rewrite align4 by lia. pose proof (Z.div_mod (size + 3) 4). pose proof (Z.mod_pos_bound (size + 3) 4). lia. Qed.

Lemma view_malloc k h U size :
  heap_open k h -> heap_view h U -> 0 < size < 2 ^ 32 - 3 ->
  rt_malloc size (k, h) = Ok 0 (k, h) \/
  exists r h' l, rt_malloc size (k, h) = Ok r (k, h') /\ hp_ptr h < r /\ r + size <= hp_end h /\ r mod 4 = 0 /\
    U !! r = None /\ size <= Z.of_nat (length l) /\ heap_view h' (<[r := l]> U) /\ same_place h h'.
Proof.
  intros Ho (pre & suf & HR & ->) Hs. destruct (Z.ltb_spec (hp_size h) (RT_ALIGN size 4)) as [Hb|Hb].
  { left. by apply malloc_too_big. }
  pose proof (malloc_eq k h pre suf size Ho HR ltac:(lia) Hb) as HM.
  destruct (find_fit _ _ _ suf) as [[[p len] q]|] eqn:E; [right|by left].
  destruct HM as (h' & pre' & suf' & EM & HR' & L & HD & _ & Hs' & Hp' & Hz' & _).
  apply find_fit_spec in E as [Esuf Hlen].
  assert (pre ++ suf = (pre ++ p) ++ (len, false) :: q) as EL by (rewrite Esuf; by rewrite app_assoc).
  destruct (alloc_used (total (pre ++ p)) (request size) len q ltac:(lia)) as (n & Hn & EU).
  pose proof (align_ge _ _ _ _ HR Hs). pose proof (hr_blocks _ _ _ HR') as [HB' _].
  set (r := hp_ptr h + total (pre ++ p) + 12) in *.
  assert (used_list 0 (pre' ++ suf') =
    used_list 0 (pre ++ p) ++ (total (pre ++ p) + 12, n) :: used_list (total (pre ++ p) + len) q) as EU'.
  { rewrite L, used_list_app, Z.add_0_l. by rewrite EU. }
  pose proof (used_list_range _ _ _ _ _ HB') as HF. rewrite EU' in HF.
  apply Forall_app in HF as [_ [(_ & _ & Hend & Hmod) _]%Forall_cons]. simpl in Hend, Hmod.
  pose proof (hr_total _ _ _ HR'). pose proof (hr_align _ _ _ HR).
  destruct (read_bytes_ok (hp_ram h') r (Z.to_nat n)) as (l & El & Hll).
  { eapply mapped_sub; [apply (hr_mapped _ _ _ HR')|..]; rewrite Hp', ?Hz'; unfold r.
    - pose proof (blocks_at_app (hp_ram h) (hp_ptr h)). pose proof (hr_blocks _ _ _ HR) as [HB _]. rewrite EL in HB.
      apply blocks_at_app in HB as [HB _]. apply total_nonneg in HB. lia.
    - lia. }
  exists r, h', l. split; [exact EM|].
  pose proof (hr_blocks _ _ _ HR) as [HB _]. rewrite EL in HB. apply blocks_at_app in HB as [HB _].
  apply total_nonneg in HB. rewrite (hr_hend _ _ _ HR).
  split; [unfold r; lia|]. split; [unfold r; lia|].
  split; [unfold r; rewrite <-Z.add_assoc; apply div4_add; [done|by rewrite Hmod]|].
  pose proof (entries_nodup _ (hp_ram h') _ _ _ _ HB') as Hnd. rewrite EU', fmap_app, fmap_cons in Hnd.
  assert (entry (hp_ram h') (hp_ptr h') (total (pre ++ p) + 12, n) = (r, l)) as Ee.
  { unfold entry. simpl. rewrite Hp', Z.add_assoc. fold r. by rewrite El. }
  rewrite Ee in Hnd. destruct (map_middle _ _ _ _ Hnd) as [EM1 EM2].
  assert (heap_map h (pre ++ suf) = list_to_map ((entry (hp_ram h') (hp_ptr h') <$> used_list 0 (pre ++ p)) ++
    (entry (hp_ram h') (hp_ptr h') <$> used_list (total (pre ++ p) + len) q))) as EU0.
  { unfold heap_map, block_map. rewrite EL, used_list_app, <-fmap_app, Hp'. f_equal.
    apply entries_same in HD. rewrite used_list_app, Z.add_0_l in HD. rewrite Z.add_0_l. by symmetry. }
  rewrite <-EU0 in EM1, EM2. split; [exact EM2|]. split; [lia|]. split; [|done].
  exists pre', suf'. split; [done|]. unfold heap_map, block_map. by rewrite EU', fmap_app, fmap_cons, Ee, EM1.
Qed.

Lemma view_entry h pre suf r l :
  heap_rep h pre suf -> heap_map h (pre ++ suf) !! r = Some l ->
  exists A n B, pre ++ suf = A ++ (n + 12, true) :: B /\ r = hp_ptr h + total A + 12 /\ 4 <= n /\
    read_bytes (hp_ram h) r (Z.to_nat n) = Some l /\ Z.of_nat (length l) = n /\
    total A + 12 + n <= hp_size h + 12.
Proof.
  intros HR E. pose proof (hr_blocks _ _ _ HR) as [HB _]. apply elem_of_list_to_map_2 in E.
  apply list_elem_of_fmap in E as (e & Ee & He). unfold entry in Ee. injection Ee as Er El.
  pose proof (used_list_range _ _ _ _ _ HB) as HF. eapply Forall_forall in HF as (H1 & H2 & H3 & _); [|exact He].
  destruct (used_list_elem _ _ _ _ He) as (A & B & EL & E1). rewrite (hr_total _ _ _ HR) in H3.
  exists A, e.2, B. split; [done|]. rewrite Z.add_0_l in E1. split; [lia|]. split; [done|]. rewrite <-Er in El.
  destruct (read_bytes_ok (hp_ram h) r (Z.to_nat e.2)) as (l' & E' & Hl').
  { eapply mapped_sub; [apply (hr_mapped _ _ _ HR)|..]; lia. }
  rewrite E' in El. simpl in El. subst l'. split; [done|]. split; [lia|lia].
Qed.

(** The map around a used block. *)
Lemma view_split h pre suf A n B l :
  heap_rep h pre suf -> pre ++ suf = A ++ (n + 12, true) :: B ->
  read_bytes (hp_ram h) (hp_ptr h + total A + 12) (Z.to_nat n) = Some l ->
  let m := list_to_map ((entry (hp_ram h) (hp_ptr h) <$> used_list 0 A) ++
    (entry (hp_ram h) (hp_ptr h) <$> used_list (total A + (n + 12)) B)) in
  heap_map h (pre ++ suf) = <[hp_ptr h + total A + 12 := l]> m /\ m !! (hp_ptr h + total A + 12) = None.
Proof.
  intros HR EL El m. pose proof (hr_blocks _ _ _ HR) as [HB _].
  pose proof (entries_nodup _ (hp_ram h) _ _ _ _ HB) as Hnd.
  assert (entry (hp_ram h) (hp_ptr h) <$> used_list 0 (pre ++ suf) =
    (entry (hp_ram h) (hp_ptr h) <$> used_list 0 A) ++ (hp_ptr h + total A + 12, l) ::
    (entry (hp_ram h) (hp_ptr h) <$> used_list (total A + (n + 12)) B)) as EE.
  { rewrite EL, used_list_app, Z.add_0_l, fmap_app. f_equal. cbn [BlockMap.used_list fst snd app fmap list_fmap].
    f_equal. unfold entry. cbn [fst snd]. rewrite Z.add_assoc.
    replace (n + 12 - 12) with n by lia. by rewrite El. }
  unfold heap_map, block_map. rewrite EE in *. by apply map_middle.
Qed.

Lemma view_free k h U r l :
  heap_open k h -> heap_view h U -> U !! r = Some l ->
  exists h', rt_free r (k, h) = Ok tt (k, h') /\ heap_view h' (delete r U) /\ same_place h h'.
Proof.
  intros Ho (pre & suf & HR & ->) E.
  destruct (view_entry _ _ _ _ _ HR E) as (A & n & B & EL & -> & Hn & El & Hl & _).
  destruct (free_eq k h pre suf A (n + 12) B Ho HR EL) as (h' & pre' & suf' & EF & HR' & L & HD & _ & Hs' & Hp' & Hz' & _).
  exists h'. split; [exact EF|]. split; [|done]. exists pre', suf'. split; [done|].
  destruct (view_split _ _ _ _ _ _ _ HR EL El) as [EM Hno]. rewrite EM, delete_insert_id by done.
  unfold heap_map, block_map. rewrite L, free_used, Hp'. apply data_same_free, entries_same in HD.
  rewrite used_list_app, Z.add_0_l in HD. cbn [BlockMap.used_list fst snd app] in HD. rewrite <-fmap_app. by f_equal.
Qed.

(** The owner of a block may write to it. *)
Lemma view_write h U r l l' :
  heap_view h U -> U !! r = Some l -> length l' = length l -> Forall byte_ok l' ->
  exists m', write_bytes (hp_ram h) r l' = Some m' /\ heap_view (set_hp_ram m' h) (<[r := l']> U).
Proof.
  intros (pre & suf & HR & ->) E Hl' Hb.
  destruct (view_entry _ _ _ _ _ HR E) as (A & n & B & EL & -> & Hn & El & Hl & Hend).
  destruct (write_bytes_ok (hp_ram h) (hp_ptr h + total A + 12) l') as [m' Ew].
  { pose proof (hr_blocks _ _ _ HR) as [HB _]. rewrite EL in HB. apply blocks_at_app in HB as [HB _].
    apply total_nonneg in HB. eapply mapped_sub; [apply (hr_mapped _ _ _ HR)|..]; lia. }
  exists m'. split; [exact Ew|].
  assert (stored (hp_ptr h + total A + 12) (n + 12 - 12) (hp_ram h) m') as Hst.
  { split.
    - intros x Hx. destruct (write_bytes_Some _ _ _ _ Ew) as [_ H]. rewrite H, decide_False by lia. done.
    - intros b j. by eapply mapped_write.
    - intros Hok. by eapply ram_ok_write. }
  pose proof (heap_rep_write h pre suf A (n + 12) true B m' HR EL Hst) as HR'.
  exists pre, suf. split; [exact HR'|].
  assert (read_bytes m' (hp_ptr h + total A + 12) (Z.to_nat n) = Some l') as El'.
  { apply read_write_same in Ew. by replace (length l') with (Z.to_nat n) in Ew by lia. }
  destruct (view_split _ _ _ _ _ _ _ HR EL El) as [EM _].
  destruct (view_split (set_hp_ram m' h) _ _ _ _ _ _ HR' EL El') as [EM' _]. rewrite EM, EM', insert_insert_eq. simpl.
  pose proof (hr_blocks _ _ _ HR) as [HB _]. rewrite EL in HB. apply blocks_at_app in HB as [HA (_ & _ & _ & HB)].
  simpl in HB. do 3 f_equal; symmetry; apply entries_same; eapply data_same_range; try done;
    intros x Hx; apply Hst; lia.
Qed.

(** Blocks do not overlap, and lie in the heap. *)
Lemma view_apart h U r l r' l' :
  heap_view h U -> U !! r = Some l -> U !! r' = Some l' -> r <> r' ->
  r + Z.of_nat (length l) <= r' \/ r' + Z.of_nat (length l') <= r.
Proof.
  intros (pre & suf & HR & ->) E E' Hne. pose proof (hr_blocks _ _ _ HR) as [HB _].
  destruct (view_entry _ _ _ _ _ HR E) as (A & n & B & EL & -> & Hn & _ & Hl & _).
  destruct (view_entry _ _ _ _ _ HR E') as (A' & n' & B' & EL' & -> & Hn' & _ & Hl' & _).
  rewrite EL in HB, EL'. destruct (blocks_disjoint _ _ _ _ _ _ _ _ _ _ _ _ HB EL') as [(-> & _)|[H|H]]; [done|lia|lia].
Qed.

Lemma view_inside h U r l :
  heap_view h U -> U !! r = Some l -> hp_ptr h < r /\ r + Z.of_nat (length l) <= hp_end h /\ r mod 4 = 0.
Proof.
  intros (pre & suf & HR & ->) E. pose proof (hr_blocks _ _ _ HR) as [HB _].
  destruct (view_entry _ _ _ _ _ HR E) as (A & n & B & EL & -> & Hn & _ & Hl & Hend).
  destruct (block_place h pre suf A (n + 12, true) B HR EL) as (H1 & H2 & H3 & H4 & H5 & _). simpl in *.
  rewrite (hr_hend _ _ _ HR). split; [lia|]. split; [lia|]. by apply div4_add.
Qed.

(** C29: the heap implements a finite map from addresses to blocks of bytes.
    [rt_malloc] either returns RT_NULL and changes nothing, or adds a new entry
    of at least the requested size, aligned and inside the heap, and no other
    entry changes; [rt_free] of an entry deletes it; writing to an entry changes
    this entry only; the entries do not overlap. *)
Theorem heap_implements_map k h U :
  heap_open k h -> heap_view h U ->
  (forall size, 0 < size < 2 ^ 32 - 3 ->
    rt_malloc size (k, h) = Ok 0 (k, h) \/
    exists r h' l, rt_malloc size (k, h) = Ok r (k, h') /\ heap_open k h' /\ heap_view h' (<[r := l]> U) /\
      U !! r = None /\ size <= Z.of_nat (length l) /\ hp_ptr h < r /\ r + size <= hp_end h /\ r mod 4 = 0) /\
  (forall r l, U !! r = Some l ->
    exists h', rt_free r (k, h) = Ok tt (k, h') /\ heap_open k h' /\ heap_view h' (delete r U)) /\
  (forall r l l', U !! r = Some l -> length l' = length l -> Forall byte_ok l' ->
    exists m', write_bytes (hp_ram h) r l' = Some m' /\ heap_view (set_hp_ram m' h) (<[r := l']> U)) /\
  (forall r l r' l', U !! r = Some l -> U !! r' = Some l' -> r <> r' ->
    r + Z.of_nat (length l) <= r' \/ r' + Z.of_nat (length l') <= r).
Proof.
  intros Ho HU. split; [|split; [|split]].
  - intros size Hs. destruct (view_malloc k h U size Ho HU Hs) as [E|(r & h' & l & E & H1 & H2 & H3 & H4 & H5 & H6 & H7)];
      [by left|right]. exists r, h', l. split; [done|]. split; [by apply (heap_open_same k h); [apply H7|]|]. done.
  - intros r l E. destruct (view_free k h U r l Ho HU E) as (h' & EF & H1 & H2).
    exists h'. split; [done|]. split; [by apply (heap_open_same k h); [apply H2|]|done].
  - intros r l l'. by apply view_write.
  - intros r l r' l'. by apply (view_apart h U).
Qed.

(** The two used blocks of [heap1]. *)
Example heap_implements_map_witness :
  (exists U, heap_view heap1.2 U) /\
  forall U, heap_view heap1.2 U -> forall r l, U !! r = Some l ->
    exists h', rt_free r (heap1.1, heap1.2) = Ok tt (heap1.1, h') /\ heap_view h' (delete r U).
Proof.
  split.
  - eexists. exists [(32, true)], [(52, false); (24, true); (120, false)].
    split; [exact (rep_b_sound _ _ _ heap1_rep)|reflexivity].
  - intros U HU r l E.
    destruct (heap_implements_map heap1.1 heap1.2 U (open_b_sound _ heap1_open) HU) as (_ & H & _).
    destruct (H r l E) as (h' & H1 & _ & H2). exists h'. split; [exact H1|exact H2].
Defined.
End HeapMap.
