(* ===== verification/MemHeapTheorems.v ===== *)
(** * Memory heaps: theorems

    Initialization, first fit, coalescing, and the map of blocks the operations
    implement; witnesses on a heap of 512 bytes. *)
From S2P Require Import Prelude Rings Kservice Ram RtList KMonad KState KPrim KInv Scheduler Object TimerBase Thread Timer Ipc Mem KernelInv BlockProof Board SemProof SemTheorems MemProof BlockMap Allocator MemTheorems MemHeap MemHeapProof MemHeapSpec MemHeapOps MemHeapMap.
Import Rings Ram Object Sem SemProof SemTheorems MemProof BlockMap MemTheorems MemHeap MemHeapProof MemHeapSpec MemHeapOps MemHeapMap.
Local Open Scope Z_scope.
Local Open Scope kmonad_scope.

Module MemHeapTheorems.

(** ** Initialization *)
(** [rt_memheap_init] makes a heap of one free block.  The size is rounded down
    to a multiple of four; when it leaves room for the header of the end and a
    block, the pool is well-formed after the call, and the object and the
    semaphore have been initialised. *)
Lemma memheap_init_one_block raw hp fh lock name start size (k k1 k2 : kview) ms :
  let psize := RT_ALIGN_DOWN size 4 in
  60 <= psize -> 0 <= size < 2 ^ 32 -> 0 < start -> start + psize <= 2 ^ 32 -> (fh < start \/ start + psize <= fh) ->
  rt_object_init (OMemHeap hp) RT_Object_Class_MemHeap name k = Ok tt k1 ->
  rt_sem_init lock name 1 RT_IPC_FLAG_FIFO k1 = Ok RT_EOK k2 ->
  exists h ms', rt_memheap_init raw hp fh lock name start size (k, ms) = Ok RT_EOK (k2, ms') /\
    ms_heaps ms' !! hp = Some h /\ mh_lock h = lock /\ mh_start_addr h = start /\ mh_pool_size h = psize /\
    pool_rep hp h (ms_items ms') [(psize - 24, false)] [start] /\ others hp h ms ms'.
Proof.
  intros psize Hp Hsz Hs Ht Hfh Eo Es. destruct ms as [HP I R]. unfold rt_memheap_init.
  rewrite (bind_ok _ _ _ _ _ (kernel_ok _ _ _ _ _ Eo)). change Mem.RT_ALIGN_SIZE with 4. fold psize. cbv zeta.
  change RT_MEMHEAP_SIZE with 24. assert (psize mod 4 = 0) as Hm.
  { unfold psize, RT_ALIGN_DOWN. change (4 - 1) with (2 ^ 2 - 1). rewrite land_lnot_pow2 by lia. by apply Z.mod_mul. }
  rewrite (u32_small (psize - 2 * 24)), u32_small by lia. set (h0 := Memheap start psize _ _ 0 0 fh lock).
  destruct (init_items_ok raw hp h0 (<[hp := h0]> HP) R I) as (I' & E & F & HR); simpl; try done; try lia; [apply lookup_insert_eq|].
  exists (started h0), (Mstore (<[hp := started h0]> (<[hp := h0]> HP)) I' R).
  rewrite (bind_ok _ _ _ tt (k1, Mstore (<[hp := h0]> HP) I R)) by done.
  rewrite (bind_ok _ _ _ _ _ (on_pool_ok _ _ _ _ _ E)), (bind_ok _ _ _ _ _ (kernel_ok _ _ _ _ _ Es)).
  split; [done|]. split; [apply lookup_insert_eq|]. do 3 (split; [done|]). split; [exact HR|].
  split; simpl; [|exact F|done]. intros i Hi. by rewrite !lookup_insert_ne.
Qed.

(** ** A heap to look at *)
Definition raw_item : rt_memheap_item := Item 0 0 0 0 0 0.

Definition blank_pool : mstore := Mstore ∅ ∅ (list_to_map ((fun a => (a, 7)) <$> seqZ 0x20010000 512)).

Definition run {A} (f : M kms A) (s : kms) : kms := default s (first_state (f s)).

(** 510 bytes, one free block; then 20, 40 and 100 bytes are allocated and the
    second block is freed: a hole of 40 bytes. *)
Definition mheap0 : kms := run (rt_memheap_init raw_item 0 0x20000100 1 [109; 104; 0] 0x20010000 510) (Board.board, blank_pool).
Definition mheap1 : kms :=
  run (rt_memheap_alloc raw_item 0 20 ;! (let! r := rt_memheap_alloc raw_item 0 38 in
    rt_memheap_alloc raw_item 0 100 ;! rt_memheap_free r)) mheap0.

Definition heap_of (s : kms) : rt_memheap := default (Memheap 0 0 0 0 0 0 0 0) (ms_heaps s.2 !! 0%nat).

(** *** A check for well-formed heaps *)
Section check.
Context (f g : rt_memheap_item -> Z).
Definition link_b (I : items) (x y : Z) : bool :=
  bool_decide (f <$> I !! x = Some y) && bool_decide (g <$> I !! y = Some x).
Fixpoint seg_b (I : items) (x : Z) (l : list Z) (y : Z) : bool :=
  match l with [] => link_b I x y | z :: l => link_b I x z && seg_b I z l y end.
Definition mring_b (I : items) (c : list Z) : bool := match c with [] => false | x :: l => seg_b I x l x end.

Lemma mring_b_sound I c : mring_b I c = true -> Rings.ring f g I c.
Proof.
  assert (forall x y, link_b I x y = true -> Rings.link f g I x y) as HL
    by (intros x y [H1%bool_decide_eq_true H2%bool_decide_eq_true]%andb_true_iff; by split).
  destruct c as [|x l]; [done|]. simpl. generalize x at 2 4. revert x. induction l as [|z l IH]; intros x y; simpl; [apply HL|].
  intros [H1 H2]%andb_true_iff. split; [by apply HL|by apply IH].
Qed.
End check.

Fixpoint hdrs_b (hp : nat) (I : items) (a : Z) (bs : list blk) : bool :=
  match bs with
  | [] => true
  | b :: bs => bool_decide (it_magic <$> I !! a = Some (magic_of b.2)) && bool_decide (it_pool_ptr <$> I !! a = Some hp) &&
      hdrs_b hp I (a + b.1) bs
  end.

Lemma hdrs_b_sound hp I bs : forall a, hdrs_b hp I a bs = true -> hdrs hp I a bs.
Proof.
  induction bs as [|b bs IH]; intros a; simpl; [done|].
  intros [[H1%bool_decide_eq_true H2%bool_decide_eq_true]%andb_true_iff H3]%andb_true_iff. split; [by split|by apply IH].
Qed.

Definition mpool_b (hp : nat) (h : rt_memheap) (I : items) (bs : list blk) (fl : list Z) : bool :=
  let full := bs ++ [(24, true)] in
  let start := mh_start_addr h in
  let fh := mh_free_list h in
  mring_b it_next it_prev I (addrs start full) && hdrs_b hp I start full && mring_b it_next_free it_prev_free I (fh :: fl) &&
  forallb (fun b : blk => (36 <=? b.1) && (b.1 mod 4 =? 0)) bs && (total full =? mh_pool_size h) &&
  bool_decide (NoDup fl) && bool_decide (merge_sort Z.le fl = free_addrs start bs) &&
  ((fh <? start) || (start + mh_pool_size h <=? fh)) && merged_b bs && (mh_available_size h =? free_total bs) &&
  (mh_pool_size h - mh_available_size h <=? mh_max_used_size h) && (0 <? start) && (start + mh_pool_size h <=? 2 ^ 32).

Lemma mpool_b_sound hp h I bs fl : mpool_b hp h I bs fl = true -> pool_rep hp h I bs fl.
Proof.
  unfold mpool_b. intros H. repeat (apply andb_true_iff in H as [H ?]).
  repeat match goal with
  | H : (_ =? _) = true |- _ => apply Z.eqb_eq in H
  | H : (_ <=? _) = true |- _ => apply Z.leb_le in H
  | H : (_ <? _) = true |- _ => apply Z.ltb_lt in H
  | H : bool_decide _ = true |- _ => apply bool_decide_eq_true in H
  end.
  assert (Forall block_ok bs) as Hb.
  { apply Forall_forall. intros b Hin. rewrite forallb_forall in H9. apply list_elem_of_In, H9, andb_true_iff in Hin as [Hl Hm].
    split; [by apply Z.leb_le|by apply Z.eqb_eq]. }
  assert (fl ≡ₚ free_addrs (mh_start_addr h) bs) as Hf by (rewrite <-H6; symmetry; apply merge_sort_Permutation).
  rewrite total_app in H8. simpl in H8.
  assert (sized bs) as Hs by (eapply Forall_impl; [exact Hb|]; intros b [? _]; simpl; lia).
  split; try done; [|by apply merged_b_sound]. split; [split; [by apply mring_b_sound|by apply hdrs_b_sound|by apply mring_b_sound]|].
  split; try done.
  - apply Forall_app. split; [done|]. repeat constructor; simpl; lia.
  - rewrite total_app. simpl. lia.
  - apply Forall_forall. intros a Ha. rewrite Hf in Ha. apply free_addrs_sub, addrs_range in Ha; [lia|done].
  - apply orb_true_iff in H5 as [H5|H5]; [left; by apply Z.ltb_lt|right; by apply Z.leb_le].
Qed.

Definition mheap_b (s : kms) (bs : list blk) (fl : list Z) : bool :=
  bool_decide (is_Some (ms_heaps s.2 !! 0%nat)) && bool_decide (k_pendsv s.1 = None) && (k_irq_nest s.1 =? 0) && Board.sched_b s.1 &&
  sem_b (mh_lock (heap_of s)) s.1 [] && (sem_value (sem_of s.1 (mh_lock (heap_of s))) =? 1) &&
  mpool_b 0 (heap_of s) (ms_items s.2) bs fl.

Lemma mheap_b_sound s bs fl : mheap_b s bs fl = true -> mheap_at 0 s (heap_of s) bs fl.
Proof.
  unfold mheap_b. intros H. repeat (apply andb_true_iff in H as [H ?]).
  apply bool_decide_eq_true in H as [h E]. apply bool_decide_eq_true in H5. apply Z.eqb_eq in H4, H1. split.
  - unfold heap_of. by rewrite E.
  - split; [by intros _ _|done|by apply (Scheduler.si_links _ _ (Board.sched_b_sound _ H3))|].
    eexists. split; [by apply sem_b_sound|done].
  - by apply mpool_b_sound.
Qed.

Example mheap0_ok : mheap_b mheap0 [(484, false)] [0x20010000] = true.
Proof. vm_compute. reflexivity. Qed.
Example mheap1_ok : mheap_b mheap1 [(44, true); (64, false); (124, true); (252, false)] [0x2001002c; 0x200100e8] = true.
Proof. vm_compute. reflexivity. Qed.

Definition ram_b (s : kms) : bool :=
  bytes_b (ms_ram s.2) (mh_start_addr (heap_of s)) (mh_pool_size (heap_of s)) && (mh_start_addr (heap_of s) mod 4 =? 0).

Lemma ram_b_sound s : ram_b s = true -> pool_ram (heap_of s) (ms_ram s.2).
Proof. unfold ram_b. intros [[H1 H2]%bytes_b_sound H3%Z.eqb_eq]%andb_true_iff. by split. Qed.

Example mheap1_ram : ram_b mheap1 = true.
Proof. vm_compute. reflexivity. Qed.

#[global] Opaque mheap0 mheap1.

Definition mheap1_map : gmap Z (list Z) :=
  block_map 24 (ms_ram mheap1.2) (mh_start_addr (heap_of mheap1)) [(44, true); (64, false); (124, true); (252, false)].

Lemma mheap1_view : mheap_view 0 mheap1 mheap1_map.
Proof.
  exists (heap_of mheap1), [(44, true); (64, false); (124, true); (252, false)], [0x2001002c; 0x200100e8].
  split; [exact (mheap_b_sound _ _ _ mheap1_ok)|]. split; [exact (ram_b_sound _ mheap1_ram)|reflexivity].
Qed.

(** ** The map *)
(** C30: a memory heap implements a finite map from addresses to blocks of bytes.
    [rt_memheap_alloc] either returns RT_NULL and changes nothing, or adds an
    entry of at least the requested size at an aligned address;
    [rt_memheap_free] of an entry deletes it; [rt_memheap_realloc] of an entry
    either returns RT_NULL and changes nothing, or replaces it by one with room
    for the new size that has the old bytes as far as they fit, at the same
    address or a new one; writing to an entry changes this entry only; entries
    do not overlap.  The sizes must not wrap when they are rounded up. *)
Theorem memheap_implements_map raw hp s U :
  mheap_view hp s U ->
  (forall size, 0 < size <= 2 ^ 32 - 4 ->
    rt_memheap_alloc raw hp size s = Ok 0 s \/
    exists r s' l, rt_memheap_alloc raw hp size s = Ok r s' /\ mheap_view hp s' (<[r := l]> U) /\ U !! r = None /\
      size <= Z.of_nat (length l) /\ r <> 0 /\ r mod 4 = 0) /\
  (forall r l, U !! r = Some l ->
    (exists s', rt_memheap_free r s = Ok tt s' /\ mheap_view hp s' (delete r U)) /\
    (forall size, 0 < size -> request_size size + 12 < 2 ^ 32 -> size <= 2 ^ 32 - 4 ->
      rt_memheap_realloc raw hp r size s = Ok 0 s \/
      exists r' s' l', rt_memheap_realloc raw hp r size s = Ok r' s' /\ r' <> 0 /\
        mheap_view hp s' (<[r' := l']> (delete r U)) /\ (r' = r \/ U !! r' = None) /\
        size <= Z.of_nat (length l') /\ (l `prefix_of` l' \/ l' `prefix_of` l)) /\
    (forall l', length l' = length l -> Forall byte_ok l' ->
      exists m', write_bytes (ms_ram s.2) r l' = Some m' /\ mheap_view hp (set_pool_ram m' s) (<[r := l']> U)) /\
    (forall r' l', U !! r' = Some l' -> r <> r' ->
      r + Z.of_nat (length l) <= r' \/ r' + Z.of_nat (length l') <= r)).
Proof.
  intros HV. split; [intros size; by apply mview_alloc|]. intros r l E. split; [|split; [|split]].
  - destruct (mview_free hp s U r l HV E) as (s' & E1 & E2 & _). by exists s'.
  - intros size. by apply mview_realloc.
  - intros l'. by apply mview_write.
  - intros r' l'. by apply (mview_apart hp s U).
Qed.

(** The block of 100 bytes of [mheap1] is made larger. *)
Example memheap_implements_map_witness :
  mheap_view 0 mheap1 mheap1_map /\
  forall r l, mheap1_map !! r = Some l ->
    rt_memheap_realloc raw_item 0 r 200 mheap1 = Ok 0 mheap1 \/
    exists r' s' l', rt_memheap_realloc raw_item 0 r 200 mheap1 = Ok r' s' /\
      mheap_view 0 s' (<[r' := l']> (delete r mheap1_map)) /\ 200 <= Z.of_nat (length l').
Proof.
  split; [exact mheap1_view|]. intros r l E.
  destruct (memheap_implements_map raw_item 0 mheap1 mheap1_map mheap1_view) as [_ H].
  destruct (H r l E) as (_ & HR & _). destruct (HR 200) as [H1|(r' & s' & l' & H1 & _ & H2 & _ & H3 & _)].
  - lia.
  - vm_compute. reflexivity.
  - lia.
  - left. exact H1.
  - right. exists r', s', l'. split; [exact H1|]. split; [exact H2|exact H3].
Defined.

(** ** The blocks *)
(** C31: [rt_memheap_alloc] is first fit in the order of the free list.  It
    returns RT_NULL and changes nothing when the request is not less than all
    available bytes together, or no free block has room; else the first block of
    the free list with room is taken: whole, or when the rest has room for a
    header and 12 bytes cut in two, the rest put at the front of the free list.
    The search ends, the counters follow, and nothing else is touched: not the
    other headers in memory, not the other heaps, no data. *)
Theorem memheap_alloc_first_fit raw hp k HP I R h bs fl size :
  let n := request_size size in
  let start := mh_start_addr h in
  mheap_at hp (k, Mstore HP I R) h bs fl ->
  ((mh_available_size h <= n \/ Forall (fun y => fits n start bs y = false) fl) /\
    rt_memheap_alloc raw hp size (k, Mstore HP I R) = Ok 0 (k, Mstore HP I R)) \/
  exists P T A len B ms', let x := start + total A in let h' := counted (taken_bytes n len) h in
    n < mh_available_size h /\ fl = P ++ x :: T /\ Forall (fun y => fits n start bs y = false) P /\
    bs = A ++ (len, false) :: B /\ n + 24 <= len /\
    rt_memheap_alloc raw hp size (k, Mstore HP I R) = Ok (x + 24) (k, ms') /\
    mheap_at hp (k, ms') h' (A ++ taken_blocks n len B) (taken_free n len x (P ++ T)) /\ others hp h (Mstore HP I R) ms'.
Proof. intros n start HA. by apply mheap_alloc_eq. Qed.

(** 60 bytes do not fit in the hole, which is first in the free list. *)
Example memheap_alloc_first_fit_witness :
  mheap_at 0 mheap1 (heap_of mheap1) [(44, true); (64, false); (124, true); (252, false)] [0x2001002c; 0x200100e8] /\
  exists r ms', rt_memheap_alloc raw_item 0 60 mheap1 = Ok r (mheap1.1, ms').
Proof.
  pose proof (mheap_b_sound _ _ _ mheap1_ok) as HA. split; [exact HA|].
  destruct mheap1 as [k [HP I R]].
  destruct (memheap_alloc_first_fit raw_item 0 k HP I R _ _ _ 60 HA) as [[_ E]|(P & T & A & len & B & ms' & _ & _ & _ & _ & _ & E & _)];
    eexists; eexists; exact E.
Defined.

(** C32: [rt_memheap_free] of a used block: the block and the free blocks beside
    it become one free block; it keeps its place in the free list when the block
    before was free and is put at the front otherwise, and a free block behind
    leaves the list; [available_size] grows by the data of the block and 24 bytes
    for every header that is not needed any more.  No assertion fails, and
    nothing else is touched. *)
Theorem memheap_free_coalesces hp k HP I R h A len B fl :
  let x := mh_start_addr h + total A in
  mheap_at hp (k, Mstore HP I R) h (A ++ (len, true) :: B) fl ->
  exists ms', rt_memheap_free (x + 24) (k, Mstore HP I R) = Ok tt (k, ms') /\
    mheap_at hp (k, ms') (given (freed_bytes A len B) h) (free_blocks A len B) (freed_free x (x + len) A B fl) /\
    others hp h (Mstore HP I R) ms'.
Proof. apply mheap_free_eq. Qed.

(** The block between the hole and the rest is freed: one free block of 440 bytes. *)
Example memheap_free_coalesces_witness :
  exists ms', rt_memheap_free (mh_start_addr (heap_of mheap1) + 108 + 24) mheap1 = Ok tt (mheap1.1, ms') /\
    mheap_at 0 (mheap1.1, ms') (given (100 + 24 + 24) (heap_of mheap1)) [(44, true); (440, false)] [0x2001002c].
Proof.
  pose proof (mheap_b_sound _ _ _ mheap1_ok) as HA.
  assert (mh_start_addr (heap_of mheap1) = 0x20010000) as Es by (vm_compute; reflexivity).
  destruct mheap1 as [k [HP I R]].
  destruct (memheap_free_coalesces 0 k HP I R _ [(44, true); (64, false)] 124 [(252, false)] _ HA) as (ms' & E & HA' & _).
  exists ms'. split; [exact E|]. rewrite Es in HA'. exact HA'.
Defined.

(** ** What goes wrong *)
Lemma take_bytes_any hp h HP I R n :
  HP !! hp = Some h ->
  exists h1, take_bytes hp n (Mstore HP I R) = Ok tt (Mstore (<[hp := h1]> HP) I R) /\
    mh_free_list h1 = mh_free_list h /\ mh_lock h1 = mh_lock h.
Proof.
  intros Eh. unfold take_bytes. rewrite (bind_ok _ _ _ _ _ (upd_memheap_ok _ _ _ _ _ _ Eh)).
  rewrite (upd_memheap_ok _ _ _ _ _ _ (lookup_insert_eq _ _ _)), insert_insert_eq. eexists. split; [reflexivity|].
  by destruct (_ <? _).
Qed.

(** The growing branch with a size whose sum with [RT_MEMHEAP_MINIALLOC] wraps. *)
Lemma expand_wraps raw hp h HP R I A l l2 B fl n :
  let x := mh_start_addr h + total A in
  HP !! hp = Some h -> pool_rep hp h I (A ++ (l, true) :: (l2, false) :: B) fl -> 2 ^ 32 - 12 <= n < 2 ^ 32 ->
  exists ms', realloc_expand raw hp (x + 24) x (l - 24) n (Mstore HP I R) = Ok true ms' /\ ms_heaps ms' !! hp <> None /\
    forall h', ms_heaps ms' !! hp = Some h' -> mh_lock h' = mh_lock h.
Proof.
  intros x Eh HR Hn. pose proof (pr_ok _ _ _ _ _ HR) as HO. pose proof HO as HO0.
  pose proof (resize_bounds raw hp h HP R I A ((l2, false) :: B) l fl 0 Eh HR eq_refl) as Hb. simpl in Hb.
  pose proof (pr_blocks _ _ _ _ _ HR) as Hbk. apply Forall_app in Hbk as [_ [_ [[Hl2 _] HbB]%Forall_cons]%Forall_cons]. simpl in Hl2.
  pose proof (free_total_bounds _ HbB).
  destruct (two_hdrs _ _ _ _ _ _ _ _ _ _ _ _ HO) as (ix & i2 & Ex & _ & _ & En & E2 & Em & _ & En2 & _). fold x in Ex, En, E2, En2.
  set (y := x + 24 + n - 2 ^ 32).
  assert (y <> x /\ y <> x + (l + l2) /\ y < x + 24 /\ x + 12 <= y) as (Hy1 & Hy2 & Hy3 & Hy4) by lia.
  unfold realloc_expand. rewrite (bind_ok _ _ _ _ _ (get_item_at _ _ _ _ _ Ex)), En. cbv zeta.
  rewrite bind_assert by (apply Z.ltb_lt; lia). rewrite (bind_ok _ _ _ _ _ (is_used_at _ _ _ _ _ E2)), Em, magic_used.
  change (negb false) with true. cbv iota. rewrite (bind_ok _ _ _ _ _ (memitem_size_at _ _ _ _ _ E2)), En2.
  rewrite bind_assert by (apply Z.ltb_lt; lia). change RT_MEMHEAP_MINIALLOC with 12.
  replace (u32 (n + 12)) with (n + 12 - 2 ^ 32) by (unfold u32; apply (Z.mod_unique _ _ 1); lia).
  replace (u32 (u32 (x + l + l2 - (x + l) - 24) + (l - 24))) with (l2 + l - 48)
    by (rewrite (u32_small (x + l + l2 - _ - 24)), u32_small by lia; lia).
  rewrite (proj2 (Z.ltb_lt _ _)) by lia.
  destruct (take_bytes_any hp h HP I R (u32 (n - (l - 24))) Eh) as (h1 & E0 & Ef & El). rewrite (bind_ok _ _ _ _ _ E0).
  set (HP1 := <[hp := h1]> HP). assert (HP1 !! hp = Some h1) as Eh1 by apply lookup_insert_eq.
  assert (x + l ∈ fl) as Hin by (rewrite (pr_free _ _ _ _ _ HR), free_addrs_app; simpl; set_solver).
  apply list_elem_of_split in Hin as (P & Q & ->).
  destruct (remove_free_pool _ _ _ _ HP1 R _ _ _ _ _ HO) as (I1 & E1 & HO1 & F1 & _).
  destruct (merge_next_first_pool _ _ _ _ HP1 R _ _ _ _ _ _ _ _ HO1) as (I2 & [HO2 F2] & E3). fold x in E3.
  rewrite (bind_ok _ _ _ _ _ E1), E3. replace (u32 (x + 24 + n)) with y by (unfold u32, y; apply (Z.mod_unique _ _ 1); lia).
  destruct (block_hdr _ _ _ _ _ _ _ _ _ _ HO2) as (iz & Ez & _ & _ & Nz & Sz). fold x in Ez, Nz, Sz.
  destruct (split_after_ok raw HP1 R I2 hp x y (x + (l + l2))) as (I3 & E4 & Hi & _ & _ & _ & _ & Snf & _);
    [by rewrite Ez, <-Nz|done|done|done|].
  rewrite (bind_ok _ _ _ _ _ E4). pose proof HO2 as [[_ _ H3] Ha]. pose proof (apart_nodup _ _ _ _ _ Ha) as Hnd.
  destruct (ring_link _ _ _ _ _ H3) as [Ey _]. set (z := succ_of (mh_free_list h) (P ++ Q)) in *.
  assert (forall a, a ∈ mh_free_list h :: P ++ Q -> a <> y) as Hne.
  { intros a Hain Eay. apply elem_of_cons in Hain as [Eaf|Ha'].
    - pose proof (pa_fh _ _ _ _ _ Ha). lia.
    - subst a. assert (y ∈ P ++ (x + l) :: Q) as Hin by set_solver. rewrite (pr_free _ _ _ _ _ HR) in Hin. apply free_addrs_sub in Hin.
      revert Hin. apply inside_not_addr; [|simpl; lia].
      eapply Forall_impl; [exact (pr_blocks _ _ _ _ _ HR)|]. intros b [? _]. simpl. lia. }
  assert (z ∈ mh_free_list h :: P ++ Q) as Hz by (unfold z, succ_of; destruct (P ++ Q); simpl; set_solver).
  assert (forall a, a ∈ mh_free_list h :: P ++ Q -> is_Some (I3 !! a)) as Hdom.
  { intros a Ha'. destruct (ring_dom _ _ _ _ _ H3 Ha') as [ia Eia]. pose proof (same_one _ _ _ _ _ Snf (Hne _ Ha')) as Hs.
    rewrite Eia in Hs. apply fmap_Some in Hs as (? & ? & _). eauto. }
  destruct (insert_free_ok HP1 R I3 hp h1 y z Eh1) as (I4 & E5 & _).
  { rewrite Ef, (same_one _ _ _ _ _ Snf); [done|]. apply Hne. set_solver. }
  { exact (proj_some _ _ _ _ (in_new_next _ _ _ _ _ _ _ Hi)). }
  { by apply Hdom. }
  { rewrite Ef. intros E'. apply (Hne (mh_free_list h)); [set_solver|done]. }
  { intros E'. by apply (Hne z). }
  rewrite (bind_ok _ _ _ _ _ E5). eexists. split; [reflexivity|]. simpl. rewrite Eh1. split; [done|]. by intros h' [= <-].
Qed.

(** C33: [rt_memheap_realloc] does not notice a size that is too large when the
    next block is free.  The test for room adds [RT_MEMHEAP_MINIALLOC] to the
    size without a check, so for the largest sizes, rounded up 2^32 - 12 or more,
    the sum wraps and every free block seems large enough: the call returns the
    pointer as if the block had been extended, although no block of the
    heap can hold that many bytes. *)
Theorem memheap_realloc_wraps raw hp k HP I R h A l l2 B fl newsize :
  let x := mh_start_addr h + total A in
  mheap_at hp (k, Mstore HP I R) h (A ++ (l, true) :: (l2, false) :: B) fl ->
  0 < newsize -> 2 ^ 32 - 12 <= request_size newsize ->
  mh_pool_size h - 48 < request_size newsize /\
  exists s', rt_memheap_realloc raw hp (x + 24) newsize (k, Mstore HP I R) = Ok (x + 24) s'.
Proof.
  intros x HA Hnew Hbig. pose proof (ma_rep _ _ _ _ _ HA) as HR. simpl in HR. destruct (request_size_range newsize) as [Hr _].
  pose proof (resize_bounds raw hp h HP R I A ((l2, false) :: B) l fl 0 (ma_heap _ _ _ _ _ HA) HR eq_refl) as Hb. simpl in Hb.
  split; [lia|]. destruct (block_hdr _ _ _ _ _ _ _ _ _ _ (pr_ok _ _ _ _ _ HR)) as (ix & Ex & _ & _ & En & _). fold x in Ex, En.
  destruct (expand_wraps raw hp h HP R I A l l2 B fl (request_size newsize) (ma_heap _ _ _ _ _ HA) HR) as (ms' & E & Hh & Hl); [lia|].
  fold x in E. exists (k, ms'). unfold rt_memheap_realloc.
  rewrite (proj2 (Z.eqb_neq newsize 0)), (proj2 (Z.eqb_neq (x + 24) 0)) by (unfold x; lia). cbv zeta.
  change RT_MEMHEAP_SIZE with 24. rewrite (u32_small (x + 24 - 24)) by (unfold x; lia). replace (x + 24 - 24) with x by lia.
  rewrite (bind_ok _ _ _ _ _ (on_pool_ok _ _ _ _ _ (memitem_size_at _ _ _ _ _ Ex))), En, u32_small by lia.
  replace (x + l - x - 24) with (l - 24) by lia. rewrite (proj2 (Z.ltb_lt _ _)) by lia.
  rewrite (bind_ok _ _ _ (Some true) (k, ms')); [done|].
  rewrite (with_lock_ok hp k HP I R h _ fl HA), (bind_ok _ _ _ _ _ (on_pool_ok _ _ _ _ _ E)).
  destruct ms' as [HP' I' R']. simpl in Hh, Hl. destruct (HP' !! hp) as [h'|] eqn:Eh'; [|done].
  by rewrite (bind_ok _ _ _ _ _ (unlock_ok hp k HP I R h _ fl HA _ _ _ h' Eh' (Hl h' eq_refl))).
Qed.

(** The block of 20 bytes in front of the hole is "extended" to 2^32 - 12 bytes. *)
Example memheap_realloc_wraps_witness :
  exists s', rt_memheap_realloc raw_item 0 0x20010018 (2 ^ 32 - 12) mheap1 = Ok 0x20010018 s'.
Proof.
  pose proof (mheap_b_sound _ _ _ mheap1_ok) as HA.
  assert (mh_start_addr (heap_of mheap1) = 0x20010000) as Es by (vm_compute; reflexivity).
  destruct mheap1 as [k [HP I R]].
  destruct (memheap_realloc_wraps raw_item 0 k HP I R _ [] 44 64 [(124, true); (252, false)] _ (2 ^ 32 - 12) HA) as [_ [s' E]].
  - lia.
  - vm_compute. discriminate.
  - exists s'. rewrite Es in E. exact E.
Defined.
End MemHeapTheorems.
