(* ===== verification/AllocTheorems.v ===== *)
(** * The system heap as an allocator, and aligned blocks

    [heap_allocator]: the small-memory heap keeps the contract of
    [Allocator.v]; so what is proved against the contract holds of it. *)
From S2P Require Import Prelude Kservice Ram RtList KMonad KState KPrim KInv Scheduler Object TimerBase Thread Timer Ipc Mem KernelInv BlockProof Board SemProof MemProof BlockMap Allocator MemSpec MemTheorems HeapMap.
Import Ram Mem SemProof MemProof Allocator MemSpec MemTheorems HeapMap.
Local Open Scope Z_scope.
Local Open Scope kmonad_scope.

Module AllocTheorems.

Definition heap_ram (s : khs) : ram := hp_ram s.2.
Definition set_heap_ram (m : ram) (s : khs) : khs := (s.1, set_hp_ram m s.2).
(** The heap is not in use, and [U] is what is allocated. *)
Definition open_view (s : khs) (U : gmap Z (list Z)) : Prop := heap_open s.1 s.2 /\ heap_view s.2 U.

Lemma view_bytes h U r l : heap_view h U -> U !! r = Some l ->
  read_bytes (hp_ram h) r (length l) = Some l /\ Forall byte_ok l /\ 0 < r /\ r + Z.of_nat (length l) <= 2 ^ 32.
Proof.
  intros (pre & suf & HR & ->) E. destruct (view_entry _ _ _ _ _ HR E) as (A & n & B & EL & -> & Hn & El & Hl & Hend).
  destruct (block_place h pre suf A (n + 12, true) B HR EL) as (H1 & _).
  pose proof (hr_base _ _ _ HR). pose proof (hr_top _ _ _ HR).
  replace (length l) with (Z.to_nat n) by lia. split; [done|]. split; [|lia].
  apply read_bytes_lookup in El as [_ El]. apply Forall_lookup. intros i b Hi. apply El in Hi.
  by apply (hr_ok _ _ _ HR) in Hi.
Qed.

#[export] Instance heap_allocator : Allocator rt_malloc rt_free heap_ram set_heap_ram open_view.
Proof.
  split.
  - intros [k h] U size [Ho HV] Hs. destruct (view_malloc k h U size Ho HV Hs) as [E|(r & h' & l & E & H1 & H2 & H3 & H4 & H5 & H6 & H7)];
      [by left|right]. exists r, (k, h'), l. split; [done|]. split; [split; [by apply (heap_open_same k h); [apply H7|]|done]|].
    split; [done|]. split; [done|]. split; [|done]. destruct HV as (pre & suf & HR & _).
    pose proof (hr_base _ _ _ HR).
    simpl in *. lia.
  - intros [k h] U r l [Ho HV] E. destruct (view_free k h U r l Ho HV E) as (h' & EF & H1 & H2).
    exists (k, h'). split; [done|]. split; [by apply (heap_open_same k h); [apply H2|]|done].
  - intros [k h] U r l [_ HV]. by apply view_bytes with (U := U).
  - intros [k h] U r l l' [Ho HV] E Hl Hb. destruct (view_write h U r l l' HV E Hl Hb) as (m' & Ew & HV').
    exists m'. split; [done|]. by split.
  - intros [k h] U r l r' l' [_ HV]. by apply (view_apart h U).
  - intros [k h] U [_ (pre & suf & HR & _)]. apply HR.
Qed.

(** C34: [rt_malloc_align] and [rt_free_align].  For an alignment that is a power
    of two, rounded up to 4 at least, and a size with which the sum does not
    wrap, [rt_malloc_align] either returns RT_NULL and changes nothing, or an
    address that is a multiple of the alignment and has room for the size inside
    a new block of the heap; whatever the owner writes from this address on, and
    whatever happens to other blocks, [rt_free_align] frees exactly this block. *)
Theorem malloc_align_roundtrip k h U size align j :
  heap_open k h -> heap_view h U -> 2 <= j < 32 -> align_up4 align = 2 ^ j -> 0 < size -> size + 3 + 2 ^ j < 2 ^ 32 - 3 ->
  rt_malloc_align rt_malloc heap_ram set_heap_ram size align (k, h) = Ok 0 (k, h) \/
  exists p s' r l, rt_malloc_align rt_malloc heap_ram set_heap_ram size align (k, h) = Ok p s' /\ p <> 0 /\ p mod 2 ^ j = 0 /\
    open_view s' (<[r := l]> U) /\ U !! r = None /\ r + 4 <= p /\ p + size <= r + Z.of_nat (length l) /\
    forall s2 U2 l2, open_view s2 U2 -> U2 !! r = Some l2 -> length l2 = length l ->
      take (Z.to_nat (p - r)) l2 = take (Z.to_nat (p - r)) l ->
      exists s3, rt_free_align rt_free heap_ram p s2 = Ok tt s3 /\ open_view s3 (delete r U2).
Proof.
  intros Ho HV Hj Ha Hs Hm. by apply (malloc_align_ok rt_malloc rt_free heap_ram set_heap_ram open_view (k, h) U size align j).
Qed.

(** 20 bytes aligned to 32. *)
Example malloc_align_roundtrip_witness :
  exists p s', rt_malloc_align rt_malloc heap_ram set_heap_ram 20 32 (heap1.1, heap1.2) = Ok p s' /\ p mod 32 = 0.
Proof.
  assert (exists U, heap_view heap1.2 U) as [U HU].
  { eexists. exists [(32, true)], [(52, false); (24, true); (120, false)].
    split; [exact (rep_b_sound _ _ _ heap1_rep)|reflexivity]. }
  destruct (malloc_align_roundtrip heap1.1 heap1.2 U 20 32 5 (open_b_sound _ heap1_open) HU) as
    [E|(p & s' & r & l & E & _ & H & _)].
  - lia.
  - vm_compute. reflexivity.
  - lia.
  - vm_compute. reflexivity.
  - exists 0. eexists. split; [exact E|reflexivity].
  - exists p, s'. split; [exact E|exact H].
Defined.
End AllocTheorems.
