(* ===== verification/ObjectTheorems.v ===== *)
(** * Object containers: the properties

    The registry of named objects that the rest of the kernel and the shell
    rely on: a search by name, and the life of an object in its container. *)
From S2P Require Import Prelude Kservice RtList KMonad KState KPrim KInv Scheduler Object TimerBase Thread Timer Ipc KernelInv ObjectProof BlockProof Board SchedTheorems MemSpec.
Import Kservice Scheduler Object ObjectProof SchedTheorems MemSpec.
Local Open Scope Z_scope.
Local Open Scope kmonad_scope.

Module ObjectTheorems.

Lemma object_of_lock o n (k : kview) : object_of o (set_lock_nest n k) = object_of o k.
Proof. by destruct o as [t|tm|[i|i|i|i|i|i]|i|im]. Qed.

Lemma is_named_lock name n (k : kview) o : is_named (set_lock_nest n k) name o = is_named k name o.
Proof. unfold is_named. by rewrite object_of_lock. Qed.

Lemma container_lock n (k : kview) c os : container k c os -> container (set_lock_nest n k) c os.
Proof.
  intros [H1 H2]. split; [done|]. eapply Forall_impl; [exact H2|]. intros o (ob & [? ? ?]).
  exists ob. split; [by rewrite object_of_lock|done..].
Qed.

Lemma find_ext {A} (f g : A -> bool) l : (forall x, f x = g x) -> find f l = find g l.
Proof. intros H. induction l as [|x l IH]; simpl; [done|]. by rewrite H, IH. Qed.

(** The search runs with the scheduler locked. *)
Lemma object_find_eq (k : kview) c os name :
  links_ok (k_links k) -> quiet k -> k_irq_nest k = 0 -> 0 <= k_lock_nest k < 32767 ->
  c ∈ rt_object_container -> container k c os -> Forall is_byte name -> readable name RT_NAME_MAX ->
  rt_object_find (Some name) c k =
    ((if k_lock_nest k =? 0 then rt_schedule else ret tt) ;! ret (find (is_named k name) os)) k.
Proof.
  intros HV Hq Hi Hl Hc Hos Hb Hr. unfold rt_object_find.
  assert ((RT_Object_Class_Unknown <? c) = false) as ->.
  { unfold rt_object_container in Hc. apply Z.ltb_ge.
    repeat (apply elem_of_cons in Hc as [->|Hc]; [done|]). by apply not_elem_of_nil in Hc. }
  rewrite (bind_ok _ _ _ _ _ (not_in_interrupt_ok _ Hq Hi)), (bind_ok _ _ _ _ _ (enter_critical_eq k Hq)).
  rewrite (information_ok _ Hc), bind_assert by done. unfold lift_opt at 1. rewrite bind_ret.
  rewrite i16_small by lia. set (k1 := set_lock_nest (k_lock_nest k + 1) k).
  rewrite (bind_ok (list_next (LObjHead c)) _ k1 (default (LObjHead c) (head (LObj <$> os))) k1).
  2:{ unfold list_next. simpl. by rewrite (queue_next_head _ _ _ (proj1 Hos)). }
  rewrite (bind_ok list_fuel _ k1 (S (size (k_links k1))) k1) by done.
  assert (length os < S (size (k_links k1)))%nat as Hs.
  { pose proof (coherent_size _ _ _ (lo_coherent _ HV) (proj1 Hos)) as Hs. rewrite length_fmap in Hs.
    change (k_links k1) with (k_links k). lia. }
  rewrite (bind_ok _ _ _ _ _ (find_loop_ok k1 c name os [] _ HV (container_lock _ _ _ _ Hos) Hb Hr Hs)).
  rewrite (find_ext _ (is_named k name)) by (intros; apply is_named_lock).
  unfold bind. rewrite exit_critical_eq by exact Hq. unfold k1. cbn [k_lock_nest set_lock_nest]. cbv zeta.
  rewrite i16_small by lia. replace (k_lock_nest k + 1 - 1) with (k_lock_nest k) by lia.
  rewrite set_lock_nest_twice.
  destruct (Z.eqb_spec (k_lock_nest k) 0) as [E|E].
  - rewrite E. simpl. do 2 f_equal. rewrite <-E. by destruct k.
  - rewrite (proj2 (Z.leb_gt _ _)) by lia. unfold ret. cbn [res_bind]. f_equal. rewrite set_lock_nest_twice. by destruct k.
Qed.

(** [rt_object_find] returns the newest object of the class whose name equals
    the given one up to the terminator or up to [RT_NAME_MAX] characters, and
    nothing if there is none.  The search runs with the scheduler locked, and
    when the lock is released at its end the scheduling that was held back is
    done.  A null name finds nothing. *)
Theorem object_find_first (k : kview) c os name :
  links_ok (k_links k) -> quiet k -> k_irq_nest k = 0 -> 0 <= k_lock_nest k < 32767 ->
  c ∈ rt_object_container -> container k c os -> Forall is_byte name -> readable name RT_NAME_MAX ->
  rt_object_find (Some name) c k =
    ((if k_lock_nest k =? 0 then rt_schedule else ret tt) ;! ret (find (is_named k name) os)) k /\
  rt_object_find None c k = Ok None k.
Proof. intros. split; [by apply object_find_eq|done]. Qed.

(** C22: the life of an IPC object or memory pool in the container of its class.
    [rt_object_init] registers it under the given name, cut to [RT_NAME_MAX]
    characters, as the newest of its class; a search for the name then finds it;
    [rt_object_detach] restores the container.  The kernel invariant holds all
    along. *)
Theorem object_lifecycle idle (k : kview) Q i c os name ob :
  let o := OIpc i in
  kinv idle k Q -> quiet k -> k_irq_nest k = 0 -> k_lock_nest k = 0 -> c ∈ rt_object_container ->
  container k c os -> o ∉ os -> v_loose (k_links k) (LObj o) = true -> object_of o k = Some ob ->
  Forall is_byte name -> readable name RT_NAME_MAX ->
  length (o_name ob) = RT_NAME_MAX ->
  exists k1 k2 name',
    rt_object_init o c name k = Ok tt k1 /\ kinv idle k1 Q /\ container k1 c (o :: os) /\
    object_of o k1 = Some (Object name' (static_type c) (o_flag ob)) /\ same_name name' name RT_NAME_MAX = true /\
    rt_object_find (Some name) c k1 = (rt_schedule ;! ret (Some o)) k1 /\
    rt_object_detach o k1 = Ok tt k2 /\ kinv idle k2 Q /\ container k2 c os /\
    v_loose (k_links k2) (LObj o) = true.
Proof.
  intros o HI Hq Hi Hl Hc [Hos Hh] Hno Hlo Hob Hb Hr Hlen.
  destruct (strncpy_total (o_name ob) name RT_NAME_MAX) as (name' & Hcpy & Hb'); [done..|].
  pose proof (si_links _ _ (ki_sched _ _ _ HI)) as HV.
  destruct (object_init_ok k o c name (LObj <$> os) ob name') as (V & E & HV1 & Hq1 & Hch1); [done..|].
  set (ob1 := Object name' (static_type c) (o_flag ob)) in E. set (k1 := set_links V (with_object o ob1 k)) in E.
  assert (kinv idle k1 Q) as HI1.
  { unfold k1. eapply kinv_container; [by apply kinv_header|done|]. unfold o. by destruct i. }
  assert (forall o', object_of o' k1 = object_of o' (with_object o ob1 k)) as Hof by (by intros [t|tm|[]|dv|dvm]).
  assert (header_ok k1 o ob1) as Ho.
  { split; [rewrite Hof; by eapply with_object_of|done|simpl]. by rewrite (rt_strncpy_length _ _ _ _ Hcpy). }
  assert (Forall (fun o' => exists ob', header_ok k1 o' ob') os) as Hh1.
  { apply Forall_forall. intros o' Ho'. eapply Forall_forall in Hh as (ob' & [? ? ?]); [|exact Ho'].
    exists ob'. split; [|done..]. rewrite Hof, with_object_other; [done|]. set_solver. }
  assert (container k1 c (o :: os)) as Hc1 by (split; [done|constructor; eauto]).
  assert (quiet k1 /\ k_irq_nest k1 = 0 /\ k_lock_nest k1 = 0) as (Q1 & Q2 & Q3).
  { unfold k1, o. destruct i; (split; [exact Hq|split; [exact Hi|exact Hl]]). }
  destruct (object_detach_ok k1 o c [] (LObj <$> os)) as (V2 & E2 & HV2 & Hq2 & Hl2 & Hch2); [apply HI1|done|done|].
  exists k1, (set_links V2 k1), name'. split; [done|]. split; [done|]. split; [done|]. split; [apply Ho|].
  split; [by apply (strncpy_same_name (o_name ob))|].
  split; [|split; [done|split; [|split; [split; [done|]|]]]].
  - rewrite (object_find_eq k1 c (o :: os)); [|apply HI1|done|done|lia|done..]. rewrite Q3. cbn [Z.eqb find].
    unfold is_named at 1. rewrite (ho_of _ _ _ Ho).
    assert (same_name (o_name ob1) name RT_NAME_MAX = true) as -> by exact (strncpy_same_name _ _ _ _ Hcpy). done.
  - apply (kinv_container _ _ _ _ c o); [done|done|]. eapply changed_weaken; [exact Hch2|done|apply list_subseteq_nil].
  - eapply Forall_impl; [exact Hh1|]. intros o' (ob' & [? ? ?]). exists ob'. split; [by destruct o' as [t|tm|[]|dv|dvm]|done..].
  - unfold v_loose. simpl. by rewrite Hl2.
Qed.

(** ** On the board *)
Definition header_b (k : kview) (o : obj_id) : bool :=
  match object_of o k with
  | Some ob => forallb (fun c => bool_decide (0 <= c < 256)) (o_name ob) && (length (o_name ob) =? RT_NAME_MAX)%nat
  | None => false
  end.

Definition container_b (k : kview) (c : Z) (os : list obj_id) : bool :=
  bool_decide (k_links k !! LObjHead c = Some (LObj <$> os)) && forallb (header_b k) os.

Lemma name_bytes_sound l : forallb (fun c => bool_decide (0 <= c < 256)) l = true -> Forall is_byte l.
Proof.
  intros H. apply Forall_forall. intros c Hc. rewrite forallb_forall in H.
  eapply bool_decide_eq_true, H. by apply list_elem_of_In.
Qed.

Lemma container_b_sound k c os : container_b k c os = true -> container k c os.
Proof.
  unfold container_b. intros [H1%bool_decide_eq_true H2]%andb_true_iff. split; [done|].
  apply Forall_forall. intros o Ho. rewrite forallb_forall in H2. specialize (H2 o).
  rewrite <-list_elem_of_In in H2. specialize (H2 Ho). unfold header_b in H2.
  destruct (object_of o k) as [ob|] eqn:E; [|done]. apply andb_true_iff in H2 as [H2 H3%Nat.eqb_eq].
  exists ob. split; [done|by apply name_bytes_sound|done].
Qed.

(** The two mutexes of the board are called "m" and "n". *)
Example object_find_first_witness :
  rt_object_find (Some [109; 0]) RT_Object_Class_Mutex Board.board =
    (rt_schedule ;! ret (Some (OIpc (IMutex 0)))) Board.board.
Proof.
  destruct (object_find_first Board.board RT_Object_Class_Mutex [OIpc (IMutex 1); OIpc (IMutex 0)] [109; 0]) as [E _].
  - apply (si_links _ _ (ki_sched _ _ _ Board.board_kinv)).
  - apply board_quiet.
  - vm_compute. reflexivity.
  - vm_compute. split; congruence.
  - unfold rt_object_container. set_solver.
  - apply container_b_sound. vm_compute. reflexivity.
  - apply name_bytes_sound. reflexivity.
  - right. set_solver.
  - rewrite E. assert (k_lock_nest Board.board =? 0 = true) as -> by (vm_compute; reflexivity).
    assert (find (is_named Board.board [109; 0]) [OIpc (IMutex 1); OIpc (IMutex 0)] = Some (OIpc (IMutex 0))) as ->
      by (vm_compute; reflexivity). reflexivity.
Defined.

(** Semaphore 1 is not in use yet. *)
Example object_lifecycle_witness :
  exists k1, rt_object_init (OIpc (ISem 1)) RT_Object_Class_Semaphore [120; 0] Board.board = Ok tt k1 /\
    rt_object_find (Some [120; 0]) RT_Object_Class_Semaphore k1 = (rt_schedule ;! ret (Some (OIpc (ISem 1)))) k1.
Proof.
  destruct (object_lifecycle Board.idle Board.board (Board.queues_of Board.board) (ISem 1) RT_Object_Class_Semaphore
    [OIpc (ISem 0)] [120; 0] Board.blank_object) as (k1 & k2 & name' & E1 & _ & _ & _ & _ & E2 & _).
  - apply Board.board_kinv.
  - apply board_quiet.
  - vm_compute. reflexivity.
  - vm_compute. reflexivity.
  - unfold rt_object_container. set_solver.
  - apply container_b_sound. vm_compute. reflexivity.
  - set_solver.
  - vm_compute. reflexivity.
  - vm_compute. reflexivity.
  - apply name_bytes_sound. reflexivity.
  - right. set_solver.
  - reflexivity.
  - exists k1. split; [exact E1|exact E2].
Defined.
End ObjectTheorems.
