(* ===== verification/DynamicProof.v ===== *)
(** * Allocating and deleting kernel objects on the heap

    What [rt_object_allocate] and [rt_object_delete] do with the heap, seen as
    the map of [HeapMap.v], and with the container of the class, for the
    communication objects and memory pools. *)
From S2P Require Import Prelude Kservice Ram RtList KMonad KState KPrim KInv Scheduler Object TimerBase Thread Timer Ipc Mem MemPool Dynamic KernelInv WaitProof BlockProof ObjectProof SemProof MemProof MemSpec HeapMap.
Import Kservice Scheduler Object TimerBase Thread Timer IpcCore Sem Mem Dynamic ObjectProof SemProof MemSpec HeapMap.
Local Open Scope Z_scope.
Local Open Scope kmonad_scope.

Module DynamicProof.

(** A node that was never linked is not linked by linking another one. *)
Lemma insert_after_none (V V' : vlinks) l n x :
  v_insert_after l n V = Some V' -> x <> n -> x <> l -> V !! x = None -> V' !! x = None.
Proof.
  unfold v_insert_after. destruct (V !! l) as [xs|]; [|done]. simpl. case_match; [|done].
  intros [= <-] Hn Hl Hx. by rewrite !lookup_insert_ne, lookup_fmap, Hx by done.
Qed.

Section raw.
Context (raw : raw_objects).

(** The header an object has before it is initialised. *)
Definition raw_header (i : ipc_id) : rt_object :=
  match i with
  | ISem _ => sem_parent raw.(raw_sem)
  | IMutex _ => mx_parent raw.(raw_mutex)
  | IEvent _ => ev_parent raw.(raw_event)
  | IMb _ => mb_parent raw.(raw_mb)
  | IMq _ => mq_parent raw.(raw_mq)
  | IMp _ => mp_parent raw.(raw_mp)
  end.

(** The kernel state with an allocated object in it. *)
Definition placed (i : ipc_id) (name : list Z) (type : Z) (k : kview) : kview :=
  with_object (OIpc i) (Object name type 0) (place_object raw (OIpc i) k).

Lemma place_object_of i (k : kview) : object_of (OIpc i) (place_object raw (OIpc i) k) = Some (raw_header i).
Proof. destruct i; simpl; by rewrite lookup_insert_eq. Qed.

Lemma placed_frame i name type (k : kview) :
  k_links (placed i name type k) = k_links k /\ k_primask (placed i name type k) = k_primask k /\
  k_irq_nest (placed i name type k) = k_irq_nest k /\ k_pendsv (placed i name type k) = k_pendsv k /\
  k_threads (placed i name type k) = k_threads k.
Proof. by destruct i. Qed.

Lemma placed_object_of i name type (k : kview) :
  object_of (OIpc i) (placed i name type k) = Some (Object name type 0).
Proof. apply (with_object_of _ _ _ (raw_header i)), place_object_of. Qed.

Lemma placed_other i name type (k : kview) o : o <> OIpc i -> object_of o (placed i name type k) = object_of o k.
Proof.
  intros Hne. unfold placed. rewrite with_object_other by done.
  destruct i, o as [t|tm|[j|j|j|j|j|j]|j|jm]; simpl; try done; by rewrite lookup_insert_ne by congruence.
Qed.

Lemma kinv_placed idle k Q i name type : kinv idle k Q -> kinv idle (placed i name type k) Q.
Proof. intros HI. apply kinv_header. destruct i; (eapply kinv_frame; [..|exact HI]; done). Qed.

(** A semaphore other than the object keeps its state. *)
Lemma placed_sem i name type (k : kview) j : i <> ISem j -> k_sems (placed i name type k) !! j = k_sems k !! j.
Proof.
  intros Hne. destruct i; try done. simpl. by rewrite lookup_alter_ne, lookup_insert_ne by congruence.
Qed.

(** [register_object], after the memory became the object. *)
Lemma register_ok (k : kview) i c name xs name' :
  links_ok (k_links k) -> quiet k ->
  k_links k !! LObjHead c = Some xs -> v_loose (k_links k) (LObj (OIpc i)) = true -> u8 c = c ->
  rt_strncpy (o_name (raw_header i)) name RT_NAME_MAX = Some name' ->
  exists V, register_object (OIpc i) c name (LObjHead c) (place_object raw (OIpc i) k) =
      Ok tt (set_links V (placed i name' c k)) /\
    links_ok V /\ V !! LObjHead c = Some (LObj (OIpc i) :: xs) /\
    changed [LObjHead c] [LObj (OIpc i)] (k_links k) V /\
    (forall x, x <> LObj (OIpc i) -> k_links k !! x = None -> V !! x = None).
Proof.
  intros HV Hq Hxs Hl Hc Hn.
  destruct (links_push (k_links k) (LObjHead c) (LObj (OIpc i)) xs) as (V & E & HV' & Hq' & Hch); [done..|].
  exists V. split; [|split; [done|split; [done|split; [done|]]]].
  2:{ intros x Hx Ex. apply (insert_after_none _ _ _ _ _ E); [done|congruence|done]. }
  unfold register_object.
  rewrite (bind_ok _ _ _ _ _ (get_object_ok _ _ _ (place_object_of i k))), (bind_lift_opt _ _ name') by done.
  unfold put_object. rewrite bind_modify, Hc. fold (placed i name' c k).
  destruct (placed_frame i name' c k) as (El & Ep & En & Es & _). set (k1 := placed i name' c k) in *.
  assert (quiet k1) as Hq1 by (unfold quiet; rewrite Ep, En, Es; exact Hq).
  unfold rt_hw_interrupt_disable, bind, gets, modify, ret. simpl.
  unfold list_insert_after, list_op1. simpl. rewrite El, E. simpl.
  rewrite interrupt_enable_quiet by exact Hq1. by destruct k1.
Qed.
End raw.

(** ** Heaps and kernel states that go together *)
Lemma heap_open_move k h k' h' :
  heap_open k h -> hp_sem h' = hp_sem h -> quiet k' -> k_irq_nest k' = 0 -> links_ok (k_links k') ->
  k_sems k' !! hp_sem h = k_sems k !! hp_sem h ->
  k_links k' !! LSuspend (ISem (hp_sem h)) = k_links k !! LSuspend (ISem (hp_sem h)) -> heap_open k' h'.
Proof.
  intros [_ _ _ (sm & [H1 H2 H3 H4 H5] & H6)] E Hq Hn HV Es El. split; [done..|].
  exists sm. rewrite E. split; [|done]. by split; rewrite ?Es, ?El.
Qed.

Lemma heap_open_sem k h : heap_open k h -> exists sm, k_sems k !! hp_sem h = Some sm.
Proof. intros [_ _ _ (sm & [H _ _ _ _] & _)]. by exists sm. Qed.

(** ** [rt_object_allocate] *)
(** The class of an object, and how the numbers of a class become objects. *)
Definition class_of (i : ipc_id) : Z :=
  match i with
  | ISem _ => RT_Object_Class_Semaphore | IMutex _ => RT_Object_Class_Mutex | IEvent _ => RT_Object_Class_Event
  | IMb _ => RT_Object_Class_MailBox | IMq _ => RT_Object_Class_MessageQueue | IMp _ => RT_Object_Class_MemPool
  end.

Lemma class_facts i : u8 (class_of i) = class_of i /\ class_of i ∈ rt_object_container /\
  Z.land (class_of i) RT_Object_Class_Static = 0.
Proof. destruct i; (split; [done|split; [unfold rt_object_container; set_solver|done]]). Qed.

(** The other objects of the class. *)
Lemma placed_container raw (mk : nat -> ipc_id) c k os n name' V :
  container k c os -> OIpc (mk n) ∉ os -> Forall is_byte name' -> length name' = RT_NAME_MAX ->
  V !! LObjHead c = Some (LObj (OIpc (mk n)) :: (LObj <$> os)) ->
  container (set_links V (placed raw (mk n) name' c k)) c (OIpc (mk n) :: os).
Proof.
  intros [_ Hh] Hn Hb Hl Hx. split; [done|]. constructor.
  - exists (Object name' c 0). split; [|done..]. rewrite <-(placed_object_of raw (mk n) name' c k).
    by destruct (mk n).
  - apply Forall_forall. intros o Ho. eapply Forall_forall in Hh as (ob & [Hof ? ?]); [|exact Ho].
    exists ob. split; [|done..]. rewrite <-(placed_other raw (mk n) name' c k o) in Hof by set_solver.
    by destruct o as [t|tm|[]|dv|dvm].
Qed.
Section allocate.
Context (raw : raw_objects) (mk : nat -> ipc_id) (c size : Z).
Hypothesis Hmk : forall n, class_of (mk n) = c.
Hypothesis Hat : forall n, object_at c n = Some (OIpc (mk n)).
Hypothesis Hsize : object_size c = Some size.
Hypothesis Hrange : 0 < size < 2 ^ 32 - 3.
Hypothesis Hraw : forall n, length (o_name (raw_header raw (mk n))) = RT_NAME_MAX.
#[local] Set Default Proof Using "All".

Lemma allocate_ok k h U os name :
  heap_open k h -> heap_view h U -> container k c os -> Forall is_byte name -> readable name RT_NAME_MAX ->
  (forall n, hp_ptr h < Z.of_nat n < hp_end h -> U !! Z.of_nat n = None ->
    v_loose (k_links k) (LObj (OIpc (mk n))) = true /\ mk n <> ISem (hp_sem h)) ->
  rt_object_allocate raw c name (k, h) = Ok None (k, h) \/
  exists n h' l name' V,
    let k' := set_links V (placed raw (mk n) name' c k) in
    rt_object_allocate raw c name (k, h) = Ok (Some n) (k', h') /\
    hp_ptr h < Z.of_nat n < hp_end h /\ U !! Z.of_nat n = None /\ size <= Z.of_nat (length l) /\
    heap_view h' (<[Z.of_nat n := l]> U) /\ same_place h h' /\ heap_open k' h' /\
    same_name name' name RT_NAME_MAX = true /\ Forall is_byte name' /\ length name' = RT_NAME_MAX /\
    V !! LObjHead c = Some (LObj (OIpc (mk n)) :: (LObj <$> os)) /\
    changed [LObjHead c] [LObj (OIpc (mk n))] (k_links k) V /\ links_ok V /\
    (forall x, x <> LObj (OIpc (mk n)) -> k_links k !! x = None -> V !! x = None).
Proof.
  intros Ho HU [Hos Hh] Hb Hr Hfresh. destruct (class_facts (mk 0)) as (Hc8 & Hcin & _). rewrite Hmk in Hc8, Hcin.
  assert (rt_object_allocate raw c name (k, h) = (let! object := rt_malloc size in
    if object =? 0 then ret None
    else let n := Z.to_nat object in
      let! o := lift_opt Bad_pointer (object_at c n) in
      kernel (modify (place_object raw o)) ;!
      kernel (register_object o c name (LObjHead c)) ;! ret (Some n)) (k, h)) as ->.
  { unfold rt_object_allocate. rewrite (bind_ok _ _ _ _ _ (kernel_ok _ _ h _ _ (not_in_interrupt_ok k (ho_quiet _ _ Ho) (ho_nest _ _ Ho)))).
    by rewrite (information_ok _ Hcin), Hsize. }
  destruct (view_malloc k h U size Ho HU Hrange) as [E|(r & h' & l & E & H1 & H2 & H3 & H4 & H5 & H6 & H7)].
  { left. by rewrite (bind_ok _ _ _ _ _ E). }
  destruct HU as (pre & suf & HR & HU). pose proof (MemProof.hr_base _ _ _ HR) as Hpos.
  right. set (n := Z.to_nat r). assert (Z.of_nat n = r) as En by (unfold n; lia).
  destruct (Hfresh n) as [Hl Hne]; [lia|by rewrite En|].
  destruct (strncpy_total (o_name (raw_header raw (mk n))) name RT_NAME_MAX) as (name' & Hcpy & Hb'); [by rewrite Hraw|done..|].
  destruct (register_ok raw k (mk n) c name (LObj <$> os) name' (ho_links _ _ Ho) (ho_quiet _ _ Ho) Hos Hl Hc8 Hcpy)
    as (V & ER & HV & Hx & Hch & Hno).
  exists n, h', l, name', V. intros k'. rewrite En. split; [|split; [lia|]].
  - rewrite (bind_ok _ _ _ _ _ E), (proj2 (Z.eqb_neq _ _)) by lia. fold n. cbv zeta. rewrite Hat.
    unfold lift_opt. rewrite bind_ret.
    rewrite (bind_ok (kernel (modify (place_object raw (OIpc (mk n))))) _ (k, h') tt (place_object raw (OIpc (mk n)) k, h')) by done.
    by rewrite (bind_ok _ _ _ _ _ (kernel_ok _ _ h' _ _ ER)).
  - split; [done|split; [done|split; [done|split; [done|split; [|split; [|split; [done|split; [|done]]]]]]]].
    + destruct (placed_frame raw (mk n) name' c k) as (E1 & E2 & E3 & E4 & _).
      apply (heap_open_move k h); [done|apply H7| | |done| |].
      * unfold quiet. simpl. rewrite E2, E3, E4. apply Ho.
      * simpl. rewrite E3. apply Ho.
      * simpl. by apply placed_sem.
      * simpl. apply (ch_heads _ _ _ _ Hch); [done|set_solver].
    + by apply (strncpy_same_name (o_name (raw_header raw (mk n)))).
    + rewrite (rt_strncpy_length _ _ _ _ Hcpy). apply Hraw.
Qed.
End allocate.

(** ** [rt_object_delete] *)
Lemma forget_links (o : obj_id) (k : kview) : k_links (forget_object o k) = k_links k.
Proof. by destruct o as [t|[t|j]|[i|i|i|i|i|i]|i|im]. Qed.

Lemma object_delete_ok k h U o c A B ob l :
  heap_open k h -> heap_view h U -> object_of o k = Some ob -> Z.land (o_type ob) RT_Object_Class_Static = 0 ->
  k_links k !! LObjHead c = Some (A ++ LObj o :: B) -> U !! object_address o = Some l ->
  o <> OIpc (ISem (hp_sem h)) ->
  exists V h', rt_object_delete o (k, h) = Ok tt (forget_object o (set_links V k), h') /\
    heap_view h' (delete (object_address o) U) /\ same_place h h' /\
    heap_open (forget_object o (set_links V k)) h' /\
    links_ok V /\ V !! LObjHead c = Some (A ++ B) /\ V !! LObj o = Some [] /\
    changed [LObjHead c] [] (k_links k) V.
Proof.
  intros Ho HU Hob Ht Hxs HUo Hne.
  destruct (object_detach_ok k o c A B (ho_links _ _ Ho) (ho_quiet _ _ Ho) Hxs) as (V & E & HV & H1 & H2 & Hch).
  set (k1 := forget_object o (set_links V k)).
  assert (heap_open k1 h) as Ho1.
  { apply (heap_open_move k h); [done|done|..]; unfold k1.
    - intros E1 E2. destruct o as [t|[t|j]|[i|i|i|i|i|i]|i|im]; exact (ho_quiet _ _ Ho E1 E2).
    - destruct o as [t|[t|j]|[i|i|i|i|i|i]|i|im]; apply Ho.
    - by rewrite forget_links.
    - destruct o as [t|[t|j]|[i|i|i|i|i|i]|i|im]; try done. simpl. by rewrite lookup_delete_ne by congruence.
    - rewrite forget_links. apply (ch_heads _ _ _ _ Hch); [done|set_solver]. }
  destruct (view_free k1 h U (object_address o) l Ho1 HU HUo) as (h' & EF & HV' & Hp).
  exists V, h'. split; [|split; [done|split; [done|split; [by apply (heap_open_same k1 h); [apply Hp|]|done]]]].
  unfold rt_object_delete. rewrite (bind_ok _ _ _ _ _ (kernel_ok _ _ h _ _ (get_object_ok _ _ _ Hob))).
  rewrite bind_assert by (by apply Z.eqb_eq).
  unfold rt_object_detach in E. rewrite (bind_ok _ _ _ _ _ (kernel_ok _ _ h _ _ E)).
  by rewrite (bind_ok (kernel (modify (forget_object o))) _ (set_links V k, h) tt (k1, h)) by done.
Qed.
End DynamicProof.
