(* ===== verification/DynamicTheorems.v ===== *)
(** * Objects on the heap: the properties

    Creating a semaphore on the heap, and deleting one on which threads wait. *)
From S2P Require Import Prelude Kservice Ram RtList KMonad KState KPrim KInv Scheduler Object TimerBase Thread Timer Ipc Mem MemPool Dynamic KernelInv WaitProof TimerProof BlockProof WakeAll ObjectProof Board SchedTheorems SemProof SemTheorems MemProof MemSpec MemTheorems HeapMap ObjectTheorems DynamicProof.
Import Kservice Scheduler Object TimerBase Thread Timer IpcCore Sem Mem Dynamic WakeAll ObjectProof SemProof SemTheorems MemProof MemSpec MemTheorems HeapMap ObjectTheorems DynamicProof.
Local Open Scope Z_scope.
Local Open Scope kmonad_scope.

Module DynamicTheorems.

(** No semaphore is where the heap has no block. *)
Definition unused (k : kview) (h : heap) (U : gmap Z (list Z)) : Prop :=
  forall n, hp_ptr h < Z.of_nat n < hp_end h -> U !! Z.of_nat n = None ->
    v_loose (k_links k) (LObj (OIpc (ISem n))) = true /\ v_loose (k_links k) (LSuspend (ISem n)) = true /\
    n <> hp_sem h.

Lemma loose_not_in (k : kview) idle Q c os o :
  kinv idle k Q -> container k c os -> v_loose (k_links k) (LObj o) = true -> o ∉ os.
Proof.
  intros HI [Hos _] Hl Hin. pose proof (si_links _ _ (ki_sched _ _ _ HI)) as [HV _].
  eapply loose_spec; [exact HV|exact Hl|exact Hos|]. by apply list_elem_of_fmap_2.
Qed.

(** Initialising the waiting list of a new object. *)
Lemma ipc_object_init_ok idle k Q i :
  kinv idle k Q -> v_loose (k_links k) (LSuspend i) = true ->
  exists V, rt_ipc_object_init i k = Ok RT_EOK (set_links V k) /\ kinv idle (set_links V k) Q /\
    V !! LSuspend i = Some [] /\ forall x, x <> LSuspend i -> V !! x = k_links k !! x.
Proof.
  intros HI Hl. destruct (wait_init_ok idle k Q (LSuspend i) HI eq_refl Hl) as (V & E & H).
  exists V. split; [|done]. unfold rt_ipc_object_init. by rewrite (bind_ok _ _ _ _ _ E).
Qed.

Section sem.
Context (raw : raw_objects) (Hraw : length (o_name (sem_parent raw.(raw_sem))) = RT_NAME_MAX).

(** [rt_sem_create] after the allocation. *)
Lemma sem_create_tail idle k Q (h : heap) n name' sm0 value flag :
  kinv idle k Q -> k_sems k !! n = Some sm0 -> sem_parent sm0 = Object name' RT_Object_Class_Semaphore 0 ->
  v_loose (k_links k) (LSuspend (ISem n)) = true ->
  exists V, let sm := Semaphore (Object name' RT_Object_Class_Semaphore flag) (u16 value) in
    let k' := set_sems (<[n := sm]> (k_sems k)) (set_links V k) in
    (kernel (rt_ipc_object_init (ISem n)) ;!
     kernel (upd_sem n (set_sem_value (u16 value))) ;!
     kernel (set_object_flag (ISem n) flag) ;!
     ret (Some n)) (k, h) = Ok (Some n) (k', h) /\ kinv idle k' Q /\
    V !! LSuspend (ISem n) = Some [] /\ forall x, x <> LSuspend (ISem n) -> V !! x = k_links k !! x.
Proof using.
  intros HI Hs Hp Hl. destruct (ipc_object_init_ok idle k Q (ISem n) HI Hl) as (V & E & HI' & H1 & H2).
  exists V. intros sm k'. split; [|split; [eapply kinv_frame; [..|exact HI']; done|done]].
  rewrite (bind_ok _ _ _ _ _ (kernel_ok _ _ h _ _ E)).
  set (k1 := set_links V k). set (sm1 := set_sem_value (u16 value) sm0).
  set (k2 := set_sems (<[n := sm1]> (k_sems k1)) k1).
  rewrite (bind_ok _ _ _ _ _ (kernel_ok (upd_sem n (set_sem_value (u16 value))) k1 h tt k2
    ltac:(unfold upd_sem, get_sem, put_sem, bind, gets, modify; simpl; by rewrite Hs))).
  rewrite (bind_ok _ _ _ tt (k', h)); [done|]. apply kernel_ok.
  unfold set_object_flag, get_object, put_object, bind, modify. simpl. rewrite lookup_insert_eq. simpl.
  rewrite alter_insert_eq. unfold k', sm, sm1. destruct sm0 as [ob v]. simpl in *. by rewrite Hp.
Qed.

(** C39: [rt_sem_create] returns RT_NULL and changes nothing, or a semaphore on
    the heap: its address is that of a new block of at least
    [sizeof(struct rt_semaphore)] bytes, it is the newest of its class under the
    given name, has the given value and flag and no waiting threads; the kernel
    invariant holds, and the other blocks and semaphores are as before. *)
Theorem sem_create_allocates idle k Q h U os name value flag :
  kinv idle k Q -> heap_open k h -> heap_view h U -> container k RT_Object_Class_Semaphore os -> unused k h U ->
  Forall is_byte name -> readable name RT_NAME_MAX -> flag = RT_IPC_FLAG_FIFO \/ flag = RT_IPC_FLAG_PRIO ->
  rt_sem_create raw name value flag (k, h) = Ok None (k, h) \/
  exists n k' h' l sm,
    rt_sem_create raw name value flag (k, h) = Ok (Some n) (k', h') /\
    U !! Z.of_nat n = None /\ 40 <= Z.of_nat (length l) /\ heap_view h' (<[Z.of_nat n := l]> U) /\
    sem_at n k' sm [] /\ sem_value sm = u16 value /\ o_flag (sem_parent sm) = flag /\
    o_type (sem_parent sm) = RT_Object_Class_Semaphore /\
    same_name (o_name (sem_parent sm)) name RT_NAME_MAX = true /\
    container k' RT_Object_Class_Semaphore (OIpc (ISem n) :: os) /\
    kinv idle k' Q /\ heap_open k' h' /\ unused k' h' (<[Z.of_nat n := l]> U) /\
    (forall j, j <> n -> k_sems k' !! j = k_sems k !! j) /\ k_threads k' = k_threads k.
Proof using Hraw.
  intros HI Ho HU Hos Hun Hb Hr Hfl.
  destruct (allocate_ok raw ISem RT_Object_Class_Semaphore 40 ltac:(done) ltac:(done) eq_refl ltac:(lia) ltac:(done)
    k h U os name Ho HU Hos Hb Hr) as [E|(n & h' & l & name' & V & E & Hn & H1 & H2 & H3 & Hp & Ho' & Hsn & Hby & Hln & Hx & Hch & HV & Hno)].
  { intros n Hn HUn. destruct (Hun n Hn HUn) as (H1 & _ & H2). split; [done|congruence]. }
  { left. unfold rt_sem_create.
    rewrite (bind_ok _ _ _ _ _ (kernel_ok _ _ h _ _ (not_in_interrupt_ok k (ho_quiet _ _ Ho) (ho_nest _ _ Ho)))).
    by rewrite (bind_ok _ _ _ _ _ E). }
  right. destruct (Hun n Hn H1) as (Hl1 & Hl2 & Hns). set (k1 := set_links V _) in E, Ho'.
  assert (kinv idle k1 Q) as HI1.
  { eapply kinv_container; [by apply kinv_placed|done|exact Hch]. }
  assert (V !! LSuspend (ISem n) = k_links k !! LSuspend (ISem n)) as EV by (apply (ch_heads _ _ _ _ Hch); [done|set_solver]).
  destruct (sem_create_tail idle k1 Q h' n name' (set_sem_parent (Object name' RT_Object_Class_Semaphore 0) raw.(raw_sem)) value flag HI1)
    as (V2 & E2 & HI2 & Hw & HV2).
  { simpl. by rewrite lookup_alter_eq, lookup_insert_eq. } { done. } { unfold v_loose. simpl. by rewrite EV. }
  set (sm := Semaphore _ _) in *. set (k2 := set_sems _ _) in *.
  assert (container k1 RT_Object_Class_Semaphore (OIpc (ISem n) :: os)) as Hc1.
  { apply placed_container; [exact Hos|exact (loose_not_in k idle Q _ os _ HI Hos Hl1)|done..]. }
  assert (container k2 RT_Object_Class_Semaphore (OIpc (ISem n) :: os)) as Hc2.
  { destruct Hc1 as [Hc1 Hh1]. split; [simpl; by rewrite HV2|]. constructor.
    - exists (Object name' RT_Object_Class_Semaphore flag). split; [simpl; by rewrite lookup_insert_eq|done..].
    - apply Forall_cons in Hh1 as [_ Hh1]. apply Forall_forall. intros o Hoin.
      assert (o <> OIpc (ISem n)) by (intros ->; by apply (loose_not_in k idle Q _ os _ HI Hos Hl1)).
      eapply Forall_forall in Hh1 as (ob & [Hof ? ?]); [|exact Hoin]. exists ob. split; [|done..].
      rewrite <-Hof. destruct o as [t|tm|[j|j|j|j|j|j]|dv|dvm]; try done. simpl. by rewrite lookup_insert_ne by congruence. }
  exists n, k2, h', l, sm. split.
  { unfold rt_sem_create.
    rewrite (bind_ok _ _ _ _ _ (kernel_ok _ _ h _ _ (not_in_interrupt_ok k (ho_quiet _ _ Ho) (ho_nest _ _ Ho)))).
    rewrite (bind_ok _ _ _ _ _ E). exact E2. }
  assert (forall j, j <> n -> k_sems k2 !! j = k_sems k !! j) as Hsems.
  { intros j Hj. simpl. by rewrite lookup_insert_ne, lookup_alter_ne, lookup_insert_ne. }
  split; [done|split; [done|split; [done|split; [|split; [done|split; [done|split; [done|split; [done|split; [done|split; [done|]]]]]]]]]].
  - split; [simpl; by rewrite lookup_insert_eq|done|by apply Z.mod_pos_bound|by left|done].
  - split; [|split; [|done]].
    + apply (heap_open_move k1 h'); [done|done|..].
      * intros Ha Hb'. exact (ho_quiet _ _ Ho' Ha Hb').
      * apply Ho'.
      * apply (si_links _ _ (ki_sched _ _ _ HI2)).
      * simpl. rewrite lookup_insert_ne; [done|]. by destruct Hp as (-> & _).
      * simpl. apply HV2. destruct Hp as (-> & _). congruence.
    + intros j Hj HUj. apply lookup_insert_None in HUj as [HUj Hne]. destruct Hp as (Hp1 & Hp2 & Hp3).
      destruct (Hun j) as (J1 & J2 & J3); [|done|].
      { destruct HU as (? & ? & HR & _), H3 as (? & ? & HR' & _).
        rewrite (MemProof.hr_hend _ _ _ HR), (MemProof.hr_hend _ _ _ HR') in *. rewrite Hp2, Hp3 in Hj. lia. }
      assert (j <> n) by congruence. unfold v_loose in *. simpl. rewrite !HV2 by congruence. rewrite Hp1. change (k_links k1) with V.
      rewrite (ch_heads _ _ _ _ Hch (LSuspend (ISem j))) by (done || set_solver).
      split; [|done]. destruct (k_links k !! LObj (OIpc (ISem j))) as [[|]|] eqn:EJ; try done.
      * rewrite (ch_loose _ _ _ _ Hch); [done|done|set_solver|done].
      * by rewrite Hno by (congruence || done).
Qed.
End sem.

(** ** Deleting a semaphore *)
Abbreviation sems js := ((fun j => OIpc (ISem j)) <$> js).

(** The headers of semaphores are unchanged if the semaphores are. *)
Lemma sems_container (k k' : kview) c js xs :
  container k c (sems js) -> k_links k' !! LObjHead c = Some (LObj <$> sems xs) -> xs ⊆ js ->
  (forall j, j ∈ xs -> k_sems k' !! j = k_sems k !! j) -> container k' c (sems xs).
Proof.
  intros [_ Hh] Hx Hsub Hs. split; [done|]. apply Forall_forall. intros o (j & -> & Hj)%list_elem_of_fmap.
  eapply Forall_forall in Hh as (ob & [Hof ? ?]); [|by apply list_elem_of_fmap_2, Hsub, Hj].
  exists ob. split; [|done..]. simpl in *. by rewrite Hs.
Qed.

(** C38: [rt_sem_delete] wakes all threads waiting for the semaphore, in their
    order: each becomes ready, at the end of the queue of its priority, with the
    error [- RT_ERROR] that its [rt_sem_take] returns; no other thread changes.
    Then the semaphore leaves its container and its block goes back to the heap.
    The call does not leave the processor. *)
Theorem sem_delete_wakes_all idle k Q h U A B n l sm ws :
  kinv idle k Q -> heap_open k h -> heap_view h U ->
  container k RT_Object_Class_Semaphore (sems (A ++ n :: B)) -> sem_at n k sm ws ->
  o_type (sem_parent sm) = RT_Object_Class_Semaphore -> U !! Z.of_nat n = Some l -> n <> hp_sem h ->
  exists k' h' Q',
    rt_sem_delete n (k, h) = Ok RT_EOK (k', h') /\ kinv idle k' Q' /\ 
    (forall p, Q' p = Q p ++ filter (fun w => prio_in (k_threads k) w = p) ws) /\ 
    (forall t, k_threads k' !! t = if decide (t ∈ ws) then woken <$> k_threads k !! t else k_threads k !! t) /\ 
    heap_open k' h' /\ heap_view h' (delete (Z.of_nat n) U) /\ 
    container k' RT_Object_Class_Semaphore (sems (A ++ B)) /\ 
    k_sems k' = delete n (k_sems k) /\ v_loose (k_links k') (LSuspend (ISem n)) = true.
Proof.
  intros HI Ho HU Hc [Hs Hw _ _ _] Ht HUn Hne.
  destruct (resume_all_ok idle (LSuspend (ISem n)) eq_refl k Q ws HI (ho_quiet _ _ Ho) Hw)
    as (V & T & G & TH & TM & E & HI1 & HV1 & Hfr & Hcn & HTH).
  set (k1 := core V T G TH TM k) in *.
  assert (heap_open k1 h) as Ho1.
  { apply (heap_open_move k h); [done|done|exact (ho_quiet _ _ Ho)|apply Ho|apply (si_links _ _ (ki_sched _ _ _ HI1))|done|].
    apply Hfr; [done|congruence]. }
  destruct (object_delete_ok k1 h U (OIpc (ISem n)) RT_Object_Class_Semaphore (LObj <$> sems A) (LObj <$> sems B)
    (sem_parent sm) l Ho1 HU) as (V2 & h' & E2 & HU2 & Hp & Ho2 & HV2 & Hx2 & Hl2 & Hch2).
  { simpl. by rewrite Hs. } { by rewrite Ht. }
  { simpl. rewrite Hcn. destruct Hc as [-> _]. by rewrite !fmap_app. } { done. } { congruence. }
  set (k2 := forget_object _ _) in *. exists k2, h', (wake_queues (prio_in (k_threads k)) ws Q).
  split; [|split; [|split; [intros p; apply wake_queues_at|split; [exact HTH|split; [done|split; [done|split; [|split; [done|]]]]]]]].
  - unfold rt_sem_delete.
    rewrite (bind_ok _ _ _ _ _ (kernel_ok _ _ h _ _ (not_in_interrupt_ok k (ho_quiet _ _ Ho) (ho_nest _ _ Ho)))).
    rewrite (bind_ok _ _ _ _ _ (kernel_ok _ _ h _ _ E)). by rewrite (bind_ok _ _ _ _ _ E2).
  - eapply (kinv_frame idle (set_links V2 k1)); [done..|].
    apply (kinv_container _ _ _ _ RT_Object_Class_Semaphore (OIpc (ISem n))); [done|done|].
    eapply changed_weaken; [exact Hch2|done|apply list_subseteq_nil].
  - apply (sems_container k _ _ (A ++ n :: B)); [done|by rewrite !fmap_app|set_solver|].
    intros j Hj. simpl. rewrite lookup_delete_ne; [done|]. intros <-.
    assert (n ∉ A ++ B) as Hn; [|done].
    pose proof (coherent_nodup _ _ _ (lo_coherent _ (si_links _ _ (ki_sched _ _ _ HI))) (proj1 Hc)) as Hnd.
    apply NoDup_fmap_1, NoDup_fmap_1 in Hnd. rewrite <-Permutation_middle in Hnd. by apply NoDup_cons in Hnd as [? _].
  - unfold v_loose, k2. rewrite forget_links. simpl. rewrite (ch_heads _ _ _ _ Hch2) by (done || set_solver).
    change (k_links k1) with V. by rewrite HV1.
Qed.

(** ** On the board *)
(** 700 bytes of memory at low addresses; a fresh object has a name of zeros. *)
Definition low_heap : heap :=
  Heap (list_to_map ((fun a => (a, 7)) <$> seqZ 64 700)) 1 0 0 0 0 0 0.

Definition raw0 : raw_objects :=
  Raw Board.blank_thread Board.blank_timer (Semaphore Board.blank_object 9) (Mutex Board.blank_object 0 0 0 None)
    (Event Board.blank_object 0) (Mailbox Board.blank_object 0 [] 0 0 0 0)
    (MessageQueue Board.blank_object 0 ∅ ∅ 0 0 0 None None None) (Mempool Board.blank_object 0 0 0 0 0 0 0) [] ∅.

Definition dyn0 : khs := run (rt_system_heap_init 64 760) (Board.board, low_heap).
(** Semaphore 88 is created, and thread 3 waits for it. *)
Definition dyn1 : khs :=
  run (let! sem := rt_sem_create raw0 [120; 0] 0 RT_IPC_FLAG_PRIO in
       kernel (rt_sem_take (default 0%nat sem) 10)) dyn0.

Definition unused_b (k : kview) (h : heap) : bool :=
  forallb (fun a => v_loose (k_links k) (LObj (OIpc (ISem (Z.to_nat a)))) &&
    v_loose (k_links k) (LSuspend (ISem (Z.to_nat a))) && bool_decide (Z.to_nat a <> hp_sem h))
    (seqZ (hp_ptr h) (hp_end h - hp_ptr h)).

Lemma unused_b_sound k h U : unused_b k h = true -> unused k h U.
Proof.
  unfold unused_b. rewrite forallb_forall. intros H n Hn _.
  specialize (H (Z.of_nat n)). rewrite <-list_elem_of_In, elem_of_seqZ, Nat2Z.id in H.
  apply andb_true_iff in H as [[H1 H2]%andb_true_iff H3%bool_decide_eq_true]; [done|lia].
Qed.

Example dyn0_ok : rep_b dyn0.2 [] [(684, false)] && open_b dyn0 && unused_b dyn0.1 dyn0.2 &&
  Board.sched_b dyn0.1 && Board.parts_b Board.idle dyn0.1 &&
  container_b dyn0.1 RT_Object_Class_Semaphore [OIpc (ISem 1); OIpc (ISem 0)] = true.
Proof. vm_compute. reflexivity. Qed.
Example dyn1_ok : rep_b dyn1.2 [(52, true)] [(632, false)] && open_b dyn1 &&
  Board.sched_b dyn1.1 && Board.parts_b Board.idle dyn1.1 &&
  container_b dyn1.1 RT_Object_Class_Semaphore [OIpc (ISem 76); OIpc (ISem 1); OIpc (ISem 0)] &&
  sem_b 76 dyn1.1 [3%nat] = true.
Proof. vm_compute. reflexivity. Qed.

#[global] Opaque dyn0 dyn1.

Lemma dyn0_facts :
  heap_rep dyn0.2 [] [(684, false)] /\ heap_open dyn0.1 dyn0.2 /\ (forall U, unused dyn0.1 dyn0.2 U) /\
  kinv Board.idle dyn0.1 (Board.queues_of dyn0.1) /\
  container dyn0.1 RT_Object_Class_Semaphore [OIpc (ISem 1); OIpc (ISem 0)].
Proof.
  pose proof dyn0_ok as [[[[[H1 H2]%andb_true_iff H3]%andb_true_iff H4]%andb_true_iff H5]%andb_true_iff H6]%andb_true_iff.
  split; [exact (rep_b_sound _ _ _ H1)|]. split; [exact (open_b_sound _ H2)|].
  split; [intros U; exact (unused_b_sound _ _ U H3)|].
  split; [exact (Board.kinv_b_sound _ _ (proj2 (andb_true_iff _ _) (conj H4 H5)))|exact (container_b_sound _ _ _ H6)].
Qed.

Lemma dyn1_facts :
  heap_rep dyn1.2 [(52, true)] [(632, false)] /\ heap_open dyn1.1 dyn1.2 /\
  kinv Board.idle dyn1.1 (Board.queues_of dyn1.1) /\
  container dyn1.1 RT_Object_Class_Semaphore (sems ([] ++ 76%nat :: [1; 0]%nat)) /\
  sem_at 76 dyn1.1 (sem_of dyn1.1 76) [3%nat].
Proof.
  pose proof dyn1_ok as [[[[[H1 H2]%andb_true_iff H4]%andb_true_iff H5]%andb_true_iff H6]%andb_true_iff H7]%andb_true_iff.
  split; [exact (rep_b_sound _ _ _ H1)|]. split; [exact (open_b_sound _ H2)|].
  split; [exact (Board.kinv_b_sound _ _ (proj2 (andb_true_iff _ _) (conj H4 H5)))|].
  split; [exact (container_b_sound _ _ _ H6)|exact (sem_b_sound _ _ _ H7)].
Qed.

Example sem_create_allocates_witness :
  exists n k' h', rt_sem_create raw0 [120; 0] 3 RT_IPC_FLAG_FIFO (dyn0.1, dyn0.2) = Ok (Some n) (k', h') /\
    kinv Board.idle k' (Board.queues_of dyn0.1).
Proof.
  destruct dyn0_facts as (H1 & H2 & H3 & H4 & H5).
  destruct (sem_create_allocates raw0 eq_refl Board.idle dyn0.1 (Board.queues_of dyn0.1) dyn0.2 (heap_map dyn0.2 ([] ++ [(684, false)]))
    [OIpc (ISem 1); OIpc (ISem 0)] [120; 0] 3 RT_IPC_FLAG_FIFO H4 H2) as [E|(n & k' & h' & l & sm & E & _ & _ & _ & _ & _ & _ & _ & _ & _ & HI & _)].
  - by exists [], [(684, false)].
  - exact H5.
  - apply H3.
  - by apply name_bytes_sound.
  - right. set_solver.
  - by left.
  - exfalso. assert (match rt_sem_create raw0 [120; 0] 3 RT_IPC_FLAG_FIFO (dyn0.1, dyn0.2) with Ok None _ => false | _ => true end = true) as H
      by (vm_compute; reflexivity). rewrite E in H. discriminate H.
  - exists n, k', h'. split; [exact E|exact HI].
Defined.

Example sem_delete_wakes_all_witness :
  exists k' h' Q', rt_sem_delete 76 (dyn1.1, dyn1.2) = Ok RT_EOK (k', h') /\ kinv Board.idle k' Q' /\
    k_threads k' !! 3%nat = woken <$> k_threads dyn1.1 !! 3%nat.
Proof.
  destruct dyn1_facts as (H1 & H2 & H3 & H4 & H5).
  destruct (sem_delete_wakes_all Board.idle dyn1.1 (Board.queues_of dyn1.1) dyn1.2 (heap_map dyn1.2 ([(52, true)] ++ [(632, false)]))
    [] [1; 0]%nat 76 (default [] (heap_map dyn1.2 [(52, true); (632, false)] !! 76)) (sem_of dyn1.1 76) [3%nat] H3 H2)
    as (k' & h' & Q' & E & HI & _ & HT & _).
  - by exists [(52, true)], [(632, false)].
  - exact H4.
  - exact H5.
  - vm_compute. reflexivity.
  - assert (Board.is_some_b (heap_map dyn1.2 [(52, true); (632, false)] !! 76) = true) as H by (vm_compute; reflexivity).
    change ([(52, true)] ++ [(632, false)]) with [(52, true); (632, false)]. change (Z.of_nat 76) with 76.
    by destruct (heap_map dyn1.2 [(52, true); (632, false)] !! 76).
  - vm_compute. discriminate.
  - exists k', h', Q'. split; [exact E|]. split; [exact HI|]. rewrite HT, decide_True; [reflexivity|apply list_elem_of_singleton; reflexivity].
Defined.
End DynamicTheorems.
