(* ===== verification/IdleTheorems.v ===== *)
(** * The idle thread reclaims dead threads

    [rt_thread_idle_excute] frees the stacks and the objects of the defunct
    threads that were created on the heap. *)
From S2P Require Import Prelude Kservice Ram RtList KMonad KState KPrim KInv Scheduler Object TimerBase Thread Timer Ipc Mem MemPool Dynamic Idle KernelInv WaitProof TimerProof BlockProof WakeAll ObjectProof Board SchedTheorems SemProof SemTheorems MemProof MemSpec MemTheorems HeapMap ObjectTheorems DynamicProof DynamicTheorems.
Import Kservice Scheduler Object TimerBase Thread Timer IpcCore Mem Dynamic Idle ObjectProof SchedTheorems SemProof MemProof MemSpec MemTheorems HeapMap DynamicProof.
Local Open Scope Z_scope.
Local Open Scope kmonad_scope.

Module IdleTheorems.

(** ** The kernel invariant and threads that are dead *)
Definition dead (k : kview) (t : nat) : Prop :=
  exists th, k_threads k !! t = Some th /\ thread_stat th = RT_THREAD_CLOSE.

Lemma dead_stat k t st : dead k t -> stat_is (k_threads k) t st -> st = RT_THREAD_CLOSE.
Proof. intros (th & Ht & <-) (x & Hx & <-). congruence. Qed.

(** A dead thread is forgotten. *)
Lemma kinv_forget idle k Q t : kinv idle k Q -> dead k t -> kinv idle (forget_object (OThread t) k) Q.
Proof.
  intros [HS HP] Hd.
  assert (forall u st, stat_is (k_threads k) u st -> st <> RT_THREAD_CLOSE -> stat_is (delete t (k_threads k)) u st) as Hk.
  { intros u st Hu Hst. assert (u <> t) by (intros ->; apply Hst; by eapply dead_stat).
    unfold stat_is. by rewrite lookup_delete_ne. }
  split; [eapply sched_inv_frame; [..|exact HS]; done|]. simpl. split.
  - intros u p Hp Hu. destruct (kp_ready _ _ _ _ _ HP u p Hp Hu) as (th & H1 & H2 & H3).
    destruct (Hk u RT_THREAD_READY) as (th' & H1' & _); [by exists th|done|].
    exists th. split; [|done]. apply lookup_delete_Some in H1' as [Hne _]. by rewrite lookup_delete_ne.
  - intros u th [Hne Hu]%lookup_delete_Some Hst. destruct (kp_thread _ _ _ _ _ HP u th Hu Hst) as [? ? ? ? (r & Hr & ?)].
    split; [done..|]. exists r. rewrite lookup_delete_ne by congruence. done.
  - apply Hk; [apply HP|done].
  - intros h xs u Hh Hxs Hin. apply Hk; [by eapply (kp_wait _ _ _ _ _ HP)|done].
  - apply HP.
  - intros tm r [_ Hr]%lookup_delete_Some. by eapply (kp_row _ _ _ _ _ HP).
  - intros soft xs tm Hxs Hin. destruct (kp_timers _ _ _ _ _ HP soft xs tm Hxs Hin) as (r & H1 & H2 & H3 & H4).
    assert (TThread t <> tm) by (intros <-; by pose proof (dead_stat _ _ _ Hd (H4 t eq_refl))).
    exists r. rewrite lookup_delete_ne by done. repeat (split; [done|]). intros u Hu. apply Hk; [by apply H4|done].
Qed.

(** A node leaves the list of defunct threads. *)
Lemma kinv_undefunct idle k V Q :
  kinv idle k Q -> links_ok V -> changed [LDefunct] [] (k_links k) V -> kinv idle (set_links V k) Q.
Proof.
  intros HI HV Hch. split.
  - eapply (sched_inv_changed k); [apply HI|done|exact Hch| |done|done]. intros p. set_solver.
  - pose proof (ki_parts _ _ _ HI) as HP. simpl. split; try apply HP.
    + intros u x Hx Hs. destruct (kp_thread _ _ _ _ _ HP u x Hx Hs) as [? ? ? ? ?]. split; auto. by apply Hch.
    + intros h xs u Hh Hxs Hin. rewrite (ch_heads _ _ _ _ Hch) in Hxs; [|by destruct h|destruct h; set_solver].
      by eapply (kp_wait _ _ _ _ _ HP).
    + intros soft. apply Hch, HP.
    + intros tm r Hr. by eapply Hch, HP.
    + intros soft xs tm Hxs Hin. rewrite (ch_heads _ _ _ _ Hch) in Hxs by (done || set_solver).
      by eapply (kp_timers _ _ _ _ _ HP).
Qed.

(** The blocks of dead threads: their stacks and their objects. *)
Fixpoint blocks_of (ts : list (nat * Z)) : list Z :=
  match ts with [] => [] | (t, stk) :: ts => stk :: Z.of_nat t :: blocks_of ts end.

Lemma elem_of_blocks ts t stk : (t, stk) ∈ ts -> stk ∈ blocks_of ts /\ Z.of_nat t ∈ blocks_of ts.
Proof.
  induction ts as [|[u s] ts IH]; simpl; [by intros ?%not_elem_of_nil|].
  intros [[= -> ->]|H]%elem_of_cons; [set_solver|]. apply IH in H. set_solver.
Qed.

(** What is left when some keys are deleted. *)
Abbreviation without l m := (filter (fun e => e.1 ∉ l) m).

Lemma without_cons `{Countable K} {A} (m : gmap K A) a l : without l (delete a m) = without (a :: l) m.
Proof.
  apply map_eq. intros i. apply option_eq. intros x. rewrite !map_lookup_filter_Some, lookup_delete_Some. simpl.
  rewrite not_elem_of_cons. naive_solver.
Qed.

Lemma without_nil `{Countable K} {A} (m : gmap K A) : without [] m = m.
Proof. apply map_filter_id. intros i x _. apply not_elem_of_nil. Qed.

Lemma filter_notin_cons (A B : list nat) t ts : t ∉ A ++ B ->
  filter (.∉ ts) (A ++ B) = filter (.∉ t :: ts) (A ++ t :: B).
Proof.
  intros Hn. rewrite (list_filter_iff (.∉ t :: ts) (fun x => x ∉ ts /\ x <> t)) by (intros x; rewrite not_elem_of_cons; naive_solver).
  rewrite <-list_filter_filter. f_equal. rewrite !filter_app, filter_cons_False by naive_solver.
  rewrite <-filter_app. symmetry. induction (A ++ B) as [|x l IH]; [done|].
  rewrite filter_cons_True by set_solver. f_equal. apply IH. set_solver.
Qed.

Lemma filter_notin_nil (l : list nat) : filter (.∉ []) l = l.
Proof. induction l as [|x l IH]; [done|]. rewrite filter_cons_True by set_solver. by f_equal. Qed.

Section idle.
Context (cleanup : nat -> nat -> M khs unit) (idle me : nat).

(** The thread [me] runs, and no other thread is due. *)
Record alone (k : kview) (Q : Z -> list nat) : Prop := {
  al_kinv : kinv idle k Q;
  al_lock : k_lock_nest k = 0;
  al_current : k_current k = Some me;
  al_first : exists p q, is_highest Q p /\ Q p = me :: q;
}.

Lemma alone_schedule k Q : alone k Q -> quiet k -> rt_schedule k = Ok tt k.
Proof.
  intros [HI Hl Hc (p & q & Hp & HQ)] Hq. destruct (kinv_schedule _ _ _ _ HI Hq Hl Hc) as (p' & to & q' & Hp' & HQ' & ->).
  assert (p' = p) as ->.
  { destruct Hp as (R1 & R2 & R3), Hp' as (S1 & S2 & S3). destruct (Z.lt_trichotomy p p') as [?|[?|?]]; [|done|].
    - destruct R2. apply S3. lia.
    - destruct S2. apply R3. lia. }
  rewrite HQ in HQ'. injection HQ' as <- _. unfold reschedule. by rewrite decide_True.
Qed.

Lemma alone_frame k k' Q :
  alone k Q -> kinv idle k' Q -> k_lock_nest k' = k_lock_nest k -> k_current k' = k_current k -> alone k' Q.
Proof. intros [? ? ? ?] HI E1 E2. split; rewrite ?E1, ?E2; done. Qed.

(** Cleanup functions that only touch data of the application. *)
Definition cleans (t : nat) (th : rt_thread) : Prop :=
  forall f, t_cleanup th = Some f -> forall s, cleanup f t s = Ok tt s.

(** What [take_defunct] does with the first defunct thread. *)
Lemma take_defunct_ok k Q h t ts th ob :
  alone k Q -> heap_open k h -> k_links k !! LDefunct = Some (LTlist <$> t :: ts) ->
  k_threads k !! t = Some th -> t_parent th = ob -> cleans t th ->
  exists V, let k' := set_links V k in
    take_defunct cleanup (k_primask k) (set_primask 1 k, h) =
      Ok (if Z.land (o_type ob) RT_Object_Class_Static =? 0 then Some t else None) (k', h) /\
    alone k' Q /\ heap_open k' h /\ V !! LDefunct = Some (LTlist <$> ts) /\
    (forall c, V !! LObjHead c = k_links k !! LObjHead c).
Proof.
  intros Ha Ho Hd Ht Hob Hcl. pose proof (al_kinv _ _ Ha) as HI. pose proof (ho_links _ _ Ho) as HV.
  destruct (coherent_mem _ _ _ (LTlist t) (lo_coherent _ HV) Hd) as [ns Hns]; [set_solver|].
  destruct (links_remove_queue (k_links k) (LTlist t) ns HV eq_refl Hns) as (V & E & HV' & H1 & H2 & H3 & H4).
  assert (changed [LDefunct] [] (k_links k) V) as Hch.
  { apply H4. intros h' xs Hh Hx Hin. apply list_elem_of_singleton. symmetry.
    eapply (member_unique (k_links k)); [done| |done|exact Hd|exact Hx| |done]; [done|set_solver]. }
  exists V. intros k'.
  assert (kinv idle k' Q) as HI' by (by apply kinv_undefunct).
  assert (alone k' Q) as Ha' by (by apply (alone_frame k)).
  set (k1 := set_links V (set_primask 1 k)). set (k2 := set_lock_nest 1 k1).
  assert (quiet k1 /\ quiet k2) as [Hq1 Hq2] by (split; by apply quiet_masked).
  split; [|split; [done|split; [|split; [by apply (H3 LDefunct [])|intros c; apply (ch_heads _ _ _ _ Hch); [done|set_solver]]]]].
  - unfold take_defunct, has_defunct_thread.
    assert (list_next LDefunct (set_primask 1 k) = Ok (LTlist t) (set_primask 1 k)) as En.
    { unfold list_next. simpl. by rewrite (queue_next_head _ _ _ Hd). }
    rewrite (bind_ok _ _ (set_primask 1 k, h) true (set_primask 1 k, h)).
    2:{ apply kernel_ok. rewrite (bind_ok _ _ _ _ _ En). unfold ret. by rewrite bool_decide_true. }
    rewrite (bind_ok _ _ _ _ _ (kernel_ok _ _ h _ _ En)).
    rewrite (bind_ok (kernel (thread_entry (LTlist t))) _ _ t (set_primask 1 k, h)) by done.
    rewrite (bind_ok (kernel (list_remove (LTlist t))) _ _ tt (k1, h)).
    2:{ apply kernel_ok. unfold list_remove, list_op1. simpl. by rewrite E. }
    rewrite (bind_ok _ _ _ _ _ (kernel_ok _ _ h _ _ (enter_critical_eq k1 Hq1))).
    assert (set_lock_nest (i16 (k_lock_nest k1 + 1)) k1 = k2) as -> by (unfold k2; do 2 f_equal; simpl; by rewrite (al_lock _ _ Ha)).
    rewrite (bind_ok _ _ _ _ _ (kernel_ok (get_thread t) k2 h th k2 ltac:(unfold get_thread, bind, gets; simpl; by rewrite Ht))).
    rewrite (bind_ok _ _ (k2, h) tt (k2, h)) by (destruct (t_cleanup th) eqn:Ec; [by apply Hcl|done]).
    rewrite (bind_ok (kernel (rt_object_is_systemobject (OThread t))) _ (k2, h)
      (negb (Z.land (o_type ob) RT_Object_Class_Static =? 0)) (k2, h)).
    2:{ apply kernel_ok. unfold rt_object_is_systemobject. rewrite (bind_ok _ _ _ _ _ (get_object_ok (OThread t) k2 ob ltac:(simpl; by rewrite Ht, <-Hob))). done. }
    rewrite (bind_ok (kernel rt_exit_critical) _ (k2, h) tt (k1, h)).
    2:{ apply kernel_ok. rewrite (exit_critical_eq k2 Hq2). cbn -[rt_schedule].
      unfold k2. rewrite set_lock_nest_twice. assert (set_lock_nest 0 k1 = k1) as ->.
      { unfold k1. rewrite <-(al_lock _ _ Ha). by destruct k. }
      apply (alone_schedule _ Q); [|done]. apply (alone_frame k'); [done| |done..]. eapply kinv_frame; [..|exact HI']; done. }
    rewrite (bind_ok (kernel (rt_hw_interrupt_enable (k_primask k))) _ (k1, h) tt (k', h)).
    2:{ apply kernel_ok. replace k' with (set_primask (k_primask k) k1) by (unfold k1, k'; by destruct k).
      apply interrupt_enable_quiet. replace (set_primask (k_primask k) k1) with k' by (unfold k1, k'; by destruct k). apply Ho. }
    unfold ret. by destruct (_ =? 0).
  - apply (heap_open_move k h); [done|done|apply Ho|apply Ho|done|done|].
    simpl. apply (ch_heads _ _ _ _ Hch); [done|set_solver].
Qed.

(** A dead thread that was created on the heap, with its stack at [stk]. *)
Record corpse (k : kview) (U : gmap Z (list Z)) (t : nat) (stk : Z) (th : rt_thread) : Prop := {
  co_thread : k_threads k !! t = Some th;
  co_stat : thread_stat th = RT_THREAD_CLOSE;
  co_type : Z.land (o_type (t_parent th)) RT_Object_Class_Static = 0;
  co_cleanup : cleans t th;
  co_addr : t_stack_addr th = stk;
  co_stack : is_Some (U !! stk);
  co_object : is_Some (U !! Z.of_nat t);
}.

Abbreviation threads ts := (LObj <$> (OThread <$> ts)).

Lemma has_defunct_ok (k : kview) ts :
  k_links k !! LDefunct = Some (LTlist <$> ts) -> has_defunct_thread k = Ok (bool_decide (ts <> [])) k.
Proof.
  intros Hd. unfold has_defunct_thread.
  rewrite (bind_ok (list_next LDefunct) _ k (default LDefunct (head (LTlist <$> ts))) k).
  2:{ unfold list_next. simpl. by rewrite (queue_next_head _ _ _ Hd). }
  unfold ret. f_equal. by destruct ts as [|t ts].
Qed.

(** A round of the loop, up to what happens to the thread. *)
Lemma round_eq k Q h t ts th fuel :
  alone k Q -> heap_open k h -> k_links k !! LDefunct = Some (LTlist <$> t :: ts) ->
  k_threads k !! t = Some th -> cleans t th ->
  exists V, let k1 := set_links V k in
    idle_loop cleanup (S fuel) (k, h) =
      (if Z.land (o_type (t_parent th)) RT_Object_Class_Static =? 0
       then rt_free (t_stack_addr th) ;! rt_object_delete (OThread t) ;! idle_loop cleanup fuel
       else ret tt) (k1, h) /\
    alone k1 Q /\ heap_open k1 h /\ V !! LDefunct = Some (LTlist <$> ts) /\
    (forall c, V !! LObjHead c = k_links k !! LObjHead c).
Proof.
  intros Ha Ho Hd Ht Hcl.
  destruct (take_defunct_ok k Q h t ts th _ Ha Ho Hd Ht eq_refl Hcl) as (V & E & Ha1 & Ho1 & Hd1 & Hc1).
  exists V. intros k1. split; [|done]. cbn [idle_loop].
  rewrite (bind_ok _ _ _ _ _ (kernel_ok _ _ h _ _ (has_defunct_ok k (t :: ts) Hd))), bool_decide_true by done. cbn [negb].
  rewrite (bind_ok _ _ _ _ _ (kernel_ok _ _ h _ _ (not_in_interrupt_ok k (ho_quiet _ _ Ho) (ho_nest _ _ Ho)))).
  rewrite (bind_ok (kernel rt_hw_interrupt_disable) _ (k, h) (k_primask k) (set_primask 1 k, h)) by done.
  rewrite (bind_ok _ _ _ _ _ E). fold k1. destruct (_ =? 0); [|done].
  by rewrite (bind_ok _ _ _ _ _ (kernel_ok (get_thread t) k1 h th k1 ltac:(unfold get_thread, bind, gets; simpl; by rewrite Ht))).
Qed.

(** A thread on the heap is reclaimed. *)
Lemma reap_one k Q h U t ts stk th A B fuel :
  alone k Q -> heap_open k h -> heap_view h U -> k_links k !! LDefunct = Some (LTlist <$> t :: ts) ->
  k_links k !! LObjHead RT_Object_Class_Thread = Some (threads (A ++ t :: B)) ->
  corpse k U t stk th -> stk <> Z.of_nat t ->
  exists k' h',
    idle_loop cleanup (S fuel) (k, h) = idle_loop cleanup fuel (k', h') /\
    alone k' Q /\ heap_open k' h' /\ heap_view h' (delete (Z.of_nat t) (delete stk U)) /\
    k_links k' !! LDefunct = Some (LTlist <$> ts) /\
    k_links k' !! LObjHead RT_Object_Class_Thread = Some (threads (A ++ B)) /\
    k_threads k' = delete t (k_threads k).
Proof.
  intros Ha Ho HU Hd Hc [Ht Hst Hty Hcl Haddr [ls Hs] [lo Hob]] Hne.
  destruct (round_eq k Q h t ts th fuel Ha Ho Hd Ht Hcl) as (V & E & Ha1 & Ho1 & Hd1 & Hc1). set (k1 := set_links V k) in *.
  destruct (view_free k1 h U stk ls Ho1 HU Hs) as (h1 & EF & HU1 & Hp1).
  assert (heap_open k1 h1) as Ho1' by (by apply (heap_open_same k1 h); [apply Hp1|]).
  destruct (object_delete_ok k1 h1 _ (OThread t) RT_Object_Class_Thread (threads A) (threads B) (t_parent th) lo Ho1' HU1)
    as (V2 & h2 & E2 & HU2 & Hp2 & Ho2 & HV2 & Hx2 & Hl2 & Hch2).
  { simpl. by rewrite Ht. } { done. } { simpl. rewrite Hc1, Hc. by rewrite !fmap_app. }
  { simpl. by rewrite lookup_delete_ne. } { done. }
  exists (forget_object (OThread t) (set_links V2 k1)), h2.
  split; [|split; [|split; [done|split; [done|split; [|split; [|done]]]]]].
  - rewrite E, Hty, Haddr. cbn [Z.eqb]. rewrite (bind_ok _ _ _ _ _ EF). by rewrite (bind_ok _ _ _ _ _ E2).
  - apply (alone_frame k1); [done| |done..]. apply kinv_forget; [|by exists th].
    apply (kinv_container _ _ _ _ RT_Object_Class_Thread (OThread t)); [apply Ha1|done|].
    eapply changed_weaken; [exact Hch2|done|apply list_subseteq_nil].
  - simpl. rewrite (ch_heads _ _ _ _ Hch2) by (done || set_solver). done.
  - simpl. rewrite Hx2. by rewrite !fmap_app.
Qed.

(** The list of dead threads is worked off in its order. *)
Lemma idle_loop_ok ts rest : forall k Q h U os fuel,
  alone k Q -> heap_open k h -> heap_view h U ->
  k_links k !! LDefunct = Some (LTlist <$> ts.*1 ++ rest) ->
  k_links k !! LObjHead RT_Object_Class_Thread = Some (threads os) ->
  (forall t stk, (t, stk) ∈ ts -> t ∈ os /\ exists th, corpse k U t stk th) ->
  NoDup (blocks_of ts) -> (length ts < fuel)%nat ->
  (forall t rest', rest = t :: rest' -> t ∉ ts.*1 /\ exists th, k_threads k !! t = Some th /\ cleans t th /\
    Z.land (o_type (t_parent th)) RT_Object_Class_Static <> 0) ->
  exists k' h',
    idle_loop cleanup fuel (k, h) = Ok tt (k', h') /\ alone k' Q /\ heap_open k' h' /\
    heap_view h' (without (blocks_of ts) U) /\
    k_links k' !! LDefunct = Some (LTlist <$> tail rest) /\
    k_links k' !! LObjHead RT_Object_Class_Thread = Some (threads (filter (.∉ ts.*1) os)) /\
    k_threads k' = without ts.*1 (k_threads k).
Proof.
  induction ts as [|[t stk] ts IH]; intros k Q h U os [|fuel] Ha Ho HU Hd Hc Hco Hnd Hf Hr; simpl in Hf; try lia.
  - assert (without (blocks_of []) U = U) as -> by apply without_nil.
    assert (without ([] : list (nat * Z)).*1 (k_threads k) = k_threads k) as -> by apply without_nil.
    assert (filter (.∉ ([] : list (nat * Z)).*1) os = os) as -> by apply filter_notin_nil. destruct rest as [|t rest'].
    + exists k, h. split; [|done].
      cbn [idle_loop]. by rewrite (bind_ok _ _ _ _ _ (kernel_ok _ _ h _ _ (has_defunct_ok k [] Hd))).
    + destruct (Hr t rest' eq_refl) as (_ & th & Ht & Hcl & Hty).
      destruct (round_eq k Q h t rest' th fuel Ha Ho Hd Ht Hcl) as (V & E & Ha1 & Ho1 & Hd1 & Hc1).
      exists (set_links V k), h. rewrite E, (proj2 (Z.eqb_neq _ _)) by done.
      split; [done|]. split; [done|]. split; [done|]. split; [done|]. split; [done|]. split; [|done].
      simpl. by rewrite Hc1.
  - destruct (Hco t stk) as (Hin & th & Hcp); [set_solver|].
    simpl in Hnd. apply NoDup_cons in Hnd as [Hn1 Hnd]. apply NoDup_cons in Hnd as [Hn2 Hnd].
    apply list_elem_of_split in Hin as (A & B & ->).
    destruct (reap_one k Q h U t (ts.*1 ++ rest) stk th A B fuel Ha Ho HU Hd Hc Hcp) as (k1 & h1 & E & Ha1 & Ho1 & HU1 & Hd1 & Hc1 & HT1).
    { intros ->. apply Hn1. set_solver. }
    assert (t ∉ A ++ B) as Hno.
    { pose proof (coherent_nodup _ _ _ (lo_coherent _ (ho_links _ _ Ho)) Hc) as Hndc.
      apply NoDup_fmap_1, NoDup_fmap_1 in Hndc. rewrite <-Permutation_middle in Hndc. by apply NoDup_cons in Hndc as [? _]. }
    assert (forall u s, (u, s) ∈ ts -> u <> t) as Hne.
    { intros u s Hu ->. apply elem_of_blocks in Hu as [_ Hu]. done. }
    destruct (IH k1 Q h1 _ (A ++ B) fuel Ha1 Ho1 HU1 Hd1 Hc1) as (k' & h' & E' & Ha' & Ho' & HU' & Hd' & Hc' & HT').
    + intros u s Hu. destruct (Hco u s) as (Hin & th' & [C1 C2 C3 C4 C5 C6 C7]); [set_solver|].
      pose proof (Hne u s Hu). destruct (elem_of_blocks _ _ _ Hu) as [Hb1 Hb2].
      split; [by apply elem_of_app in Hin as [?|[?|?]%elem_of_cons]; [apply elem_of_app; left|done|apply elem_of_app; right]|].
      exists th'. split; [by rewrite HT1, lookup_delete_ne|done..| |].
      * rewrite !lookup_delete_ne; [done| |]; intros Eq; [apply Hn1, elem_of_cons; right; by rewrite Eq|apply Hn2; by rewrite Eq].
      * rewrite !lookup_delete_ne; [done| |]; intros Eq; [apply Hn1, elem_of_cons; right; by rewrite Eq|apply Hn2; by rewrite Eq].
    + done.
    + lia.
    + intros u rest' ->. destruct (Hr u rest' eq_refl) as (Hn & th' & H1 & H2 & H3). simpl in Hn.
      apply not_elem_of_cons in Hn as [Hn Hn']. split; [done|]. exists th'. split; [|done].
      by rewrite HT1, lookup_delete_ne.
    + exists k', h'. rewrite E. split; [done|]. split; [done|]. split; [done|].
      split; [|split; [done|split]].
      * replace (without (blocks_of ((t, stk) :: ts)) U) with (without (blocks_of ts) (delete (Z.of_nat t) (delete stk U))); [done|].
        rewrite !without_cons. done.
      * replace (filter (.∉ ((t, stk) :: ts).*1) (A ++ t :: B)) with (filter (.∉ ts.*1) (A ++ B)); [done|].
        by apply filter_notin_cons.
      * rewrite HT', HT1. apply without_cons.
Qed.

(** C40: the idle thread reclaims dead threads.  While no other thread is due, one
    call of [rt_thread_idle_excute] works the list of defunct threads off in its
    order: every thread that was created on the heap is unlinked, its stack and
    its object are freed and it leaves the container of threads.  At the first
    thread that is a static object, which is unlinked only, the call returns,
    whatever is left on the list; otherwise it returns with the list empty.  As
    many rounds as there are threads to free, and one, are enough. *)
Theorem idle_reclaims_dead ts rest k Q h U os fuel :
  alone k Q -> heap_open k h -> heap_view h U ->
  k_links k !! LDefunct = Some (LTlist <$> ts.*1 ++ rest) ->
  k_links k !! LObjHead RT_Object_Class_Thread = Some (threads os) ->
  (forall t stk, (t, stk) ∈ ts -> t ∈ os /\ exists th, corpse k U t stk th) ->
  NoDup (blocks_of ts) -> (length ts < fuel)%nat ->
  (forall t rest', rest = t :: rest' -> t ∉ ts.*1 /\ exists th, k_threads k !! t = Some th /\ cleans t th /\
    Z.land (o_type (t_parent th)) RT_Object_Class_Static <> 0) ->
  exists k' h',
    rt_thread_idle_excute cleanup fuel (k, h) = Ok tt (k', h') /\ kinv idle k' Q /\ heap_open k' h' /\
    heap_view h' (without (blocks_of ts) U) /\
    k_links k' !! LDefunct = Some (LTlist <$> tail rest) /\
    k_links k' !! LObjHead RT_Object_Class_Thread = Some (threads (filter (.∉ ts.*1) os)) /\
    k_threads k' = without ts.*1 (k_threads k).
Proof.
  intros Ha Ho HU Hd Hc Hco Hnd Hf Hr.
  destruct (idle_loop_ok ts rest k Q h U os fuel Ha Ho HU Hd Hc Hco Hnd Hf Hr) as (k' & h' & E & Ha' & H).
  exists k', h'. split; [exact E|]. split; [apply Ha'|exact H].
Qed.
End idle.

(** ** On the board *)
Definition no_cleanup (f t : nat) : M khs unit := ret tt.

(** Two threads of low priority are created on the heap, started and deleted. *)
Definition corpses : khs :=
  run (let! a := rt_thread_create DynamicTheorems.raw0 77 [121; 0] 100 0 80 25 10 in
       let! b := rt_thread_create DynamicTheorems.raw0 77 [122; 0] 100 0 80 25 10 in
       kernel (rt_thread_startup (default 0%nat a)) ;! kernel (rt_thread_startup (default 0%nat b)) ;!
       kernel (rt_thread_delete (default 0%nat a)) ;!
       kernel (rt_thread_delete (default 0%nat b))) DynamicTheorems.dyn0.

Definition corpse_b (k : kview) (t : nat) (stk : Z) : bool :=
  match k_threads k !! t with
  | Some th => (thread_stat th =? RT_THREAD_CLOSE) && (Z.land (o_type (t_parent th)) RT_Object_Class_Static =? 0) &&
      (t_stack_addr th =? stk)
  | None => false
  end.

Lemma corpse_b_sound k U t stk :
  corpse_b k t stk = true -> is_Some (U !! stk) -> is_Some (U !! Z.of_nat t) ->
  exists th, corpse no_cleanup k U t stk th.
Proof.
  unfold corpse_b. destruct (k_threads k !! t) as [th|] eqn:E; [|done].
  intros [[H1%Z.eqb_eq H2%Z.eqb_eq]%andb_true_iff H3%Z.eqb_eq]%andb_true_iff Hs Ho. exists th. by split.
Qed.

Definition alone_b (k : kview) (me : nat) (p : Z) : bool :=
  Board.sched_b k && Board.parts_b Board.idle k && (k_lock_nest k =? 0) && bool_decide (k_current k = Some me) &&
  Board.highest_b (Board.queues_of k) p && bool_decide (head (Board.queues_of k p) = Some me).

Lemma alone_b_sound k me p : alone_b k me p = true -> alone Board.idle me k (Board.queues_of k).
Proof.
  unfold alone_b. intros [[[[H1 H2%Z.eqb_eq]%andb_true_iff H3%bool_decide_eq_true]%andb_true_iff H4]%andb_true_iff
    H5%bool_decide_eq_true]%andb_true_iff.
  split; [by apply Board.kinv_b_sound|done|done|]. destruct (Board.queues_of k p) as [|x q] eqn:E; [done|].
  injection H5 as ->. exists p, q. split; [by apply Board.highest_b_sound|done].
Qed.

Example corpses_ok : rep_b corpses.2 [(160, true); (92, true); (160, true); (92, true)] [(180, false)] && open_b corpses &&
  alone_b corpses.1 3 10 && corpse_b corpses.1 76 236 && corpse_b corpses.1 328 488 &&
  bool_decide (k_links corpses.1 !! LDefunct = Some (LTlist <$> [328; 76]%nat)) &&
  bool_decide (k_links corpses.1 !! LObjHead RT_Object_Class_Thread =
    Some (LObj <$> (OThread <$> [328; 76; 5; 4; 3; 2; 0; 1]%nat))) = true.
Proof. vm_compute. reflexivity. Qed.

#[global] Opaque corpses.

Definition corpses_map : gmap Z (list Z) :=
  heap_map corpses.2 ([(160, true); (92, true); (160, true); (92, true)] ++ [(180, false)]).

Lemma corpses_blocks : forallb (fun a => Board.is_some_b (corpses_map !! a)) [76; 236; 328; 488] = true.
Proof. vm_compute. reflexivity. Qed.

Lemma corpses_block a : a ∈ [76; 236; 328; 488] -> is_Some (corpses_map !! a).
Proof.
  intros Ha. pose proof corpses_blocks as H. rewrite forallb_forall in H.
  exact (Board.is_some_b_sound _ (H a (proj1 (list_elem_of_In _ _) Ha))).
Qed.

#[global] Opaque corpses_map.

Example idle_reclaims_dead_witness :
  exists k' h', rt_thread_idle_excute no_cleanup 3 (corpses.1, corpses.2) = Ok tt (k', h') /\
    k_links k' !! LDefunct = Some [] /\ heap_view h' (without [488; 328; 236; 76] corpses_map).
Proof.
  pose proof corpses_ok as [[[[[[H1 H2]%andb_true_iff H3]%andb_true_iff H4]%andb_true_iff H5]%andb_true_iff
    H6%bool_decide_eq_true]%andb_true_iff H7%bool_decide_eq_true]%andb_true_iff.
  destruct (idle_reclaims_dead no_cleanup Board.idle 3 [(328%nat, 488); (76%nat, 236)] [] corpses.1 (Board.queues_of corpses.1)
    corpses.2 corpses_map [328; 76; 5; 4; 3; 2; 0; 1]%nat 3) as (k' & h' & E & _ & _ & HU & Hd & _).
  - exact (alone_b_sound _ _ _ H3).
  - exact (open_b_sound _ H2).
  - eexists _, _. split; [exact (rep_b_sound _ _ _ H1)|reflexivity].
  - exact H6.
  - exact H7.
  - intros t stk [[= -> ->]|[[= -> ->]|[]%not_elem_of_nil]%elem_of_cons]%elem_of_cons;
      (split; [eapply bool_decide_eq_true_1; vm_compute; reflexivity|]).
    + apply (corpse_b_sound _ _ _ _ H5); apply corpses_block; eapply bool_decide_eq_true_1; vm_compute; reflexivity.
    + apply (corpse_b_sound _ _ _ _ H4); apply corpses_block; eapply bool_decide_eq_true_1; vm_compute; reflexivity.
  - eapply bool_decide_eq_true_1. vm_compute. reflexivity.
  - cbn. lia.
  - intros t rest' [=].
  - exists k', h'. split; [exact E|]. split; [exact Hd|exact HU].
Defined.
End IdleTheorems.
