(* ===== verification/PrintfTheorems.v ===== *)
(** * Formatted output: the properties

    The reference is a function from a format and its arguments to text
    ([format]): the parsing of a conversion is the code's, the text of a
    conversion is written down directly, without buffer and positions.  It comes
    in two versions: [meant] is the text the format stands for, [printed] the one
    the code writes, which prints hexadecimal digits for [%o] and does not take a
    precision of 0 for a limit of a string.  They agree for all other conversions
    ([plain]). *)
From Stdlib Require Import Ascii.
From S2P Require Import Prelude Ram KMonad Printf.
Import Ram Printf.
Local Open Scope Z_scope.
Local Open Scope kmonad_scope.
Local Arguments ch a%_char_scope.

Module PrintfTheorems.

(** ** The reference *)
(** The digits of [v], the most significant first. *)
Fixpoint to_digits (fuel : nat) (b v : Z) : list Z :=
  match fuel with
  | O => [v]
  | S fuel => if v <? b then [v] else to_digits fuel b (v / b) ++ [v mod b]
  end.
Definition digits_value (b : Z) (ds : list Z) : Z := foldl (fun a d => a * b + d) 0 ds.

(** [divide] knows two bases: what is not decimal is printed as hexadecimal. *)
Definition printed_base (base : Z) : Z := if base =? 10 then 10 else 16.

Definition digit_char (flags d : Z) : Z :=
  default 0 ((if has LARGE flags then large_digits else small_digits) !! Z.to_nat d).

Definition sign_text (flags num : Z) : list Z :=
  if has SIGN flags then
    if num <? 0 then [ch "-"] else if has PLUS flags then [ch "+"]
    else if has SPACE flags then [ch " "] else []
  else [].

Definition magnitude (flags num : Z) : Z := if has SIGN flags && (num <? 0) then - num else u32 num.

Definition chars (c n : Z) : list Z := replicate (Z.to_nat n) c.

(** A number in a field: at least [precision] digits, then the sign, then padding
    to [width] behind (flag ['-']), with zeros between sign and digits (flag
    ['0']) or in front. *)
Definition number_text (flags width precision base num : Z) : list Z :=
  let digs := digit_char flags <$> to_digits 32 base (magnitude flags num) in
  let digs := chars (ch "0") (precision - Z.of_nat (length digs)) ++ digs in
  let sgn := sign_text flags num in
  let room := width - Z.of_nat (length sgn) - Z.of_nat (length digs) in
  if has LEFT flags then sgn ++ digs ++ chars (ch " ") room
  else if has ZEROPAD flags then sgn ++ chars (ch "0") room ++ digs
  else chars (ch " ") room ++ sgn ++ digs.

(** Text in a field. *)
Definition field_text (flags width : Z) (t : list Z) : list Z :=
  let room := chars (ch " ") (width - Z.of_nat (length t)) in
  if has LEFT flags then t ++ room else room ++ t.

(** The text of a conversion, as it is meant or as the code prints it. *)
Definition conversion_text (exact : bool) (flags width precision qualifier c : Z) (args : list va) : option (list Z * list va) :=
  if c =? ch "c" then '(v, args) ← va_int args; Some (field_text flags width [u8 v], args)
  else if c =? ch "s" then
    '(s, args) ← va_str args;
    let s := default (ch <$> ["("; "N"; "U"; "L"; "L"; ")"]%char) s in
    Some (field_text flags width (if (if exact then 0 <=? precision else 0 <? precision) then take (Z.to_nat precision) s else s), args)
  else if c =? ch "p" then
    '(v, args) ← va_int args;
    Some (if width =? -1 then number_text (Z.lor flags ZEROPAD) 8 precision 16 (i32 v)
          else number_text flags width precision 16 (i32 v), args)
  else if c =? ch "%" then Some ([ch "%"], args)
  else match int_conversion c flags with
  | Some (base, flags) =>
      '(v, args) ← va_int args;
      let base := if exact then base else printed_base base in
      Some (number_text flags width precision base (i32 (int_argument qualifier flags v)), args)
  | None => Some (ch "%" :: (if c =? 0 then [] else [c]), args)
  end.

Fixpoint format (exact : bool) (fuel : nat) (fmt : list Z) (args : list va) : option (list Z) :=
  match fuel with
  | O => None
  | S fuel =>
      match fmt with
      | [] => Some []
      | c :: fmt =>
          if negb (c =? ch "%") then t ← format exact fuel fmt args; Some (c :: t)
          else
            let '(flags, fmt) := flags_loop fmt 0 in
            '(width, flags, fmt, args) ← get_width flags fmt args;
            '(precision, fmt, args) ← get_precision fmt args;
            let '(qualifier, fmt) := get_qualifier fmt in
            '(x, args) ← conversion_text exact flags width precision qualifier (cur fmt) args;
            t ← format exact fuel (tail fmt) args; Some (x ++ t)
      end
  end.
Definition printed (fmt : list Z) (args : list va) : option (list Z) := format false (S (length fmt)) fmt args.
Definition meant (fmt : list Z) (args : list va) : option (list Z) := format true (S (length fmt)) fmt args.

(** No conversion of the format is [%o] or [%.0s]. *)
Definition plain_conversion (precision c : Z) : bool :=
  negb (c =? ch "o") && negb ((c =? ch "s") && (precision =? 0)).
Fixpoint plain_loop (fuel : nat) (fmt : list Z) (args : list va) : bool :=
  match fuel with
  | O => true
  | S fuel =>
      match fmt with
      | [] => true
      | c :: fmt =>
          if negb (c =? ch "%") then plain_loop fuel fmt args
          else
            let '(flags, fmt) := flags_loop fmt 0 in
            match get_width flags fmt args with
            | Some (width, flags, fmt, args) =>
                match get_precision fmt args with
                | Some (precision, fmt, args) =>
                    let '(qualifier, fmt) := get_qualifier fmt in
                    plain_conversion precision (cur fmt) &&
                    match conversion_text true flags width precision qualifier (cur fmt) args with
                    | Some (_, args) => plain_loop fuel (tail fmt) args
                    | None => true
                    end
                | None => true
                end
            | None => true
            end
      end
  end.
Definition plain (fmt : list Z) (args : list va) : bool := plain_loop (S (length fmt)) fmt args.

Lemma plain_conversion_text flags width precision qualifier c args :
  plain_conversion precision c = true ->
  conversion_text true flags width precision qualifier c args = conversion_text false flags width precision qualifier c args.
Proof.
  unfold plain_conversion, conversion_text. intros [Ho Hs]%andb_true_iff. destruct (c =? ch "c"); [done|].
  destruct (c =? ch "s").
  - replace (0 <=? precision) with (0 <? precision); [done|]. simpl in Hs.
    destruct (Z.eqb_spec precision 0), (Z.ltb_spec 0 precision), (Z.leb_spec 0 precision); done || lia.
  - destruct (c =? ch "p"); [done|]. destruct (c =? ch "%"); [done|]. unfold int_conversion.
    destruct (c =? ch "o"); [done|]. destruct (c =? ch "X"); [done|]. destruct (c =? ch "x"); [done|].
    destruct (_ || _); [done|]. by destruct (c =? ch "u").
Qed.

Lemma plain_format fuel : forall fmt args,
  plain_loop fuel fmt args = true -> format true fuel fmt args = format false fuel fmt args.
Proof.
  induction fuel as [|fuel IH]; intros fmt args; [done|]. cbn [plain_loop format]. destruct fmt as [|c fmt]; [done|].
  destruct (negb (c =? ch "%")); [intros H; by rewrite (IH _ _ H)|].
  destruct (flags_loop fmt 0) as [flags fmt1].
  destruct (get_width flags fmt1 args) as [[[[w flags2] fmt2] args2]|]; simpl; [|done].
  destruct (get_precision fmt2 args2) as [[[p fmt3] args3]|]; simpl; [|done].
  destruct (get_qualifier fmt3) as [q fmt4]. intros [Hc H]%andb_true_iff. rewrite <-(plain_conversion_text _ _ _ _ _ _ Hc).
  destruct (conversion_text true _ _ _ _ _ _) as [[x args4]|]; simpl; [|done]. by rewrite (IH _ _ H).
Qed.

(** ** Digits *)
Lemma foldl_digits b ds : forall a, foldl (fun a d => a * b + d) a ds = a * b ^ Z.of_nat (length ds) + digits_value b ds.
Proof.
  unfold digits_value. induction ds as [|d ds IH] using rev_ind; intros a; [simpl; lia|].
  rewrite !foldl_app, IH. simpl. rewrite length_app. simpl.
  replace (Z.of_nat (length ds + 1)) with (Z.succ (Z.of_nat (length ds))) by lia. rewrite Z.pow_succ_r by lia. lia.
Qed.

Lemma to_digits_spec b v fuel : 1 < b -> 0 <= v < b ^ Z.of_nat fuel ->
  digits_value b (to_digits fuel b v) = v /\ Forall (fun d => 0 <= d < b) (to_digits fuel b v) /\
  to_digits fuel b v <> [].
Proof.
  intros Hb. revert v. induction fuel as [|fuel IH]; intros v Hv.
  - simpl in *. split; [unfold digits_value; simpl; lia|]. split; [|done]. repeat constructor; lia.
  - cbn [to_digits]. destruct (Z.ltb_spec v b).
    + split; [unfold digits_value; simpl; lia|]. split; [|done]. repeat constructor; lia.
    + rewrite Nat2Z.inj_succ, Z.pow_succ_r in Hv by lia.
      destruct (IH (v / b)) as (E & F & _); [split; [apply Z.div_pos; lia|apply Z.div_lt_upper_bound; lia]|].
      split; [|split; [|by destruct (to_digits fuel b (v / b))]].
      * unfold digits_value in *. rewrite foldl_app, E. simpl. pose proof (Z.div_mod v b). lia.
      * apply Forall_app. split; [done|]. constructor; [apply Z.mod_pos_bound; lia|done].
Qed.

Lemma to_digits_bound b k fuel : forall v, 1 < b -> 0 <= v < b ^ Z.of_nat k -> (1 <= k)%nat ->
  (length (to_digits fuel b v) <= k)%nat.
Proof.
  revert k. induction fuel as [|fuel IH]; intros k v Hb Hv Hk; [simpl; lia|]. cbn [to_digits].
  destruct (Z.ltb_spec v b); [simpl; lia|]. rewrite length_app. simpl.
  destruct k as [|[|k]]; [lia|simpl in Hv; lia|].
  rewrite Nat2Z.inj_succ, Z.pow_succ_r in Hv by lia.
  specialize (IH (S k) (v / b) Hb). enough (length (to_digits fuel b (v / b)) <= S k)%nat by lia.
  apply IH; [|lia]. split; [apply Z.div_pos; lia|]. apply Z.div_lt_upper_bound; lia.
Qed.

(** ** The digits of [print_number] *)
Definition base_digits (flags : Z) : list Z := if has LARGE flags then large_digits else small_digits.

Lemma digit_lookup flags d : 0 <= d < 16 -> base_digits flags !! Z.to_nat d = Some (digit_char flags d).
Proof.
  intros Hd. unfold digit_char, base_digits.
  assert (exists c, (if has LARGE flags then large_digits else small_digits) !! Z.to_nat d = Some c) as [c ->]; [|done].
  apply lookup_lt_is_Some. destruct (has LARGE flags); simpl; lia.
Qed.

Lemma divide_eq num base :
  divide num base = (u32 num mod printed_base base, i32 (u32 num / printed_base base)).
Proof. unfold divide, printed_base. by destruct (base =? 10). Qed.

Lemma printed_base_range base : printed_base base = 10 \/ printed_base base = 16.
Proof. unfold printed_base. destruct (base =? 10); auto. Qed.

Lemma u32_i32_small x : 0 <= x < 2 ^ 31 -> u32 (i32 x) = x /\ i32 x = x.
Proof. intros Hx. assert (i32 x = x) as -> by (apply i32_small; lia). split; [apply u32_small; lia|done]. Qed.

Lemma i32_u32 x : i32 (u32 x) = i32 x.
Proof.
  unfold i32, u32. f_equal. by rewrite Zplus_mod_idemp_l.
Qed.

Lemma number_loop_eq flags base room : forall num fuel,
  u32 num < printed_base base ^ Z.of_nat room -> u32 num < printed_base base ^ Z.of_nat fuel ->
  i32 num = num -> num <> 0 ->
  number_loop room (base_digits flags) num base =
    Some (reverse (digit_char flags <$> to_digits fuel (printed_base base) (u32 num))).
Proof.
  induction room as [|room IH]; intros num fuel Hr Hf Hi Hnz.
  { pose proof (u32_range num). simpl in Hr. assert (u32 num = 0) as E0 by lia.
    exfalso. apply Hnz. rewrite <-Hi. rewrite <-(i32_u32 num), E0. done. }
  cbn [number_loop]. rewrite (proj2 (Z.eqb_neq _ _) Hnz), divide_eq.
  set (b := printed_base base) in *. assert (b = 10 \/ b = 16) as Hb by apply printed_base_range.
  pose proof (u32_range num) as Hu. pose proof (Z.mod_pos_bound (u32 num) b ltac:(lia)) as Hm.
  rewrite digit_lookup by lia. simpl.
  assert (0 <= u32 num / b < 2 ^ 31) as Hq by (split; [apply Z.div_pos; lia|apply Z.div_lt_upper_bound; lia]).
  destruct (u32_i32_small _ Hq) as [Eu Ei]. rewrite Ei.
  destruct fuel as [|fuel]; [simpl in Hf; assert (u32 num = 0) as E0 by lia; exfalso; apply Hnz; by rewrite <-Hi, <-(i32_u32 num), E0|].
  cbn [to_digits]. destruct (Z.ltb_spec (u32 num) b).
  - rewrite Z.div_small, (Z.mod_small (u32 num)) by lia. destruct room; done.
  - assert (u32 num / b <> 0) as Hdz by (pose proof (Z.div_str_pos (u32 num) b); lia).
    rewrite (IH (u32 num / b) fuel); [| | |done|done].
    + rewrite (u32_small (u32 num / b)) by lia. simpl. by rewrite fmap_app, reverse_app.
    + rewrite u32_small by lia. rewrite Nat2Z.inj_succ, Z.pow_succ_r in Hr by lia. apply Z.div_lt_upper_bound; lia.
    + rewrite u32_small by lia. rewrite Nat2Z.inj_succ, Z.pow_succ_r in Hf by lia. apply Z.div_lt_upper_bound; lia.
Qed.

Lemma number_chars_eq flags base num : i32 num = num ->
  number_chars (base_digits flags) num base =
    Some (reverse (digit_char flags <$> to_digits 32 (printed_base base) (u32 num))).
Proof.
  intros Hi. unfold number_chars. destruct (Z.eqb_spec num 0) as [->|Hnz].
  - assert (digit_char flags 0 = ch "0") as E by (unfold digit_char; by destruct (has LARGE flags)).
    change (u32 0) with 0. cbn [to_digits].
    assert ((0 <? printed_base base) = true) as -> by (destruct (printed_base_range base) as [-> | ->]; done).
    simpl. by rewrite E.
  - apply number_loop_eq; [..|done|done]; pose proof (u32_range num);
      destruct (printed_base_range base) as [-> | ->]; lia.
Qed.

(** ** Texts of one character *)
Lemma chars_step c k : 0 < k -> chars c k = c :: chars c (k - 1).
Proof. intros Hk. unfold chars. replace (Z.to_nat k) with (S (Z.to_nat (k - 1))) by lia. done. Qed.

Lemma chars_none c k : k <= 0 -> chars c k = [].
Proof. intros Hk. unfold chars. by replace (Z.to_nat k) with O by lia. Qed.

Lemma length_chars c k : Z.of_nat (length (chars c k)) = Z.max 0 k.
Proof. unfold chars. rewrite length_replicate. lia. Qed.

(** ** Writing within the buffer

    [rep o s]: the text [o] has been written; what is beyond the [n] bytes of the
    buffer is only counted. *)
Section Writing.
Context (m0 : ram) (buf n : Z) (Hbuf : 0 <= buf) (Hlim : buf + n <= 2 ^ 32) (Hmap : mapped m0 buf n).
#[local] Set Default Proof Using "All".
Local Abbreviation limit := (buf + n - 1).
Local Abbreviation len l := (Z.of_nat (length l)).

Definition rep (o : list Z) (s : ram * Z) : Prop :=
  s.2 = buf + len o /\ write_bytes m0 buf (u8 <$> take (Z.to_nat n) o) = Some s.1.

(** From [o] on, [f] appends a text and returns a value that satisfy [P]. *)
Definition writes {A} (o : list Z) (f : P A) (R : list Z -> A -> Prop) : Prop :=
  forall s, rep o s -> exists x a s', f s = Ok a s' /\ rep (o ++ x) s' /\ R x a.

Lemma writes_bind {A B} o (f : P A) (g : A -> P B) R R' :
  writes o f R -> (forall x a, R x a -> writes (o ++ x) (g a) (fun y b => R' (x ++ y) b)) ->
  writes o (bind f g) R'.
Proof.
  intros Hf Hg s Hs. destruct (Hf s Hs) as (x & a & s1 & E & Hs1 & HR).
  destruct (Hg x a HR s1 Hs1) as (y & b & s2 & E2 & Hs2 & HR2).
  exists (x ++ y), b, s2. rewrite (bind_ok _ _ _ _ _ E). split; [done|]. by rewrite app_assoc.
Qed.

Lemma writes_ret {A} o (a : A) (R : list Z -> A -> Prop) : R [] a -> writes o (ret a) R.
Proof. intros HR s Hs. exists [], a, s. by rewrite app_nil_r. Qed.

Lemma writes_weaken {A} o (f : P A) (R R' : list Z -> A -> Prop) :
  writes o f R -> (forall x a, R x a -> R' x a) -> writes o f R'.
Proof. intros Hf H s Hs. destruct (Hf s Hs) as (x & a & s1 & E & Hs1 & HR). exists x, a, s1. auto. Qed.

Lemma writes_lift {A B} o e (v : option A) a (g : A -> P B) R :
  v = Some a -> writes o (g a) R -> writes o (bind (lift_opt e v) g) R.
Proof. intros -> Hg s Hs. destruct (Hg s Hs) as (x & b & s1 & E & Hs1). exists x, b, s1. by rewrite (bind_lift_opt _ _ a). Qed.

(** Exactly the text [x], with the value [a]. *)
Definition emits {A} (f : P A) (x : list Z) (a : A) : Prop :=
  forall o, buf + len o + len x < 2 ^ 32 -> writes o f (fun x' a' => x' = x /\ a' = a).

Lemma emits_bind {A B} (f : P A) (g : A -> P B) x y a b :
  emits f x a -> emits (g a) y b -> emits (bind f g) (x ++ y) b.
Proof.
  intros Hf Hg o Ho. rewrite length_app in Ho. eapply writes_bind; [apply Hf; lia|].
  intros x' a' [-> ->]. eapply writes_weaken; [apply Hg; rewrite length_app; lia|]. naive_solver.
Qed.

Lemma emits_ret {A} (a : A) : emits (ret a) [] a.
Proof. intros o _. by apply writes_ret. Qed.

Lemma emit_emits c : emits (emit limit c) [c] tt.
Proof.
  intros o Ho s [E Hw]. simpl in Ho. unfold emit.
  assert (forall m, write_bytes m0 buf (u8 <$> take (Z.to_nat n) (o ++ [c])) = Some m ->
    rep (o ++ [c]) (m, u32 (s.2 + 1))) as Hrep.
  { intros m Hm. split; [|done]. simpl. rewrite E, length_app, u32_small by lia. simpl. lia. }
  destruct (Z.leb_spec s.2 limit) as [Hle|Hgt].
  - assert (length o < Z.to_nat n)%nat as Hl by lia.
    assert (exists m, write_bytes m0 buf (u8 <$> take (Z.to_nat n) (o ++ [c])) = Some m) as [m Hm].
    { apply write_bytes_ok. intros x Hx. apply Hmap. rewrite length_fmap, length_take in Hx. lia. }
    exists [c], tt, (m, u32 (s.2 + 1)). split; [|by auto]. rewrite !take_ge in * by (rewrite ?length_app; simpl; lia).
    rewrite fmap_app, write_bytes_app, length_fmap, Hw, <-E in Hm. simpl in Hm.
    unfold store. simpl. change (c mod 256) with (u8 c). by rewrite Hm.
  - exists [c], tt, (s.1, u32 (s.2 + 1)). split; [done|]. split; [|done]. apply Hrep.
    by rewrite take_app_le by lia.
Qed.

Lemma emit_list_emits cs : emits (emit_list limit cs) cs tt.
Proof.
  induction cs as [|c cs IH]; [apply emits_ret|].
  apply (emits_bind _ _ [c] cs tt tt); [apply emit_emits|exact IH].
Qed.

Lemma pad_emits bound k c : emits (pad limit bound k c) (chars c (k - bound)) (Z.min k bound - 1).
Proof.
  unfold pad. assert (k - bound < Z.of_nat (S (Z.to_nat (k - bound))) /\ 0 < Z.of_nat (S (Z.to_nat (k - bound)))) as Hf by lia. revert Hf.
  generalize (S (Z.to_nat (k - bound))). intros fuel. revert k.
  induction fuel as [|fuel IH]; intros k Hf; [lia|].
  cbn [pad_loop]. destruct (Z.ltb_spec bound k).
  - rewrite chars_step by lia. replace (Z.min k bound - 1) with (Z.min (k - 1) bound - 1) by lia.
    replace (k - bound - 1) with (k - 1 - bound) by lia.
    apply (emits_bind _ _ [c] _ tt); [apply emit_emits|apply IH; lia].
  - rewrite chars_none by lia. replace (Z.min k bound - 1) with (k - 1) by lia. apply emits_ret.
Qed.

(** ** [print_number] *)
(** The text [x'] written instead of [x]: within the buffer it is [x]. *)
Definition agree (o x x' : list Z) : Prop :=
  len x <= len x' <= 2 * len x /\ take (Z.to_nat n) (o ++ x') = take (Z.to_nat n) (o ++ x).

Lemma agree_refl o x : agree o x x.
Proof. split; [lia|done]. Qed.

Lemma agree_inside o x x' : agree o x x' -> len o + len x < n -> x' = x.
Proof.
  intros [Hl Ht] Hn. rewrite (take_ge (o ++ x)) in Ht by (rewrite length_app; lia).
  pose proof (f_equal length Ht) as E. rewrite length_take, !length_app in E.
  rewrite take_ge in Ht by (rewrite length_app; lia). by apply app_inv_head in Ht.
Qed.

Lemma agree_app o x x' y y' : agree o x x' -> agree (o ++ x') y y' -> agree o (x ++ y) (x' ++ y').
Proof.
  intros Ha [Hl Ht]. split; [destruct Ha; rewrite !length_app; lia|].
  rewrite !app_assoc, Ht. destruct (decide (len o + len x < n)) as [Hn|Hn].
  - by rewrite (agree_inside _ _ _ Ha Hn).
  - destruct Ha as [Hlx Htx]. rewrite !(take_app_le (o ++ _)); [done|rewrite length_app; lia..].
Qed.

(** The sign; [size] is counted down only within the buffer. *)
Lemma sign_writes sgn size o : buf + len o + len (if sgn =? 0 then [] else [sgn]) < 2 ^ 32 ->
  writes o (if negb (sgn =? 0) then
      let! b := gets snd in emit limit sgn ;! ret (if b <=? limit then size - 1 else size)
    else ret size)
    (fun x a => x = (if sgn =? 0 then [] else [sgn]) /\ size - len x <= a <= size /\
                (len o < n -> a = size - len x)).
Proof.
  intros Ho. destruct (sgn =? 0); simpl in *; [apply writes_ret; simpl; auto with lia|].
  intros s Hs. rewrite bind_gets. destruct Hs as [E Hw].
  assert (emits (emit limit sgn ;! ret (if s.2 <=? limit then size - 1 else size)) [sgn]
    (if s.2 <=? limit then size - 1 else size)) as He.
  { apply (emits_bind _ _ [sgn] [] tt); [apply emit_emits|apply emits_ret]. }
  destruct (He o ltac:(simpl; lia) s (conj E Hw)) as (x & a & s1 & E1 & Hs1 & -> & ->).
  exists [sgn], (if s.2 <=? limit then size - 1 else size), s1. split; [done|]. split; [done|]. split; [done|].
  rewrite E. simpl. destruct (Z.leb_spec (buf + len o) limit); lia.
Qed.
End Writing.

Lemma has_clear m type : Z.land 1 m = 0 -> has m (Z.land type (Z.lnot ZEROPAD)) = has m type.
Proof.
  intros Hm. unfold has. do 2 f_equal. rewrite <-Z.land_assoc. f_equal.
  apply Z.bits_inj'. intros k Hk. rewrite Z.land_spec, Z.lnot_spec by done.
  apply (f_equal (fun z => Z.testbit z k)) in Hm. rewrite Z.land_spec, Z.testbit_0_l in Hm.
  unfold ZEROPAD. destruct (Z.testbit 1 k), (Z.testbit m k); naive_solver.
Qed.

Lemma has_clear_zeropad type : has ZEROPAD (Z.land type (Z.lnot ZEROPAD)) = false.
Proof. unfold has. rewrite <-Z.land_assoc. change (Z.land (Z.lnot ZEROPAD) ZEROPAD) with 0. by rewrite Z.land_0_r. Qed.

Lemma has_lor a b type : has (Z.lor a b) type = has a type || has b type.
Proof.
  unfold has. rewrite Z.land_lor_distr_r. destruct (Z.eqb_spec (Z.land type a) 0) as [->|Ha].
  - by rewrite Z.lor_0_l.
  - destruct (Z.eqb_spec (Z.lor (Z.land type a) (Z.land type b)) 0) as [E|]; [|done].
    apply Z.lor_eq_0_iff in E. tauto.
Qed.

Lemma number_sign_eq num type : i32 num = num ->
  (if (number_sign num type).1 =? 0 then [] else [(number_sign num type).1]) = sign_text type num /\
  u32 (number_sign num type).2 = magnitude type num /\
  i32 (number_sign num type).2 = (number_sign num type).2.
Proof.
  intros Hi. unfold number_sign, sign_text, magnitude. destruct (has SIGN type); simpl; [|auto].
  destruct (Z.ltb_spec num 0); simpl.
  - split; [done|]. split; [|by rewrite <-(i32_u32 (i32 _)), u32_i32, i32_u32].
    rewrite u32_i32. apply u32_small. pose proof (Z.mod_pos_bound (num + 2 ^ 31) (2 ^ 32) ltac:(lia)).
    unfold i32 in Hi. lia.
  - destruct (has PLUS type), (has SPACE type); auto.
Qed.

(** The flags and the sign with [ZEROPAD] cleared for [LEFT]. *)
Lemma cleared_flags flags type :
  type = (if has LEFT flags then Z.land flags (Z.lnot ZEROPAD) else flags) ->
  (forall num, sign_text type num = sign_text flags num /\ magnitude type num = magnitude flags num) /\
  has LEFT type = has LEFT flags /\ has ZEROPAD type = (negb (has LEFT flags) && has ZEROPAD flags).
Proof.
  intros ->. unfold sign_text, magnitude. destruct (has LEFT flags) eqn:E; [|by rewrite E].
  by rewrite !has_clear, has_clear_zeropad, E by done.
Qed.

(** ** Conversions *)
Section Conversions.
Context (m0 : ram) (buf n : Z) (Hbuf : 0 <= buf) (Hlim : buf + n <= 2 ^ 32) (Hmap : mapped m0 buf n).
Local Abbreviation limit := (buf + n - 1).
Local Abbreviation len l := (Z.of_nat (length l)).
Local Abbreviation writes := (writes m0 buf n).
Local Abbreviation emits := (emits m0 buf n).
#[local] Set Default Proof Using "All".

(** The digits with their precision. *)
Lemma digits_emit flags base v precision size :
  let D := digit_char flags <$> to_digits 32 (printed_base base) v in
  emits (pad limit (len D) (Z.max (len D) precision) (ch "0") ;!
         emit_list limit D ;! pad limit 0 size (ch " ") ;! ret tt)
    ((chars (ch "0") (precision - len D) ++ D) ++ chars (ch " ") size) tt.
Proof.
  intros D. rewrite <-app_assoc.
  replace (chars (ch "0") (precision - len D)) with (chars (ch "0") (Z.max (len D) precision - len D))
    by (unfold chars; f_equal; lia).
  eapply emits_bind; [done..|by apply pad_emits|]. eapply emits_bind; [done..|by apply emit_list_emits|].
  rewrite <-(app_nil_r (chars _ size)). replace size with (size - 0) at 2 by lia.
  eapply emits_bind; [done..|by apply pad_emits|by apply emits_ret].
Qed.

Lemma agree_beyond o x x' :
  (len o < n -> x' = x) -> len x <= len x' <= 2 * len x -> agree n o x x'.
Proof.
  intros He Hl. split; [done|]. destruct (decide (len o < n)) as [Hn|Hn]; [by rewrite He|].
  rewrite !(take_app_le o); [done|lia..].
Qed.

Lemma writes_emits {A} o (f : P A) x a (R : list Z -> A -> Prop) :
  emits f x a -> buf + len o + len x < 2 ^ 32 -> R x a -> writes o f R.
Proof. intros He Hb HR. eapply writes_weaken; [done..|by apply He|]. by intros ?? [-> ->]. Qed.

(** What follows the sign: zeros or blanks, the digits, blanks. *)
Lemma body_emits (left : bool) c flags base v precision size :
  let D := digit_char flags <$> to_digits 32 (printed_base base) v in
  emits (let! size := (if negb left then pad limit 0 size c else ret size) in
         pad limit (len D) (Z.max (len D) precision) (ch "0") ;!
         emit_list limit D ;! pad limit 0 size (ch " ") ;! ret tt)
    ((if left then [] else chars c size) ++ (chars (ch "0") (precision - len D) ++ D) ++
     (if left then chars (ch " ") size else [])) tt.
Proof.
  intros D. eapply (emits_bind m0 buf n) with (a := if left then size else Z.min size 0 - 1); [done..| |].
  - destruct left; simpl; [by apply emits_ret|]. replace size with (size - 0) at 2 by lia. by apply pad_emits.
  - pose proof (digits_emit flags base v precision (if left then size else Z.min size 0 - 1)) as H.
    destruct left; [exact H|]. rewrite (chars_none (ch " ")) in H by lia. exact H.
Qed.

(** From the sign on. *)
Lemma signed_writes (left : bool) c flags base v precision size sgn o
    (S := if sgn =? 0 then [] else [sgn])
    (D := chars (ch "0") (precision - len (digit_char flags <$> to_digits 32 (printed_base base) v)) ++
          (digit_char flags <$> to_digits 32 (printed_base base) v))
    (T := fun k => (if left then [] else chars c k) ++ D ++ (if left then chars (ch " ") k else [])) :
  buf + len o + 2 * len (S ++ T (size - len S)) < 2 ^ 32 ->
  writes o
    (let! size := (if negb (sgn =? 0) then
        let! b := gets snd in emit limit sgn ;! ret (if b <=? limit then size - 1 else size)
      else ret size) in
     let! size := (if negb left then pad limit 0 size c else ret size) in
     pad limit (len (digit_char flags <$> to_digits 32 (printed_base base) v))
       (Z.max (len (digit_char flags <$> to_digits 32 (printed_base base) v)) precision) (ch "0") ;!
     emit_list limit (digit_char flags <$> to_digits 32 (printed_base base) v) ;!
     pad limit 0 size (ch " ") ;! ret tt)
    (fun x _ => agree n o (S ++ T (size - len S)) x).
Proof.
  intros Ho. assert (len S <= 1) as HS by (subst S; destruct (sgn =? 0); simpl; lia).
  assert (forall k, size - len S <= k <= size -> len (T (size - len S)) <= len (T k) <= len (T (size - len S)) + len S) as HT.
  { intros k Hk. subst T. cbv beta. destruct left; rewrite !length_app; simpl; rewrite ?length_app, !Nat2Z.inj_add, !length_chars; lia. }
  rewrite length_app in Ho. eapply writes_bind; [done..|apply sign_writes; [done..|]|].
  { fold S. lia. }
  intros x a (-> & Ha & Hin). fold S in Ha, Hin |- *. pose proof (HT a Ha).
  eapply writes_emits; [apply body_emits|rewrite length_app|].
  - change (buf + Z.of_nat (length o + length S) + len (T a) < 2 ^ 32). lia.
  - apply agree_beyond; [|change (len (S ++ T (size - len S)) <= len (S ++ T a) <= 2 * len (S ++ T (size - len S))); rewrite !length_app; lia].
    intros Hn. by rewrite (Hin Hn).
Qed.

Lemma print_number_writes num base width precision flags o
    (x := number_text flags width precision (printed_base base) num) :
  i32 num = num -> buf + len o + 2 * len x < 2 ^ 32 ->
  writes o (print_number limit num base width precision flags) (fun x' _ => agree n o x x').
Proof.
  intros Hi Ho. unfold print_number. fold (base_digits flags).
  set (type := if has LEFT flags then Z.land flags (Z.lnot ZEROPAD) else flags).
  destruct (cleared_flags flags type eq_refl) as (Hs & HL & HZ).
  destruct (Hs num) as [Hsgn Hmag]. destruct (number_sign_eq num type Hi) as (ES & EM & EI).
  rewrite Hsgn in ES. rewrite Hmag in EM. clear Hs Hsgn Hmag. clearbody type.
  destruct (number_sign num type) as [sgn num']. cbn [fst snd] in ES, EM, EI.
  eapply writes_lift; [done..|by apply number_chars_eq|].
  rewrite !length_reverse, !reverse_involutive, has_lor, HL, HZ, EM.
  set (D := digit_char flags <$> to_digits 32 (printed_base base) (magnitude flags num)) in *.
  replace (if precision <? len D then len D else precision) with (Z.max (len D) precision)
    by (destruct (Z.ltb_spec precision (len D)); lia).
  assert (len (chars (ch "0") (precision - len D) ++ D) = Z.max (len D) precision) as HD
    by (rewrite length_app, Nat2Z.inj_add, length_chars; lia).
  subst x. unfold number_text in *. fold D in Ho |- *. rewrite HD, <-ES in *.
  replace (width - len (if sgn =? 0 then [] else [sgn]) - Z.max (len D) precision)
    with (width - Z.max (len D) precision - len (if sgn =? 0 then [] else [sgn])) in * by lia.
  set (size := width - Z.max (len D) precision) in *.
  destruct (has LEFT flags); [|destruct (has ZEROPAD flags)]; cbn [negb andb orb].
  - pose proof (signed_writes true (ch "0") flags base (magnitude flags num) precision size sgn o) as H.
    exact (H Ho).
  - pose proof (signed_writes false (ch "0") flags base (magnitude flags num) precision size sgn o) as H.
    cbv zeta beta iota in H. rewrite !app_nil_r in H. exact (H Ho).
  - set (S := if sgn =? 0 then [] else [sgn]) in *.
    set (size1 := if negb (sgn =? 0) && (0 <? size) then size - 1 else size).
    assert (chars (ch " ") (size - len S) = chars (ch " ") (size1 - 0)) as EC.
    { unfold chars. f_equal. subst size1 S. destruct (sgn =? 0); simpl; [lia|]. destruct (Z.ltb_spec 0 size); lia. }
    rewrite EC in *. rewrite !length_app in Ho.
    eapply writes_bind; [done..|eapply writes_emits; [done..|by apply pad_emits|lia|]|].
    { instantiate (1 := fun x a => x = chars (ch " ") (size1 - 0) /\ a = Z.min size1 0 - 1). done. }
    intros y a [-> ->].
    pose proof (signed_writes false (ch " ") flags base (magnitude flags num) precision (Z.min size1 0 - 1) sgn
      (o ++ chars (ch " ") (size1 - 0))) as H.
    cbv zeta beta iota in H. rewrite !app_nil_r, (chars_none (ch " ") (_ - _ - _)) in H by (destruct (sgn =? 0); simpl; lia).
    eapply writes_weaken; [done..|apply H|].
    + fold S D. rewrite !length_app. change (@length Z []) with O. lia.
    + intros x' u Hx. apply (agree_app m0 buf n); [done..|by apply (agree_refl m0 buf)|exact Hx].
Qed.

Lemma pad_pre_emits k : emits (pad_pre limit k) (chars (ch " ") (k - 1)) (Z.min (k - 1) 0).
Proof.
  unfold pad_pre. assert (k < Z.of_nat (S (Z.to_nat k)) /\ 0 < Z.of_nat (S (Z.to_nat k))) as Hf by lia. revert Hf.
  generalize (S (Z.to_nat k)). intros fuel. revert k.
  induction fuel as [|fuel IH]; intros k Hf; [lia|].
  cbn [pad_pre_loop]. destruct (Z.ltb_spec 0 (k - 1)).
  - rewrite chars_step by lia. replace (Z.min (k - 1) 0) with (Z.min (k - 1 - 1) 0) by lia.
    apply (emits_bind m0 buf n) with (x := [ch " "]) (a := tt); [done..|by apply emit_emits|apply IH; lia].
  - rewrite chars_none by lia. replace (Z.min (k - 1) 0) with (k - 1) by lia. by apply emits_ret.
Qed.

Lemma emits_eq {A} (f : P A) x y a : x = y -> emits f x a -> emits f y a.
Proof. by intros ->. Qed.

Lemma writes_exact {A} o (f : P A) x (b : A) :
  emits f x b -> buf + len o + 2 * len x < 2 ^ 32 -> writes o f (fun x' r => agree n o x x' /\ r = b).
Proof.
  intros He Ho. eapply writes_emits; [exact He|lia|]. split; [by apply (agree_refl m0 buf)|done].
Qed.

Lemma writes_agree {A B} o (f : P A) x (b : B) :
  writes o f (fun x' _ => agree n o x x') -> writes o (f ;! ret b) (fun x' r => agree n o x x' /\ r = b).
Proof.
  intros Hf. eapply writes_bind; [done..|exact Hf|]. intros x' a Ha. apply writes_ret; [done..|]. by rewrite app_nil_r.
Qed.

Lemma emits_ret_after {A B} (f : P A) x a (b : B) : emits f x a -> emits (f ;! ret b) x b.
Proof. intros Hf. eapply emits_eq; [apply app_nil_r|]. eapply emits_bind; [done..|exact Hf|by apply emits_ret]. Qed.

Lemma char_field_emits {B} flags width c (b : B) :
  emits (let! width := (if negb (has LEFT flags) then pad_pre limit width else ret width) in
         emit limit c ;! pad_pre limit width ;! ret b)
    (field_text flags width [c]) b.
Proof.
  unfold field_text. change (len [c]) with 1. destruct (has LEFT flags); simpl.
  - apply (emits_bind m0 buf n) with (x := []) (a := width); [done..|by apply emits_ret|].
    apply (emits_bind m0 buf n) with (x := [c]) (a := tt); [done..|by apply emit_emits|].
    eapply emits_ret_after. by apply pad_pre_emits.
  - eapply emits_bind; [done..|by apply pad_pre_emits|].
    apply (emits_bind m0 buf n) with (x := [c]) (y := []) (a := tt); [done..|by apply emit_emits|].
    rewrite <-(chars_none (ch " ") (Z.min (width - 1) 0 - 1)) by lia.
    eapply emits_ret_after. by apply pad_pre_emits.
Qed.

Lemma text_field_emits {B} flags width t k (b : B) : k = len t ->
  emits (let! width := (if negb (has LEFT flags) then pad limit k width (ch " ") else ret width) in
         emit_list limit t ;! pad limit k width (ch " ") ;! ret b)
    (field_text flags width t) b.
Proof.
  intros ->. unfold field_text. destruct (has LEFT flags); simpl.
  - apply (emits_bind m0 buf n) with (x := []) (a := width); [done..|by apply emits_ret|].
    eapply emits_bind; [done..|by apply emit_list_emits|]. eapply emits_ret_after. by apply pad_emits.
  - eapply emits_bind; [done..|by apply pad_emits|].
    eapply emits_eq; [apply app_nil_r|]. eapply emits_bind; [done..|by apply emit_list_emits|].
    rewrite <-(chars_none (ch " ") (Z.min width (len t) - 1 - len t)) by lia.
    eapply emits_ret_after. by apply pad_emits.
Qed.

Lemma i32_i32 x : i32 (i32 x) = i32 x.
Proof. by rewrite <-(i32_u32 (i32 x)), u32_i32, i32_u32. Qed.

Lemma convert_writes flags width precision qualifier fmt args x args' o :
  conversion_text false flags width precision qualifier (cur fmt) args = Some (x, args') ->
  buf + len o + 2 * len x < 2 ^ 32 ->
  writes o (convert limit flags width precision qualifier fmt args)
    (fun x' r => agree n o x x' /\ r = (tail fmt, args')).
Proof.
  unfold conversion_text, convert. set (c := cur fmt). intros E Ho.
  destruct (c =? ch "c").
  { destruct (va_int args) as [[v args1]|]; simpl in E; [|done]. injection E as <- <-.
    exact (writes_exact _ _ _ _ (char_field_emits flags width (u8 v) (tail fmt, args1)) Ho). }
  destruct (c =? ch "s").
  { destruct (va_str args) as [[v args1]|]; simpl in E; [|done]. injection E as <- <-.
    set (s := default _ v) in *. set (t := if 0 <? precision then _ else s) in *.
    pose (k := if (0 <? precision) && (precision <? len s) then precision else len s).
    assert (take (Z.to_nat k) s = t /\ k = len t) as [Et Ek].
    { subst k t. destruct (Z.ltb_spec 0 precision); simpl; [|rewrite take_ge by lia; auto].
      rewrite length_take. destruct (Z.ltb_spec precision (len s)); [split; [done|lia]|].
      rewrite !take_ge by lia. split; [done|lia]. }
    clearbody t. subst t.
    exact (writes_exact _ _ _ _ (text_field_emits flags width _ k (tail fmt, args1) Ek) Ho). }
  destruct (c =? ch "p").
  { destruct (va_int args) as [[v args1]|]; simpl in E; [|done]. injection E as <- <-.
    eapply writes_lift; [done..|]. apply writes_agree; [done..|].
    destruct (width =? -1); refine (print_number_writes _ 16 _ _ _ _ _ Ho); by rewrite ?i32_i32. }
  destruct (c =? ch "%").
  { injection E as <- <-. apply writes_exact; [|done]. eapply emits_ret_after. by apply emit_emits. }
  destruct (int_conversion c flags) as [[base flags']|].
  { destruct (va_int args) as [[v args1]|]; simpl in E; [|done]. injection E as <- <-.
    eapply writes_lift; [done..|]. apply writes_agree; [done..|].
    refine (print_number_writes _ _ _ _ _ _ _ Ho); by rewrite ?i32_i32. }
  injection E as <- <-. apply writes_exact; [|done]. apply (emits_bind m0 buf n) with (x := [ch "%"]) (a := tt); [done..|by apply emit_emits|].
  eapply emits_ret_after. destruct (c =? 0); [by apply emits_ret|by apply emit_emits].
Qed.

Lemma vsn_writes fuel : forall fmt args out o,
  format false fuel fmt args = Some out -> buf + len o + 2 * len out < 2 ^ 32 ->
  writes o (vsn_loop limit fuel fmt args) (fun x _ => agree n o out x).
Proof.
  induction fuel as [|fuel IH]; intros fmt args out o E Ho; [done|]. cbn [format vsn_loop] in *.
  destruct fmt as [|c fmt]; [injection E as <-; apply writes_ret; [done..|by apply (agree_refl m0 buf)]|].
  destruct (negb (c =? ch "%")).
  { destruct (format false fuel fmt args) as [t|] eqn:Et; simpl in E; [|done]. injection E as <-. cbn [length] in Ho.
    eapply writes_bind; [done..|eapply writes_emits; [by apply emit_emits|simpl; lia|]|].
    { instantiate (1 := fun x _ => x = [c]). done. }
    intros x a ->. eapply writes_weaken; [done..|apply (IH _ _ _ _ Et); rewrite length_app; simpl; lia|].
    intros y u Hy. by apply (agree_app m0 buf n ltac:(done) ltac:(done) ltac:(done) o [c] [c]); [apply (agree_refl m0 buf)|]. }
  destruct (flags_loop fmt 0) as [flags fmt1].
  destruct (get_width flags fmt1 args) as [[[[width flags2] fmt2] args2]|] eqn:Ew; simpl in E; [|done].
  destruct (get_precision fmt2 args2) as [[[precision fmt3] args3]|] eqn:Ep; simpl in E; [|done].
  destruct (get_qualifier fmt3) as [qualifier fmt4] eqn:Eq.
  destruct (conversion_text _ _ _ _ _ _ _) as [[x args4]|] eqn:Ec; simpl in E; [|done].
  destruct (format false fuel (tail fmt4) args4) as [t|] eqn:Et; simpl in E; [|done]. injection E as <-.
  rewrite length_app in Ho.
  eapply writes_lift; [done..|reflexivity|]. cbv iota beta. rewrite Ep. eapply writes_lift; [done..|reflexivity|]. cbv iota beta. rewrite Eq.
  eapply writes_bind; [done..|apply (convert_writes _ _ _ _ _ _ _ _ _ Ec); lia|].
  intros x' r [Hx ->]. cbn [fst snd].
  eapply writes_weaken; [done..|apply (IH _ _ _ _ Et); destruct Hx; rewrite length_app; lia|].
  intros y u Hy. by apply (agree_app m0 buf n).
Qed.
End Conversions.

(** ** The buffer *)
(** Overwriting the last byte of what has been written. *)
Lemma write_last m a l m' n k v : S k = n -> (n <= length l)%nat ->
  write_bytes m a (u8 <$> take n l) = Some m' ->
  store 1 m' (a + Z.of_nat k) v = write_bytes m a ((u8 <$> take k l) ++ [v mod 256]).
Proof.
  intros <- Hl. destruct (lookup_lt_is_Some_2 l k) as [c Hc]; [lia|].
  rewrite (take_S_r _ _ c Hc), fmap_app, !write_bytes_app, length_fmap, length_take, Nat.min_l by lia.
  destruct (write_bytes m a (u8 <$> take k l)) as [m1|]; simpl; [|done].
  destruct (m1 !! (a + Z.of_nat k)) eqn:E; simpl; [|done]. intros [= <-].
  unfold store. simpl. by rewrite lookup_insert_eq, insert_insert_eq.
Qed.

Lemma rt_vsnprintf_ok m buf size fmt args out :
  printed fmt args = Some out ->
  0 <= buf -> 0 < size -> buf + size <= 2 ^ 32 -> mapped m buf size ->
  2 * Z.of_nat (length out) < 2 ^ 31 -> buf + 2 * Z.of_nat (length out) < 2 ^ 32 ->
  exists r m', rt_vsnprintf buf size fmt args m = Ok r m' /\
    write_bytes m buf ((u8 <$> take (Z.to_nat (size - 1)) out) ++ [0]) = Some m' /\
    (if Z.of_nat (length out) <? size then r = Z.of_nat (length out) else Z.of_nat (length out) <= r <= 2 * Z.of_nat (length out)).
Proof.
  intros Hp Hbuf Hsize Hend Hmap Hlen Hout.
  destruct (vsn_writes m buf size Hbuf Hend Hmap _ fmt args out [] Hp ltac:(simpl; lia) (m, buf))
    as (x & [] & [m1 str] & E & [Es Ew] & Ha).
  { split; [simpl; lia|]. by destruct (Z.to_nat size). }
  unfold rt_vsnprintf. rewrite (u32_small (buf + size - 1)) by lia.
  destruct (Z.ltb_spec (buf + size - 1) buf); [lia|]. rewrite E. cbn [fst snd] in Es, Ew. simpl app in *. subst str.
  pose proof (agree_inside m buf size Hbuf Hend Hmap [] out x Ha) as Hin. simpl in Hin. destruct Ha as [Hl Ht]. simpl in Ht.
  assert (store 1 m1 (if buf + Z.of_nat (length x) <=? buf + size - 1 then buf + Z.of_nat (length x) else buf + size - 1) 0 =
    write_bytes m buf ((u8 <$> take (Z.to_nat (size - 1)) out) ++ [0])) as ->.
  { destruct (Z.leb_spec (buf + Z.of_nat (length x)) (buf + size - 1)).
    - rewrite Hin in * by lia. rewrite take_ge in Ew |- * by lia. rewrite write_bytes_app, Ew, length_fmap. done.
    - assert (Z.to_nat size <= length out)%nat.
      { apply (f_equal length) in Ht. rewrite !length_take in Ht. lia. }
      rewrite Ht in Ew. apply (write_last _ _ _ _ _ (Z.to_nat (size - 1))) with (v := 0) in Ew; [|lia..].
      etransitivity; [|exact Ew]. f_equal. lia. }
  destruct (write_bytes_ok m buf ((u8 <$> take (Z.to_nat (size - 1)) out) ++ [0])) as [m' Hm'].
  { intros a Hx. apply Hmap. rewrite length_app, length_fmap, length_take in Hx. simpl in Hx. lia. }
  exists (i32 (buf + Z.of_nat (length x) - buf)), m'. rewrite Hm'. split; [done|]. split; [done|].
  rewrite i32_small by lia. destruct (Z.ltb_spec (Z.of_nat (length out)) size); [rewrite Hin; lia|]. lia.
Qed.

(** ** Reading a number back *)
Lemma digit_char_dec d : 0 <= d < 10 -> digit_char 0 d = ch "0" + d.
Proof.
  intros Hd. assert (d = 0 \/ d = 1 \/ d = 2 \/ d = 3 \/ d = 4 \/ d = 5 \/ d = 6 \/ d = 7 \/ d = 8 \/ d = 9) as H by lia.
  by destruct H as [->|[->|[->|[->|[->|[->|[->|[->|[->| ->]]]]]]]]].
Qed.

Lemma foldl_ge ds : forall a, Forall (fun d => 0 <= d < 10) ds -> 0 <= a -> a <= foldl (fun a d => a * 10 + d) a ds.
Proof.
  induction ds as [|d ds IH]; intros a Hds Ha; [done|]. apply Forall_cons in Hds as [Hd Hds]. simpl.
  pose proof (IH (a * 10 + d) Hds). lia.
Qed.

Lemma atoi_digits ds : forall a, Forall (fun d => 0 <= d < 10) ds -> 0 <= a ->
  foldl (fun a d => a * 10 + d) a ds < 2 ^ 31 ->
  atoi_loop a (digit_char 0 <$> ds) = (foldl (fun a d => a * 10 + d) a ds, []).
Proof.
  induction ds as [|d ds IH]; intros a Hds Ha Hv; [done|]. apply Forall_cons in Hds as [Hd Hds].
  cbn [fmap list_fmap atoi_loop foldl] in *. rewrite digit_char_dec by done. unfold isdigit.
  change (ch "0") with 48 in *. replace (48 + d - 48) with d by lia. rewrite u32_small by lia.
  destruct (Z.ltb_spec d 10); [|lia]. replace (a * 10 + (48 + d) - 48) with (a * 10 + d) by lia.
  rewrite i32_small; [apply IH; [done|lia|done]|]. split; [lia|].
  enough (a * 10 + d <= foldl (fun a d => a * 10 + d) (a * 10 + d) ds) by lia.
  apply foldl_ge; [done|lia].
Qed.

(** C28: [rt_vsnprintf] writes the text of the format, as far as it fits, and a
    terminating 0 into the [size] bytes of the buffer and nothing outside.  It
    returns the length of the text if it fits with its terminator; of a text
    that is cut off it returns at least the length, and so at least [size], but
    it may return more.  The format has no [%o] and no [%.0s], which are not
    printed as they are meant. *)
Theorem vsnprintf_writes_text m buf size fmt args out :
  meant fmt args = Some out -> plain fmt args = true ->
  0 <= buf -> 0 < size -> buf + size <= 2 ^ 32 -> mapped m buf size ->
  2 * Z.of_nat (length out) < 2 ^ 31 -> buf + 2 * Z.of_nat (length out) < 2 ^ 32 ->
  exists r m', rt_vsnprintf buf size fmt args m = Ok r m' /\
    write_bytes m buf ((u8 <$> take (Z.to_nat (size - 1)) out) ++ [0]) = Some m' /\
    (if Z.of_nat (length out) <? size then r = Z.of_nat (length out)
     else Z.of_nat (length out) <= r <= 2 * Z.of_nat (length out)).
Proof. intros Hm Hp. apply rt_vsnprintf_ok. unfold printed, meant in *. by rewrite <-(plain_format _ _ _ Hp). Qed.

Lemma read_bytes_prefix m a l1 l2 n1 n2 : length l1 = n1 ->
  read_bytes m a (n1 + n2) = Some (l1 ++ l2) -> read_bytes m a n1 = Some l1.
Proof.
  intros Hl. rewrite read_bytes_app. destruct (read_bytes m a n1) as [l|] eqn:E; simpl; [|done].
  destruct (read_bytes m _ n2) as [l'|]; simpl; [|done]. intros [= H].
  apply app_inj_1 in H as [-> _]; [done|]. apply read_bytes_lookup in E as [E _]. lia.
Qed.

Lemma u8_digits ds : Forall (fun d => 0 <= d < 10) ds -> u8 <$> (digit_char 0 <$> ds) = digit_char 0 <$> ds.
Proof.
  induction 1 as [|d ds Hd _ IH]; [done|]. rewrite !fmap_cons, IH, digit_char_dec by done.
  f_equal. apply u8_small. change (ch "0") with 48. lia.
Qed.

Lemma printed_unsigned v : 0 <= v < 2 ^ 31 ->
  printed [ch "%"; ch "u"] [VInt v] = Some (digit_char 0 <$> to_digits 32 10 v).
Proof.
  intros Hv. transitivity (Some (number_text 0 (-1) (-1) 10 (i32 (u32 v)) ++ [])); [reflexivity|].
  rewrite app_nil_r. f_equal. unfold number_text. change (magnitude 0 ?x) with (u32 x).
  rewrite u32_i32, !u32_small by (rewrite ?u32_small; lia). rewrite !(chars_none _ (_ - _)) by lia. done.
Qed.

(** A number below [2^31] printed by ["%u"] is read back by [skip_atoi]. *)
Theorem printed_number_read_back m buf size v :
  0 <= v < 2 ^ 31 -> 0 <= buf -> 11 <= size -> buf + size <= 2 ^ 32 -> buf + 20 < 2 ^ 32 -> mapped m buf size ->
  exists r m' t, rt_vsnprintf buf size [ch "%"; ch "u"] [VInt v] m = Ok r m' /\
    read_bytes m' buf (Z.to_nat r) = Some t /\ skip_atoi t = (v, []).
Proof.
  intros Hv Hbuf Hsize Hend Hend' Hmap. pose proof (printed_unsigned v Hv) as Hp.
  destruct (to_digits_spec 10 v 32) as (EV & HD & _); [lia|simpl; lia|].
  pose proof (to_digits_bound 10 10 32 v ltac:(lia) ltac:(simpl; lia) ltac:(lia)) as Hl.
  destruct (rt_vsnprintf_ok m buf size _ _ _ Hp) as (r & m' & E & Ew & Hr); [done|lia|done|done|rewrite length_fmap; lia..|].
  rewrite length_fmap in Hr. destruct (Z.ltb_spec (Z.of_nat (length (to_digits 32 10 v))) size); [subst r|lia].
  exists (Z.of_nat (length (to_digits 32 10 v))), m', (digit_char 0 <$> to_digits 32 10 v). split; [done|]. split.
  - rewrite take_ge in Ew by (rewrite length_fmap; lia). apply read_write_same in Ew.
    rewrite Nat2Z.id. rewrite length_app in Ew. eapply read_bytes_prefix in Ew; [|done].
    rewrite !length_fmap in Ew. rewrite Ew, u8_digits; done.
  - unfold skip_atoi. rewrite atoi_digits; [|done|lia|].
    + by rewrite <-EV at 2.
    + unfold digits_value in EV. lia.
Qed.

(** ** The fuel of the parser is enough *)
Lemma atoi_loop_length s : forall i, (length (atoi_loop i s).2 <= length s)%nat.
Proof. induction s as [|c s IH]; intros i; simpl; [lia|]. destruct (isdigit c); simpl; [pose proof (IH (i32 (i * 10 + c - ch "0"))); lia|lia]. Qed.

Lemma flags_loop_length fmt : forall flags, (length (flags_loop fmt flags).2 <= length fmt)%nat.
Proof.
  induction fmt as [|c fmt IH]; intros flags; simpl; [lia|].
  repeat (case_match; [etransitivity; [apply IH|lia]|]). simpl. lia.
Qed.

Lemma tail_length {A} (l : list A) : (length (tail l) <= length l)%nat.
Proof. destruct l; simpl; lia. Qed.

Lemma get_width_length flags fmt args w flags' fmt' args' :
  get_width flags fmt args = Some (w, flags', fmt', args') -> (length fmt' <= length fmt)%nat.
Proof.
  unfold get_width, skip_atoi. intros E. pose proof (tail_length fmt). pose proof (atoi_loop_length fmt 0).
  destruct (isdigit (cur fmt)); [destruct (atoi_loop 0 fmt); by injection E as <- <- <- <-|].
  destruct (cur fmt =? ch "*"); [|by injection E as <- <- <- <-].
  destruct (va_int args) as [[v args1]|]; simpl in E; [|done]. destruct (i32 v <? 0); by injection E as <- <- <- <-.
Qed.

Lemma get_precision_length fmt args p fmt' args' :
  get_precision fmt args = Some (p, fmt', args') -> (length fmt' <= length fmt)%nat.
Proof.
  unfold get_precision, skip_atoi. intros E. pose proof (tail_length fmt). pose proof (tail_length (tail fmt)).
  pose proof (atoi_loop_length (tail fmt) 0).
  destruct (cur fmt =? ch "."); [|by injection E as <- <- <-].
  destruct (isdigit (cur (tail fmt))); [destruct (atoi_loop 0 (tail fmt)); simpl in *; injection E as <- <- <-; lia|].
  destruct (cur (tail fmt) =? ch "*"); [|simpl in E; injection E as <- <- <-; lia].
  destruct (va_int args) as [[v args1]|]; simpl in E; [|done]. injection E as <- <- <-. lia.
Qed.

(** [printed] is undefined only where the arguments run out. *)
Lemma format_fuel exact fuel : forall fuel' fmt args,
  (length fmt < fuel)%nat -> (length fmt < fuel')%nat -> format exact fuel fmt args = format exact fuel' fmt args.
Proof.
  induction fuel as [|fuel IH]; intros [|fuel'] fmt args H H'; try lia. cbn [format].
  destruct fmt as [|c fmt]; [done|]. simpl in H, H'.
  destruct (negb (c =? ch "%")); [by rewrite (IH fuel') by lia|].
  pose proof (flags_loop_length fmt 0). destruct (flags_loop fmt 0) as [flags fmt1]. simpl in *.
  destruct (get_width flags fmt1 args) as [[[[w flags2] fmt2] args2]|] eqn:Ew; simpl; [|done].
  apply get_width_length in Ew.
  destruct (get_precision fmt2 args2) as [[[p fmt3] args3]|] eqn:Ep; simpl; [|done].
  apply get_precision_length in Ep. unfold get_qualifier.
  destruct (_ || _); (destruct (conversion_text _ _ _ _ _ _ _) as [[x args4]|]; simpl; [|done]);
    rewrite (IH fuel'); try done; destruct fmt3; simpl in *; try lia; pose proof (tail_length fmt3); lia.
Qed.

(** ** Where the code departs from C *)
Definition result_of {A} (r : res ram A) : option A := match r with Ok a _ => Some a | _ => None end.

(** ["%o"] of 255 means 377; the code writes [ff]. *)
Example octal_prints_hexadecimal :
  meant [ch "%"; ch "o"] [VInt 255] = Some [ch "3"; ch "7"; ch "7"] /\
  printed [ch "%"; ch "o"] [VInt 255] = Some [ch "f"; ch "f"] /\
  result_of (rt_vsnprintf 16 8 [ch "%"; ch "o"] [VInt 255] ram40) = Some 2.
Proof. repeat split; vm_compute; reflexivity. Qed.

(** ["%.0s"] means the empty text; the code writes the whole string. *)
Example no_precision_prints_string :
  let fmt := [ch "%"; ch "."; ch "0"; ch "s"] in
  meant fmt [VStr (Some [ch "x"; ch "y"])] = Some [] /\
  result_of (rt_vsnprintf 16 8 fmt [VStr (Some [ch "x"; ch "y"])] ram40) = Some 2.
Proof. split; vm_compute; reflexivity. Qed.

(** ["abcd%+05d"] has nine characters; cut off at four, ten are reported. *)
Example truncated_length :
  let fmt := [ch "a"; ch "b"; ch "c"; ch "d"; ch "%"; ch "+"; ch "0"; ch "5"; ch "d"] in
  length <$> printed fmt [VInt 7] = Some 9%nat /\
  result_of (rt_vsnprintf 16 20 fmt [VInt 7] ram40) = Some 9 /\
  result_of (rt_vsnprintf 16 4 fmt [VInt 7] ram40) = Some 10.
Proof. vm_compute. auto. Qed.

(** ** Witnesses *)
(** Eight bytes for ["<%+5d|%s>"] with 42 and ["xyz"]. *)
Definition fmt1 : list Z := [ch "<"; ch "%"; ch "+"; ch "5"; ch "d"; ch "|"; ch "%"; ch "s"; ch ">"].
Definition args1 : list va := [VInt 42; VStr (Some [ch "x"; ch "y"; ch "z"])].

Example vsnprintf_writes_text_witness :
  exists r m', rt_vsnprintf 16 8 fmt1 args1 ram40 = Ok r m' /\
    write_bytes ram40 16 ([ch "<"; ch " "; ch " "; ch "+"; ch "4"; ch "2"; ch "|"] ++ [0]) = Some m' /\ 11 <= r <= 22.
Proof.
  exact (vsnprintf_writes_text ram40 16 8 fmt1 args1
    [ch "<"; ch " "; ch " "; ch "+"; ch "4"; ch "2"; ch "|"; ch "x"; ch "y"; ch "z"; ch ">"]
    eq_refl eq_refl ltac:(lia) ltac:(lia) ltac:(lia) (mapped_b_sound ram40 16 8 ltac:(vm_compute; reflexivity))
    ltac:(simpl; lia) ltac:(simpl; lia)).
Defined.

Example printed_number_read_back_witness :
  exists r m' t, rt_vsnprintf 16 11 [ch "%"; ch "u"] [VInt 2147483647] ram40 = Ok r m' /\
    read_bytes m' 16 (Z.to_nat r) = Some t /\ skip_atoi t = (2147483647, []).
Proof.
  exact (printed_number_read_back ram40 16 11 2147483647 ltac:(lia) ltac:(lia) ltac:(lia) ltac:(lia) ltac:(lia)
    (mapped_b_sound ram40 16 11 ltac:(vm_compute; reflexivity))).
Defined.
End PrintfTheorems.
