(* ===== verification/DeviceTheorems.v ===== *)
(** * Devices and the console: the properties

    What a user of a device can rely on is a small state machine: the number of
    users, whether the device is initialised and counts as open, and the calls of
    its driver ([dstep]).  [rt_device_open] and
    [rt_device_close] implement it for drivers that return and leave the record
    of the device alone. *)
From Stdlib Require Import Ascii.
From S2P Require Import Prelude Kservice Ram Strings RtList KMonad Printf KState KPrim KInv Scheduler Object TimerBase Thread Timer Ipc Mem Device KernelInv PrintfTheorems Board SchedTheorems MemSpec MemTheorems.
Import Kservice Scheduler Object Ram Printf Mem Device PrintfTheorems MemSpec.
Local Arguments ch a%_char_scope.
Local Open Scope Z_scope.
Local Open Scope kmonad_scope.

Module DeviceTheorems.

(** ** The abstract device *)
Record dstate := DState { ds_active : bool; ds_count : Z; ds_open : bool }.
Inductive dcall := DOpen (oflag : Z) | DClose.

(** What the driver is called for, with its answer, and the message about an
    initialisation that failed. *)
Inductive event := Init (r : Z) | Message (r : Z) | Open (oflag r : Z) | Close (r : Z).

(** Which functions the driver has. *)
Record profile := Profile { pf_standalone : bool; pf_init : bool; pf_open : bool; pf_close : bool }.

(** Results of a driver the device layer takes for success. *)
Definition accepted (r : Z) : bool := (r =? RT_EOK) || (r =? - RT_ENOSYS).

Section machine.
Context (p : profile).

(** The initialisation at the start of an opening: the device is active or not,
    before and afterwards. *)
Inductive init_step : bool -> Z -> list event -> bool -> Prop :=
  | init_done : init_step true RT_EOK [] true
  | init_none : pf_init p = false -> init_step false RT_EOK [] true
  | init_accepted : pf_init p = true -> init_step false RT_EOK [Init RT_EOK] true
  | init_refused r : pf_init p = true -> r <> RT_EOK -> init_step false r [Init r; Message r] false.

(** The opening itself: count and open flag. *)
Inductive open_step : Z -> bool -> Z -> Z -> list event -> Z -> bool -> Prop :=
  | open_busy n oflag : pf_standalone p = true -> open_step n true oflag (- RT_EBUSY) [] n true
  | open_plain n b oflag : pf_standalone p && b = false -> pf_open p = false -> n < 255 ->
      open_step n b oflag RT_EOK [] (n + 1) true
  | open_accepted n b oflag r : pf_standalone p && b = false -> pf_open p = true -> accepted r = true -> n < 255 ->
      open_step n b oflag r [Open oflag r] (n + 1) true
  | open_refused n b oflag r : pf_standalone p && b = false -> pf_open p = true -> accepted r = false ->
      open_step n b oflag r [Open oflag r] n b.

Inductive close_step : Z -> bool -> Z -> list event -> Z -> bool -> Prop :=
  | close_idle b : close_step 0 b (- RT_ERROR) [] 0 b
  | close_shared n b : 1 < n -> close_step n b RT_EOK [] (n - 1) b
  | close_plain b : pf_close p = false -> close_step 1 b RT_EOK [] 0 false
  | close_accepted b r : pf_close p = true -> accepted r = true -> close_step 1 b r [Close r] 0 false
  | close_refused b r : pf_close p = true -> accepted r = false -> close_step 1 b r [Close r] 0 b.

Inductive dstep : dstate -> dcall -> Z -> list event -> dstate -> Prop :=
  | dstep_not_initialised n b oflag r l : r <> RT_EOK -> init_step false r l false ->
      dstep (DState false n b) (DOpen oflag) r l (DState false n b)
  | dstep_open a n b oflag r l1 l2 n' b' :
      init_step a RT_EOK l1 true -> open_step n b oflag r l2 n' b' ->
      dstep (DState a n b) (DOpen oflag) r (l1 ++ l2) (DState true n' b')
  | dstep_close a n b r l n' b' : close_step n b r l n' b' -> dstep (DState a n b) DClose r l (DState a n' b').

(** A sequence of calls with their results, and all that the driver is called
    for on the way. *)
Inductive dsteps : dstate -> list (dcall * Z) -> list event -> dstate -> Prop :=
  | dsteps_nil s : dsteps s [] [] s
  | dsteps_cons s c r l s1 tr l' s2 :
      dstep s c r l s1 -> dsteps s1 tr l' s2 -> dsteps s ((c, r) :: tr) (l ++ l') s2.
End machine.

(** ** The device as such a machine *)
Definition is_open (d : rt_device) : bool := negb (Z.land (dev_open_flag d) RT_DEVICE_OFLAG_OPEN =? 0).
Definition is_standalone (d : rt_device) : bool := negb (Z.land (dev_flag d) RT_DEVICE_FLAG_STANDALONE =? 0).
Definition is_active (d : rt_device) : bool := negb (Z.land (dev_flag d) RT_DEVICE_FLAG_ACTIVATED =? 0).
Definition view (d : rt_device) : dstate := DState (is_active d) (dev_ref_count d) (is_open d).
Definition profile_of (d : rt_device) : profile :=
  Profile (is_standalone d) (bool_decide (dev_init d <> None)) (bool_decide (dev_open d <> None))
    (bool_decide (dev_close d <> None)).

Lemma get_device_ok i (k : kview) d : k_devices k !! i = Some d -> get_device i k = Ok d k.
Proof. intros E. unfold get_device, bind, gets. simpl. by rewrite E. Qed.

Lemma upd_device_ok i f (k : kview) d :
  k_devices k !! i = Some d -> upd_device i f k = Ok tt (set_devices (<[i := f d]> (k_devices k)) k).
Proof. intros E. unfold upd_device. by rewrite (bind_ok _ _ _ _ _ (get_device_ok _ _ _ E)). Qed.

Lemma is_open_lor d : is_open (set_dev_open_flag (Z.lor (dev_open_flag d) RT_DEVICE_OFLAG_OPEN) d) = true.
Proof.
  unfold is_open. simpl. apply negb_true_iff, Z.eqb_neq. intros E.
  apply (f_equal (fun z => Z.testbit z 3)) in E. rewrite Z.land_spec, Z.lor_spec in E.
  unfold RT_DEVICE_OFLAG_OPEN in E. rewrite orb_true_r in E. done.
Qed.

Lemma active_lor flag : Z.land (Z.lor flag RT_DEVICE_FLAG_ACTIVATED) RT_DEVICE_FLAG_ACTIVATED =? 0 = false.
Proof.
  apply Z.eqb_neq. intros E. apply (f_equal (fun z => Z.testbit z 4)) in E. rewrite Z.land_spec, Z.lor_spec in E.
  unfold RT_DEVICE_FLAG_ACTIVATED in E. rewrite orb_true_r in E. done.
Qed.

Lemma standalone_lor flag :
  Z.land (Z.lor flag RT_DEVICE_FLAG_ACTIVATED) RT_DEVICE_FLAG_STANDALONE = Z.land flag RT_DEVICE_FLAG_STANDALONE.
Proof.
  rewrite Z.land_lor_distr_l. change (Z.land RT_DEVICE_FLAG_ACTIVATED RT_DEVICE_FLAG_STANDALONE) with 0. apply Z.lor_0_r.
Qed.

Section calls.
Context (drv : driver (fun A => M khs A)) (rt_log_buf : Z) (i : nat).

(** ** The driver's part *)
Definition with_record (d : rt_device) (s : khs) : khs := (set_devices (<[i := d]> (k_devices s.1)) s.1, s.2).

(** The text [rt_device_open] prints when the initialisation fails. *)
Definition message (d : rt_device) (r : Z) : M khs unit :=
  rt_kprintf drv rt_log_buf init_failed_fmt [VStr (Some (name_text (o_name (dev_parent d)))); VInt r].

(** The event [e] leads from [s] to [s']. *)
Definition performs (d : rt_device) (e : event) (s s' : khs) : Prop :=
  match e with
  | Init r => exists f, dev_init d = Some f /\ drv_init drv f i s = Ok r s'
  | Message r => message d r s = Ok tt s'
  | Open oflag r => exists f, dev_open d = Some f /\ drv_open drv f i oflag s = Ok r s'
  | Close r => exists f, dev_close d = Some f /\ drv_close drv f i s = Ok r s'
  end.

(** [s'] is what the events make of [s], but for the record of the device. *)
Inductive driven (d : rt_device) : khs -> list event -> khs -> Prop :=
  | driven_nil s : driven d s [] s
  | driven_record s d' l s' : driven d (with_record d' s) l s' -> driven d s l s'
  | driven_event s e s1 l s' : performs d e s s1 -> driven d s1 l s' -> driven d s (e :: l) s'.

Lemma driven_app d s l s1 l' s2 : driven d s l s1 -> driven d s1 l' s2 -> driven d s (l ++ l') s2.
Proof. induction 1; [done|intros; eapply driven_record; eauto|intros; simpl; eapply driven_event; eauto]. Qed.

(** The functions of the driver, and the message, return in every state with
    [I], leave the record of the device alone and keep [I]. *)
Context (I : khs -> Prop).
Definition returns {A} (f : M khs A) (s : khs) (R : A -> khs -> Prop) : Prop :=
  exists a s', f s = Ok a s' /\ k_devices s'.1 !! i = k_devices s.1 !! i /\ I s' /\ R a s'.

Record well_behaved (d : rt_device) : Prop := {
  wb_record s d' : I s -> I (with_record d' s);
  wb_init f s : dev_init d = Some f -> I s ->
    returns (drv_init drv f i) s (fun r s' => r <> RT_EOK -> returns (message d r) s' (fun _ _ => True));
  wb_open f oflag s : dev_open d = Some f -> I s -> returns (drv_open drv f i oflag) s (fun _ _ => True);
  wb_close f s : dev_close d = Some f -> I s -> returns (drv_close drv f i) s (fun _ _ => True);
}.

(** What a call leaves of the record besides count, open flag and being
    initialised. *)
Definition same_device (d d' : rt_device) : Prop :=
  exists flag open_flag count, d' = set_dev_flag flag (set_dev_open_flag open_flag (set_dev_ref_count count d)) /\
    (flag = dev_flag d \/ flag = Z.lor (dev_flag d) RT_DEVICE_FLAG_ACTIVATED).

Lemma same_device_refl d : same_device d d.
Proof. exists (dev_flag d), (dev_open_flag d), (dev_ref_count d). destruct d. auto. Qed.

Lemma same_device_count d d' o c : same_device d d' -> same_device d (set_dev_open_flag o (set_dev_ref_count c d')).
Proof. intros (flag & o' & c' & -> & Hf). exists flag, o, c. by destruct d. Qed.

Lemma same_device_active d d' :
  same_device d d' -> same_device d (set_dev_flag (Z.lor (dev_flag d') RT_DEVICE_FLAG_ACTIVATED) d').
Proof.
  intros (flag & o & c & -> & Hf). exists (Z.lor flag RT_DEVICE_FLAG_ACTIVATED), o, c. split; [by destruct d|].
  right. destruct Hf as [->| ->]; [done|]. by rewrite <-Z.lor_assoc, Z.lor_diag.
Qed.

Lemma same_device_facts d d' : same_device d d' ->
  is_standalone d' = is_standalone d /\ dev_init d' = dev_init d /\ dev_open d' = dev_open d /\
  dev_close d' = dev_close d /\ dev_parent d' = dev_parent d.
Proof.
  intros (flag & o & c & -> & Hf). split; [|done]. unfold is_standalone. simpl.
  destruct Hf as [->| ->]; [done|by rewrite standalone_lor].
Qed.

(** ** The calls *)
(** The device [d] at the start has become [d']. *)
Definition now (d d' : rt_device) (s : khs) : Prop := k_devices s.1 !! i = Some d' /\ same_device d d' /\ I s.

Lemma now_record d d' s d1 : well_behaved d -> now d d' s -> same_device d d1 -> now d d1 (with_record d1 s).
Proof. intros Hw (_ & _ & HI) Hs. split; [apply lookup_insert_eq|]. split; [done|]. by apply (wb_record _ Hw). Qed.

Lemma now_returned d d' s s' : now d d' s -> k_devices s'.1 !! i = k_devices s.1 !! i -> I s' -> now d d' s'.
Proof. intros (E & Hs & _) Er HI. split; [by rewrite Er|done]. Qed.

Lemma get_now d d' s : now d d' s -> kernel (get_device i) s = Ok d' s.
Proof. intros (E & _). destruct s as [k h]. by apply kernel_ok, get_device_ok. Qed.

Lemma upd_now d d' s f : now d d' s -> kernel (upd_device i f) s = Ok tt (with_record (f d') s).
Proof. intros (E & _). destruct s as [k h]. by apply kernel_ok, upd_device_ok. Qed.

(** The end of a successful opening. *)
Lemma opened d d' s : well_behaved d -> now d d' s -> 0 <= dev_ref_count d' < 255 ->
  exists d1 s1,
    (kernel (upd_device i (fun d => set_dev_open_flag (Z.lor (dev_open_flag d) RT_DEVICE_OFLAG_OPEN) d)) ;!
     kernel (upd_device i (fun d => set_dev_ref_count (u8 (dev_ref_count d + 1)) d)) ;!
     let! d := kernel (get_device i) in
     rt_assert (negb (dev_ref_count d =? 0))) s = Ok tt s1 /\
    now d d1 s1 /\ driven d s [] s1 /\
    dev_ref_count d1 = dev_ref_count d' + 1 /\ is_open d1 = true /\ is_active d1 = is_active d'.
Proof.
  intros Hw Hn Hc. rewrite (bind_ok _ _ _ _ _ (upd_now _ _ _ _ Hn)). set (d1 := set_dev_open_flag _ d').
  assert (now d d1 (with_record d1 s)) as Hn1.
  { apply (now_record d d'); [done..|].
    replace d1 with (set_dev_open_flag (dev_open_flag d1) (set_dev_ref_count (dev_ref_count d') d')) by (by destruct d').
    apply same_device_count, Hn. }
  rewrite (bind_ok _ _ _ _ _ (upd_now _ _ _ _ Hn1)). set (d2 := set_dev_ref_count _ d1).
  assert (now d d2 (with_record d2 (with_record d1 s))) as Hn2.
  { apply (now_record d d1); [done..|].
    replace d2 with (set_dev_open_flag (dev_open_flag d1) (set_dev_ref_count (u8 (dev_ref_count d1 + 1)) d1)) by (by destruct d1).
    apply same_device_count, Hn1. }
  rewrite (bind_ok _ _ _ _ _ (get_now _ _ _ Hn2)).
  assert (dev_ref_count d2 = dev_ref_count d' + 1) as Ec by (simpl; apply u8_small; lia).
  exists d2, (with_record d2 (with_record d1 s)). rewrite (proj2 (Z.eqb_neq (dev_ref_count d2) 0)) by lia.
  split; [done|]. split; [done|]. split; [do 2 eapply driven_record; apply driven_nil|]. split; [done|].
  split; [|done]. change (is_open d2) with (is_open d1). apply is_open_lor.
Qed.

Lemma device_open_steps d d' s oflag : well_behaved d -> now d d' s -> 0 <= dev_ref_count d' < 255 ->
  exists r d1 s1 l, device_open drv i oflag s = Ok r s1 /\ now d d1 s1 /\ driven d s l s1 /\
    open_step (profile_of d) (dev_ref_count d') (is_open d') oflag r l (dev_ref_count d1) (is_open d1) /\
    is_active d1 = is_active d'.
Proof.
  intros Hw Hn Hc. unfold device_open. rewrite (bind_ok _ _ _ _ _ (get_now _ _ _ Hn)).
  fold (is_standalone d') (is_open d').
  destruct (same_device_facts _ _ (proj1 (proj2 Hn))) as (Es & _ & Eo & _ & _). rewrite Es, Eo.
  destruct (is_standalone d && is_open d') eqn:Eb.
  { apply andb_true_iff in Eb as [Hs Ho]. exists (- RT_EBUSY), d', s, []. split; [done|]. split; [done|].
    split; [apply driven_nil|]. rewrite Ho. split; [by apply open_busy|done]. }
  destruct (dev_open d) as [f|] eqn:Ef.
  - destruct (wb_open _ Hw f oflag s Ef (proj2 (proj2 Hn))) as (r & s1 & E1 & Er & HI1 & _).
    pose proof (now_returned _ _ _ _ Hn Er HI1) as Hn1. rewrite (bind_ok _ _ _ _ _ E1). fold (accepted r).
    assert (driven d s [Open oflag r] s1) as Hd by (eapply driven_event; [by exists f|apply driven_nil]).
    assert (pf_open (profile_of d) = true) as Hp by (simpl; by rewrite Ef).
    destruct (accepted r) eqn:Ea.
    + destruct (opened d d' s1 Hw Hn1 Hc) as (d2 & s2 & E2 & Hn2 & Hd2 & Ec & Eop & Eac).
      exists r, d2, s2, [Open oflag r]. rewrite (bind_ok _ _ _ _ _ E2). split; [done|]. split; [done|].
      split; [exact (driven_app _ _ _ _ _ _ Hd Hd2)|]. rewrite Ec, Eop. split; [|done].
      apply open_accepted; [done..|exact (proj2 Hc)].
    + exists r, d', s1, [Open oflag r]. split; [done|]. split; [done|]. split; [done|]. split; [|done]. by apply open_refused.
  - set (d1 := set_dev_open_flag (Z.land oflag RT_DEVICE_OFLAG_MASK) d').
    assert (now d d1 (with_record d1 s)) as Hn1.
    { apply (now_record d d'); [done..|].
      replace d1 with (set_dev_open_flag (dev_open_flag d1) (set_dev_ref_count (dev_ref_count d') d')) by (by destruct d').
      apply same_device_count, Hn. }
    rewrite (bind_ok _ _ s RT_EOK (with_record d1 s)) by (by rewrite (bind_ok _ _ _ _ _ (upd_now _ _ _ _ Hn))).
    destruct (opened d d1 _ Hw Hn1 Hc) as (d2 & s2 & E2 & Hn2 & Hd2 & Ec & Eop & Eac).
    exists RT_EOK, d2, s2, []. change ((RT_EOK =? RT_EOK) || (RT_EOK =? - RT_ENOSYS)) with true. cbv iota.
    rewrite (bind_ok _ _ _ _ _ E2). split; [done|]. split; [done|]. split; [by eapply driven_record|].
    rewrite Ec, Eop. split; [|done]. apply open_plain; [done|simpl; by rewrite Ef|exact (proj2 Hc)].
Qed.

(** The initialisation of a device that is not active. *)
Lemma call_init_steps d d' s : well_behaved d -> now d d' s ->
  exists r s1 l, call_init drv rt_log_buf i d' s = Ok r s1 /\ now d d' s1 /\ driven d s l s1 /\
    init_step (profile_of d) false r l (r =? RT_EOK).
Proof.
  intros Hw Hn. unfold call_init. destruct (same_device_facts _ _ (proj1 (proj2 Hn))) as (_ & -> & _ & _ & Ep).
  destruct (dev_init d) as [f|] eqn:Ef.
  2:{ exists RT_EOK, s, []. split; [done|]. split; [done|]. split; [apply driven_nil|]. apply init_none. simpl. by rewrite Ef. }
  assert (pf_init (profile_of d) = true) as Hp by (simpl; by rewrite Ef).
  destruct (wb_init _ Hw f s Ef (proj2 (proj2 Hn))) as (r & s1 & E1 & Er & HI1 & Hm).
  pose proof (now_returned _ _ _ _ Hn Er HI1) as Hn1. rewrite (bind_ok _ _ _ _ _ E1).
  destruct (Z.eqb_spec r RT_EOK) as [->|Hr]; cbn [negb].
  - exists RT_EOK, s1, [Init RT_EOK]. split; [done|]. split; [done|].
    split; [eapply driven_event; [by exists f|apply driven_nil]|]. by apply init_accepted.
  - destruct (Hm Hr) as ([] & s2 & E2 & Er2 & HI2 & _). exists r, s2, [Init r; Message r].
    split; [|split; [by eapply now_returned|split; [|rewrite (proj2 (Z.eqb_neq _ _) Hr); by apply init_refused]]].
    + rewrite (bind_ok _ _ s1 tt s2); [done|]. rewrite (bind_ok _ _ _ _ _ (get_now _ _ _ Hn1)). rewrite Ep. exact E2.
    + eapply driven_event; [by exists f|]. eapply driven_event; [exact E2|apply driven_nil].
Qed.

Lemma open_steps d d' s oflag : well_behaved d -> now d d' s -> 0 <= dev_ref_count d' < 255 ->
  exists r d1 s1 l, rt_device_open drv rt_log_buf i oflag s = Ok r s1 /\ now d d1 s1 /\ driven d s l s1 /\
    dstep (profile_of d) (view d') (DOpen oflag) r l (view d1).
Proof.
  intros Hw Hn Hc. unfold rt_device_open. rewrite (bind_ok _ _ _ _ _ (get_now _ _ _ Hn)).
  destruct (Z.land (dev_flag d') RT_DEVICE_FLAG_ACTIVATED =? 0) eqn:Ea.
  - assert (is_active d' = false) as Ei by (unfold is_active; by rewrite Ea).
    destruct (call_init_steps d d' s Hw Hn) as (r & s1 & l & E1 & Hn1 & Hd & Hi). rewrite (bind_ok _ _ _ _ _ E1).
    destruct (Z.eqb_spec r RT_EOK) as [->|Hr]; cbn [negb].
    + unfold activate. rewrite (bind_ok _ _ _ _ _ (upd_now _ _ _ _ Hn1)). set (d2 := set_dev_flag _ d').
      assert (now d d2 (with_record d2 s1)) as Hn2 by (apply (now_record d d'); [done..|apply same_device_active, Hn1]).
      destruct (device_open_steps d d2 _ oflag Hw Hn2 Hc) as (r & d3 & s3 & l3 & E3 & Hn3 & Hd3 & Ho & Eac).
      exists r, d3, s3, (l ++ l3). split; [done|]. split; [done|].
      split; [eapply driven_app; [exact Hd|by eapply driven_record]|]. unfold view.
      rewrite Eac. assert (is_active d2 = true) as -> by (unfold is_active; simpl; by rewrite active_lor).
      rewrite Ei. by eapply dstep_open.
    + exists r, d', s1, l. split; [done|]. split; [done|]. split; [done|]. unfold view. rewrite Ei. by apply dstep_not_initialised.
  - destruct (device_open_steps d d' s oflag Hw Hn Hc) as (r & d3 & s3 & l3 & E3 & Hn3 & Hd3 & Ho & Eac).
    exists r, d3, s3, l3. split; [done|]. split; [done|]. split; [done|]. unfold view. rewrite Eac.
    assert (is_active d' = true) as -> by (unfold is_active; by rewrite Ea).
    apply (dstep_open _ true _ _ _ _ []); [apply init_done|done].
Qed.

Lemma close_steps d d' s : well_behaved d -> now d d' s -> 0 <= dev_ref_count d' < 256 ->
  exists r d1 s1 l, rt_device_close drv i s = Ok r s1 /\ now d d1 s1 /\ driven d s l s1 /\
    dstep (profile_of d) (view d') DClose r l (view d1).
Proof.
  intros Hw Hn Hc. unfold rt_device_close. rewrite (bind_ok _ _ _ _ _ (get_now _ _ _ Hn)).
  destruct (Z.eqb_spec (dev_ref_count d') 0) as [Ez|Ez].
  { exists (- RT_ERROR), d', s, []. split; [done|]. split; [done|]. split; [apply driven_nil|].
    apply dstep_close. rewrite Ez. apply close_idle. }
  rewrite u8_small by lia. set (d1 := set_dev_ref_count (dev_ref_count d' - 1) d').
  rewrite (bind_ok (kernel (put_device i d1)) _ s tt (with_record d1 s)) by (by destruct s).
  assert (forall o, same_device d (set_dev_open_flag o d1)) as Hsame.
  { intros o. destruct Hn as (_ & Hs & _). apply (same_device_count _ _ o (dev_ref_count d' - 1)) in Hs. exact Hs. }
  assert (same_device d d1) as Hs1 by (pose proof (Hsame (dev_open_flag d1)) as H; by destruct d').
  pose proof (now_record d d' s d1 Hw Hn Hs1) as Hn1. rewrite (bind_ok _ _ _ _ _ (get_now _ _ _ Hn1)).
  change (dev_ref_count d1) with (dev_ref_count d' - 1).
  destruct (Z.eqb_spec (dev_ref_count d' - 1) 0) as [E0|E0]; cbn [negb].
  2:{ exists RT_EOK, d1, (with_record d1 s), []. split; [done|]. split; [done|].
      split; [eapply driven_record, driven_nil|]. apply dstep_close. apply close_shared. lia. }
  destruct (same_device_facts _ _ Hs1) as (_ & _ & _ & -> & _).
  assert (exists r s2 l, (match dev_close d with Some f => drv_close drv f i | None => ret RT_EOK end) (with_record d1 s) =
    Ok r s2 /\ now d d1 s2 /\ driven d (with_record d1 s) l s2 /\
    close_step (profile_of d) 1 (is_open d') r l 0 (if accepted r then false else is_open d')) as (r & s2 & l & E2 & Hn2 & Hd2 & Hst).
  { destruct (dev_close d) as [f|] eqn:Ef.
    - destruct (wb_close _ Hw f _ Ef (proj2 (proj2 Hn1))) as (r & s2 & E2 & Er & HI2 & _).
      exists r, s2, [Close r]. split; [done|]. split; [by eapply now_returned|].
      split; [eapply driven_event; [by exists f|apply driven_nil]|].
      assert (pf_close (profile_of d) = true) as Hp by (simpl; by rewrite Ef).
      destruct (accepted r) eqn:Ea; [by apply close_accepted|by apply close_refused].
    - exists RT_EOK, (with_record d1 s), []. split; [done|]. split; [done|]. split; [apply driven_nil|].
      apply close_plain. simpl. by rewrite Ef. }
  rewrite (bind_ok _ _ _ _ _ E2). fold (accepted r). unfold view. replace (dev_ref_count d') with 1 by lia.
  destruct (accepted r) eqn:Ea.
  - rewrite (bind_ok _ _ _ _ _ (upd_now _ _ _ _ Hn2)). set (d2 := set_dev_open_flag _ d1).
    exists r, d2, (with_record d2 s2), l. split; [done|]. split; [apply (now_record d d1); [done..|apply Hsame]|].
    split; [eapply driven_record; rewrite <-(app_nil_r l); eapply driven_app; [exact Hd2|]; eapply driven_record, driven_nil|].
    apply dstep_close. simpl. rewrite E0. exact Hst.
  - exists r, d1, s2, l. split; [done|]. split; [done|]. split; [by eapply driven_record|].
    apply dstep_close. simpl. rewrite E0. exact Hst.
Qed.

(** A sequence of calls by the users of the device; the results. *)
Fixpoint run_calls (cs : list dcall) : M khs (list Z) :=
  match cs with
  | [] => ret []
  | c :: cs =>
      let! r := match c with DOpen oflag => rt_device_open drv rt_log_buf i oflag | DClose => rt_device_close drv i end in
      let! rs := run_calls cs in
      ret (r :: rs)
  end.

Definition opens (cs : list dcall) : Z :=
  foldr (fun c n => (match c with DOpen _ => 1 | DClose => 0 end) + n) 0 cs.

Lemma dstep_count p s c r l s' : dstep p s c r l s' -> 0 <= ds_count s -> 0 <= ds_count s' <= ds_count s + opens [c].
Proof.
  destruct 1 as [|a n b oflag r l1 l2 n' b' _ Ho|a n b r l n' b' Hc]; unfold opens; simpl; [lia|destruct Ho; lia|destruct Hc; lia].
Qed.

Lemma opens_nonneg cs : 0 <= opens cs.
Proof. unfold opens. induction cs as [|[] cs IH]; simpl; lia. Qed.

Lemma opens_cons c cs : opens (c :: cs) = opens [c] + opens cs.
Proof. unfold opens. simpl. lia. Qed.

Lemma run_calls_steps d cs : well_behaved d -> forall d' s,
  now d d' s -> 0 <= dev_ref_count d' -> dev_ref_count d' + opens cs <= 255 ->
  exists rs d1 s1 l, run_calls cs s = Ok rs s1 /\ length rs = length cs /\ now d d1 s1 /\ driven d s l s1 /\
    dsteps (profile_of d) (view d') (zip cs rs) l (view d1).
Proof.
  intros Hw. induction cs as [|c cs IH]; intros d' s Hn H0 H255.
  { exists [], d', s, []. split; [done|]. split; [done|]. split; [done|]. split; [apply driven_nil|constructor]. }
  rewrite opens_cons in H255. pose proof (opens_nonneg cs).
  assert (exists r d1 s1 l,
    match c with DOpen oflag => rt_device_open drv rt_log_buf i oflag | DClose => rt_device_close drv i end s = Ok r s1 /\
    now d d1 s1 /\ driven d s l s1 /\ dstep (profile_of d) (view d') c r l (view d1)) as (r & d1 & s1 & l & E1 & Hn1 & Hd & Hst).
  { destruct c as [oflag|]; [apply open_steps|apply close_steps]; try done;
      unfold opens in *; cbn [foldr] in *; lia. }
  pose proof (dstep_count _ _ _ _ _ _ Hst H0) as Hc. cbn [view ds_count] in Hc.
  destruct (IH d1 s1 Hn1) as (rs & d2 & s2 & l2 & E2 & Hl & Hn2 & Hd2 & Hst2); [lia|lia|].
  exists (r :: rs), d2, s2, (l ++ l2). cbn [run_calls]. rewrite (bind_ok _ _ _ _ _ E1), (bind_ok _ _ _ _ _ E2).
  split; [done|]. split; [simpl; by rewrite Hl|]. split; [done|]. split; [by eapply driven_app|].
  simpl. by econstructor.
Qed.
End calls.

(** A device in use by nobody that still counts as open, as a driver that
    refuses to close leaves it. *)
Lemma locked_calls (drv : driver (fun A => M khs A)) rt_log_buf i cs (k : kview) (h : heap) d :
  k_devices k !! i = Some d -> is_active d = true -> is_standalone d = true -> is_open d = true ->
  dev_ref_count d = 0 ->
  exists rs, run_calls drv rt_log_buf i cs (k, h) = Ok rs (k, h) /\ Forall (fun r => r = - RT_EBUSY \/ r = - RT_ERROR) rs.
Proof.
  intros E Ha Hs Ho Hc. induction cs as [|c cs (rs & IH & Hrs)]; [by exists []|].
  destruct c as [oflag|]; cbn [run_calls].
  - exists (- RT_EBUSY :: rs). split; [|by constructor; [left|]].
    rewrite (bind_ok (rt_device_open drv rt_log_buf i oflag) _ (k, h) (- RT_EBUSY) (k, h)); [by rewrite (bind_ok _ _ _ _ _ IH)|].
    unfold rt_device_open, device_open. rewrite (bind_ok _ _ _ _ _ (kernel_ok _ _ h _ _ (get_device_ok _ _ _ E))).
    unfold is_active in Ha. apply negb_true_iff in Ha. rewrite Ha.
    rewrite (bind_ok _ _ _ _ _ (kernel_ok _ _ h _ _ (get_device_ok _ _ _ E))).
    fold (is_standalone d) (is_open d). by rewrite Hs, Ho.
  - exists (- RT_ERROR :: rs). split; [|by constructor; [right|]].
    rewrite (bind_ok (rt_device_close drv i) _ (k, h) (- RT_ERROR) (k, h)); [by rewrite (bind_ok _ _ _ _ _ IH)|].
    unfold rt_device_close. rewrite (bind_ok _ _ _ _ _ (kernel_ok _ _ h _ _ (get_device_ok _ _ _ E))). by rewrite Hc.
Qed.

(** C35: opening and closing implement a counter of users with a driver behind
    it.  Any sequence of [rt_device_open] and [rt_device_close] on a device,
    initialised or not, returns, and its results, the calls of the driver on the
    way with their answers, and the count, the open flag and the state of
    initialisation it leaves are those of a run of the abstract device: the
    driver's [init] is called by an opening while the device is not initialised,
    its [open] by every opening that is not refused as busy, its [close] by the
    closing of the last user.  What happens to the rest of the system is what
    these calls of the driver do; of the record nothing else changes.  The
    driver's functions return and leave the record alone, and the 8-bit count
    does not overflow. *)
Theorem device_implements_counter (drv : driver (fun A => M khs A)) rt_log_buf i (I : khs -> Prop) cs s d :
  k_devices s.1 !! i = Some d -> I s -> well_behaved drv rt_log_buf i I d ->
  0 <= dev_ref_count d -> dev_ref_count d + opens cs <= 255 ->
  exists rs d' s' l, run_calls drv rt_log_buf i cs s = Ok rs s' /\ length rs = length cs /\
    k_devices s'.1 !! i = Some d' /\ same_device d d' /\ driven drv rt_log_buf i d s l s' /\
    dsteps (profile_of d) (view d) (zip cs rs) l (view d').
Proof.
  intros E HI Hw H0 H255.
  destruct (run_calls_steps drv rt_log_buf i I d cs Hw d s) as (rs & d' & s' & l & Er & Hl & (Ed & Hs & _) & Hd & Hst);
    [split; [done|split; [apply same_device_refl|done]]|done|done|].
  exists rs, d', s', l. do 5 (split; [done|]). done.
Qed.

(** C36: a stand-alone device whose driver refuses to close is lost.  When the last
    user closes it and the driver returns an error, the count is 0 but the device
    still counts as open: every later call fails and changes nothing. *)
Theorem refused_close_locks_device (drv : driver (fun A => M khs A)) rt_log_buf i cs (k : kview) (h : heap) d f r k1 h1 :
  k_devices k !! i = Some d -> is_active d = true -> is_standalone d = true -> is_open d = true ->
  dev_ref_count d = 1 -> dev_close d = Some f ->
  drv_close drv f i (set_devices (<[i := set_dev_ref_count 0 d]> (k_devices k)) k, h) = Ok r (k1, h1) ->
  accepted r = false -> k_devices k1 !! i = Some (set_dev_ref_count 0 d) ->
  rt_device_close drv i (k, h) = Ok r (k1, h1) /\
  exists rs, run_calls drv rt_log_buf i cs (k1, h1) = Ok rs (k1, h1) /\
    Forall (fun r => r = - RT_EBUSY \/ r = - RT_ERROR) rs.
Proof.
  intros E Ha Hs Ho Hc Hf Ed Hr Ek. split; [|by eapply locked_calls].
  unfold rt_device_close. rewrite (bind_ok _ _ _ _ _ (kernel_ok _ _ h _ _ (get_device_ok _ _ _ E))), Hc.
  change (1 =? 0) with false. change (u8 (1 - 1)) with 0. cbv iota. set (d1 := set_dev_ref_count 0 d) in *.
  rewrite (bind_ok (kernel (put_device i d1)) _ (k, h) tt (set_devices (<[i := d1]> (k_devices k)) k, h)) by done.
  rewrite (bind_ok _ _ _ _ _ (kernel_ok _ _ h _ _ (get_device_ok i (set_devices (<[i := d1]> (k_devices k)) k) d1 (lookup_insert_eq _ _ _)))).
  cbn [dev_ref_count d1 set_dev_ref_count Z.eqb negb]. change (dev_close d1) with (dev_close d). rewrite Hf.
  rewrite (bind_ok _ _ _ _ _ Ed). fold (accepted r). by rewrite Hr.
Qed.

(** ** The console *)
(** C37: [rt_kprintf] hands the text to the driver of the console device: it leaves
    the text and a terminator in [rt_log_buf], and calls the driver's [write] on
    it with the length of the text, in stream mode; afterwards the open flag is as
    before.  A text of 1023 characters and more is cut off to 1022, and the
    terminator behind them is written to the device too. *)
Theorem kprintf_prints (drv : driver (fun A => M khs A)) rt_log_buf i f fmt args out (k : kview) (h : heap) d :
  printed fmt args = Some out ->
  0 <= rt_log_buf -> rt_log_buf + 2 * Z.of_nat (length out) + 1024 < 2 ^ 32 -> 2 * Z.of_nat (length out) < 2 ^ 31 ->
  mapped (hp_ram h) rt_log_buf 1024 ->
  k_console k = Some i -> k_devices k !! i = Some d -> dev_ref_count d <> 0 -> dev_write d = Some f ->
  exists m',
    write_bytes (hp_ram h) rt_log_buf ((u8 <$> take 1022 out) ++ [0]) = Some m' /\
    rt_kprintf drv rt_log_buf fmt args (k, h) =
      (drv_write drv f i 0 rt_log_buf (Z.min (Z.of_nat (length out)) 1023) ;!
       kernel (upd_device i (set_dev_open_flag (dev_open_flag d))))
        (set_devices (<[i := set_dev_open_flag (Z.lor (dev_open_flag d) RT_DEVICE_FLAG_STREAM) d]> (k_devices k)) k,
         set_hp_ram m' h).
Proof.
  intros Hp H0 Hend Hlen Hmap Hcon E Hrc Hw.
  destruct (rt_vsnprintf_ok (hp_ram h) rt_log_buf 1023 fmt args out Hp) as (r & m' & Er & Em & Hr); try lia.
  { intros x Hx. apply Hmap. lia. }
  exists m'. split; [exact Em|]. unfold rt_kprintf.
  rewrite (bind_ok _ _ (k, h) r (k, set_hp_ram m' h)).
  2:{ unfold on_ram. cbn [snd fst]. change (RT_CONSOLEBUF_SIZE - 1) with 1023. by rewrite Er. }
  change (RT_CONSOLEBUF_SIZE - 1) with 1023.
  assert ((if 1023 <? u32 r then 1023 else u32 r) = Z.min (Z.of_nat (length out)) 1023) as ->.
  { destruct (Z.ltb_spec (Z.of_nat (length out)) 1023); [subst r|]; rewrite u32_small by lia.
    - destruct (Z.ltb_spec 1023 (Z.of_nat (length out))); lia.
    - destruct (Z.ltb_spec 1023 r); lia. }
  rewrite (bind_ok (kernel (gets k_console)) _ (k, set_hp_ram m' h) (Some i) (k, set_hp_ram m' h))
    by (unfold kernel, gets; simpl; by rewrite Hcon).
  unfold console_write. rewrite (bind_ok _ _ _ _ _ (kernel_ok _ _ _ _ _ (get_device_ok _ _ _ E))).
  rewrite (bind_ok _ _ _ _ _ (kernel_ok _ _ _ _ _ (upd_device_ok _ _ _ _ E))).
  set (d1 := set_dev_open_flag (Z.lor _ _) d). set (k1 := set_devices _ k).
  unfold rt_device_write, bind at 1. rewrite (bind_ok _ _ _ _ _ (kernel_ok _ _ _ _ _
    (get_device_ok i k1 d1 (lookup_insert_eq _ _ _)))).
  change (dev_ref_count d1) with (dev_ref_count d). change (dev_write d1) with (dev_write d).
  rewrite (proj2 (Z.eqb_neq _ _)) by done. by rewrite Hw.
Qed.

(** ** A console on the board *)
(** A driver that refuses to close. *)
Definition uart_driver : driver (fun A => M khs A) := {|
  drv_init := fun _ _ => ret 0;
  drv_open := fun _ _ _ => ret 0;
  drv_close := fun _ _ => ret (- RT_ERROR);
  drv_read := fun _ _ _ _ _ => ret 0;
  drv_write := fun _ _ _ _ size => ret size;
  drv_control := fun _ _ _ _ => ret 0;
|}.

Definition uart_name : list Z := [117; 97; 114; 116; 48; 0].

(** Memory with room for [rt_log_buf] at 4096. *)
Definition console_heap : heap :=
  set_hp_ram (list_to_map ((fun a => (a, 0)) <$> seqZ 4096 1024)) MemTheorems.blank_heap.

(** Device 0 with a driver and the name "uart0", chosen as the console. *)
Definition console_state : khs := MemTheorems.run (
  kernel (put_device 0 (Device Board.blank_object 0 0 0 0 None None (Some 0%nat) (Some 0%nat) (Some 0%nat)
    (Some 0%nat) (Some 0%nat) (Some 0%nat))) ;!
  kernel (rt_device_register (Some 0%nat) uart_name RT_DEVICE_FLAG_STANDALONE) ;!
  rt_console_set_device uart_driver 4096 uart_name) (Board.board, console_heap).

(** Device 0 as it is then: initialised, with one user. *)
Definition uart : rt_device :=
  Device (Object (uart_name ++ replicate 10 0) 136 0) 0 24 8 1 None None (Some 0%nat) (Some 0%nat) (Some 0%nat)
    (Some 0%nat) (Some 0%nat) (Some 0%nat).

Lemma console_uart : k_devices console_state.1 !! 0%nat = Some uart.
Proof. vm_compute. reflexivity. Qed.
Lemma console_chosen : k_console console_state.1 = Some 0%nat.
Proof. vm_compute. reflexivity. Qed.
Lemma console_mapped : mapped_b (hp_ram console_state.2) 4096 1024 = true.
Proof. vm_compute. reflexivity. Qed.
#[global] Opaque console_state.

Lemma uart_well_behaved d : well_behaved uart_driver 4096 0 (fun _ => True) d.
Proof.
  split; [done| |intros; by eexists _, _|intros; by eexists _, _].
  intros f s _ _. exists 0, s. do 3 (split; [done|]). by intros [].
Qed.

(** The console, in use, and a device that was not initialised yet. *)
Definition fresh_uart : rt_device := set_dev_flag 8 (set_dev_ref_count 0 (set_dev_open_flag 0 uart)).
Example device_implements_counter_witness :
  (exists rs d' s' l, run_calls uart_driver 4096 0 [DClose; DOpen 3; DClose] console_state = Ok rs s' /\
    k_devices s'.1 !! 0%nat = Some d' /\
    dsteps (profile_of uart) (DState true 1 true) (zip [DClose; DOpen 3; DClose] rs) l (view d')) /\
  (exists rs d' s' l, run_calls uart_driver 4096 0 [DOpen 3] (with_record 0 fresh_uart console_state) = Ok rs s' /\
    driven uart_driver 4096 0 fresh_uart (with_record 0 fresh_uart console_state) l s' /\
    dsteps (profile_of fresh_uart) (DState false 0 false) (zip [DOpen 3] rs) l (view d')).
Proof.
  split.
  - destruct (device_implements_counter uart_driver 4096 0 (fun _ => True) [DClose; DOpen 3; DClose] console_state uart
      console_uart Logic.I (uart_well_behaved uart) ltac:(simpl; lia) ltac:(vm_compute; discriminate))
      as (rs & d' & s' & l & E & _ & Ed & _ & _ & Hst).
    exists rs, d', s', l. split; [exact E|]. split; [exact Ed|exact Hst].
  - destruct (device_implements_counter uart_driver 4096 0 (fun _ => True) [DOpen 3] (with_record 0 fresh_uart console_state)
      fresh_uart (lookup_insert_eq _ _ _) Logic.I (uart_well_behaved fresh_uart) ltac:(simpl; lia)
      ltac:(vm_compute; discriminate)) as (rs & d' & s' & l & E & _ & _ & _ & Hd & Hst).
    exists rs, d', s', l. split; [exact E|]. split; [exact Hd|exact Hst].
Defined.

Example refused_close_locks_device_witness :
  exists k1 h1, rt_device_close uart_driver 0 (console_state.1, console_state.2) = Ok (- RT_ERROR) (k1, h1) /\
    exists rs, run_calls uart_driver 4096 0 [DOpen 3; DClose] (k1, h1) = Ok rs (k1, h1).
Proof.
  destruct (refused_close_locks_device uart_driver 4096 0 [DOpen 3; DClose] console_state.1 console_state.2 uart 0
    (- RT_ERROR) (set_devices (<[0%nat := set_dev_ref_count 0 uart]> (k_devices console_state.1)) console_state.1)
    console_state.2 console_uart eq_refl eq_refl eq_refl eq_refl eq_refl eq_refl eq_refl
    (lookup_insert_eq _ _ _)) as (E & rs & Ers & _).
  eexists _, _. split; [exact E|]. exists rs. exact Ers.
Defined.

(** "%d" of 42. *)
Example kprintf_prints_witness :
  exists m', write_bytes (hp_ram console_state.2) 4096 [52; 50; 0] = Some m' /\
    rt_kprintf uart_driver 4096 [ch "%"; ch "d"] [VInt 42] (console_state.1, console_state.2) =
      (ret 2 ;! kernel (upd_device 0 (set_dev_open_flag 8)))
        (set_devices (<[0%nat := set_dev_open_flag 72 uart]> (k_devices console_state.1)) console_state.1,
         set_hp_ram m' console_state.2).
Proof.
  exact (kprintf_prints uart_driver 4096 0 0 [ch "%"; ch "d"] [VInt 42] [52; 50] console_state.1 console_state.2 uart
    eq_refl ltac:(lia) ltac:(simpl; lia) ltac:(simpl; lia) (mapped_b_sound _ _ _ console_mapped) console_chosen
    console_uart ltac:(discriminate) eq_refl).
Defined.
End DeviceTheorems.
