(* ===== verification/CompletionTheorems.v ===== *)
(** * Completions: the properties *)
From S2P Require Import Prelude Kservice RtList KMonad KState KPrim KInv Scheduler Object TimerBase Thread Timer Ipc Completion KernelInv WaitProof TimerProof BlockProof Board SchedTheorems.
Import Scheduler Object TimerBase Thread Timer IpcCore Completion SchedTheorems.
Local Open Scope Z_scope.
Local Open Scope kmonad_scope.

Module CompletionTheorems.

Abbreviation clist i := (LDriver (DCompletion i)).

(** The waiting sequence leaves the processor, the thread alone in the list. *)
Lemma completion_block_eq idle k Q i t th timeout :
  kinv idle k Q -> thread_ctx (set_primask 0 k) t -> k_primask k = 1 ->
  k_links k !! clist i = Some [] -> k_threads k !! t = Some th -> thread_stat th = RT_THREAD_READY ->
  t <> idle -> timeout < half_tick ->
  exists to k' c, completion_block i t timeout 0 k = Switch t to k' c /\ guar idle t to k' /\
    stat_is (k_threads k') t RT_THREAD_SUSPEND /\ k_links k' !! clist i = Some [LTlist t] /\
    (forall k2 th2, k_threads k2 !! t = Some th2 -> c k2 = Ok (t_error th2) k2).
Proof.
  intros HI Hc Hpm Hw Ht Hst Hid Htime.
  set (rest := (let! th := get_thread t in ret (t_error th))%M : M kview Z).
  destruct (append_park_eq rest RT_DEBUG_NOT_IN_INTERRUPT idle k Q (clist i) [] t th timeout)
    as (to & k' & E & Hg & Hs & Hl & _); [|done..|].
  { intros s' Hs' Hn. apply not_in_interrupt_ok; [by apply quiet_masked|done]. }
  exists to, k', rest. split; [exact E|]. split; [done|]. split; [done|]. split; [done|].
  intros k3 th3 H3. unfold rest, get_thread, bind, gets. simpl. by rewrite H3.
Qed.

(** What [rt_completion_wait] does.  On a completed event it returns at once
    and clears the flag.  Otherwise nobody else may be waiting: a second waiter
    fails an assertion.  A call that does not wait times out and changes
    nothing; a call that waits suspends the thread and gives the processor away.
    When the thread runs again it returns the error number it was woken with and
    clears the flag, whatever the flag is then: an event that is completed
    between the expiry of the timer and the thread's return is lost. *)
Theorem completion_wait_behaviour idle k Q i flag ws t th timeout :
  kinv idle k Q -> thread_ctx k t -> k_links k !! clist i = Some (LTlist <$> ws) ->
  k_threads k !! t = Some th -> thread_stat th = RT_THREAD_READY -> t <> idle -> timeout < half_tick ->
  (flag = RT_COMPLETED -> rt_completion_wait i timeout (k, flag) = Ok RT_EOK (k, RT_UNCOMPLETED)) /\
  (flag <> RT_COMPLETED -> ws <> [] -> rt_completion_wait i timeout (k, flag) = Err Assert_failed) /\
  (flag <> RT_COMPLETED -> ws = [] -> timeout = 0 ->
    rt_completion_wait i timeout (k, flag) = Ok (- RT_ETIMEOUT) (k, flag)) /\
  (flag <> RT_COMPLETED -> ws = [] -> timeout <> 0 -> exists to k' c,
    rt_completion_wait i timeout (k, flag) = Switch t to (k', flag) c /\ running idle k' to /\
    stat_is (k_threads k') t RT_THREAD_SUSPEND /\ k_links k' !! clist i = Some [LTlist t] /\
    (forall k2 flag2 th2, quiet k2 -> k_threads k2 !! t = Some th2 ->
      c (k2, flag2) = Ok (t_error th2) (k2, RT_UNCOMPLETED))).
Proof.
  intros HI Hc Hw Ht Hst Hid Htime. pose proof (ctx_quiet _ _ Hc) as Hq. pose proof Hc as [Hc1 Hc2 Hc3 Hc4 Hc5].
  pose proof (queue_isempty _ _ _ (lo_coherent _ (si_links _ _ (ki_sched _ _ _ HI))) Hw) as He.
  assert (forall f : Z, kernel (rt_hw_interrupt_enable 0) (set_primask 1 k, f) = Ok tt (k, f)) as Een.
  { intros f. apply kernel_ok. rewrite interrupt_enable_quiet by (by intros ? ?). f_equal. rewrite <-Hc1. by destruct k. }
  assert (rt_completion_wait i timeout (k, flag) =
    (if negb (flag =? RT_COMPLETED) then
       rt_assert (bool_decide (LTlist <$> ws = [])) ;!
       if timeout =? 0 then kernel (rt_hw_interrupt_enable 0) ;! ret (- RT_ETIMEOUT)
       else
         let! result := kernel (completion_block i t timeout 0) in
         let! level := kernel rt_hw_interrupt_disable in
         set_flag RT_UNCOMPLETED ;! kernel (rt_hw_interrupt_enable level) ;! ret result
     else set_flag RT_UNCOMPLETED ;! kernel (rt_hw_interrupt_enable 0) ;! ret RT_EOK) (set_primask 1 k, flag)) as E.
  { unfold rt_completion_wait. rewrite (bind_ok _ _ _ (Some t) (k, flag)) by (by rewrite <-Hc5).
    rewrite (bind_ok _ _ _ 0 (set_primask 1 k, flag)) by (by rewrite <-Hc1). rewrite bind_gets. cbn [snd].
    destruct (negb (flag =? RT_COMPLETED)); [|done].
    rewrite (bind_ok _ _ _ (bool_decide (LTlist <$> ws = [])) (set_primask 1 k, flag)); [done|].
    apply kernel_ok. unfold list_isempty. simpl. by rewrite He. }
  rewrite E. split; [|split; [|split]].
  - intros ->. rewrite Z.eqb_refl. cbn [negb]. unfold set_flag. rewrite bind_modify. cbn [fst]. by rewrite (bind_ok _ _ _ _ _ (Een _)).
  - intros Hf Hne. rewrite (proj2 (Z.eqb_neq _ _) Hf). cbn [negb].
    rewrite bind_assert_false; [done|]. apply bool_decide_eq_false. by destruct ws.
  - intros Hf -> ->. rewrite (proj2 (Z.eqb_neq _ _) Hf). cbn [negb]. rewrite bind_assert by done.
    rewrite Z.eqb_refl. by rewrite (bind_ok _ _ _ _ _ (Een _)).
  - intros Hf -> Hnz. rewrite (proj2 (Z.eqb_neq _ _) Hf). cbn [negb]. rewrite bind_assert by done.
    rewrite (proj2 (Z.eqb_neq _ _) Hnz).
    destruct (completion_block_eq idle (set_primask 1 k) Q i t th timeout) as (to & k' & c & E2 & Hg & Hs & Hl & Hres);
      [eapply kinv_frame; [..|exact HI]; done|by split|done..|].
    exists to, k'. eexists. split; [|split; [apply Hg|split; [done|split; [done|]]]].
    + unfold bind at 1. unfold kernel at 1. cbn [fst snd]. rewrite E2. cbn [res_kernel res_bind]. reflexivity.
    + intros k2 f2 th2 Hq2 Ht2. cbn [fst snd]. rewrite (Hres _ _ Ht2). cbn [res_kernel res_bind].
      rewrite (bind_ok _ _ _ (k_primask k2) (set_primask 1 k2, f2)) by done.
      unfold set_flag. rewrite bind_modify. cbn [fst].
      rewrite (bind_ok _ _ _ tt (k2, RT_UNCOMPLETED)); [done|]. apply kernel_ok.
      rewrite interrupt_enable_quiet by exact Hq2. by destruct k2.
Qed.

(** What [rt_completion_done] does, in a thread or in a handler.  On an event
    that is completed already it does nothing.  Otherwise it sets the flag, and
    a waiting thread becomes ready and the scheduler chooses the highest ready
    thread. *)
Theorem completion_done_behaviour idle k Q i flag ws from :
  kinv idle k Q -> quiet k -> k_lock_nest k = 0 -> k_current k = Some from ->
  k_links k !! clist i = Some (LTlist <$> ws) ->
  (flag = RT_COMPLETED -> rt_completion_done i (k, flag) = Ok tt (k, flag)) /\
  (flag <> RT_COMPLETED -> ws = [] -> rt_completion_done i (k, flag) = Ok tt (k, RT_COMPLETED)) /\
  (forall w ws', flag <> RT_COMPLETED -> ws = w :: ws' -> exists k' Q' p to q,
    rt_completion_done i (k, flag) = res_kernel RT_COMPLETED (reschedule p to from k') /\
    kinv idle k' Q' /\ is_highest Q' p /\ Q' p = to :: q /\ stat_is (k_threads k') w RT_THREAD_READY /\
    k_links k' !! clist i = Some (LTlist <$> ws')).
Proof.
  intros HI Hq Hl Hc Hw.
  pose proof (queue_isempty _ _ _ (lo_coherent _ (si_links _ _ (ki_sched _ _ _ HI))) Hw) as He.
  set (k1 := set_primask 1 k). assert (kinv idle k1 Q) as HI1 by (eapply kinv_frame; [..|exact HI]; done).
  assert (flag <> RT_COMPLETED -> rt_completion_done i (k, flag) =
    (if negb (bool_decide (LTlist <$> ws = [])) then
       kernel (let! n := list_next (clist i) in let! thread := thread_entry n in
         rt_thread_resume thread ;! rt_hw_interrupt_enable (k_primask k) ;! rt_schedule)
     else kernel (rt_hw_interrupt_enable (k_primask k))) (k1, RT_COMPLETED)) as E.
  { intros Hf. unfold rt_completion_done. rewrite bind_gets. cbn [snd]. rewrite (proj2 (Z.eqb_neq _ _) Hf).
    rewrite (bind_ok _ _ _ (k_primask k) (k1, flag)) by done. unfold set_flag. rewrite bind_modify. cbn [fst].
    rewrite (bind_ok _ _ _ (bool_decide (LTlist <$> ws = [])) (k1, RT_COMPLETED)); [done|].
    apply kernel_ok. unfold list_isempty. simpl. by rewrite He. }
  split; [|split].
  - intros ->. done.
  - intros Hf ->. rewrite (E Hf). rewrite bool_decide_true by done. cbn [negb].
    apply kernel_ok. rewrite interrupt_enable_quiet by exact Hq. by destruct k.
  - intros w ws' Hf ->. rewrite (E Hf). rewrite bool_decide_false by done. cbn [negb].
    destruct (driver_wake_eq idle k1 Q (clist i) w ws' from (k_primask k) HI1)
      as (k' & Q' & p & to & q & Ew & HI2 & Hp & HQ & Hs & HV & _); [done|exact Hq|done|done|done|exact Hw|].
    exists k', Q', p, to, q. split; [unfold kernel; cbn [fst snd]; by rewrite Ew|]. done.
Qed.

(** ** On the board *)
(** Completion 0 is initialised and thread 3 waits for it for at most ten ticks;
    thread 2 runs. *)
Definition comp_ready : kview * Z :=
  default (Board.board, 7) (first_state (rt_completion_init 0 (Board.board, 7))).
Definition comp_waited : kview * Z :=
  default (Board.board, 7) (first_state (rt_completion_wait 0 10 comp_ready)).

Example comp_states :
  bool_decide (k_links comp_ready.1 !! clist 0 = Some [] /\ comp_ready.2 = 0 /\
    k_links comp_waited.1 !! clist 0 = Some [LTlist 3] /\ comp_waited.2 = 0) = true.
Proof. vm_compute. reflexivity. Qed.

#[local] Opaque comp_ready comp_waited.

Example completion_wait_behaviour_witness :
  (exists to k' c, rt_completion_wait 0 10 (comp_ready.1, 0) = Switch 3 to (k', 0) c) /\
  rt_completion_wait 0 0 (comp_ready.1, 0) = Ok (- RT_ETIMEOUT) (comp_ready.1, 0).
Proof.
  assert (kinv Board.idle comp_ready.1 (Board.queues_of comp_ready.1)) as HI by (apply Board.kinv_b_sound; vm_compute; reflexivity).
  assert (thread_ctx comp_ready.1 3) as Hc by (split; vm_compute; reflexivity).
  assert (k_threads comp_ready.1 !! 3%nat = Some (Board.thread_of comp_ready.1 3)) as Ht by (apply Board.thread_of_lookup; vm_compute; reflexivity).
  split.
  - destruct (completion_wait_behaviour Board.idle comp_ready.1 (Board.queues_of comp_ready.1) 0 0 [] 3
      (Board.thread_of comp_ready.1 3) 10 HI Hc) as (_ & _ & _ & H); [vm_compute; reflexivity|exact Ht|vm_compute; reflexivity|done|done|].
    destruct H as (to & k' & c & E & _); [done..|]. exists to, k', c. exact E.
  - destruct (completion_wait_behaviour Board.idle comp_ready.1 (Board.queues_of comp_ready.1) 0 0 [] 3
      (Board.thread_of comp_ready.1 3) 0 HI Hc) as (_ & _ & H & _); [vm_compute; reflexivity|exact Ht|vm_compute; reflexivity|done|done|].
    apply H; done.
Defined.

Example completion_done_behaviour_witness :
  exists k' p to, rt_completion_done 0 (comp_waited.1, 0) = res_kernel RT_COMPLETED (reschedule p to 2 k') /\
    stat_is (k_threads k') 3 RT_THREAD_READY.
Proof.
  destruct (completion_done_behaviour Board.idle comp_waited.1 (Board.queues_of comp_waited.1) 0 0 [3%nat] 2) as (_ & _ & H).
  - apply Board.kinv_b_sound. vm_compute. reflexivity.
  - intros _ _. vm_compute. reflexivity.
  - vm_compute. reflexivity.
  - vm_compute. reflexivity.
  - vm_compute. reflexivity.
  - destruct (H 3%nat []) as (k' & Q' & p & to & q & E & _ & _ & _ & Hs & _); [done|done|].
    exists k', p, to. split; [exact E|exact Hs].
Defined.
End CompletionTheorems.
