(* ===== verification/DataQueueTheorems.v ===== *)
(** * Data queues: the properties

    [dq_rep m q l]: the queue [q] holds the items [l], oldest first.  The 16-bit
    indices may have wrapped around any number of times when the size divides
    65536; for other sizes an index that wraps moves the items, so the counter
    of insertions must not have wrapped yet. *)
From S2P Require Import Prelude Kservice Ram RtList KMonad KState KPrim KInv Scheduler Object TimerBase Thread Timer Ipc Mem DataQueue KernelInv WaitProof TimerProof BlockProof Board SchedTheorems MemProof MemSpec MemTheorems.
Import Ram Scheduler Object TimerBase Thread Timer IpcCore Mem DataQueue SchedTheorems MemProof MemSpec MemTheorems.
Local Open Scope Z_scope.
Local Open Scope kmonad_scope.

Module DataQueueTheorems.

(** ** Representation *)
Record item_in (m : ram) (a : Z) (x : Z * Z) : Prop := {
  it_ptr : load 4 m a = Some x.1;
  it_size : load 4 m (a + 4) = Some x.2;
}.

Definition slot (q : rt_data_queue) (n : Z) : Z := dq_queue q + 8 * (n mod dq_size q).

(** The room of the items. *)
Record dq_room (m : ram) (q : rt_data_queue) : Prop := {
  dr_size : 0 < dq_size q < 2 ^ 16;
  dr_ptr : 0 < dq_queue q;
  dr_top : dq_queue q + 8 * dq_size q < 2 ^ 32;
  dr_mapped : mapped m (dq_queue q) (8 * dq_size q);
}.

Record dq_rep (m : ram) (q : rt_data_queue) (l : list (Z * Z)) : Prop := {
  dq_has_room : dq_room m q;
  dq_len : Z.of_nat (length l) <= dq_size q;
  dq_lwm_ok : 0 <= dq_lwm q;
  dq_get_ok : 0 <= dq_get_index q < 2 ^ 16;
  dq_put_ok : dq_put_index q = u16 (dq_get_index q + Z.of_nat (length l));
  dq_turn : (2 ^ 16) mod dq_size q = 0 \/ dq_get_index q + Z.of_nat (length l) < 2 ^ 16;
  dq_items : forall j x, l !! j = Some x -> item_in m (slot q (dq_get_index q + Z.of_nat j)) x;
}.

(** Queue [i] with the items [l], the threads [ws] waiting to push and the
    threads [rs] waiting to pop. *)
Record dq_at (i : nat) (k : kview) (m : ram) (q : rt_data_queue) (l : list (Z * Z)) (ws rs : list nat) : Prop := {
  da_rep : dq_rep m q l;
  da_push : k_links k !! LDriver (DPush i) = Some (LTlist <$> ws);
  da_pop : k_links k !! LDriver (DPop i) = Some (LTlist <$> rs);
}.

Lemma slot_range m q n : dq_room m q -> 0 < slot q n /\ slot q n + 8 < 2 ^ 32 /\ mapped m (slot q n) 8.
Proof.
  intros [Hs Hp Ht HM]. unfold slot. pose proof (Z.mod_pos_bound n (dq_size q) ltac:(lia)).
  split; [lia|]. split; [lia|]. eapply mapped_sub; [exact HM|lia|lia].
Qed.

Lemma item_at_slot m q n : dq_room m q -> item_at q n = slot q n.
Proof. intros H. destruct (slot_range m q n H) as (? & ? & _). apply u32_small. unfold slot, sizeof_item in *. lia. Qed.

(** A position and the index that stands for it have the same slot. *)
Lemma slot_u16 q n : 0 < dq_size q -> (2 ^ 16) mod dq_size q = 0 -> slot q (u16 n) = slot q n.
Proof.
  intros Hs Hd. unfold slot, u16. do 2 f_equal. symmetry. apply Znumtheory.Zmod_div_mod; [done|done|].
  by apply Z.mod_divide; [lia|].
Qed.

(** The indices in the two situations: the counter of insertions is ahead of the
    other one, or it alone has wrapped around. *)
Lemma dq_put_cases m q l : dq_rep m q l ->
  (dq_get_index q + Z.of_nat (length l) < 2 ^ 16 /\ dq_put_index q = dq_get_index q + Z.of_nat (length l)) \/
  ((2 ^ 16) mod dq_size q = 0 /\ 2 ^ 16 <= dq_get_index q + Z.of_nat (length l) /\
   dq_put_index q = dq_get_index q + Z.of_nat (length l) - 2 ^ 16).
Proof.
  intros [[Hs _ _ _] Hl _ Hg Hp Ht _]. unfold u16 in Hp.
  destruct (Z.lt_ge_cases (dq_get_index q + Z.of_nat (length l)) (2 ^ 16)) as [H|H].
  - left. rewrite Z.mod_small in Hp by lia. done.
  - right. destruct Ht as [Ht|]; [|lia]. split; [done|]. split; [done|]. rewrite Hp.
    symmetry. apply (Z.mod_unique_pos _ _ 1); lia.
Qed.

Lemma dq_put_slot m q l : dq_rep m q l -> slot q (dq_put_index q) = slot q (dq_get_index q + Z.of_nat (length l)).
Proof.
  intros HR. destruct (dq_put_cases m q l HR) as [[_ ->]|(Hd & _ & _)]; [done|].
  rewrite (dq_put_ok _ _ _ HR). apply slot_u16; [apply HR|done].
Qed.

(** Positions less than [size] apart have different slots. *)
Lemma slots_apart q a b :
  0 < dq_size q -> a < b < a + dq_size q -> slot q a + 8 <= slot q b \/ slot q b + 8 <= slot q a.
Proof.
  intros Hs Hab. unfold slot. assert (a mod dq_size q <> b mod dq_size q); [|lia]. intros E.
  assert ((b - a) mod dq_size q = 0) as E2 by (rewrite Zminus_mod, E, Z.sub_diag; apply Z.mod_0_l; lia).
  rewrite Z.mod_small in E2; lia.
Qed.

Lemma item_frame m m' a b x :
  (forall y, a <= y < a + 8 -> m' !! y = m !! y) -> item_in m a x -> b = a -> item_in m' b x.
Proof. intros H [H1 H2] ->. split; [rewrite <-H1|rewrite <-H2]; apply load_ext; intros; apply H; lia. Qed.

(** Storing an item. *)
Lemma put_item m q n x : dq_room m q -> 0 <= x.1 < 2 ^ 32 -> 0 <= x.2 < 2 ^ 32 ->
  exists m1 m2, store 4 m (slot q n) x.1 = Some m1 /\ store 4 m1 (slot q n + 4) x.2 = Some m2 /\
    stored (slot q n) 8 m m2 /\ item_in m2 (slot q n) x.
Proof.
  intros HR Hx1 Hx2. destruct (slot_range m q n HR) as (_ & _ & HM).
  destruct (store_stored 4 m (slot q n) x.1) as (m1 & E1 & S1); [eapply mapped_sub; [exact HM|lia|lia]|].
  destruct (store_stored 4 m1 (slot q n + 4) x.2) as (m2 & E2 & S2).
  { apply S1. eapply mapped_sub; [exact HM|lia|lia]. }
  exists m1, m2. split; [done|]. split; [done|]. split.
  - eapply stored_trans; eapply stored_wider; [exact S1|lia|lia|exact S2|lia|lia].
  - split; [|rewrite (load_store_same _ _ _ _ _ E2); by rewrite Z.mod_small by lia].
    rewrite (load_store_other _ _ _ _ _ _ _ E2) by lia. rewrite (load_store_same _ _ _ _ _ E1). by rewrite Z.mod_small by lia.
Qed.

Lemma dq_rep_push m q l x m' :
  dq_rep m q l -> Z.of_nat (length l) < dq_size q -> (2 ^ 16) mod dq_size q = 0 \/ dq_put_index q < 2 ^ 16 - 1 ->
  stored (slot q (dq_put_index q)) 8 m m' -> item_in m' (slot q (dq_put_index q)) x ->
  dq_rep m' (set_put_index (u16 (dq_put_index q + 1)) q) (l ++ [x]).
Proof.
  intros HR Hl Ht' S Hx. pose proof (dq_put_cases m q l HR) as Hcases. rewrite (dq_put_slot _ _ _ HR) in S, Hx.
  destruct HR as [HR Hlen Hw Hg Hp Ht Hi].
  assert (Z.of_nat (length (l ++ [x])) = Z.of_nat (length l) + 1) as El by (rewrite length_app; simpl; lia).
  split; rewrite ?El; simpl; try (done || lia).
  - destruct HR as [? ? ? HM]. split; try done. apply S, HM.
  - rewrite Hp. unfold u16. rewrite Zplus_mod_idemp_l. f_equal. lia.
  - intros j y Hj. change (slot (set_put_index (u16 (dq_put_index q + 1)) q)) with (slot q).
    apply lookup_app_Some in Hj as [Hj|[Hge Hj]].
    + pose proof (lookup_lt_Some _ _ _ Hj). eapply item_frame; [|apply (Hi _ _ Hj)|done].
      intros a Ha. apply S. destruct (slots_apart q (dq_get_index q + Z.of_nat j) (dq_get_index q + Z.of_nat (length l)));
        [apply HR|lia|lia|lia].
    + apply list_lookup_singleton_Some in Hj as [E <-].
      replace (dq_get_index q + Z.of_nat j) with (dq_get_index q + Z.of_nat (length l)) by lia. done.
Qed.

Lemma dq_rep_pop m q x l : dq_rep m q (x :: l) -> dq_rep m (set_get_index (u16 (dq_get_index q + 1)) q) l.
Proof.
  intros HR. destruct HR as [[? ? ? ?] Hlen Hw Hg Hp Ht Hi]. cbn [length] in *.
  replace (Z.of_nat (S (length l))) with (Z.of_nat (length l) + 1) in * by lia.
  split; simpl; try (done || lia).
  - pose proof (Z.mod_pos_bound (dq_get_index q + 1) (2 ^ 16) ltac:(lia)). unfold u16. lia.
  - rewrite Hp. unfold u16. rewrite Zplus_mod_idemp_l. f_equal. lia.
  - destruct Ht as [Ht|Ht]; [by left|]. right. unfold u16. rewrite Z.mod_small by lia. lia.
  - intros j y Hj. change (slot (set_get_index (u16 (dq_get_index q + 1)) q)) with (slot q).
    assert (slot q (u16 (dq_get_index q + 1) + Z.of_nat j) = slot q (dq_get_index q + Z.of_nat (S j))) as ->.
    { destruct Ht as [Ht|Ht].
      - rewrite <-(slot_u16 q (u16 _ + _)), <-(slot_u16 q (dq_get_index q + Z.of_nat (S j))) by (done || lia).
        f_equal. unfold u16. rewrite Zplus_mod_idemp_l. f_equal. lia.
      - f_equal. unfold u16. rewrite Z.mod_small by lia. lia. }
    by apply Hi.
Qed.

(** ** Stepping *)
Lemma krn_ok {A} (f : M kview A) k (h : heap) (q : rt_data_queue) a k' :
  f k = Ok a k' -> krn f (k, h, q) = Ok a (k', h, q).
Proof. intros E. unfold krn. by apply kernel_ok, kernel_ok. Qed.

Lemma mem_ok {A} (f : HM A) (k : kview) h (q : rt_data_queue) a h' :
  f h = Ok a h' -> mem f (k, h, q) = Ok a (k, h', q).
Proof. intros E. unfold mem. by apply kernel_ok, on_heap_ok. Qed.

(** The result of a kernel call that may give the processor away, beside heap and
    queue. *)
Abbreviation dq_res h q r := (res_kernel q (res_kernel h r)).

Lemma dq_isempty idle (k : kview) Q h q hd (xs : list nat) :
  kinv idle k Q -> k_links k !! hd = Some (LTlist <$> xs) ->
  krn (list_isempty hd) (k, h, q) = Ok (bool_decide (xs = [])) (k, h, q).
Proof.
  intros HI Hx. apply krn_ok. unfold list_isempty. simpl.
  rewrite (queue_isempty _ _ _ (lo_coherent _ (si_links _ _ (ki_sched _ _ _ HI))) Hx). by destruct xs.
Qed.

Lemma dq_enable (k : kview) h q : quiet k ->
  krn (rt_hw_interrupt_enable (k_primask k)) (set_primask 1 k, h, q) = Ok tt (k, h, q).
Proof. intros Hq. apply krn_ok. rewrite interrupt_enable_quiet by exact Hq. by destruct k. Qed.

(** ** Waiting *)
Lemma dq_wait_eq idle k Q hd ws t timeout :
  kinv idle k Q -> thread_ctx (set_primask 0 k) t -> k_primask k = 1 -> wait_head hd = true ->
  k_links k !! hd = Some (LTlist <$> ws) -> stat_is (k_threads k) t RT_THREAD_READY -> t <> idle ->
  timeout < half_tick ->
  exists to k' c, dq_wait_round hd (Some t) timeout 0 k = Switch t to k' c /\ running idle k' to /\
    k_links k' !! hd = Some (LTlist <$> ws ++ [t]) /\
    (forall h', wait_head h' = true -> h' <> hd -> k_links k' !! h' = k_links k !! h') /\
    (forall k2 th2, k_threads k2 !! t = Some th2 -> c k2 = Ok (t_error th2) k2).
Proof.
  intros HI Hc Hpm Hh Hw (th & Ht & Hst) Hid Htime.
  set (rest := (let! th := get_thread t in ret (t_error th))%M : M kview Z).
  destruct (append_park_eq rest (ret tt) idle k Q hd ws t th timeout)
    as (to & k' & E & Hg & Hs & Hl & Hfr); [done..|].
  exists to, k', rest. split; [|split; [apply Hg|split; [done|split; [done|]]]].
  - unfold dq_wait_round. rewrite (bind_ok _ _ _ _ _ (not_in_interrupt_ok k (quiet_masked k Hpm) (tc_nest _ _ Hc))). exact E.
  - intros k3 th3 H3. unfold rest, get_thread, bind, gets. simpl. by rewrite H3.
Qed.

(** What is left of a call after its wait ended with an error number. *)
Lemma dq_after_wait {A} (r : A) (k : kview) h q : quiet k ->
  (let! level := krn rt_hw_interrupt_disable in krn (rt_hw_interrupt_enable level) ;! ret r)%M (k, h, q) = Ok r (k, h, q).
Proof.
  intros Hq. rewrite (bind_ok _ _ _ (k_primask k) (set_primask 1 k, h, q)) by done.
  by rewrite (bind_ok _ _ _ _ _ (dq_enable k h q Hq)).
Qed.

(** ** Inserting *)
Section push.
Context (notify : nat -> Z -> M (kview * heap * rt_data_queue) unit).

Lemma push_enter k h q i x timeout fuel :
  dq_put_index q - dq_get_index q <> dq_size q ->
  rt_data_queue_push notify fuel i x.1 x.2 timeout (k, h, q) = dq_put notify i x.1 x.2 (k_primask k) (set_primask 1 k, h, q).
Proof.
  intros Hne. unfold rt_data_queue_push. rewrite (bind_ok _ _ _ (k_current k) (k, h, q)) by done.
  rewrite (bind_ok _ _ _ (k_primask k) (set_primask 1 k, h, q)) by done.
  destruct fuel; cbn [dq_push_loop]; unfold get_q at 1; rewrite bind_gets; cbn [snd];
    by rewrite (proj2 (Z.eqb_neq _ _) Hne).
Qed.

Lemma dq_put_eq idle k h Q i q x rs level :
  kinv idle k Q -> dq_room (hp_ram h) q -> 0 <= x.1 < 2 ^ 32 -> 0 <= x.2 < 2 ^ 32 ->
  k_links k !! LDriver (DPop i) = Some (LTlist <$> rs) ->
  exists m', stored (slot q (dq_put_index q)) 8 (hp_ram h) m' /\ item_in m' (slot q (dq_put_index q)) x /\
  let s' := (k, set_hp_ram m' h, set_put_index (u16 (dq_put_index q + 1)) q) in
  dq_put notify i x.1 x.2 level (k, h, q) =
    if bool_decide (rs = []) then
      (krn (rt_hw_interrupt_enable level) ;! notify_event notify RT_DATAQUEUE_EVENT_PUSH ;! ret RT_EOK) s'
    else (krn (dq_wake (LDriver (DPop i)) level) ;! ret RT_EOK) s'.
Proof.
  intros HI HR H1 H2 Hrs. destruct (put_item _ q (dq_put_index q) x HR H1 H2) as (m1 & m2 & E1 & E2 & S & Hx).
  exists m2. split; [done|]. split; [done|]. intros s'. unfold dq_put, get_q. rewrite bind_gets. cbn [snd].
  rewrite (item_at_slot _ _ _ HR).
  rewrite (bind_ok _ _ _ tt (k, set_hp_ram m1 h, q)) by (apply mem_ok; unfold st, ram_op; by rewrite E1).
  rewrite (bind_ok _ _ _ tt (k, set_hp_ram m2 h, q)) by (apply mem_ok; unfold st, ram_op; simpl; by rewrite E2).
  unfold upd_q. rewrite bind_modify. cbn [fst snd].
  rewrite (bind_ok _ _ _ _ _ (dq_isempty idle k Q _ _ _ rs HI Hrs)). by destruct rs.
Qed.

(** With room: a thread that waits to pop is woken, or the queue's function is
    told. *)
Lemma push_room idle k h Q i q l ws rs x timeout fuel from :
  kinv idle k Q -> quiet k -> k_lock_nest k = 0 -> k_current k = Some from ->
  dq_at i k (hp_ram h) q l ws rs -> 0 <= x.1 < 2 ^ 32 -> 0 <= x.2 < 2 ^ 32 ->
  Z.of_nat (length l) < dq_size q -> (2 ^ 16) mod dq_size q = 0 \/ dq_put_index q < 2 ^ 16 - 1 ->
  let q' := set_put_index (u16 (dq_put_index q + 1)) q in
  exists m', dq_rep m' q' (l ++ [x]) /\
  match rs with
  | [] => rt_data_queue_push notify fuel i x.1 x.2 timeout (k, h, q) =
      (notify_event notify RT_DATAQUEUE_EVENT_PUSH ;! ret RT_EOK) (k, set_hp_ram m' h, q')
  | r :: rs' => exists k' Q' p to qs,
      rt_data_queue_push notify fuel i x.1 x.2 timeout (k, h, q) =
        res_bind (dq_res (set_hp_ram m' h) q' (reschedule p to from k')) (fun _ => ret RT_EOK) /\
      kinv idle k' Q' /\ is_highest Q' p /\ Q' p = to :: qs /\
      stat_is (k_threads k') r RT_THREAD_READY /\ dq_at i k' m' q' (l ++ [x]) ws rs'
  end.
Proof.
  intros HI Hq Hl Hc [HR Hw Hrs] H1 H2 Hlt Hmax q'. pose proof HR as [Hroom Hlen _ Hg _ _ _].
  pose proof (dq_put_cases _ _ _ HR) as Hcases.
  set (k1 := set_primask 1 k). assert (kinv idle k1 Q) as HI1 by (eapply kinv_frame; [..|exact HI]; done).
  destruct (dq_put_eq idle k1 h Q i q x rs (k_primask k) HI1 Hroom H1 H2 Hrs) as (m' & S & Hx & E).
  fold q' in E. pose proof (dq_rep_push _ _ _ _ _ HR Hlt Hmax S Hx) as HR'.
  exists m'. split; [exact HR'|]. rewrite push_enter by lia. fold k1. rewrite E. destruct rs as [|r rs'].
  - cbn [bool_decide decide decide_rel]. rewrite bool_decide_true by done. by rewrite (bind_ok _ _ _ _ _ (dq_enable k _ _ Hq)).
  - rewrite bool_decide_false by done.
    destruct (driver_wake_eq idle k1 Q (LDriver (DPop i)) r rs' from (k_primask k) HI1)
      as (k' & Q' & p & to & qs & Ew & HI2 & Hh & HQ & Hs & HV & Hfr); [done|exact Hq|done|done|done|exact Hrs|].
    exists k', Q', p, to, qs. split; [|split; [done|split; [done|split; [done|split; [done|]]]]].
    + unfold bind at 1, krn, kernel, dq_wake. cbn [fst snd]. by rewrite Ew.
    + split; [exact HR'|by rewrite Hfr|exact HV].
Qed.

Lemma push_loop_unfold fuel i thread a b timeout level (k : kview) h q :
  dq_push_loop notify fuel i thread a b timeout level (k, h, q) =
  (if negb (dq_put_index q - dq_get_index q =? dq_size q) then dq_put notify i a b level
   else if timeout =? 0 then krn (rt_hw_interrupt_enable level) ;! ret (- RT_ETIMEOUT)
   else
     let! result := krn (dq_wait_round (LDriver (DPush i)) thread timeout level) in
     let! level := krn rt_hw_interrupt_disable in
     if negb (result =? RT_EOK) then krn (rt_hw_interrupt_enable level) ;! ret result
     else match fuel with
     | O => fail Out_of_fuel
     | S fuel => dq_push_loop notify fuel i thread a b timeout level
     end) (k, h, q).
Proof. by destruct fuel. Qed.

(** Without: the thread waits or the call is refused. *)
Lemma push_full idle k h Q i q l ws rs x timeout fuel from :
  kinv idle k Q -> quiet k -> k_current k = Some from -> dq_at i k (hp_ram h) q l ws rs ->
  Z.of_nat (length l) = dq_size q -> dq_get_index q <= dq_put_index q ->
  (timeout = 0 -> rt_data_queue_push notify fuel i x.1 x.2 timeout (k, h, q) = Ok (- RT_ETIMEOUT) (k, h, q)) /\
  (timeout <> 0 -> timeout < half_tick -> thread_ctx k from -> from <> idle ->
    stat_is (k_threads k) from RT_THREAD_READY -> exists to k' c,
    rt_data_queue_push notify fuel i x.1 x.2 timeout (k, h, q) = Switch from to (k', h, q) c /\
    running idle k' to /\ dq_at i k' (hp_ram h) q l (ws ++ [from]) rs /\
    (forall k2 h2 q2 th2, quiet k2 -> k_threads k2 !! from = Some th2 -> t_error th2 <> RT_EOK ->
      c (k2, h2, q2) = Ok (t_error th2) (k2, h2, q2))).
Proof.
  intros HI Hq Hc [HR Hw Hrs] Hfull Hahead. pose proof (dq_put_cases _ _ _ HR) as Hp.
  pose proof (dr_size _ _ (dq_has_room _ _ _ HR)) as Hsize.
  set (k1 := set_primask 1 k). assert (kinv idle k1 Q) as HI1 by (eapply kinv_frame; [..|exact HI]; done).
  assert (rt_data_queue_push notify fuel i x.1 x.2 timeout (k, h, q) =
    dq_push_loop notify fuel i (Some from) x.1 x.2 timeout (k_primask k) (k1, h, q)) as E.
  { unfold rt_data_queue_push. rewrite (bind_ok _ _ _ (Some from) (k, h, q)) by (by rewrite <-Hc).
    by rewrite (bind_ok _ _ _ (k_primask k) (k1, h, q)). }
  assert (negb (dq_put_index q - dq_get_index q =? dq_size q) = false) as Ef
    by (rewrite (proj2 (Z.eqb_eq _ _)) by lia; done).
  rewrite E. split.
  - intros ->. rewrite push_loop_unfold, Ef, Z.eqb_refl. by rewrite (bind_ok _ _ _ _ _ (dq_enable k h q Hq)).
  - intros Hnz Htime Hctx Hid Hst. rewrite (tc_primask _ _ Hctx).
    destruct (dq_wait_eq idle k1 Q (LDriver (DPush i)) ws from timeout HI1)
      as (to & k' & c & Ew & Hrun & Hw' & Hfr & Hres); [destruct Hctx; by split|done..|].
    exists to, k'. eexists. split; [|split; [exact Hrun|split]].
    + rewrite (push_loop_unfold fuel), Ef, (proj2 (Z.eqb_neq _ _) Hnz).
      unfold bind at 1, krn at 1, kernel at 1 2; cbn [fst snd]; rewrite Ew; cbn [res_kernel res_bind]; reflexivity.
    + split; [done|done|by rewrite Hfr].
    + intros k2 h2 q2 th2 Hq2 Ht2 He. cbn [fst snd]. rewrite (Hres k2 th2 Ht2). cbn [res_kernel res_bind].
      rewrite (proj2 (Z.eqb_neq _ _) He). cbn [negb]. by apply dq_after_wait.
Qed.

(** Full, between the wrap of the counter of insertions and that of the other
    one: the item is stored over the oldest one. *)
Lemma push_overwrites idle k h Q i q l ws x timeout fuel :
  kinv idle k Q -> quiet k -> dq_at i k (hp_ram h) q l ws [] -> 0 <= x.1 < 2 ^ 32 -> 0 <= x.2 < 2 ^ 32 ->
  Z.of_nat (length l) = dq_size q -> dq_put_index q < dq_get_index q ->
  exists m', item_in m' (slot q (dq_get_index q)) x /\
    rt_data_queue_push notify fuel i x.1 x.2 timeout (k, h, q) =
      (notify_event notify RT_DATAQUEUE_EVENT_PUSH ;! ret RT_EOK)
        (k, set_hp_ram m' h, set_put_index (u16 (dq_put_index q + 1)) q).
Proof.
  intros HI Hq [HR Hw Hrs] H1 H2 Hfull Hbehind. pose proof (dr_size _ _ (dq_has_room _ _ _ HR)) as Hsize.
  set (k1 := set_primask 1 k). assert (kinv idle k1 Q) as HI1 by (eapply kinv_frame; [..|exact HI]; done).
  destruct (dq_put_eq idle k1 h Q i q x [] (k_primask k) HI1 (dq_has_room _ _ _ HR) H1 H2 Hrs) as (m' & _ & Hx & E).
  exists m'. split.
  - rewrite (dq_put_slot _ _ _ HR), Hfull in Hx. unfold slot in *.
    by rewrite <-Zplus_mod_idemp_r, Z_mod_same_full, Z.add_0_r in Hx.
  - rewrite push_enter by lia. fold k1. rewrite E, bool_decide_true by done.
    by rewrite (bind_ok _ _ _ _ _ (dq_enable k _ _ Hq)).
Qed.

(** C26: what [rt_data_queue_push] does, for a size that divides 65536, or before
    the 16-bit counter of insertions has wrapped around.  A queue with room takes the
    item behind the others; then the first thread that waits to pop becomes
    ready and the scheduler chooses the highest ready thread, or, with nobody
    waiting, the queue's function is told.  Into a full queue a call that does
    not wait is refused with [-RT_ETIMEOUT]; a call that waits queues the thread
    last and gives the processor away, and returns the error number it is woken
    with.  But this holds for a full queue only while the index of insertions is
    ahead of the other one: when it alone has wrapped around, the code does not
    see that the queue is full and stores the item over the oldest one. *)
Theorem dataqueue_push_appends idle k h Q i q l ws rs x timeout fuel from :
  kinv idle k Q -> quiet k -> k_lock_nest k = 0 -> k_current k = Some from ->
  dq_at i k (hp_ram h) q l ws rs -> 0 <= x.1 < 2 ^ 32 -> 0 <= x.2 < 2 ^ 32 ->
  let q' := set_put_index (u16 (dq_put_index q + 1)) q in
  (Z.of_nat (length l) < dq_size q -> (2 ^ 16) mod dq_size q = 0 \/ dq_put_index q < 2 ^ 16 - 1 ->
    exists m', dq_rep m' q' (l ++ [x]) /\
    match rs with
    | [] => rt_data_queue_push notify fuel i x.1 x.2 timeout (k, h, q) =
        (notify_event notify RT_DATAQUEUE_EVENT_PUSH ;! ret RT_EOK) (k, set_hp_ram m' h, q')
    | r :: rs' => exists k' Q' p to qs,
        rt_data_queue_push notify fuel i x.1 x.2 timeout (k, h, q) =
          res_bind (dq_res (set_hp_ram m' h) q' (reschedule p to from k')) (fun _ => ret RT_EOK) /\
        kinv idle k' Q' /\ is_highest Q' p /\ Q' p = to :: qs /\
        stat_is (k_threads k') r RT_THREAD_READY /\ dq_at i k' m' q' (l ++ [x]) ws rs'
    end) /\
  (Z.of_nat (length l) = dq_size q -> dq_get_index q <= dq_put_index q -> timeout = 0 ->
    rt_data_queue_push notify fuel i x.1 x.2 timeout (k, h, q) = Ok (- RT_ETIMEOUT) (k, h, q)) /\
  (Z.of_nat (length l) = dq_size q -> dq_get_index q <= dq_put_index q ->
    timeout <> 0 -> timeout < half_tick -> thread_ctx k from -> from <> idle ->
    stat_is (k_threads k) from RT_THREAD_READY -> exists to k' c,
    rt_data_queue_push notify fuel i x.1 x.2 timeout (k, h, q) = Switch from to (k', h, q) c /\
    running idle k' to /\ dq_at i k' (hp_ram h) q l (ws ++ [from]) rs /\
    (forall k2 h2 q2 th2, quiet k2 -> k_threads k2 !! from = Some th2 -> t_error th2 <> RT_EOK ->
      c (k2, h2, q2) = Ok (t_error th2) (k2, h2, q2))) /\
  (Z.of_nat (length l) = dq_size q -> dq_put_index q < dq_get_index q -> rs = [] ->
    exists m', item_in m' (slot q (dq_get_index q)) x /\
    rt_data_queue_push notify fuel i x.1 x.2 timeout (k, h, q) =
      (notify_event notify RT_DATAQUEUE_EVENT_PUSH ;! ret RT_EOK) (k, set_hp_ram m' h, q')).
Proof.
  intros HI Hq Hl Hc Hat H1 H2 q'. split; [intros Hlt Hmax; by eapply push_room|].
  split; [|split]; intros Hfull; [by eapply push_full..|]. intros Hbehind ->. by eapply push_overwrites.
Qed.
End push.

(** ** Taking *)
Section pop.
Context (notify : nat -> Z -> M (kview * heap * rt_data_queue) unit).

Lemma pop_loop_unfold fuel i thread timeout level (k : kview) h q :
  dq_pop_loop notify fuel i thread timeout level (k, h, q) =
  (if negb (dq_get_index q =? dq_put_index q) then dq_get notify i level
   else if timeout =? 0 then krn (rt_hw_interrupt_enable level) ;! ret (- RT_ETIMEOUT, None)
   else
     let! result := krn (dq_wait_round (LDriver (DPop i)) thread timeout level) in
     let! level := krn rt_hw_interrupt_disable in
     if negb (result =? RT_EOK) then krn (rt_hw_interrupt_enable level) ;! ret (result, None)
     else match fuel with
     | O => fail Out_of_fuel
     | S fuel => dq_pop_loop notify fuel i thread timeout level
     end) (k, h, q).
Proof. by destruct fuel. Qed.

Lemma pop_enter fuel i timeout (k : kview) h q from : k_current k = Some from ->
  rt_data_queue_pop notify fuel i timeout (k, h, q) =
  dq_pop_loop notify fuel i (Some from) timeout (k_primask k) (set_primask 1 k, h, q).
Proof.
  intros Hc. unfold rt_data_queue_pop. rewrite (bind_ok _ _ _ (Some from) (k, h, q)) by (by rewrite <-Hc).
  by rewrite (bind_ok _ _ _ (k_primask k) (set_primask 1 k, h, q)).
Qed.

(** What happens when the oldest item has been taken. *)
Lemma dq_get_eq i (k : kview) h q x l level :
  dq_rep (hp_ram h) q (x :: l) ->
  let q' := set_get_index (u16 (dq_get_index q + 1)) q in
  dq_get notify i level (k, h, q) =
    (if dq_put_index q - dq_get_index q' <=? dq_lwm q then
      let! empty := krn (list_isempty (LDriver (DPush i))) in
      (if negb empty then krn (dq_wake (LDriver (DPush i)) level) else krn (rt_hw_interrupt_enable level)) ;!
      notify_event notify RT_DATAQUEUE_EVENT_LWM ;! ret (RT_EOK, Some x)
    else
      krn (rt_hw_interrupt_enable level) ;! notify_event notify RT_DATAQUEUE_EVENT_POP ;! ret (RT_EOK, Some x)) (k, h, q').
Proof.
  intros [HR _ _ _ _ _ Hi] q'. destruct (Hi 0%nat x eq_refl) as [I1 I2].
  replace (dq_get_index q + Z.of_nat 0) with (dq_get_index q) in I1, I2 by lia.
  unfold dq_get, get_q, upd_q. rewrite bind_gets. cbn [snd]. rewrite (item_at_slot _ _ _ HR).
  rewrite (bind_ok _ _ _ x.1 (k, h, q)) by (apply mem_ok; unfold ld; by rewrite I1).
  rewrite (bind_ok _ _ _ x.2 (k, h, q)) by (apply mem_ok; unfold ld; by rewrite I2).
  rewrite bind_modify. cbn [fst snd]. rewrite bind_gets. cbn [snd].
  by destruct x.
Qed.

(** The two indices after the removal: their difference is the number of items
    left, or negative. *)
Lemma dq_left m q x l : dq_rep m q (x :: l) ->
  let q' := set_get_index (u16 (dq_get_index q + 1)) q in
  dq_get_index q <> dq_put_index q /\ 0 <= dq_lwm q /\
  (dq_get_index q' <= dq_put_index q -> dq_put_index q - dq_get_index q' = Z.of_nat (length l)).
Proof.
  intros HR q'. pose proof (dq_put_cases _ _ _ (dq_rep_pop _ _ _ _ HR)) as H'. fold q' in H'.
  pose proof (dq_put_cases _ _ _ HR) as H. cbn [length] in H. change (dq_put_index q') with (dq_put_index q) in H'.
  change (dq_size q') with (dq_size q) in H'.
  destruct HR as [[Hs _ _ _] Hl Hw Hg _ _ _]. cbn [length] in Hl. split; [lia|]. split; [done|]. lia.
Qed.

Lemma pop_item idle k h Q i q x l ws rs timeout fuel from :
  kinv idle k Q -> quiet k -> k_lock_nest k = 0 -> k_current k = Some from ->
  dq_at i k (hp_ram h) q (x :: l) ws rs ->
  let q' := set_get_index (u16 (dq_get_index q + 1)) q in
  let done_with event := notify_event notify event ;! ret (RT_EOK, Some x) in
  dq_at i k (hp_ram h) q' l ws rs /\
  (dq_lwm q < Z.of_nat (length l) -> dq_get_index q' <= dq_put_index q ->
    rt_data_queue_pop notify fuel i timeout (k, h, q) = done_with RT_DATAQUEUE_EVENT_POP (k, h, q')) /\
  (Z.of_nat (length l) <= dq_lwm q \/ dq_put_index q < dq_get_index q' -> match ws with
  | [] => rt_data_queue_pop notify fuel i timeout (k, h, q) = done_with RT_DATAQUEUE_EVENT_LWM (k, h, q')
  | w :: ws' => exists k' Q' p to qs,
      rt_data_queue_pop notify fuel i timeout (k, h, q) =
        res_bind (dq_res h q' (reschedule p to from k')) (fun _ => done_with RT_DATAQUEUE_EVENT_LWM) /\
      kinv idle k' Q' /\ is_highest Q' p /\ Q' p = to :: qs /\
      stat_is (k_threads k') w RT_THREAD_READY /\ dq_at i k' (hp_ram h) q' l ws' rs
  end).
Proof.
  intros HI Hq Hl Hc [HR Hw Hrs] q' done_with. destruct (dq_left _ _ _ _ HR) as (Hne & Hlw & Hleft). fold q' in Hleft.
  set (k1 := set_primask 1 k). assert (kinv idle k1 Q) as HI1 by (eapply kinv_frame; [..|exact HI]; done).
  pose proof (dq_rep_pop _ _ _ _ HR) as HR'. rewrite (pop_enter fuel i timeout k h q from Hc), pop_loop_unfold.
  rewrite (proj2 (Z.eqb_neq (dq_get_index q) _)) by done. cbn [negb].
  pose proof (dq_get_eq i k1 h q x l (k_primask k) HR) as E. fold k1. rewrite E. fold q'.
  split; [by split|]. split.
  - intros Hlwm Hahead. rewrite (proj2 (Z.leb_gt _ _)) by lia. by rewrite (bind_ok _ _ _ _ _ (dq_enable k _ _ Hq)).
  - intros Hlwm. rewrite (proj2 (Z.leb_le _ _)) by lia. rewrite (bind_ok _ _ _ _ _ (dq_isempty idle k1 Q _ _ _ ws HI1 Hw)).
    destruct ws as [|w ws'].
    + rewrite bool_decide_true by done. cbn [negb]. by rewrite (bind_ok _ _ _ _ _ (dq_enable k _ _ Hq)).
    + rewrite bool_decide_false by done. cbn [negb].
      destruct (driver_wake_eq idle k1 Q (LDriver (DPush i)) w ws' from (k_primask k) HI1)
        as (k' & Q' & p & to & qs & Ew & HI2 & Hh & HQ & Hs & HV & Hfr); [done|exact Hq|done|done|done|exact Hw|].
      exists k', Q', p, to, qs. split; [|split; [done|split; [done|split; [done|split; [done|]]]]].
      * unfold bind at 1, krn, kernel, dq_wake. cbn [fst snd]. by rewrite Ew.
      * split; [exact HR'|exact HV|by rewrite Hfr].
Qed.

Lemma pop_empty idle k h Q i q ws rs timeout fuel from :
  kinv idle k Q -> quiet k -> k_current k = Some from -> dq_at i k (hp_ram h) q [] ws rs ->
  (timeout = 0 -> rt_data_queue_pop notify fuel i timeout (k, h, q) = Ok (- RT_ETIMEOUT, None) (k, h, q)) /\
  (timeout <> 0 -> timeout < half_tick -> thread_ctx k from -> from <> idle ->
    stat_is (k_threads k) from RT_THREAD_READY -> exists to k' c,
    rt_data_queue_pop notify fuel i timeout (k, h, q) = Switch from to (k', h, q) c /\
    running idle k' to /\ dq_at i k' (hp_ram h) q [] ws (rs ++ [from]) /\
    (forall k2 h2 q2 th2, quiet k2 -> k_threads k2 !! from = Some th2 -> t_error th2 <> RT_EOK ->
      c (k2, h2, q2) = Ok (t_error th2, None) (k2, h2, q2))).
Proof.
  intros HI Hq Hc [HR Hw Hrs]. pose proof (dq_put_cases _ _ _ HR) as Hp. simpl in Hp.
  pose proof (dq_get_ok _ _ _ HR) as Hg.
  set (k1 := set_primask 1 k). assert (kinv idle k1 Q) as HI1 by (eapply kinv_frame; [..|exact HI]; done).
  rewrite (pop_enter fuel i timeout k h q from Hc). fold k1.
  assert (negb (dq_get_index q =? dq_put_index q) = false) as Ef
    by (rewrite (proj2 (Z.eqb_eq _ _)) by lia; done). split.
  - intros ->. rewrite pop_loop_unfold, Ef, Z.eqb_refl. by rewrite (bind_ok _ _ _ _ _ (dq_enable k h q Hq)).
  - intros Hnz Htime Hctx Hid Hst. rewrite (tc_primask _ _ Hctx).
    destruct (dq_wait_eq idle k1 Q (LDriver (DPop i)) rs from timeout HI1)
      as (to & k' & c & Ew & Hrun & Hw' & Hfr & Hres); [destruct Hctx; by split|done..|].
    exists to, k'. eexists. split; [|split; [exact Hrun|split]].
    + rewrite pop_loop_unfold, Ef, (proj2 (Z.eqb_neq _ _) Hnz).
      unfold bind at 1, krn at 1, kernel at 1 2; cbn [fst snd]; rewrite Ew; cbn [res_kernel res_bind]; reflexivity.
    + split; [done|by rewrite Hfr|done].
    + intros k2 h2 q2 th2 Hq2 Ht2 He. cbn [fst snd]. rewrite (Hres k2 th2 Ht2). cbn [res_kernel res_bind].
      rewrite (proj2 (Z.eqb_neq _ _) He). cbn [negb]. by apply dq_after_wait.
Qed.

(** C27: what [rt_data_queue_pop] does, for a size that divides 65536, or before
    the 16-bit counter of insertions has wrapped around.  From a queue with items
    it takes the oldest.  When more items than the low-water mark are left, the
    queue's function is told of the removal; otherwise the first thread that
    waits to push becomes ready and the scheduler chooses the highest ready
    thread, and then the function is told of the low level.  The level counts as
    low, whatever the number of items, while only the counter of insertions has
    wrapped around.  From an empty queue a call that does not wait is refused
    with [-RT_ETIMEOUT]; a call that waits queues the thread last and gives the
    processor away, and returns the error number it is woken with.
    [rt_data_queue_peak] returns the oldest item and leaves the queue as it is. *)
Theorem dataqueue_pop_takes_oldest idle k h Q i q l ws rs timeout fuel from :
  kinv idle k Q -> quiet k -> k_lock_nest k = 0 -> k_current k = Some from -> dq_at i k (hp_ram h) q l ws rs ->
  match l with
  | x :: l' =>
      let q' := set_get_index (u16 (dq_get_index q + 1)) q in
      let done_with event := notify_event notify event ;! ret (RT_EOK, Some x) in
      rt_data_queue_peak (k, h, q) = Ok (RT_EOK, Some x) (k, h, q) /\
      dq_at i k (hp_ram h) q' l' ws rs /\
      (dq_lwm q < Z.of_nat (length l') -> dq_get_index q' <= dq_put_index q ->
        rt_data_queue_pop notify fuel i timeout (k, h, q) = done_with RT_DATAQUEUE_EVENT_POP (k, h, q')) /\
      (Z.of_nat (length l') <= dq_lwm q \/ dq_put_index q < dq_get_index q' -> match ws with
      | [] => rt_data_queue_pop notify fuel i timeout (k, h, q) = done_with RT_DATAQUEUE_EVENT_LWM (k, h, q')
      | w :: ws' => exists k' Q' p to qs,
          rt_data_queue_pop notify fuel i timeout (k, h, q) =
            res_bind (dq_res h q' (reschedule p to from k')) (fun _ => done_with RT_DATAQUEUE_EVENT_LWM) /\
          kinv idle k' Q' /\ is_highest Q' p /\ Q' p = to :: qs /\
          stat_is (k_threads k') w RT_THREAD_READY /\ dq_at i k' (hp_ram h) q' l' ws' rs
      end)
  | [] =>
      rt_data_queue_peak (k, h, q) = Ok (- RT_EEMPTY, None) (k, h, q) /\
      (timeout = 0 -> rt_data_queue_pop notify fuel i timeout (k, h, q) = Ok (- RT_ETIMEOUT, None) (k, h, q)) /\
      (timeout <> 0 -> timeout < half_tick -> thread_ctx k from -> from <> idle ->
        stat_is (k_threads k) from RT_THREAD_READY -> exists to k' c,
        rt_data_queue_pop notify fuel i timeout (k, h, q) = Switch from to (k', h, q) c /\
        running idle k' to /\ dq_at i k' (hp_ram h) q [] ws (rs ++ [from]) /\
        (forall k2 h2 q2 th2, quiet k2 -> k_threads k2 !! from = Some th2 -> t_error th2 <> RT_EOK ->
          c (k2, h2, q2) = Ok (t_error th2, None) (k2, h2, q2)))
  end.
Proof.
  intros HI Hq Hl Hc Hat. pose proof (da_rep _ _ _ _ _ _ _ Hat) as HR.
  destruct l as [|x l]; (split; [|by eapply pop_empty || by eapply pop_item]).
  - pose proof (dq_put_cases _ _ _ HR) as Hp. pose proof (dq_get_ok _ _ _ HR). simpl in Hp.
    unfold rt_data_queue_peak. rewrite (bind_ok _ _ _ (k_primask k) (set_primask 1 k, h, q)) by done.
    unfold get_q. rewrite bind_gets. cbn [snd]. rewrite (proj2 (Z.eqb_eq (dq_get_index q) _)) by lia.
    by rewrite (bind_ok _ _ _ _ _ (dq_enable k h q Hq)).
  - destruct (dq_left _ _ _ _ HR) as (Hne & _). destruct HR as [Hroom _ _ _ _ _ Hi]. destruct (Hi 0%nat x eq_refl) as [I1 I2].
    replace (dq_get_index q + Z.of_nat 0) with (dq_get_index q) in I1, I2 by lia.
    unfold rt_data_queue_peak. rewrite (bind_ok _ _ _ (k_primask k) (set_primask 1 k, h, q)) by done.
    unfold get_q. rewrite bind_gets. cbn [snd]. rewrite (proj2 (Z.eqb_neq (dq_get_index q) _)) by done.
    rewrite (item_at_slot _ _ _ Hroom).
    rewrite (bind_ok _ _ _ x.1 (set_primask 1 k, h, q)) by (apply mem_ok; unfold ld; by rewrite I1).
    rewrite (bind_ok _ _ _ x.2 (set_primask 1 k, h, q)) by (apply mem_ok; unfold ld; by rewrite I2).
    rewrite (bind_ok _ _ _ _ _ (dq_enable k h q Hq)). by destruct x.
Qed.

(** After 65536 insertions the counter of insertions wraps around, and the
    queue no longer knows that it is full.  A full queue whose insertion counter
    is 0 accepts one more item, although it has no room; it stores it in the
    slot [0], which, when the size divides 65536, is the slot of the oldest
    item. *)
Theorem dataqueue_wrap_loses_item idle k h Q i q x timeout fuel :
  kinv idle k Q -> quiet k -> dq_room (hp_ram h) q ->
  k_links k !! LDriver (DPop i) = Some [] -> 0 <= x.1 < 2 ^ 32 -> 0 <= x.2 < 2 ^ 32 ->
  dq_put_index q = 0 -> dq_get_index q = 2 ^ 16 - dq_size q ->
  exists m', rt_data_queue_push notify fuel i x.1 x.2 timeout (k, h, q) =
      (notify_event notify RT_DATAQUEUE_EVENT_PUSH ;! ret RT_EOK) (k, set_hp_ram m' h, set_put_index 1 q) /\
    item_in m' (dq_queue q) x /\
    ((2 ^ 16) mod dq_size q = 0 -> slot q (dq_get_index q) = dq_queue q).
Proof.
  intros HI Hq HR Hp H1 H2 H0 Hg. pose proof (dr_size _ _ HR).
  set (k1 := set_primask 1 k). assert (kinv idle k1 Q) as HI1 by (eapply kinv_frame; [..|exact HI]; done).
  destruct (dq_put_eq notify idle k1 h Q i q x [] (k_primask k) HI1 HR H1 H2 Hp) as (m' & S & Hx & E).
  assert (slot q 0 = dq_queue q) as Es by (unfold slot; rewrite Z.mod_0_l by lia; lia).
  rewrite H0 in Hx, E. rewrite Es in Hx. exists m'. split; [|split; [done|]].
  - rewrite push_enter by lia. fold k1. rewrite E. rewrite bool_decide_true by done.
    by rewrite (bind_ok _ _ _ _ _ (dq_enable k _ _ Hq)).
  - intros Hd. unfold slot. rewrite Hg, Zminus_mod, Hd, Z_mod_same_full. cbn. rewrite Z.mod_0_l; lia.
Qed.
End pop.

(** ** On the board *)
(** A queue of two items with a low-water mark of one on the heap of the board. *)
Definition no_notify (_ : nat) (_ : Z) : M (kview * heap * rt_data_queue) unit := ret tt.
Definition blank_queue : rt_data_queue := Data_queue 0 0 0 0 0 None.
Definition dq_run {A} (f : M (kview * heap * rt_data_queue) A) (s : kview * heap * rt_data_queue) :=
  default s (first_state (f s)).
Definition dq_empty := dq_run (rt_data_queue_init 0 2 1 None) (heap0, blank_queue).
Definition dq_two := dq_run (rt_data_queue_push no_notify 0 0 11 1 0 ;! rt_data_queue_push no_notify 0 0 22 2 0) dq_empty.

Definition item_b (m : ram) (a : Z) (x : Z * Z) : bool := load_b 4 m a x.1 && load_b 4 m (a + 4) x.2.
Definition room_b (m : ram) (q : rt_data_queue) : bool :=
  bool_decide (0 < dq_size q < 2 ^ 16) && (0 <? dq_queue q) && (dq_queue q + 8 * dq_size q <? 2 ^ 32) &&
  mapped_b m (dq_queue q) (8 * dq_size q).
Definition dq_b (i : nat) (k : kview) (m : ram) (q : rt_data_queue) (l : list (Z * Z)) (ws rs : list nat) : bool :=
  room_b m q && (Z.of_nat (length l) <=? dq_size q) && (0 <=? dq_lwm q) && bool_decide (0 <= dq_get_index q < 2 ^ 16) &&
  (dq_put_index q =? u16 (dq_get_index q + Z.of_nat (length l))) &&
  bool_decide ((2 ^ 16) mod dq_size q = 0 \/ dq_get_index q + Z.of_nat (length l) < 2 ^ 16) &&
  forallb (fun j => match l !! j with
    | Some x => item_b m (slot q (dq_get_index q + Z.of_nat j)) x | None => true end) (seq 0 (length l)) &&
  bool_decide (k_links k !! LDriver (DPush i) = Some (LTlist <$> ws)) &&
  bool_decide (k_links k !! LDriver (DPop i) = Some (LTlist <$> rs)).

Lemma room_b_sound m q : room_b m q = true -> dq_room m q.
Proof.
  unfold room_b. intros [[[H1%bool_decide_eq_true H2%Z.ltb_lt]%andb_true_iff H3%Z.ltb_lt]%andb_true_iff H4]%andb_true_iff.
  split; try done. by apply mapped_b_sound.
Qed.

Lemma dq_b_sound i k m q l ws rs : dq_b i k m q l ws rs = true -> dq_at i k m q l ws rs.
Proof.
  unfold dq_b. intros H. repeat (apply andb_true_iff in H as [H ?]).
  repeat match goal with
  | H : (_ =? _) = true |- _ => apply Z.eqb_eq in H
  | H : (_ <=? _) = true |- _ => apply Z.leb_le in H
  | H : (_ <? _) = true |- _ => apply Z.ltb_lt in H
  | H : bool_decide _ = true |- _ => apply bool_decide_eq_true in H
  end. split; [split|done|done]; try done; [split; try done; by apply mapped_b_sound|].
  intros j x Hj. match goal with H : forallb _ _ = true |- _ => rewrite forallb_forall in H; specialize (H j) end.
  rewrite Hj in *. pose proof (lookup_lt_Some _ _ _ Hj).
  assert (item_b m (slot q (dq_get_index q + Z.of_nat j)) x = true) as Hb by
    (match goal with H : In _ _ -> _ |- _ => apply H, in_seq; lia end).
  unfold item_b, load_b in Hb. apply andb_true_iff in Hb as [?%bool_decide_eq_true ?%bool_decide_eq_true]. by split.
Qed.

Lemma dq_empty_at : dq_b 0 dq_empty.1.1 (hp_ram dq_empty.1.2) dq_empty.2 [] [] [] = true.
Proof. vm_compute. reflexivity. Qed.
Lemma dq_two_at : dq_b 0 dq_two.1.1 (hp_ram dq_two.1.2) dq_two.2 [(11, 1); (22, 2)] [] [] = true.
Proof. vm_compute. reflexivity. Qed.
Lemma dq_kernels : Board.sched_b dq_empty.1.1 && Board.parts_b Board.idle dq_empty.1.1 = true /\
  Board.sched_b dq_two.1.1 && Board.parts_b Board.idle dq_two.1.1 = true.
Proof. split; vm_compute; reflexivity. Qed.
Lemma dq_ctx : thread_ctx dq_empty.1.1 3 /\ thread_ctx dq_two.1.1 3.
Proof. split; split; vm_compute; reflexivity. Qed.

(** A full queue of two items after the insertion counter has wrapped. *)
Definition dq_wrapped : rt_data_queue := Data_queue 2 1 65534 0 (dq_queue dq_two.2) None.
Lemma dq_wrapped_at : dq_b 0 dq_two.1.1 (hp_ram dq_two.1.2) dq_wrapped [(11, 1); (22, 2)] [] [] = true.
Proof. vm_compute. reflexivity. Qed.
Lemma dq_wrapped_room : room_b (hp_ram dq_two.1.2) dq_wrapped = true.
Proof. vm_compute. reflexivity. Qed.

Lemma dq_two_fields : dq_evt_notify dq_two.2 = None /\ dq_get_index dq_two.2 = 0.
Proof. split; vm_compute; reflexivity. Qed.
Lemma notify_none {A} (event : Z) (r : A) (k : kview) h q : dq_evt_notify q = None ->
  (notify_event no_notify event ;! ret r) (k, h, q) = Ok r (k, h, q).
Proof. destruct q. simpl. by intros ->. Qed.

#[local] Opaque dq_empty dq_two.

(** Into the empty queue an item goes in; the full one refuses a third item,
    but after the wrap it takes it. *)
Example dataqueue_push_appends_witness :
  (exists m', rt_data_queue_push no_notify 0 0 33 3 0 (dq_empty.1.1, dq_empty.1.2, dq_empty.2) =
    (notify_event no_notify RT_DATAQUEUE_EVENT_PUSH ;! ret RT_EOK)
      (dq_empty.1.1, set_hp_ram m' dq_empty.1.2, set_put_index (u16 (dq_put_index dq_empty.2 + 1)) dq_empty.2)) /\
  rt_data_queue_push no_notify 0 0 33 3 0 (dq_two.1.1, dq_two.1.2, dq_two.2) =
    Ok (- RT_ETIMEOUT) (dq_two.1.1, dq_two.1.2, dq_two.2) /\
  (exists m', item_in m' (slot dq_wrapped 65534) (33, 3) /\
    rt_data_queue_push no_notify 0 0 33 3 0 (dq_two.1.1, dq_two.1.2, dq_wrapped) =
    (notify_event no_notify RT_DATAQUEUE_EVENT_PUSH ;! ret RT_EOK)
      (dq_two.1.1, set_hp_ram m' dq_two.1.2, set_put_index 1 dq_wrapped)).
Proof.
  split; [|split].
  - destruct (dataqueue_push_appends no_notify Board.idle dq_empty.1.1 dq_empty.1.2 (Board.queues_of dq_empty.1.1) 0
      dq_empty.2 [] [] [] (33, 3) 0 0 3) as (H & _).
    + exact (Board.kinv_b_sound _ _ (proj1 dq_kernels)).
    + exact (ctx_quiet _ _ (proj1 dq_ctx)).
    + exact (tc_lock _ _ (proj1 dq_ctx)).
    + exact (tc_current _ _ (proj1 dq_ctx)).
    + apply dq_b_sound, dq_empty_at.
    + split; done.
    + split; done.
    + destruct H as (m' & _ & E); [vm_compute; reflexivity|left; vm_compute; reflexivity|].
      exists m'. exact E.
  - destruct (dataqueue_push_appends no_notify Board.idle dq_two.1.1 dq_two.1.2 (Board.queues_of dq_two.1.1) 0
      dq_two.2 [(11, 1); (22, 2)] [] [] (33, 3) 0 0 3) as (_ & H & _).
    + exact (Board.kinv_b_sound _ _ (proj2 dq_kernels)).
    + exact (ctx_quiet _ _ (proj2 dq_ctx)).
    + exact (tc_lock _ _ (proj2 dq_ctx)).
    + exact (tc_current _ _ (proj2 dq_ctx)).
    + apply dq_b_sound, dq_two_at.
    + split; done.
    + split; done.
    + apply H; [vm_compute; reflexivity|vm_compute; discriminate|done].
  - destruct (dataqueue_push_appends no_notify Board.idle dq_two.1.1 dq_two.1.2 (Board.queues_of dq_two.1.1) 0
      dq_wrapped [(11, 1); (22, 2)] [] [] (33, 3) 0 0 3) as (_ & _ & _ & H).
    + exact (Board.kinv_b_sound _ _ (proj2 dq_kernels)).
    + exact (ctx_quiet _ _ (proj2 dq_ctx)).
    + exact (tc_lock _ _ (proj2 dq_ctx)).
    + exact (tc_current _ _ (proj2 dq_ctx)).
    + apply dq_b_sound, dq_wrapped_at.
    + split; done.
    + split; done.
    + destruct H as (m' & Hx & E); [reflexivity|reflexivity|reflexivity|]. exists m'. split; [exact Hx|exact E].
Defined.

(** The older of the two items; the queue is left at its low-water mark. *)
Example dataqueue_pop_takes_oldest_witness :
  rt_data_queue_peak (dq_two.1.1, dq_two.1.2, dq_two.2) = Ok (RT_EOK, Some (11, 1)) (dq_two.1.1, dq_two.1.2, dq_two.2) /\
  rt_data_queue_pop no_notify 0 0 0 (dq_two.1.1, dq_two.1.2, dq_two.2) =
    Ok (RT_EOK, Some (11, 1)) (dq_two.1.1, dq_two.1.2, set_get_index 1 dq_two.2) /\
  rt_data_queue_pop no_notify 0 0 0 (dq_two.1.1, dq_two.1.2, dq_wrapped) =
    Ok (RT_EOK, Some (11, 1)) (dq_two.1.1, dq_two.1.2, set_get_index 65535 dq_wrapped) /\
  rt_data_queue_pop no_notify 0 0 0 (dq_empty.1.1, dq_empty.1.2, dq_empty.2) =
    Ok (- RT_ETIMEOUT, None) (dq_empty.1.1, dq_empty.1.2, dq_empty.2).
Proof.
  destruct (dataqueue_pop_takes_oldest no_notify Board.idle dq_two.1.1 dq_two.1.2 (Board.queues_of dq_two.1.1) 0
      dq_two.2 [(11, 1); (22, 2)] [] [] 0 0 3) as (H1 & _ & _ & H2).
  - exact (Board.kinv_b_sound _ _ (proj2 dq_kernels)).
  - exact (ctx_quiet _ _ (proj2 dq_ctx)).
  - exact (tc_lock _ _ (proj2 dq_ctx)).
  - exact (tc_current _ _ (proj2 dq_ctx)).
  - apply dq_b_sound, dq_two_at.
  - split; [exact H1|]. split.
    { rewrite H2 by (left; vm_compute; discriminate). rewrite (proj2 dq_two_fields). apply notify_none, dq_two_fields. } split.
    + destruct (dataqueue_pop_takes_oldest no_notify Board.idle dq_two.1.1 dq_two.1.2 (Board.queues_of dq_two.1.1) 0
        dq_wrapped [(11, 1); (22, 2)] [] [] 0 0 3) as (_ & _ & _ & H).
      * exact (Board.kinv_b_sound _ _ (proj2 dq_kernels)).
      * exact (ctx_quiet _ _ (proj2 dq_ctx)).
      * exact (tc_lock _ _ (proj2 dq_ctx)).
      * exact (tc_current _ _ (proj2 dq_ctx)).
      * apply dq_b_sound, dq_wrapped_at.
      * rewrite H by (right; reflexivity). by apply notify_none.
    + destruct (dataqueue_pop_takes_oldest no_notify Board.idle dq_empty.1.1 dq_empty.1.2 (Board.queues_of dq_empty.1.1) 0
        dq_empty.2 [] [] [] 0 0 3) as (_ & H & _).
      * exact (Board.kinv_b_sound _ _ (proj1 dq_kernels)).
      * exact (ctx_quiet _ _ (proj1 dq_ctx)).
      * exact (tc_lock _ _ (proj1 dq_ctx)).
      * exact (tc_current _ _ (proj1 dq_ctx)).
      * apply dq_b_sound, dq_empty_at.
      * by apply H.
Defined.

Example dataqueue_wrap_loses_item_witness :
  slot dq_wrapped 65534 = dq_queue dq_wrapped /\
  exists m', rt_data_queue_push no_notify 0 0 33 3 0 (dq_two.1.1, dq_two.1.2, dq_wrapped) =
    (notify_event no_notify RT_DATAQUEUE_EVENT_PUSH ;! ret RT_EOK)
      (dq_two.1.1, set_hp_ram m' dq_two.1.2, set_put_index 1 dq_wrapped).
Proof.
  destruct (dataqueue_wrap_loses_item no_notify Board.idle dq_two.1.1 dq_two.1.2 (Board.queues_of dq_two.1.1) 0
    dq_wrapped (33, 3) 0 0) as (m' & E & _ & Hs).
  - exact (Board.kinv_b_sound _ _ (proj2 dq_kernels)).
  - exact (ctx_quiet _ _ (proj2 dq_ctx)).
  - apply room_b_sound, dq_wrapped_room.
  - exact (da_pop _ _ _ _ _ _ _ (dq_b_sound _ _ _ _ _ _ _ dq_two_at)).
  - split; done.
  - split; done.
  - reflexivity.
  - reflexivity.
  - split; [apply Hs; reflexivity|]. exists m'. exact E.
Defined.
End DataQueueTheorems.
