(* ===== verification/MemPoolTheorems.v ===== *)
(** * Memory pools: the list of free blocks, allocation, release

    [pool_rep m r free]: the free blocks of pool [r] in memory [m] are [free],
    each linked to the next by the word it begins with. *)
From S2P Require Import Prelude Kservice Ram RtList KMonad KState KPrim KInv Scheduler Object TimerBase Thread Timer Ipc IpcMsg Mem MemPool KernelInv ObjectProof WaitProof TimerProof BlockProof Board SchedTheorems MemProof MemSpec MemTheorems.
Import Kservice Scheduler Object ObjectProof SchedTheorems TimerBase Thread Timer IpcCore Mailbox Ram Mem MemPool MemProof MemSpec MemTheorems.
Local Open Scope Z_scope.
Local Open Scope kmonad_scope.

Module MemPoolTheorems.

(** ** Representation *)
Fixpoint chain (m : ram) (a : Z) (bs : list Z) : Prop :=
  match bs with
  | [] => a = 0
  | b :: bs => a = b /\ exists n, load 4 m b = Some n /\ chain m n bs
  end.

Definition stride (r : rt_mempool) : Z := mp_block_size r + 4.
Definition is_block (r : rt_mempool) (b : Z) : Prop :=
  exists i, 0 <= i < mp_block_total_count r /\ b = mp_start_address r + i * stride r.

Record pool_rep (m : ram) (r : rt_mempool) (free : list Z) : Prop := {
  pr_size : 0 <= mp_block_size r;
  pr_base : 0 < mp_start_address r;
  pr_top : mp_start_address r + mp_block_total_count r * stride r < 2 ^ 32;
  pr_mapped : mapped m (mp_start_address r) (mp_block_total_count r * stride r);
  pr_chain : chain m (mp_block_list r) free;
  pr_blocks : Forall (is_block r) free;
  pr_nodup : NoDup free;
  pr_count : mp_block_free_count r = Z.of_nat (length free);
  pr_bound : Z.of_nat (length free) < 2 ^ 32 - 1;
}.

(** Pool [i] with the free blocks [free] and the waiting threads [ws]. *)
Record pool_at (i : nat) (k : kview) (h : heap) (r : rt_mempool) (free : list Z) (ws : list nat) : Prop := {
  pa_pool : k_mps k !! i = Some r;
  pa_rep : pool_rep (hp_ram h) r free;
  pa_wait : k_links k !! LSuspend (IMp i) = Some (LTlist <$> ws);
}.

Lemma block_range m r free b :
  pool_rep m r free -> is_block r b ->
  0 < b /\ b + 4 < 2 ^ 32 /\ mapped m b 4.
Proof.
  intros [Hs Hb Ht HM _ _ _ _ _] (i & Hi & ->). unfold stride in *.
  assert (i * (mp_block_size r + 4) + (mp_block_size r + 4) <= mp_block_total_count r * (mp_block_size r + 4)) by nia.
  assert (0 <= i * (mp_block_size r + 4)) by nia.
  split; [lia|]. split; [lia|]. eapply mapped_sub; [exact HM|lia|lia].
Qed.

Lemma blocks_apart r a b :
  0 <= mp_block_size r -> is_block r a -> is_block r b -> a <> b -> a + 4 <= b \/ b + 4 <= a.
Proof.
  intros Hs (i & _ & ->) (j & _ & ->) Hne. unfold stride in *.
  assert (i < j \/ j < i) as [Hij|Hij] by (destruct (Z.lt_trichotomy i j) as [?|[->|?]]; [by left|done|by right]);
    [left|right]; nia.
Qed.

Lemma chain_frame m m' a bs :
  chain m a bs -> (forall b, b ∈ bs -> load 4 m' b = load 4 m b) -> chain m' a bs.
Proof.
  revert a. induction bs as [|b bs IH]; intros a; simpl; [done|].
  intros (-> & n & E & Hc) H. split; [done|]. exists n. split; [rewrite H by set_solver; done|].
  apply IH; [done|]. intros x Hx. apply H. set_solver.
Qed.

(** Storing a word at a block that is not in the list. *)
Lemma store_block m r free b v :
  pool_rep m r free -> is_block r b -> exists m', store 4 m b v = Some m' /\
    (forall a bs, Forall (is_block r) bs -> b ∉ bs -> chain m a bs -> chain m' a bs) /\
    mapped m' (mp_start_address r) (mp_block_total_count r * stride r).
Proof.
  intros HR Hb. destruct (block_range m r free b HR Hb) as (H1 & H2 & H3).
  destruct (store_stored 4 m b v) as (m' & E & S); [exact H3|].
  exists m'. split; [done|]. split; [|apply S, HR].
  intros a bs Hbs Hnin Hc. eapply chain_frame; [exact Hc|]. intros x Hx.
  eapply Forall_forall in Hbs; [|exact Hx].
  eapply load_store_other; [exact E|]. cbn [Z.of_nat].
  destruct (blocks_apart r x b (pr_size _ _ _ HR) Hbs Hb) as [?|?]; [set_solver|lia|lia].
Qed.

(** ** Allocation *)
Definition taken_from (r : rt_mempool) (next : Z) : rt_mempool :=
  set_mp_block_list next (set_mp_block_free_count (mp_block_free_count r - 1) r).

Definition put_pool (i : nat) (r : rt_mempool) (k : kview) : kview := set_mps (<[i := r]> (k_mps k)) k.

Lemma mp_take_eq k h i r b free level :
  k_mps k !! i = Some r -> pool_rep (hp_ram h) r (b :: free) -> quiet (set_primask level k) ->
  exists next m', mp_take i level (k, h) =
      Ok (b + 4) (set_primask level (put_pool i (taken_from r next) k), set_hp_ram m' h) /\
    store 4 (hp_ram h) b (Z.of_nat i) = Some m' /\ pool_rep m' (taken_from r next) free.
Proof.
  intros Hr HR Hq. pose proof HR as [Hs Hb Ht HM Hc Hbl Hnd Hn Hlt]. simpl in Hc, Hn, Hlt.
  destruct Hc as (Hbl0 & next & Hld & Hc). apply Forall_cons in Hbl as [Hb0 Hbl]. apply NoDup_cons in Hnd as [Hnin Hnd].
  destruct (block_range _ _ _ _ HR Hb0) as (B1 & B2 & B3).
  destruct (store_block _ _ _ b (Z.of_nat i) HR Hb0) as (m' & E & Hch & HM').
  exists next, m'. split; [|split; [exact E|]].
  - unfold mp_take, upd_mp, get_mp, put_mp, kernel, on_heap, ld, st, ram_op, bind, gets, modify, ret. simpl.
    rewrite Hr. simpl. rewrite lookup_insert_eq. simpl. rewrite Hbl0.
    rewrite (proj2 (Z.eqb_neq b 0)) by lia. simpl. rewrite Hld. simpl. rewrite lookup_insert_eq. simpl.
    rewrite E. simpl. rewrite interrupt_enable_quiet by exact Hq. simpl.
    unfold ret. rewrite (u32_small (b + sizeof_ptr)) by (unfold sizeof_ptr; lia).
    rewrite (u32_small (mp_block_free_count r - 1)) by lia.
    unfold put_pool, taken_from. simpl. by rewrite !insert_insert_eq.
  - split; try done; simpl; [|lia|lia]. by apply Hch.
Qed.

(** The count of waiting threads goes up when a thread waits. *)
Definition one_more (r : rt_mempool) : rt_mempool :=
  set_mp_suspend_thread_count (u32 (mp_suspend_thread_count r + 1)) r.

Lemma pool_rep_count m r free n : pool_rep m r free -> pool_rep m (set_mp_suspend_thread_count n r) free.
Proof. intros [? ? ? ? ? ? ? ? ?]. by split. Qed.

Lemma kinv_put_pool idle k Q i r : kinv idle k Q -> kinv idle (put_pool i r k) Q.
Proof. intros HI. eapply kinv_frame; [..|exact HI]; done. Qed.

(** The waiting sequence: the thread leaves the processor, first in the list. *)
Lemma mp_wait_eq idle k Q i r ws t th time :
  kinv idle k Q -> thread_ctx (set_primask 0 k) t -> k_primask k = 1 ->
  k_mps k !! i = Some r -> k_links k !! LSuspend (IMp i) = Some (LTlist <$> ws) ->
  k_threads k !! t = Some th -> thread_stat th = RT_THREAD_READY -> t <> idle -> time < half_tick ->
  exists to k' c,
    mp_wait_round i t time 0 k = Switch t to k' c /\ guar idle t to k' /\
    stat_is (k_threads k') t RT_THREAD_SUSPEND /\
    k_mps k' = <[i := one_more r]> (k_mps k) /\
    k_links k' !! LSuspend (IMp i) = Some (LTlist <$> t :: ws) /\
    (forall k2 th2, k_threads k2 !! t = Some th2 -> t_error th2 <> RT_EOK -> c k2 = Ok (inl (t_error th2)) k2).
Proof.
  intros HI Hc Hpm Hr Hw Ht Hst Hid Htime.
  destruct (suspend_ok idle k Q t th HI) as (V & T & G & tr & E1 & HI1 & Htr & Hl & Hfr); [by apply quiet_masked|done..|].
  set (k1 := core _ _ _ _ _ _) in E1, HI1.
  destruct (wait_push_ok idle k1 _ (LSuspend (IMp i)) ws t (make_suspended th) HI1) as (V2 & E2 & HI2 & Hw2 & Hch);
    [done|by rewrite <-Hw; apply Hfr|done|apply lookup_insert_eq|apply stat_suspended|].
  set (k2 := set_links V2 k1) in E2, HI2.
  set (k3 := put_pool i (one_more r) k2). assert (kinv idle k3 (q_set Q (t_current_priority th) (drop_node t (Q (t_current_priority th))))) as HI3 by (by apply kinv_put_pool).
  set (rest := fun before_sleep : Z => (let! th := get_thread t in
    if negb (th.(t_error) =? RT_EOK) then ret (inl th.(t_error))
    else let! time := remaining_timeout time before_sleep in
      let! level := rt_hw_interrupt_disable in ret (inr (level, time)))%M : M kview (Z + Z * Z)).
  set (start := if 0 <? time then k_tick k else 0).
  destruct (park_eq (rest start) idle k3 _ t (make_suspended th) (timer_flag_clear RT_TIMER_FLAG_ACTIVATED tr) time HI3)
    as (V4 & TM & n & p & to & E4 & Hg & Hfr4);
    [destruct Hc; by split|done|apply lookup_insert_eq|apply stat_suspended|apply lookup_insert_eq|by apply flag_clear_test|done|].
  eexists to, _, _. split; [|split; [exact Hg|split; [|split; [done|split]]]].
  - unfold mp_wait_round. rewrite (bind_ok _ _ _ _ _ E1), (bind_ok _ _ _ _ _ E2).
    rewrite (bind_ok (upd_mp i _) _ k2 tt k3)
      by (unfold upd_mp, get_mp, put_mp, bind, gets, modify; simpl; by rewrite Hr).
    rewrite (bind_ok _ _ _ start k3) by (unfold start; by destruct (0 <? time)). exact E4.
  - exists (make_suspended th). split; [apply lookup_insert_eq|apply stat_suspended].
  - cbn [switched k_links core set_links set_ready_group set_ready_table].
    rewrite <-Hw2. by apply Hfr4.
  - intros k5 th2 Ht2 He. unfold rest, get_thread, bind, gets. simpl. rewrite Ht2. simpl.
    by rewrite (proj2 (Z.eqb_neq _ _) He).
Qed.

Lemma alloc_enter k h fuel i time :
  rt_mp_alloc fuel i time (k, h) = mp_alloc_loop fuel i (k_current k) time (k_primask k) (set_primask 1 k, h).
Proof. done. Qed.

Lemma get_mp_ok i (k : kview) r (h : heap) : k_mps k !! i = Some r -> kernel (get_mp i) (k, h) = Ok r (k, h).
Proof. intros Hr. apply kernel_ok. unfold get_mp, bind, gets. simpl. by rewrite Hr. Qed.

Lemma upd_mp_ok i f (k : kview) r : k_mps k !! i = Some r -> upd_mp i f k = Ok tt (put_pool i (f r) k).
Proof. intros Hr. unfold upd_mp, get_mp, put_mp, bind, gets, modify. simpl. by rewrite Hr. Qed.

Lemma alloc_loop_take fuel k h i r thread time level :
  k_mps k !! i = Some r -> mp_block_free_count r <> 0 ->
  mp_alloc_loop fuel i thread time level (k, h) = mp_take i level (k, h).
Proof.
  intros Hr Hn.
  destruct fuel; cbn [mp_alloc_loop]; rewrite (bind_ok _ _ _ _ _ (get_mp_ok i k r h Hr));
    by rewrite (proj2 (Z.eqb_neq _ _) Hn).
Qed.

(** A pool without free blocks makes the thread wait. *)
Lemma alloc_loop_wait fuel idle k h Q i r ws t th time :
  kinv idle k Q -> thread_ctx k t -> k_mps k !! i = Some r -> mp_block_free_count r = 0 ->
  k_links k !! LSuspend (IMp i) = Some (LTlist <$> ws) ->
  k_threads k !! t = Some th -> thread_stat th = RT_THREAD_READY -> t <> idle ->
  time <> 0 -> time < half_tick ->
  exists to k' c,
    mp_alloc_loop fuel i (Some t) time 0 (set_primask 1 k, h) = Switch t to (k', h) c /\
    running idle k' to /\ stat_is (k_threads k') t RT_THREAD_SUSPEND /\
    k_mps k' = <[i := one_more r]> (k_mps k) /\
    k_links k' !! LSuspend (IMp i) = Some (LTlist <$> t :: ws) /\
    (forall k2 h2 th2, k_threads k2 !! t = Some th2 -> t_error th2 <> RT_EOK -> c (k2, h2) = Ok 0 (k2, h2)).
Proof.
  intros HI Hc Hr Hn Hw Ht Hst Hid Hnz Htime.
  set (k1 := set_threads (<[t := set_t_error RT_EOK th]> (k_threads k)) (set_primask 1 k)).
  assert (kinv idle (set_primask 1 k) Q) as HI0 by (eapply kinv_frame; [..|exact HI]; done).
  assert (kinv idle k1 Q) as HI1 by (by apply (kinv_field idle (set_primask 1 k) Q t th)).
  destruct (mp_wait_eq idle k1 Q i r ws t (set_t_error RT_EOK th) time HI1) as (to & k' & c & E & Hg & Hs & Hmp & Hl & Hres);
    [destruct Hc; by split|done|done|done|apply lookup_insert_eq|done|done|done|].
  exists to, k'. eexists. split; [|split; [apply Hg|split; [done|split; [done|split; [done|]]]]].
  - assert (forall f, mp_alloc_loop f i (Some t) time 0 (set_primask 1 k, h) =
      bind (kernel (mp_wait_round i t time 0)) (fun w => match w, f with
        | inl _, _ => ret 0 | inr _, O => fail Out_of_fuel
        | inr (level, time), S f => mp_alloc_loop f i (Some t) time level end) (k1, h)) as Ef.
    { intros f. destruct f; cbn [mp_alloc_loop];
        rewrite (bind_ok _ _ _ _ _ (get_mp_ok i (set_primask 1 k) r h Hr)), Hn; cbn [negb Z.eqb];
        rewrite (proj2 (Z.eqb_neq _ _) Hnz);
        rewrite (bind_ok _ _ _ _ _ (kernel_ok RT_DEBUG_NOT_IN_INTERRUPT _ _ _ _
          (not_in_interrupt_ok (set_primask 1 k) (quiet_masked (set_primask 1 k) eq_refl) (tc_nest _ _ Hc))));
        unfold lift_opt; rewrite bind_ret;
        (rewrite (bind_ok _ _ _ tt (k1, h));
          [done|apply kernel_ok; unfold upd_thread, get_thread, put_thread, bind, gets, modify; simpl; by rewrite Ht]). }
    rewrite Ef. unfold bind, kernel. cbn [fst snd]. rewrite E. cbn [res_kernel res_bind]. reflexivity.
  - intros k2 h2 th2 Ht2 He. cbn [fst snd]. rewrite (Hres k2 th2 Ht2 He). by destruct fuel.
Qed.

(** ** Allocation *)
(** C23: what [rt_mp_alloc] does.  From a pool with free blocks it takes the first:
    the result is the address behind the block's link, the block is marked with
    its pool, the other free blocks keep their order, and the kernel is otherwise
    as before.  From an empty pool a call that does not wait returns null with
    the error number [-RT_ETIMEOUT]; a call that waits suspends the thread at the
    front of the pool's waiting list and gives the processor away, and returns
    null if the thread is resumed with an error. *)
Theorem mp_alloc_behaviour idle k h Q i r free ws t th time fuel :
  kinv idle k Q -> thread_ctx k t -> pool_at i k h r free ws -> k_threads k !! t = Some th ->
  thread_stat th = RT_THREAD_READY -> t <> idle -> time < half_tick ->
  match free with
  | b :: free' => exists next m',
      rt_mp_alloc fuel i time (k, h) = Ok (b + 4) (put_pool i (taken_from r next) k, set_hp_ram m' h) /\
      store 4 (hp_ram h) b (Z.of_nat i) = Some m' /\
      pool_at i (put_pool i (taken_from r next) k) (set_hp_ram m' h) (taken_from r next) free' ws
  | [] =>
      (time = 0 -> rt_mp_alloc fuel i time (k, h) =
        Ok 0 (set_threads (<[t := set_t_error (- RT_ETIMEOUT) th]> (k_threads k)) k, h)) /\
      (time <> 0 -> exists to k' c,
        rt_mp_alloc fuel i time (k, h) = Switch t to (k', h) c /\ running idle k' to /\
        stat_is (k_threads k') t RT_THREAD_SUSPEND /\ pool_at i k' h (one_more r) [] (t :: ws) /\
        forall k2 h2 th2, k_threads k2 !! t = Some th2 -> t_error th2 <> RT_EOK -> c (k2, h2) = Ok 0 (k2, h2))
  end.
Proof.
  intros HI Hc [Hr HR Hw] Ht Hst Hid Htime. rewrite alloc_enter.
  rewrite (tc_current _ _ Hc), (tc_primask _ _ Hc). destruct free as [|b free]; [split|].
  - intros ->. assert (Z.of_nat (length (@nil Z)) = 0) as E0 by done. rewrite <-(pr_count _ _ _ HR) in E0.
    assert (kernel (rt_hw_interrupt_enable 0) (set_primask 1 k, h) = Ok tt (k, h)) as E1.
    { apply kernel_ok. rewrite interrupt_enable_quiet by (by intros ? ?; apply Hc). f_equal.
      rewrite <-(tc_primask _ _ Hc). by destruct k. }
    assert (kernel (rt_set_errno (- RT_ETIMEOUT)) (k, h) =
      Ok tt (set_threads (<[t := set_t_error (- RT_ETIMEOUT) th]> (k_threads k)) k, h)) as E2.
    { apply kernel_ok. unfold rt_set_errno, rt_interrupt_get_nest, rt_thread_self, bind, gets, ret. simpl.
      rewrite (tc_nest _ _ Hc). simpl. unfold bind, gets. rewrite (tc_current _ _ Hc). simpl.
      unfold upd_thread, get_thread, put_thread, bind, gets, modify. simpl. by rewrite Ht. }
    destruct fuel; cbn [mp_alloc_loop]; rewrite (bind_ok _ _ _ _ _ (get_mp_ok i (set_primask 1 k) r h Hr)), E0;
      cbn [negb Z.eqb]; by rewrite (bind_ok _ _ _ _ _ E1), (bind_ok _ _ _ _ _ E2).
  - intros Hnz. destruct (alloc_loop_wait fuel idle k h Q i r ws t th time)
      as (to & k' & c & E & Hg & Hs & Hmp & Hl & Hres); [done..| |done|done|done|done|done|done|].
    { by rewrite (pr_count _ _ _ HR). }
    exists to, k', c. split; [exact E|]. split; [exact Hg|]. split; [exact Hs|]. split; [|exact Hres].
    split; [rewrite Hmp; apply lookup_insert_eq|by apply pool_rep_count|exact Hl].
  - rewrite (alloc_loop_take _ _ _ _ r) by (done || (rewrite (pr_count _ _ _ HR); simpl; lia)).
    destruct (mp_take_eq (set_primask 1 k) h i r b free 0 Hr HR) as (next & m' & E & Es & HR').
    { exact (ctx_quiet (set_primask 0 k) t ltac:(destruct Hc; by split)). }
    exists next, m'. assert (set_primask 0 (put_pool i (taken_from r next) (set_primask 1 k)) =
      put_pool i (taken_from r next) k) as Ek by (rewrite <-(tc_primask _ _ Hc); by destruct k).
    rewrite Ek in E. split; [exact E|]. split; [exact Es|].
    split; [apply lookup_insert_eq|exact HR'|exact Hw].
Qed.

(** ** Release *)
Definition given_back (r : rt_mempool) (b : Z) : rt_mempool :=
  set_mp_block_list b (set_mp_block_free_count (mp_block_free_count r + 1) r).
Definition one_less (r : rt_mempool) : rt_mempool :=
  set_mp_suspend_thread_count (u32 (mp_suspend_thread_count r - 1)) r.

Lemma pool_rep_give m r free b :
  pool_rep m r free -> is_block r b -> b ∉ free -> Z.of_nat (length free) < 2 ^ 32 - 2 ->
  exists m', store 4 m b (mp_block_list r) = Some m' /\ pool_rep m' (given_back r b) (b :: free).
Proof.
  intros HR Hb Hnin Hlt. destruct (store_block _ _ _ b (mp_block_list r) HR Hb) as (m' & E & Hch & HM').
  pose proof HR as [Hs Hba Ht HM Hc Hbl Hnd Hn Hbd].
  assert (0 <= mp_block_list r < 2 ^ 32) as Hrange.
  { destruct free as [|b0 free]; simpl in Hc; [lia|]. destruct Hc as [-> _].
    apply Forall_cons in Hbl as [Hb0 _]. destruct (block_range _ _ _ _ HR Hb0) as (? & ? & _). lia. }
  exists m'. split; [exact E|]. split; try done; simpl; [|by constructor|by constructor|lia|lia].
  split; [done|]. exists (mp_block_list r). split; [|by apply Hch].
  rewrite (load_store_same _ _ _ _ _ E). by rewrite Z.mod_small.
Qed.

Lemma free_enter k h i r free b :
  k_mps k !! i = Some r -> pool_rep (hp_ram h) r free -> is_block r b -> b ∉ free ->
  load 4 (hp_ram h) b = Some (Z.of_nat i) -> Z.of_nat (length free) < 2 ^ 32 - 2 ->
  exists m', pool_rep m' (given_back r b) (b :: free) /\
    rt_mp_free (b + 4) (k, h) =
      (if 0 <? mp_suspend_thread_count r
       then kernel (mp_wake_first i RT_EOK ;! rt_hw_interrupt_enable (k_primask k) ;! rt_schedule)
       else kernel (rt_hw_interrupt_enable (k_primask k)))
      (put_pool i (given_back r b) (set_primask 1 k), set_hp_ram m' h).
Proof.
  intros Hr HR Hb Hnin Hld Hlt. destruct (pool_rep_give _ _ _ b HR Hb Hnin Hlt) as (m' & E & HR').
  destruct (block_range _ _ _ _ HR Hb) as (B1 & B2 & _). pose proof (pr_count _ _ _ HR) as Hn.
  exists m'. split; [exact HR'|]. unfold rt_mp_free.
  replace (u32 (b + 4 - sizeof_ptr)) with b by (unfold sizeof_ptr; rewrite u32_small; lia).
  rewrite (bind_ok _ _ _ (Z.of_nat i) (k, h)) by (apply on_heap_ok; unfold ld; by rewrite Hld).
  rewrite Nat2Z.id. rewrite (bind_ok _ _ _ (k_primask k) (set_primask 1 k, h)) by done.
  set (r1 := set_mp_block_free_count (mp_block_free_count r + 1) r).
  rewrite (bind_ok _ _ _ tt (put_pool i r1 (set_primask 1 k), h)).
  2:{ apply kernel_ok. unfold upd_mp, get_mp, put_mp, bind, gets, modify. simpl. rewrite Hr. simpl.
      rewrite u32_small by lia. done. }
  rewrite (bind_ok _ _ _ _ _ (get_mp_ok i _ r1 _ (lookup_insert_eq _ _ _))).
  rewrite (bind_ok _ _ _ tt (put_pool i r1 (set_primask 1 k), set_hp_ram m' h)).
  2:{ apply on_heap_ok. unfold st, ram_op. change (mp_block_list r1) with (mp_block_list r). by rewrite E. }
  rewrite (bind_ok _ _ _ tt (put_pool i (given_back r b) (set_primask 1 k), set_hp_ram m' h)).
  2:{ apply kernel_ok. unfold upd_mp, get_mp, put_mp, bind, gets, modify. simpl. rewrite lookup_insert_eq. simpl.
      unfold put_pool. simpl. by rewrite insert_insert_eq. }
  rewrite (bind_ok _ _ _ _ _ (get_mp_ok i _ (given_back r b) _ (lookup_insert_eq _ _ _))).
  change (mp_suspend_thread_count (given_back r b)) with (mp_suspend_thread_count r).
  by destruct (0 <? mp_suspend_thread_count r).
Qed.

(** C24: what [rt_mp_free] does with a used block of a pool, in a thread or in a
    handler.  The block becomes the first free block and the free count goes up.
    With a waiting thread, the thread that waits first in the list becomes ready
    without an error and the scheduler chooses the highest ready thread.  But
    the count of waiting threads, which decides whether there is one, is not
    decremented when a waiting thread times out ([rt_mp_alloc] returns without
    doing it): with a count left over and nobody in the list the function takes
    the list's head for a thread. *)
Theorem mp_free_behaviour idle k h Q i r free ws b from :
  kinv idle k Q -> quiet k -> k_lock_nest k = 0 -> k_current k = Some from ->
  pool_at i k h r free ws -> is_block r b -> b ∉ free -> Z.of_nat (length free) < 2 ^ 32 - 2 ->
  load 4 (hp_ram h) b = Some (Z.of_nat i) ->
  (mp_suspend_thread_count r <= 0 -> exists m',
    rt_mp_free (b + 4) (k, h) = Ok tt (put_pool i (given_back r b) k, set_hp_ram m' h) /\
    pool_at i (put_pool i (given_back r b) k) (set_hp_ram m' h) (given_back r b) (b :: free) ws) /\
  (forall w ws', 0 < mp_suspend_thread_count r -> ws = w :: ws' -> exists m' k' Q' p to q,
    rt_mp_free (b + 4) (k, h) = res_kernel (set_hp_ram m' h) (reschedule p to from k') /\
    kinv idle k' Q' /\ is_highest Q' p /\ Q' p = to :: q /\
    (exists th, k_threads k' !! w = Some th /\ thread_stat th = RT_THREAD_READY /\ t_error th = RT_EOK) /\
    pool_at i k' (set_hp_ram m' h) (one_less (given_back r b)) (b :: free) ws') /\
  (0 < mp_suspend_thread_count r -> ws = [] -> rt_mp_free (b + 4) (k, h) = Err Bad_pointer).
Proof.
  intros HI Hq Hl Hc [Hr HR Hw] Hb Hnin Hlt Hld.
  destruct (free_enter k h i r free b Hr HR Hb Hnin Hld Hlt) as (m' & HR' & E).
  set (k1 := put_pool i (given_back r b) (set_primask 1 k)) in E.
  assert (set_primask (k_primask k) k1 = put_pool i (given_back r b) k) as Ek by (by destruct k).
  assert (kinv idle k1 Q) as HI1 by (eapply kinv_frame; [..|exact HI]; done).
  split; [|split].
  - intros Hz. rewrite (proj2 (Z.ltb_ge _ _) Hz) in E. exists m'. split.
    + rewrite E. apply kernel_ok. rewrite interrupt_enable_quiet by (rewrite Ek; exact Hq). by rewrite Ek.
    + split; [apply lookup_insert_eq|exact HR'|exact Hw].
  - intros w ws' Hpos ->. rewrite (proj2 (Z.ltb_lt _ _) Hpos) in E.
    destruct (wake_error_ok idle k1 Q (LSuspend (IMp i)) w ws' RT_EOK HI1)
      as (V & T & G & tr & th & a & Ht & Hst & En & Eu & Er & HI2 & HV & Hfr); [by apply quiet_masked|done|exact Hw|].
    set (k2 := core _ _ _ _ _ _) in Er, HI2. set (k3 := put_pool i (one_less (given_back r b)) k2).
    set (k4 := set_primask (k_primask k) k3).
    assert (exists Q', kinv idle k4 Q') as [Q' HI4] by (eexists; eapply kinv_frame; [..|exact HI2]; done).
    destruct (kinv_schedule idle k4 Q' from HI4 Hq Hl Hc) as (p & to & q & Hp & HQ & Es).
    exists m', k4, Q', p, to, q. split; [|split; [exact HI4|split; [exact Hp|split; [exact HQ|split]]]].
    + rewrite E. unfold kernel. cbn [fst snd]. f_equal.
      rewrite (bind_ok (mp_wake_first i RT_EOK) _ k1 tt k3).
      * rewrite (bind_ok (rt_hw_interrupt_enable (k_primask k)) _ k3 tt k4); [exact Es|].
        rewrite interrupt_enable_quiet by exact Hq. done.
      * unfold mp_wake_first. rewrite (bind_ok _ _ _ _ _ En). unfold thread_entry. rewrite bind_ret.
        rewrite (bind_ok _ _ _ _ _ Eu), (bind_ok _ _ _ _ _ Er).
        unfold upd_mp, get_mp, put_mp, bind, gets, modify. simpl. rewrite lookup_insert_eq. done.
    + eexists. split; [apply lookup_insert_eq|]. split; [apply stat_ready|done].
    + split; [apply lookup_insert_eq|by apply pool_rep_count|exact HV].
  - intros Hpos ->. rewrite (proj2 (Z.ltb_lt _ _) Hpos) in E. rewrite E. unfold kernel. cbn [fst snd].
    rewrite (bind_err (mp_wake_first i RT_EOK) _ k1 Bad_pointer); [done|].
    unfold mp_wake_first. rewrite (bind_ok _ _ k1 (LSuspend (IMp i)) k1); [done|].
    unfold list_next. simpl ls_next. by rewrite (queue_next_head _ _ _ Hw).
Qed.

(** ** Initialisation *)
(** The blocks of a pool from number [i] on. *)
Fixpoint blocks_from (n : nat) (p s i : Z) : list Z :=
  match n with O => [] | S n => p + i * s :: blocks_from n p s (i + 1) end.

Lemma elem_of_blocks_from n p s i b :
  b ∈ blocks_from n p s i -> exists j, i <= j < i + Z.of_nat n /\ b = p + j * s.
Proof.
  revert i. induction n as [|n IH]; intros i; simpl; [by intros ?%elem_of_nil|].
  intros [->|(j & Hj & ->)%IH]%elem_of_cons; [exists i|exists j]; split; (done || lia).
Qed.

Lemma length_blocks_from n p s i : length (blocks_from n p s i) = n.
Proof. revert i. induction n; intros; simpl; auto. Qed.

Lemma blocks_from_nodup n p s i : 0 < s -> NoDup (blocks_from n p s i).
Proof.
  intros Hs. revert i. induction n as [|n IH]; intros i; simpl; constructor; [|apply IH].
  intros (j & Hj & E)%elem_of_blocks_from. nia.
Qed.

(** The loop stores in every block the address of the next. *)
Lemma link_loop_ok n : forall h p bs i,
  0 <= bs -> 0 <= i -> 0 < p -> p + (i + Z.of_nat n) * (bs + 4) < 2 ^ 32 ->
  mapped (hp_ram h) (p + i * (bs + 4)) (Z.of_nat n * (bs + 4)) ->
  exists m', mp_link_loop n p bs i h = Ok tt (set_hp_ram m' h) /\
    stored (p + i * (bs + 4)) (Z.of_nat n * (bs + 4)) (hp_ram h) m' /\
    forall j, i <= j < i + Z.of_nat n -> load 4 m' (p + j * (bs + 4)) = Some (p + (j + 1) * (bs + 4)).
Proof.
  induction n as [|n IH]; intros h p bs i Hbs Hi Hp Ht HM.
  { exists (hp_ram h). split; [by destruct h|]. split; [apply stored_refl|lia]. }
  cbn [mp_link_loop]. unfold sizeof_ptr.
  rewrite (u32_small (p + i * _)), (u32_small (p + (i + 1) * _)) by nia.
  destruct (store_stored 4 (hp_ram h) (p + i * (bs + 4)) (p + (i + 1) * (bs + 4))) as (m1 & E1 & S1);
    [eapply mapped_sub; [exact HM|lia|nia]|].
  rewrite (bind_ok _ _ _ tt (set_hp_ram m1 h)) by (unfold st, ram_op; by rewrite E1).
  destruct (IH (set_hp_ram m1 h) p bs (i + 1)) as (m2 & E2 & S2 & L2); [lia|lia|lia|nia| |].
  { cbn [hp_ram set_hp_ram]. eapply mapped_sub; [apply S1, HM|nia|nia]. }
  cbn [hp_ram set_hp_ram] in S2. exists m2. split; [exact E2|]. split.
  - eapply stored_trans; [eapply stored_wider; [exact S1|lia|nia]|eapply stored_wider; [exact S2|nia|nia]].
  - intros j Hj. destruct (decide (j = i)) as [->|]; [|apply L2; lia].
    rewrite (load_ext 4 m1); [|intros x Hx; apply S2; nia].
    rewrite (load_store_same _ _ _ _ _ E1). rewrite Z.mod_small by nia. done.
Qed.

(** ... and the terminator goes into the last one. *)
Lemma link_blocks_ok h p bs n :
  0 <= bs -> 0 < p -> 0 < n -> p + n * (bs + 4) < 2 ^ 32 -> mapped (hp_ram h) p (n * (bs + 4)) ->
  exists m', mp_link_blocks p bs n h = Ok tt (set_hp_ram m' h) /\
    stored p (n * (bs + 4)) (hp_ram h) m' /\
    forall j, 0 <= j < n ->
      load 4 m' (p + j * (bs + 4)) = Some (if j + 1 =? n then 0 else p + (j + 1) * (bs + 4)).
Proof.
  intros Hbs Hp Hn Ht HM.
  destruct (link_loop_ok (Z.to_nat n) h p bs 0) as (m1 & E1 & S1 & L1);
    [lia|lia|lia|rewrite Z2Nat.id; lia|rewrite Z2Nat.id by lia; by replace (p + 0 * (bs + 4)) with p by lia|].
  rewrite Z2Nat.id in S1, L1 by lia. replace (p + 0 * (bs + 4)) with p in S1 by lia.
  unfold mp_link_blocks, sizeof_ptr. rewrite (bind_ok _ _ _ _ _ E1).
  assert (n < 2 ^ 32) by nia.
  rewrite (u32_small (n - 1)), (u32_small (p + (n - 1) * _)) by nia.
  destruct (store_stored 4 m1 (p + (n - 1) * (bs + 4)) 0) as (m2 & E2 & S2);
    [eapply mapped_sub; [apply S1, HM|nia|nia]|].
  exists m2. split; [unfold st, ram_op; cbn [hp_ram set_hp_ram]; by rewrite E2|]. split.
  - eapply stored_trans; [exact S1|eapply stored_wider; [exact S2|nia|nia]].
  - intros j Hj. destruct (Z.eqb_spec (j + 1) n) as [E|].
    + replace j with (n - 1) by lia. by rewrite (load_store_same _ _ _ _ _ E2).
    + rewrite (load_ext 4 m1); [apply L1; lia|]. intros x Hx. apply S2. nia.
Qed.

Lemma block_chain_blocks m p s last n : forall i,
  (forall j, i <= j < i + Z.of_nat n ->
    load 4 m (p + j * s) = Some (if j + 1 =? last then 0 else p + (j + 1) * s)) ->
  i + Z.of_nat n = last -> (0 < n)%nat -> chain m (p + i * s) (blocks_from n p s i).
Proof.
  induction n as [|n IH]; intros i HL Hlast Hn; [lia|]. simpl. split; [done|].
  eexists. split; [apply HL; lia|]. destruct n as [|n].
  - rewrite (proj2 (Z.eqb_eq _ _)) by lia. done.
  - rewrite (proj2 (Z.eqb_neq _ _)) by lia. apply IH; [intros; apply HL; lia|lia|lia].
Qed.

Lemma fresh_pool_rep m p size bs n parent :
  0 <= bs -> 0 < p -> 0 < n -> p + n * (bs + 4) < 2 ^ 32 -> mapped m p (n * (bs + 4)) ->
  (forall j, 0 <= j < n ->
      load 4 m (p + j * (bs + 4)) = Some (if j + 1 =? n then 0 else p + (j + 1) * (bs + 4))) ->
  pool_rep m (Mempool parent p size bs p n n 0) (blocks_from (Z.to_nat n) p (bs + 4) 0).
Proof.
  intros Hbs Hp Hn Ht HM HL. assert (n < 2 ^ 30) by nia.
  split; unfold stride; cbn [mp_block_size mp_start_address mp_block_total_count mp_block_list mp_block_free_count];
    rewrite ?length_blocks_from, ?Z2Nat.id by lia; try done; try lia.
  - replace p with (p + 0 * (bs + 4)) at 1 by lia. eapply block_chain_blocks; [|done|lia].
    rewrite Z2Nat.id by lia. apply HL.
  - apply Forall_forall. intros b (j & Hj & ->)%elem_of_blocks_from. exists j. split; [|done].
    simpl. lia.
  - apply blocks_from_nodup. lia.
Qed.

(** A pool that is not in use: a record with room for a name, on no list. *)
Record unused_pool (i : nat) (k : kview) (r : rt_mempool) : Prop := {
  up_pool : k_mps k !! i = Some r;
  up_name : length (o_name (mp_parent r)) = RT_NAME_MAX;
  up_object : v_loose (k_links k) (LObj (OIpc (IMp i))) = true;
  up_waiters : v_loose (k_links k) (LSuspend (IMp i)) = true;
}.

(** The part of [rt_mp_init] before the blocks are linked. *)
Lemma mp_init_enter idle (k : kview) h Q i r xs name start size block_size :
  kinv idle k Q -> quiet k -> unused_pool i k r -> k_links k !! LObjHead RT_Object_Class_MemPool = Some xs ->
  readable name RT_NAME_MAX -> Forall is_byte name ->
  let s := RT_ALIGN_DOWN size 4 in let bs := RT_ALIGN block_size 4 in let n := s / u32 (bs + 4) in
  exists k1 parent, kinv idle k1 Q /\ k_links k1 !! LSuspend (IMp i) = Some [] /\
    k_links k1 !! LObjHead RT_Object_Class_MemPool = Some (LObj (OIpc (IMp i)) :: xs) /\
    k_mps k1 !! i = Some (Mempool parent start s bs (mp_block_list r) n n 0) /\
    rt_mp_init i name start size block_size (k, h) =
      (on_heap (mp_link_blocks start bs n) ;!
       kernel (upd_mp i (set_mp_block_list start)) ;! ret RT_EOK) (k1, h).
Proof.
  intros HI Hq [Hr Hlen Ho Hw] Hxs Hn Hb s bs n.
  assert (object_of (OIpc (IMp i)) k = Some (mp_parent r)) as Hob by (simpl; by rewrite Hr).
  destruct (strncpy_total (o_name (mp_parent r)) name RT_NAME_MAX) as (name' & Hcpy & _); [done..|].
  destruct (object_init_ok k (OIpc (IMp i)) RT_Object_Class_MemPool name xs (mp_parent r) name')
    as (V & E & HV & Hq1 & Hch); [apply HI|done|unfold rt_object_container; set_solver|done..|].
  set (parent := Object name' _ _) in E. set (k1 := set_links V _) in E.
  assert (kinv idle k1 Q) as HI1.
  { unfold k1. eapply kinv_container; [by apply kinv_header|done|exact Hch]. }
  assert (k_mps k1 !! i = Some (set_mp_parent parent r)) as Hr1 by (simpl; by rewrite lookup_alter_eq, Hr).
  set (k2 := put_pool i (Mempool parent start s bs (mp_block_list r) n n (mp_suspend_thread_count r)) k1).
  assert (kinv idle k2 Q) as HI2 by (by apply kinv_put_pool).
  destruct (wait_init_ok idle k2 Q (LSuspend (IMp i)) HI2) as (V3 & E3 & HI3 & Hw3 & Hfr3); [done| |].
  { unfold v_loose in Hw |- *. simpl. rewrite (ch_heads _ _ _ _ Hch) by (done || set_solver). exact Hw. }
  exists (put_pool i (Mempool parent start s bs (mp_block_list r) n n 0) (set_links V3 k2)), parent.
  split; [by apply kinv_put_pool|]. split; [exact Hw3|]. split; [simpl; by rewrite Hfr3|].
  split; [apply lookup_insert_eq|]. unfold rt_mp_init.
  rewrite (bind_ok _ _ _ _ _ (kernel_ok _ _ _ _ _ E)). change RT_ALIGN_SIZE with 4. change sizeof_ptr with 4.
  fold s bs. cbv zeta. fold n.
  rewrite (bind_ok _ _ _ tt (k2, h)).
  2:{ apply kernel_ok. by rewrite (upd_mp_ok _ _ _ _ Hr1). }
  rewrite (bind_ok _ _ _ _ _ (kernel_ok _ _ _ _ _ E3)).
  rewrite (bind_ok _ _ _ tt (put_pool i (Mempool parent start s bs (mp_block_list r) n n 0) (set_links V3 k2), h)); [done|].
  apply kernel_ok. erewrite upd_mp_ok by (simpl; apply lookup_insert_eq).
  unfold k2, put_pool. simpl. by rewrite !insert_insert_eq.
Qed.

(** [rt_mp_init] on a pool that is not in use.  Size and block size are
    rounded to multiples of four, down and up, and every block has four more
    bytes for its link.  When at least one block fits, the pool is well-formed
    with all its blocks free, in the order of their addresses, and nobody
    waiting, and memory outside the pool is as before.  When none fits, the
    call still succeeds, and the terminator of the list of blocks is stored
    in front of the pool, one block before its first byte. *)
Theorem mp_init_links_blocks idle (k : kview) h Q i r xs name start size block_size :
  let s := RT_ALIGN_DOWN size 4 in let bs := RT_ALIGN block_size 4 in let n := s / (bs + 4) in
  kinv idle k Q -> quiet k -> unused_pool i k r -> k_links k !! LObjHead RT_Object_Class_MemPool = Some xs ->
  readable name RT_NAME_MAX -> Forall is_byte name ->
  0 < start -> start + s < 2 ^ 32 -> 0 <= size -> 0 <= block_size < 2 ^ 32 - 8 -> mapped (hp_ram h) start s ->
  (0 < n -> exists k' m' r', rt_mp_init i name start size block_size (k, h) = Ok RT_EOK (k', set_hp_ram m' h) /\
    kinv idle k' Q /\ stored start s (hp_ram h) m' /\
    pool_at i k' (set_hp_ram m' h) r' (blocks_from (Z.to_nat n) start (bs + 4) 0) [] /\
    mp_block_total_count r' = n /\ mp_block_size r' = bs) /\
  (n = 0 -> bs + 4 <= start -> mapped (hp_ram h) (start - (bs + 4)) 4 -> exists k' m',
    rt_mp_init i name start size block_size (k, h) = Ok RT_EOK (k', set_hp_ram m' h) /\
    store 4 (hp_ram h) (start - (bs + 4)) 0 = Some m').
Proof.
  intros s bs n HI Hq Hu Hxs Hn Hb Hst Htop Hsz Hbsz HM.
  destruct (mp_init_enter idle k h Q i r xs name start size block_size) as (k1 & parent & HI1 & Hw1 & _ & Hr1 & E); [done..|].
  assert (0 <= bs < 2 ^ 32 - 4) as Hbs by (unfold bs; rewrite align4 by lia; pose proof (Z.div_mod (block_size + 3) 4); pose proof (Z.mod_pos_bound (block_size + 3) 4); lia).
  fold s bs in E, Hr1. rewrite (u32_small (bs + 4)) in E, Hr1 by lia. fold n in E, Hr1.
  assert (0 <= s) as Hs by (unfold s, RT_ALIGN_DOWN; apply Z.land_nonneg; lia).
  assert (n * (bs + 4) <= s) as Hfit by (unfold n; pose proof (Z.mul_div_le s (bs + 4)); lia).
  split.
  - intros Hpos. destruct (link_blocks_ok h start bs n) as (m' & E2 & S2 & L2);
      [lia|lia|lia|lia|eapply mapped_sub; [exact HM|lia|lia]|].
    set (r' := Mempool parent start s bs start n n 0).
    exists (put_pool i r' k1), m', r'. split; [|split; [by apply kinv_put_pool|split; [|split; [|done]]]].
    + rewrite E, (bind_ok _ _ _ _ _ (on_heap_ok _ k1 _ _ _ E2)).
      rewrite (bind_ok _ _ _ tt (put_pool i r' k1, set_hp_ram m' h)); [done|].
      apply kernel_ok. by rewrite (upd_mp_ok _ _ _ _ Hr1).
    + eapply stored_wider; [exact S2|lia|lia].
    + split; [apply lookup_insert_eq| |exact Hw1].
      apply fresh_pool_rep; [lia|lia|lia|lia| |exact L2]. apply S2. eapply mapped_sub; [exact HM|lia|lia].
  - intros Hz Hroom HM0. destruct (store_stored 4 (hp_ram h) (start - (bs + 4)) 0) as (m' & Es & _); [exact HM0|].
    set (r1 := Mempool parent start s bs (mp_block_list r) n n 0) in Hr1.
    exists (put_pool i (set_mp_block_list start r1) k1), m'. split; [|exact Es].
    rewrite E, Hz. unfold mp_link_blocks, sizeof_ptr. cbn [Z.to_nat mp_link_loop].
    rewrite (bind_ok (on_heap _) _ _ tt (k1, set_hp_ram m' h)).
    + rewrite (bind_ok _ _ _ _ _ (kernel_ok _ _ _ _ _ (upd_mp_ok _ _ _ _ Hr1))). done.
    + apply on_heap_ok. rewrite (bind_ok (mp_link_loop _ _ _ _) _ h tt h) by done. unfold st, ram_op. change (u32 (0 - 1)) with (2 ^ 32 - 1).
      replace (u32 (start + (2 ^ 32 - 1) * (bs + 4))) with (start - (bs + 4)); [by rewrite Es|].
      unfold u32. apply (Z.mod_unique_pos _ _ (bs + 4)); lia.
Qed.

(** ** Concrete pools *)
Definition block_chain_b (m : ram) : Z -> list Z -> bool := fix go a bs :=
  match bs with
  | [] => a =? 0
  | b :: bs => (a =? b) && match load 4 m b with Some n => go n bs | None => false end
  end.

Lemma block_chain_b_sound m bs : forall a, block_chain_b m a bs = true -> chain m a bs.
Proof.
  induction bs as [|b bs IH]; intros a; simpl; [by intros ?%Z.eqb_eq|].
  intros [->%Z.eqb_eq H]%andb_true_iff. destruct (load 4 m b) as [n|]; [|done]. eauto.
Qed.

Definition is_block_b (r : rt_mempool) (b : Z) : bool :=
  existsb (fun i => b =? mp_start_address r + i * stride r) (seqZ 0 (mp_block_total_count r)).

Lemma is_block_b_sound r b : is_block_b r b = true -> is_block r b.
Proof.
  unfold is_block_b. intros (i & Hi & E%Z.eqb_eq)%existsb_exists.
  apply list_elem_of_In, elem_of_seqZ in Hi. exists i. split; [lia|done].
Qed.

Definition mempool_of (s : kview) (i : nat) : rt_mempool :=
  default (Mempool Board.blank_object 0 0 0 0 0 0 0) (k_mps s !! i).

Definition pool_b (i : nat) (s : khs) (free : list Z) (ws : list nat) : bool :=
  let r := mempool_of s.1 i in
  bool_decide (is_Some (k_mps s.1 !! i)) && (0 <=? mp_block_size r) && (0 <? mp_start_address r) &&
  (mp_start_address r + mp_block_total_count r * stride r <? 2 ^ 32) &&
  mapped_b (hp_ram s.2) (mp_start_address r) (mp_block_total_count r * stride r) &&
  block_chain_b (hp_ram s.2) (mp_block_list r) free && forallb (is_block_b r) free && bool_decide (NoDup free) &&
  (mp_block_free_count r =? Z.of_nat (length free)) && (Z.of_nat (length free) <? 2 ^ 32 - 1) &&
  bool_decide (k_links s.1 !! LSuspend (IMp i) = Some (LTlist <$> ws)).

Lemma pool_b_sound i s free ws : pool_b i s free ws = true -> pool_at i s.1 s.2 (mempool_of s.1 i) free ws.
Proof.
  unfold pool_b. intros H. repeat (apply andb_true_iff in H as [H ?]).
  repeat match goal with
  | H : (_ =? _) = true |- _ => apply Z.eqb_eq in H
  | H : (_ <=? _) = true |- _ => apply Z.leb_le in H
  | H : (_ <? _) = true |- _ => apply Z.ltb_lt in H
  | H : bool_decide _ = true |- _ => apply bool_decide_eq_true in H
  end. split; [|split|]; try done.
  - unfold mempool_of. by destruct H as [r ->].
  - by apply mapped_b_sound.
  - by apply block_chain_b_sound.
  - apply Forall_forall. intros b Hb. apply is_block_b_sound.
    match goal with H : forallb _ _ = true |- _ => rewrite forallb_forall in H; apply H end.
    by apply list_elem_of_In.
Qed.

Definition name_p : list Z := [112; 0].

(** Five blocks of eight bytes; thread 3 runs. *)
Definition pool5 : khs := run (rt_mp_init 0 name_p 0x20010000 64 7) (Board.board, blank_heap).
(** One block of eight bytes, in use, and thread 3 waits for another for at most
    ten ticks; thread 2 runs. *)
Definition pool_waited : khs :=
  run (rt_mp_init 0 name_p 0x20010000 15 8 ;! rt_mp_alloc 0 0 0 ;! rt_mp_alloc 0 0 10) (Board.board, blank_heap).

Example pool5_at : pool_b 0 pool5 (blocks_from 5 0x20010000 12 0) [] = true.
Proof. vm_compute. reflexivity. Qed.
Example pool_waited_at : pool_b 0 pool_waited [] [3%nat] = true.
Proof. vm_compute. reflexivity. Qed.

#[local] Opaque pool5 pool_waited.

(** 64 bytes hold five blocks of eight; a pool of eight bytes holds none, and the
    word twelve bytes before it is cleared. *)
Example mp_init_links_blocks_witness :
  (exists k' m' r', rt_mp_init 0 name_p 0x20010000 64 7 (Board.board, blank_heap) = Ok RT_EOK (k', set_hp_ram m' blank_heap) /\
    pool_at 0 k' (set_hp_ram m' blank_heap) r' (blocks_from 5 0x20010000 12 0) []) /\
  (exists k' m', rt_mp_init 0 name_p 0x20010010 8 8 (Board.board, blank_heap) = Ok RT_EOK (k', set_hp_ram m' blank_heap) /\
    store 4 (hp_ram blank_heap) 0x20010004 0 = Some m').
Proof.
  assert (unused_pool 0 Board.board (mempool_of Board.board 0)) as Hu by (split; vm_compute; reflexivity).
  assert (readable name_p RT_NAME_MAX) as Hr by (right; set_solver).
  assert (Forall is_byte name_p) as Hb by (repeat constructor; done).
  assert (k_links Board.board !! LObjHead RT_Object_Class_MemPool = Some []) as Hx by (vm_compute; reflexivity).
  split.
  - destruct (mp_init_links_blocks Board.idle Board.board blank_heap (Board.queues_of Board.board) 0
      (mempool_of Board.board 0) [] name_p 0x20010000 64 7) as [H _];
      [apply Board.board_kinv|apply board_quiet|done..|lia|lia|apply mapped_b_sound; vm_compute; reflexivity|].
    destruct H as (k' & m' & r' & E & _ & _ & Hat & _); [vm_compute; reflexivity|]. exists k', m', r'. by split.
  - destruct (mp_init_links_blocks Board.idle Board.board blank_heap (Board.queues_of Board.board) 0
      (mempool_of Board.board 0) [] name_p 0x20010010 8 8) as [_ H];
      [apply Board.board_kinv|apply board_quiet|done..|lia|lia|apply mapped_b_sound; vm_compute; reflexivity|].
    destruct H as (k' & m' & E & Es); [vm_compute; reflexivity|done|apply mapped_b_sound; vm_compute; reflexivity|].
    exists k', m'. split; [exact E|exact Es].
Defined.

(** From five free blocks the first is taken; from none, the call without
    waiting times out. *)
Example mp_alloc_behaviour_witness :
  (exists k' h', rt_mp_alloc 0 0 0 pool5 = Ok 0x20010004 (k', h')) /\
  (exists k', rt_mp_alloc 0 0 0 pool_waited = Ok 0 (k', pool_waited.2)).
Proof.
  split.
  - destruct (mp_alloc_behaviour Board.idle pool5.1 pool5.2 (Board.queues_of pool5.1) 0 (mempool_of pool5.1 0)
      (blocks_from 5 0x20010000 12 0) [] 3 (Board.thread_of pool5.1 3) 0 0) as (n & m' & E & _).
    + apply Board.kinv_b_sound. vm_compute. reflexivity.
    + split; vm_compute; reflexivity.
    + apply pool_b_sound. apply pool5_at.
    + apply Board.thread_of_lookup. vm_compute. reflexivity.
    + vm_compute. reflexivity.
    + discriminate.
    + reflexivity.
    + rewrite <-surjective_pairing in E. eauto.
  - destruct (mp_alloc_behaviour Board.idle pool_waited.1 pool_waited.2 (Board.queues_of pool_waited.1) 0
      (mempool_of pool_waited.1 0) [] [3%nat] 2 (Board.thread_of pool_waited.1 2) 0 0) as [E _].
    + apply Board.kinv_b_sound. vm_compute. reflexivity.
    + split; vm_compute; reflexivity.
    + apply pool_b_sound. apply pool_waited_at.
    + apply Board.thread_of_lookup. vm_compute. reflexivity.
    + vm_compute. reflexivity.
    + discriminate.
    + reflexivity.
    + specialize (E eq_refl). rewrite <-surjective_pairing in E. eauto.
Defined.

(** The block is given back: thread 3 becomes ready. *)
Example mp_free_behaviour_witness :
  exists m' k' p to, rt_mp_free 0x20010004 pool_waited = res_kernel (set_hp_ram m' pool_waited.2) (reschedule p to 2 k') /\
    stat_is (k_threads k') 3 RT_THREAD_READY.
Proof.
  destruct (mp_free_behaviour Board.idle pool_waited.1 pool_waited.2 (Board.queues_of pool_waited.1) 0
    (mempool_of pool_waited.1 0) [] [3%nat] 0x20010000 2) as (_ & H & _).
  - apply Board.kinv_b_sound. vm_compute. reflexivity.
  - intros _ _. vm_compute. reflexivity.
  - vm_compute. reflexivity.
  - vm_compute. reflexivity.
  - apply pool_b_sound. apply pool_waited_at.
  - apply is_block_b_sound. vm_compute. reflexivity.
  - apply not_elem_of_nil.
  - reflexivity.
  - vm_compute. reflexivity.
  - destruct (H 3%nat []) as (m' & k' & Q' & p & to & q & E & _ & _ & _ & (th & Ht & Hs & _) & _);
      [vm_compute; reflexivity|done|].
    change (0x20010000 + 4) with 0x20010004 in E. rewrite <-(surjective_pairing pool_waited) in E.
    exists m', k', p, to. split; [exact E|]. exists th. split; [exact Ht|exact Hs].
Defined.
End MemPoolTheorems.
