(* ===== verification/RingBufferTheorems.v ===== *)
(** * The ring buffer: a bounded queue of bytes

    [rep m rb l]: the pool of [rb] in memory [m] holds the bytes [l], oldest
    first, from the read index on and around the end of the pool.  Transfers
    around the end are described by the offset of an address from the write
    index, modulo the size ([circ]). *)
From S2P Require Import Prelude Ram RtList KMonad KState Mem RingBuffer KInv Board MemSpec MemTheorems.
Import Ram RingBuffer MemTheorems.
Local Open Scope Z_scope.
Local Open Scope kmonad_scope.

Module RingBufferTheorems.

(** ** Circular positions *)
Lemma mod_wrap x n : 0 < n -> n <= x < 2 * n -> x mod n = x - n.
Proof. intros Hn Hx. symmetry. apply (Z.mod_unique_pos _ _ 1); lia. Qed.

Lemma div_wrap x n : 0 < n -> 0 <= x < 2 * n -> x / n = if n <=? x then 1 else 0.
Proof.
  intros Hn Hx. destruct (Z.leb_spec n x); [|apply Z.div_small; lia].
  symmetry. apply (Z.div_unique_pos _ _ _ (x - n)); lia.
Qed.

(** The offset of position [(r + i) mod n] from position [(r + k) mod n]. *)
Lemma offset_mod r i k n : 0 < n -> ((r + i) mod n - (r + k) mod n) mod n = (i - k) mod n.
Proof.
  intros Hn. rewrite <-Zminus_mod. f_equal. lia.
Qed.

Lemma flip_bit x : u1 (Z.lnot x) = (x + 1) mod 2.
Proof.
  unfold u1, Z.lnot. replace (Z.pred (- x)) with (x + 1 + (- x - 1) * 2) by lia. apply Z_mod_plus_full.
Qed.

Lemma u15_small x : 0 <= x < 2 ^ 15 -> u15 x = x.
Proof. apply Z.mod_small. Qed.

(** ** Representation *)
Record rep (m : ram) (rb : rt_ringbuffer) (l : list Z) : Prop := {
  rep_size : 0 < rb_size rb < 2 ^ 15;
  rep_read : 0 <= rb_read_index rb < rb_size rb;
  rep_mirror : 0 <= rb_read_mirror rb < 2;
  rep_len : Z.of_nat (length l) <= rb_size rb;
  rep_write : rb_write_index rb = (rb_read_index rb + Z.of_nat (length l)) mod rb_size rb;
  rep_wmirror : rb_write_mirror rb =
    (rb_read_mirror rb + (rb_read_index rb + Z.of_nat (length l)) / rb_size rb) mod 2;
  rep_mapped : mapped m (rb_ptr rb) (rb_size rb);
  rep_data : forall i b, l !! i = Some b ->
    m !! (rb_ptr rb + (rb_read_index rb + Z.of_nat i) mod rb_size rb) = Some b;
}.

Lemma rep_len_ok m rb l : rep m rb l -> rt_ringbuffer_data_len rb = Z.of_nat (length l).
Proof.
  intros [Hn Hr Hm Hl Hw Hwm _ _]. unfold rt_ringbuffer_data_len, rt_ringbuffer_status.
  set (len := Z.of_nat (length l)) in *. assert (0 <= len) by lia.
  rewrite Hw, Hwm, div_wrap by lia. destruct (Z.leb_spec (rb_size rb) (rb_read_index rb + len)).
  - rewrite mod_wrap by lia.
    assert ((rb_read_mirror rb + 1) mod 2 <> rb_read_mirror rb) by
      (assert (rb_read_mirror rb = 0 \/ rb_read_mirror rb = 1) as [-> | ->] by lia; discriminate).
    destruct (Z.eqb_spec (rb_read_index rb) (rb_read_index rb + len - rb_size rb)).
    + rewrite (proj2 (Z.eqb_neq _ _)) by done. rewrite u32_small; lia.
    + rewrite (proj2 (Z.ltb_ge _ _)) by lia. rewrite u32_small; lia.
  - rewrite Z.mod_small by lia. rewrite Z.add_0_r, (Z.mod_small (rb_read_mirror rb)) by lia.
    destruct (Z.eqb_spec (rb_read_index rb) (rb_read_index rb + len)).
    + rewrite Z.eqb_refl. lia.
    + rewrite (proj2 (Z.ltb_lt _ _)) by lia. rewrite u32_small; lia.
Qed.

Lemma rep_space_ok m rb l : rep m rb l -> rt_ringbuffer_space_len rb = rb_size rb - Z.of_nat (length l).
Proof.
  intros H. unfold rt_ringbuffer_space_len. rewrite (rep_len_ok _ _ _ H).
  pose proof (rep_size _ _ _ H). pose proof (rep_len _ _ _ H). apply u32_small. lia.
Qed.

Lemma rep_wr m rb l : rep m rb l -> 0 <= rb_write_index rb < rb_size rb.
Proof. intros [? ? ? ? -> ? ? ?]. apply Z.mod_pos_bound. lia. Qed.

(** ** Transfers around the end of the pool *)
Definition circ (p n w : Z) (d : list Z) (m m' : ram) : Prop := forall x,
  m' !! x = if decide (p <= x < p + n /\ (x - p - w) mod n < Z.of_nat (length d))
            then d !! Z.to_nat ((x - p - w) mod n) else m !! x.

Lemma circ_mapped p n w d m m' b k : 0 < n -> circ p n w d m m' -> mapped m b k -> mapped m' b k.
Proof.
  intros Hn Hc HM x Hx. rewrite Hc. destruct (decide _) as [[_ H]|]; [|by apply HM].
  apply lookup_lt_is_Some. pose proof (Z.mod_pos_bound (x - p - w) n Hn). lia.
Qed.

(** [d] written at [w], up to the end of the pool and from its start on. *)
Lemma circ_writes p n w d m m' m'' rest :
  0 <= w < n -> Z.of_nat (length d) <= n -> rest = n - w -> rest <= Z.of_nat (length d) ->
  write_bytes m (p + w) (take (Z.to_nat rest) d) = Some m' ->
  write_bytes m' p (drop (Z.to_nat rest) d) = Some m'' -> circ p n w d m m''.
Proof.
  intros Hw Hd -> Hr E1 E2 x. apply write_bytes_Some in E1 as [_ E1], E2 as [_ E2].
  rewrite E2, E1. rewrite length_take, length_drop, lookup_take, lookup_drop.
  destruct (decide (p <= x < p + n)) as [Hx|Hx].
  2:{ rewrite !decide_False by lia. done. }
  destruct (decide (p + w <= x)).
  - rewrite (decide_False (P := p <= x < _)) by lia. rewrite decide_True by lia. rewrite (Z.mod_small (x - p - w)) by lia.
    rewrite !decide_True by lia. f_equal. lia.
  - replace ((x - p - w) mod n) with (x - p - w + n).
    2:{ apply (Z.mod_unique_pos _ _ (-1)); lia. }
    destruct (decide (x - p - w + n < Z.of_nat (length d))).
    + rewrite !decide_True by lia. f_equal. lia.
    + rewrite !decide_False by lia. done.
Qed.

Lemma circ_write p n w d m m' :
  0 <= w -> w + Z.of_nat (length d) <= n -> write_bytes m (p + w) d = Some m' -> circ p n w d m m'.
Proof.
  intros Hw Hd E x. apply write_bytes_Some in E as [_ E]. rewrite E.
  destruct (decide (p <= x < p + n)) as [Hx|Hx].
  2:{ rewrite !decide_False by lia. done. }
  destruct (decide (p + w <= x)).
  - rewrite (Z.mod_small (x - p - w)) by lia.
    destruct (decide (x - p - w < Z.of_nat (length d))); [rewrite !decide_True by lia; f_equal; lia|].
    by rewrite !decide_False by lia.
  - replace ((x - p - w) mod n) with (x - p - w + n) by (apply (Z.mod_unique_pos _ _ (-1)); lia).
    by rewrite !decide_False by lia.
Qed.

Lemma clib_memcpy_ok dst src n rb m l m' :
  read_bytes m src (Z.to_nat n) = Some l -> write_bytes m dst l = Some m' ->
  memcpy dst src n (rb, m) = Ok tt (rb, m').
Proof. unfold memcpy. simpl. intros ->. simpl. by intros ->. Qed.

Lemma read_split m a d k :
  read_bytes m a (length d) = Some d -> (k <= length d)%nat ->
  read_bytes m a k = Some (take k d) /\
  read_bytes m (a + Z.of_nat k) (length d - k) = Some (drop k d).
Proof.
  intros E Hk. apply read_bytes_lookup in E as [_ E]. split; apply read_bytes_lookup.
  - split; [rewrite length_take; lia|]. intros i b [Hi _]%lookup_take_Some. auto.
  - split; [by rewrite length_drop|]. intros i b Hi. rewrite lookup_drop in Hi.
    rewrite <-(E _ _ Hi). f_equal. lia.
Qed.

(** The pool and the other side of a transfer do not overlap. *)
Definition apart (rb : rt_ringbuffer) (a n : Z) : Prop := a + n <= rb_ptr rb \/ rb_ptr rb + rb_size rb <= a.

Lemma rb_write_ok m rb ptr d :
  0 < rb_size rb < 2 ^ 15 -> 0 <= rb_write_index rb < rb_size rb -> 0 <= rb_write_mirror rb < 2 ->
  mapped m (rb_ptr rb) (rb_size rb) -> Z.of_nat (length d) <= rb_size rb ->
  read_bytes m ptr (length d) = Some d -> apart rb ptr (Z.of_nat (length d)) ->
  let k := Z.of_nat (length d) in
  let w := rb_write_index rb in
  exists m',
    rb_write ptr k (rb, m) = Ok (rb_size rb <=? w + k)
      (set_write ((rb_write_mirror rb + (w + k) / rb_size rb) mod 2) ((w + k) mod rb_size rb) rb, m') /\
    circ (rb_ptr rb) (rb_size rb) w d m m'.
Proof.
  intros Hn Hw Hwm HM Hd Hrd Hap k w. unfold rb_write, rb_get. rewrite bind_gets. cbv zeta. cbn [fst].
  fold w in Hw |- *. set (n := rb_size rb) in *. rewrite div_wrap by lia.
  destruct (Z.leb_spec n (w + k)) as [Hk|Hk].
  - rewrite (proj2 (Z.ltb_ge _ _)) by lia.
    destruct (read_split m ptr d (Z.to_nat (n - w))) as [R1 R2]; [done|lia|].
    destruct (write_bytes_ok m (rb_ptr rb + w) (take (Z.to_nat (n - w)) d)) as [m1 W1].
    { intros x Hx. rewrite length_take in Hx. apply HM. lia. }
    rewrite (bind_ok _ _ _ _ _ (clib_memcpy_ok _ _ _ rb _ _ _ R1 W1)).
    destruct (write_bytes_ok m1 (rb_ptr rb) (drop (Z.to_nat (n - w)) d)) as [m2 W2].
    { eapply mapped_write; [exact W1|]. intros x Hx. rewrite length_drop in Hx. apply HM. lia. }
    assert (read_bytes m1 (ptr + (n - w)) (Z.to_nat (k - (n - w))) = Some (drop (Z.to_nat (n - w)) d)) as R2'.
    { rewrite (read_write_other _ _ _ _ _ _ W1); [|rewrite length_take; unfold apart in Hap; fold n in Hap; lia].
      rewrite <-R2. f_equal; lia. }
    rewrite (bind_ok _ _ _ _ _ (clib_memcpy_ok _ _ _ rb _ _ _ R2' W2)).
    exists m2. unfold rb_upd. rewrite bind_modify. cbn [fst snd]. split.
    + unfold ret. do 3 f_equal; [apply flip_bit|]. rewrite mod_wrap, u15_small by lia. lia.
    + by eapply circ_writes; [..|exact W1|exact W2]; lia.
  - rewrite (proj2 (Z.ltb_lt _ _)) by lia.
    destruct (write_bytes_ok m (rb_ptr rb + w) d) as [m1 W1]; [intros x Hx; apply HM; lia|].
    rewrite (bind_ok _ _ _ _ _ (clib_memcpy_ok _ _ k rb _ d _ ltac:(by replace (Z.to_nat k) with (length d) by lia) W1)).
    exists m1. unfold rb_upd. rewrite bind_modify. cbn [fst snd]. split.
    + unfold ret. do 3 f_equal; [rewrite Z.add_0_r; symmetry; apply Z.mod_small; lia|].
      by rewrite Z.mod_small, u15_small by lia.
    + apply circ_write; [lia..|exact W1].
Qed.

(** ** What the transfers do to the queue *)
Lemma mirror_add a x n k : 0 < n ->
  ((a + x / n) mod 2 + (x mod n + k) / n) mod 2 = (a + (x + k) / n) mod 2.
Proof.
  intros Hn. rewrite Zplus_mod_idemp_l. f_equal. rewrite <-Z.add_assoc. f_equal.
  rewrite <-Z.div_add_l by lia. f_equal. pose proof (Z.div_mod x n). lia.
Qed.

Definition written (k : Z) (rb : rt_ringbuffer) : rt_ringbuffer :=
  set_write ((rb_write_mirror rb + (rb_write_index rb + k) / rb_size rb) mod 2)
    ((rb_write_index rb + k) mod rb_size rb) rb.
Definition consumed (k : Z) (rb : rt_ringbuffer) : rt_ringbuffer :=
  set_read ((rb_read_mirror rb + (rb_read_index rb + k) / rb_size rb) mod 2)
    ((rb_read_index rb + k) mod rb_size rb) rb.

(** Position [i] of the queue, seen from the write index. *)
Lemma circ_lookup m rb m' d r i :
  0 < rb_size rb -> rb_write_index rb = r mod rb_size rb ->
  circ (rb_ptr rb) (rb_size rb) (rb_write_index rb) d m m' ->
  m' !! (rb_ptr rb + (r + i) mod rb_size rb) =
    if decide (i mod rb_size rb < Z.of_nat (length d)) then d !! Z.to_nat (i mod rb_size rb)
    else m !! (rb_ptr rb + (r + i) mod rb_size rb).
Proof.
  intros Hn Hw Hc. rewrite Hc. pose proof (Z.mod_pos_bound (r + i) _ Hn) as Hb.
  replace ((rb_ptr rb + (r + i) mod rb_size rb - rb_ptr rb - rb_write_index rb) mod rb_size rb)
    with (i mod rb_size rb).
  2:{ rewrite Hw. replace (rb_ptr rb + (r + i) mod rb_size rb - rb_ptr rb - r mod rb_size rb)
        with ((r + i) mod rb_size rb - r mod rb_size rb) by lia.
      rewrite <-Zminus_mod. f_equal. lia. }
  destruct (decide (i mod rb_size rb < Z.of_nat (length d))); [by rewrite decide_True by lia|].
  by rewrite decide_False by lia.
Qed.

Lemma rep_append m rb l m' d :
  rep m rb l -> Z.of_nat (length l) + Z.of_nat (length d) <= rb_size rb ->
  circ (rb_ptr rb) (rb_size rb) (rb_write_index rb) d m m' ->
  rep m' (written (Z.of_nat (length d)) rb) (l ++ d).
Proof.
  intros [Hn Hr Hm Hl Hw Hwm HM HD] Hd Hc. split; simpl; try done.
  - rewrite length_app. lia.
  - rewrite Hw, Zplus_mod_idemp_l, length_app. f_equal. lia.
  - rewrite Hwm, Hw, mirror_add, length_app by lia. do 3 f_equal. lia.
  - eapply circ_mapped; [|exact Hc|exact HM]; lia.
  - intros i b Hi. pose proof (lookup_lt_Some _ _ _ Hi) as Hlt. rewrite length_app in Hlt.
    replace (rb_read_index rb + Z.of_nat i)
      with (rb_read_index rb + Z.of_nat (length l) + (Z.of_nat i - Z.of_nat (length l))) by lia.
    rewrite (circ_lookup m rb m' d) by (done || lia).
    destruct (decide (i < length l)%nat) as [Hi'|Hi'].
    + rewrite lookup_app_l in Hi by done. rewrite decide_False.
      * rewrite <-(HD _ _ Hi). do 3 f_equal. lia.
      * replace ((Z.of_nat i - Z.of_nat (length l)) mod rb_size rb)
          with (Z.of_nat i - Z.of_nat (length l) + rb_size rb) by (apply (Z.mod_unique_pos _ _ (-1)); lia). lia.
    + rewrite lookup_app_r in Hi by lia. rewrite Z.mod_small by lia. rewrite decide_True by lia.
      rewrite <-Hi. f_equal. lia.
Qed.

(** The oldest bytes are overwritten and the read index follows. *)
Lemma rep_overwrite m rb l m' d mirror :
  rep m rb l -> Z.of_nat (length d) <= rb_size rb ->
  rb_size rb < Z.of_nat (length l) + Z.of_nat (length d) ->
  circ (rb_ptr rb) (rb_size rb) (rb_write_index rb) d m m' ->
  let rb' := written (Z.of_nat (length d)) rb in
  0 <= mirror < 2 -> rb_write_mirror rb' = (mirror + 1) mod 2 ->
  rep m' (set_read mirror (rb_write_index rb') rb')
    (drop (length l + length d - Z.to_nat (rb_size rb)) (l ++ d)).
Proof.
  intros [Hn Hr Hm Hl Hw Hwm HM HD] Hd Hov Hc rb' Hmi Hm'.
  pose proof (Z.mod_pos_bound (rb_write_index rb + Z.of_nat (length d)) (rb_size rb) ltac:(lia)) as Hb.
  split; simpl; try done.
  - rewrite length_drop, length_app. lia.
  - rewrite length_drop, length_app.
    replace (Z.of_nat (length l + length d - (length l + length d - Z.to_nat (rb_size rb)))) with (1 * rb_size rb) by lia.
    by rewrite Z_mod_plus_full, Zmod_mod.
  - simpl in Hm'. rewrite Hm', length_drop, length_app. rewrite div_wrap by lia. rewrite (proj2 (Z.leb_le _ _)) by lia. done.
  - eapply circ_mapped; [|exact Hc|exact HM]; lia.
  - intros i b Hi. pose proof (lookup_lt_Some _ _ _ Hi) as Hlt. rewrite length_drop, length_app in Hlt.
    rewrite lookup_drop in Hi. rewrite Zplus_mod_idemp_l, Hw, <-Z.add_assoc, Zplus_mod_idemp_l.
    rewrite (circ_lookup m rb m' d) by (done || lia).
    destruct (decide (Z.of_nat (length d) + Z.of_nat i < rb_size rb)) as [Hi'|Hi'].
    + rewrite lookup_app_l in Hi by lia. rewrite Z.mod_small by lia. rewrite decide_False by lia.
      rewrite <-(HD _ _ Hi). f_equal. f_equal. symmetry.
      rewrite <-(Z_mod_plus_full _ 1). f_equal. lia.
    + rewrite mod_wrap by lia. rewrite decide_True by lia.
      rewrite lookup_app_r in Hi by lia. rewrite <-Hi. f_equal. lia.
Qed.

Lemma rep_consume m rb l k :
  rep m rb l -> (k <= length l)%nat -> rep m (consumed (Z.of_nat k) rb) (drop k l).
Proof.
  intros [Hn Hr Hm Hl Hw Hwm HM HD] Hk. split; simpl; try done.
  - apply Z.mod_pos_bound. lia.
  - apply Z.mod_pos_bound. lia.
  - rewrite length_drop. lia.
  - rewrite Hw, Zplus_mod_idemp_l, length_drop. f_equal. lia.
  - rewrite Hwm, mirror_add, length_drop by lia. do 3 f_equal. lia.
  - intros i b Hi. rewrite lookup_drop in Hi. rewrite Zplus_mod_idemp_l, <-(HD _ _ Hi). do 3 f_equal. lia.
Qed.

Lemma rep_frame m rb l m' :
  rep m rb l -> (forall x, rb_ptr rb <= x < rb_ptr rb + rb_size rb -> m' !! x = m !! x) -> rep m' rb l.
Proof.
  intros [Hn Hr Hm Hl Hw Hwm HM HD] H. split; try done.
  - intros x Hx. rewrite H by done. by apply HM.
  - intros i b Hi. rewrite H; [by apply HD|].
    pose proof (Z.mod_pos_bound (rb_read_index rb + Z.of_nat i) (rb_size rb)). lia.
Qed.

(** ** The operations on the queue *)
(** The bytes from the read index on, up to the end of the pool and behind it. *)
Lemma pool_read m rb l k :
  rep m rb l -> (k <= length l)%nat ->
  let r := rb_read_index rb in
  let rest := Z.to_nat (rb_size rb - r) in
  (r + Z.of_nat k <= rb_size rb -> read_bytes m (rb_ptr rb + r) k = Some (take k l)) /\
  (rb_size rb <= r + Z.of_nat k -> read_bytes m (rb_ptr rb) (k - rest) = Some (take (k - rest) (drop rest l))).
Proof.
  intros [Hn Hr Hm Hl Hw Hwm HM HD] Hk r rest. split; intros Hc; apply read_bytes_lookup.
  - split; [rewrite length_take; lia|]. intros i b [Hi Hlt]%lookup_take_Some.
    rewrite <-(HD _ _ Hi). f_equal. rewrite Z.mod_small; lia.
  - split; [rewrite length_take, length_drop; lia|]. intros i b [Hi Hlt]%lookup_take_Some.
    rewrite lookup_drop in Hi. rewrite <-(HD _ _ Hi). f_equal.
    rewrite mod_wrap; lia.
Qed.

(** [m'] differs from [m] inside the pool only. *)
Definition pool_only (rb : rt_ringbuffer) (m m' : ram) : Prop :=
  forall x, x < rb_ptr rb \/ rb_ptr rb + rb_size rb <= x -> m' !! x = m !! x.

Lemma circ_pool_only rb w d m m' : circ (rb_ptr rb) (rb_size rb) w d m m' -> pool_only rb m m'.
Proof. intros Hc x Hx. rewrite Hc. by rewrite decide_False by lia. Qed.

Lemma wmirror_bit m rb l : rep m rb l -> 0 <= rb_write_mirror rb < 2.
Proof. intros H. rewrite (rep_wmirror _ _ _ H). apply Z.mod_pos_bound. lia. Qed.

(** [rb_write] of the first [k] bytes of a source. *)
Lemma rep_rb_write m rb l ptr d k :
  rep m rb l -> read_bytes m ptr (length d) = Some d -> apart rb ptr (Z.of_nat (length d)) ->
  0 <= k <= Z.of_nat (length d) -> k <= rb_size rb ->
  exists m', rb_write ptr k (rb, m) = Ok (rb_size rb <=? rb_write_index rb + k) (written k rb, m') /\
    circ (rb_ptr rb) (rb_size rb) (rb_write_index rb) (take (Z.to_nat k) d) m m' /\
    Z.of_nat (length (take (Z.to_nat k) d)) = k.
Proof.
  intros HR Hd Ha Hk Hs. assert (Z.of_nat (length (take (Z.to_nat k) d)) = k) as El by (rewrite length_take; lia).
  destruct (read_split m ptr d (Z.to_nat k)) as [R1 _]; [done|lia|].
  destruct (rb_write_ok m rb ptr (take (Z.to_nat k) d)) as (m' & E & Hc).
  - apply HR.
  - by eapply rep_wr.
  - by eapply wmirror_bit.
  - apply HR.
  - by rewrite El.
  - replace (length (take (Z.to_nat k) d)) with (Z.to_nat k) by lia. exact R1.
  - unfold apart in *. lia.
  - exists m'. rewrite El in E. by split.
Qed.

Lemma put_ok m rb l ptr length d :
  rep m rb l -> read_bytes m ptr (Z.to_nat length) = Some d -> apart rb ptr length -> 0 <= length < 2 ^ 16 ->
  let k := Z.min length (rb_size rb - Z.of_nat (List.length l)) in
  exists rb' m', rt_ringbuffer_put ptr length (rb, m) = Ok k (rb', m') /\
    rep m' rb' (l ++ take (Z.to_nat k) d) /\ pool_only rb m m'.
Proof.
  intros HR Hd Ha Hlen k. pose proof (rep_size _ _ _ HR). pose proof (rep_len _ _ _ HR).
  assert (Z.of_nat (List.length d) = length) as Ed by (apply read_bytes_lookup in Hd as [-> _]; lia).
  unfold rt_ringbuffer_put, rb_get. rewrite bind_gets. cbv zeta. cbn [fst].
  rewrite (rep_space_ok _ _ _ HR), u16_small by lia.
  destruct (Z.eqb_spec (rb_size rb - Z.of_nat (List.length l)) 0) as [Hz|Hz].
  { exists rb, m. assert (k = 0) as -> by lia. rewrite take_0, app_nil_r. done. }
  replace (if _ <? length then _ else length) with k
    by (unfold k; destruct (Z.ltb_spec (rb_size rb - Z.of_nat (List.length l)) length); lia).
  destruct (rep_rb_write m rb l ptr d k) as (m' & E & Hc & El); [done| |by rewrite Ed|lia|lia|].
  { by replace (List.length d) with (Z.to_nat length) by lia. }
  rewrite (bind_ok _ _ _ _ _ E). exists (written k rb), m'. split; [done|]. split; [|by eapply circ_pool_only].
  rewrite <-El at 1. apply rep_append with m; [done|lia|done].
Qed.

Lemma put_force_ok m rb l ptr length d :
  rep m rb l -> read_bytes m ptr (Z.to_nat length) = Some d -> apart rb ptr length -> 0 <= length < 2 ^ 16 ->
  let n := rb_size rb in
  let len := Z.of_nat (List.length l) in
  let k := Z.min length n in
  let last := drop (Z.to_nat (length - k)) d in
  exists rb' m', rt_ringbuffer_put_force ptr length (rb, m) = Ok k (rb', m') /\ pool_only rb m m' /\
    (len + k <= n -> rep m' rb' (l ++ last)) /\
    (n < len + k -> n <= rb_read_index rb + len -> rep m' rb' (drop (Z.to_nat (len + k - n)) (l ++ last))) /\
    (n < len + k -> rb_read_index rb + len < n -> rep m' rb' []).
Proof.
  intros HR Hd Ha Hlen n len k last. pose proof (rep_size _ _ _ HR). pose proof (rep_len _ _ _ HR).
  pose proof (rep_read _ _ _ HR). pose proof (rep_mirror _ _ _ HR) as Hrm.
  assert (List.length d = Z.to_nat length) as Ed by (by apply read_bytes_lookup in Hd as [-> _]).
  assert (Z.of_nat (List.length last) = k) as El by (unfold last; rewrite length_drop; lia).
  assert (read_bytes m (ptr + (length - k)) (List.length last) = Some last) as Hd'.
  { destruct (read_split m ptr d (Z.to_nat (length - k))) as [_ R]; [by rewrite Ed|lia|].
    unfold last. rewrite length_drop, <-R. f_equal. lia. }
  unfold rt_ringbuffer_put_force, rb_get. rewrite bind_gets. cbv zeta. cbn [fst].
  rewrite (rep_space_ok _ _ _ HR). rewrite !u16_small by lia. fold n len.
  replace (if n <? length then n else length) with k by (unfold k; destruct (Z.ltb_spec n length); lia).
  replace (if n <? length then ptr + (length - n) else ptr) with (ptr + (length - k))
    by (unfold k; destruct (Z.ltb_spec n length); [|f_equal]; lia).
  destruct (rep_rb_write m rb l (ptr + (length - k)) last k) as (m' & E & Hc & Et);
    [done|done|unfold apart in *; lia|lia|unfold k; lia|].
  rewrite (bind_ok _ _ _ _ _ E). rewrite firstn_all2 in Hc by lia.
  pose proof (rep_write _ _ _ HR) as Hw. pose proof (rep_wmirror _ _ _ HR) as Hwm.
  pose proof (rep_wr _ _ _ HR) as Hwr. fold n len in Hw, Hwm, Hwr |- *.
  destruct (Z.ltb_spec (n - len) k) as [Hov|Hov].
  2:{ exists (written k rb), m'. split; [done|]. split; [by eapply circ_pool_only|].
      split; [|split; intros; lia]. intros _. rewrite <-El at 1. apply rep_append with m; [done|lia|done]. }
  unfold rb_upd. rewrite bind_modify. cbn [fst snd].
  set (rb' := set_read _ _ _). exists rb', m'. split; [done|]. split; [by eapply circ_pool_only|].
  split; [lia|]. rewrite div_wrap in Hwm by lia.
  assert (forall mir, 0 <= mir < 2 -> rb' = set_read mir (rb_write_index (written k rb)) (written k rb) ->
    rb_write_mirror (written k rb) = (mir + 1) mod 2 ->
    rep m' rb' (drop (Z.to_nat (len + k - n)) (l ++ last))) as Hfull.
  { intros mir Hmir -> Hmm. rewrite <-El in Hmm |- *.
    replace (Z.to_nat (len + Z.of_nat (List.length last) - n)) with
      (List.length l + List.length last - Z.to_nat (rb_size rb))%nat by lia.
    apply rep_overwrite with m; [done|lia|lia|done|done|done]. }
  split; intros _ Hside.
  - rewrite (proj2 (Z.leb_le _ _) Hside) in Hwm.
    eapply Hfull; [|reflexivity|].
    + destruct (n <=? _); [rewrite flip_bit; apply Z.mod_pos_bound; lia|done].
    + cbn [written set_write rb_write_mirror]. fold n. rewrite Hwm, div_wrap by lia.
      change (rb_read_mirror (written k rb)) with (rb_read_mirror rb).
      destruct (n <=? rb_write_index rb + k); [rewrite flip_bit|];
        assert (rb_read_mirror rb = 0 \/ rb_read_mirror rb = 1) as [-> | ->] by lia; reflexivity.
  - rewrite (proj2 (Z.leb_gt _ _) Hside) in Hwm. rewrite Z.mod_small in Hw by lia.
    assert (mapped m' (rb_ptr rb) n) as HM' by (eapply circ_mapped; [|exact Hc|apply HR]; lia).
    unfold rb'. rewrite (proj2 (Z.leb_le n _)) by lia. split; cbn; try done.
    + apply Z.mod_pos_bound. lia.
    + rewrite flip_bit. apply Z.mod_pos_bound. lia.
    + lia.
    + rewrite Z.add_0_r, Zmod_mod. done.
    + fold n. rewrite Z.add_0_r, flip_bit, div_wrap, (proj2 (Z.leb_le n _)) by lia.
      rewrite (Z.div_small ((rb_write_index rb + k) mod n)) by (apply Z.mod_pos_bound; lia).
      rewrite Hwm, !Z.add_0_r, Zmod_mod, (Z.mod_small (rb_read_mirror rb)) by lia. done.
Qed.

Lemma get_ok m rb l ptr length :
  let k := Z.min length (Z.of_nat (List.length l)) in
  rep m rb l -> 0 <= length < 2 ^ 16 -> mapped m ptr k -> apart rb ptr k ->
  exists rb' m', rt_ringbuffer_get ptr length (rb, m) = Ok k (rb', m') /\
    rep m' rb' (drop (Z.to_nat k) l) /\ write_bytes m ptr (take (Z.to_nat k) l) = Some m'.
Proof.
  intros k HR Hlen HM Ha. pose proof (rep_size _ _ _ HR). pose proof (rep_len _ _ _ HR).
  pose proof (rep_read _ _ _ HR). set (data := take (Z.to_nat k) l).
  assert (Z.of_nat (List.length data) = k) as El by (unfold data; rewrite length_take; lia).
  unfold rt_ringbuffer_get, rb_get. rewrite bind_gets. cbv zeta. cbn [fst]. rewrite (rep_len_ok _ _ _ HR).
  destruct (Z.eqb_spec (Z.of_nat (List.length l)) 0) as [Hz|Hz].
  { exists rb, m. unfold data. assert (k = 0) as -> by lia. rewrite drop_0, take_0. done. }
  replace (if _ <? length then _ else length) with k
    by (unfold k; destruct (Z.ltb_spec (Z.of_nat (List.length l)) length); rewrite ?u16_small by lia; lia).
  assert (exists m', write_bytes m ptr data = Some m') as [m' W] by (apply write_bytes_ok; by rewrite El).
  assert (rep m' (consumed k rb) (drop (Z.to_nat k) l)) as HR'.
  { replace k with (Z.of_nat (Z.to_nat k)) at 1 by lia. apply rep_consume; [|lia].
    apply rep_frame with m; [done|]. intros x Hx. apply write_bytes_Some in W as [_ ->].
    rewrite decide_False; [done|]. unfold apart in Ha. lia. }
  destruct (pool_read m rb l (Z.to_nat k)) as [R1 R2]; [done|lia|].
  exists (consumed k rb), m'. split; [|by split].
  unfold consumed. rewrite div_wrap by lia. destruct (Z.ltb_spec k (rb_size rb - rb_read_index rb)) as [Hk|Hk].
  - rewrite (bind_ok _ _ _ _ _ (clib_memcpy_ok _ _ k rb m data m' (R1 ltac:(lia)) W)).
    unfold rb_upd. rewrite bind_modify. cbn [fst snd]. unfold ret. do 3 f_equal.
    + rewrite (proj2 (Z.leb_gt _ _)), Z.add_0_r, Z.mod_small by lia || apply (rep_mirror _ _ _ HR). done.
    + by rewrite u15_small, Z.mod_small by lia.
  - set (rest := rb_size rb - rb_read_index rb) in *.
    destruct (pool_read m rb l (Z.to_nat rest)) as [R1' _]; [done|lia|].
    specialize (R2 ltac:(lia)). fold rest in R2.
    assert (data = take (Z.to_nat rest) l ++ take (Z.to_nat k - Z.to_nat rest) (drop (Z.to_nat rest) l)) as Es.
    { unfold data. rewrite take_take_drop. f_equal. lia. }
    rewrite Es, write_bytes_app in W. destruct (write_bytes m ptr (take (Z.to_nat rest) l)) as [m1|] eqn:W1; [|done].
    cbn [mbind option_bind] in W. rewrite length_take, Nat.min_l in W by lia.
    rewrite (bind_ok _ _ _ _ _ (clib_memcpy_ok _ _ rest rb m _ m1 (R1' ltac:(lia)) W1)).
    assert (read_bytes m1 (rb_ptr rb) (Z.to_nat (k - rest)) =
      Some (take (Z.to_nat k - Z.to_nat rest) (drop (Z.to_nat rest) l))) as R2'.
    { rewrite (read_write_other _ _ _ _ _ _ W1); [rewrite <-R2; f_equal; lia|].
      rewrite length_take, Nat.min_l by lia. unfold apart in Ha. lia. }
    replace (ptr + Z.of_nat (Z.to_nat rest)) with (ptr + rest) in W by lia.
    rewrite (bind_ok _ _ _ _ _ (clib_memcpy_ok _ _ _ rb m1 _ m' R2' W)).
    unfold rb_upd. rewrite bind_modify. cbn [fst snd]. unfold ret. do 3 f_equal.
    + rewrite (proj2 (Z.leb_le _ _)) by lia. apply flip_bit.
    + rewrite mod_wrap, u15_small by lia. lia.
Qed.

Lemma put_byte_ok m rb l ch :
  rep m rb l -> 0 <= ch < 256 -> exists m',
    put_byte (rb_ptr rb + rb_write_index rb) ch (rb, m) = Ok tt (rb, m') /\
    circ (rb_ptr rb) (rb_size rb) (rb_write_index rb) [ch] m m'.
Proof.
  intros HR Hch. pose proof (rep_wr _ _ _ HR).
  destruct (write_bytes_ok m (rb_ptr rb + rb_write_index rb) [ch]) as [m' W].
  { intros x Hx. apply (rep_mapped _ _ _ HR). simpl in Hx. lia. }
  exists m'. split; [|apply circ_write; simpl; [lia..|done]].
  unfold put_byte. cbn [snd fst]. unfold store. cbn [le_split]. rewrite Z.mod_small by done. by rewrite W.
Qed.

(** One step of an index: its mirror flips at the end of the pool. *)
Lemma step_write m rb l :
  rep m rb l ->
  (if rb_write_index rb =? rb_size rb - 1 then set_write (u1 (Z.lnot (rb_write_mirror rb))) 0 rb
   else set_write (rb_write_mirror rb) (u15 (rb_write_index rb + 1)) rb) = written 1 rb.
Proof.
  intros HR. pose proof (rep_wr _ _ _ HR). pose proof (rep_size _ _ _ HR). unfold written. rewrite div_wrap by lia.
  destruct (Z.eqb_spec (rb_write_index rb) (rb_size rb - 1)) as [E|E].
  - rewrite (proj2 (Z.leb_le _ _)), flip_bit, (mod_wrap (rb_write_index rb + 1)) by lia. f_equal. lia.
  - rewrite (proj2 (Z.leb_gt _ _)), Z.add_0_r by lia.
    rewrite (Z.mod_small (rb_write_mirror rb)) by (by eapply wmirror_bit). by rewrite u15_small, Z.mod_small by lia.
Qed.

Lemma putchar_ok m rb l ch :
  rep m rb l -> 0 <= ch < 256 ->
  let room := Z.of_nat (length l) <? rb_size rb in
  exists rb' m', rt_ringbuffer_putchar ch (rb, m) = Ok (Z.b2z room) (rb', m') /\
    rep m' rb' (if room then l ++ [ch] else l) /\ pool_only rb m m'.
Proof.
  intros HR Hch room. unfold rt_ringbuffer_putchar, rb_get. rewrite bind_gets. cbn [fst].
  rewrite (rep_space_ok _ _ _ HR). unfold room. pose proof (rep_len _ _ _ HR).
  destruct (Z.eqb_spec (rb_size rb - Z.of_nat (length l)) 0) as [Hz|Hz].
  { rewrite (proj2 (Z.ltb_ge _ _)) by lia. by exists rb, m. }
  rewrite (proj2 (Z.ltb_lt _ _)) by lia.
  destruct (put_byte_ok m rb l ch) as (m' & E & Hc); [done..|]. rewrite (bind_ok _ _ _ _ _ E).
  exists (written 1 rb), m'. split; [|split; [|by eapply circ_pool_only]].
  - rewrite <-(step_write m rb l HR). by destruct (rb_write_index rb =? rb_size rb - 1).
  - apply (rep_append m rb l m' [ch]); [done|simpl; lia|done].
Qed.

Lemma putchar_force_ok m rb l ch :
  rep m rb l -> 0 <= ch < 256 ->
  exists rb' m', rt_ringbuffer_putchar_force ch (rb, m) = Ok 1 (rb', m') /\ pool_only rb m m' /\
    rep m' rb' (drop (length l + 1 - Z.to_nat (rb_size rb)) (l ++ [ch])).
Proof.
  intros HR Hch. unfold rt_ringbuffer_putchar_force, rb_get. rewrite bind_gets. cbn [fst].
  destruct (put_byte_ok m rb l ch) as (m' & E & Hc); [done..|]. rewrite (bind_ok _ _ _ _ _ E).
  pose proof (step_write m rb l HR) as Hst. pose proof (rep_len _ _ _ HR) as Hl. pose proof (rep_size _ _ _ HR) as Hn.
  pose proof (rep_len_ok _ _ _ HR) as Hd. pose proof (rep_read _ _ _ HR) as Hr. pose proof (rep_mirror _ _ _ HR) as Hm.
  unfold rt_ringbuffer_data_len in Hd.
  destruct (decide (Z.of_nat (length l) = rb_size rb)) as [Hfull|Hfull].
  - assert (rt_ringbuffer_status rb = RT_RINGBUFFER_FULL) as ->.
    { pose proof (rep_write _ _ _ HR) as Hw. pose proof (rep_wmirror _ _ _ HR) as Hwm. rewrite Hfull in Hw, Hwm.
      unfold rt_ringbuffer_status. rewrite mod_wrap in Hw by lia. rewrite div_wrap, (proj2 (Z.leb_le _ _)) in Hwm by lia.
      rewrite (proj2 (Z.eqb_eq _ _)) by lia. rewrite (proj2 (Z.eqb_neq _ _)); [done|].
      rewrite Hwm. assert (rb_read_mirror rb = 0 \/ rb_read_mirror rb = 1) as [-> | ->] by lia; discriminate. }
    pose proof (rep_write _ _ _ HR) as Hw. pose proof (rep_wmirror _ _ _ HR) as Hwm. rewrite Hfull in Hw, Hwm.
    rewrite mod_wrap in Hw by lia. rewrite div_wrap, (proj2 (Z.leb_le _ _)) in Hwm by lia.
    set (flip := rb_write_index rb =? rb_size rb - 1) in *.
    set (mir := if flip then u1 (Z.lnot (rb_read_mirror rb)) else rb_read_mirror rb).
    exists (set_read mir (rb_write_index (written 1 rb)) (written 1 rb)), m'.
    split; [|split; [by eapply circ_pool_only|]].
    + rewrite <-Hst. unfold mir. by destruct flip.
    + apply (rep_overwrite m rb l m' [ch]); [done|simpl; lia|simpl; lia|done| |].
      * unfold mir. destruct flip; [rewrite flip_bit; apply Z.mod_pos_bound; lia|done].
      * change (written (Z.of_nat (length [ch])) rb) with (written 1 rb). rewrite <-Hst. unfold mir. destruct flip; cbn [rb_write_mirror set_write]; rewrite ?flip_bit, Hwm;
          assert (rb_read_mirror rb = 0 \/ rb_read_mirror rb = 1) as [-> | ->] by lia; reflexivity.
  - assert (is_full (rt_ringbuffer_status rb) = false) as ->.
    { destruct (rt_ringbuffer_status rb); try done. rewrite u32_small in Hd; lia. }
    exists (written 1 rb), m'. split; [|split; [by eapply circ_pool_only|]].
    + rewrite <-Hst. by destruct (rb_write_index rb =? rb_size rb - 1).
    + replace (length l + 1 - Z.to_nat (rb_size rb))%nat with O by lia. rewrite drop_0.
      apply (rep_append m rb l m' [ch]); [done|simpl; lia|done].
Qed.

Lemma getchar_ok m rb l :
  rep m rb l -> exists rb', rt_ringbuffer_getchar (rb, m) = Ok (head l) (rb', m) /\ rep m rb' (tail l).
Proof.
  intros HR. unfold rt_ringbuffer_getchar, rb_get. rewrite bind_gets. cbn [fst]. rewrite (rep_len_ok _ _ _ HR).
  destruct l as [|b l]; [by exists rb|]. rewrite (proj2 (Z.eqb_neq _ _)) by (simpl; lia).
  pose proof (rep_data _ _ _ HR O b eq_refl) as Hb. pose proof (rep_read _ _ _ HR). pose proof (rep_size _ _ _ HR).
  pose proof (rep_mirror _ _ _ HR). rewrite Z.add_0_r, Z.mod_small in Hb by lia.
  unfold get_byte at 1. unfold bind at 1. cbn [snd]. rewrite load_byte, Hb. cbn [lift_opt ret res_bind].
  exists (consumed 1 rb). split; [|apply (rep_consume m rb (b :: l) 1); [done|simpl; lia]].
  unfold consumed. rewrite div_wrap by lia. unfold rb_upd, bind, modify, ret.
  destruct (Z.eqb_spec (rb_read_index rb) (rb_size rb - 1)) as [E|E]; cbn [res_bind fst snd]; do 3 f_equal.
  - rewrite (proj2 (Z.leb_le _ _)) by lia. apply flip_bit.
  - rewrite mod_wrap by lia. lia.
  - rewrite (proj2 (Z.leb_gt _ _)), Z.add_0_r by lia. symmetry. by apply Z.mod_small.
  - by rewrite u15_small, Z.mod_small by lia.
Qed.

Lemma init_ok m rb pool size :
  4 <= size < 2 ^ 15 -> mapped m pool size ->
  exists rb', rt_ringbuffer_init pool size (rb, m) = Ok tt (rb', m) /\ rep m rb' [] /\
    rb_ptr rb' = pool /\ rb_size rb' = size / 4 * 4.
Proof.
  intros Hs HM. unfold rt_ringbuffer_init. rewrite bind_assert by (apply Z.ltb_lt; lia).
  unfold rb_upd, modify. cbn [fst snd].
  assert (RT_ALIGN_DOWN size 4 = size / 4 * 4) as ->.
  { unfold RT_ALIGN_DOWN. change (Z.lnot (4 - 1)) with (Z.lnot (Z.ones 2)). rewrite <-Z.ldiff_land, Z.ldiff_ones_r by lia.
    by rewrite Z.shiftl_mul_pow2, Z.shiftr_div_pow2 by lia. }
  pose proof (Z.div_mod size 4). pose proof (Z.mod_pos_bound size 4). rewrite i16_small by lia.
  eexists. split; [reflexivity|]. split; [|done]. split; cbn; try lia.
  - by rewrite Z.mod_0_l by lia.
  - by rewrite Z.div_0_l by lia.
  - intros x Hx. apply HM. lia.
  - intros ? ? [=].
Qed.

(** ** The properties *)
(** C25: the ring buffer is a bounded first-in first-out queue of bytes.  A buffer
    initialised over a pool is empty; for a buffer that holds the bytes [l]
    (oldest first, across the end of the pool or not), [rt_ringbuffer_put] appends
    as many bytes of its argument as there is room for and returns their number;
    [rt_ringbuffer_get] stores the oldest bytes at its argument, as many as were
    asked for and are there, and removes them; [rt_ringbuffer_putchar] and
    [rt_ringbuffer_getchar] do the same with one byte.  Memory outside the pool,
    or outside the destination, does not change. *)
Theorem ringbuffer_fifo m rb :
  (forall pool size, 4 <= size < 2 ^ 15 -> mapped m pool size ->
    exists rb', rt_ringbuffer_init pool size (rb, m) = Ok tt (rb', m) /\ rep m rb' [] /\
      rb_ptr rb' = pool /\ rb_size rb' = size / 4 * 4) /\
  forall l, rep m rb l ->
  let len := Z.of_nat (length l) in
  (forall ptr n d, read_bytes m ptr (Z.to_nat n) = Some d -> apart rb ptr n -> 0 <= n < 2 ^ 16 ->
    let k := Z.min n (rb_size rb - len) in
    exists rb' m', rt_ringbuffer_put ptr n (rb, m) = Ok k (rb', m') /\
      rep m' rb' (l ++ take (Z.to_nat k) d) /\ pool_only rb m m') /\
  (forall ptr n, let k := Z.min n len in 0 <= n < 2 ^ 16 -> mapped m ptr k -> apart rb ptr k ->
    exists rb' m', rt_ringbuffer_get ptr n (rb, m) = Ok k (rb', m') /\
      rep m' rb' (drop (Z.to_nat k) l) /\ write_bytes m ptr (take (Z.to_nat k) l) = Some m') /\
  (forall ch, 0 <= ch < 256 -> let room := len <? rb_size rb in
    exists rb' m', rt_ringbuffer_putchar ch (rb, m) = Ok (Z.b2z room) (rb', m') /\
      rep m' rb' (if room then l ++ [ch] else l) /\ pool_only rb m m') /\
  (exists rb', rt_ringbuffer_getchar (rb, m) = Ok (head l) (rb', m) /\ rep m rb' (tail l)).
Proof.
  split; [intros; by apply init_ok|]. intros l HR len. split; [intros; by apply put_ok|].
  split; [intros; by apply get_ok|]. split; [intros; by apply putchar_ok|by apply getchar_ok].
Qed.

(** The forced writes.  [rt_ringbuffer_putchar_force] always stores its byte
    and drops the oldest one when the buffer is full.  [rt_ringbuffer_put_force]
    stores the last bytes of its argument, as many as the pool has; when they fit
    they are appended, and when the data reaches around the end of the pool the
    buffer is left full of the most recent bytes.  But when the data lies within
    the pool and the new bytes do not fit, the read mirror is flipped although
    the read index did not pass the end: the buffer is left empty, and old and
    new bytes are lost although the number of bytes stored is returned. *)
Theorem ringbuffer_force m rb l :
  rep m rb l ->
  let n := rb_size rb in
  let len := Z.of_nat (length l) in
  (forall ch, 0 <= ch < 256 ->
    exists rb' m', rt_ringbuffer_putchar_force ch (rb, m) = Ok 1 (rb', m') /\ pool_only rb m m' /\
      rep m' rb' (drop (length l + 1 - Z.to_nat n) (l ++ [ch]))) /\
  (forall ptr size d, read_bytes m ptr (Z.to_nat size) = Some d -> apart rb ptr size -> 0 <= size < 2 ^ 16 ->
    let k := Z.min size n in
    let last := drop (Z.to_nat (size - k)) d in
    exists rb' m', rt_ringbuffer_put_force ptr size (rb, m) = Ok k (rb', m') /\ pool_only rb m m' /\
      (len + k <= n -> rep m' rb' (l ++ last)) /\
      (n < len + k -> n <= rb_read_index rb + len -> rep m' rb' (drop (Z.to_nat (len + k - n)) (l ++ last))) /\
      (n < len + k -> rb_read_index rb + len < n -> rep m' rb' [])).
Proof.
  intros HR n len. split; [intros; by apply putchar_force_ok|]. intros. by apply put_force_ok.
Qed.

(** A pool of eight bytes that holds 1 to 4, and six bytes 11 to 16 behind it. *)
Definition pool8 : ram :=
  list_to_map (imap (fun i b => (100 + Z.of_nat i, b)) [1; 2; 3; 4; 0; 0; 0; 0; 11; 12; 13; 14; 15; 16]).
Definition buffer4 : rt_ringbuffer := Ringbuffer 100 0 0 0 4 8.

Lemma buffer4_rep : rep pool8 buffer4 [1; 2; 3; 4].
Proof.
  split; cbn; try lia; try reflexivity.
  - apply mapped_b_sound. vm_compute. reflexivity.
  - intros i b Hi. destruct i as [|[|[|[|i]]]]; try (injection Hi as <-; vm_compute; reflexivity). discriminate Hi.
Qed.

Example ringbuffer_fifo_witness :
  (exists rb' m', rt_ringbuffer_put 108 6 (buffer4, pool8) = Ok 4 (rb', m') /\
    rep m' rb' [1; 2; 3; 4; 11; 12; 13; 14] /\ pool_only buffer4 pool8 m') /\
  (exists rb', rt_ringbuffer_getchar (buffer4, pool8) = Ok (Some 1) (rb', pool8) /\ rep pool8 rb' [2; 3; 4]).
Proof.
  destruct (ringbuffer_fifo pool8 buffer4) as [_ H]. destruct (H _ buffer4_rep) as (H1 & _ & _ & H2). split.
  - apply (H1 108 6 [11; 12; 13; 14; 15; 16]); [vm_compute; reflexivity|right; cbn; lia|lia].
  - exact H2.
Defined.

(** Six more bytes are forced into the buffer that holds four: it is empty. *)
Example ringbuffer_force_witness :
  exists rb' m', rt_ringbuffer_put_force 108 6 (buffer4, pool8) = Ok 6 (rb', m') /\ rep m' rb' [].
Proof.
  destruct (ringbuffer_force pool8 buffer4 _ buffer4_rep) as [_ H].
  destruct (H 108 6 [11; 12; 13; 14; 15; 16]) as (rb' & m' & E & _ & _ & _ & H');
    [vm_compute; reflexivity|right; cbn; lia|lia|].
  exists rb', m'. split; [exact E|]. apply H'; cbn; lia.
Defined.

(** ** Creation *)
(** [rt_ringbuffer_create] returns the structure it has freed: on a heap of 216
    bytes a buffer of 1000 bytes cannot be made; the result is not null, no
    structure was initialised, and the heap is one free block again. *)
Definition create_failed (s : MemSpec.khs) (size : Z) : bool :=
  match rt_ringbuffer_create buffer4 size s with
  | Ok (a, None) s' => negb (a =? 0) && MemTheorems.rep_b s'.2 [] [(228, false)]
  | _ => false
  end.

Example create_returns_freed : create_failed MemTheorems.heap0 1000 = true.
Proof. vm_compute. reflexivity. Qed.

(** A buffer of 64 bytes on the same heap is made and destroyed. *)
Example create_destroy :
  match rt_ringbuffer_create buffer4 65 MemTheorems.heap0 with
  | Ok (a, Some r) s =>
      match rt_ringbuffer_destroy a r s with
      | Ok _ s' => (rb_size r =? 64) && MemTheorems.rep_b s'.2 [] [(228, false)]
      | _ => false
      end
  | _ => false
  end = true.
Proof. vm_compute. reflexivity. Qed.
End RingBufferTheorems.
