(* ===== verification/MutexProof.v ===== *)
(** * Mutexes: theorems

    Ownership, recursion, hand-over and priority inheritance. *)
From S2P Require Import Prelude Kservice RtList KMonad KState KPrim KInv Scheduler Object TimerBase Thread Timer Ipc KernelInv ThreadProof WaitProof TimerProof BlockProof.
Import Scheduler Object TimerBase Thread Timer IpcCore Mutex.
Local Open Scope Z_scope.
Local Open Scope kmonad_scope.

Module MutexProof.

(** Mutex [i] and the threads [ws] waiting for it: either free, with nobody
    waiting, or held by a started thread. *)
Record mutex_at (i : nat) (s : kview) (mx : rt_mutex) (ws : list nat) : Prop := {
  ma_mutex : k_mutexes s !! i = Some mx;
  ma_wait : k_links s !! LSuspend (IMutex i) = Some (LTlist <$> ws);
  ma_flag : o_flag (mx_parent mx) = RT_IPC_FLAG_FIFO \/ o_flag (mx_parent mx) = RT_IPC_FLAG_PRIO;
  ma_orig : 0 <= mx_original_priority mx < 256;
  ma_state :
    (mx_owner mx = None /\ mx_value mx = 1 /\ mx_hold mx = 0 /\ ws = []) \/
    (mx_value mx = 0 /\ 0 < mx_hold mx < 256 /\ exists o oth, mx_owner mx = Some o /\
      k_threads s !! o = Some oth /\ thread_stat oth <> RT_THREAD_INIT);
}.

(** No thread is woken with [-RT_EINTR]: that code is only set by signals, which
    are not configured. *)
Definition no_eintr (s : kview) : Prop :=
  forall t th, k_threads s !! t = Some th -> t_error th <> - RT_EINTR.

Definition mutex_inv (i : nat) (s : kview) : Prop :=
  (exists mx ws, mutex_at i s mx ws) /\ no_eintr s.

Lemma mutex_inv_switched i p t s : mutex_inv i s -> mutex_inv i (switched p t s).
Proof. intros [(mx & ws & [? ? ? ? ?]) He]. split; [|done]. exists mx, ws. by split. Qed.

Lemma no_eintr_insert s s' t th :
  no_eintr s -> k_threads s' = <[t := th]> (k_threads s) -> t_error th <> - RT_EINTR -> no_eintr s'.
Proof.
  intros He E Ht u x. rewrite E. intros [[<- <-]|[_ Hx]]%lookup_insert_Some; [done|]. by eapply He.
Qed.

(** A started thread stays started when records change. *)
Lemma owner_keeps (TH : gmap nat rt_thread) t th th' o :
  TH !! t = Some th -> thread_stat th' <> RT_THREAD_INIT ->
  (exists oth, TH !! o = Some oth /\ thread_stat oth <> RT_THREAD_INIT) ->
  exists oth, <[t := th']> TH !! o = Some oth /\ thread_stat oth <> RT_THREAD_INIT.
Proof.
  intros Ht Hst (oth & Ho & Hos). destruct (decide (o = t)) as [->|Hne].
  - rewrite lookup_insert_eq. eauto.
  - rewrite lookup_insert_ne by done. eauto.
Qed.

(** ** [rt_mutex_take], branch by branch *)
Section take.
Context (s : kview) (i t : nat) (th : rt_thread) (mx : rt_mutex) (fuel : nat) (time : Z).
Hypothesis Hc : thread_ctx s t.
Hypothesis Ht : k_threads s !! t = Some th.
Hypothesis Hm : k_mutexes s !! i = Some mx.

(** The state with the error number of the caller reset. *)
Let s1 := set_threads (<[t := set_t_error RT_EOK th]> (k_threads s)) s.

(** Entry of the function, up to the ownership test. *)
Lemma mutex_take_entry :
  rt_mutex_take fuel i time s =
  (if bool_decide (mx_owner mx = Some t)
   then (put_mutex i (set_mx_hold (u8 (mx_hold mx + 1)) mx) ;! rt_hw_interrupt_enable 0 ;! ret RT_EOK)
   else mutex_take_again fuel i t time 0) (set_primask 1 s1).
Proof using All.
  pose proof Hc as [H1 H2 H3 H4 H5].
  unfold rt_mutex_take, bind at 1. rewrite (thread_context_ok _ t) by (done || by eapply ctx_quiet).
  cbn [res_bind]. unfold current_deref, rt_thread_self, rt_hw_interrupt_disable, upd_thread, get_thread, put_thread,
    get_mutex, bind, gets, modify, ret. simpl. rewrite H5. simpl. rewrite Ht. simpl. rewrite Hm. simpl.
  rewrite H1. by destruct (bool_decide (mx_owner mx = Some t)).
Qed.

(** The owner takes the mutex again: only the hold count changes. *)
Lemma mutex_take_recursive_eq :
  mx_owner mx = Some t ->
  rt_mutex_take fuel i time s =
    Ok RT_EOK (set_mutexes (<[i := set_mx_hold (u8 (mx_hold mx + 1)) mx]> (k_mutexes s)) s1).
Proof using All.
  intros Ho. rewrite mutex_take_entry, bool_decide_true by done.
  pose proof Hc as [H1 H2 H3 H4 H5]. unfold put_mutex, bind, modify, ret. simpl.
  rewrite interrupt_enable_quiet by (by intros ? ?). simpl. unfold s1. clear -H1. destruct s. simpl in *. by subst.
Qed.

(** A free mutex: the caller becomes the owner. *)
Lemma mutex_take_free_eq :
  mx_owner mx = None -> mx_value mx = 1 -> mx_hold mx = 0 ->
  rt_mutex_take fuel i time s =
    Ok RT_EOK (set_mutexes (<[i := Mutex (mx_parent mx) 0 (t_current_priority th) 1 (Some t)]>
      (k_mutexes s)) s1).
Proof using All.
  intros Ho Hv Hh. rewrite mutex_take_entry, bool_decide_false by (by rewrite Ho).
  pose proof Hc as [H1 H2 H3 H4 H5].
  destruct fuel; simpl; unfold get_mutex, get_thread, put_mutex, bind, gets, modify, ret; simpl; rewrite Hm; simpl;
    rewrite Hv, Hh; simpl; rewrite lookup_insert_eq; simpl;
    rewrite interrupt_enable_quiet by (by intros ? ?); simpl; unfold s1; clear -H1; destruct s; simpl in *; by subst.
Qed.

(** A held mutex and a caller that does not wait. *)
Lemma mutex_take_nowait_eq o :
  mx_owner mx = Some o -> o <> t -> mx_value mx = 0 -> time = 0 ->
  rt_mutex_take fuel i time s =
    Ok (- RT_ETIMEOUT) (set_threads (<[t := set_t_error (- RT_ETIMEOUT) (set_t_error RT_EOK th)]> (k_threads s)) s).
Proof using All.
  intros Ho Hne Hv Htime. rewrite mutex_take_entry, bool_decide_false by congruence.
  pose proof Hc as [H1 H2 H3 H4 H5].
  destruct fuel; simpl; unfold get_mutex, upd_thread, get_thread, put_thread, bind, gets, modify, ret; simpl; rewrite Hm; simpl;
    rewrite Hv; simpl; rewrite (proj2 (Z.eqb_eq _ _) Htime); unfold get_thread, bind, gets; simpl; rewrite lookup_insert_eq; simpl;
    rewrite interrupt_enable_quiet by (by intros ? ?); simpl; rewrite insert_insert_eq;
    clear -H1; destruct s; simpl in *; by subst.
Qed.
End take.

(** The code after the wait: a thread woken without an error has the mutex. *)
Definition after_wait (fuel i t : nat) (time : Z) : M kview Z :=
  let! th := get_thread t in
  if negb (th.(t_error) =? RT_EOK) then
    if th.(t_error) =? - RT_EINTR then
      match fuel with
      | O => fail Out_of_fuel
      | S fuel => mutex_take_again fuel i t time 0
      end
    else ret th.(t_error)
  else
    let! temp := rt_hw_interrupt_disable in
    rt_hw_interrupt_enable temp ;!
    ret RT_EOK.

(** A held mutex and a caller that waits: the owner inherits the caller's
    priority if that is higher, then the caller blocks. *)
Lemma mutex_take_block_eq s i t th mx fuel time o oth :
  thread_ctx s t -> k_threads s !! t = Some th -> k_mutexes s !! i = Some mx ->
  mx_owner mx = Some o -> o <> t -> mx_value mx = 0 -> time <> 0 ->
  k_threads s !! o = Some oth ->
  rt_mutex_take fuel i time s =
    ((if t_current_priority th <? t_current_priority oth
      then rt_thread_control o RT_THREAD_CTRL_CHANGE_PRIORITY (t_current_priority th)
      else ret RT_EOK) ;!
     rt_ipc_list_suspend (LSuspend (IMutex i)) t (o_flag (mx_parent mx)) ;!
     (if 0 <? time then start_wait_timer t time else ret tt) ;!
     rt_hw_interrupt_enable 0 ;!
     rt_schedule ;!
     after_wait fuel i t time)
    (set_primask 1 (set_threads (<[t := set_t_error RT_EOK th]> (k_threads s)) s)).
Proof.
  intros Hc Ht Hm Ho Hne Hv Htime Hot.
  rewrite (mutex_take_entry s i t th mx) by done. rewrite bool_decide_false by congruence.
  destruct fuel; simpl; unfold get_mutex, get_thread, bind, gets, ret; simpl; rewrite Hm; simpl;
    rewrite Hv; simpl; rewrite (proj2 (Z.eqb_neq _ _) Htime); unfold get_thread, bind, gets; simpl;
    rewrite lookup_insert_eq; simpl; rewrite Ho; simpl; rewrite lookup_insert_ne by done; rewrite Hot; done.
Qed.

(** Priority inheritance: afterwards the owner runs at the higher of the two
    priorities. *)
Lemma inherit_ok idle s Q t th o oth :
  kinv idle s Q -> quiet s -> k_threads s !! t = Some th -> thread_stat th = RT_THREAD_READY ->
  k_threads s !! o = Some oth -> thread_stat oth <> RT_THREAD_INIT ->
  exists V T G oth' Q',
    let s' := core V T G (<[o := oth']> (k_threads s)) (k_timers s) s in
    (if t_current_priority th <? t_current_priority oth
     then rt_thread_control o RT_THREAD_CTRL_CHANGE_PRIORITY (t_current_priority th)
     else ret RT_EOK) s = Ok RT_EOK s' /\
    kinv idle s' Q' /\
    t_current_priority oth' = Z.min (t_current_priority th) (t_current_priority oth) /\
    thread_stat oth' = thread_stat oth /\ t_error oth' = t_error oth /\
    (forall h, wait_head h = true -> V !! h = k_links s !! h).
Proof.
  intros HI Hq Ht Hst Ho Hos.
  destruct (Z.ltb_spec (t_current_priority th) (t_current_priority oth)) as [Hlt|Hge].
  - destruct (kinv_thread _ _ _ _ _ HI Ht) as [Ha _ _ _ _]; [by rewrite Hst|].
    destruct (change_priority_ok idle s Q o oth (t_current_priority th))
      as (V & T & G & oth' & Q' & E & HI' & Hp & Hs & He & _ & Hfr & _); [done..|apply Ha|].
    exists V, T, G, oth', Q'. intros s'. split; [done|]. split; [done|]. split; [lia|].
    split; [done|]. split; [done|]. intros h Hh. apply Hfr; [by destruct h|]. by intros p ->.
  - exists (k_links s), (k_ready_table s), (k_ready_group s), oth, Q. intros s'.
    assert (s' = s) as Es by (unfold s'; rewrite insert_id by done; by destruct s).
    rewrite Es. split; [done|]. split; [done|]. split; [lia|]. done.
Qed.

(** ** [rt_mutex_release], branch by branch *)
Lemma mutex_release_foreign_eq s i t th mx :
  thread_ctx s t -> k_threads s !! t = Some th -> k_mutexes s !! i = Some mx -> mx_owner mx <> Some t ->
  rt_mutex_release i s =
    Ok (- RT_ERROR) (set_threads (<[t := set_t_error (- RT_ERROR) th]> (k_threads s)) s).
Proof.
  intros Hc Ht Hm Ho. pose proof Hc as [H1 H2 H3 H4 H5].
  unfold rt_mutex_release, bind at 1. rewrite (thread_context_ok _ t) by (done || by eapply ctx_quiet).
  cbn [res_bind]. unfold current_deref, rt_thread_self, rt_hw_interrupt_disable, upd_thread, get_thread, put_thread,
    get_mutex, bind, gets, modify, ret. simpl. rewrite H5. simpl. rewrite Hm. simpl.
  rewrite bool_decide_false by congruence. simpl. unfold get_thread, bind, gets. simpl. rewrite Ht. simpl.
  rewrite interrupt_enable_quiet by (by intros ? ?). by destruct s.
Qed.

Lemma mutex_release_nested_eq s i t mx :
  thread_ctx s t -> k_mutexes s !! i = Some mx -> mx_owner mx = Some t -> 1 < mx_hold mx < 256 ->
  rt_mutex_release i s =
    Ok RT_EOK (set_mutexes (<[i := set_mx_hold (mx_hold mx - 1) mx]> (k_mutexes s)) s).
Proof.
  intros Hc Hm Ho Hh. pose proof Hc as [H1 H2 H3 H4 H5].
  unfold rt_mutex_release, bind at 1. rewrite (thread_context_ok _ t) by (done || by eapply ctx_quiet).
  cbn [res_bind]. unfold current_deref, rt_thread_self, rt_hw_interrupt_disable, put_mutex, get_mutex, bind, gets, modify, ret.
  simpl. rewrite H5. simpl. rewrite Hm. simpl. rewrite bool_decide_true by done. simpl.
  unfold get_mutex, bind, gets. simpl. rewrite lookup_insert_eq. simpl. rewrite u8_small by lia.
  rewrite (proj2 (Z.eqb_neq _ _)) by lia. simpl.
  rewrite interrupt_enable_quiet by (by intros ? ?). by destruct s.
Qed.

(** The last release: the owner's priority goes back to the one recorded when
    it took the mutex; then the mutex is handed to the first waiter, or freed. *)
Lemma mutex_release_last_eq idle s Q i t th mx ws :
  kinv idle s Q -> thread_ctx s t -> k_threads s !! t = Some th -> thread_stat th = RT_THREAD_READY ->
  mutex_at i s mx ws -> mx_owner mx = Some t -> mx_hold mx = 1 ->
  exists V T G TH TM th' Q',
    let mx' := match ws with
      | [] => Mutex (mx_parent mx) 1 0xff 0 None
      | w :: _ => Mutex (mx_parent mx) 0 (prio_in TH w) 1 (Some w)
      end in
    let s' := core V T G TH TM (set_mutexes (<[i := mx']> (k_mutexes s)) s) in
    rt_mutex_release i s =
      ((if bool_decide (ws <> []) then rt_schedule else ret tt) ;! ret RT_EOK) s' /\
    kinv idle s' Q' /\
    TH !! t = Some th' /\ thread_stat th' = RT_THREAD_READY /\ t_error th' = t_error th /\
    t_current_priority th' = mx_original_priority mx /\
    V !! LSuspend (IMutex i) = Some (LTlist <$> tail ws) /\
    (forall h, wait_head h = true -> h <> LSuspend (IMutex i) -> V !! h = k_links s !! h) /\
    (forall w, head ws = Some w -> stat_is TH w RT_THREAD_READY) /\
    (forall u x, TH !! u = Some x -> exists y, k_threads s !! u = Some y /\ t_error x = t_error y).
Proof.
  intros HI Hc Ht Hst Hat Ho Hh. pose proof Hc as [H1 H2 H3 H4 H5]. destruct Hat as [Hm Hw Hf Horig Hs].
  destruct Hs as [(Eo & _)|(Ev & _ & _)]; [congruence|].
  set (mx1 := set_mx_hold 0 mx).
  set (s1 := set_mutexes (<[i := mx1]> (k_mutexes s)) (set_primask 1 s)).
  assert (kinv idle s1 Q) as HI1 by (eapply kinv_frame; [..|exact HI]; done).
  assert (exists V T G th' Q', let s2 := core V T G (<[t := th']> (k_threads s)) (k_timers s) s1 in
    (if negb (mx_original_priority mx =? t_current_priority th)
     then rt_thread_control t RT_THREAD_CTRL_CHANGE_PRIORITY (mx_original_priority mx)
     else ret RT_EOK) s1 = Ok RT_EOK s2 /\ kinv idle s2 Q' /\
    t_current_priority th' = mx_original_priority mx /\ thread_stat th' = RT_THREAD_READY /\
    t_error th' = t_error th /\
    (forall h, wait_head h = true -> V !! h = k_links s !! h)) as
    (V & T & G & th' & Q' & E & HI2 & Hp & Hst' & He & Hfr).
  { destruct (Z.eqb_spec (mx_original_priority mx) (t_current_priority th)) as [Eq|Hne]; simpl.
    - exists (k_links s), (k_ready_table s), (k_ready_group s), th, Q.
      assert (core (k_links s) (k_ready_table s) (k_ready_group s) (<[t := th]> (k_threads s)) (k_timers s) s1 = s1) as ->
        by (by rewrite insert_id by done). done.
    - destruct (change_priority_ok idle s1 Q t th (mx_original_priority mx))
        as (V & T & G & th' & Q' & E & HI' & Hp & Hs & He & _ & Hfr & _);
        [done|by apply quiet_masked|done|by rewrite Hst|done|].
      exists V, T, G, th', Q'. split; [done|]. split; [done|]. split; [done|]. split; [by rewrite Hs|].
      split; [done|]. intros h Hh'. apply Hfr; [by destruct h|]. by intros p ->. }
  set (s2 := core _ _ _ _ _ _) in E, HI2.
  assert (V !! LSuspend (IMutex i) = Some (LTlist <$> ws)) as Hw2 by (by rewrite Hfr).
  assert (coherent V) as HVc by apply (lo_coherent _ (si_links _ _ (ki_sched _ _ _ HI2))).
  unfold ret in E.
  destruct ws as [|w ws].
  - exists V, T, G, (<[t := th']> (k_threads s)), (k_timers s), th', Q'. intros mx' s'.
    split; [|split; [eapply kinv_frame; [..|exact HI2]; done|split; [apply lookup_insert_eq|]]].
    + unfold rt_mutex_release, bind at 1. rewrite (thread_context_ok _ t) by (done || by eapply ctx_quiet).
      cbn [res_bind]. unfold current_deref, rt_thread_self, rt_hw_interrupt_disable, put_mutex, get_mutex, get_thread,
        list_isempty, upd_mutex, bind, gets, modify, ret.
      simpl. rewrite H5. simpl. rewrite Hm. simpl. rewrite bool_decide_true by done. simpl.
      unfold get_mutex, bind, gets. simpl. rewrite lookup_insert_eq. simpl. rewrite Hh. simpl. rewrite Ht. simpl.
      change (set_mutexes _ (set_primask 1 s)) with s1. rewrite E. simpl.
      rewrite (queue_isempty _ _ _ HVc Hw2). simpl.
      rewrite lookup_insert_eq. simpl. rewrite interrupt_enable_quiet by (by intros ? ?). simpl.
      rewrite insert_insert_eq, Ev. clear -H1. destruct s. simpl in *. by subst.
    + split; [done|]. split; [done|]. split; [done|]. split; [done|]. split; [intros h Hh' _; by apply Hfr|].
      split; [done|]. intros u x [[<- <-]|[_ Hx]]%lookup_insert_Some; [exists th; done|exists x; done].
  - set (mx2 := Mutex (mx_parent mx) 0 (prio_in (<[t := th']> (k_threads s)) w) 1 (Some w)).
    set (s3 := set_mutexes (<[i := mx2]> (k_mutexes s)) s2).
    assert (kinv idle s3 Q') as HI3 by (eapply kinv_frame; [..|exact HI2]; done).
    destruct (ipc_resume_ok idle s3 Q' (LSuspend (IMutex i)) w ws)
      as (V2 & T2 & G2 & r2 & wth & E2 & HI4 & Hwt & Hws & Hr2 & Hq2 & Hfr2); [done|by apply quiet_masked|done|done|].
    assert (w <> t) as Hwt'.
    { intros ->. simpl in Hwt. rewrite lookup_insert_eq in Hwt. injection Hwt as <-. by rewrite Hst' in Hws. }
    assert (prio_in (<[t := th']> (k_threads s)) w = t_current_priority wth) as Epw.
    { unfold prio_in. simpl in Hwt. by rewrite Hwt. }
    exists V2, T2, G2, (<[w := make_ready wth]> (<[t := th']> (k_threads s))),
      (<[TThread w := timer_flag_clear RT_TIMER_FLAG_ACTIVATED r2]> (k_timers s)), th',
      (q_set Q' (t_current_priority wth) (Q' (t_current_priority wth) ++ [w])).
    assert (prio_in (<[w := make_ready wth]> (<[t := th']> (k_threads s))) w = prio_in (<[t := th']> (k_threads s)) w) as Epw2.
    { by apply (prio_in_insert _ w wth). }
    rewrite Epw2. fold mx2. intros mx' s'.
    split; [|split; [eapply kinv_frame; [..|exact HI4]; done|]].
    + unfold rt_mutex_release, bind at 1. rewrite (thread_context_ok _ t) by (done || by eapply ctx_quiet).
      cbn [res_bind]. unfold current_deref, rt_thread_self, rt_hw_interrupt_disable, put_mutex, get_mutex, get_thread,
        list_isempty, list_next, upd_mutex, bind, gets, modify, ret.
      simpl. rewrite H5. simpl. rewrite Hm. simpl. rewrite bool_decide_true by done. simpl.
      unfold get_mutex, bind, gets. simpl. rewrite lookup_insert_eq. simpl. rewrite Hh. simpl. rewrite Ht. simpl.
      change (set_mutexes _ (set_primask 1 s)) with s1. rewrite E. simpl.
      rewrite (queue_isempty _ _ _ HVc Hw2). simpl.
      rewrite (queue_next_head _ _ _ Hw2). simpl. simpl in Hwt. rewrite Hwt. simpl.
      rewrite lookup_insert_eq. simpl. rewrite insert_insert_eq, Ev, <-Epw. change (u8 (0 + 1)) with 1. fold mx2.
      change (set_mutexes (<[i := mx2]> (k_mutexes s)) s2) with s3. rewrite E2. simpl.
      rewrite interrupt_enable_quiet by (by intros ? ?). simpl.
      unfold s'. clear -H1. destruct s. simpl in *. by subst.
    + split; [by rewrite lookup_insert_ne, lookup_insert_eq by done|].
      split; [done|]. split; [done|]. split; [done|]. split; [done|].
      split; [intros h Hh' Hne; rewrite Hfr2 by done; by apply Hfr|].
      split; [intros x [= <-]; apply stat_is_insert; left; split; [done|apply stat_ready]|].
      simpl in Hwt. rewrite lookup_insert_ne in Hwt by done.
      intros u x [[<- <-]|[_ [[<- <-]|[_ Hx]]%lookup_insert_Some]]%lookup_insert_Some;
        [exists wth; done|exists th; done|exists x; done].
Qed.

(** ** Mutexes in a running system *)
Section system.
Context (idle i : nat).
Abbreviation G := (guarI idle (mutex_inv i)).
Abbreviation R := (relyI idle (mutex_inv i)).

Lemma running_upd s t m th th' :
  running idle s t -> k_threads s !! t = Some th -> same_thread_kind th th' -> t_stat th' = t_stat th ->
  running idle (set_mutexes m (set_threads (<[t := th']> (k_threads s)) s)) t.
Proof.
  intros ((Q & HI) & [? ? ? ? ?] & (x & Hx & Hs)) Ht Hk Hst. split; [|split; [by split|]].
  - exists Q. eapply kinv_frame; [..|by apply (kinv_field idle s Q t th th')]; done.
  - apply stat_is_insert. left. split; [done|]. rewrite Ht in Hx. injection Hx as <-.
    unfold thread_stat in *. by rewrite Hst.
Qed.

Lemma after_wait_wp fuel t time s :
  running idle s t -> mutex_inv i s ->
  wp G R (after_wait fuel i t time) (fun a s' => running idle s' t /\ mutex_inv i s' /\
    exists th, k_threads s' !! t = Some th /\ a = t_error th) s.
Proof.
  intros Hrun Hinv. pose proof Hrun as (_ & [H1 H2 H3 H4 H5] & (th & Ht & Hst)).
  assert (after_wait fuel i t time s = Ok (t_error th) s) as E.
  { unfold after_wait, get_thread, rt_hw_interrupt_disable, bind, gets, modify, ret. simpl. rewrite Ht. simpl.
    destruct (Z.eqb_spec (t_error th) RT_EOK) as [->|Hne]; simpl.
    - rewrite interrupt_enable_quiet by (by intros ? ?). by destruct s.
    - rewrite (proj2 (Z.eqb_neq _ _)); [done|]. by apply (proj2 Hinv t). }
  eapply wp_ok; [exact E|]. split; [done|]. split; [done|]. by exists th.
Qed.

Lemma mutex_take_wp fuel s t time :
  running idle s t -> t <> idle -> mutex_inv i s -> time < half_tick ->
  (forall mx, k_mutexes s !! i = Some mx -> mx_owner mx = Some t -> mx_hold mx < 255) ->
  wp G R (rt_mutex_take fuel i time)
    (fun a s' => running idle s' t /\ mutex_inv i s' /\
      exists th, k_threads s' !! t = Some th /\ a = t_error th) s.
Proof.
  intros Hrun Hidle [(mx & ws & Hat) Hne] Htime Hhold.
  pose proof Hrun as ((Q & HI) & Hc & (th & Ht & Hst)). pose proof Hat as [Hm Hw Hf Ho Hs].
  destruct (kinv_thread _ _ _ _ _ HI Ht) as [Ha _ _ _ _]; [by rewrite Hst|].
  set (th0 := set_t_error RT_EOK th).
  assert (thread_stat th0 <> RT_THREAD_INIT) as Hni by (change (thread_stat th0) with (thread_stat th); by rewrite Hst).
  assert (forall e m, e <> - RT_EINTR -> no_eintr
    (set_mutexes m (set_threads (<[t := set_t_error e th]> (k_threads s)) s))) as Hne'.
  { intros e m He. eapply (no_eintr_insert s); [done|done|done]. }
  destruct Hs as [(Eo & Ev & Eh & ->)|(Ev & Eh & o & oth & Eo & Hot & Hos)].
  { eapply wp_ok; [by apply (mutex_take_free_eq s i t th mx)|].
    split; [by apply (running_upd s t _ th)|]. split; [|exists th0; split; [apply lookup_insert_eq|done]].
    split; [|by apply Hne']. eexists _, []. split; [apply lookup_insert_eq|done|done|apply Ha|].
    right. split; [done|]. split; [simpl; lia|]. exists t, th0. split; [done|]. split; [apply lookup_insert_eq|done]. }
  destruct (decide (o = t)) as [->|Hot'].
  { specialize (Hhold mx Hm Eo).
    eapply wp_ok; [by apply (mutex_take_recursive_eq s i t th mx)|].
    split; [by apply (running_upd s t _ th)|]. split; [|exists th0; split; [apply lookup_insert_eq|done]].
    split; [|by apply Hne']. eexists _, ws. split; [apply lookup_insert_eq|done|done|done|].
    right. split; [done|]. split; [simpl; rewrite u8_small; lia|].
    exists t, th0. split; [done|]. split; [apply lookup_insert_eq|done]. }
  destruct (decide (time = 0)) as [->|Hnz].
  { eapply wp_ok; [by apply (mutex_take_nowait_eq s i t th mx fuel 0 Hc Ht Hm o)|].
    split; [apply (running_upd s t (k_mutexes s) th (set_t_error (- RT_ETIMEOUT) th0)); done|].
    split; [|eexists; split; [apply lookup_insert_eq|done]]. split.
    - exists mx, ws. split; [done|done|done|done|]. right. split; [done|]. split; [done|].
      exists o, oth. split; [done|]. simpl. by rewrite lookup_insert_ne by done.
    - by apply (Hne' (- RT_ETIMEOUT) (k_mutexes s)). }
  unfold wp. rewrite (mutex_take_block_eq s i t th mx fuel time o oth) by done.
  set (s1 := set_primask 1 (set_threads (<[t := th0]> (k_threads s)) s)).
  assert (kinv idle s1 Q) as HI1.
  { eapply kinv_frame; [..|by apply (kinv_field idle s Q t th th0)]; done. }
  destruct (inherit_ok idle s1 Q t th0 o oth) as (V & T & Gr & oth' & Q' & E & HI2 & Hp' & Hs' & He' & Hfr).
  { done. } { by apply quiet_masked. } { apply lookup_insert_eq. } { done. }
  { simpl. by rewrite lookup_insert_ne by done. } { done. }
  set (s2 := core _ _ _ _ _ _) in E, HI2.
  eapply wp_bind_ok; [exact E|]. destruct Hc as [H1 H2 H3 H4 H5].
  assert (k_threads s2 !! t = Some th0) as Ht2.
  { simpl. rewrite lookup_insert_ne, lookup_insert_eq by done. done. }
  eapply (block_wp idle (mutex_inv i) (mutex_inv_switched i) _ s2 Q' (LSuspend (IMutex i)) ws t th0).
  - done.
  - by split.
  - done.
  - done.
  - simpl. by rewrite Hfr.
  - done.
  - done.
  - done.
  - done.
  - done.
  - intros V' T' G' TM n HV' Hfr'. split.
    + exists mx. eexists. split; [done|exact HV'|done|done|]. right. split; [done|]. split; [done|].
      destruct (owner_keeps (k_threads s2) t th0 (make_suspended th0) o) as (x & Hx & Hxs); [done|by rewrite stat_suspended| |eauto].
      exists oth'. split; [apply lookup_insert_eq|]. by rewrite Hs'.
    + eapply (no_eintr_insert s2); [|reflexivity|done].
      eapply (no_eintr_insert s1); [|reflexivity|rewrite He'; by eapply Hne].
      by apply (Hne' RT_EOK (k_mutexes s)).
  - intros s' Hrun' Hinv'. by apply after_wait_wp.
Qed.

Lemma mutex_release_wp s t :
  running idle s t -> mutex_inv i s ->
  wp G R (rt_mutex_release i) (fun a s' => running idle s' t /\ mutex_inv i s') s.
Proof.
  intros Hrun [(mx & ws & Hat) Hne]. pose proof Hrun as ((Q & HI) & Hc & (th & Ht & Hst)).
  pose proof Hat as [Hm Hw Hf Ho Hs].
  assert (thread_stat th <> RT_THREAD_INIT) as Hni by (by rewrite Hst).
  destruct (decide (mx_owner mx = Some t)) as [Eo|Eo].
  2:{ eapply wp_ok; [by apply (mutex_release_foreign_eq s i t th mx)|].
      split; [by apply (running_upd s t (k_mutexes s) th)|]. split.
      - exists mx, ws. split; [done..|]. destruct Hs as [Hs|(Ev & Eh & o & oth & Eo' & Hot & Hos)]; [by left|right].
        split; [done|]. split; [done|]. exists o, oth. split; [done|]. simpl.
        rewrite lookup_insert_ne by congruence. done.
      - by eapply (no_eintr_insert s). }
  destruct Hs as [(Eo' & _)|(Ev & Eh & _)]; [congruence|].
  destruct (decide (mx_hold mx = 1)) as [E1|E1].
  2:{ eapply wp_ok; [apply (mutex_release_nested_eq s i t mx); [done|done|done|lia]|].
      destruct Hc as [H1 H2 H3 H4 H5]. split.
      - split; [|split; [by split|by exists th]]. exists Q. eapply kinv_frame; [..|exact HI]; done.
      - split; [|done]. eexists _, ws. split; [apply lookup_insert_eq|done|done|done|]. right. simpl.
        split; [done|]. split; [lia|]. by exists t, th. }
  destruct (mutex_release_last_eq idle s Q i t th mx ws) as
    (V & T & Gr & TH & TM & th' & Q' & E & HI' & Ht' & Hst' & He & Hp & Hwq & Hfr & Hwr & Herr); [done..|].
  destruct Hc as [H1 H2 H3 H4 H5]. unfold wp. rewrite E. clear E.
  set (s' := core _ _ _ _ _ _) in *.
  assert (running idle s' t) as Hrun'.
  { split; [by exists Q'|]. split; [by split|]. by exists th'. }
  assert (mutex_inv i s') as Hinv'.
  { split.
    - eexists _, (tail ws). split; [apply lookup_insert_eq|done|by destruct ws| |].
      + destruct ws as [|w ws]; simpl; [lia|]. unfold prio_in.
        destruct (Hwr w eq_refl) as (x & Hx & Hxs). rewrite Hx. simpl.
        destruct (kinv_thread _ _ _ w x HI' Hx) as [Ha _ _ _ _]; [by rewrite Hxs|]. apply Ha.
      + destruct ws as [|w ws]; [by left|right]. simpl. split; [done|]. split; [lia|].
        destruct (Hwr w eq_refl) as (x & Hx & Hxs). exists w, x. split; [done|]. split; [done|]. by rewrite Hxs.
    - intros u x Hu. destruct (Herr u x Hu) as (y & Hy & ->). by eapply Hne. }
  apply wp_res_bind. destruct (bool_decide (ws <> [])).
  - apply (schedule_wp idle (mutex_inv i) (mutex_inv_switched i) s' t); [done|done|].
    intros s2 Hs2 Hi2. by eapply wp_ok.
  - simpl. by eapply wp_ok.
Qed.
End system.
End MutexProof.
