(* ===== verification/MutexTheorems.v ===== *)
(** * Mutexes: the theorems about [rt_mutex_take] and [rt_mutex_release] *)
From S2P Require Import Prelude Kservice RtList KMonad KState KPrim KInv Scheduler Object TimerBase Thread Timer Ipc KernelInv ThreadProof WaitProof TimerProof BlockProof Board SchedTheorems MutexProof.
Import Scheduler Object TimerBase Thread Timer IpcCore Mutex MutexProof.
Local Open Scope Z_scope.
Local Open Scope kmonad_scope.

Module MutexTheorems.

(** ** Mutexes of the board *)
Definition mutex_of (s : kview) (i : nat) : rt_mutex :=
  default (Mutex Board.blank_object 0 0 0 None) (k_mutexes s !! i).

Definition mutex_b (i : nat) (s : kview) (ws : list nat) : bool :=
  match k_mutexes s !! i with
  | None => false
  | Some mx =>
      bool_decide (k_links s !! LSuspend (IMutex i) = Some (LTlist <$> ws)) &&
      ((o_flag (mx_parent mx) =? RT_IPC_FLAG_FIFO) || (o_flag (mx_parent mx) =? RT_IPC_FLAG_PRIO)) &&
      bool_decide (0 <= mx_original_priority mx < 256) &&
      match mx_owner mx with
      | None => (mx_value mx =? 1) && (mx_hold mx =? 0) && bool_decide (ws = [])
      | Some o => (mx_value mx =? 0) && bool_decide (0 < mx_hold mx < 256) &&
          match k_threads s !! o with Some oth => negb (thread_stat oth =? RT_THREAD_INIT) | None => false end
      end
  end.

Lemma mutex_b_sound i s ws : mutex_b i s ws = true -> mutex_at i s (mutex_of s i) ws.
Proof.
  unfold mutex_b, mutex_of. destruct (k_mutexes s !! i) as [mx|] eqn:E; [|done].
  intros [[[H1 H2]%andb_true_iff H3]%andb_true_iff H4]%andb_true_iff. simpl. split.
  - done.
  - by eapply bool_decide_eq_true.
  - apply orb_true_iff in H2 as [H2|H2]; apply Z.eqb_eq in H2; auto.
  - by eapply bool_decide_eq_true.
  - destruct (mx_owner mx) as [o|].
    + right. apply andb_true_iff in H4 as [[Ha Hb]%andb_true_iff Hc].
      split; [by apply Z.eqb_eq|]. split; [by eapply bool_decide_eq_true|]. exists o.
      destruct (k_threads s !! o) as [oth|]; [|done]. exists oth. split; [done|]. split; [done|].
      apply Z.eqb_neq. by apply negb_true_iff.
    + left. apply andb_true_iff in H4 as [[Ha Hb]%andb_true_iff Hc].
      split; [done|]. split; [by apply Z.eqb_eq|]. split; [by apply Z.eqb_eq|]. by eapply bool_decide_eq_true.
Qed.

Definition no_eintr_b (s : kview) : bool :=
  forallb (fun '(t, th) => negb (t_error th =? - RT_EINTR)) (map_to_list (k_threads s)).

Lemma no_eintr_b_sound s : no_eintr_b s = true -> no_eintr s.
Proof.
  unfold no_eintr_b, no_eintr. rewrite forallb_forall. intros H t th Ht. specialize (H (t, th)).
  cbv beta iota in H. rewrite <-list_elem_of_In, elem_of_map_to_list in H.
  apply Z.eqb_neq, negb_true_iff. auto.
Qed.

Lemma mutex_inv_sound i s ws : mutex_b i s ws && no_eintr_b s = true -> mutex_inv i s.
Proof.
  intros [H1 H2]%andb_true_iff. split; [|by apply no_eintr_b_sound].
  exists (mutex_of s i), ws. by apply mutex_b_sound.
Qed.

(** Thread 2 (priority 20) holds mutex 0; then thread 3 (priority 10) is resumed
    and runs. *)
Definition held2 : kview := default Board.reset_state (first_state
  ((rt_mutex_take 0 0 RT_WAITING_FOREVER ;! rt_thread_resume 3 ;! rt_schedule) Board.board2)).

Lemma held2_kinv : kinv Board.idle held2 (Board.queues_of held2).
Proof. apply Board.kinv_b_sound. vm_compute. reflexivity. Qed.

Lemma held2_running : running Board.idle held2 3.
Proof.
  split; [exists (Board.queues_of held2); apply held2_kinv|].
  split; [split; vm_compute; reflexivity|]. apply Board.stat_b_sound. vm_compute. reflexivity.
Qed.

(** Thread 3 waits for mutex 0; thread 2, which holds it, runs. *)
Definition waited2 : kview := default Board.reset_state (first_state
  (rt_mutex_take 0 0 RT_WAITING_FOREVER held2)).

Lemma waited2_kinv : kinv Board.idle waited2 (Board.queues_of waited2).
Proof. apply Board.kinv_b_sound. vm_compute. reflexivity. Qed.

Lemma waited2_running : running Board.idle waited2 2.
Proof.
  split; [exists (Board.queues_of waited2); apply waited2_kinv|].
  split; [split; vm_compute; reflexivity|]. apply Board.stat_b_sound. vm_compute. reflexivity.
Qed.

#[local] Opaque held2 waited2.

(** ** Safety in a running system *)

(** C4: mutexes in a running system.  [rt_mutex_take], called by a thread that is
    not the idle thread and has not taken the mutex 255 times already (the hold
    count has eight bits), and [rt_mutex_release] never fault; at every switch
    the kernel invariant holds and a ready thread runs; they return, when they
    are only resumed in states of the invariant, with the invariant and the
    mutex free with no waiter or held by a started thread.  The result of a take
    is the error number of the thread. *)
Theorem mutex_safe idle i s t :
  running idle s t -> mutex_inv i s ->
  (forall fuel time, t <> idle -> time < half_tick ->
    (forall mx, k_mutexes s !! i = Some mx -> mx_owner mx = Some t -> mx_hold mx < 255) ->
    wp (guarI idle (mutex_inv i)) (relyI idle (mutex_inv i)) (rt_mutex_take fuel i time)
      (fun a s' => running idle s' t /\ mutex_inv i s' /\
        exists th, k_threads s' !! t = Some th /\ a = t_error th) s) /\
  wp (guarI idle (mutex_inv i)) (relyI idle (mutex_inv i)) (rt_mutex_release i)
    (fun a s' => running idle s' t /\ mutex_inv i s') s.
Proof. intros Hr Hi. split; [intros; by apply mutex_take_wp|by apply mutex_release_wp]. Qed.

(** Thread 3 takes and releases the mutex thread 2 holds. *)
Example mutex_safe_witness :
  wp (guarI Board.idle (mutex_inv 0)) (relyI Board.idle (mutex_inv 0)) (rt_mutex_take 0 0 RT_WAITING_FOREVER)
    (fun a s' => running Board.idle s' 3 /\ mutex_inv 0 s' /\
      exists th, k_threads s' !! 3%nat = Some th /\ a = t_error th) held2 /\
  wp (guarI Board.idle (mutex_inv 0)) (relyI Board.idle (mutex_inv 0)) (rt_mutex_release 0)
    (fun a s' => running Board.idle s' 3 /\ mutex_inv 0 s') held2.
Proof.
  destruct (mutex_safe Board.idle 0 held2 3) as [H1 H2].
  - apply held2_running.
  - apply (mutex_inv_sound 0 held2 []). vm_compute. reflexivity.
  - split; [|exact H2]. apply H1; [discriminate|reflexivity|].
    intros mx Hm Ho. exfalso.
    assert (mx_owner (mutex_of held2 0) = Some 2%nat) as E by (vm_compute; reflexivity).
    unfold mutex_of in E. rewrite Hm in E. simpl in E. rewrite Ho in E. discriminate E.
Defined.

(** ** Ownership *)

(** Ownership and recursion.  A free mutex is taken at once, the caller's
    priority recorded; the owner takes it again by counting; only the owner can
    release it (anyone else gets [-RT_ERROR] and the mutex does not change), and
    a release that is not the last only counts down. *)
Theorem mutex_ownership s i t th mx fuel time :
  thread_ctx s t -> k_threads s !! t = Some th -> k_mutexes s !! i = Some mx ->
  let errno e := set_threads (<[t := set_t_error e th]> (k_threads s)) s in
  (mx_owner mx = None -> mx_value mx = 1 -> mx_hold mx = 0 ->
     rt_mutex_take fuel i time s = Ok RT_EOK (set_mutexes
       (<[i := Mutex (mx_parent mx) 0 (t_current_priority th) 1 (Some t)]> (k_mutexes s)) (errno RT_EOK))) /\
  (mx_owner mx = Some t -> 0 <= mx_hold mx < 255 ->
     rt_mutex_take fuel i time s = Ok RT_EOK (set_mutexes
       (<[i := set_mx_hold (mx_hold mx + 1) mx]> (k_mutexes s)) (errno RT_EOK))) /\
  (mx_owner mx <> Some t -> rt_mutex_release i s = Ok (- RT_ERROR) (errno (- RT_ERROR))) /\
  (mx_owner mx = Some t -> 1 < mx_hold mx < 256 ->
     rt_mutex_release i s = Ok RT_EOK (set_mutexes
       (<[i := set_mx_hold (mx_hold mx - 1) mx]> (k_mutexes s)) s)).
Proof.
  intros Hc Ht Hm errno. split; [|split; [|split]].
  - intros. by apply mutex_take_free_eq.
  - intros Ho Hh. rewrite (mutex_take_recursive_eq s i t th mx) by done. by rewrite u8_small by lia.
  - intros Ho. by apply (mutex_release_foreign_eq s i t th mx).
  - intros Ho Hh. by apply (mutex_release_nested_eq s i t mx).
Qed.

(** Thread 3 tries to release the mutex of thread 2. *)
Example mutex_ownership_witness :
  rt_mutex_release 0 held2 = Ok (- RT_ERROR) (set_threads
    (<[3%nat := set_t_error (- RT_ERROR) (Board.thread_of held2 3)]> (k_threads held2)) held2).
Proof.
  destruct (mutex_ownership held2 0 3 (Board.thread_of held2 3) (mutex_of held2 0) 0 0) as (_ & _ & H & _).
  - apply held2_running.
  - apply Board.thread_of_lookup. vm_compute. reflexivity.
  - apply (mutex_b_sound 0 held2 []). vm_compute. reflexivity.
  - apply H. vm_compute. discriminate.
Defined.
(** ** Priority inheritance and hand-over *)

(** C7: priority inheritance.  A thread that waits for a mutex held by another
    one first raises the owner to its own priority if that is higher (the owner
    then runs at the higher of the two priorities); the mutex stays with the
    owner, the thread waits in the mutex's list at the place its flag says, and
    the processor goes to the highest ready thread.  When the thread runs again
    the call returns its error number. *)
Theorem mutex_priority_inheritance idle s Q i t th mx ws o oth fuel time :
  kinv idle s Q -> thread_ctx s t -> k_threads s !! t = Some th -> thread_stat th = RT_THREAD_READY ->
  t <> idle -> mutex_at i s mx ws -> mx_owner mx = Some o -> o <> t -> k_threads s !! o = Some oth ->
  time <> 0 -> time < half_tick ->
  exists to s' k oth',
    rt_mutex_take fuel i time s = Switch t to s' k /\ running idle s' to /\
    k_threads s' !! o = Some oth' /\ thread_stat oth' = thread_stat oth /\
    t_current_priority oth' = Z.min (t_current_priority th) (t_current_priority oth) /\
    stat_is (k_threads s') t RT_THREAD_SUSPEND /\
    mutex_at i s' mx (wait_insert (prio_in (k_threads s')) (o_flag (mx_parent mx)) t ws) /\
    (forall s2 th2, quiet s2 -> k_threads s2 !! t = Some th2 -> t_error th2 <> - RT_EINTR ->
      k s2 = Ok (t_error th2) s2).
Proof.
  intros HI Hc Ht Hst Hid Hat Ho Hne Hoth Hnz Htime.
  pose proof Hat as [Hm Hw Hf Hor Hs].
  destruct Hs as [(Ho' & _)|(Hv & Hh & o' & x & Ho' & Hx & Hxs)]; [congruence|].
  rewrite Ho in Ho'. injection Ho' as <-. rewrite Hoth in Hx. injection Hx as <-.
  rewrite (mutex_take_block_eq s i t th mx fuel time o oth) by done.
  set (th0 := set_t_error RT_EOK th).
  set (s1 := set_primask 1 (set_threads (<[t := th0]> (k_threads s)) s)).
  assert (kinv idle s1 Q) as HI1.
  { eapply kinv_frame; [..|by apply (kinv_field idle s Q t th th0)]; done. }
  destruct (inherit_ok idle s1 Q t th0 o oth) as (V & T & Gr & oth' & Q' & E & HI2 & Hp' & Hs' & He' & Hfr).
  { done. } { by apply quiet_masked. } { apply lookup_insert_eq. } { done. }
  { simpl. by rewrite lookup_insert_ne by done. } { done. }
  rewrite (bind_ok _ _ _ _ _ E). set (s2 := core _ _ _ _ _ _) in E, HI2 |- *.
  assert (k_threads s2 !! t = Some th0) as Ht2 by (simpl; by rewrite lookup_insert_ne, lookup_insert_eq).
  destruct Hc as [C1 C2 C3 C4 C5].
  destruct (block_eq (after_wait fuel i t time) idle s2 Q' (LSuspend (IMutex i)) ws t th0
    (o_flag (mx_parent mx)) time) as (V2 & T2 & G2 & r & n & p & to & E2 & [HG Hto] & _ & HV & _);
    [done|by split|done|done|simpl; by rewrite Hfr|done..|].
  eexists to, _, _, oth'. split; [exact E2|]. split; [exact HG|].
  assert (<[t:=make_suspended th0]> (k_threads s2) !! o = Some oth') as Hoth'
    by (rewrite lookup_insert_ne by done; apply lookup_insert_eq).
  split; [exact Hoth'|]. split; [done|]. split; [done|].
  split; [eexists; split; [apply lookup_insert_eq|apply stat_suspended]|]. split.
  - split; [exact Hm| |done|done|].
    + simpl. rewrite HV. do 2 f_equal. apply wait_insert_ext. intros u. symmetry.
      by apply (prio_in_insert (k_threads s2) t th0 (make_suspended th0)).
    + right. split; [done|]. split; [done|]. exists o, oth'. split; [done|]. split; [exact Hoth'|]. by rewrite Hs'.
  - intros s3 th3 Hq3 H3 He3. unfold after_wait, get_thread, rt_hw_interrupt_disable, bind, gets, modify, ret.
    simpl. rewrite H3. simpl. destruct (Z.eqb_spec (t_error th3) RT_EOK) as [Ee|Ee]; simpl.
    + rewrite interrupt_enable_quiet by (unfold quiet; done). rewrite Ee. simpl. by destruct s3.
    + by rewrite (proj2 (Z.eqb_neq _ _) He3).
Qed.

(** Thread 3 (priority 10) waits for the mutex of thread 2 (priority 20). *)
Example mutex_priority_inheritance_witness :
  exists to s' k oth', rt_mutex_take 0 0 RT_WAITING_FOREVER held2 = Switch 3 to s' k /\
    running Board.idle s' to /\ k_threads s' !! 2%nat = Some oth' /\ t_current_priority oth' = 10.
Proof.
  destruct (mutex_priority_inheritance Board.idle held2 (Board.queues_of held2) 0 3 (Board.thread_of held2 3)
    (mutex_of held2 0) [] 2 (Board.thread_of held2 2) 0 RT_WAITING_FOREVER)
    as (to & s' & k & oth' & E & HG & Hoth & _ & Hp & _).
  - apply held2_kinv.
  - apply held2_running.
  - apply Board.thread_of_lookup. vm_compute. reflexivity.
  - vm_compute. reflexivity.
  - discriminate.
  - apply mutex_b_sound. vm_compute. reflexivity.
  - vm_compute. reflexivity.
  - discriminate.
  - apply Board.thread_of_lookup. vm_compute. reflexivity.
  - discriminate.
  - reflexivity.
  - exists to, s', k, oth'. split; [exact E|]. split; [exact HG|]. split; [exact Hoth|].
    rewrite Hp. vm_compute. reflexivity.
Defined.

(** The last release. *)
Lemma last_release idle s Q i t th mx ws :
  kinv idle s Q -> thread_ctx s t -> k_threads s !! t = Some th -> thread_stat th = RT_THREAD_READY ->
  mutex_at i s mx ws -> mx_owner mx = Some t -> mx_hold mx = 1 ->
  exists s' Q' th' mx',
    kinv idle s' Q' /\ k_threads s' !! t = Some th' /\ thread_stat th' = RT_THREAD_READY /\
    t_current_priority th' = mx_original_priority mx /\
    k_mutexes s' = <[i := mx']> (k_mutexes s) /\
    k_links s' !! LSuspend (IMutex i) = Some (LTlist <$> tail ws) /\
    match ws with
    | [] => rt_mutex_release i s = Ok RT_EOK s' /\
        mx_owner mx' = None /\ mx_value mx' = 1 /\ mx_hold mx' = 0
    | w :: _ => mx_owner mx' = Some w /\ mx_value mx' = 0 /\ mx_hold mx' = 1 /\
        mx_original_priority mx' = prio_in (k_threads s') w /\
        stat_is (k_threads s') w RT_THREAD_READY /\
        exists p to q, is_highest Q' p /\ Q' p = to :: q /\
          rt_mutex_release i s = res_bind (reschedule p to t s') (fun _ => ret RT_EOK)
    end.
Proof.
  intros HI Hc Ht Hst Hat Ho Hh.
  destruct (mutex_release_last_eq idle s Q i t th mx ws HI Hc Ht Hst Hat Ho Hh)
    as (V & T & G & TH & TM & th' & Q' & E & HI' & Ht' & Hst' & _ & Hp' & HV & _ & Hw & _).
  set (mx' := match ws with [] => _ | _ => _ end) in E, HI'.
  set (s' := core _ _ _ _ _ _) in E, HI'. exists s', Q', th', mx'.
  split; [exact HI'|]. split; [exact Ht'|]. split; [done|]. split; [done|]. split; [done|].
  split; [exact HV|]. destruct ws as [|w ws]; [by rewrite E|].
  split; [done|]. split; [done|]. split; [done|]. split; [done|]. split; [by apply Hw|].
  destruct Hc as [C1 C2 C3 C4 C5].
  destruct (kinv_schedule idle s' Q' t HI') as (p & to & q & Hp & HQ & Es); [by intros ? ?|done|done|].
  exists p, to, q. split; [done|]. split; [done|].
  rewrite E. rewrite bool_decide_true by done. unfold bind. by rewrite Es.
Qed.

(** C8: the last release.  The owner goes back to the priority it had when it
    took the mutex.  With waiters the mutex is handed to the first of them,
    which is made ready and is recorded as the owner with its own priority,
    and the scheduler chooses the highest ready thread; without waiters the
    mutex is free. *)
Theorem mutex_hand_over idle s Q i t th mx ws :
  kinv idle s Q -> thread_ctx s t -> k_threads s !! t = Some th -> thread_stat th = RT_THREAD_READY ->
  mutex_at i s mx ws -> mx_owner mx = Some t -> mx_hold mx = 1 ->
  exists s' Q' th' mx',
    kinv idle s' Q' /\ k_threads s' !! t = Some th' /\ thread_stat th' = RT_THREAD_READY /\
    t_current_priority th' = mx_original_priority mx /\
    k_mutexes s' = <[i := mx']> (k_mutexes s) /\
    k_links s' !! LSuspend (IMutex i) = Some (LTlist <$> tail ws) /\
    match ws with
    | [] => rt_mutex_release i s = Ok RT_EOK s' /\
        mx_owner mx' = None /\ mx_value mx' = 1 /\ mx_hold mx' = 0
    | w :: _ => mx_owner mx' = Some w /\ mx_value mx' = 0 /\ mx_hold mx' = 1 /\
        mx_original_priority mx' = prio_in (k_threads s') w /\
        stat_is (k_threads s') w RT_THREAD_READY /\
        exists p to q, is_highest Q' p /\ Q' p = to :: q /\
          rt_mutex_release i s = res_bind (reschedule p to t s') (fun _ => ret RT_EOK)
    end.
Proof. apply last_release. Qed.

(** Thread 2 releases the mutex thread 3 waits for. *)
Example mutex_hand_over_witness :
  exists s' Q' th' mx',
    kinv Board.idle s' Q' /\ k_threads s' !! 2%nat = Some th' /\ t_current_priority th' = 20 /\
    k_mutexes s' = <[0%nat := mx']> (k_mutexes waited2) /\ mx_owner mx' = Some 3%nat.
Proof.
  destruct (mutex_hand_over Board.idle waited2 (Board.queues_of waited2) 0 2 (Board.thread_of waited2 2)
    (mutex_of waited2 0) [3%nat]) as (s' & Q' & th' & mx' & HI & Ht & _ & Hp & Hm & _ & Ho & _).
  - apply waited2_kinv.
  - apply waited2_running.
  - apply Board.thread_of_lookup. vm_compute. reflexivity.
  - vm_compute. reflexivity.
  - apply mutex_b_sound. vm_compute. reflexivity.
  - vm_compute. reflexivity.
  - vm_compute. reflexivity.
  - exists s', Q', th', mx'. split; [exact HI|]. split; [exact Ht|].
    split; [rewrite Hp; vm_compute; reflexivity|]. auto.
Defined.

(** ** Nested mutexes *)

(** Continue the thread that left the processor in the state another one
    reached. *)
Definition state_of {A} (r : res kview A) : kview := default Board.reset_state (first_state r).
Definition resume_in {A} (r : res kview A) (s : kview) : res kview A :=
  match r with Switch _ _ _ k => k s | r => r end.

(** C20: nested mutexes leave a thread at an inherited priority.  A thread that
    owns mutex [m] runs at a priority it inherited from a waiter and takes a free
    mutex [n].  Releasing [m] takes it back to its own priority and hands [m] to
    the waiter; but [n] has recorded the inherited priority as the original one,
    so that releasing [n], whenever the thread runs again and nobody waits for
    [n], raises it to the inherited priority: it owns neither mutex any more and
    keeps the priority of the waiter. *)
Theorem nested_mutexes_keep_priority idle s Q t th m mx w ws n nx fuel time :
  kinv idle s Q -> thread_ctx s t -> k_threads s !! t = Some th -> thread_stat th = RT_THREAD_READY ->
  mutex_at m s mx (w :: ws) -> mx_owner mx = Some t -> mx_hold mx = 1 ->
  t_current_priority th < mx_original_priority mx ->
  n <> m -> mutex_at n s nx [] -> mx_owner nx = None ->
  let nx1 := Mutex (mx_parent nx) 0 (t_current_priority th) 1 (Some t) in
  exists s1, rt_mutex_take fuel n time s = Ok RT_EOK s1 /\ k_mutexes s1 !! n = Some nx1 /\
    (exists s2 Q2 th2 mx2 p to q, rt_mutex_release m s1 = res_bind (reschedule p to t s2) (fun _ => ret RT_EOK) /\
      kinv idle s2 Q2 /\ is_highest Q2 p /\ Q2 p = to :: q /\
      k_threads s2 !! t = Some th2 /\ t_current_priority th2 = mx_original_priority mx /\
      k_mutexes s2 !! m = Some mx2 /\ mx_owner mx2 = Some w /\ k_mutexes s2 !! n = Some nx1) /\
    (forall s3 Q3 th3, kinv idle s3 Q3 -> thread_ctx s3 t -> k_threads s3 !! t = Some th3 ->
      thread_stat th3 = RT_THREAD_READY -> mutex_at n s3 nx1 [] ->
      exists s4 Q4 th4 nx4, rt_mutex_release n s3 = Ok RT_EOK s4 /\ kinv idle s4 Q4 /\
        k_threads s4 !! t = Some th4 /\ t_current_priority th4 = t_current_priority th /\
        t_current_priority th4 < mx_original_priority mx /\
        k_mutexes s4 = <[n := nx4]> (k_mutexes s3) /\ mx_owner nx4 = None).
Proof.
  intros HI Hc Ht Hst [Mm Mw Mf Mo Ms] Ho Hh Hlow Hne [Nm Nw Nf No Ns] Hfree nx1.
  destruct Ns as [(_ & Nv & Nh & _)|(_ & _ & o & _ & E & _)]; [|congruence].
  destruct Ms as [(E & _)|(Mv & _)]; [congruence|].
  set (th1 := set_t_error RT_EOK th). set (s1 := set_mutexes (<[n := nx1]> (k_mutexes s)) (set_threads (<[t := th1]> (k_threads s)) s)).
  exists s1. split; [exact (mutex_take_free_eq s n t th nx fuel time Hc Ht Nm Hfree Nv Nh)|].
  split; [apply lookup_insert_eq|]. split.
  - assert (kinv idle s1 Q) as HI1 by (eapply kinv_frame; [..|apply (kinv_field idle s Q t th th1); done]; done).
    assert (mutex_at m s1 mx (w :: ws)) as Hat1.
    { split; [simpl; by rewrite lookup_insert_ne|done|done|done|]. right. split; [done|]. split; [lia|].
      exists t, th1. split; [done|]. split; [apply lookup_insert_eq|].
      change (thread_stat th1) with (thread_stat th). by rewrite Hst. }
    destruct (last_release idle s1 Q m t th1 mx (w :: ws) HI1) as (s2 & Q2 & th2 & mx2 & HI2 & Ht2 & _ & Hp2 & Hm2 & _ & Hx);
      [destruct Hc; by split|apply lookup_insert_eq|done|done|done|done|].
    destruct Hx as (Ho2 & _ & _ & _ & _ & p & to & q & Hh2 & HQ2 & E2). exists s2, Q2, th2, mx2, p, to, q.
    split; [exact E2|]. split; [done|]. split; [done|]. split; [done|]. split; [done|]. split; [done|].
    rewrite Hm2. split; [apply lookup_insert_eq|]. split; [done|]. rewrite lookup_insert_ne by done. apply lookup_insert_eq.
  - intros s3 Q3 th3 HI3 Hc3 Ht3 Hst3 Hat3.
    destruct (last_release idle s3 Q3 n t th3 nx1 [] HI3 Hc3 Ht3 Hst3 Hat3 eq_refl eq_refl)
      as (s4 & Q4 & th4 & nx4 & HI4 & Ht4 & _ & Hp4 & Hm4 & _ & E4 & Ho4 & _).
    exists s4, Q4, th4, nx4. rewrite Hp4. by repeat (split; [done|]).
Qed.

(** On the board: thread 2 (priority 20) owns mutex 0 and has inherited priority
    10 from thread 3; at the end it runs at 10 and owns no mutex. *)
Definition nested_back : kview :=
  let third := rt_mutex_take 0 0 RT_WAITING_FOREVER held2 in
  let second := (rt_mutex_take 0 1 RT_WAITING_FOREVER ;! rt_mutex_release 0) (state_of third) in
  let third_done := (rt_thread_suspend 3 ;! rt_schedule) (state_of (resume_in third (state_of second))) in
  let fourth_done := (rt_thread_suspend 4 ;! rt_schedule) (state_of third_done) in
  state_of (resume_in second (state_of fourth_done)).

Lemma nested_facts : mutex_b 0 waited2 [3%nat] = true /\ mutex_b 1 waited2 [] = true /\ mutex_b 1 nested_back [] = true /\
  mutex_of nested_back 1 = Mutex (mx_parent (mutex_of waited2 1)) 0 10 1 (Some 2%nat) /\
  t_current_priority (Board.thread_of waited2 2) = 10 /\ t_current_priority (Board.thread_of nested_back 2) = 20 /\
  thread_stat (Board.thread_of nested_back 2) = RT_THREAD_READY.
Proof. repeat split; vm_compute; reflexivity. Qed.
Lemma nested_back_kinv : kinv Board.idle nested_back (Board.queues_of nested_back).
Proof. apply Board.kinv_b_sound. vm_compute. reflexivity. Qed.
Lemma nested_back_ctx : thread_ctx nested_back 2 /\ k_threads nested_back !! 2%nat = Some (Board.thread_of nested_back 2).
Proof. split; [split; vm_compute; reflexivity|apply Board.thread_of_lookup; vm_compute; reflexivity]. Qed.

Example nested_mutexes_keep_priority_witness :
  exists s4 th4 nx4, rt_mutex_release 1 nested_back = Ok RT_EOK s4 /\ k_threads s4 !! 2%nat = Some th4 /\
    t_current_priority th4 = 10 /\ k_mutexes s4 = <[1%nat := nx4]> (k_mutexes nested_back) /\ mx_owner nx4 = None.
Proof.
  destruct nested_facts as (F0 & F1 & F2 & Fn & Fp & _ & Fs).
  destruct (nested_mutexes_keep_priority Board.idle waited2 (Board.queues_of waited2) 2 (Board.thread_of waited2 2)
    0 (mutex_of waited2 0) 3 [] 1 (mutex_of waited2 1) 0 RT_WAITING_FOREVER) as (s1 & _ & _ & _ & H).
  - apply waited2_kinv.
  - apply waited2_running.
  - apply Board.thread_of_lookup. vm_compute. reflexivity.
  - vm_compute. reflexivity.
  - apply mutex_b_sound, F0.
  - vm_compute. reflexivity.
  - vm_compute. reflexivity.
  - vm_compute. reflexivity.
  - discriminate.
  - apply mutex_b_sound, F1.
  - vm_compute. reflexivity.
  - destruct (H nested_back (Board.queues_of nested_back) (Board.thread_of nested_back 2)) as (s4 & Q4 & th4 & nx4 & E & _ & Ht & Hq & _ & Hm & Hf).
    + apply nested_back_kinv.
    + apply nested_back_ctx.
    + apply nested_back_ctx.
    + exact Fs.
    + rewrite Fp, <-Fn. apply mutex_b_sound, F2.
    + exists s4, th4, nx4. split; [exact E|]. split; [exact Ht|]. split; [by rewrite Hq, Fp|]. split; [exact Hm|exact Hf].
Defined.
End MutexTheorems.
