(* ===== verification/MailboxProof.v ===== *)
(** * Mailboxes: the ring of messages, and what a blocking round does

    [mb_ring m vals]: the mailbox holds the values [vals], oldest first. *)
From S2P Require Import Prelude Kservice RtList KMonad KState KPrim KInv Scheduler Object TimerBase Thread Timer Ipc IpcMsg KernelInv WaitProof TimerProof BlockProof.
Import Scheduler Object TimerBase Thread Timer IpcCore Mailbox.
Local Open Scope Z_scope.
Local Open Scope kmonad_scope.

Module MailboxProof.

(** ** The ring *)
Record mb_ring (m : rt_mailbox) (vals : list Z) : Prop := {
  mr_size : 0 < mb_size m < 65536;
  mr_pool : Z.of_nat (length (mb_msg_pool m)) = mb_size m;
  mr_entry : mb_entry m = Z.of_nat (length vals);
  mr_cap : mb_entry m <= mb_size m;
  mr_out : 0 <= mb_out_offset m < mb_size m;
  mr_in : mb_in_offset m = (mb_out_offset m + mb_entry m) mod mb_size m;
  mr_slot k v : vals !! k = Some v ->
    mb_msg_pool m !! Z.to_nat ((mb_out_offset m + Z.of_nat k) mod mb_size m) = Some v;
}.

Lemma bump_mod x n : 0 <= x < n -> n < 65536 -> bump x n = (x + 1) mod n.
Proof.
  intros Hx Hn. unfold bump. rewrite u16_small by lia. destruct (Z.leb_spec n (x + 1)).
  - replace (x + 1) with n by lia. by rewrite Z.mod_same by lia.
  - by rewrite Z.mod_small by lia.
Qed.

(** Two positions of the ring less than a whole turn apart differ. *)
Lemma mod_shift_inj o j k n :
  0 <= j < n -> 0 <= k < n -> (o + j) mod n = (o + k) mod n -> j = k.
Proof.
  intros Hj Hk E. rewrite !Z.mod_eq in E by lia.
  assert (n * ((o + j) / n - (o + k) / n) = j - k) as E' by lia.
  destruct (Z.eq_dec ((o + j) / n) ((o + k) / n)) as [Eq|Ne]; [rewrite Eq in E'; lia|]. nia.
Qed.

Definition mb_stored (m : rt_mailbox) (v : Z) : rt_mailbox :=
  Mailbox (mb_parent m) (mb_pool_addr m) (<[Z.to_nat (mb_in_offset m) := v]> (mb_msg_pool m)) (mb_size m)
    (u16 (mb_entry m + 1)) (bump (mb_in_offset m) (mb_size m)) (mb_out_offset m).

Definition mb_fetched (m : rt_mailbox) : rt_mailbox :=
  Mailbox (mb_parent m) (mb_pool_addr m) (mb_msg_pool m) (mb_size m) (u16 (mb_entry m - 1)) (mb_in_offset m)
    (bump (mb_out_offset m) (mb_size m)).

Lemma ring_in_range m vals : mb_ring m vals -> 0 <= mb_in_offset m < mb_size m.
Proof. intros [? ? ? ? ? Hi ?]. rewrite Hi. apply Z.mod_pos_bound. lia. Qed.

Lemma ring_stored m vals v :
  mb_ring m vals -> mb_entry m < mb_size m ->
  is_Some (mb_msg_pool m !! Z.to_nat (mb_in_offset m)) /\ mb_ring (mb_stored m v) (vals ++ [v]).
Proof.
  intros HR Hlt. pose proof (ring_in_range _ _ HR) as Hin. destruct HR as [Hs Hp He Hc Ho Hi Hsl].
  split; [apply lookup_lt_is_Some; lia|]. split; simpl; try done.
  - by rewrite length_insert.
  - rewrite u16_small, length_app by lia. simpl. lia.
  - rewrite u16_small; lia.
  - rewrite bump_mod, u16_small, Hi by lia. rewrite Zplus_mod_idemp_l. f_equal. lia.
  - intros k w Hk. apply lookup_app_Some in Hk as [Hk|[Hk1 Hk2]].
    + rewrite list_lookup_insert_ne; [by apply Hsl|]. intros E. apply lookup_lt_Some in Hk as Hlen.
      apply Z2Nat.inj in E; [|lia|apply Z.mod_pos_bound; lia]. rewrite Hi in E.
      apply mod_shift_inj in E; lia.
    + apply list_lookup_singleton_Some in Hk2 as [Hk2 ->].
      replace (Z.of_nat k) with (mb_entry m) by lia. rewrite <-Hi. apply list_lookup_insert_eq. lia.
Qed.

Lemma ring_fetched m v vals :
  mb_ring m (v :: vals) ->
  mb_msg_pool m !! Z.to_nat (mb_out_offset m) = Some v /\ mb_ring (mb_fetched m) vals.
Proof.
  intros [Hs Hp He Hc Ho Hi Hsl]. split.
  { specialize (Hsl 0%nat v eq_refl). rewrite Z.add_0_r, Z.mod_small in Hsl by lia. done. }
  simpl in He. assert (bump (mb_out_offset m) (mb_size m) = (mb_out_offset m + 1) mod mb_size m) as Eb
    by (apply bump_mod; lia). split; simpl; try done.
  - rewrite u16_small; lia.
  - rewrite u16_small; lia.
  - rewrite Eb. apply Z.mod_pos_bound. lia.
  - rewrite Eb, Hi, u16_small, Zplus_mod_idemp_l by lia. f_equal. lia.
  - intros k w Hk. specialize (Hsl (S k) w Hk). rewrite Eb, Zplus_mod_idemp_l.
    rewrite <-Hsl. do 3 f_equal. lia.
Qed.

(** A fresh mailbox is empty. *)
Lemma ring_init parent addr pool size :
  0 < size < 65536 -> Z.of_nat (length pool) = size -> mb_ring (Mailbox parent addr pool size 0 0 0) [].
Proof. intros. split; simpl; try done; try lia. Qed.

(** Mailbox [i] with the receivers [rs] and the senders [ws] that wait. *)
Record mb_at (i : nat) (s : kview) (m : rt_mailbox) (vals : list Z) (rs ws : list nat) : Prop := {
  mba_mb : k_mbs s !! i = Some m;
  mba_ring : mb_ring m vals;
  mba_recv : k_links s !! LSuspend (IMb i) = Some (LTlist <$> rs);
  mba_send : k_links s !! LSender i = Some (LTlist <$> ws);
  mba_flag : o_flag (mb_parent m) = RT_IPC_FLAG_FIFO \/ o_flag (mb_parent m) = RT_IPC_FLAG_PRIO;
}.
End MailboxProof.
