(* ===== verification/MailboxTheorems.v ===== *)
(** * Mailboxes: the theorems about [rt_mb_send_wait] and [rt_mb_recv] *)
From S2P Require Import Prelude Kservice RtList KMonad KState KPrim KInv Scheduler Object TimerBase Thread Timer Ipc IpcMsg KernelInv WaitProof TimerProof BlockProof Board SchedTheorems MailboxProof.
Import Scheduler Object TimerBase Thread Timer IpcCore Mailbox MailboxProof SchedTheorems.
Local Open Scope Z_scope.
Local Open Scope kmonad_scope.

Module MailboxTheorems.

(** ** Mailbox 0 of the board *)
Definition mb_of (s : kview) (i : nat) : rt_mailbox :=
  default (Mailbox Board.blank_object 0 [] 0 0 0 0) (k_mbs s !! i).

Definition ring_b (m : rt_mailbox) (vals : list Z) : bool :=
  bool_decide (0 < mb_size m < 65536) && (Z.of_nat (length (mb_msg_pool m)) =? mb_size m) &&
  (mb_entry m =? Z.of_nat (length vals)) && (mb_entry m <=? mb_size m) &&
  bool_decide (0 <= mb_out_offset m < mb_size m) &&
  (mb_in_offset m =? (mb_out_offset m + mb_entry m) mod mb_size m) &&
  forallb (fun k => bool_decide
    (mb_msg_pool m !! Z.to_nat ((mb_out_offset m + Z.of_nat k) mod mb_size m) = vals !! k))
    (seq 0 (length vals)).

Lemma ring_b_sound m vals : ring_b m vals = true -> mb_ring m vals.
Proof.
  unfold ring_b. intros [[[[[[H1 H2]%andb_true_iff H3]%andb_true_iff H4]%andb_true_iff H5]%andb_true_iff
    H6]%andb_true_iff H7]%andb_true_iff.
  apply bool_decide_eq_true in H1, H5. apply Z.eqb_eq in H2, H3, H6. apply Z.leb_le in H4.
  split; try done. intros k v Hk. rewrite forallb_forall in H7. rewrite <-Hk.
  eapply bool_decide_eq_true, H7. apply in_seq. apply lookup_lt_Some in Hk. lia.
Qed.

Definition mb_b (i : nat) (s : kview) (vals : list Z) (rs ws : list nat) : bool :=
  match k_mbs s !! i with
  | None => false
  | Some m => ring_b m vals &&
      bool_decide (k_links s !! LSuspend (IMb i) = Some (LTlist <$> rs)) &&
      bool_decide (k_links s !! LSender i = Some (LTlist <$> ws)) &&
      ((o_flag (mb_parent m) =? RT_IPC_FLAG_FIFO) || (o_flag (mb_parent m) =? RT_IPC_FLAG_PRIO))
  end.

Lemma mb_b_sound i s vals rs ws : mb_b i s vals rs ws = true -> mb_at i s (mb_of s i) vals rs ws.
Proof.
  unfold mb_b, mb_of. destruct (k_mbs s !! i) as [m|] eqn:E; [|done].
  intros [[[H1 H2]%andb_true_iff H3]%andb_true_iff H4]%andb_true_iff. simpl. split.
  - done.
  - by apply ring_b_sound.
  - by eapply bool_decide_eq_true.
  - by eapply bool_decide_eq_true.
  - apply orb_true_iff in H4 as [H4|H4]; apply Z.eqb_eq in H4; auto.
Qed.

(** ** Sending *)

(** The state after the value is stored. *)
Definition put_ring (i : nat) (m : rt_mailbox) (s : kview) : kview :=
  set_mbs (<[i := m]> (k_mbs s)) s.

Lemma send_enter idle s Q i m vals rs ws v timeout fuel :
  kinv idle s Q -> mb_at i s m vals rs ws -> mb_entry m < mb_size m ->
  rt_mb_send_wait fuel i v timeout s =
    (if bool_decide (rs = []) then rt_hw_interrupt_enable (k_primask s) ;! ret RT_EOK
     else rt_ipc_list_resume (LSuspend (IMb i)) ;! rt_hw_interrupt_enable (k_primask s) ;! rt_schedule ;! ret RT_EOK)
    (put_ring i (mb_stored m v) (set_primask 1 s)).
Proof.
  intros HI [Hm HR Hr _ _] Hlt. destruct (ring_stored m vals v HR Hlt) as [[old Hslot] _].
  pose proof (queue_isempty _ _ _ (lo_coherent _ (si_links _ _ (ki_sched _ _ _ HI))) Hr) as He.
  assert ((mb_entry m =? mb_size m) = false) as Hne by (apply Z.eqb_neq; lia).
  unfold rt_mb_send_wait, rt_thread_self, rt_hw_interrupt_disable, get_mb, bind, gets, modify, ret. simpl.
  rewrite Hm. simpl. rewrite Hne. simpl. destruct fuel; simpl;
  unfold get_mb, bind, gets; simpl; rewrite Hm; simpl; rewrite Hne; simpl;
  unfold mb_put, get_mb, put_mb, list_isempty, bind, gets, modify; simpl; rewrite Hm; simpl;
  rewrite Hslot; simpl; rewrite He; destruct rs; done.
Qed.

(** C13: [rt_mb_send_wait] into a mailbox that is not full, in a thread or in a
    handler.  The value is appended to the contents of the mailbox and [RT_EOK]
    is returned; with receivers waiting, the first of them becomes ready and the
    scheduler chooses the highest ready thread.  A full mailbox refuses a
    sender that does not wait with [-RT_EFULL] and does not change. *)
Theorem mb_send_appends idle s Q i m vals rs ws v timeout fuel from :
  kinv idle s Q -> quiet s -> k_lock_nest s = 0 -> k_current s = Some from ->
  mb_at i s m vals rs ws ->
  (mb_entry m = mb_size m -> timeout = 0 -> rt_mb_send_wait fuel i v timeout s = Ok (- RT_EFULL) s) /\
  (mb_entry m < mb_size m ->
    match rs with
    | [] => exists s', rt_mb_send_wait fuel i v timeout s = Ok RT_EOK s' /\
        kinv idle s' Q /\ mb_at i s' (mb_stored m v) (vals ++ [v]) [] ws
    | r :: rs' => exists s' Q' p to q,
        rt_mb_send_wait fuel i v timeout s = res_bind (reschedule p to from s') (fun _ => ret RT_EOK) /\
        kinv idle s' Q' /\ is_highest Q' p /\ Q' p = to :: q /\
        stat_is (k_threads s') r RT_THREAD_READY /\ mb_at i s' (mb_stored m v) (vals ++ [v]) rs' ws
    end).
Proof.
  intros HI Hq Hl Hc Hat. pose proof Hat as [Hm HR Hr Hw Hf]. split.
  - intros He ->. unfold rt_mb_send_wait, rt_thread_self, rt_hw_interrupt_disable, get_mb, bind, gets, modify, ret.
    simpl. rewrite Hm. simpl. rewrite He, Z.eqb_refl. simpl.
    rewrite interrupt_enable_quiet by (unfold quiet; done). simpl. by destruct s.
  - intros Hlt. destruct (ring_stored m vals v HR Hlt) as [_ HR'].
    pose proof (send_enter idle s Q i m vals rs ws v timeout fuel HI Hat Hlt) as E.
    set (s1 := put_ring i (mb_stored m v) (set_primask 1 s)) in E.
    assert (kinv idle s1 Q) as HI1 by (eapply kinv_frame; [..|exact HI]; done).
    destruct rs as [|r rs].
    + exists (put_ring i (mb_stored m v) s). split; [|split; [eapply kinv_frame; [..|exact HI]; done|]].
      * rewrite E. simpl. unfold bind. rewrite interrupt_enable_quiet by (unfold quiet; done). simpl. by destruct s.
      * split; [apply lookup_insert_eq|done|done|done|done].
    + destruct (wake_eq RT_EOK idle s1 Q (LSuspend (IMb i)) r rs from (k_primask s) HI1)
        as (V & T & G & TH & TM & Q' & p & to & q & E2 & HI' & Hp & HQ & Hst & HV & Hfr); [done|done|done|done|done|done|].
      set (s2 := core _ _ _ _ _ _) in E2, HI'. exists s2, Q', p, to, q.
      split; [rewrite E, bool_decide_false by done; exact E2|].
      split; [exact HI'|]. split; [exact Hp|]. split; [exact HQ|]. split; [exact Hst|].
      split; [apply lookup_insert_eq|done|exact HV| |done]. simpl. by rewrite Hfr.
Qed.

(** The first message into mailbox 0. *)
Example mb_send_appends_witness :
  exists s', rt_mb_send_wait 0 0 7 0 Board.board = Ok RT_EOK s' /\
    mb_at 0 s' (mb_stored (mb_of Board.board 0) 7) [7] [] [].
Proof.
  destruct (mb_send_appends Board.idle Board.board (Board.queues_of Board.board) 0 (mb_of Board.board 0) [] [] []
    7 0 0 3) as [_ H].
  - apply Board.board_kinv.
  - apply board_quiet.
  - vm_compute. reflexivity.
  - vm_compute. reflexivity.
  - apply mb_b_sound. vm_compute. reflexivity.
  - destruct H as (s' & E & _ & Hat); [vm_compute; reflexivity|]. exists s'. auto.
Defined.

(** ** Receiving *)
Lemma recv_enter idle s Q i m v vals rs ws timeout fuel :
  kinv idle s Q -> mb_at i s m (v :: vals) rs ws ->
  rt_mb_recv fuel i timeout s =
    (if bool_decide (ws = []) then rt_hw_interrupt_enable (k_primask s) ;! ret (RT_EOK, Some v)
     else rt_ipc_list_resume (LSender i) ;! rt_hw_interrupt_enable (k_primask s) ;! rt_schedule ;!
       ret (RT_EOK, Some v))
    (put_ring i (mb_fetched m) (set_primask 1 s)).
Proof.
  intros HI [Hm HR _ Hw _]. destruct (ring_fetched m v vals HR) as [Hslot _].
  pose proof (queue_isempty _ _ _ (lo_coherent _ (si_links _ _ (ki_sched _ _ _ HI))) Hw) as He.
  assert ((mb_entry m =? 0) = false) as Hne
    by (apply Z.eqb_neq; rewrite (mr_entry _ _ HR); simpl; lia).
  unfold rt_mb_recv, rt_thread_self, rt_hw_interrupt_disable, get_mb, bind, gets, modify, ret. simpl.
  rewrite Hm. simpl. rewrite Hne. simpl. destruct fuel; simpl;
  unfold get_mb, bind, gets; simpl; rewrite Hm; simpl; rewrite Hne; simpl;
  unfold mb_get, get_mb, put_mb, list_isempty, bind, gets, modify; simpl; rewrite Hm; simpl;
  rewrite Hslot; simpl; rewrite He; destruct ws; done.
Qed.

(** C14: [rt_mb_recv] takes the oldest value.  With a message in the mailbox
    the call returns [RT_EOK] and the oldest value, and the others stay in
    their order; with senders waiting the first of them becomes ready and the
    scheduler chooses the highest ready thread.  An empty mailbox refuses a
    receiver that does not wait with [-RT_ETIMEOUT] and does not change. *)
Theorem mb_recv_takes_oldest idle s Q i m vals rs ws timeout fuel from :
  kinv idle s Q -> quiet s -> k_lock_nest s = 0 -> k_current s = Some from ->
  mb_at i s m vals rs ws ->
  match vals, ws with
  | [], _ => timeout = 0 -> rt_mb_recv fuel i timeout s = Ok (- RT_ETIMEOUT, None) s
  | v :: vals', [] => exists s', rt_mb_recv fuel i timeout s = Ok (RT_EOK, Some v) s' /\
      kinv idle s' Q /\ mb_at i s' (mb_fetched m) vals' rs []
  | v :: vals', w :: ws' => exists s' Q' p to q,
      rt_mb_recv fuel i timeout s = res_bind (reschedule p to from s') (fun _ => ret (RT_EOK, Some v)) /\
      kinv idle s' Q' /\ is_highest Q' p /\ Q' p = to :: q /\
      stat_is (k_threads s') w RT_THREAD_READY /\ mb_at i s' (mb_fetched m) vals' rs ws'
  end.
Proof.
  intros HI Hq Hl Hc Hat. pose proof Hat as [Hm HR Hr Hw Hf]. destruct vals as [|v vals].
  - intros ->. unfold rt_mb_recv, rt_thread_self, rt_hw_interrupt_disable, get_mb, bind, gets, modify, ret.
    simpl. rewrite Hm. simpl. rewrite (mr_entry _ _ HR). simpl.
    rewrite interrupt_enable_quiet by (unfold quiet; done). simpl. by destruct s.
  - destruct (ring_fetched m v vals HR) as [_ HR'].
    pose proof (recv_enter idle s Q i m v vals rs ws timeout fuel HI Hat) as E.
    set (s1 := put_ring i (mb_fetched m) (set_primask 1 s)) in E.
    assert (kinv idle s1 Q) as HI1 by (eapply kinv_frame; [..|exact HI]; done).
    destruct ws as [|w ws].
    + exists (put_ring i (mb_fetched m) s). split; [|split; [eapply kinv_frame; [..|exact HI]; done|]].
      * rewrite E. simpl. unfold bind. rewrite interrupt_enable_quiet by (unfold quiet; done). simpl. by destruct s.
      * split; [apply lookup_insert_eq|done|done|done|done].
    + destruct (wake_eq (RT_EOK, Some v) idle s1 Q (LSender i) w ws from (k_primask s) HI1)
        as (V & T & G & TH & TM & Q' & p & to & q & E2 & HI' & Hp & HQ & Hst & HV & Hfr); [done|done|done|done|done|done|].
      set (s2 := core _ _ _ _ _ _) in E2, HI'. exists s2, Q', p, to, q.
      split; [rewrite E, bool_decide_false by done; exact E2|].
      split; [exact HI'|]. split; [exact Hp|]. split; [exact HQ|]. split; [exact Hst|].
      split; [apply lookup_insert_eq|done| |exact HV|done]. simpl. by rewrite Hfr.
Qed.

(** Mailbox 0 holds 7, 8 and 9. *)
Definition mail789 : kview := default Board.reset_state (first_state
  ((rt_mb_send 0 7 ;! rt_mb_send 0 8 ;! rt_mb_send 0 9) Board.board)).

Example mb_recv_takes_oldest_witness :
  exists s', rt_mb_recv 0 0 0 mail789 = Ok (RT_EOK, Some 7) s' /\
    mb_at 0 s' (mb_fetched (mb_of mail789 0)) [8; 9] [] [].
Proof.
  destruct (mb_recv_takes_oldest Board.idle mail789 (Board.queues_of mail789) 0 (mb_of mail789 0) [7; 8; 9] [] []
    0 0 3) as (s' & E & _ & Hat).
  - apply Board.kinv_b_sound. vm_compute. reflexivity.
  - intros _ _. vm_compute. reflexivity.
  - vm_compute. reflexivity.
  - vm_compute. reflexivity.
  - apply mb_b_sound. vm_compute. reflexivity.
  - exists s'. auto.
Defined.
End MailboxTheorems.
