(* ===== verification/MsgQueueProof.v ===== *)
(** * Message queues: the cells and their two chains

    The cells of the pool are linked through their [next] pointers into the
    queue of messages and the list of free cells.  [mq_repr q cs fs]: the queue
    is [cs], oldest first, and the free list [fs]. *)
From S2P Require Import Prelude Kservice RtList KMonad KState KPrim KInv Scheduler Object TimerBase Thread Timer Ipc IpcMsg KernelInv WaitProof TimerProof BlockProof.
Import Scheduler Object TimerBase Thread Timer IpcCore MsgQueue.
Local Open Scope Z_scope.
Local Open Scope kmonad_scope.

Module MsgQueueProof.

(** ** Chains of cells *)
Fixpoint chain (next : gmap nat (option nat)) (o : option nat) (cs : list nat) : Prop :=
  match cs with
  | [] => o = None
  | c :: cs => o = Some c /\ exists n, next !! c = Some n /\ chain next n cs
  end.

Lemma chain_update next o cs c v : c ∉ cs -> chain next o cs -> chain (<[c := v]> next) o cs.
Proof.
  revert o. induction cs as [|x cs IH]; intros o Hc; [done|].
  intros (-> & n & Hn & Hch). split; [done|]. exists n.
  split; [rewrite lookup_insert_ne; [done|set_solver]|]. apply IH; [set_solver|done].
Qed.

(** Linking a fresh cell behind the last one. *)
Lemma chain_snoc next o A t f :
  NoDup (A ++ [t; f]) -> chain next o (A ++ [t]) ->
  chain (<[t := Some f]> (<[f := None]> next)) o (A ++ [t; f]).
Proof.
  revert o. induction A as [|x A IH]; intros o Hnd; simpl.
  - intros (-> & _). split; [done|]. exists (Some f). split; [apply lookup_insert_eq|]. split; [done|].
    exists None. apply NoDup_cons in Hnd as [Hn _]. rewrite lookup_insert_ne by set_solver.
    split; [apply lookup_insert_eq|done].
  - intros (-> & n & Hn & Hch). split; [done|]. exists n. apply NoDup_cons in Hnd as [Hx Hnd].
    rewrite !lookup_insert_ne by set_solver. split; [done|]. by apply IH.
Qed.

Lemma chain_head next o cs : chain next o cs -> o = head cs.
Proof. destruct cs; [done|]. by intros [-> _]. Qed.

(** ** The representation *)
Record mq_repr (q : rt_messagequeue) (cs fs : list nat) : Prop := {
  mq_chain : chain (mq_next q) (mq_queue_head q) cs;
  mq_chain_free : chain (mq_next q) (mq_queue_free q) fs;
  mq_nodup : NoDup (cs ++ fs);
  mq_last : mq_queue_tail q = last cs;
  mq_count : mq_entry q = Z.of_nat (length cs);
  mq_few : Z.of_nat (length (cs ++ fs)) < 65536;
  mq_size_pos : 0 <= mq_msg_size q;
  mq_cell c : c ∈ cs ++ fs -> exists d, mq_data q !! c = Some d /\ Z.of_nat (length d) = mq_msg_size q;
}.

(** The bytes of the queued messages, oldest first. *)
Definition contents (q : rt_messagequeue) (cs : list nat) : list (list Z) :=
  (fun c => default [] (mq_data q !! c)) <$> cs.

Lemma link_tail_data f q : mq_data (mq_link_tail f q) = mq_data q.
Proof. destruct q as [? ? ? ? ? ? ? [] [] ?]; done. Qed.

Lemma link_head_data f q : mq_data (mq_link_head f q) = mq_data q.
Proof. destruct q as [? ? ? ? ? ? ? [] [] ?]; done. Qed.

(** Cell [f] with [d] in it. *)
Definition filled (f : nat) (d : list Z) (q : rt_messagequeue) : rt_messagequeue :=
  set_mq_data (<[f := d]> (mq_data q)) q.

Lemma contents_filled q f d cs : f ∉ cs -> contents (filled f d q) cs = contents q cs.
Proof.
  intros Hf. unfold contents. apply list_fmap_ext. intros k c Hc. simpl.
  rewrite lookup_insert_ne; [done|]. intros ->. by apply list_elem_of_lookup_2 in Hc.
Qed.

Lemma nodup_move (cs : list nat) f fs : NoDup (cs ++ f :: fs) -> NoDup ((cs ++ [f]) ++ fs).
Proof. by rewrite <-app_assoc. Qed.

Section update.
Context (q : rt_messagequeue) (cs fs : list nat) (f : nat) (n : option nat) (d : list Z).
Hypothesis HR : mq_repr q cs (f :: fs).
Hypothesis Hn : mq_next q !! f = Some n.
Hypothesis Hd : Z.of_nat (length d) = mq_msg_size q.

Let q1 := set_mq_queue_free n q.

Lemma sent_repr : mq_repr (mq_link_tail f (filled f d (set_msg_next f None q1))) (cs ++ [f]) fs.
Proof using All.
  destruct HR as [Hc Hf Hnd Hl He Hfew Hs Hcell]. simpl in Hf. destruct Hf as (Ef & n' & Hn' & Hf).
  rewrite Hn in Hn'. injection Hn' as <-.
  apply NoDup_app in Hnd as (Hnd1 & Hdis & [Hff Hnd2]%NoDup_cons).
  assert (f ∉ cs) as Hfc by (intros Hin; specialize (Hdis f Hin); set_solver).
  assert (NoDup (cs ++ [f])) as Hnd3.
  { apply NoDup_app. split; [done|]. split; [set_solver|]. apply NoDup_singleton. }
  assert (forall c, c ∈ (cs ++ [f]) ++ fs -> exists d0, <[f:=d]> (mq_data q) !! c = Some d0 /\
    Z.of_nat (length d0) = mq_msg_size q) as Hcell'.
  { intros c Hin. destruct (decide (c = f)) as [->|Hne]; [rewrite lookup_insert_eq; eauto|].
    rewrite lookup_insert_ne by done. apply Hcell. set_solver. }
  assert (NoDup ((cs ++ [f]) ++ fs)) as Hnd4 by (rewrite <-app_assoc; apply NoDup_app; split; [done|]; split; [done|by constructor]).
  assert (Z.of_nat (length ((cs ++ [f]) ++ fs)) < 65536) as Hfew' by (rewrite <-app_assoc; done).
  assert (length (cs ++ f :: fs) = S (length cs + length fs)) as Elen by (rewrite length_app; simpl; lia).
  destruct cs as [|c0 cs0] using rev_ind.
  - simpl in *. unfold mq_link_tail. simpl. rewrite Hl. simpl. rewrite Hc. simpl. split; simpl; try done.
    + split; [done|]. exists None. split; [apply lookup_insert_eq|done].
    + by apply chain_update.
    + rewrite He. done.
  - clear IHcs0. rewrite last_snoc in Hl. unfold mq_link_tail. simpl. rewrite Hl. simpl.
    assert (mq_queue_head q = head (cs0 ++ [c0])) as Eh by (by eapply chain_head).
    assert (exists h, mq_queue_head q = Some h) as [h Hh] by (rewrite Eh; destruct cs0; simpl; eauto).
    rewrite Hh. split; simpl; try done.
    + rewrite <-app_assoc. simpl. apply chain_snoc; [|done]. by rewrite <-app_assoc in Hnd3.
    + apply chain_update; [|by apply chain_update]. intros Hin. eapply Hdis; [|by right]. set_solver.
    + by rewrite last_snoc.
    + rewrite He. rewrite u16_small by lia. rewrite !length_app. simpl. lia.
Qed.

Lemma urgent_repr : mq_repr (mq_link_head f (filled f d q1)) (f :: cs) fs.
Proof using All.
  destruct HR as [Hc Hf Hnd Hl He Hfew Hs Hcell]. simpl in Hf. destruct Hf as (Ef & n' & Hn' & Hf).
  rewrite Hn in Hn'. injection Hn' as <-.
  apply NoDup_app in Hnd as (Hnd1 & Hdis & [Hff Hnd2]%NoDup_cons).
  assert (f ∉ cs) as Hfc by (intros Hin; specialize (Hdis f Hin); set_solver).
  assert (length (cs ++ f :: fs) = S (length cs + length fs)) as Elen by (rewrite length_app; simpl; lia).
  assert (length ((f :: cs) ++ fs) = S (length cs + length fs)) as Elen' by (simpl; rewrite length_app; lia).
  unfold mq_link_head. simpl. rewrite Hl.
  split; destruct (last cs) as [t|] eqn:El; simpl; try done.
  all: try (split; [done|]; exists (mq_queue_head q); split; [apply lookup_insert_eq|by apply chain_update]).
  all: try (by apply chain_update).
  all: try (apply NoDup_cons; split; [set_solver|]; apply NoDup_app; split; [done|]; split; [set_solver|done]).
  all: try (rewrite He, u16_small by lia; simpl; lia).
  all: try (rewrite length_app; lia).
  - rewrite Hl, <-El. by destruct cs.
  - destruct cs as [|x xs _] using rev_ind; [done|by rewrite last_snoc in El].
  - intros c Hin. destruct (decide (c = f)) as [->|Hne]; [rewrite lookup_insert_eq; eauto|].
    rewrite lookup_insert_ne by done. apply Hcell. set_solver.
  - intros c Hin. destruct (decide (c = f)) as [->|Hne]; [rewrite lookup_insert_eq; eauto|].
    rewrite lookup_insert_ne by done. apply Hcell. set_solver.
Qed.
End update.

(** ** Taking the first message *)
Definition unlinked (c : nat) (n : option nat) (q : rt_messagequeue) : rt_messagequeue :=
  let q := set_mq_queue_head n q in
  if bool_decide (mq_queue_tail q = Some c) then set_mq_queue_tail None q else q.

Definition fetched (c : nat) (n : option nat) (q : rt_messagequeue) : rt_messagequeue :=
  let q := unlinked c n q in mq_free c (set_mq_entry (u16 (mq_entry q - 1)) q).

Lemma last_is_head (c : nat) (cs : list nat) : NoDup (c :: cs) -> (last (c :: cs) = Some c <-> cs = []).
Proof.
  intros [Hc _]%NoDup_cons. destruct cs as [|x xs]; [done|]. split; [|done]. simpl. intros E.
  exfalso. apply Hc. apply last_Some_elem_of. exact E.
Qed.

Lemma fetched_repr q c cs fs n :
  mq_repr q (c :: cs) fs -> mq_next q !! c = Some n ->
  mq_repr (fetched c n q) cs (c :: fs) /\ mq_data (fetched c n q) = mq_data q.
Proof.
  intros [Hc Hf Hnd Hl He Hfew Hs Hcell] Hn. simpl in Hc. destruct Hc as (Eh & n' & Hn' & Hc).
  rewrite Hn in Hn'. injection Hn' as <-. pose proof Hnd as Hnd0.
  apply NoDup_cons in Hnd as [Hnc Hnd].
  assert (last (c :: cs) = Some c <-> cs = []) as Hlast.
  { apply last_is_head. apply NoDup_app in Hnd0 as [? _]. done. }
  assert (mq_entry q - 1 = Z.of_nat (length cs)) as Ee by (simpl in He; lia).
  simpl in Hfew. rewrite length_app in Hfew.
  assert (forall T, mq_repr (mq_free c (set_mq_entry (u16 (mq_entry q - 1))
    (set_mq_queue_tail T (set_mq_queue_head n q)))) cs (c :: fs) <-> T = last cs) as Hgen.
  { intros T. split; [by intros [_ _ _ ? _ _ _ _]|]. intros ->. split; simpl; try done.
    - apply chain_update; [set_solver|done].
    - split; [done|]. exists (mq_queue_free q). split; [apply lookup_insert_eq|].
      apply chain_update; [set_solver|done].
    - apply NoDup_app in Hnd as (H1 & H2 & H3). apply NoDup_app. split; [done|]. split.
      + intros x Hx. apply not_elem_of_cons. split; [set_solver|by apply H2].
      + apply NoDup_cons. split; [set_solver|done].
    - rewrite Ee, u16_small; lia.
    - rewrite length_app. simpl. lia.
    - intros x Hx. apply Hcell. set_solver. }
  unfold fetched, unlinked. simpl. case_bool_decide as Et; split; try done.
  - apply Hgen. rewrite Hl in Et. by rewrite (proj1 Hlast Et).
  - specialize (Hgen (mq_queue_tail q)). destruct q. apply Hgen. simpl in *. rewrite Hl in Et |- *.
    destruct cs; [by destruct Et; apply Hlast|done].
Qed.

(** The free list [rt_mq_init] builds holds every cell once. *)
Lemma mq_free_list_chain cells free next fs :
  chain next free fs -> NoDup (cells ++ fs) ->
  let '(free', next') := mq_free_list cells free next in chain next' free' (rev cells ++ fs).
Proof.
  revert free next fs. induction cells as [|c cells IH]; intros free next fs Hch Hnd; [done|].
  simpl. apply NoDup_cons in Hnd as [Hc Hnd]. rewrite <-app_assoc. simpl. apply IH.
  - split; [done|]. exists free. split; [apply lookup_insert_eq|].
    apply chain_update; [set_solver|done].
  - apply NoDup_app in Hnd as (H1 & H2 & H3). apply NoDup_app. split; [done|]. split.
    + intros x Hx. apply not_elem_of_cons. split; [set_solver|by apply H2].
    + apply NoDup_cons. split; [set_solver|done].
Qed.

(** Queue [i]: its messages, oldest first, the number of free cells, and the
    threads that wait to receive. *)
Record mq_at (i : nat) (s : kview) (q : rt_messagequeue) (msgs : list (list Z)) (free : nat)
    (rs : list nat) : Prop := {
  mqa_mq : k_mqs s !! i = Some q;
  mqa_repr : exists cs fs, mq_repr q cs fs /\ contents q cs = msgs /\ length fs = free;
  mqa_recv : k_links s !! LSuspend (IMq i) = Some (LTlist <$> rs);
}.
End MsgQueueProof.
