(* ===== verification/MsgQueueTheorems.v ===== *)
(** * Message queues: the theorems about sending and receiving *)
From S2P Require Import Prelude Kservice RtList KMonad KState KPrim KInv Scheduler Object TimerBase Thread Timer Ipc IpcMsg KernelInv WaitProof TimerProof BlockProof Board SchedTheorems MsgQueueProof.
Import Scheduler Object TimerBase Thread Timer IpcCore MsgQueue MsgQueueProof SchedTheorems.
Local Open Scope Z_scope.
Local Open Scope kmonad_scope.

Module MsgQueueTheorems.

(** ** Message queue 0 of the board *)
Definition mq_of (s : kview) (i : nat) : rt_messagequeue :=
  default (MessageQueue Board.blank_object 0 ∅ ∅ 0 0 0 None None None) (k_mqs s !! i).

Fixpoint chain_b (next : gmap nat (option nat)) (o : option nat) (cs : list nat) : bool :=
  match cs with
  | [] => bool_decide (o = None)
  | c :: cs => bool_decide (o = Some c) &&
      match next !! c with Some n => chain_b next n cs | None => false end
  end.

Lemma chain_b_sound next o cs : chain_b next o cs = true -> chain next o cs.
Proof.
  revert o. induction cs as [|c cs IH]; intros o; simpl; [apply bool_decide_eq_true|].
  intros [H1%bool_decide_eq_true H2]%andb_true_iff. split; [done|].
  destruct (next !! c) as [n|]; [|done]. exists n. auto.
Qed.

Definition repr_b (q : rt_messagequeue) (cs fs : list nat) : bool :=
  chain_b (mq_next q) (mq_queue_head q) cs && chain_b (mq_next q) (mq_queue_free q) fs &&
  bool_decide (NoDup (cs ++ fs)) && bool_decide (mq_queue_tail q = last cs) &&
  (mq_entry q =? Z.of_nat (length cs)) && (Z.of_nat (length (cs ++ fs)) <? 65536) &&
  (0 <=? mq_msg_size q) &&
  forallb (fun c => match mq_data q !! c with
    Some d => Z.of_nat (length d) =? mq_msg_size q | None => false end) (cs ++ fs).

Lemma repr_b_sound q cs fs : repr_b q cs fs = true -> mq_repr q cs fs.
Proof.
  unfold repr_b. intros [[[[[[[H1 H2]%andb_true_iff H3]%andb_true_iff H4]%andb_true_iff H5]%andb_true_iff
    H6]%andb_true_iff H7]%andb_true_iff H8]%andb_true_iff.
  apply bool_decide_eq_true in H3, H4. apply Z.eqb_eq in H5. apply Z.ltb_lt in H6. apply Z.leb_le in H7.
  split; try done; try by apply chain_b_sound.
  intros c Hc. rewrite forallb_forall in H8. specialize (H8 c). rewrite <-list_elem_of_In in H8.
  specialize (H8 Hc). destruct (mq_data q !! c) as [d|]; [|done]. exists d. split; [done|]. by apply Z.eqb_eq.
Qed.

Lemma mq_at_sound i s q cs fs rs :
  k_mqs s !! i = Some q -> repr_b q cs fs = true ->
  k_links s !! LSuspend (IMq i) = Some (LTlist <$> rs) ->
  mq_at i s q (contents q cs) (length fs) rs.
Proof. intros H1 H2 H3. split; [done| |done]. exists cs, fs. split; [by apply repr_b_sound|done]. Qed.

Lemma mq_of_lookup s i : Board.is_some_b (k_mqs s !! i) = true -> k_mqs s !! i = Some (mq_of s i).
Proof. unfold mq_of. by destruct (k_mqs s !! i). Qed.

(** ** Sending *)
Definition put_queue (i : nat) (q : rt_messagequeue) (s : kview) : kview :=
  set_mqs (<[i := q]> (k_mqs s)) s.

(** What both senders do at the end, in a masked state. *)
Lemma notify_eq idle s Q i from rs temp :
  kinv idle s Q -> k_primask s = 1 -> quiet (set_primask temp s) -> k_lock_nest s = 0 ->
  k_current s = Some from -> k_links s !! LSuspend (IMq i) = Some (LTlist <$> rs) ->
  match rs with
  | [] => mq_notify i temp s = Ok RT_EOK (set_primask temp s)
  | r :: rs' => exists V T G TH TM Q' p to q,
      let s' := core V T G TH TM (set_primask temp s) in
      mq_notify i temp s = res_bind (reschedule p to from s') (fun _ => ret RT_EOK) /\
      kinv idle s' Q' /\ is_highest Q' p /\ Q' p = to :: q /\
      stat_is TH r RT_THREAD_READY /\ V !! LSuspend (IMq i) = Some (LTlist <$> rs')
  end.
Proof.
  intros HI Hpm Hqt Hl Hc Hr.
  pose proof (queue_isempty _ _ _ (lo_coherent _ (si_links _ _ (ki_sched _ _ _ HI))) Hr) as He.
  destruct rs as [|r rs].
  - unfold mq_notify, list_isempty, bind. simpl. rewrite He. simpl.
    rewrite interrupt_enable_quiet by exact Hqt. done.
  - destruct (wake_eq RT_EOK idle s Q (LSuspend (IMq i)) r rs from temp HI Hpm Hqt Hl Hc eq_refl Hr)
      as (V & T & G & TH & TM & Q' & p & to & q & E & HI' & Hp & HQ & Hst & HV & _).
    exists V, T, G, TH, TM, Q', p, to, q. split; [|done]. rewrite <-E.
    unfold mq_notify, list_isempty. unfold bind at 1. simpl. by rewrite He.
Qed.

(** The result of storing one message in a queue, before the state is given. *)
Definition accepted (idle i from : nat) (s : kview) (r : res kview Z) (q' : rt_messagequeue)
    (msgs : list (list Z)) (free : nat) (rs : list nat) : Prop :=
  match rs with
  | [] => exists s' Q', r = Ok RT_EOK s' /\ kinv idle s' Q' /\ mq_at i s' q' msgs free []
  | t :: rs' => exists s' Q' p to q,
      r = res_bind (reschedule p to from s') (fun _ => ret RT_EOK) /\
      kinv idle s' Q' /\ is_highest Q' p /\ Q' p = to :: q /\
      stat_is (k_threads s') t RT_THREAD_READY /\ mq_at i s' q' msgs free rs'
  end.

Lemma accepted_intro idle s Q i from rs q' msgs free (r : res kview Z) :
  kinv idle s Q -> quiet s -> k_lock_nest s = 0 -> k_current s = Some from ->
  k_links s !! LSuspend (IMq i) = Some (LTlist <$> rs) ->
  (exists cs fs, mq_repr q' cs fs /\ contents q' cs = msgs /\ length fs = free) ->
  r = mq_notify i (k_primask s) (put_queue i q' (set_primask 1 s)) ->
  accepted idle i from s r q' msgs free rs.
Proof.
  intros HI Hq Hl Hc Hr Hrep ->. set (s1 := put_queue i q' (set_primask 1 s)).
  assert (kinv idle s1 Q) as HI1 by (eapply kinv_frame; [..|exact HI]; done).
  pose proof (notify_eq idle s1 Q i from rs (k_primask s) HI1 eq_refl Hq Hl Hc Hr) as Hn.
  destruct rs as [|t rs].
  - exists (put_queue i q' s), Q. split; [rewrite Hn; unfold s1; by destruct s|].
    split; [eapply kinv_frame; [..|exact HI]; done|]. split; [apply lookup_insert_eq|done|done].
  - destruct Hn as (V & T & G & TH & TM & Q' & p & to & q & E & HI' & Hp & HQ & Hst & HV).
    eexists _, Q', p, to, q. split; [exact E|]. split; [exact HI'|]. split; [exact Hp|]. split; [exact HQ|].
    split; [exact Hst|]. split; [apply lookup_insert_eq|done|exact HV].
Qed.

(** A message cell holds the bytes sent, followed by what was in the cell. *)
Definition overwrite (buffer old : list Z) : list Z := buffer ++ drop (length buffer) old.

Lemma overwrite_length (buffer old : list Z) :
  (length buffer <= length old)%nat -> length (overwrite buffer old) = length old.
Proof. intros H. unfold overwrite. rewrite length_app, length_drop. lia. Qed.

(** The refusals the two senders share: a message that is too long, a full
    queue; otherwise a free cell is taken. *)
Lemma alloc_cases s i q msgs free rs :
  mq_at i s q msgs free rs ->
  match free with
  | O => mq_queue_free q = None
  | S free' => exists cs fs f n old, mq_repr q cs (f :: fs) /\ contents q cs = msgs /\ length fs = free' /\
      mq_queue_free q = Some f /\ mq_next q !! f = Some n /\ mq_data q !! f = Some old /\
      Z.of_nat (length old) = mq_msg_size q /\ f ∉ cs
  end.
Proof.
  intros [Hm (cs & fs & HR & Hc & Hf) _]. pose proof HR as [_ Hch Hnd _ _ _ _ Hcell].
  destruct free as [|free]; destruct fs as [|f fs]; try done. injection Hf as Hf.
  destruct Hch as (Ef & n & Hn & _). destruct (Hcell f) as (old & Ho & Hlen); [set_solver|].
  exists cs, fs, f, n, old. repeat (split; [done|]). apply NoDup_app in Hnd as (_ & Hd & _).
  intros Hin. apply (Hd f Hin). set_solver.
Qed.

(** C15: [rt_mq_send] appends.  A message longer than the queue's messages is
    refused with [-RT_ERROR], a message to a queue without a free cell with
    [-RT_EFULL], and nothing changes.  Otherwise one free cell is used, the
    message is the last of the queue (the bytes sent, the rest of the cell as
    it was), the others keep their contents and order, and with receivers
    waiting the first of them is made ready and the scheduler chooses the
    highest ready thread. *)
Theorem mq_send_appends idle s Q i q msgs free rs buffer from :
  kinv idle s Q -> quiet s -> k_lock_nest s = 0 -> k_current s = Some from ->
  mq_at i s q msgs free rs -> buffer <> [] ->
  (mq_msg_size q < Z.of_nat (length buffer) -> rt_mq_send i buffer s = Ok (- RT_ERROR) s) /\
  (Z.of_nat (length buffer) <= mq_msg_size q ->
   match free with
   | O => rt_mq_send i buffer s = Ok (- RT_EFULL) s
   | S free' => exists old q', Z.of_nat (length old) = mq_msg_size q /\
       accepted idle i from s (rt_mq_send i buffer s) q' (msgs ++ [overwrite buffer old]) free' rs
   end).
Proof.
  intros HI Hq Hl Hc Hat Hb. pose proof Hat as [Hm _ Hr].
  assert ((Z.of_nat (length buffer) =? 0) = false) as Hb0 by (apply Z.eqb_neq; by destruct buffer).
  split.
  { intros Hlt. unfold rt_mq_send, rt_assert, get_mq, bind, gets, ret. simpl. rewrite Hb0. simpl.
    rewrite Hm. simpl. by rewrite (proj2 (Z.ltb_lt _ _) Hlt). }
  intros Hle. apply Z.ltb_ge in Hle as Hle'. pose proof (alloc_cases _ _ _ _ _ _ Hat) as Ha.
  destruct free as [|free].
  { unfold rt_mq_send, rt_assert, mq_alloc, get_mq, rt_hw_interrupt_disable, bind, gets, modify, ret.
    simpl. rewrite Hb0. simpl. rewrite Hm. simpl. rewrite Hle'. simpl. rewrite Hm. simpl. rewrite Ha. simpl.
    rewrite interrupt_enable_quiet by (unfold quiet; done). simpl. by destruct s. }
  destruct Ha as (cs & fs & f & n & old & HR & Hcs & Hfs & Ef & En & Eo & Hlen & Hfc).
  set (d := overwrite buffer old).
  assert (Z.of_nat (length d) = mq_msg_size q) as Hd by (unfold d; rewrite overwrite_length; lia).
  pose proof (sent_repr q cs fs f n d HR En Hd) as HR'.
  set (q' := mq_link_tail f (filled f d (set_msg_next f None (set_mq_queue_free n q)))) in HR'.
  exists old, q'. split; [done|]. apply (accepted_intro idle s Q); try done.
  - exists (cs ++ [f]), fs. split; [done|]. split; [|done].
    assert (mq_data q' = mq_data (filled f d q)) as Eq' by (unfold q'; by rewrite link_tail_data).
    unfold contents. rewrite fmap_app, Eq'. f_equal.
    + rewrite <-Hcs. by apply (contents_filled q f d).
    + simpl. by rewrite lookup_insert_eq.
  - unfold rt_mq_send, rt_assert, mq_alloc, msg_next, msg_write, upd_mq, get_mq, put_mq,
      rt_hw_interrupt_disable, bind, gets, modify, ret.
    simpl. rewrite Hb0. simpl. rewrite Hm. simpl. rewrite Hle'. simpl. rewrite Hm. simpl. rewrite Ef. simpl.
    rewrite En. simpl. rewrite interrupt_enable_quiet by (unfold quiet; done). simpl.
    rewrite !lookup_insert_eq. simpl. rewrite lookup_insert_eq. simpl. rewrite Eo. simpl.
    rewrite lookup_insert_eq. simpl. by rewrite !insert_insert_eq.
Qed.

(** The first message of queue 0. *)
Example mq_send_appends_witness :
  exists old q', Z.of_nat (length old) = 8 /\
    accepted Board.idle 0 3 Board.board (rt_mq_send 0 [1; 2; 3] Board.board) q' [overwrite [1; 2; 3] old] 3 [].
Proof.
  destruct (mq_send_appends Board.idle Board.board (Board.queues_of Board.board) 0 (mq_of Board.board 0)
    [] 4 [] [1; 2; 3] 3) as [_ H].
  - apply Board.board_kinv.
  - apply board_quiet.
  - vm_compute. reflexivity.
  - vm_compute. reflexivity.
  - apply (mq_at_sound 0 Board.board (mq_of Board.board 0) [] [3; 2; 1; 0]%nat []).
    + apply mq_of_lookup. vm_compute. reflexivity.
    + vm_compute. reflexivity.
    + vm_compute. reflexivity.
  - discriminate.
  - apply H. apply Z.leb_le. vm_compute. reflexivity.
Defined.

(** [rt_mq_urgent] puts the message in front of the others; in every other
    respect it behaves as [rt_mq_send]. *)
Theorem mq_urgent_prepends idle s Q i q msgs free rs buffer from :
  kinv idle s Q -> quiet s -> k_lock_nest s = 0 -> k_current s = Some from ->
  mq_at i s q msgs free rs -> buffer <> [] ->
  (mq_msg_size q < Z.of_nat (length buffer) -> rt_mq_urgent i buffer s = Ok (- RT_ERROR) s) /\
  (Z.of_nat (length buffer) <= mq_msg_size q ->
   match free with
   | O => rt_mq_urgent i buffer s = Ok (- RT_EFULL) s
   | S free' => exists old q', Z.of_nat (length old) = mq_msg_size q /\
       accepted idle i from s (rt_mq_urgent i buffer s) q' (overwrite buffer old :: msgs) free' rs
   end).
Proof.
  intros HI Hq Hl Hc Hat Hb. pose proof Hat as [Hm _ Hr].
  assert ((Z.of_nat (length buffer) =? 0) = false) as Hb0 by (apply Z.eqb_neq; by destruct buffer).
  split.
  { intros Hlt. unfold rt_mq_urgent, rt_assert, get_mq, bind, gets, ret. simpl. rewrite Hb0. simpl.
    rewrite Hm. simpl. by rewrite (proj2 (Z.ltb_lt _ _) Hlt). }
  intros Hle. apply Z.ltb_ge in Hle as Hle'. pose proof (alloc_cases _ _ _ _ _ _ Hat) as Ha.
  destruct free as [|free].
  { unfold rt_mq_urgent, rt_assert, mq_alloc, get_mq, rt_hw_interrupt_disable, bind, gets, modify, ret.
    simpl. rewrite Hb0. simpl. rewrite Hm. simpl. rewrite Hle'. simpl. rewrite Hm. simpl. rewrite Ha. simpl.
    rewrite interrupt_enable_quiet by (unfold quiet; done). simpl. by destruct s. }
  destruct Ha as (cs & fs & f & n & old & HR & Hcs & Hfs & Ef & En & Eo & Hlen & Hfc).
  set (d := overwrite buffer old).
  assert (Z.of_nat (length d) = mq_msg_size q) as Hd by (unfold d; rewrite overwrite_length; lia).
  pose proof (urgent_repr q cs fs f n d HR En Hd) as HR'.
  set (q' := mq_link_head f (filled f d (set_mq_queue_free n q))) in HR'.
  exists old, q'. split; [done|]. apply (accepted_intro idle s Q); try done.
  - exists (f :: cs), fs. split; [done|]. split; [|done].
    assert (mq_data q' = mq_data (filled f d q)) as Eq' by (unfold q'; by rewrite link_head_data).
    unfold contents. rewrite fmap_cons, Eq'. f_equal.
    + simpl. by rewrite lookup_insert_eq.
    + rewrite <-Hcs. by apply (contents_filled q f d).
  - unfold rt_mq_urgent, rt_assert, mq_alloc, msg_next, msg_write, upd_mq, get_mq, put_mq,
      rt_hw_interrupt_disable, bind, gets, modify, ret.
    simpl. rewrite Hb0. simpl. rewrite Hm. simpl. rewrite Hle'. simpl. rewrite Hm. simpl. rewrite Ef. simpl.
    rewrite En. simpl. rewrite interrupt_enable_quiet by (unfold quiet; done). simpl.
    rewrite !lookup_insert_eq. simpl. rewrite Eo. simpl.
    rewrite lookup_insert_eq. simpl. by rewrite !insert_insert_eq.
Qed.

(** An urgent message when one is queued. *)
Definition queued1 : kview := default Board.reset_state (first_state (rt_mq_send 0 [1; 2; 3] Board.board)).

Lemma queued1_at : mq_at 0 queued1 (mq_of queued1 0) [[1; 2; 3; 0; 0; 0; 0; 0]] 3 [].
Proof.
  assert ([[1; 2; 3; 0; 0; 0; 0; 0]] = contents (mq_of queued1 0) [3%nat]) as -> by (vm_compute; reflexivity).
  apply (mq_at_sound 0 queued1 (mq_of queued1 0) [3%nat] [2; 1; 0]%nat []).
  - apply mq_of_lookup. vm_compute. reflexivity.
  - vm_compute. reflexivity.
  - vm_compute. reflexivity.
Qed.

Lemma queued1_kinv : kinv Board.idle queued1 (Board.queues_of queued1).
Proof. apply Board.kinv_b_sound. vm_compute. reflexivity. Qed.

Lemma queued1_facts : quiet queued1 /\ k_lock_nest queued1 = 0 /\ k_current queued1 = Some 3%nat.
Proof. split; [intros _ _|split]; vm_compute; reflexivity. Qed.

#[local] Opaque queued1.

Example mq_urgent_prepends_witness :
  exists old q', accepted Board.idle 0 3 queued1 (rt_mq_urgent 0 [9] queued1) q'
    [overwrite [9] old; [1; 2; 3; 0; 0; 0; 0; 0]] 2 [].
Proof.
  destruct (mq_urgent_prepends Board.idle queued1 (Board.queues_of queued1) 0 (mq_of queued1 0)
    [[1; 2; 3; 0; 0; 0; 0; 0]] 3 [] [9] 3) as [_ H].
  - apply queued1_kinv.
  - apply queued1_facts.
  - apply queued1_facts.
  - apply queued1_facts.
  - apply queued1_at.
  - discriminate.
  - destruct H as (old & q' & _ & H); [apply Z.leb_le; vm_compute; reflexivity|]. exists old, q'. exact H.
Defined.

(** ** Receiving *)

(** C16: [rt_mq_recv] takes the first message.  With a message in the queue it
    returns [RT_EOK] and the first bytes of the oldest message, as many as asked
    for and at most the message size; the message leaves the queue, its cell
    is free again, and the other messages stay as they are.  On an empty queue
    a receiver that does not wait gets [-RT_ETIMEOUT] and nothing changes. *)
Theorem mq_recv_takes_first idle s Q i q msgs free rs size timeout fuel :
  kinv idle s Q -> quiet s -> mq_at i s q msgs free rs -> 0 < size ->
  match msgs with
  | [] => timeout = 0 -> rt_mq_recv fuel i size timeout s = Ok (- RT_ETIMEOUT, None) s
  | d :: msgs' => exists s' q',
      rt_mq_recv fuel i size timeout s =
        Ok (RT_EOK, Some (take (Z.to_nat (Z.min size (mq_msg_size q))) d)) s' /\
      kinv idle s' Q /\ mq_at i s' q' msgs' (S free) rs
  end.
Proof.
  intros HI Hq [Hm (cs & fs & HR & Hcs & Hfs) Hr] Hsz.
  assert ((size =? 0) = false) as Hs0 by (apply Z.eqb_neq; lia).
  assert (length cs = length msgs) as Hlen by (rewrite <-Hcs; unfold contents; by rewrite length_fmap).
  pose proof (mq_count _ _ _ HR) as He. destruct msgs as [|d msgs].
  - intros ->. unfold rt_mq_recv, rt_assert, rt_thread_self, get_mq, rt_hw_interrupt_disable, bind, gets, modify, ret.
    simpl. rewrite Hs0. simpl. rewrite Hm. simpl. rewrite He, Hlen. simpl.
    rewrite interrupt_enable_quiet by (unfold quiet; done). simpl. by destruct s.
  - destruct cs as [|c cs]; [done|]. pose proof HR as [(Eh & n & En & _) _ _ _ _ _ _ Hcell].
    destruct (Hcell c) as (old & Eo & _); [set_solver|].
    destruct (fetched_repr q c cs fs n HR En) as [HR' Edata].
    unfold contents in Hcs. rewrite fmap_cons, Eo in Hcs. simpl in Hcs. injection Hcs as -> Hcs.
    assert ((mq_entry q =? 0) = false) as Hne by (apply Z.eqb_neq; rewrite He; simpl; lia).
    exists (put_queue i (fetched c n q) s), (fetched c n q).
    split; [|split; [eapply kinv_frame; [..|exact HI]; done|]].
    + assert (rt_mq_recv fuel i size timeout s = mq_take i size (k_primask s) (set_primask 1 s)) as ->.
      { unfold rt_mq_recv, rt_assert, rt_thread_self, get_mq, rt_hw_interrupt_disable, bind, gets, modify, ret.
        simpl. rewrite Hs0. simpl. rewrite Hm. simpl. rewrite Hne. simpl.
        destruct fuel; simpl; unfold get_mq, bind, gets; simpl; rewrite Hm; simpl; by rewrite Hne. }
      unfold mq_take, mq_unlink, msg_next, upd_mq, get_mq, put_mq, rt_hw_interrupt_disable, bind, gets, modify, ret.
      simpl. rewrite Hm. simpl. rewrite Eh. simpl. rewrite En. simpl.
      rewrite lookup_insert_eq. simpl. rewrite interrupt_enable_quiet by (unfold quiet; done). simpl.
      rewrite !lookup_insert_eq. simpl.
      assert (mq_data (unlinked c n q) = mq_data q /\ mq_msg_size (unlinked c n q) = mq_msg_size q) as [Ed Es].
      { unfold unlinked. simpl. by destruct (bool_decide _). }
      unfold unlinked in Ed, Es. simpl in Ed, Es. rewrite Ed, Es, Eo. simpl.
      rewrite !lookup_insert_eq. simpl. rewrite interrupt_enable_quiet by (unfold quiet; done). simpl.
      rewrite !insert_insert_eq. f_equal. f_equal. f_equal.
      destruct (Z.ltb_spec (mq_msg_size q) size); [by rewrite Z.min_r by lia|by rewrite Z.min_l by lia].
    + split; [apply lookup_insert_eq| |done]. exists cs, (c :: fs). split; [done|].
      split; [|simpl; by rewrite Hfs]. unfold contents. by rewrite Edata.
Qed.

Example mq_recv_takes_first_witness :
  exists s' q', rt_mq_recv 0 0 3 0 queued1 = Ok (RT_EOK, Some [1; 2; 3]) s' /\ mq_at 0 s' q' [] 4 [].
Proof.
  destruct (mq_recv_takes_first Board.idle queued1 (Board.queues_of queued1) 0 (mq_of queued1 0)
    [[1; 2; 3; 0; 0; 0; 0; 0]] 3 [] 3 0 0) as (s' & q' & E & _ & Hat).
  - apply queued1_kinv.
  - apply queued1_facts.
  - apply queued1_at.
  - lia.
  - exists s', q'. split; [|exact Hat]. rewrite E.
    assert (mq_msg_size (mq_of queued1 0) = 8) as -> by (vm_compute; reflexivity). reflexivity.
Defined.
End MsgQueueTheorems.
