(* ===== verification/EventProof.v ===== *)
(** * Events: which waiting threads a set of flags satisfies

    [serve] goes through the waiting threads in order, as [rt_event_send] does:
    a satisfied thread receives its flags and, if it asked for it, clears them
    for those behind it. *)
From S2P Require Import Prelude Kservice RtList KMonad KState KPrim KInv Scheduler Object TimerBase Thread Timer Ipc IpcMsg KernelInv WaitProof TimerProof BlockProof.
Import Scheduler Object TimerBase Thread Timer IpcCore Event.
Local Open Scope Z_scope.
Local Open Scope kmonad_scope.

Module EventProof.

(** What a thread that waits for [set] with options [info] receives from the
    flags [have], if it is satisfied. *)
Definition ev_match (set info have : Z) : option Z :=
  if flag_on info RT_EVENT_FLAG_AND then
    if Z.land set have =? set then Some set else None
  else if flag_on info RT_EVENT_FLAG_OR then
    if flag_on set have then Some (Z.land set have) else None
  else None.

Section serve.
Context (want : nat -> Z * Z).

(** The woken threads with what they receive, the threads that keep waiting,
    and the flags that are left. *)
Fixpoint serve (ws : list nat) (have : Z) : list (nat * Z) * list nat * Z :=
  match ws with
  | [] => ([], [], have)
  | w :: ws =>
      let '(set, info) := want w in
      match ev_match set info have with
      | None => let '(woken, waiting, rest) := serve ws have in (woken, w :: waiting, rest)
      | Some got =>
          let have := if flag_on info RT_EVENT_FLAG_CLEAR then Z.land have (Z.lnot got) else have in
          let '(woken, waiting, rest) := serve ws have in ((w, got) :: woken, waiting, rest)
      end
  end.

Lemma serve_woken ws have x : x ∈ (serve ws have).1.1 -> x.1 ∈ ws.
Proof.
  revert have. induction ws as [|w ws IH]; intros have; simpl; [set_solver|].
  destruct (want w) as [set info]. destruct (ev_match set info have) as [got|].
  - specialize (IH (if flag_on info RT_EVENT_FLAG_CLEAR then Z.land have (Z.lnot got) else have)).
    destruct (serve ws _) as [[woken waiting] rest]. simpl in *.
    intros [->|Hx]%elem_of_cons; [simpl; set_solver|]. right. auto.
  - specialize (IH have). destruct (serve ws _) as [[woken waiting] rest]. simpl in *. intros Hx. right. auto.
Qed.
End serve.

(** The fields the loop leaves alone. *)
Definition same_context (s s' : kview) : Prop :=
  k_primask s' = k_primask s /\ k_lock_nest s' = k_lock_nest s /\ k_current s' = k_current s /\
  k_irq_nest s' = k_irq_nest s /\ k_pendsv s' = k_pendsv s.

(** What waking the threads of [woken] has done. *)
Definition served (woken : list (nat * Z)) (s s' : kview) : Prop :=
  (forall w got, (w, got) ∈ woken -> exists th, k_threads s' !! w = Some th /\
     thread_stat th = RT_THREAD_READY /\ t_event_set th = got) /\
  (forall t, t ∉ woken.*1 -> k_threads s' !! t = k_threads s !! t).

Lemma queue_nodup (s : kview) h (ws : list nat) :
  links_ok (k_links s) -> k_links s !! h = Some (LTlist <$> ws) -> NoDup ws.
Proof.
  intros HV Hw. pose proof (coherent_nodup _ _ _ (lo_coherent _ HV) Hw) as Hnd.
  by apply NoDup_fmap in Hnd; [|intros ? ? [=]].
Qed.

(** One satisfied thread is woken: the record first gets what it receives, then
    the thread is resumed. *)
Lemma wake_one idle s Q h A w ws th got e i :
  kinv idle s Q -> k_primask s = 1 -> wait_head h = true ->
  k_links s !! h = Some (LTlist <$> A ++ w :: ws) ->
  k_threads s !! w = Some th -> k_events s !! i = Some e ->
  forall e', let s1 := set_events (<[i := e']> (k_events s))
    (set_threads (<[w := set_t_event_set got th]> (k_threads s)) s) in
  exists s' Q', rt_thread_resume w s1 = Ok RT_EOK s' /\ kinv idle s' Q' /\ same_context s s' /\
    k_events s' = <[i := e']> (k_events s) /\ k_links s' !! h = Some (LTlist <$> A ++ ws) /\
    (exists th', k_threads s' !! w = Some th' /\ thread_stat th' = RT_THREAD_READY /\ t_event_set th' = got) /\
    (forall t, t <> w -> k_threads s' !! t = k_threads s !! t).
Proof.
  intros HI Hpm Hh Hq Hw He e' s1. set (th1 := set_t_event_set got th) in s1.
  assert (thread_stat th = RT_THREAD_SUSPEND) as Hst.
  { destruct (waiter_exists idle s Q h (A ++ w :: ws) w HI Hh Hq) as (x & Hx & Hs); [set_solver|]. congruence. }
  assert (kinv idle s1 Q) as HI1.
  { eapply kinv_frame; [..|by apply (kinv_field idle s Q w th th1)]; done. }
  destruct (resume_ok idle s1 Q w th1 HI1) as (V & T & G & r & E & HI' & _ & HV);
    [by apply quiet_masked|apply lookup_insert_eq|done|].
  eexists _, _. split; [exact E|]. split; [exact HI'|]. split; [done|]. split; [done|]. split; [|split].
  - simpl. rewrite HV; [|by destruct h|by destruct h]. simpl. rewrite Hq. simpl. f_equal.
    rewrite fmap_drop_node, drop_node_notin by apply row_not_ready. f_equal.
    pose proof (queue_nodup s h _ (si_links _ _ (ki_sched _ _ _ HI)) Hq) as Hnd.
    apply NoDup_app in Hnd as (_ & H1 & [H2 _]%NoDup_cons).
    apply drop_node_split; [|done]. intros Hx. apply (H1 w Hx). set_solver.
  - eexists. split; [apply lookup_insert_eq|]. split; [apply stat_ready|done].
  - intros t Ht. simpl. by rewrite !lookup_insert_ne.
Qed.

(** What the threads of a state wait for. *)
Definition wants (TH : gmap nat rt_thread) (w : nat) : Z * Z :=
  match TH !! w with Some th => (t_event_set th, t_event_info th) | None => (0, 0) end.

Lemma serve_ext f g ws have : (forall w, w ∈ ws -> f w = g w) -> serve f ws have = serve g ws have.
Proof.
  revert have. induction ws as [|w ws IH]; intros have Hfg; [done|]. simpl.
  rewrite (Hfg w) by set_solver. destruct (g w) as [set info].
  destruct (ev_match set info have); by rewrite IH by set_solver.
Qed.

(** The body of the loop for one thread. *)
Lemma event_loop_step idle s Q i A w ws th e fuel need :
  kinv idle s Q -> k_links s !! LSuspend (IEvent i) = Some (LTlist <$> A ++ w :: ws) ->
  k_threads s !! w = Some th -> k_events s !! i = Some e ->
  let n := default (LSuspend (IEvent i)) (head (LTlist <$> ws)) in
  event_send_loop (S fuel) i (LTlist w) need s =
  match ev_match (t_event_set th) (t_event_info th) (ev_set e) with
  | None => event_send_loop fuel i n need s
  | Some got => (rt_thread_resume w ;! event_send_loop fuel i n true)
      (set_events (<[i := if flag_on (t_event_info th) RT_EVENT_FLAG_CLEAR
          then set_ev_set (Z.land (ev_set e) (Z.lnot got)) e else e]> (k_events s))
        (set_threads (<[w := set_t_event_set got th]> (k_threads s)) s))
  end.
Proof.
  intros HI Hq Ht He n.
  assert (v_next (k_links s) (LTlist w) = Some n) as En.
  { rewrite fmap_app in Hq. apply (queue_next_member _ _ _ _ _ (lo_coherent _ (si_links _ _ (ki_sched _ _ _ HI))) Hq). }
  assert (set_events (<[i := e]> (k_events s)) s = s) as Eid by (rewrite insert_id by done; by destruct s).
  unfold ev_match. simpl. unfold get_thread, get_event, bind, gets, ret. simpl. rewrite Ht. simpl. rewrite He. simpl.
  destruct (flag_on (t_event_info th) RT_EVENT_FLAG_AND).
  - destruct (Z.land (t_event_set th) (ev_set e) =? t_event_set th); simpl; unfold list_next; simpl; rewrite En; simpl; [|done].
    unfold get_thread, put_event, bind, gets, modify. simpl. rewrite Ht. simpl.
    assert (set_threads (<[w := set_t_event_set (t_event_set th) th]> (k_threads s)) s = s) as ->.
    { replace (set_t_event_set (t_event_set th) th) with th by (by destruct th).
      rewrite insert_id by done. by destruct s. }
    destruct (flag_on (t_event_info th) RT_EVENT_FLAG_CLEAR); simpl; [done|]. by rewrite Eid.
  - destruct (flag_on (t_event_info th) RT_EVENT_FLAG_OR); [|simpl; unfold list_next; simpl; by rewrite En].
    destruct (flag_on (t_event_set th) (ev_set e)); simpl; unfold list_next; simpl; rewrite En; simpl; [|done].
    unfold get_thread, put_event, bind, gets, modify. simpl. rewrite lookup_insert_eq. simpl.
    destruct (flag_on (t_event_info th) RT_EVENT_FLAG_CLEAR); simpl; [done|].
    rewrite (insert_id (k_events s) i e He). by destruct s.
Qed.

Lemma same_context_trans s1 s2 s3 : same_context s1 s2 -> same_context s2 s3 -> same_context s1 s3.
Proof. intros (E1 & E2 & E3 & E4 & E5) (F1 & F2 & F3 & F4 & F5). unfold same_context. by rewrite F1, F2, F3, F4, F5. Qed.

Lemma served_cons s s1 s' w got woken :
  (forall x, x ∈ woken -> x.1 <> w) ->
  (exists th, k_threads s1 !! w = Some th /\ thread_stat th = RT_THREAD_READY /\ t_event_set th = got) ->
  (forall t, t <> w -> k_threads s1 !! t = k_threads s !! t) ->
  served woken s1 s' -> served ((w, got) :: woken) s s'.
Proof.
  intros Hne (th & Ht & Hst & Hg) Ho [H1 H2].
  assert (w ∉ woken.*1) as Hw by (intros (x & -> & Hx)%list_elem_of_fmap; by apply (Hne x Hx)).
  split.
  - intros u g [[= -> ->]|Hu]%elem_of_cons; [|by apply H1]. exists th. by rewrite H2.
  - intros t Hn. simpl in Hn. apply not_elem_of_cons in Hn as [Hn1 Hn2]. rewrite H2 by done. by apply Ho.
Qed.

(** The whole loop does what [serve] says. *)
Lemma event_loop_ok idle i ws : forall A s Q e fuel need,
  kinv idle s Q -> k_primask s = 1 -> k_events s !! i = Some e ->
  k_links s !! LSuspend (IEvent i) = Some (LTlist <$> A ++ ws) -> (length ws < fuel)%nat ->
  let '(woken, waiting, rest) := serve (wants (k_threads s)) ws (ev_set e) in
  exists s' Q',
    event_send_loop fuel i (default (LSuspend (IEvent i)) (head (LTlist <$> ws))) need s =
      Ok (need || bool_decide (woken <> [])) s' /\
    kinv idle s' Q' /\ same_context s s' /\
    k_events s' = <[i := set_ev_set rest e]> (k_events s) /\
    k_links s' !! LSuspend (IEvent i) = Some (LTlist <$> A ++ waiting) /\ served woken s s'.
Proof.
  induction ws as [|w ws IH]; intros A s Q e fuel need HI Hpm He Hq Hf; (destruct fuel as [|fuel]; [simpl in Hf; lia|]).
  - simpl. exists s, Q. rewrite bool_decide_true by done. rewrite orb_false_r. split; [done|].
    split; [done|]. split; [done|]. split; [|split; [done|split; [intros ? ?; set_solver|done]]].
    replace (set_ev_set (ev_set e) e) with e by (by destruct e). by rewrite insert_id.
  - destruct (waiter_exists idle s Q (LSuspend (IEvent i)) (A ++ w :: ws) w HI eq_refl Hq) as (th & Ht & _); [set_solver|].
    pose proof (queue_nodup s _ _ (si_links _ _ (ki_sched _ _ _ HI)) Hq) as Hnd.
    apply NoDup_app in Hnd as (_ & _ & [Hw Hnd]%NoDup_cons).
    pose proof (event_loop_step idle s Q i A w ws th e fuel need HI Hq Ht He) as Estep. cbv zeta in Estep.
    simpl serve. unfold wants at 1. rewrite Ht. simpl in Hf.
    change (default (LSuspend (IEvent i)) (head (LTlist <$> w :: ws))) with (LTlist w).
    destruct (ev_match (t_event_set th) (t_event_info th) (ev_set e)) as [got|].
    + set (e' := if flag_on _ _ then _ else _) in Estep.
      destruct (wake_one idle s Q (LSuspend (IEvent i)) A w ws th got e i HI Hpm eq_refl Hq Ht He e')
        as (s1 & Q1 & E1 & HI1 & Hc1 & He1 & Hq1 & Hw1 & Ho1).
      specialize (IH A s1 Q1 e' fuel true HI1). 
      rewrite (serve_ext (wants (k_threads s1)) (wants (k_threads s))) in IH.
      2:{ intros u Hu. unfold wants. rewrite Ho1; [done|]. by intros ->. }
      assert (ev_set e' = if flag_on (t_event_info th) RT_EVENT_FLAG_CLEAR then Z.land (ev_set e) (Z.lnot got) else ev_set e) as Ee
        by (unfold e'; by destruct (flag_on _ _)).
      rewrite Ee in IH. destruct (serve _ ws _) as [[woken waiting] rest] eqn:Es.
      destruct IH as (s' & Q' & E & HI' & Hc & Hev & Hl & Hs1 & Hs2);
        [by destruct Hc1 as [-> _]|rewrite He1; apply lookup_insert_eq|done|lia|].
      exists s', Q'. split.
      { rewrite Estep. unfold bind. rewrite E1. simpl res_bind. rewrite E. by rewrite (bool_decide_true ((w, got) :: woken <> [])), orb_true_r. }
      split; [done|]. split; [by apply (same_context_trans s s1)|].
      split; [rewrite Hev, He1, insert_insert_eq; unfold e'; by destruct (flag_on _ _)|].
      split; [done|]. apply (served_cons s s1); [|done|done|by split].
      intros x Hx <-. apply Hw. pose proof (fun have => serve_woken (wants (k_threads s)) ws have x) as Hsw.
      specialize (Hsw (if flag_on (t_event_info th) RT_EVENT_FLAG_CLEAR then Z.land (ev_set e) (Z.lnot got) else ev_set e)).
      rewrite Es in Hsw. auto.
    + specialize (IH (A ++ [w]) s Q e fuel need HI). rewrite <-app_assoc in IH. simpl in IH.
      destruct (serve _ ws _) as [[woken waiting] rest] eqn:Es.
      destruct IH as (s' & Q' & E & HI' & Hc & Hev & Hl & Hs); [done|done|done|lia|].
      exists s', Q'. rewrite <-app_assoc in Hl. split; [rewrite Estep; exact E|]. done.
Qed.
End EventProof.
