(* ===== verification/EventTheorems.v ===== *)
(** * Events: the theorems about [rt_event_send] and [rt_event_recv] *)
From S2P Require Import Prelude Kservice RtList KMonad KState KPrim KInv Scheduler Object TimerBase Thread Timer Ipc IpcMsg KernelInv WaitProof TimerProof BlockProof Board SchedTheorems EventProof.
Import Scheduler Object TimerBase Thread Timer IpcCore Event EventProof SchedTheorems.
Local Open Scope Z_scope.
Local Open Scope kmonad_scope.

Module EventTheorems.

(** C17: [rt_event_send] serves the waiting threads in order.  An empty set is
    refused with [-RT_ERROR].  Otherwise the flags are added and every waiting
    thread whose condition (all of its flags, or any of them) the flags satisfy
    at its turn is made ready with the flags it receives, which are cleared for
    the threads behind it if it asked for that; the others keep waiting in
    their order, no other thread changes, and the scheduler runs exactly when
    a thread was woken. *)
Theorem event_send_serves idle s Q i e ws set from :
  kinv idle s Q -> quiet s -> k_lock_nest s = 0 -> k_current s = Some from ->
  k_events s !! i = Some e -> k_links s !! LSuspend (IEvent i) = Some (LTlist <$> ws) ->
  (set = 0 -> rt_event_send i set s = Ok (- RT_ERROR) s) /\
  (set <> 0 ->
   let '(woken, waiting, rest) := serve (wants (k_threads s)) ws (Z.lor (ev_set e) set) in
   exists s' Q', kinv idle s' Q' /\
     k_events s' = <[i := set_ev_set rest e]> (k_events s) /\
     k_links s' !! LSuspend (IEvent i) = Some (LTlist <$> waiting) /\ served woken s s' /\
     match woken with
     | [] => rt_event_send i set s = Ok RT_EOK s'
     | _ => exists p to q, is_highest Q' p /\ Q' p = to :: q /\
         rt_event_send i set s = res_bind (reschedule p to from s') (fun _ => ret RT_EOK)
     end).
Proof.
  intros HI Hq Hl Hc He Hw. split; [by intros ->|]. intros Hset.
  set (e1 := set_ev_set (Z.lor (ev_set e) set) e).
  set (s1 := set_events (<[i := e1]> (k_events s)) (set_primask 1 s)).
  assert (kinv idle s1 Q) as HI1 by (eapply kinv_frame; [..|exact HI]; done).
  pose proof (queue_isempty _ _ _ (lo_coherent _ (si_links _ _ (ki_sched _ _ _ HI))) Hw) as Hem.
  assert (rt_event_send i set s =
    (let! need_schedule := (if negb (bool_decide (LTlist <$> ws = [])) then
         let! n := list_next (LSuspend (IEvent i)) in
         let! fuel := list_fuel in event_send_loop fuel i n false else ret false) in
     rt_hw_interrupt_enable (k_primask s) ;!
     (if need_schedule : bool then rt_schedule else ret tt) ;! ret RT_EOK) s1) as ->.
  { unfold rt_event_send. rewrite (proj2 (Z.eqb_neq _ _) Hset).
    unfold rt_hw_interrupt_disable, upd_event, get_event, put_event, list_isempty, bind, gets, modify, ret. simpl.
    rewrite He. simpl. by rewrite Hem. }
  pose proof (event_loop_ok idle i ws [] s1 Q e1 (S (size (k_links s))) false HI1 eq_refl) as Hloop.
  change (k_threads s1) with (k_threads s) in Hloop. change (ev_set e1) with (Z.lor (ev_set e) set) in Hloop.
  destruct (serve _ ws _) as [[woken waiting] rest] eqn:Es.
  destruct Hloop as (s2 & Q2 & E & HI2 & (C1 & C2 & C3 & C4 & C5) & Hev & Hli & Hsv).
  { apply lookup_insert_eq. } { done. }
  { pose proof (coherent_size _ _ _ (lo_coherent _ (si_links _ _ (ki_sched _ _ _ HI))) Hw) as Hsz.
    rewrite length_fmap in Hsz. lia. }
  simpl in C2, C3, C4, C5.
  set (s3 := set_primask (k_primask s) s2).
  assert (kinv idle s3 Q2) as HI3 by (eapply kinv_frame; [..|exact HI2]; done).
  assert (quiet s3) as Hq3 by (intros Ha Hb; simpl; rewrite C5; apply Hq; [exact Ha|rewrite <-C4; exact Hb]).
  exists s3, Q2. split; [done|].
  split; [simpl; rewrite Hev; simpl; by rewrite insert_insert_eq|].
  split; [exact Hli|]. split; [exact Hsv|].
  assert ((let! need_schedule := (if negb (bool_decide (LTlist <$> ws = [])) then
         let! n := list_next (LSuspend (IEvent i)) in
         let! fuel := list_fuel in event_send_loop fuel i n false else ret false) in
     rt_hw_interrupt_enable (k_primask s) ;!
     (if need_schedule : bool then rt_schedule else ret tt) ;! ret RT_EOK) s1 =
    ((if bool_decide (woken <> []) then rt_schedule else ret tt) ;! ret RT_EOK) s3) as ->.
  { erewrite bind_ok.
    2:{ instantiate (1 := s2). instantiate (1 := bool_decide (woken <> [])).
        destruct ws as [|w ws].
        - simpl in Es. injection Es as <- <- <-. unfold ret.
          simpl in E. rewrite bool_decide_true in E by done. injection E as E. by rewrite E.
        - rewrite bool_decide_false by done. simpl negb. cbv iota.
          unfold list_next, list_fuel, bind, gets, ret. simpl.
          rewrite (queue_next_head _ _ _ Hw). exact E. }
    rewrite (bind_ok (rt_hw_interrupt_enable (k_primask s)) _ s2 tt s3)
      by (rewrite interrupt_enable_quiet by exact Hq3; done). done. }
  destruct woken as [|x woken]; [by rewrite bool_decide_false by naive_solver|].
  rewrite bool_decide_true by done.
  destruct (kinv_schedule idle s3 Q2 from HI3 Hq3) as (p & to & q & Hp & HQ & Esch); [simpl; congruence|simpl; congruence|].
  exists p, to, q. split; [done|]. split; [done|]. unfold bind. by rewrite Esch.
Qed.

(** Thread 3 waits for flags 1 and 2 and clears them; thread 2 sends 1, 2 and 4. *)
Definition waits12 : kview := default Board.reset_state (first_state
  (rt_event_recv 0 3 (Z.lor RT_EVENT_FLAG_AND RT_EVENT_FLAG_CLEAR) 10 Board.board)).

Definition event_of (s : kview) (i : nat) : rt_event := default (Event Board.blank_object 0) (k_events s !! i).

Lemma event_of_lookup s i : Board.is_some_b (k_events s !! i) = true -> k_events s !! i = Some (event_of s i).
Proof. unfold event_of. by destruct (k_events s !! i). Qed.

Example event_send_serves_witness :
  exists s' Q', kinv Board.idle s' Q' /\
    k_links s' !! LSuspend (IEvent 0) = Some [] /\ served [(3%nat, 3)] waits12 s' /\
    exists p to q, is_highest Q' p /\ Q' p = to :: q /\
      rt_event_send 0 7 waits12 = res_bind (reschedule p to 2 s') (fun _ => ret RT_EOK).
Proof.
  destruct (event_send_serves Board.idle waits12 (Board.queues_of waits12) 0 (event_of waits12 0) [3%nat] 7 2)
    as [_ H].
  - apply Board.kinv_b_sound. vm_compute. reflexivity.
  - intros _ _. vm_compute. reflexivity.
  - vm_compute. reflexivity.
  - vm_compute. reflexivity.
  - apply event_of_lookup. vm_compute. reflexivity.
  - vm_compute. reflexivity.
  - revert H.
    assert (serve (wants (k_threads waits12)) [3%nat] (Z.lor (ev_set (event_of waits12 0)) 7) =
      ([(3%nat, 3)], [], 4)) as -> by (vm_compute; reflexivity).
    intros H. destruct H as (s' & Q' & HI & _ & Hl & Hs & Hm); [discriminate|]. exists s', Q'. auto.
Defined.

(** ** Receiving *)

(** Whether the flags [have] satisfy a receiver. *)
Definition satisfied (set opt have : Z) : bool :=
  if flag_on opt RT_EVENT_FLAG_AND then Z.land have set =? set else flag_on have set.

(** What [rt_event_recv] does.  When the flags satisfy the caller it
    returns at once with those of its flags that are set, which are cleared if
    it asked for that; otherwise a caller that does not wait gets
    [-RT_ETIMEOUT]; otherwise it records what it waits for, waits in the event's
    list at the place its flag says, and the processor goes to the highest
    ready thread.  When it runs again it returns its error number, and with
    error 0 the flags the sender recorded for it. *)
Theorem event_recv_behaviour idle s Q i e ws t th set opt timeout :
  kinv idle s Q -> thread_ctx s t -> k_threads s !! t = Some th ->
  thread_stat th = RT_THREAD_READY -> t <> idle ->
  k_events s !! i = Some e -> k_links s !! LSuspend (IEvent i) = Some (LTlist <$> ws) ->
  (o_flag (ev_parent e) = RT_IPC_FLAG_FIFO \/ o_flag (ev_parent e) = RT_IPC_FLAG_PRIO) ->
  set <> 0 -> timeout < half_tick ->
  flag_on opt RT_EVENT_FLAG_AND || flag_on opt RT_EVENT_FLAG_OR = true ->
  let errno x := set_threads (<[t := set_t_error x th]> (k_threads s)) s in
  (satisfied set opt (ev_set e) = true ->
     rt_event_recv i set opt timeout s = Ok (RT_EOK, Some (Z.land (ev_set e) set))
       (if flag_on opt RT_EVENT_FLAG_CLEAR
        then set_events (<[i := set_ev_set (Z.land (ev_set e) (Z.lnot set)) e]> (k_events s)) (errno RT_EOK)
        else errno RT_EOK)) /\
  (satisfied set opt (ev_set e) = false -> timeout = 0 ->
     rt_event_recv i set opt timeout s = Ok (- RT_ETIMEOUT, None) (errno (- RT_ETIMEOUT))) /\
  (satisfied set opt (ev_set e) = false -> timeout <> 0 -> exists to s' k th',
     rt_event_recv i set opt timeout s = Switch t to s' k /\ running idle s' to /\
     k_threads s' !! t = Some th' /\ thread_stat th' = RT_THREAD_SUSPEND /\
     t_event_set th' = set /\ t_event_info th' = opt /\
     k_links s' !! LSuspend (IEvent i) =
       Some (LTlist <$> wait_insert (prio_in (k_threads s)) (o_flag (ev_parent e)) t ws) /\
     (forall s2 th2, quiet s2 -> k_threads s2 !! t = Some th2 ->
        k s2 = Ok (t_error th2, if t_error th2 =? RT_EOK then Some (t_event_set th2) else None) s2)).
Proof.
  intros HI Hc Ht Hst Hid He Hw Hf Hset Htime Hopt errno. pose proof Hc as [C1 C2 C3 C4 C5].
  pose proof (ctx_quiet _ _ Hc) as Hq. set (s1 := set_primask 1 (errno RT_EOK)).
  assert (rt_event_recv i set opt timeout s =
    (if satisfied set opt (ev_set e) then
       (if flag_on opt RT_EVENT_FLAG_CLEAR
        then put_event i (set_ev_set (Z.land (ev_set e) (Z.lnot set)) e) else ret tt) ;!
       rt_hw_interrupt_enable 0 ;!
       let! th := get_thread t in ret (t_error th, Some (Z.land (ev_set e) set))
     else if timeout =? 0 then
       upd_thread t (set_t_error (- RT_ETIMEOUT)) ;!
       rt_hw_interrupt_enable 0 ;!
       let! th := get_thread t in ret (t_error th, None)
     else
       upd_thread t (fun th => set_t_event_info opt (set_t_event_set set th)) ;!
       rt_ipc_list_suspend (LSuspend (IEvent i)) t (o_flag (ev_parent e)) ;!
       (if 0 <? timeout then start_wait_timer t timeout else ret tt) ;!
       rt_hw_interrupt_enable 0 ;!
       rt_schedule ;!
       let! th := get_thread t in
       if negb (t_error th =? RT_EOK) then ret (t_error th, None)
       else
         let! level := rt_hw_interrupt_disable in
         let! th := get_thread t in
         rt_hw_interrupt_enable level ;!
         let! th' := get_thread t in ret (t_error th', Some (t_event_set th))) s1) as ->.
  { unfold rt_event_recv. rewrite (bind_ok _ _ _ _ _ (thread_context_ok s t Hq C5 C2)).
    rewrite (proj2 (Z.eqb_neq _ _) Hset).
    unfold current_deref, rt_thread_self, upd_thread, get_thread, put_thread, rt_hw_interrupt_disable, get_event,
      bind, gets, modify, ret. simpl. rewrite C5. simpl. rewrite Ht. simpl. rewrite He, C1. simpl.
    unfold satisfied. destruct (flag_on opt RT_EVENT_FLAG_AND).
    - by destruct (Z.land (ev_set e) set =? set).
    - simpl in Hopt. rewrite Hopt. by destruct (flag_on (ev_set e) set). }
  split; [|split].
  - intros ->. unfold put_event, get_thread, bind, gets, modify, ret.
    destruct (flag_on opt RT_EVENT_FLAG_CLEAR); simpl;
      rewrite interrupt_enable_quiet by (intros _ _; exact C3); simpl; rewrite lookup_insert_eq; simpl;
      f_equal; unfold errno; destruct s; simpl in *; by subst.
  - intros -> ->. simpl. unfold upd_thread, get_thread, put_thread, bind, gets, modify, ret. simpl.
    rewrite lookup_insert_eq. simpl. rewrite interrupt_enable_quiet by (intros _ _; exact C3). simpl.
    rewrite lookup_insert_eq. simpl. rewrite insert_insert_eq. f_equal. unfold errno. destruct s; simpl in *; by subst.
  - intros -> Hnz. rewrite (proj2 (Z.eqb_neq _ _) Hnz).
    set (th1 := set_t_event_info opt (set_t_event_set set (set_t_error RT_EOK th))).
    set (s2 := set_primask 1 (set_threads (<[t := th1]> (k_threads s)) s)).
    rewrite (bind_ok _ _ _ tt s2).
    2:{ unfold upd_thread, get_thread, put_thread, bind, gets, modify. simpl. rewrite lookup_insert_eq. simpl.
        by rewrite insert_insert_eq. }
    assert (kinv idle s2 Q) as HI2.
    { eapply kinv_frame; [..|by apply (kinv_field idle s Q t th th1)]; done. }
    match goal with |- context [(rt_ipc_list_suspend _ _ _ ;! _ ;! _ ;! rt_schedule ;! ?k)%M] =>
      destruct (block_eq k idle s2 Q (LSuspend (IEvent i)) ws t th1 (o_flag (ev_parent e)) timeout)
        as (V & T & G & r & n & p & to & E & [HG Hne] & _ & HV & _);
        [done|by split|done|done|done|apply lookup_insert_eq|done|done|done|done|] end.
    eexists to, _, _, (make_suspended th1). split; [exact E|]. split; [exact HG|].
    split; [apply lookup_insert_eq|]. split; [apply stat_suspended|]. split; [done|]. split; [done|]. split.
    + simpl. rewrite HV. do 2 f_equal. apply wait_insert_ext. intros u.
      by apply (prio_in_insert (k_threads s) t th th1).
    + intros s3 th3 Hq3 H3. unfold get_thread, rt_hw_interrupt_disable, bind, gets, modify, ret. simpl.
      rewrite H3. simpl. destruct (Z.eqb_spec (t_error th3) RT_EOK) as [Ee|Ee]; simpl; [|done].
      rewrite H3. simpl. rewrite interrupt_enable_quiet by (unfold quiet; done). simpl. rewrite H3. simpl.
      rewrite Ee. by destruct s3.
Qed.

Example event_recv_behaviour_witness :
  exists to s' k th', rt_event_recv 0 3 RT_EVENT_FLAG_AND 10 Board.board = Switch 3 to s' k /\
    running Board.idle s' to /\ k_threads s' !! 3%nat = Some th' /\ t_event_set th' = 3.
Proof.
  destruct (event_recv_behaviour Board.idle Board.board (Board.queues_of Board.board) 0 (event_of Board.board 0) []
    3 (Board.thread_of Board.board 3) 3 RT_EVENT_FLAG_AND 10) as (_ & _ & H).
  - apply Board.board_kinv.
  - apply Board.board_running.
  - apply Board.thread_of_lookup. vm_compute. reflexivity.
  - vm_compute. reflexivity.
  - discriminate.
  - apply event_of_lookup. vm_compute. reflexivity.
  - vm_compute. reflexivity.
  - left. vm_compute. reflexivity.
  - discriminate.
  - reflexivity.
  - reflexivity.
  - destruct H as (to & s' & k & th' & E & Hr & Ht & _ & Hs & _); [vm_compute; reflexivity|discriminate|].
    exists to, s', k, th'. auto.
Defined.
End EventTheorems.
